(* ===== verification/_CoqProject ===== *)
-Q . S2P
Prelude.v
KMath.v
KMathSpec.v
KList.v
Sched.v
Kmutex.v
Vmmap.v
PageAlloc.v
Slab.v
SlabInv.v
SlabOps.v
SlabSpec.v
Kmalloc.v
SlabPages.v
PageTable.v
PageTableInv.v
PageTableSpec.v
PageInit.v
PageInitSpec.v
PageTableRam.v
VirtTerm.v
VirtTermSpec.v
VirtTermOps.v
VirtTermSafe.v
KString.v
InitCalls.v
InitSpec.v
Printf.v
PrintfSpec.v
Scanf.v
ScanfSpec.v
Vnode.v
Ramfs.v
RamfsInv.v
RamfsDir.v
RamfsOps.v
RamfsFile.v
Vfs.v
VfsName.v
VfsFiles.v
VfsCalls.v
VfsPaths.v
VfsSpec.v
Proc.v
ProcTree.v
ProcInv.v
ProcExit.v
ProcWait.v
ProcSpec.v
