(* ===== verification/Prelude.v ===== *)
(** * A verification library for the Weenix kernel

    Weenix is a small Unix-like kernel for 32-bit x86, with one thread per process
    (the build has DRIVERS, VFS, S5FS and VM on; MTP, GETCWD, MOUNTING, SHADOWD and
    UPREEMPT off).  This library models the parts of it that carry its own logic as
    executable functions on explicit states and proves what they guarantee.  All
    paths below are relative to [src/weenix/kernel].

    ** The parts and how they interact

    Threads run until they sleep or yield; [proc/sched.c] keeps them on queues and
    switches between them, [proc/kmutex.c] builds mutexes on that.  Memory pages come
    from the buddy allocator of [mm/page.c], memory for kernel objects from the slab
    allocators of [mm/slab.c] on top of it; [mm/pagetable.c] sets up paging when the kernel
    starts, gives the memory that is left to the page allocator and takes from it the pages
    of directories and page tables; a process's address space is the list of
    areas of [vm/vmmap.c].  [proc/proc.c] and [proc/kthread.c] keep the tree of
    processes: creation, exit and waiting, which sleeps on and wakes queues of the
    scheduler.  System calls on files ([fs/vfs_syscall.c], [fs/open.c])
    use the open files of [fs/file.c] and the path resolution of [fs/namev.c]; these
    work on vnodes, which [fs/vnode.c] counts and caches on behalf of a file system;
    [fs/ramfs/ramfs.c] is the one modelled.  The terminals of [drivers/tty/virtterm.c]
    take characters to show and pass on those the keyboard's interrupt handler makes of
    scan codes.  Everything uses the lists of
    [include/util/list.h], the strings of [util/string.c], the formatted output of
    [util/printf.c] and, where the compiler divides 64-bit numbers, [util/math.c].

    ** The files

    - [Prelude]: outcomes and the kernel monad, the judgement [runs] (an operation
      returns, and its result and state satisfy a condition), machine integers, error
      numbers, sums over finite maps.
    - [KMath] ([util/math.c]): the division of 64-bit numbers by Knuth's algorithm D in
      halves of 16 bits, and [log2]; [KMathSpec]: its theorems.
    - [KList] ([include/util/list.h]): circular doubly linked lists in a heap of cells;
      every operation refines the operation on sequences.
    - [Sched] ([proc/sched.c]): threads, wait queues, the run queue, [sched_switch].
      A thread that is switched out is the continuation in an [Env] outcome.  The
      state has a component [ext] for clients.
    - [Kmutex] ([proc/kmutex.c]): mutexes, and a step relation for a system of threads
      that lock, unlock, sleep, wake, yield and cancel each other.
    - [Vmmap] ([vm/vmmap.c], with the creation of objects in [vm/anon.c],
      [vm/shadow.c] and [include/mm/mmobj.h]): areas, insertion, lookup, removal,
      mapping; objects are reference counts.
    - [PageAlloc] ([mm/page.c], [include/util/bits.h]): page groups, their free lists
      and bitmaps, splitting and joining of blocks.
    - [Slab] ([mm/slab.c]): allocators of objects of one size, their slabs at the
      addresses the code computes, reclaiming, [kmalloc] and [kfree], against the class
      [PageSource].
    - [SlabInv], [SlabOps], [SlabSpec]: the invariant of the slab allocators over a view
      of slabs and free objects, what each loop does to it, and the theorems on objects.
      [Kmalloc]: the sizes of slabs, creating allocators, [kmalloc] and [kfree].
      [SlabPages]: the instance of [PageSource] and of its laws by [PageAlloc].
    - [PageTable] ([mm/pagetable.c]): directories and page tables as pages of words, which
      are found by kernel addresses and, as the processor does it, by physical ones; over
      [PageSource].  [PageTableInv], [PageTableSpec]: which pages belong to which directory,
      and the theorems.  [PageInit] ([pt_init], [mm/phys.c]) and [PageInitSpec]: how paging
      is set up.  [PageTableRam]: all this over the page allocator of [PageAlloc], on a
      machine with a small memory.
    - [VirtTerm] ([drivers/tty/virtterm.c], [screen.c], [keyboard.c]): terminals as circular
      buffers, video memory, the keyboard's interrupt handler; [VirtTermSpec]: the invariant of
      a terminal, its text and its image on the screen; [VirtTermOps]: scrolling, switching,
      keys and start-up; [VirtTermSafe]: the theorems.
    - [KString] ([util/string.c]): the string routines on arrays of characters; an
      access outside an array is a failure.
    - [Printf], [Scanf] ([util/printf.c], [include/ctype.h]): formatted output into memory
      and formatted input; [PrintfSpec], [ScanfSpec]: a reference rendering of formats and
      the theorems.
    - [InitCalls] ([util/init.c], [include/util/init.h]): the section of initialisation
      functions and the order they are called in; [InitSpec]: its theorems.
    - [Vnode] ([fs/vnode.c]): the table of vnodes over a file system given by the
      class [FsOps]; devices and page frames are the class [Platform].
    - [Ramfs] ([fs/ramfs/ramfs.c]): inodes, directories as arrays of entries, all
      operations; the instance [ramfs_ops] of [FsOps].
    - [RamfsInv], [RamfsDir], [RamfsOps], [RamfsFile]: the invariant of the RAM file
      system and the specification of its operations.
    - [Vfs] ([fs/file.c], [fs/open.c], [fs/namev.c], [fs/vfs_syscall.c], and the
      mounting part of [fs/vfs.c]): open files, path resolution and the system calls
      of one process, against the class [VnodeOps]; the instance [ramfs_vops].
    - [VfsName], [VfsFiles], [VfsCalls], [VfsPaths], [VfsSpec]: path resolution, the
      invariant that accounts for every reference, the calls on descriptors and those on
      path names, and the theorems of the system calls.
    - [Proc] ([proc/proc.c], [proc/kthread.c], the first processes of [main/kmain.c]):
      the table of processes over the scheduler and the file system of [Vfs]; the address
      space is the class [AddrSpace].
    - [ProcTree]: the tree of processes as a finite map and what creation, exit and
      disposal do to it; [ProcInv], [ProcExit], [ProcWait]: the invariant of the process
      table and the steps of the operations; [ProcSpec]: the theorems.

    ** How code is modelled

    A pointer is an integer and designates an object in a map of the state; following
    a pointer that designates nothing, failing a [KASSERT], calling [panic], writing
    outside an array and reading a variable that was never set are all [Panic].
    Memory that is freed is removed from its map, and addresses are not used again,
    so that a use after free is a [Panic].  Integers are kept at their width with
    [u32] and [s32] wherever they are computed.  [dbg] output has no effect.

    ** What is proved

    - [KMathSpec]: the division returns the quotient and the remainder of every two numbers.
    - [KList]: insertion and removal refine sequences; iteration may remove the
      current cell.
    - [Sched]: waking, broadcasting, cancelling, and that [sched_switch] on an empty
      run queue waits for an interrupt and then runs the oldest runnable thread.
    - [Kmutex]: mutual exclusion in every reachable state, who gets the mutex, and a
      run in which a cancelled waiter is told it was interrupted while it holds it.
    - [Vmmap]: anonymous mapping at an address and removing ranges change exactly the pages
      asked for (offsets into objects apart) and keep the areas sorted and disjoint; lookup, clone, emptiness of a range.
    - [PageAlloc]: allocation hands out free blocks at multiples of their size from the start
      of their group, freeing gives back exactly the block and joins it with its buddies as
      far as they are free, and the two are inverse on the set of free pages.
    - [SlabSpec], [Kmalloc]: an object given out meets no live object, live objects and
      their contents survive every operation, reclaiming takes slabs without live objects
      only, the size of a slab is the one with the least waste; [kmalloc] and [kfree] in
      terms of the pointers given out, with failure only for lack of memory; [slab_init] establishes the invariant.
      [SlabPages]: all of this holds over the page allocator of [PageAlloc].
    - [PageTableSpec]: [pt_map] and [pt_unmap_range] change the translation of exactly the
      pages asked for in exactly one directory, and [pt_destroy_pagedir] gives back exactly
      what the directory owns.  [PageInitSpec]: [pt_init] maps all memory one to one, and
      [pt_template_init] leaves the state the other operations start from.
    - [VirtTermSafe]: no sequence of operations leaves the buffers or the video memory; the
      circular buffer refines a text of at most 124 rows; drawing one character gives the
      screen a full redraw would, unless the screen was scrolled far below the cursor; scrolling stops at the first and last row; shift and
      control follow their keys, and every printable character can be typed.
    - [KString]: repeated [strtok] yields the tokens of a reference function.
    - [PrintfSpec], [ScanfSpec]: [vsnprintf] writes as much of the reference rendering as
      fits and nothing else, what [iprintf] prints is appended, a number that is printed with
      a bare conversion is read back, and [vsscanf] returns on every format and text.
    - [InitSpec]: the section is read back as it was made; the calls end, and unless the
      kernel panics each function was called once and after its dependencies; it does not
      panic if no two chains of dependencies meet.
    - [RamfsFile]: link counts are exact in every state reached by calls that make no entry
      in a removed directory and have no business with "." and "..", and none of these
      calls fails an assertion; creation, removal, reading back, listing.
    - [VfsSpec]: the reference counts of files and vnodes are exact in every state reached
      by the calls of [callable], which return; after exit the file system shuts down
      cleanly; path resolution refines the resolution of components; descriptors,
      seeking.  [callable] leaves out calls that bring the kernel down or lose a
      reference; examples show them.
    - [ProcSpec]: identifiers are unused when given out; creation, exit and disposal keep
      the tree of processes rooted and its parts consistent; [do_waitpid] on every kind of
      argument, and a parent that waits for a running child gets its status when it exits.
    - The theorems and examples about what does not work as intended are marked as
      such where they stand.

    ** Fuel

    Loops over a list recurse on the list.  [sched_switch] and the mutex operations
    take fuel for the wait for an interrupt, which is unbounded in the code; [vget]
    takes the number of times it may be told to try again from [Platform].  The loop
    of [dir_namev] has one unit of fuel for each character of the path, [page_join]
    one for each order, [vput] one for each resident page, [_proc_getid] one for each
    identifier, the searches through slabs and allocators one for each entry of the
    table, [_init_call] one for each function, the reading of its section one for each
    character, the loops over formats one for each character of the format, the loop of
    digits 66, those of the division 3 for a guess and 17 for the shift, [log2] 33, the loop
    of [pt_init] one for each entry of a directory, and [slab_obj_alloc] makes at most one
    slab: the theorems show that they
    return, so that the fuel is enough.  The fuel of [do_waitpid] bounds the number of
    times it is woken without a dead child.

    ** Not modelled

    The s5 file system and the page frame cache (in large part not implemented), page
    faults, [pt_mapping_info] and the TLB, fork, the disk driver, the line discipline and tty device (not
    implemented), system call entry and user memory access,
    loading of programs, boot code and interrupts, debug output, the kernel shell and tests,
    and everything that runs in user space.  The operations of
    [fs/vnode.c] that only pass a request on to a memory object or a device's paging
    routine, and [vmmap_destroy], [vmmap_read] and [vmmap_write], are left out as
    well: the page frame cache they rely on is not implemented ([pframe_get],
    [pframe_pin] and [pframe_unpin] are empty). *)

From Stdlib Require Export ZArith Lia.
From stdpp Require Export base numbers list gmap.

(** ** Outcomes of kernel code

    A kernel operation maps a state to an [outcome]:
    - [Done a s]: the operation returned [a] in state [s];
    - [Panic]: a [KASSERT] failed, [panic()] was called, or a pointer that
      designates no object was followed;
    - [Env e s k]: control left the thread in state [s], and when it comes
      back in state [s'] the rest of the operation is [k s'];
    - [NoFuel]: an unbounded loop was cut off by its fuel. *)

Inductive env_event : Set :=
| CtxSwitch   (** [context_switch]: other threads run until this one is chosen *)
| IntrWait.   (** [intr_wait]: an interrupt handler runs in this thread's context *)

Inductive outcome (S A : Type) : Type :=
| Done (a : A) (s : S)
| Panic
| NoFuel
| Env (e : env_event) (s : S) (k : S -> outcome S A).

Arguments Done {S A} a s.
Arguments Panic {S A}.
Arguments NoFuel {S A}.
Arguments Env {S A} e s k.

(** What an operation that returned gave back. *)
Definition answer {S A} (o : outcome S A) : option A := match o with Done a _ => Some a | _ => None end.

Definition kernel (S A : Type) : Type := S -> outcome S A.

Definition kret {S A} (a : A) : kernel S A := fun s => Done a s.

Fixpoint obind {S A B} (o : outcome S A) (f : A -> kernel S B) : outcome S B :=
  match o with
  | Done a s => f a s
  | Panic => Panic
  | NoFuel => NoFuel
  | Env e s k => Env e s (fun s' => obind (k s') f)
  end.

Definition kbind {S A B} (m : kernel S A) (f : A -> kernel S B) : kernel S B :=
  fun s => obind (m s) f.

Definition kget {S} : kernel S S := fun s => Done s s.
Definition kput {S} (s : S) : kernel S unit := fun _ => Done tt s.
Definition kmodify {S} (f : S -> S) : kernel S unit := fun s => Done tt (f s).
Definition kpanic {S A} : kernel S A := fun _ => Panic.
Definition kenv {S} (e : env_event) : kernel S unit := fun s => Env e s (fun s' => Done tt s').

(** [KASSERT(x)] of [util/debug.h] *)
Definition kassert {S} (b : bool) : kernel S unit :=
  fun s => if b then Done tt s else Panic.

(** Following a pointer: the object it designates, or a fault. *)
Definition kderef {S A} (o : option A) : kernel S A :=
  fun s => match o with Some a => Done a s | None => Panic end.

Declare Scope kernel_scope.
Delimit Scope kernel_scope with kernel.

Notation "x <- m ;; f" := (kbind m (fun x => f%kernel))
  (at level 100, m at next level, right associativity) : kernel_scope.
Notation "m ;;; f" := (kbind m (fun _ => f%kernel))
  (at level 100, right associativity) : kernel_scope.
Bind Scope kernel_scope with kernel.

(** ** Running kernel code *)

Lemma kbind_done {S A B} (m : kernel S A) (f : A -> kernel S B) s a s' :
  m s = Done a s' -> kbind m f s = f a s'.
Proof. intros Hm. unfold kbind. by rewrite Hm. Qed.

Lemma kbind_panic {S A B} (m : kernel S A) (f : A -> kernel S B) s :
  m s = Panic -> kbind m f s = Panic.
Proof. intros Hm. unfold kbind. by rewrite Hm. Qed.

Lemma kbind_env {S A B} (m : kernel S A) (f : A -> kernel S B) s e s' k :
  m s = Env e s' k -> kbind m f s = Env e s' (fun s => obind (k s) f).
Proof. intros Hm. unfold kbind. by rewrite Hm. Qed.

(** A sequence that returns can be run as one step in front of what follows it. *)
Lemma kbind_regroup {S A B C} (m : kernel S A) (f : A -> kernel S B) (K : B -> kernel S C) s b s' :
  kbind m f s = Done b s' -> kbind m (fun x => kbind (f x) K) s = K b s'.
Proof.
  unfold kbind. destruct (m s) as [a t| | |]; simpl; try done. intros Hf. by rewrite Hf.
Qed.

Lemma kderef_Some {S A} (a : A) (o : option A) (s : S) : o = Some a -> kderef o s = Done a s.
Proof. by intros ->. Qed.

Lemma kassert_true {S} (b : bool) (s : S) : b = true -> kassert b s = Done tt s.
Proof. by intros ->. Qed.

Lemma kassert_dec {S} (P : Prop) `{Decision P} (s : S) :
  P -> kassert (bool_decide P) s = Done tt s.
Proof. intros HP. apply kassert_true. by apply bool_decide_eq_true. Qed.

(** [kstep lem] runs the first operation of a [kbind] with the equation [lem],
    whose side conditions it tries to discharge. *)
Ltac kside := first [assumption | reflexivity | done | (by eauto) | idtac].
Tactic Notation "kstep" uconstr(lem) :=
  erewrite kbind_done; [|eapply lem; kside]; cbn beta iota.
Ltac kpure := repeat (first
  [ rewrite (kbind_done kget _ _ _ _ eq_refl)
  | rewrite (kbind_done (kret _) _ _ _ _ eq_refl)
  | rewrite (kbind_done (kmodify _) _ _ _ _ eq_refl)
  | rewrite (kbind_done (kput _) _ _ _ _ eq_refl) ]; cbn beta iota).

(** [runs m s Q]: [m] started in [s] returns without leaving the thread, and what
    it returns and the state it leaves satisfy [Q].  A total correctness judgement. *)
Definition runs {S A} (m : kernel S A) (s : S) (Q : A -> S -> Prop) : Prop :=
  exists a s', m s = Done a s' /\ Q a s'.

Lemma runs_bind {S A B} (m : kernel S A) (f : A -> kernel S B) s Q :
  runs m s (fun a s' => runs (f a) s' Q) -> runs (kbind m f) s Q.
Proof. intros (a & s' & E & b & s'' & E' & HQ). exists b, s''. by rewrite (kbind_done m f s a s' E). Qed.

Lemma runs_mono {S A} (m : kernel S A) s (Q R : A -> S -> Prop) :
  runs m s Q -> (forall a s', Q a s' -> R a s') -> runs m s R.
Proof. intros (a & s' & E & HQ) HR. exists a, s'. auto. Qed.

(** A first operation whose specification is known. *)
Lemma runs_step {S A B} (m : kernel S A) (f : A -> kernel S B) s Q (R : A -> S -> Prop) :
  runs m s R -> (forall a s', R a s' -> runs (f a) s' Q) -> runs (kbind m f) s Q.
Proof. intros Hm Hf. apply runs_bind. by eapply runs_mono. Qed.

(** The first two operations together *)
Lemma runs_regroup {S A B C} (m : kernel S A) (f : A -> kernel S B) (K : B -> kernel S C) s Q (R : B -> S -> Prop) :
  runs (kbind m f) s R -> (forall b s', R b s' -> runs (K b) s' Q) -> runs (kbind m (fun x => kbind (f x) K)) s Q.
Proof.
  intros (b & s' & E & HR) HK. destruct (HK b s' HR) as (c & t & E' & HQ). exists c, t.
  by rewrite (kbind_regroup m f K s b s' E).
Qed.

Lemma runs_done {S A} (m : kernel S A) s a s' (Q : A -> S -> Prop) :
  m s = Done a s' -> Q a s' -> runs m s Q.
Proof. intros. by exists a, s'. Qed.

Lemma runs_ret {S A} (a : A) (s : S) (Q : A -> S -> Prop) : Q a s -> runs (kret a) s Q.
Proof. by apply runs_done. Qed.
Lemma runs_get {S} (s : S) (Q : S -> S -> Prop) : Q s s -> runs kget s Q.
Proof. by apply runs_done. Qed.
Lemma runs_put {S} (s t : S) (Q : unit -> S -> Prop) : Q tt t -> runs (kput t) s Q.
Proof. by apply runs_done. Qed.
Lemma runs_modify {S} (g : S -> S) (s : S) (Q : unit -> S -> Prop) : Q tt (g s) -> runs (kmodify g) s Q.
Proof. by apply runs_done. Qed.
Lemma runs_assert {S} (b : bool) (s : S) (Q : unit -> S -> Prop) : b = true -> Q tt s -> runs (kassert b) s Q.
Proof. intros. by apply (runs_done _ _ tt s); [apply kassert_true|]. Qed.
Lemma runs_deref {S A} (o : option A) a (s : S) (Q : A -> S -> Prop) : o = Some a -> Q a s -> runs (kderef o) s Q.
Proof. intros. by apply (runs_done _ _ a s); [apply kderef_Some|]. Qed.

(** [go] runs through the steps of an operation that need no specification. *)
Ltac go1 := lazymatch goal with
  | |- runs (kbind _ _) _ _ => apply runs_bind
  | |- runs (kret _) _ _ => apply runs_ret
  | |- runs kget _ _ => apply runs_get
  | |- runs (kput _) _ _ => apply runs_put
  | |- runs (kmodify _) _ _ => apply runs_modify
  | |- runs (kderef _) _ _ => eapply runs_deref; [first [eassumption|reflexivity]|]
  | |- runs (kassert _) _ _ => apply runs_assert; [reflexivity|]
  end.
Ltac go := repeat (go1; cbv beta iota).

(** ** Machine integers

    [uint32_t], [size_t] and pointers are integers in [0, 2^32); [int] and
    [off_t] are integers in [-2^31, 2^31), [long long] in [-2^63, 2^63).  Every arithmetic result is brought
    back into range the way the compiler's code does. *)

Definition u32 (x : Z) : Z := (x mod 2 ^ 32)%Z.
Definition s32 (x : Z) : Z := ((x + 2 ^ 31) mod 2 ^ 32 - 2 ^ 31)%Z.
Definition s64 (x : Z) : Z := ((x + 2 ^ 63) mod 2 ^ 64 - 2 ^ 63)%Z.

Lemma u32_small x : (0 <= x < 2 ^ 32)%Z -> u32 x = x.
Proof. intros. by apply Z.mod_small. Qed.
Lemma s32_small x : (- 2 ^ 31 <= x < 2 ^ 31)%Z -> s32 x = x.
Proof. intros. unfold s32. rewrite Z.mod_small; lia. Qed.
Lemma u32_range x : (0 <= u32 x < 2 ^ 32)%Z.
Proof. by apply Z.mod_pos_bound. Qed.
Lemma s32_range x : (- 2 ^ 31 <= s32 x < 2 ^ 31)%Z.
Proof. unfold s32. pose proof (Z.mod_pos_bound (x + 2 ^ 31) (2 ^ 32)). lia. Qed.
Lemma s64_small x : (- 2 ^ 63 <= x < 2 ^ 63)%Z -> s64 x = x.
Proof. intros H. unfold s64. rewrite Z.mod_small; lia. Qed.
Lemma s64_range x : (- 2 ^ 63 <= s64 x < 2 ^ 63)%Z.
Proof. unfold s64. pose proof (Z.mod_pos_bound (x + 2 ^ 63) (2 ^ 64)). lia. Qed.

Lemma s32_add x y : s32 (s32 x + y) = s32 (x + y).
Proof.
  unfold s32. f_equal. replace ((x + 2 ^ 31) mod 2 ^ 32 - 2 ^ 31 + y + 2 ^ 31)%Z with ((x + 2 ^ 31) mod 2 ^ 32 + y)%Z by lia.
  rewrite Zplus_mod_idemp_l. f_equal. lia.
Qed.

Lemma s32_idem x : s32 (s32 x) = s32 x.
Proof. rewrite <- (Z.add_0_r (s32 x)) at 1. by rewrite s32_add, Z.add_0_r. Qed.

Create HintDb kernel discriminated.
#[export] Hint Rewrite u32_small s32_small using lia : kernel.

(** ** Error numbers ([errno.h]) *)

Definition ENOENT : Z := 2.
Definition EINTR : Z := 4.
Definition EBADF : Z := 9.
Definition ECHILD : Z := 10.
Definition ENOMEM : Z := 12.
Definition EFAULT : Z := 14.
Definition EEXIST : Z := 17.
Definition ENOTDIR : Z := 20.
Definition EISDIR : Z := 21.
Definition EINVAL : Z := 22.
Definition EMFILE : Z := 24.
Definition ENOSPC : Z := 28.
Definition ENAMETOOLONG : Z := 36.
Definition ENOTEMPTY : Z := 39.

(** ** Lists *)

Lemma list_filter_all {A} (P : A -> Prop) `{forall x, Decision (P x)} (l : list A) :
  (forall x, x ∈ l -> P x) -> filter P l = l.
Proof.
  induction l as [|x l IH]; intros HP; [done|]. rewrite filter_cons, decide_True by set_solver.
  f_equal. apply IH. set_solver.
Qed.

Lemma list_filter_none {A} (P : A -> Prop) `{forall x, Decision (P x)} (l : list A) :
  (forall x, x ∈ l -> ~ P x) -> filter P l = [].
Proof.
  induction l as [|x l IH]; intros HP; [done|]. rewrite filter_cons, decide_False by (apply HP; set_solver).
  apply IH. intros y Hy. apply HP. set_solver.
Qed.

Lemma last_elem_of {A} (l : list A) x : last l = Some x -> x ∈ l.
Proof. intros [l' ->]%last_Some. set_solver. Qed.

(** Removing an element of a duplicate-free list. *)
Lemma length_filter_ne {A} `{EqDecision A} (t : A) (l : list A) :
  NoDup l -> t ∈ l -> length l = S (length (filter (fun x => x <> t) l)).
Proof.
  intros Hnd Ht. induction Hnd as [|x l Hx Hnd IH]; [by apply not_elem_of_nil in Ht|].
  rewrite filter_cons. destruct (decide (x = t)) as [->|Hne].
  - rewrite decide_False by naive_solver. simpl. f_equal.
    rewrite (list_filter_all (fun x => x <> t)); [done|]. set_solver.
  - rewrite decide_True by done. simpl. f_equal. apply IH. set_solver.
Qed.

Lemma filter_ne_snoc {A} `{EqDecision A} (t : A) (l : list A) :
  NoDup (l ++ [t]) -> filter (fun x => x <> t) (l ++ [t]) = l.
Proof.
  intros (_ & Hd & _)%NoDup_app. rewrite filter_app, filter_cons, decide_False by naive_solver.
  rewrite filter_nil, app_nil_r. apply list_filter_all. set_solver.
Qed.

(** ** Sums over finite maps *)

Section sums.
Context {A : Type}.
Implicit Types (f g : A -> Z) (m : gmap Z A).
Local Open Scope Z_scope.

Definition msum f m : Z := map_fold (fun _ x acc => f x + acc) 0 m.

Lemma msum_empty f : msum f ∅ = 0.
Proof. by unfold msum; rewrite map_fold_empty. Qed.

Lemma msum_insert f m i x : m !! i = None -> msum f (<[i := x]> m) = f x + msum f m.
Proof. intros Hi. unfold msum. apply (map_fold_insert_L (fun _ x acc => f x + acc)); [intros; lia|done]. Qed.

Lemma msum_delete f m i x : m !! i = Some x -> msum f (delete i m) = msum f m - f x.
Proof. intros Hi. unfold msum. rewrite (map_fold_delete_L (fun _ x acc => f x + acc) 0 i x m); [lia|intros; lia|done]. Qed.

Lemma msum_replace f m i x y : m !! i = Some x -> msum f (<[i := y]> m) = msum f m - f x + f y.
Proof.
  intros Hi. rewrite <- insert_delete_eq, msum_insert by apply lookup_delete_eq.
  rewrite (msum_delete f m i x Hi). lia.
Qed.

Lemma msum_nonneg f m : (forall i x, m !! i = Some x -> 0 <= f x) -> 0 <= msum f m.
Proof.
  induction m as [|i x m Hi IH] using map_ind; intros Hf; [by rewrite msum_empty|].
  rewrite msum_insert by done. pose proof (Hf i x ltac:(by simplify_map_eq)).
  enough (0 <= msum f m) by lia. apply IH. intros j y Hj. apply (Hf j). rewrite lookup_insert_ne; [done|]. by intros ->; rewrite Hi in Hj.
Qed.

Lemma msum_le f g m : (forall i x, m !! i = Some x -> f x <= g x) -> msum f m <= msum g m.
Proof.
  induction m as [|i x m Hi IH] using map_ind; intros Hf; [by rewrite !msum_empty|].
  rewrite !msum_insert by done. pose proof (Hf i x ltac:(by simplify_map_eq)).
  enough (msum f m <= msum g m) by lia. apply IH. intros j y Hj. apply (Hf j). rewrite lookup_insert_ne; [done|]. by intros ->; rewrite Hi in Hj.
Qed.

Lemma msum_const c m : msum (fun _ => c) m = c * Z.of_nat (size m).
Proof.
  induction m as [|i x m Hi IH] using map_ind; [rewrite msum_empty, map_size_empty; lia|].
  rewrite msum_insert, IH, map_size_insert_None by done. lia.
Qed.

Lemma msum_member f m i x : (forall i x, m !! i = Some x -> 0 <= f x) -> m !! i = Some x -> f x <= msum f m.
Proof.
  intros Hf Hi. pose proof (msum_delete f m i x Hi) as E. enough (0 <= msum f (delete i m)) by lia.
  apply msum_nonneg. intros j y Hj. apply lookup_delete_Some in Hj as [_ Hj]. by apply (Hf j).
Qed.

Lemma msum_zero f m : (forall i x, m !! i = Some x -> f x = 0) -> msum f m = 0.
Proof.
  intros Hf. transitivity (msum (fun _ => 0) m); [|rewrite msum_const; lia].
  apply Z.le_antisymm; apply msum_le; intros i x Hi; rewrite (Hf i x Hi); lia.
Qed.

End sums.

Lemma msum_ext {A B} (f : A -> Z) (g : B -> Z) (m : gmap Z A) (m' : gmap Z B) :
  (forall i, f <$> m !! i = g <$> m' !! i) -> msum f m = msum g m'.
Proof.
  intros E. assert (Em : f <$> m = g <$> m') by (apply map_eq; intros i; by rewrite !lookup_fmap).
  transitivity (map_fold (fun _ x acc => (x + acc)%Z) 0%Z (f <$> m)); [by rewrite map_fold_fmap|].
  rewrite Em. by rewrite map_fold_fmap.
Qed.
