(* ===== verification/KMath.v ===== *)
(** * 64-bit division and logarithms ([util/math.c])

    The functions the compiler calls for division of 64-bit integers on a 32-bit machine
    ([__udivdi3], [__umoddi3], [__divdi3]), which run Knuth's algorithm D in base [2 ^ 16],
    and [log2].  The arrays [uspace], [vspace] and [qspace] are lists of 32-bit digits; the
    pointers [u], [v] and [q] are offsets into them, which the loops move; an access outside
    an array, and a division by zero, have no value.  What is in an array before it is
    written is the parameter [junk]. *)

From S2P Require Import Prelude.

Module KMath.

Local Open Scope Z_scope.

(** ** Digits *)

Definition HALF_BITS : Z := 16.
Definition HHALF (x : Z) : Z := Z.shiftr x HALF_BITS.
Definition LHALF (x : Z) : Z := Z.land x (Z.shiftl 1 HALF_BITS - 1).
Definition B : Z := Z.shiftl 1 HALF_BITS.
Definition COMBINE (a b : Z) : Z := Z.lor (u32 (Z.shiftl a HALF_BITS)) b.

(** [tmp.uq = x]: [tmp.ul[H]] and [tmp.ul[L]], and back *)
Definition quad_high (x : Z) : Z := Z.shiftr x 32.
Definition quad_low (x : Z) : Z := u32 x.
Definition quad (h l : Z) : Z := Z.lor (Z.shiftl h 32) l.

Abbreviation array := (list Z).
Definition store_at (a : array) (i : nat) (x : Z) : option array := if decide (i < length a)%nat then Some (<[i := x]> a) else None.
Definition word_div (x y : Z) : option Z := if y =? 0 then None else Some (x / y).
Definition word_mod (x y : Z) : option Z := if y =? 0 then None else Some (x mod y).

(** The first loop of [shl] from [i] on, with [len - i] rounds left *)
Fixpoint shl_loop (todo : nat) (a : array) (p i : nat) (sh : Z) : option array :=
  match todo with
  | O => x ← a !! (p + i)%nat; store_at a (p + i) (LHALF (u32 (Z.shiftl x sh)))
  | S todo =>
      x ← a !! (p + i)%nat;
      y ← a !! (p + i + 1)%nat;
      a ← store_at a (p + i) (Z.lor (LHALF (u32 (Z.shiftl x sh))) (Z.shiftr y (HALF_BITS - sh)));
      shl_loop todo a p (i + 1) sh
  end.
Definition shl (a : array) (p len : nat) (sh : Z) : option array := shl_loop len a p 0 sh.

(** ** The steps of [__qdivrem] *)

(** [u[1..4]] or [v[1..4]] from a quad *)
Definition split_quad (a : array) (x : Z) : option array :=
  a ← store_at a 1 (HHALF (quad_high x));
  a ← store_at a 2 (LHALF (quad_high x));
  a ← store_at a 3 (HHALF (quad_low x));
  store_at a 4 (LHALF (quad_low x)).

(** [for (n = 4; v[1] == 0; v++) if (--n == 1) ...]: [v] and [n] *)
Fixpoint skip_v (fuel : nat) (vspace : array) (v : nat) (n : Z) : option (nat * Z) :=
  match fuel with
  | O => None
  | S fuel =>
      d ← vspace !! (v + 1)%nat;
      if d =? 0 then
        if n - 1 =? 1 then Some (v, 1)
        else skip_v fuel vspace (v + 1) (n - 1)
      else Some (v, n)
  end.

(** Division by one digit *)
Definition short_div (uspace : array) (u : nat) (t : Z) : option (Z * Z) :=
  u1 ← uspace !! (u + 1)%nat; u2 ← uspace !! (u + 2)%nat; u3 ← uspace !! (u + 3)%nat; u4 ← uspace !! (u + 4)%nat;
  q1 ← word_div u1 t;
  r ← word_mod u1 t;
  let rbj := COMBINE r u2 in
  q2 ← word_div rbj t;
  r ← word_mod rbj t;
  let rbj := COMBINE r u3 in
  q3 ← word_div rbj t;
  r ← word_mod rbj t;
  let rbj := COMBINE r u4 in
  q4 ← word_div rbj t;
  r ← word_mod rbj t;
  Some (quad (COMBINE q1 q2) (COMBINE q3 q4), r).

(** [for (m = 4 - n; u[1] == 0; u++) m--]: [u] and [m] *)
Fixpoint skip_u (fuel : nat) (uspace : array) (u : nat) (m : Z) : option (nat * Z) :=
  match fuel with
  | O => None
  | S fuel => d ← uspace !! (u + 1)%nat; if d =? 0 then skip_u fuel uspace (u + 1) (m - 1) else Some (u, m)
  end.

(** [for (i = 4 - m; --i >= 0;) q[i] = 0] *)
Fixpoint clear_q (i : nat) (qspace : array) : option array :=
  match i with
  | O => Some qspace
  | S i => qspace ← store_at qspace i 0; clear_q i qspace
  end.

(** D1: [for (t = v[1]; t < B / 2; t <<= 1) d++] *)
Fixpoint norm_loop (fuel : nat) (t d : Z) : option Z :=
  match fuel with
  | O => None
  | S fuel => if t <? B / 2 then norm_loop fuel (u32 (Z.shiftl t 1)) (d + 1) else Some d
  end.

(** D3: the loop that decreases [qhat]; it is entered at [qhat_too_big] if [enter]. *)
Fixpoint qhat_loop (fuel : nat) (enter : bool) (v1 v2 uj2 qhat rhat : Z) : option Z :=
  match fuel with
  | O => None
  | S fuel =>
      if enter || (COMBINE rhat uj2 <? u32 (v2 * qhat)) then
        let qhat := u32 (qhat - 1) in
        let rhat := u32 (rhat + v1) in
        if B <=? rhat then Some qhat else qhat_loop fuel false v1 v2 uj2 qhat rhat
      else Some qhat
  end.
Definition guess_qhat (v1 v2 uj0 uj1 uj2 : Z) : option Z :=
  if uj0 =? v1 then qhat_loop 3 true v1 v2 uj2 B uj1
  else
    let nn := COMBINE uj0 uj1 in
    qhat ← word_div nn v1;
    rhat ← word_mod nn v1;
    qhat_loop 3 false v1 v2 uj2 qhat rhat.

(** D4: the loop over [i], down from [i]; the digits and the borrow *)
Fixpoint mul_sub (i : nat) (uspace vspace : array) (uj v : nat) (qhat t : Z) : option (array * Z) :=
  match i with
  | O => Some (uspace, t)
  | S i' =>
      x ← uspace !! (uj + i)%nat;
      y ← vspace !! (v + i)%nat;
      let t := u32 (x - y * qhat - t) in
      uspace ← store_at uspace (uj + i) (LHALF t);
      mul_sub i' uspace vspace uj v qhat (Z.land (u32 (B - HHALF t)) (B - 1))
  end.
(** D6 *)
Fixpoint add_back (i : nat) (uspace vspace : array) (uj v : nat) (t : Z) : option (array * Z) :=
  match i with
  | O => Some (uspace, t)
  | S i' =>
      x ← uspace !! (uj + i)%nat;
      y ← vspace !! (v + i)%nat;
      let t := u32 (t + (x + y)) in
      uspace ← store_at uspace (uj + i) (LHALF t);
      add_back i' uspace vspace uj v (HHALF t)
  end.

(** D3 to D6, for [u + j]: the digits left and the digit of the quotient *)
Definition div_step (n : nat) (uspace vspace : array) (uj v : nat) (v1 v2 : Z) : option (array * Z) :=
  uj0 ← uspace !! uj; uj1 ← uspace !! (uj + 1)%nat; uj2 ← uspace !! (uj + 2)%nat;
  qhat ← guess_qhat v1 v2 uj0 uj1 uj2;
  '(uspace, t) ← mul_sub n uspace vspace uj v qhat 0;
  x ← uspace !! uj;
  let t := u32 (x - t) in
  uspace ← store_at uspace uj (LHALF t);
  if HHALF t =? 0 then Some (uspace, qhat)
  else
    '(uspace, t) ← add_back n uspace vspace uj v 0;
    x ← uspace !! uj;
    uspace ← store_at uspace uj (LHALF (u32 (x + t)));
    Some (uspace, u32 (qhat - 1)).

(** [do ... while (++j <= m)], with [todo] rounds left *)
Fixpoint div_loop (todo n : nat) (uspace vspace qspace : array) (u v q j : nat) (v1 v2 : Z) : option (array * array) :=
  match todo with
  | O => Some (uspace, qspace)
  | S todo =>
      '(uspace, qhat) ← div_step n uspace vspace (u + j) v v1 v2;
      qspace ← store_at qspace (q + j) qhat;
      div_loop todo n uspace vspace qspace u v q (j + 1) v1 v2
  end.

(** [for (i = m + n; i > m; --i) u[i] = ...; u[i] = 0], with [i - m] rounds left *)
Fixpoint shr_loop (todo : nat) (uspace : array) (um : nat) (d : Z) : option array :=
  match todo with
  | O => store_at uspace um 0
  | S todo' =>
      x ← uspace !! (um + todo)%nat;
      y ← uspace !! (um + todo')%nat;
      uspace ← store_at uspace (um + todo) (Z.lor (Z.shiftr x d) (LHALF (u32 (Z.shiftl y (HALF_BITS - d)))));
      shr_loop todo' uspace um d
  end.

(** [tmp.ul[H] = COMBINE(a[1], a[2]); tmp.ul[L] = COMBINE(a[3], a[4])] *)
Definition join_quad (a : array) : option Z :=
  a1 ← a !! 1%nat; a2 ← a !! 2%nat; a3 ← a !! 3%nat; a4 ← a !! 4%nat;
  Some (quad (COMBINE a1 a2) (COMBINE a3 a4)).

(** Program D, when the divisor has [n >= 2] digits *)
Definition long_div (uspace vspace qspace : array) (v : nat) (n : Z) (arq : bool) : option (Z * option Z) :=
  '(u, m) ← skip_u 5 uspace 0 (4 - n);
  qspace ← clear_q (Z.to_nat (4 - m)) qspace;
  let q := Z.to_nat (4 - m) in
  t ← vspace !! (v + 1)%nat;
  d ← norm_loop 17 t 0;
  '(uspace, vspace) ← (if 0 <? d then
                         uspace ← shl uspace u (Z.to_nat (m + n)) d;
                         vspace ← shl vspace (v + 1) (Z.to_nat (n - 1)) d;
                         Some (uspace, vspace)
                       else Some (uspace, vspace));
  v1 ← vspace !! (v + 1)%nat;
  v2 ← vspace !! (v + 2)%nat;
  '(uspace, qspace) ← div_loop (Z.to_nat (Z.max 1 (m + 1))) (Z.to_nat n) uspace vspace qspace u v q 0 v1 v2;
  rem ← (if arq then
           uspace ← (if d =? 0 then Some uspace else shr_loop (Z.to_nat n) uspace (u + Z.to_nat m) d);
           r ← join_quad uspace;
           Some (Some r)
         else Some None);
  quot ← join_quad qspace;
  Some (quot, rem).

(** ** The functions *)

Section Junk.
Context (junk : Z).

(** [arq] says whether the pointer is not null; the quotient and [*arq] *)
Definition qdivrem (uq vq : Z) (arq : bool) : option (Z * option Z) :=
  if vq =? 0 then None
  else if uq <? vq then Some (0, if arq then Some uq else None)
  else
    uspace ← store_at (replicate 5 junk) 0 0;
    uspace ← split_quad uspace uq;
    vspace ← split_quad (replicate 5 junk) vq;
    '(v, n) ← skip_v 4 vspace 0 4;
    if n =? 1 then
      t ← vspace !! (v + 2)%nat;
      '(q, r) ← short_div uspace 0 t;
      Some (q, if arq then Some r else None)
    else long_div uspace vspace (replicate 5 junk) v n arq.

Definition divdi3 (a b : Z) : option Z :=
  let ua := if a <? 0 then (- (a mod 2 ^ 64)) mod 2 ^ 64 else a in
  let ub := if b <? 0 then (- (b mod 2 ^ 64)) mod 2 ^ 64 else b in
  let neg := xorb (a <? 0) (b <? 0) in
  '(uq, _) ← qdivrem ua ub false;
  Some (s64 (if neg then (- uq) mod 2 ^ 64 else uq)).
Definition udivdi3 (a b : Z) : option Z := '(q, _) ← qdivrem a b false; Some q.
Definition umoddi3 (a b : Z) : option Z := '(_, r) ← qdivrem a b true; r.

End Junk.

(** [while (current) ...], and what follows it; the shift of a negative number keeps its sign. *)
Fixpoint log2_loop (fuel : nat) (current y result : Z) : option (Z * Z) :=
  match fuel with
  | O => None
  | S fuel =>
      if current =? 0 then Some (y, result)
      else log2_loop fuel (Z.shiftr current 1) (s32 (Z.shiftl y 1)) (s32 (result + 1))
  end.
Definition log2 (fuel : nat) (x : Z) : option Z :=
  '(y, result) ← log2_loop fuel x 1 0;
  let y := Z.shiftr y 1 in
  Some (if y =? x then s32 (result - 1) else result).

End KMath.
