(* ===== verification/KMathSpec.v ===== *)
(** * What [util/math.c] guarantees

    The value of a run of digits, what each loop of [__qdivrem] does to it, and the
    theorems: the functions compute the quotient and the remainder of integers. *)

From S2P Require Import Prelude KMath.

Module KMathSpec.
Import KMath.

Local Open Scope Z_scope.

(** ** Halves and words *)

Lemma B_eq : B = 2 ^ 16.
Proof. reflexivity. Qed.
Lemma LHALF_mod x : LHALF x = x mod B.
Proof. unfold LHALF. change (Z.shiftl 1 HALF_BITS - 1) with (Z.ones 16). rewrite Z.land_ones by lia. reflexivity. Qed.
Lemma HHALF_div x : HHALF x = x / B.
Proof. unfold HHALF, HALF_BITS. rewrite Z.shiftr_div_pow2 by lia. reflexivity. Qed.

(** A number whose low bits are clear or-ed with one that has only these *)
Lemma lor_low a b k : 0 <= k -> 0 <= b < 2 ^ k -> Z.lor (a * 2 ^ k) b = a * 2 ^ k + b.
Proof.
  intros Hk Hb. rewrite <- Z.shiftl_mul_pow2 by done. rewrite Z.add_nocarry_lxor; [symmetry; apply Z.lxor_lor|];
    (apply Z.bits_inj'; intros i Hi; rewrite Z.land_spec, Z.bits_0; destruct (decide (i < k)) as [Hl|Hl];
     [by rewrite Z.shiftl_spec_low
     |replace (Z.testbit b i) with false; [apply andb_false_r|]; symmetry; destruct (decide (b = 0)) as [->|]; [apply Z.bits_0|];
      apply Z.bits_above_log2; [lia|]; apply Z.log2_lt_pow2; [lia|]; apply Z.lt_le_trans with (2 ^ k); [lia|]; apply Z.pow_le_mono_r; lia]).
Qed.
Lemma COMBINE_eq a b : 0 <= a < B -> 0 <= b < B -> COMBINE a b = a * B + b.
Proof.
  rewrite B_eq. intros Ha Hb. unfold COMBINE, HALF_BITS. rewrite Z.shiftl_mul_pow2, u32_small by lia. apply lor_low; lia.
Qed.
Lemma quad_eq h l : 0 <= l < 2 ^ 32 -> quad h l = h * 2 ^ 32 + l.
Proof. intros Hl. unfold quad. rewrite Z.shiftl_mul_pow2 by lia. by apply lor_low. Qed.

(** ** Runs of digits *)

Fixpoint value (a : array) (k n : nat) : Z :=
  match n with
  | O => 0
  | S n => value a k n * B + a !!! (k + n)%nat
  end.
Definition digits (a : array) (k n : nat) : Prop := forall i, (k <= i < k + n)%nat -> 0 <= a !!! i < B.
(** The arrays are equal outside a run. *)
Definition same_but (k n : nat) (a a' : array) : Prop :=
  length a' = length a /\ forall i, ~ (k <= i < k + n)%nat -> a' !!! i = a !!! i.

Abbreviation Bp n := (B ^ Z.of_nat n).
Lemma Bp_S n : Bp (S n) = B * Bp n.
Proof. rewrite Nat2Z.inj_succ, Z.pow_succ_r by lia. done. Qed.
Lemma Bp_add n n' : Bp (n + n') = Bp n * Bp n'.
Proof. rewrite Nat2Z.inj_add, Z.pow_add_r by lia. done. Qed.
Lemma Bp_pos n : 0 < Bp n.
Proof. apply Z.pow_pos_nonneg; [done|lia]. Qed.

Lemma value_app a k n n' : value a k (n + n') = value a k n * Bp n' + value a (k + n) n'.
Proof.
  induction n' as [|n' IH]; [rewrite Nat.add_0_r; simpl; lia|]. rewrite Nat.add_succ_r, Bp_S. cbn [value]. rewrite IH.
  replace (k + (n + n'))%nat with (k + n + n')%nat by lia. ring.
Qed.
Lemma value_front a k n : value a k (S n) = a !!! k * Bp n + value a (S k) n.
Proof. change (S n) with (1 + n)%nat. rewrite (value_app a k 1 n), Nat.add_1_r. f_equal. cbn [value]. by rewrite Nat.add_0_r. Qed.
Lemma value_ext a a' k n : (forall i, (k <= i < k + n)%nat -> a' !!! i = a !!! i) -> value a' k n = value a k n.
Proof. induction n as [|n IH]; intros H; [done|]. cbn [value]. rewrite IH, H; [done|lia|intros i Hi; apply H; lia]. Qed.
Lemma value_same a a' k n k' n' : same_but k n a a' -> (k' + n' <= k \/ k + n <= k')%nat -> value a' k' n' = value a k' n'.
Proof. intros [_ H] Hd. apply value_ext. intros i Hi. apply H. lia. Qed.
Lemma value_bounds a k n : digits a k n -> 0 <= value a k n < Bp n.
Proof.
  induction n as [|n IH]; intros H; [done|]. rewrite Bp_S. cbn [value]. pose proof (H (k + n)%nat ltac:(lia)).
  destruct IH as [? ?]; [intros i Hi; apply H; lia|]. nia.
Qed.
Lemma value_zeros a k n : (forall i, (k <= i < k + n)%nat -> a !!! i = 0) -> value a k n = 0.
Proof. induction n as [|n IH]; intros H; [done|]. cbn [value]. rewrite IH, H; [done|lia|intros i Hi; apply H; lia]. Qed.
(** Digits in front of a small value are zero. *)
Lemma value_small a k n n' : digits a k (n + n') -> value a k (n + n') < Bp n' -> value a k n = 0 /\ value a (k + n) n' = value a k (n + n').
Proof.
  intros Hd Hv. rewrite value_app in *. assert (Hn : 0 <= value a k n) by (apply value_bounds; intros i Hi; apply Hd; lia).
  assert (Hn' : 0 <= value a (k + n) n') by (apply value_bounds; intros i Hi; apply Hd; lia). pose proof (Bp_pos n'). assert (value a k n = 0) by nia. lia.
Qed.
Lemma value_zero_digits a k n i : digits a k n -> value a k n = 0 -> (k <= i < k + n)%nat -> a !!! i = 0.
Proof.
  induction n as [|n IH]; intros Hd Hv Hi; [lia|]. cbn [value] in Hv. pose proof (Hd (k + n)%nat ltac:(lia)).
  assert (Hd' : digits a k n) by (intros i' Hi'; apply Hd; lia). pose proof (value_bounds _ _ _ Hd'). pose proof B_eq.
  destruct (decide (i = k + n)%nat) as [->|]; [nia|]. apply IH; [done|nia|lia].
Qed.
Lemma digits_sub a k n k' n' : digits a k n -> (k <= k')%nat -> (k' + n' <= k + n)%nat -> digits a k' n'.
Proof. intros H H1 H2 i Hi. apply H. lia. Qed.
Lemma digits_same a a' k n k' n' : same_but k n a a' -> digits a k' n' -> (k' + n' <= k \/ k + n <= k')%nat -> digits a' k' n'.
Proof. intros [_ H] Hd Ho i Hi. rewrite H by lia. by apply Hd. Qed.

(** ** Arrays *)

Lemma lookup_array (a : array) i : (i < length a)%nat -> a !! i = Some (a !!! i).
Proof. intros. by apply list_lookup_lookup_total_lt. Qed.
Lemma store_at_spec (a : array) i x : (i < length a)%nat -> store_at a i x = Some (<[i := x]> a).
Proof. intros. unfold store_at. by rewrite decide_True. Qed.
Lemma insert_here (a : array) i x : (i < length a)%nat -> (<[i := x]> a) !!! i = x.
Proof. intros. by apply list_lookup_total_insert_eq. Qed.
Lemma insert_there (a : array) i j x : i <> j -> (<[i := x]> a) !!! j = a !!! j.
Proof. intros. by apply list_lookup_total_insert_ne. Qed.
Lemma same_insert (a : array) i x : same_but i 1 a (<[i := x]> a).
Proof. split; [apply length_insert|]. intros j Hj. apply insert_there. lia. Qed.
Lemma same_trans k1 n1 k2 n2 k n a1 a2 a3 : same_but k1 n1 a1 a2 -> same_but k2 n2 a2 a3 ->
  (k <= k1)%nat -> (k <= k2)%nat -> (k1 + n1 <= k + n)%nat -> (k2 + n2 <= k + n)%nat -> same_but k n a1 a3.
Proof. intros [L1 H1] [L2 H2] ? ? ? ?. split; [congruence|]. intros i Hi. rewrite H2, H1 by lia. done. Qed.

(** ** The digit of the quotient *)

(** The digit guessed from three digits of the dividend and two of the divisor *)
Definition guess (U3 V2 : Z) : Z := Z.min (B - 1) (U3 / V2).

Lemma guess_reached v1 v2 N uj2 qhat rhat : 0 < v1 -> 0 <= v2 -> qhat * v1 + rhat = N -> qhat <= B - 1 ->
  guess (N * B + uj2) (v1 * B + v2) <= qhat -> v2 * qhat <= rhat * B + uj2 -> guess (N * B + uj2) (v1 * B + v2) = qhat.
Proof.
  intros Hv1 Hv2 HN Hq Hg Hle. unfold guess in *. pose proof B_eq. assert (qhat <= (N * B + uj2) / (v1 * B + v2)); [|lia].
  apply Z.div_le_lower_bound; [nia|]. subst N. nia.
Qed.

Lemma qhat_loop_spec fuel v1 v2 N uj2 qhat rhat : 0 < v1 < B -> 0 <= v2 < B -> 0 <= uj2 < B -> 0 <= rhat < B -> 0 <= qhat < B -> 0 <= N ->
  qhat * v1 + rhat = N -> guess (N * B + uj2) (v1 * B + v2) <= qhat -> B <= rhat + Z.of_nat fuel * v1 ->
  qhat_loop fuel false v1 v2 uj2 qhat rhat = Some (guess (N * B + uj2) (v1 * B + v2)).
Proof.
  revert qhat rhat. induction fuel as [|fuel IH]; intros qhat rhat Hv1 Hv2 Hu Hr Hq HN0 HN Hg Hf; [lia|]. cbn [qhat_loop orb].
  rewrite COMBINE_eq by lia. pose proof B_eq as HB. rewrite (u32_small (v2 * qhat)) by nia.
  destruct (Z.ltb_spec (rhat * B + uj2) (v2 * qhat)) as [Hlt|Hge]; [|by rewrite (guess_reached v1 v2 N uj2 qhat rhat) by lia].
  assert (0 < qhat) by nia. rewrite !u32_small by lia.
  assert (Hg' : guess (N * B + uj2) (v1 * B + v2) <= qhat - 1).
  { unfold guess in *. assert ((N * B + uj2) / (v1 * B + v2) < qhat); [|lia]. apply Z.div_lt_upper_bound; [nia|]. subst N. nia. }
  destruct (Z.leb_spec B (rhat + v1)).
  - by rewrite (guess_reached v1 v2 N uj2 (qhat - 1) (rhat + v1)) by nia.
  - apply IH; lia.
Qed.

Lemma qhat_loop_enter fuel v1 v2 uj2 qhat rhat : qhat_loop (S fuel) true v1 v2 uj2 qhat rhat
  = (if B <=? u32 (rhat + v1) then Some (u32 (qhat - 1)) else qhat_loop fuel false v1 v2 uj2 (u32 (qhat - 1)) (u32 (rhat + v1))).
Proof. reflexivity. Qed.

Lemma guess_qhat_spec v1 v2 uj0 uj1 uj2 : B / 2 <= v1 < B -> 0 <= v2 < B -> 0 <= uj0 <= v1 -> 0 <= uj1 < B -> 0 <= uj2 < B ->
  guess_qhat v1 v2 uj0 uj1 uj2 = Some (guess ((uj0 * B + uj1) * B + uj2) (v1 * B + v2)).
Proof.
  intros Hv1 Hv2 H0 H1 H2. unfold guess_qhat. assert (HB : B = 65536) by reflexivity. change (B / 2) with 32768 in Hv1. destruct (Z.eqb_spec uj0 v1) as [->|Hne].
  - rewrite qhat_loop_enter, !u32_small by lia. destruct (Z.leb_spec B (uj1 + v1)).
    + rewrite (guess_reached v1 v2 _ uj2 (B - 1) (uj1 + v1)); try nia. done. unfold guess. lia.
    + apply (qhat_loop_spec 2); try lia. unfold guess. lia.
  - rewrite COMBINE_eq by lia. unfold word_div, word_mod. rewrite (proj2 (Z.eqb_neq v1 0)) by lia. cbn [mbind option_bind].
    set (N := uj0 * B + uj1). pose proof (Z.div_mod N v1 ltac:(lia)). pose proof (Z.mod_pos_bound N v1 ltac:(lia)).
    assert (N / v1 < B) by (apply Z.div_lt_upper_bound; lia). assert (0 <= N) by lia.
    apply qhat_loop_spec; try lia; [split; [by apply Z.div_pos; lia|lia]|].
    unfold guess. apply Z.le_trans with ((N * B + uj2) / (v1 * B + v2)); [lia|].
    apply Z.lt_succ_r. apply Z.div_lt_upper_bound; [nia|]. nia.
Qed.

(** The guess is the digit or one more. *)
Lemma guess_close U V U3 V2 K u' v' : 0 < K -> 0 < V2 -> 0 <= u' < K -> 0 <= v' < K -> U = U3 * K + u' -> V = V2 * K + v' -> B * K <= V -> 0 <= U < V * B ->
  U / V <= guess U3 V2 <= U / V + 1 /\ 0 <= guess U3 V2 < B.
Proof.
  intros HK HV2 Hu Hv EU EV HV HU. assert (HB : B = 65536) by reflexivity. assert (0 < V) by lia.
  assert (H1 : U / V <= B - 1) by (apply Z.lt_le_pred; apply Z.div_lt_upper_bound; lia).
  assert (H2 : U / V <= U3 / V2).
  { apply Z.div_le_lower_bound; [done|]. pose proof (Z.mul_div_le U V ltac:(lia)). pose proof (Z.div_pos U V). nia. }
  pose proof (Z.div_pos U V). unfold guess. split; [split; [lia|]|lia].
  set (g := Z.min (B - 1) (U3 / V2)). assert (Hg : g <= U3 / V2 /\ 0 <= g < B) by lia.
  assert (g * V2 <= U3) by (pose proof (Z.mul_div_le U3 V2 ltac:(lia)); nia).
  assert (g - 1 <= U / V); [|lia]. apply Z.div_le_lower_bound; [done|]. nia.
Qed.

(** ** Multiply and subtract, add back *)

(** One digit with its borrow: what the 32-bit arithmetic of D4 computes *)
Lemma borrow_step z : - (B - 1) * B <= z < B ->
  z = LHALF (u32 z) - B * Z.land (u32 (B - HHALF (u32 z))) (B - 1) /\ 0 <= LHALF (u32 z) < B /\ 0 <= Z.land (u32 (B - HHALF (u32 z))) (B - 1) < B.
Proof.
  intros Hz. change (Z.land ?x (B - 1)) with (LHALF x). rewrite !LHALF_mod, HHALF_div. assert (HB : B = 65536) by reflexivity. unfold u32.
  assert (E : (z mod 2 ^ 32) mod B = z mod B) by (apply Z.mod_mod_divide; by exists 65536).
  assert (F : (z mod 2 ^ 32) / B = (z / B) mod B).
  { rewrite HB. change (2 ^ 32) with (65536 * 65536). rewrite Z.rem_mul_r by lia. rewrite Z.mul_comm, Z.div_add by lia. rewrite (Z.div_small (z mod 65536)) by (apply Z.mod_pos_bound; lia). lia. }
  assert (Hzb : - (B - 1) <= z / B <= 0) by (split; [apply Z.div_le_lower_bound; lia|apply Z.lt_succ_r, Z.div_lt_upper_bound; lia]).
  rewrite E, F. pose proof (Z.mod_pos_bound z B). pose proof (Z.div_mod z B). rewrite (Z.mod_small (B - _)) by (pose proof (Z.mod_pos_bound (z / B) B); lia).
  assert (G : (B - (z / B) mod B) mod B = - (z / B)); [|lia].
  rewrite Zminus_mod_idemp_r. replace (B - z / B) with (- (z / B) + 1 * B) by lia. rewrite Z.mod_add by lia. apply Z.mod_small. lia.
Qed.

(** Storing the lowest digit of a run, before and after the digits in front of it are changed *)
Lemma low_digit_set u uj n d : (uj + S n < length u)%nat -> digits u (S uj) (S n) ->
  same_but (uj + S n) 1 u (<[(uj + S n)%nat := d]> u) /\ length (<[(uj + S n)%nat := d]> u) = length u /\ digits (<[(uj + S n)%nat := d]> u) (S uj) n.
Proof.
  intros Hu Du. split_and!; [apply same_insert|apply length_insert|]. eapply digits_same; [apply same_insert|eapply digits_sub; [done|lia|lia]|lia].
Qed.
Lemma low_digit_kept u u' uj n d : (uj + S n < length u)%nat -> 0 <= d < B -> same_but (S uj) n (<[(uj + S n)%nat := d]> u) u' -> digits u' (S uj) n ->
  same_but (S uj) (S n) u u' /\ digits u' (S uj) (S n) /\ u' !!! (uj + S n)%nat = d.
Proof.
  intros Hu Hd SS Du. assert (Hlow : u' !!! (uj + S n)%nat = d) by (rewrite (proj2 SS) by lia; by apply insert_here).
  split_and!; [eapply same_trans; [apply same_insert|exact SS|lia..]| |done].
  intros i Hi. destruct (decide (i = uj + S n)%nat) as [->|]; [by rewrite Hlow|apply Du; lia].
Qed.

Lemma mul_sub_spec n u vs uj v qhat t : (uj + n < length u)%nat -> (v + n < length vs)%nat ->
  digits u (S uj) n -> digits vs (S v) n -> 0 <= qhat < B -> 0 <= t < B ->
  exists u' t', mul_sub n u vs uj v qhat t = Some (u', t') /\ same_but (S uj) n u u' /\ digits u' (S uj) n /\ 0 <= t' < B
    /\ value u' (S uj) n - t' * Bp n = value u (S uj) n - qhat * value vs (S v) n - t.
Proof.
  revert u t. induction n as [|n IH]; intros u t Hu Hv Du Dv Hq Ht.
  { eexists _, _. split; [done|]. split_and!; [by split|intros i Hi; lia|lia|lia|cbn [value]; lia]. }
  cbn [mul_sub]. rewrite !lookup_array by lia. cbn [mbind option_bind]. rewrite store_at_spec by lia. cbn [mbind option_bind].
  pose proof (Du (uj + S n)%nat ltac:(lia)) as Hx. pose proof (Dv (v + S n)%nat ltac:(lia)) as Hy.
  set (x := u !!! (uj + S n)%nat) in *. set (y := vs !!! (v + S n)%nat) in *. set (z := x - y * qhat - t).
  destruct (borrow_step z) as (Ez & Hd & Hb); [unfold z; assert (HB : B = 65536) by reflexivity; nia|].
  set (d := LHALF (u32 z)) in *. set (b := Z.land _ _) in *. set (u1 := <[(uj + S n)%nat := d]> u).
  destruct (low_digit_set u uj n d) as (S1 & L1 & D1); try done.
  destruct (IH u1 b) as (u' & t' & E & SS & Du' & Ht' & Ev); [unfold u1; lia|lia|done|eapply digits_sub; [done|lia|lia]|lia..|].
  destruct (low_digit_kept u u' uj n d) as (SS' & Du'' & Hlow); try done.
  exists u', t'. split; [done|]. split_and!; [done|done|lia|lia|]. unfold u1 in Ev. rewrite (value_same _ _ _ _ _ _ S1) in Ev by lia. rewrite Bp_S. cbn [value].
  replace (S uj + n)%nat with (uj + S n)%nat by lia. replace (S v + n)%nat with (v + S n)%nat by lia. rewrite Hlow. fold x y. unfold z in Ez. nia.
Qed.

Lemma carry_step z : 0 <= z < 2 * B -> u32 z = z /\ z = LHALF z + B * HHALF z /\ 0 <= LHALF z < B /\ 0 <= HHALF z <= 1.
Proof.
  intros Hz. assert (HB : B = 65536) by reflexivity. rewrite LHALF_mod, HHALF_div. pose proof (Z.div_mod z B). pose proof (Z.mod_pos_bound z B).
  split; [apply u32_small; lia|]. nia.
Qed.

Lemma add_back_spec n u vs uj v t : (uj + n < length u)%nat -> (v + n < length vs)%nat ->
  digits u (S uj) n -> digits vs (S v) n -> 0 <= t <= 1 ->
  exists u' t', add_back n u vs uj v t = Some (u', t') /\ same_but (S uj) n u u' /\ digits u' (S uj) n /\ 0 <= t' <= 1
    /\ value u' (S uj) n + t' * Bp n = value u (S uj) n + value vs (S v) n + t.
Proof.
  revert u t. induction n as [|n IH]; intros u t Hu Hv Du Dv Ht.
  { eexists _, _. split; [done|]. split_and!; [by split|intros i Hi; lia|lia|lia|cbn [value]; lia]. }
  cbn [add_back]. rewrite !lookup_array by lia. cbn [mbind option_bind]. rewrite store_at_spec by lia. cbn [mbind option_bind].
  pose proof (Du (uj + S n)%nat ltac:(lia)) as Hx. pose proof (Dv (v + S n)%nat ltac:(lia)) as Hy.
  set (x := u !!! (uj + S n)%nat) in *. set (y := vs !!! (v + S n)%nat) in *.
  destruct (carry_step (t + (x + y))) as (-> & Ez & Hd & Hb); [lia|].
  set (d := LHALF _) in *. set (b := HHALF _) in *. set (u1 := <[(uj + S n)%nat := d]> u).
  destruct (low_digit_set u uj n d) as (S1 & L1 & D1); try done.
  destruct (IH u1 b) as (u' & t' & E & SS & Du' & Ht' & Ev); [unfold u1; lia|lia|done|eapply digits_sub; [done|lia|lia]|lia..|].
  destruct (low_digit_kept u u' uj n d) as (SS' & Du'' & Hlow); try done.
  exists u', t'. split; [done|]. split_and!; [done|done|lia|lia|]. unfold u1 in Ev. rewrite (value_same _ _ _ _ _ _ S1) in Ev by lia. rewrite Bp_S. cbn [value].
  replace (S uj + n)%nat with (uj + S n)%nat by lia. replace (S v + n)%nat with (v + S n)%nat by lia. rewrite Hlow. fold x y. nia.
Qed.

(** ** One digit of the quotient, and all of them *)

(** The arithmetic of a step: the first digits of dividend and divisor, and the digit left in front after subtracting
    the guess times the divisor *)
Lemma first_digit_le u0 u1 u2 u' w1 w2 v' K b W V : 0 < K -> 0 < b -> 0 <= u0 -> 0 <= u1 -> 0 <= u2 -> 0 <= u' -> 0 <= w2 < b -> 0 <= v' < K ->
  W = ((u0 * b + u1) * b + u2) * K + u' -> V = (w1 * b + w2) * K + v' -> W < V * b -> u0 <= w1.
Proof.
  intros HK Hb H0 H1 H2 H' Hw Hv EW EV HW. assert (V < (w1 + 1) * b * K) by nia. assert (u0 * b * b * K <= W) by nia.
  assert (u0 * (b * b * K) < (w1 + 1) * (b * b * K)) by nia. assert (0 < b * b * K) by nia. nia.
Qed.
Lemma digit_left x t N val rest g q r V W : 0 <= val < N -> 0 <= r < V -> V < N -> W = x * N + rest -> val - t * N = rest - g * V - 0 -> W = V * q + r ->
  (g = q -> x - t = 0 /\ val = r) /\ (g = q + 1 -> x - t = -1 /\ val + V = r + N).
Proof.
  intros Hval Hr HV EW Ev Edm. assert (E : (x - t) * N + val = r - (g - q) * V) by (clear Hval Hr HV; nia). set (z := x - t) in *. clearbody z. clear - Hval Hr HV E.
  split; intros ->.
  - replace (r - (q - q) * V) with r in E by lia. assert (z = 0) by nia. lia.
  - replace (r - (q + 1 - q) * V) with (r - V) in E by lia. assert (z = -1) by nia. lia.
Qed.

Section Divisor.
Context (vs : array) (v n : nat).
Context (Hv : (v + n < length vs)%nat) (Dv : digits vs (S v) n) (Hn : (2 <= n)%nat).
Abbreviation V := (value vs (S v) n).
Abbreviation v1 := (vs !!! S v).
Abbreviation v2 := (vs !!! S (S v)).
Context (Hnorm : B / 2 <= v1).

Lemma two_digits a k : value a k n = (a !!! k * B + a !!! S k) * Bp (n - 2) + value a (S (S k)) (n - 2).
Proof using Hn.
  clear -Hn. destruct n as [|[|n']]; [lia|lia|]. rewrite !value_front, Bp_S. replace (S (S n') - 2)%nat with n' by lia. ring.
Qed.
Lemma divisor_large : B * Bp (n - 2) <= V.
Proof using Hv Dv Hn Hnorm.
  rewrite two_digits. pose proof (Bp_pos (n - 2)). pose proof (Dv (S (S v)) ltac:(lia)). assert (HB : B = 65536) by reflexivity. change (B / 2) with 32768 in Hnorm.
  assert (0 <= value vs (S (S (S v))) (n - 2)) by (apply value_bounds; eapply digits_sub; [exact Dv|lia|lia]). nia.
Qed.

Lemma top_zero uj k w : (uj < length w)%nat -> digits w (S uj) k ->
  same_but uj 1 w (<[uj := 0]> w) /\ digits (<[uj := 0]> w) uj (S k) /\ value (<[uj := 0]> w) uj (S k) = value w (S uj) k.
Proof using.
  clear. intros Hu Dw. pose proof (same_insert w uj 0) as S0. split_and!; [done| |].
  - intros i Hi. destruct (decide (i = uj)) as [->|]; [by rewrite insert_here|]. rewrite insert_there by lia. apply Dw. lia.
  - rewrite value_front, insert_here by done. rewrite (value_same _ _ _ _ _ _ S0) by lia. lia.
Qed.

Lemma div_step_spec u uj : (uj + n < length u)%nat -> digits u uj (S n) -> value u uj (S n) < V * B ->
  exists u', div_step n u vs uj v v1 v2 = Some (u', value u uj (S n) / V) /\ same_but uj (S n) u u' /\ digits u' uj (S n)
    /\ value u' uj (S n) = value u uj (S n) mod V.
Proof using Hv Dv Hn Hnorm.
  intros Hu Du HW. set (W := value u uj (S n)) in *. pose proof divisor_large as HV. assert (HB : B = 65536) by reflexivity.
  assert (HW0 : 0 <= W) by (by apply value_bounds). pose proof (Bp_pos (n - 2)) as HK. pose proof (Bp_pos n) as HN.
  pose proof (Du uj ltac:(lia)) as D0. pose proof (Du (S uj) ltac:(lia)) as D1. pose proof (Du (S (S uj)) ltac:(lia)) as D2.
  pose proof (Dv (S v) ltac:(lia)) as E1. pose proof (Dv (S (S v)) ltac:(lia)) as E2.
  assert (HW3 : W = ((u !!! uj * B + u !!! S uj) * B + u !!! S (S uj)) * Bp (n - 2) + value u (S (S (S uj))) (n - 2)).
  { unfold W. rewrite value_front, (two_digits u (S uj)). replace (Bp n) with (B * (B * Bp (n - 2))); [ring|]. rewrite <- !Bp_S. do 2 f_equal. lia. }
  assert (Bu : 0 <= value u (S (S (S uj))) (n - 2) < Bp (n - 2)) by (apply value_bounds; eapply digits_sub; [exact Du|lia|lia]).
  assert (Bv : 0 <= value vs (S (S (S v))) (n - 2) < Bp (n - 2)) by (apply value_bounds; eapply digits_sub; [exact Dv|lia|lia]).
  pose proof (two_digits vs (S v)) as HV2. assert (Hle : u !!! uj <= v1) by (eapply first_digit_le; [exact HK| | | | | | |exact Bv|exact HW3|exact HV2|exact HW]; lia).
  unfold div_step. rewrite !Nat.add_succ_r, !Nat.add_0_r, !lookup_array by lia. cbn [mbind option_bind].
  rewrite guess_qhat_spec by lia. cbn [mbind option_bind].
  assert (HV2p : 0 < v1 * B + v2) by (clear -HB Hnorm E2; change (B / 2) with 32768 in Hnorm; rewrite HB in *; lia).
  destruct (guess_close W V _ _ _ _ _ HK HV2p Bu Bv HW3 HV2 HV (conj HW0 HW)) as [Hg Hgb].
  set (g := guess _ _) in *. clearbody g.
  destruct (mul_sub_spec n u vs uj v g 0) as (u' & t' & -> & SS & Du' & Ht' & Ev); try done; [eapply digits_sub; [exact Du|lia|lia]|].
  cbn [mbind option_bind]. assert (Hu' : u' !!! uj = u !!! uj) by (apply (proj2 SS); lia). rewrite lookup_array by (rewrite (proj1 SS); lia).
  cbn [mbind option_bind]. rewrite Hu', store_at_spec by (rewrite (proj1 SS); lia). cbn [mbind option_bind].
  assert (HVn : V < Bp n) by (by apply value_bounds). pose proof (value_bounds _ _ _ Du') as Hval.
  assert (HW1 : W = u !!! uj * Bp n + value u (S uj) n) by apply value_front.
  pose proof (Z.div_mod W V ltac:(lia)) as Hdm. pose proof (Z.mod_pos_bound W V ltac:(lia)) as Hr.
  set (q := W / V) in *. set (r := W mod V) in *. destruct (digit_left _ _ _ _ _ _ _ _ _ _ Hval Hr HVn HW1 Ev Hdm) as [Hz0 Hz1].
  assert (Lu' : length u' = length u) by apply SS. assert (Hcase : g = q \/ g = q + 1) by lia. destruct Hcase as [-> | ->].
  - destruct (Hz0 eq_refl) as [-> Hval0]. change (u32 0) with 0. change (LHALF 0) with 0. change (HHALF 0 =? 0) with true. cbn iota.
    destruct (top_zero uj n u') as (T1 & T2 & T3); [lia|done|]. eexists. split; [done|]. split_and!; [|done|rewrite T3; lia].
    eapply same_trans; [exact SS|exact T1|lia..].
  - destruct (Hz1 eq_refl) as [-> Hval1]. change (u32 (-1)) with (2 ^ 32 - 1). change (LHALF (2 ^ 32 - 1)) with (B - 1). change (HHALF (2 ^ 32 - 1) =? 0) with false. cbn iota.
    set (u1 := <[uj := B - 1]> u'). assert (S1 : same_but uj 1 u' u1) by apply same_insert. assert (L1 : length u1 = length u') by apply S1.
    destruct (add_back_spec n u1 vs uj v 0) as (u2 & t2 & -> & SS2 & D2' & Ht2 & Ev2); [lia|done|eapply digits_same; [exact S1|done|lia]|done|lia|].
    cbn [mbind option_bind]. rewrite (value_same _ _ _ _ _ _ S1) in Ev2 by lia. pose proof (value_bounds _ _ _ D2') as Hval2.
    assert (L2 : length u2 = length u1) by apply SS2. assert (Hx : u2 !!! uj = B - 1) by (rewrite (proj2 SS2) by lia; apply insert_here; lia).
    rewrite lookup_array, Hx by lia. cbn [mbind option_bind]. assert (t2 = 1) as -> by (destruct (decide (t2 = 0)) as [->|]; lia). change (LHALF (u32 (B - 1 + 1))) with 0.
    rewrite store_at_spec by lia. cbn [mbind option_bind]. replace (q + 1 - 1) with q by lia. rewrite u32_small by (split; [by apply Z.div_pos; lia|lia]).
    destruct (top_zero uj n u2) as (T1 & T2 & T3); [lia|done|]. eexists. split; [done|]. split_and!; [|done|rewrite T3; lia].
    eapply same_trans; [eapply (same_trans _ _ _ _ uj (S n)); [exact SS|eapply (same_trans _ _ _ _ uj (S n)); [exact S1|exact SS2|lia..]|lia..]|exact T1|lia..].
Qed.

Lemma div_loop_spec todo u qs uo q j : (uo + j + n + todo <= length u)%nat -> (q + j + todo <= length qs)%nat ->
  digits u (uo + j) (n + todo) -> value u (uo + j) n < V ->
  exists u' qs', div_loop todo n u vs qs uo v q j v1 v2 = Some (u', qs') /\ same_but (uo + j) (n + todo) u u' /\ same_but (q + j) todo qs qs'
    /\ digits u' (uo + j) (n + todo) /\ digits qs' (q + j) todo
    /\ value qs' (q + j) todo = value u (uo + j) (n + todo) / V /\ value u' (uo + j) (n + todo) = value u (uo + j) (n + todo) mod V.
Proof using Hv Dv Hn Hnorm.
  revert u qs j. induction todo as [|todo IH]; intros u qs j Hu Hq Du HV.
  { rewrite Nat.add_0_r in *. pose proof (value_bounds _ _ _ Du). exists u, qs. split; [done|].
    split_and!; [by split|by split|done|intros i Hi; lia|rewrite Z.div_small by lia; done|rewrite Z.mod_small by lia; done]. }
  cbn [div_loop]. assert (HVn : V < Bp n) by (by apply value_bounds).
  assert (Du1 : digits u (uo + j) (S n)) by (eapply digits_sub; [exact Du|lia|lia]).
  assert (HW : value u (uo + j) (S n) < V * B) by (cbn [value]; pose proof (Du (uo + j + n)%nat ltac:(lia)); nia).
  destruct (div_step_spec u (uo + j) ltac:(lia) Du1 HW) as (u1 & -> & S1 & D1 & E1). cbn [mbind option_bind].
  rewrite store_at_spec by lia. cbn [mbind option_bind]. set (W := value u (uo + j) (S n)) in *. set (qs1 := <[(q + j)%nat := W / V]> qs).
  assert (Hpos : 0 < V) by (pose proof divisor_large; pose proof (Bp_pos (n - 2)); assert (HB : B = 65536) by reflexivity; nia).
  assert (Hr : value u1 (uo + j) (S n) < Bp n) by (rewrite E1; pose proof (Z.mod_pos_bound W V Hpos); lia).
  destruct (value_small u1 (uo + j) 1 n D1 Hr) as [Z0 Z1]. rewrite Nat.add_1_r in Z1. change (1 + n)%nat with (S n) in Z1.
  assert (D2 : digits u1 (uo + j) (n + S todo)).
  { intros i Hi. destruct (decide (i < uo + j + S n)%nat); [apply D1; lia|rewrite (proj2 S1) by lia; apply Du; lia]. }
  assert (T0 : u1 !!! (uo + j)%nat = 0) by (cbn [value] in Z0; rewrite Nat.add_0_r in Z0; lia).
  assert (SQ1 : same_but (q + j) 1 qs qs1) by apply same_insert.
  destruct (IH u1 qs1 (j + 1)%nat) as (u' & qs' & E & SS & SQ & Du' & Dq' & Eq & Er).
  { rewrite (proj1 S1). lia. } { rewrite (proj1 SQ1). lia. } { eapply digits_sub; [exact D2|lia|lia]. }
  { replace (uo + (j + 1))%nat with (S (uo + j)) by lia. rewrite Z1, E1. by apply Z.mod_pos_bound. }
  replace (uo + (j + 1))%nat with (S (uo + j)) in * by lia. replace (q + (j + 1))%nat with (S (q + j)) in * by lia.
  assert (Hq0 : qs' !!! (q + j)%nat = W / V) by (rewrite (proj2 SQ) by lia; apply insert_here; lia).
  assert (HR : value u (uo + j) (n + S todo) = W / V * Bp todo * V + value u1 (S (uo + j)) (n + todo)).
  { replace (n + S todo)%nat with (S n + todo)%nat by lia. rewrite !value_app, Z1, E1. rewrite (value_same _ _ _ _ (S (uo + j) + n) todo S1) by lia.
    replace (S (uo + j) + n)%nat with (uo + j + S n)%nat by lia. fold W. pose proof (Z.div_mod W V ltac:(lia)). nia. }
  exists u', qs'. split; [done|]. rewrite HR, Z.div_add_l, (Z.add_comm (_ * V)), Z.mod_add by lia. split_and!.
  - eapply same_trans; [exact S1|exact SS|lia..].
  - eapply same_trans; [exact SQ1|exact SQ|lia..].
  - intros i Hi. destruct (decide (i = uo + j)%nat) as [->|]; [rewrite (proj2 SS) by lia; apply D1; lia|apply Du'; lia].
  - intros i Hi. destruct (decide (i = q + j)%nat) as [->|]; [|apply Dq'; lia]. rewrite Hq0. pose proof (value_bounds _ _ _ Du1).
    split; [apply Z.div_pos; lia|apply Z.div_lt_upper_bound; lia].
  - rewrite value_front, Hq0, Eq. lia.
  - rewrite Nat.add_succ_r, value_front, Er. rewrite (proj2 SS) by lia. rewrite T0. lia.
Qed.

End Divisor.

(** ** Shifting *)

Lemma norm_loop_spec fuel t d : 0 < t < B -> B <= t * 2 ^ Z.of_nat fuel -> 0 <= d ->
  exists e, norm_loop fuel t d = Some (d + e) /\ 0 <= e < Z.of_nat fuel /\ B / 2 <= t * 2 ^ e < B.
Proof.
  revert t d. induction fuel as [|fuel IH]; intros t d Ht Hf Hd; [simpl in Hf; lia|]. cbn [norm_loop]. assert (HB : B = 65536) by reflexivity.
  change (B / 2) with 32768. rewrite Nat2Z.inj_succ, Z.pow_succ_r in Hf by lia. destruct (Z.ltb_spec t 32768).
  - rewrite Z.shiftl_mul_pow2, u32_small by lia. destruct (IH (t * 2 ^ 1) (d + 1)) as (e & -> & He & Hb); [lia|lia|lia|].
    exists (e + 1). rewrite Z.pow_add_r by lia. change (B / 2) with 32768 in Hb. split; [f_equal; lia|lia].
  - exists 0. rewrite Z.add_0_r. split; [done|]. lia.
Qed.

(** A digit shifted left: the bits that leave it and those that stay *)
Lemma shl_digit x sh : 0 <= x < B -> 0 < sh < HALF_BITS ->
  x * 2 ^ sh = Z.shiftr x (HALF_BITS - sh) * B + LHALF (u32 (Z.shiftl x sh))
  /\ (exists h, LHALF (u32 (Z.shiftl x sh)) = h * 2 ^ sh) /\ 0 <= LHALF (u32 (Z.shiftl x sh)) <= B - 2 ^ sh /\ 0 <= Z.shiftr x (HALF_BITS - sh) < 2 ^ sh.
Proof.
  intros Hx Hs. unfold HALF_BITS in *. rewrite LHALF_mod, Z.shiftl_mul_pow2, Z.shiftr_div_pow2 by lia. assert (HP : B = 2 ^ (16 - sh) * 2 ^ sh) by (rewrite <- Z.pow_add_r by lia; by replace (16 - sh + sh) with 16 by lia).
  pose proof (Z.pow_pos_nonneg 2 sh ltac:(lia) ltac:(lia)) as Hp. pose proof (Z.pow_pos_nonneg 2 (16 - sh) ltac:(lia) ltac:(lia)) as Hp'.
  assert (Hu : u32 (x * 2 ^ sh) = x * 2 ^ sh).
  { apply u32_small. assert (2 ^ sh <= 2 ^ 16) by (apply Z.pow_le_mono_r; lia). pose proof B_eq. nia. }
  rewrite Hu. assert (E : (x * 2 ^ sh) mod B = x mod 2 ^ (16 - sh) * 2 ^ sh) by (rewrite HP; apply Z.mul_mod_distr_r; lia). rewrite E.
  pose proof (Z.div_mod x (2 ^ (16 - sh)) ltac:(lia)). pose proof (Z.mod_pos_bound x (2 ^ (16 - sh)) ltac:(lia)).
  split_and!; [rewrite HP; nia|by eexists|nia|nia|apply Z.div_pos; lia|apply Z.div_lt_upper_bound; lia].
Qed.

Lemma shl_loop_spec todo a p i sh : (p + i + todo < length a)%nat -> digits a (p + i) (S todo) -> 0 < sh < HALF_BITS ->
  exists a', shl_loop todo a p i sh = Some a' /\ same_but (p + i) (S todo) a a' /\ digits a' (p + i) (S todo)
    /\ value a (p + i) (S todo) * 2 ^ sh = Z.shiftr (a !!! (p + i)%nat) (HALF_BITS - sh) * Bp (S todo) + value a' (p + i) (S todo).
Proof.
  revert a i. induction todo as [|todo IH]; intros a i Ha Da Hs; cbn [shl_loop]; pose proof (Da (p + i)%nat ltac:(lia)) as Hx;
    destruct (shl_digit _ _ Hx Hs) as (Ex & (h & Eh) & Hl & Hh); pose proof (Z.pow_pos_nonneg 2 sh ltac:(lia) ltac:(lia)) as Hp;
    set (x := a !!! (p + i)%nat) in *; set (l := LHALF _) in *; rewrite !lookup_array by lia; cbn [mbind option_bind]; fold x; rewrite store_at_spec by lia; fold l.
  - exists (<[(p + i)%nat := l]> a). pose proof (same_insert a (p + i) l) as S1. split; [done|]. split; [done|]. split.
    + intros k Hk. replace k with (p + i)%nat by lia. rewrite insert_here by lia. lia.
    + cbn [value]. rewrite Nat.add_0_r, insert_here by lia. fold x. change (Bp 1) with B. lia.
  - cbn [mbind option_bind]. pose proof (Da (p + i + 1)%nat ltac:(lia)) as Hy. destruct (shl_digit _ _ Hy Hs) as (Ey & _ & _ & Hhy).
    set (y := a !!! (p + i + 1)%nat) in *. assert (El : Z.lor l (Z.shiftr y (HALF_BITS - sh)) = l + Z.shiftr y (HALF_BITS - sh)).
    { rewrite Eh. apply lor_low; lia. }
    rewrite El. set (d := l + _). set (a1 := <[(p + i)%nat := d]> a). assert (S1 : same_but (p + i) 1 a a1) by apply same_insert.
    assert (Ey1 : a1 !!! (p + (i + 1))%nat = y) by (unfold a1; rewrite insert_there by lia; f_equal; lia).
    destruct (IH a1 (i + 1)%nat) as (a' & E & S2 & D2 & V2); [rewrite (proj1 S1); lia|eapply digits_same; [exact S1|eapply digits_sub; [exact Da|lia|lia]|lia]|done|].
    assert (Hd : a' !!! (p + i)%nat = d) by (rewrite (proj2 S2) by lia; apply insert_here; lia).
    rewrite Ey1 in V2. rewrite (value_same _ _ _ _ _ _ S1) in V2 by lia. replace (p + (i + 1))%nat with (S (p + i)) in * by lia.
    exists a'. split; [done|]. split; [eapply same_trans; [exact S1|exact S2|lia..]|]. split.
    + intros k Hk. destruct (decide (k = p + i)%nat) as [->|]; [rewrite Hd; unfold d; lia|apply D2; lia].
    + rewrite (value_front a), (value_front a'), Hd, (Bp_S (S todo)). fold x. unfold d. rewrite Z.mul_add_distr_r, V2, (Z.mul_comm x), <- Z.mul_assoc, Ex. ring.
Qed.

(** A digit shifted right, with the bits that come from the digit in front of it *)
Lemma shr_digit x y d : 0 <= x < B -> 0 <= y < B -> 0 < d < HALF_BITS ->
  Z.lor (Z.shiftr x d) (LHALF (u32 (Z.shiftl y (HALF_BITS - d)))) = x / 2 ^ d + y mod 2 ^ d * 2 ^ (HALF_BITS - d)
  /\ 0 <= x / 2 ^ d + y mod 2 ^ d * 2 ^ (HALF_BITS - d) < B.
Proof.
  intros Hx Hy Hd. unfold HALF_BITS in *. rewrite LHALF_mod, Z.shiftl_mul_pow2, Z.shiftr_div_pow2 by lia. assert (HP : B = 2 ^ d * 2 ^ (16 - d)) by (rewrite <- Z.pow_add_r by lia; by replace (d + (16 - d)) with 16 by lia).
  pose proof (Z.pow_pos_nonneg 2 d ltac:(lia) ltac:(lia)) as Hp. pose proof (Z.pow_pos_nonneg 2 (16 - d) ltac:(lia) ltac:(lia)) as Hp'.
  assert (Hu : u32 (y * 2 ^ (16 - d)) = y * 2 ^ (16 - d)).
  { apply u32_small. assert (2 ^ (16 - d) <= 2 ^ 16) by (apply Z.pow_le_mono_r; lia). pose proof B_eq. nia. }
  rewrite Hu. assert (E : (y * 2 ^ (16 - d)) mod B = y mod 2 ^ d * 2 ^ (16 - d)) by (rewrite HP; apply Z.mul_mod_distr_r; lia). rewrite E.
  assert (Hxd : 0 <= x / 2 ^ d < 2 ^ (16 - d)) by (split; [apply Z.div_pos; lia|apply Z.div_lt_upper_bound; lia]).
  pose proof (Z.mod_pos_bound y (2 ^ d) ltac:(lia)). rewrite Z.lor_comm, lor_low by lia. split; [lia|]. rewrite HP. nia.
Qed.

Lemma shr_loop_spec todo a um d : (um + todo < length a)%nat -> digits a um (S todo) -> 0 < d < HALF_BITS ->
  exists a', shr_loop todo a um d = Some a' /\ same_but um (S todo) a a' /\ digits a' um (S todo) /\ a' !!! um = 0
    /\ value a' (S um) todo * 2 ^ d + (a !!! (um + todo)%nat) mod 2 ^ d = value a (S um) todo + (a !!! um) mod 2 ^ d * Bp todo.
Proof.
  revert a. induction todo as [|todo IH]; intros a Ha Da Hd; cbn [shr_loop].
  { rewrite store_at_spec by lia. eexists. split; [done|]. split; [apply same_insert|]. rewrite insert_here by lia. split; [|split; [done|]].
    - intros i Hi. replace i with um by lia. by rewrite insert_here by lia.
    - cbn [value]. rewrite Nat.add_0_r. change (Bp 0) with 1. lia. }
  rewrite !lookup_array by lia. cbn [mbind option_bind]. rewrite store_at_spec by lia. cbn [mbind option_bind].
  pose proof (Da (um + S todo)%nat ltac:(lia)) as Hx. pose proof (Da (um + todo)%nat ltac:(lia)) as Hy. destruct (shr_digit _ _ _ Hx Hy Hd) as [-> Hr].
  set (x := a !!! (um + S todo)%nat) in *. set (y := a !!! (um + todo)%nat) in *. set (r := _ + _) in *. set (a1 := <[(um + S todo)%nat := r]> a).
  assert (S1 : same_but (um + S todo) 1 a a1) by apply same_insert.
  destruct (IH a1) as (a' & E & S2 & D2 & Z2 & V2); [rewrite (proj1 S1); lia|eapply digits_same; [exact S1|eapply digits_sub; [exact Da|lia|lia]|lia]|done|].
  assert (Hl : a' !!! (um + S todo)%nat = r) by (rewrite (proj2 S2) by lia; apply insert_here; lia).
  rewrite (value_same _ _ _ _ _ _ S1), !(proj2 S1) in V2 by lia. fold y in V2.
  exists a'. split; [done|]. split; [eapply same_trans; [exact S1|exact S2|lia..]|]. split; [|split; [done|]].
  - intros i Hi. destruct (decide (i = um + S todo)%nat) as [->|]; [by rewrite Hl|apply D2; lia].
  - cbn [value]. replace (S um + todo)%nat with (um + S todo)%nat by lia. rewrite Hl, Bp_S. fold x. unfold r.
    assert (HP : B = 2 ^ (HALF_BITS - d) * 2 ^ d) by (rewrite <- Z.pow_add_r by (unfold HALF_BITS in *; lia); by replace (HALF_BITS - d + d) with 16 by (unfold HALF_BITS in *; lia)).
    pose proof (Z.div_mod x (2 ^ d) ltac:(pose proof (Z.pow_pos_nonneg 2 d); lia)) as Hdm. set (Q := value a' (S um) todo) in *. rewrite Z.mul_add_distr_r.
    replace (Q * B * 2 ^ d) with (Q * 2 ^ d * B) by ring. rewrite Z.mul_add_distr_r. replace (y mod 2 ^ d * 2 ^ (HALF_BITS - d) * 2 ^ d) with (y mod 2 ^ d * B) by (rewrite HP; ring). nia.
Qed.

(** ** Quads as arrays of digits *)

Lemma split_quad_spec a x : length a = 5%nat -> 0 <= x < 2 ^ 64 ->
  exists a', split_quad a x = Some a' /\ length a' = 5%nat /\ a' !!! 0%nat = a !!! 0%nat /\ digits a' 1 4 /\ value a' 1 4 = x.
Proof.
  intros Ha Hx. unfold split_quad. rewrite store_at_spec by lia. cbn [mbind option_bind].
  do 3 (rewrite store_at_spec by (rewrite ?length_insert; lia); cbn [mbind option_bind]).
  destruct a as [|a0 [|a1 [|a2 [|a3 [|a4 [|]]]]]]; try done. eexists. split; [done|]. split; [done|]. split; [done|]. cbn [value].
  unfold quad_high, quad_low, u32. rewrite !LHALF_mod, !HHALF_div, Z.shiftr_div_pow2 by lia. assert (HB : B = 65536) by reflexivity.
  assert (Hh : 0 <= x / 2 ^ 32 < 2 ^ 32) by (split; [apply Z.div_pos; lia|apply Z.div_lt_upper_bound; lia]).
  pose proof (Z.mod_pos_bound x (2 ^ 32) ltac:(lia)) as Hl. pose proof (Z.div_mod x (2 ^ 32) ltac:(lia)) as Ex.
  pose proof (Z.div_mod (x / 2 ^ 32) B ltac:(lia)) as Eh. pose proof (Z.div_mod (x mod 2 ^ 32) B ltac:(lia)) as El.
  pose proof (Z.mod_pos_bound (x / 2 ^ 32) B ltac:(lia)). pose proof (Z.mod_pos_bound (x mod 2 ^ 32) B ltac:(lia)).
  set (h := x / 2 ^ 32) in *. set (l := x mod 2 ^ 32) in *. clearbody h l. rewrite HB in *.
  split; [intros i Hi; destruct i as [|[|[|[|[|i]]]]]; try lia; cbn; lia|cbn; lia].
Qed.

Lemma join_quad_spec a : length a = 5%nat -> digits a 1 4 -> join_quad a = Some (value a 1 4).
Proof.
  intros Ha Da. unfold join_quad. rewrite !lookup_array by lia. cbn [mbind option_bind].
  pose proof (Da 1%nat ltac:(lia)). pose proof (Da 2%nat ltac:(lia)). pose proof (Da 3%nat ltac:(lia)). pose proof (Da 4%nat ltac:(lia)).
  rewrite !COMBINE_eq by done. assert (HB : B = 65536) by reflexivity. cbn [value Nat.add]. rewrite quad_eq by lia. f_equal. rewrite HB. lia.
Qed.

(** ** Leading zeros *)

Definition leads (a : array) (k : nat) : Prop := (forall i, (1 <= i <= k)%nat -> a !!! i = 0) /\ a !!! S k <> 0.

Lemma leads_value a k n : (k + n = 4)%nat -> leads a k -> value a 1 4 = value a (S k) n.
Proof. intros <- [Hz _]. rewrite value_app, (value_zeros a 1 k) by (intros i Hi; apply Hz; lia). simpl. done. Qed.
Lemma leads_lower a k n : (k + S n = 4)%nat -> digits a 1 4 -> leads a k -> Bp n <= value a 1 4 < Bp (S n).
Proof.
  intros Hk Da Hl. rewrite (leads_value a k (S n)) by done. assert (D : digits a (S k) (S n)) by (eapply digits_sub; [done|lia|lia]). split; [|by apply value_bounds].
  rewrite value_front. pose proof (D (S k) ltac:(lia)). destruct Hl as [_ Hl].
  assert (0 <= value a (S (S k)) n) by (apply value_bounds; eapply digits_sub; [exact D|lia|lia]). pose proof (Bp_pos n). nia.
Qed.

Lemma skip_u_spec a m : length a = 5%nat -> digits a 1 4 -> value a 1 4 <> 0 ->
  exists k, skip_u 5 a 0 m = Some (k, m - Z.of_nat k) /\ (k <= 3)%nat /\ leads a k.
Proof.
  intros Ha Da Hv. assert (Hgo : forall k fuel, (k + fuel = 5)%nat -> (k <= 4)%nat -> (forall i, (1 <= i <= k)%nat -> a !!! i = 0) ->
    exists k', skip_u fuel a k (m - Z.of_nat k) = Some (k', m - Z.of_nat k') /\ (k' <= 3)%nat /\ leads a k').
  { intros k fuel. revert k. induction fuel as [|fuel IH]; intros k Hf Hk Hz; [lia|].
    destruct (decide (k = 4)%nat) as [->|Hne]; [by destruct Hv; apply value_zeros; intros i Hi; apply Hz; lia|].
    cbn [skip_u]. rewrite lookup_array, Nat.add_1_r by lia. cbn [mbind option_bind]. destruct (Z.eqb_spec (a !!! S k) 0) as [E|E].
    - replace (m - Z.of_nat k - 1) with (m - Z.of_nat (S k)) by lia. apply IH; [lia|lia|]. intros i Hi. destruct (decide (i = S k)) as [->|]; [done|apply Hz; lia].
    - exists k. split; [done|]. split; [lia|]. by split. }
  destruct (Hgo 0%nat 5%nat) as (k & E & H); [lia|lia|intros i Hi; lia|]. exists k. by rewrite Z.sub_0_r in E.
Qed.

Lemma skip_v_spec a : length a = 5%nat -> digits a 1 4 -> value a 1 4 <> 0 ->
  (skip_v 4 a 0 4 = Some (2%nat, 1) /\ leads a 3) \/ exists k, skip_v 4 a 0 4 = Some (k, 4 - Z.of_nat k) /\ (k <= 2)%nat /\ leads a k.
Proof.
  intros Ha Da Hv. cbn [skip_v]. rewrite !lookup_array by (simpl; lia). cbn [mbind option_bind Nat.add].
  destruct (Z.eqb_spec (a !!! 1%nat) 0) as [E1|E1]; simpl.
  2:{ right. exists 0%nat. split_and!; [done|lia|split; [intros i Hi; lia|done]]. }
  destruct (Z.eqb_spec (a !!! 2%nat) 0) as [E2|E2]; simpl.
  2:{ right. exists 1%nat. split_and!; [done|lia|split; [intros i Hi; by replace i with 1%nat by lia|done]]. }
  destruct (Z.eqb_spec (a !!! 3%nat) 0) as [E3|E3]; simpl.
  2:{ right. exists 2%nat. split_and!; [done|lia|split; [|done]]. intros i Hi. destruct (decide (i = 1)%nat) as [->|]; [done|by replace i with 2%nat by lia]. }
  left. split; [done|]. assert (Hz : forall i, (1 <= i <= 3)%nat -> a !!! i = 0).
  { intros i Hi. destruct (decide (i = 1)%nat) as [->|]; [done|]. destruct (decide (i = 2)%nat) as [->|]; [done|by replace i with 3%nat by lia]. }
  split; [done|]. intros E4. apply Hv, value_zeros. intros i Hi. destruct (decide (i = 4)%nat) as [->|]; [done|apply Hz; lia].
Qed.

Lemma clear_q_spec k qs : (k <= length qs)%nat -> exists qs', clear_q k qs = Some qs' /\ same_but 0 k qs qs' /\ forall i, (i < k)%nat -> qs' !!! i = 0.
Proof.
  revert qs. induction k as [|k IH]; intros qs Hk; [exists qs; split; [done|]; split; [done|lia]|]. cbn [clear_q]. rewrite store_at_spec by lia. cbn [mbind option_bind].
  destruct (IH (<[k := 0]> qs)) as (qs' & -> & SS & Hz); [rewrite length_insert; lia|]. exists qs'. split; [done|].
  split; [eapply same_trans; [apply (same_insert qs k 0)|exact SS|lia..]|]. intros i Hi. destruct (decide (i = k)) as [->|]; [|apply Hz; lia].
  rewrite (proj2 SS) by lia. apply insert_here. lia.
Qed.

(** ** Division by one digit *)

Lemma short_div_spec a t : length a = 5%nat -> digits a 1 4 -> 0 < t < B -> short_div a 0 t = Some (value a 1 4 / t, value a 1 4 mod t).
Proof.
  intros Ha Da Ht. unfold short_div. rewrite !lookup_array by (simpl; lia). cbn [mbind option_bind Nat.add].
  pose proof (Da 1%nat ltac:(lia)) as H1. pose proof (Da 2%nat ltac:(lia)) as H2. pose proof (Da 3%nat ltac:(lia)) as H3. pose proof (Da 4%nat ltac:(lia)) as H4.
  cbn [value Nat.add]. set (u1 := a !!! 1%nat) in *. set (u2 := a !!! 2%nat) in *. set (u3 := a !!! 3%nat) in *. set (u4 := a !!! 4%nat) in *. clearbody u1 u2 u3 u4.
  unfold word_div, word_mod. rewrite (proj2 (Z.eqb_neq t 0)) by lia. cbn [mbind option_bind]. assert (HB : B = 65536) by reflexivity.
  assert (Hstep : forall r u, 0 <= r < t -> 0 <= u < B -> COMBINE r u = r * B + u /\ 0 <= (r * B + u) / t < B /\ 0 <= (r * B + u) mod t < t /\ r * B + u = t * ((r * B + u) / t) + (r * B + u) mod t).
  { intros r u Hr Hu. split; [apply COMBINE_eq; lia|]. split; [split; [apply Z.div_pos; lia|apply Z.div_lt_upper_bound; lia]|].
    split; [apply Z.mod_pos_bound; lia|apply Z.div_mod; lia]. }
  assert (E1 := Z.div_mod u1 t ltac:(lia)). assert (R1 := Z.mod_pos_bound u1 t ltac:(lia)).
  assert (Q1 : 0 <= u1 / t < B) by (split; [apply Z.div_pos; lia|apply Z.div_lt_upper_bound; nia]).
  destruct (Hstep (u1 mod t) u2 R1 H2) as (-> & Q2 & R2 & E2). set (r1 := u1 mod t) in *. set (q1 := u1 / t) in *.
  set (q2 := (r1 * B + u2) / t) in *. set (r2 := (r1 * B + u2) mod t) in *. destruct (Hstep r2 u3 R2 H3) as (-> & Q3 & R3 & E3).
  set (q3 := (r2 * B + u3) / t) in *. set (r3 := (r2 * B + u3) mod t) in *. destruct (Hstep r3 u4 R3 H4) as (-> & Q4 & R4 & E4).
  set (q4 := (r3 * B + u4) / t) in *. set (r4 := (r3 * B + u4) mod t) in *. clearbody q1 q2 q3 q4 r1 r2 r3 r4. clear Hstep.
  rewrite !COMBINE_eq, quad_eq by lia. rewrite HB in *.
  assert (E : (((0 * 65536 + u1) * 65536 + u2) * 65536 + u3) * 65536 + u4 = t * ((q1 * 65536 + q2) * 2 ^ 32 + (q3 * 65536 + q4)) + r4) 
    by (replace u1 with (t * q1 + r1) by lia; replace u2 with (t * q2 + r2 - r1 * 65536) by lia; replace u3 with (t * q3 + r3 - r2 * 65536) by lia;
        replace u4 with (t * q4 + r4 - r3 * 65536) by lia; ring).
  f_equal. f_equal; [apply Z.div_unique with r4|apply Z.mod_unique with ((q1 * 65536 + q2) * 2 ^ 32 + (q3 * 65536 + q4))]; try done; lia.
Qed.

(** ** Program D *)

Lemma shl_spec a p len sh c : (p + len < length a)%nat -> digits a p (S len) -> 0 < sh < HALF_BITS -> a !!! p * 2 ^ sh < B -> c = value a p (S len) * 2 ^ sh ->
  exists a', shl a p len sh = Some a' /\ same_but p (S len) a a' /\ digits a' p (S len) /\ value a' p (S len) = c.
Proof.
  intros Ha Da Hs Hc ->. destruct (shl_loop_spec len a p 0 sh) as (a' & E & SS & Da' & V); rewrite ?Nat.add_0_r in *; try done.
  exists a'. split_and!; try done. destruct (shl_digit (a !!! p) sh (Da p ltac:(lia)) Hs) as (Ex & _ & Hl & Hh).
  assert (Z.shiftr (a !!! p) (HALF_BITS - sh) = 0) as E0; [|rewrite E0 in V; lia]. pose proof B_eq. nia.
Qed.

(** D1: dividend and divisor shifted so that the first digit of the divisor is at least [B / 2] *)
Lemma normalize_spec us vs u w k n d : length us = 5%nat -> length vs = 5%nat -> digits us 0 5 -> us !!! u = 0 -> (u + w = 4)%nat ->
  digits vs 1 4 -> (k + S n = 4)%nat -> 0 <= d < HALF_BITS -> B / 2 <= vs !!! S k * 2 ^ d < B ->
  exists us' vs', (if 0 <? d then us ← shl us u w d; vs ← shl vs (S k) n d; Some (us, vs) else Some (us, vs)) = Some (us', vs')
    /\ length us' = 5%nat /\ length vs' = 5%nat /\ (forall i, (i < u)%nat -> us' !!! i = us !!! i) /\ digits us' u (S w) /\ digits vs' (S k) (S n)
    /\ value us' u (S w) = value us u (S w) * 2 ^ d /\ value vs' (S k) (S n) = value vs (S k) (S n) * 2 ^ d /\ B / 2 <= vs' !!! S k.
Proof.
  intros Lu Lv Du Hu0 Hu Dv Hk Hd Hn. assert (Du' : digits us u (S w)) by (eapply digits_sub; [exact Du|lia|lia]).
  assert (Dv' : digits vs (S k) (S n)) by (eapply digits_sub; [exact Dv|lia|lia]). destruct (Z.ltb_spec 0 d) as [Hd0|Hd0].
  - destruct (shl_spec us u w d _ ltac:(lia) Du' ltac:(lia) ltac:(rewrite Hu0; done) eq_refl) as (us' & -> & SU & DU & VU). cbn [mbind option_bind].
    destruct (shl_spec vs (S k) n d _ ltac:(lia) Dv' ltac:(lia) ltac:(lia) eq_refl) as (vs' & -> & SV & DV & VV).
    cbn [mbind option_bind]. exists us', vs'. split; [done|]. destruct SU as [LU SU], SV as [LV SV].
    split_and!; [congruence|congruence|intros i Hi; apply SU; lia|done|done|done|done|].
    rewrite !value_front in VV. pose proof (Bp_pos n). assert (0 <= value vs (S (S k)) n) by (apply value_bounds; eapply digits_sub; [exact Dv'|lia|lia]).
    assert (value vs' (S (S k)) n < Bp n) by (apply value_bounds; eapply digits_sub; [exact DV|lia|lia]).
    pose proof (Z.pow_pos_nonneg 2 d). set (N := Bp n) in *. change (B / 2) with 32768 in *. clearbody N. clear - VV Hn H H0 H1 H2 Hd0. nia.
  - assert (d = 0) as -> by lia. rewrite Z.pow_0_r, Z.mul_1_r in *. exists us, vs. split; [done|]. rewrite !Z.mul_1_r. split_and!; try done. lia.
Qed.

(** The remainder is shifted back. *)
Lemma denormalize_spec us um n d r : length us = 5%nat -> (um + n = 4)%nat -> digits us 0 5 -> (forall i, (i < um)%nat -> us !!! i = 0) ->
  0 <= d < HALF_BITS -> value us um (S n) = r * 2 ^ d -> r * 2 ^ d < Bp n ->
  exists us', (if d =? 0 then Some us else shr_loop n us um d) = Some us' /\ join_quad us' = Some r.
Proof.
  intros Lu Hn Du Hz Hd Hv Hr. assert (Du' : digits us um (S n)) by (eapply digits_sub; [exact Du|lia|lia]).
  destruct (value_small us um 1 n Du' ltac:(change (1 + n)%nat with (S n); lia)) as [Z0 Z1]. change (1 + n)%nat with (S n) in Z1. rewrite Nat.add_1_r in Z1.
  assert (T0 : us !!! um = 0) by (cbn [value] in Z0; rewrite Nat.add_0_r in Z0; lia).
  assert (Hj : forall w, length w = 5%nat -> digits w 0 5 -> (forall i, (i <= um)%nat -> w !!! i = 0) -> value w (S um) n = r -> join_quad w = Some r).
  { intros w Lw Dw Hw Hvw. rewrite join_quad_spec by (done || (eapply digits_sub; [exact Dw|lia|lia])). f_equal. rewrite <- Hvw.
    rewrite <- Hn, value_app, value_zeros by (intros i Hi; apply Hw; lia). done. }
  destruct (Z.eqb_spec d 0) as [->|Hd0].
  - exists us. split; [done|]. apply Hj; try done; [|lia]. intros i Hi. destruct (decide (i = um)) as [->|]; [done|apply Hz; lia].
  - destruct (shr_loop_spec n us um d) as (w & -> & SW & DW & W0 & VW); [lia|done|lia|]. exists w. split; [done|]. destruct SW as [LW SW].
    apply Hj; [congruence| | |].
    + intros i Hi. destruct (decide (i < um)%nat); [rewrite SW by lia; apply Du; lia|apply DW; lia].
    + intros i Hi. destruct (decide (i = um)) as [->|]; [done|]. rewrite SW by lia. apply Hz. lia.
    + rewrite T0, Zmod_0_l, Z1, Hv in VW. pose proof (Z.pow_pos_nonneg 2 d ltac:(lia) ltac:(lia)). pose proof (Z.mod_pos_bound (us !!! (um + n)%nat) (2 ^ d) ltac:(lia)). clear - VW H H0. nia.
Qed.

(** The digits of the quotient stand at the end of their array, behind zeros. *)
Lemma join_quotient qs q m : length qs = 5%nat -> (S q + S m = 5)%nat -> (forall i, (i < S q)%nat -> qs !!! i = 0) -> digits qs (S q) (S m) ->
  join_quad qs = Some (value qs (S q) (S m)).
Proof.
  intros Lq Hm Hz Dq. rewrite join_quad_spec; [|done|].
  - f_equal. replace 4%nat with (q + S m)%nat at 1 by lia. rewrite value_app, value_zeros by (intros i Hi; apply Hz; lia). done.
  - intros i Hi. destruct (decide (i < S q)%nat); [rewrite Hz by done; done|apply Dq; lia].
Qed.

(** The first digits of the shifted dividend are less than the shifted divisor. *)
Lemma quotient_top w N low X Y K p : 0 < N -> 0 < p -> 0 <= low -> w * N + low = X * p -> X < K * N -> K <= Y -> w < Y * p.
Proof. intros HN Hp Hl E HX HK. assert (X * p < K * N * p) by nia. assert (w * N < K * p * N) by nia. assert (w < K * p) by nia. nia. Qed.

(** From D2 on: the normalised operands are divided, and the quotient and the remainder are put together. *)
Lemma divide_spec us vs qs u m k n q d X Y (arq : bool) : (k + S n = 4)%nat -> (u + m = k)%nat -> (S q + m = 4)%nat -> (1 <= n)%nat ->
  length us = 5%nat -> length vs = 5%nat -> length qs = 5%nat -> (forall i, (i < u)%nat -> us !!! i = 0) -> (forall i, (i < S q)%nat -> qs !!! i = 0) ->
  digits us u (S n + S m) -> digits vs (S k) (S n) -> 0 <= d < HALF_BITS -> 0 < Y -> Bp n <= Y -> X < Bp (n + S m) ->
  value us u (S n + S m) = X * 2 ^ d -> value vs (S k) (S n) = Y * 2 ^ d -> B / 2 <= vs !!! S k ->
  ('(us, qs) ← div_loop (S m) (S n) us vs qs u k (S q) 0 (vs !!! S k) (vs !!! S (S k));
   rem ← (if arq then us ← (if d =? 0 then Some us else shr_loop (S n) us (u + m) d); r ← join_quad us; Some (Some r) else Some None);
   quot ← join_quad qs;
   Some (quot, rem)) = Some (X / Y, if arq then Some (X mod Y) else None).
Proof.
  intros Hk Hu Hq Hn Lu Lv Lq Zu Zq Du Dv Hd HY HYn HX VU VV Hnorm. pose proof (Z.pow_pos_nonneg 2 d ltac:(lia) ltac:(lia)) as Hp.
  assert (Hlt : value us (u + 0) (S n) < value vs (S k) (S n)).
  { rewrite Nat.add_0_r. rewrite value_app in VU. rewrite Bp_add in HX. rewrite VV. pose proof (Bp_pos (S m)).
    assert (0 <= value us (u + S n) (S m)) by (apply value_bounds; eapply digits_sub; [exact Du|lia|lia]). by eapply quotient_top. }
  destruct (div_loop_spec vs k (S n) ltac:(lia) Dv ltac:(lia) Hnorm (S m) us qs u (S q) 0) as (us2 & qs2 & -> & [LU2 SU2] & [LQ2 SQ2] & DU2 & DQ2 & VQ2 & VU2);
    [lia|lia|by rewrite Nat.add_0_r|done|]. rewrite !Nat.add_0_r in *. cbn [mbind option_bind].
  rewrite VU, VV in VQ2, VU2. rewrite Z.div_mul_cancel_r in VQ2 by lia. rewrite Z.mul_mod_distr_r in VU2 by lia.
  assert (Hquot : join_quad qs2 = Some (X / Y)).
  { rewrite (join_quotient qs2 q m); [by rewrite VQ2|lia|lia| |done]. intros i Hi. rewrite SQ2 by lia. by apply Zq. }
  assert (Hrem : exists us3, (if d =? 0 then Some us2 else shr_loop (S n) us2 (u + m) d) = Some us3 /\ join_quad us3 = Some (X mod Y)).
  { pose proof (Z.mod_pos_bound X Y HY) as Hr. pose proof (value_bounds _ _ _ Dv) as HV. rewrite VV in HV.
    assert (HrV : X mod Y * 2 ^ d < Bp (S n)) by (clear - Hr HV Hp; nia).
    replace (S n + S m)%nat with (m + S (S n))%nat in * by lia.
    destruct (value_small us2 u m (S (S n)) DU2) as [Zm Zr]; [rewrite (Bp_S (S n)), VU2; pose proof (Bp_pos (S n)); assert (HB : B = 65536) by reflexivity; clear - HrV H HB; nia|].
    apply denormalize_spec; [lia|lia| | |done|congruence|done].
    - intros i Hi. destruct (decide (i < u)%nat); [rewrite SU2, Zu by lia; done|apply DU2; lia].
    - intros i Hi. destruct (decide (i < u)%nat); [rewrite SU2 by lia; by apply Zu|].
      apply (value_zero_digits us2 u m); [eapply digits_sub; [exact DU2|lia|lia]|done|lia]. }
  destruct Hrem as (us3 & E3 & J3). destruct arq; [rewrite E3; cbn [mbind option_bind]; rewrite J3|]; cbn [mbind option_bind]; by rewrite Hquot.
Qed.

Lemma long_div_spec us vs qs k n arq : length us = 5%nat -> us !!! 0%nat = 0 -> digits us 1 4 -> length vs = 5%nat -> digits vs 1 4 -> length qs = 5%nat ->
  (k + S n = 4)%nat -> (1 <= n)%nat -> leads vs k -> value vs 1 4 <= value us 1 4 ->
  long_div us vs qs k (4 - Z.of_nat k) arq = Some (value us 1 4 / value vs 1 4, if arq then Some (value us 1 4 mod value vs 1 4) else None).
Proof.
  intros Lu U0 Du Lv Dv Lq Hk Hn Hl Hle. pose proof (leads_lower vs k n ltac:(lia) Dv Hl) as [Hlow _]. pose proof (Bp_pos n) as HP.
  destruct (skip_u_spec us (4 - (4 - Z.of_nat k)) Lu Du ltac:(lia)) as (u & Eu & Hu3 & Hlu).
  assert (exists w, (u + S w = 4)%nat) as [w Hw] by (exists (3 - u)%nat; lia). pose proof (leads_lower us u w Hw Du Hlu) as [_ Hup].
  assert (Huk : (u <= k)%nat).
  { destruct (decide (u <= k)%nat) as [|Hgt]; [done|]. assert (Bp (S w) <= Bp n) by (apply Z.pow_le_mono_r; [done|lia]). lia. }
  assert (exists m, (u + m = k)%nat) as [m Hm] by (exists (k - u)%nat; lia). assert (exists q, (S q + m = 4)%nat) as [q Hq] by (exists (3 - m)%nat; lia).
  assert (Hu0 : forall i, (i <= u)%nat -> us !!! i = 0) by (intros i Hi; destruct (decide (i = 0)%nat) as [->|]; [done|apply Hlu; lia]).
  assert (Du0 : digits us 0 5) by (intros i Hi; destruct (decide (i = 0)%nat) as [->|]; [rewrite U0; done|apply Du; lia]).
  assert (EX : value us u (S (S w)) = value us 1 4) by (rewrite value_front, Hu0, (leads_value us u (S w)) by done; lia).
  pose proof (leads_value vs k (S n) Hk Hl) as EY. set (X := value us 1 4) in *. set (Y := value vs 1 4) in *. clearbody X Y.
  unfold long_div. rewrite Eu. cbn [mbind option_bind]. replace (4 - (4 - Z.of_nat k) - Z.of_nat u) with (Z.of_nat m) by lia.
  replace (Z.to_nat (4 - Z.of_nat m)) with (S q) by lia. destruct (clear_q_spec (S q) qs ltac:(lia)) as (qs1 & -> & [LQ1 SQ1] & Hq0). cbn [mbind option_bind].
  rewrite lookup_array by lia. cbn [mbind option_bind]. pose proof (Dv (S k) ltac:(lia)) as Hv1. destruct Hl as [_ Hvn]. rewrite Nat.add_1_r.
  destruct (norm_loop_spec 17 (vs !!! S k) 0) as (d & Ed & Hd & Hdn); [lia|assert (HB : B = 65536) by reflexivity; lia|lia|]. rewrite Ed, Z.add_0_l. cbn [mbind option_bind].
  assert (Hd16 : 0 <= d < HALF_BITS).
  { clear - Hd Hdn Hvn Hv1. split; [lia|]. unfold HALF_BITS. destruct (decide (d = 16)) as [->|]; [|lia]. assert (HB : B = 65536) by reflexivity. lia. }
  replace (Z.to_nat (Z.of_nat m + (4 - Z.of_nat k))) with (S w) by lia. replace (Z.to_nat (4 - Z.of_nat k - 1)) with n by lia.
  destruct (normalize_spec us vs u (S w) k n d Lu Lv Du0 (Hu0 u ltac:(lia)) Hw Dv Hk Hd16 Hdn) as (us1 & vs1 & -> & LU1 & LV1 & Hfr & DU1 & DV1 & VU1 & VV1 & Hnm). cbn [mbind option_bind].
  rewrite (lookup_array vs1 (S k)), (lookup_array vs1 (k + 2)) by lia. cbn [mbind option_bind]. replace (k + 2)%nat with (S (S k)) by lia.
  replace (Z.to_nat (Z.max 1 (Z.of_nat m + 1))) with (S m) by lia. replace (Z.to_nat (4 - Z.of_nat k)) with (S n) by lia. rewrite Nat2Z.id.
  replace (S (S w)) with (S n + S m)%nat in * by lia. replace (S w) with (n + S m)%nat in Hup by lia.
  apply divide_spec; try done; [congruence| |lia|congruence|congruence]. intros i Hi. rewrite Hfr by done. apply Hu0. lia.
Qed.

(** ** The theorems *)


Lemma qdivrem_spec junk uq vq arq : 0 <= uq < 2 ^ 64 -> 0 < vq < 2 ^ 64 ->
  qdivrem junk uq vq arq = Some (uq / vq, if arq then Some (uq mod vq) else None).
Proof.
  intros Hu Hv. unfold qdivrem. rewrite (proj2 (Z.eqb_neq vq 0)) by lia. destruct (Z.ltb_spec uq vq); [by rewrite Z.div_small, Z.mod_small by lia|].
  rewrite store_at_spec by (simpl; lia). cbn [mbind option_bind].
  destruct (split_quad_spec (<[0%nat := 0]> (replicate 5 junk)) uq) as (us & -> & Lu & U0 & Du & <-); [done|lia|]. cbn [mbind option_bind].
  destruct (split_quad_spec (replicate 5 junk) vq) as (vs & -> & Lv & _ & Dv & <-); [done|lia|]. cbn [mbind option_bind]. change (<[0%nat:=0]> _ !!! 0%nat) with 0 in U0.
  destruct (skip_v_spec vs Lv Dv ltac:(lia)) as [[-> Hl]|(k & -> & Hk & Hl)]; cbn [mbind option_bind].
  - change (1 =? 1) with true. cbn iota. rewrite lookup_array by (simpl; lia). cbn [mbind option_bind].
    assert (E4 : value vs 1 4 = vs !!! 4%nat) by (rewrite (leads_value vs 3 1) by done; cbn [value Nat.add]; lia).
    pose proof (Dv 4%nat ltac:(lia)). change (2 + 2)%nat with 4%nat. rewrite E4 in *. by rewrite short_div_spec by (done || lia).
  - replace (4 - Z.of_nat k =? 1) with false by lia. apply (long_div_spec us vs _ k (3 - k)); try done; lia.
Qed.

(** C28: [__udivdi3] and [__umoddi3], which divide with 32-bit operations only, give the quotient and the remainder of
    64-bit numbers, whatever was on the stack before: Knuth's algorithm D in base [2 ^ 16] never leaves its arrays, each
    guess of a digit is off by at most one and corrected, and its loops end. *)
Theorem division_spec junk a b : 0 <= a < 2 ^ 64 -> 0 < b < 2 ^ 64 -> udivdi3 junk a b = Some (a / b) /\ umoddi3 junk a b = Some (a mod b).
Proof. intros Ha Hb. unfold udivdi3, umoddi3. by rewrite !qdivrem_spec by done. Qed.

Lemma quad_abs a : - 2 ^ 63 <= a < 2 ^ 63 -> (if a <? 0 then (- (a mod 2 ^ 64)) mod 2 ^ 64 else a) = Z.abs a.
Proof.
  intros Ha. destruct (Z.ltb_spec a 0); [|lia]. rewrite <- (Z.mod_add a 1 (2 ^ 64)) by lia. rewrite (Z.mod_small (a + 1 * 2 ^ 64)) by lia.
  rewrite <- (Z.mod_add _ 1) by lia. rewrite Z.mod_small by lia. lia.
Qed.

(** [__divdi3] gives the quotient of two signed numbers, rounded towards zero as C has it; only the quotient of the
    smallest number and [-1] does not fit and wraps around. *)
Theorem divdi3_spec junk a b : - 2 ^ 63 <= a < 2 ^ 63 -> - 2 ^ 63 <= b < 2 ^ 63 -> b <> 0 -> divdi3 junk a b = Some (s64 (Z.quot a b)).
Proof.
  intros Ha Hb Hb0. unfold divdi3. rewrite !quad_abs, qdivrem_spec by lia. cbn [mbind option_bind]. f_equal. rewrite (Z.quot_div a b Hb0). set (q := Z.abs a / Z.abs b).
  assert (Hs : forall x, s64 (x mod 2 ^ 64) = s64 x) by (intros x; unfold s64; by rewrite Zplus_mod_idemp_l).
  destruct (Z.ltb_spec a 0), (Z.ltb_spec b 0); cbn [xorb]; rewrite ?Hs; f_equal.
  - rewrite (Z.sgn_neg a), (Z.sgn_neg b) by lia. lia.
  - rewrite (Z.sgn_neg a), (Z.sgn_pos b) by lia. lia.
  - rewrite (Z.sgn_neg b) by lia. destruct (decide (a = 0)) as [->|]; [by unfold q|]. rewrite (Z.sgn_pos a) by lia. lia.
  - rewrite (Z.sgn_pos b) by lia. destruct (decide (a = 0)) as [->|]; [by unfold q; rewrite Zdiv_0_l|]. rewrite (Z.sgn_pos a) by lia. lia.
Qed.

(** *** [log2] *)

Lemma log2_loop_spec b fuel cur r : 0 <= r -> r + Z.of_nat b <= 31 -> (b < fuel)%nat -> (match b with O => cur = 0 | S b' => 2 ^ Z.of_nat b' <= cur < 2 ^ Z.of_nat b end) ->
  log2_loop fuel cur (s32 (2 ^ r)) r = Some (s32 (2 ^ (r + Z.of_nat b)), r + Z.of_nat b).
Proof.
  revert fuel cur r. induction b as [|b IH]; intros fuel cur r Hr Hrb Hf Hc; (destruct fuel as [|fuel]; [lia|]); cbn [log2_loop].
  { subst cur. by rewrite Z.add_0_r. }
  pose proof (Z.pow_pos_nonneg 2 (Z.of_nat b)). rewrite (proj2 (Z.eqb_neq cur 0)) by lia. rewrite Z.shiftr_div_pow2, Z.shiftl_mul_pow2 by lia. change (2 ^ 1) with 2.
  assert (2 ^ r < 2 ^ 31) by (apply Z.pow_lt_mono_r; lia). pose proof (Z.pow_pos_nonneg 2 r). rewrite (s32_small (2 ^ r)), (s32_small (r + 1)) by lia.
  replace (2 ^ r * 2) with (2 ^ (r + 1)) by (rewrite Z.pow_add_r by lia; lia). rewrite (IH fuel (cur / 2) (r + 1)); try lia; [do 2 f_equal; [f_equal; f_equal; lia|lia]|].
  rewrite Nat2Z.inj_succ, Z.pow_succ_r in Hc by lia. destruct b as [|b]; [apply Z.div_small; simpl in Hc; lia|].
  rewrite Nat2Z.inj_succ, Z.pow_succ_r in * by lia. split; [apply Z.div_le_lower_bound; lia|apply Z.div_lt_upper_bound; lia].
Qed.

(** [log2] is the logarithm rounded up, for every positive [int] but [2 ^ 30], where the power it compares with overflows *)
Theorem log2_spec x : 0 < x < 2 ^ 31 -> x <> 2 ^ 30 -> log2 33 x = Some (Z.log2_up x).
Proof.
  intros Hx Hne. unfold log2. pose proof (Z.log2_spec x ltac:(lia)) as Hl. pose proof (Z.log2_nonneg x). set (k := Z.log2 x) in *.
  assert (Hk : k < 31) by (apply Z.log2_lt_pow2; lia). change (log2_loop 33 x 1 0) with (log2_loop 33 x (s32 (2 ^ 0)) 0).
  rewrite (log2_loop_spec (S (Z.to_nat k)) 33 x 0) by (rewrite ?Nat2Z.inj_succ, ?Z2Nat.id by lia; lia). cbn [mbind option_bind]. rewrite Nat2Z.inj_succ, Z2Nat.id, Z.add_0_l by lia.
  pose proof (Z.le_log2_log2_up x) as H1. pose proof (Z.le_log2_up_succ_log2 x) as H2. pose proof (Z.log2_log2_up_exact x ltac:(lia)) as H3. fold k in H1, H2, H3. f_equal.
  destruct (decide (k = 30)) as [E|].
  - assert (Hn : ~ exists b, x = 2 ^ b).
    { intros [b ->]. assert (Hb : b = 30) by (rewrite <- E; unfold k; symmetry; apply Z.log2_pow2; destruct (decide (0 <= b)); [done|rewrite Z.pow_neg_r in Hx by lia; lia]). by rewrite Hb in Hne. }
    rewrite E in *. change (Z.shiftr (s32 (2 ^ Z.succ 30)) 1) with (- 2 ^ 30). rewrite (proj2 (Z.eqb_neq _ x)) by lia. assert (30 <> Z.log2_up x) by (intros E'; apply Hn, H3, E'). lia.
  - assert (2 ^ Z.succ k <= 2 ^ 30) by (apply Z.pow_le_mono_r; lia). pose proof (Z.pow_pos_nonneg 2 k). rewrite s32_small by lia.
    rewrite Z.shiftr_div_pow2, Z.pow_succ_r, Z.mul_comm, Z.div_mul by lia. destruct (Z.eqb_spec (2 ^ k) x) as [Ex|Ex].
    + rewrite s32_small by lia. assert (k = Z.log2_up x) by (apply H3; by exists k). lia.
    + assert (k <> Z.log2_up x); [|lia]. intros E. apply H3 in E as [b ->]. apply Ex. f_equal. apply Z.log2_pow2.
      destruct (decide (0 <= b)); [done|rewrite Z.pow_neg_r in Hx by lia; lia].
Qed.

(** For a negative number the loop does not end. *)
Theorem log2_negative fuel x : x < 0 -> log2 fuel x = None.
Proof.
  intros Hx. unfold log2. assert (E : forall y r, log2_loop fuel x y r = None); [|by rewrite E]. revert x Hx. induction fuel as [|fuel IH]; intros x Hx y r; [done|].
  cbn [log2_loop]. rewrite (proj2 (Z.eqb_neq x 0)) by lia. apply IH. rewrite Z.shiftr_div_pow2 by lia. apply Z.div_lt_upper_bound; lia.
Qed.

(** ** Examples *)

(** Operands for which the guess is too large by one and the divisor is added back *)
Lemma division_spec_witness : udivdi3 77 0x7fff800000000000 0x800000000001 = Some 65534 /\ umoddi3 77 0x7fff800000000000 0x800000000001 = Some 0x7fffffff0002.
Proof. apply (division_spec 77 0x7fff800000000000 0x800000000001); lia. Defined.

Lemma divdi3_spec_witness : divdi3 77 (-7) 2 = Some (-3).
Proof. apply (divdi3_spec 77 (-7) 2); lia. Defined.

Example divdi3_overflow : divdi3 77 (- 2 ^ 63) (-1) = Some (- 2 ^ 63).
Proof. vm_compute. reflexivity. Qed.
Example division_by_zero : udivdi3 77 5 0 = None.
Proof. reflexivity. Qed.
Example log2_overflow : log2 33 (2 ^ 30) = Some 31.
Proof. vm_compute. reflexivity. Qed.
Example log2_zero : log2 33 0 = Some (-1).
Proof. reflexivity. Qed.

End KMathSpec.
