(* ===== verification/KList.v ===== *)
(** * Intrusive circular doubly linked lists ([kernel/include/util/list.h])

    The macros of [util/list.h] work on [list_link_t] cells embedded in other
    structures.  The heap maps the address of a cell to its two pointers; the
    macros become kernel operations on that heap.  [is_list h l xs] says that
    the ring that starts at the list head [l] visits exactly the cells [xs].
    The theorems are the functional refinement of each macro to an operation on
    [xs], which is what the other components use when they keep a list. *)

From S2P Require Import Prelude.
Local Open Scope Z_scope.
Local Open Scope kernel_scope.

Module KList.

(** [struct list], used both as [list_t] and as [list_link_t] *)
Record list_link : Type := mk_link { l_next : Z; l_prev : Z }.

Abbreviation heap := (gmap Z list_link).

Definition NULL : Z := 0.

Definition load (p : Z) : kernel heap list_link := h <- kget ;; kderef (h !! p).

Definition set_next (v : Z) (c : list_link) : list_link := mk_link v (l_prev c).
Definition set_prev (v : Z) (c : list_link) : list_link := mk_link (l_next c) v.

Definition store_next (p v : Z) : kernel heap unit :=
  load p ;;; kmodify (alter (set_next v) p).
Definition store_prev (p v : Z) : kernel heap unit :=
  load p ;;; kmodify (alter (set_prev v) p).

Definition list_link_init (link : Z) : kernel heap unit :=
  store_prev link NULL ;;; store_next link NULL.

Definition list_link_is_linked (link : Z) : kernel heap bool :=
  c <- load link ;; kret (negb (l_next c =? NULL) && negb (l_prev c =? NULL))%bool.

Definition list_init (l : Z) : kernel heap unit :=
  store_prev l l ;;; store_next l l.

Definition list_empty (l : Z) : kernel heap bool :=
  c <- load l ;; kret (l_next c =? l).

Definition list_insert_before (old new : Z) : kernel heap unit :=
  let prev := new in
  let next := old in
  store_next prev next ;;;
  c <- load next ;;
  store_prev prev (l_prev c) ;;;
  c' <- load next ;;
  store_next (l_prev c') prev ;;;
  store_prev next prev.

Definition list_insert_head (l link : Z) : kernel heap unit :=
  c <- load l ;; list_insert_before (l_next c) link.

Definition list_insert_tail (l link : Z) : kernel heap unit :=
  list_insert_before l link.

Definition list_remove (link : Z) : kernel heap unit :=
  c <- load link ;;
  let prev := l_prev c in
  c' <- load link ;;
  let next := l_next c' in
  store_next prev next ;;;
  store_prev next prev ;;;
  store_prev link NULL ;;;
  store_next link NULL.

Definition list_remove_head (l : Z) : kernel heap unit :=
  c <- load l ;; list_remove (l_next c).

Definition list_remove_tail (l : Z) : kernel heap unit :=
  c <- load l ;; list_remove (l_prev c).

(** The loop of [list_iterate_begin]: the successor is read before the body
    runs, so that the body may remove the current cell. *)
Fixpoint list_iterate_from (fuel : nat) (l link : Z) (body : Z -> kernel heap unit) :
    kernel heap unit :=
  match fuel with
  | O => fun _ => NoFuel
  | S fuel =>
      if link =? l then kret tt
      else c <- load link ;;
           body link ;;;
           list_iterate_from fuel l (l_next c) body
  end.

Definition list_iterate (fuel : nat) (l : Z) (body : Z -> kernel heap unit) : kernel heap unit :=
  c <- load l ;; list_iterate_from fuel l (l_next c) body.

(** ** The representation predicate *)

Definition nextof (h : heap) (p : Z) : option Z := l_next <$> h !! p.
Definition prevof (h : heap) (p : Z) : option Z := l_prev <$> h !! p.

(** From [a], following [l_next] through [xs] leads to [z], and [l_prev] leads back. *)
Fixpoint chain (h : heap) (a : Z) (xs : list Z) (z : Z) : Prop :=
  match xs with
  | [] => nextof h a = Some z /\ prevof h z = Some a
  | x :: xs => (nextof h a = Some x /\ prevof h x = Some a) /\ chain h x xs z
  end.

Definition is_list (h : heap) (l : Z) (xs : list Z) : Prop :=
  NoDup (l :: xs) /\ NULL ∉ (l :: xs) /\ chain h l xs l.

(** ** Lemmas on chains *)

Lemma chain_app h a ys b zs z :
  chain h a (ys ++ b :: zs) z <-> chain h a ys b /\ chain h b zs z.
Proof. revert a. induction ys as [|y ys IH]; intros a; simpl; [tauto|]. rewrite IH. tauto. Qed.

Lemma chain_frame h h' a xs z :
  (forall x, x ∈ a :: xs -> nextof h' x = nextof h x) ->
  (forall x, x ∈ xs ++ [z] -> prevof h' x = prevof h x) ->
  chain h a xs z -> chain h' a xs z.
Proof.
  revert a. induction xs as [|x xs IH]; intros a Hn Hp; simpl.
  - rewrite Hn, Hp by set_solver. done.
  - rewrite Hn, Hp by set_solver. intros [? ?]. split; [done|].
    apply IH; set_solver.
Qed.

(** Redirecting the last edge of a chain. *)
Lemma chain_redirect h h' a xs z w ys p :
  a :: xs = ys ++ [p] ->
  (forall x, x ∈ ys -> nextof h' x = nextof h x) ->
  (forall x, x ∈ xs -> prevof h' x = prevof h x) ->
  nextof h' p = Some w -> prevof h' w = Some p ->
  chain h a xs z -> chain h' a xs w.
Proof.
  revert a ys. induction xs as [|x xs IH]; intros a ys Hys Hn Hp Hnp Hpw; simpl.
  - destruct ys as [|? []]; naive_solver.
  - destruct ys as [|y ys]; [naive_solver|]. injection Hys as <- Hys.
    rewrite Hn, Hp by set_solver. intros [? ?]. split; [done|].
    eapply IH; set_solver.
Qed.

Lemma chain_last h a xs z ys p :
  a :: xs = ys ++ [p] -> chain h a xs z -> nextof h p = Some z /\ prevof h z = Some p.
Proof.
  revert a ys. induction xs as [|x xs IH]; intros a ys Hys; simpl.
  - destruct ys as [|? []]; naive_solver.
  - destruct ys as [|y ys]; [naive_solver|]. injection Hys as <- Hys. naive_solver.
Qed.

Lemma snoc_exists {A} (a : A) xs : exists ys p, a :: xs = ys ++ [p].
Proof.
  destruct (exists_last (l := a :: xs)) as (ys & p & ->); [done|]. eauto.
Qed.

Lemma chain_head h a xs z : chain h a xs z -> exists c, h !! a = Some c /\ l_next c = default z (head xs).
Proof.
  destruct xs; simpl; unfold nextof; intros H; destruct (h !! a); naive_solver.
Qed.

Lemma nextof_alter_next h p v q c :
  h !! p = Some c -> nextof (alter (set_next v) p h) q = if decide (q = p) then Some v else nextof h q.
Proof.
  intros Hc. unfold nextof. rewrite lookup_alter. repeat case_decide; subst; try done.
  by rewrite Hc.
Qed.
Lemma nextof_alter_prev h p v q : nextof (alter (set_prev v) p h) q = nextof h q.
Proof.
  unfold nextof. rewrite lookup_alter. case_decide; subst; [|done]. by destruct (h !! q).
Qed.
Lemma prevof_alter_prev h p v q c :
  h !! p = Some c -> prevof (alter (set_prev v) p h) q = if decide (q = p) then Some v else prevof h q.
Proof.
  intros Hc. unfold prevof. rewrite lookup_alter. repeat case_decide; subst; try done.
  by rewrite Hc.
Qed.
Lemma prevof_alter_next h p v q : prevof (alter (set_next v) p h) q = prevof h q.
Proof.
  unfold prevof. rewrite lookup_alter. case_decide; subst; [|done]. by destruct (h !! q).
Qed.

Lemma run_load p c h : h !! p = Some c -> load p h = Done c h.
Proof. intros Hc. unfold load, kbind, kget, kderef. simpl. by rewrite Hc. Qed.
Lemma run_store_next p v c h :
  h !! p = Some c -> store_next p v h = Done tt (alter (set_next v) p h).
Proof. intros Hc. unfold store_next, kbind. by rewrite (run_load _ c). Qed.
Lemma run_store_prev p v c h :
  h !! p = Some c -> store_prev p v h = Done tt (alter (set_prev v) p h).
Proof. intros Hc. unfold store_prev, kbind. by rewrite (run_load _ c). Qed.

Lemma lookup_alter_is_Some f (h : heap) p q : is_Some (h !! q) -> is_Some (alter f p h !! q).
Proof. intros [c Hc]. rewrite lookup_alter. case_decide; subst; rewrite Hc; eauto. Qed.

(** The four stores of [list_insert_before], as one change of the two maps. *)
Lemma run_insert_before h old new p cn co :
  h !! new = Some cn -> h !! old = Some co -> l_prev co = p -> is_Some (h !! p) ->
  new <> old ->
  exists h', list_insert_before old new h = Done tt h'
    /\ (forall q, nextof h' q = if decide (q = p) then Some new
                                else if decide (q = new) then Some old else nextof h q)
    /\ (forall q, prevof h' q = if decide (q = old) then Some new
                                else if decide (q = new) then Some p else prevof h q)
    /\ (forall q, q ∉ [old; new; p] -> h' !! q = h !! q)
    /\ (forall q, is_Some (h !! q) -> is_Some (h' !! q)).
Proof.
  intros Hnew Hold Hp Hps Hne.
  assert (Hold1 : alter (set_next old) new h !! old = Some co) by by rewrite lookup_alter_ne.
  set (h1 := alter (set_next old) new h) in *.
  assert (Hnew1 : h1 !! new = Some (set_next old cn)) by (unfold h1; by rewrite lookup_alter_eq, Hnew).
  set (h2 := alter (set_prev p) new h1) in *.
  assert (Hold2 : h2 !! old = Some co) by (unfold h2; by rewrite lookup_alter_ne).
  assert (Hps2 : is_Some (h2 !! p)) by (unfold h2, h1; by repeat apply lookup_alter_is_Some).
  destruct Hps2 as [cp Hp2].
  set (h3 := alter (set_next new) p h2) in *.
  assert (Hold3 : is_Some (h3 !! old)) by (apply lookup_alter_is_Some; eauto).
  destruct Hold3 as [co3 Hold3].
  exists (alter (set_prev new) old h3). split_and!.
  - unfold list_insert_before, kbind. rewrite (run_store_next _ _ cn) by done. simpl.
    fold h1. rewrite (run_load _ co) by done. simpl. rewrite Hp.
    rewrite (run_store_prev _ _ _ _ Hnew1). simpl. fold h2. rewrite (run_load _ co) by done. simpl.
    rewrite Hp, (run_store_next _ _ _ _ Hp2). simpl. fold h3.
    by rewrite (run_store_prev _ _ _ _ Hold3).
  - intros q. rewrite nextof_alter_prev. unfold h3. rewrite (nextof_alter_next _ _ _ _ _ Hp2).
    unfold h2. rewrite nextof_alter_prev. unfold h1. by rewrite (nextof_alter_next _ _ _ _ _ Hnew).
  - intros q. rewrite (prevof_alter_prev _ _ _ _ _ Hold3). unfold h3. rewrite prevof_alter_next.
    unfold h2. rewrite (prevof_alter_prev _ _ _ _ _ Hnew1). unfold h1. by rewrite prevof_alter_next.
  - intros q Hq. unfold h3, h2, h1. rewrite !lookup_alter_ne by set_solver. done.
  - intros q Hq. unfold h3, h2, h1. by repeat apply lookup_alter_is_Some.
Qed.

(** The stores of [list_remove]. *)
Lemma run_remove h link cl :
  h !! link = Some cl -> is_Some (h !! l_prev cl) -> is_Some (h !! l_next cl) ->
  l_prev cl <> link -> l_next cl <> link ->
  exists h', list_remove link h = Done tt h'
    /\ (forall q, nextof h' q = if decide (q = link) then Some NULL
                                else if decide (q = l_prev cl) then Some (l_next cl) else nextof h q)
    /\ (forall q, prevof h' q = if decide (q = link) then Some NULL
                                else if decide (q = l_next cl) then Some (l_prev cl) else prevof h q)
    /\ (forall q, q ∉ [link; l_prev cl; l_next cl] -> h' !! q = h !! q)
    /\ (forall q, is_Some (h !! q) -> is_Some (h' !! q)).
Proof.
  intros Hl [cp Hp] Hn Hpl Hnl.
  set (p := l_prev cl) in *. set (n := l_next cl) in *.
  set (h1 := alter (set_next n) p h).
  assert (is_Some (h1 !! n)) as [cn Hn1] by (by apply lookup_alter_is_Some).
  set (h2 := alter (set_prev p) n h1).
  assert (is_Some (h2 !! link)) as [cl2 Hl2] by (repeat apply lookup_alter_is_Some; eauto).
  set (h3 := alter (set_prev NULL) link h2).
  assert (is_Some (h3 !! link)) as [cl3 Hl3] by (apply lookup_alter_is_Some; eauto).
  exists (alter (set_next NULL) link h3). split_and!.
  - unfold list_remove, kbind. rewrite (run_load _ cl) by done. simpl.
    rewrite (run_load _ cl) by done. simpl. fold p n.
    rewrite (run_store_next _ _ _ _ Hp). simpl. fold h1. rewrite (run_store_prev _ _ _ _ Hn1). simpl.
    fold h2. rewrite (run_store_prev _ _ _ _ Hl2). simpl. fold h3. by rewrite (run_store_next _ _ _ _ Hl3).
  - intros q. rewrite (nextof_alter_next _ _ _ _ _ Hl3). unfold h3, h2. rewrite !nextof_alter_prev.
    unfold h1. by rewrite (nextof_alter_next _ _ _ _ _ Hp).
  - intros q. rewrite prevof_alter_next. unfold h3. rewrite (prevof_alter_prev _ _ _ _ _ Hl2).
    unfold h2. rewrite (prevof_alter_prev _ _ _ _ _ Hn1). unfold h1. by rewrite prevof_alter_next.
  - intros q Hq. unfold h3, h2, h1. rewrite !lookup_alter_ne by set_solver. done.
  - intros q Hq. unfold h3, h2, h1. by repeat apply lookup_alter_is_Some.
Qed.

Lemma chain_is_Some h a xs z x : chain h a xs z -> x ∈ a :: xs -> is_Some (h !! x).
Proof.
  revert a. induction xs as [|y xs IH]; intros a; simpl.
  - unfold nextof. intros [Hn _] ->%list_elem_of_singleton. destruct (h !! a); naive_solver.
  - unfold nextof at 1. intros [[Hn _] Hc] [->|Hx]%elem_of_cons; [|by eapply IH].
    destruct (h !! a); naive_solver.
Qed.

Lemma is_list_frame h h' l xs :
  (forall q, q ∈ l :: xs -> h' !! q = h !! q) -> is_list h l xs -> is_list h' l xs.
Proof.
  intros Heq (Hnd & Hnull & Hc). split_and!; [done..|].
  eapply chain_frame; [..|done]; intros x Hx; unfold nextof, prevof; rewrite Heq; set_solver.
Qed.

Lemma is_list_disjoint_frame h h' l xs cells :
  (forall q, q ∉ cells -> h' !! q = h !! q) ->
  is_list h l xs -> (l :: xs) ## cells -> is_list h' l xs.
Proof. intros Hfr Hl Hd. eapply is_list_frame; [|done]. intros q Hq. apply Hfr. set_solver. Qed.

Lemma prevof_inv h p v : prevof h p = Some v -> exists c, h !! p = Some c /\ l_prev c = v.
Proof. unfold prevof. destruct (h !! p); naive_solver. Qed.
Lemma nextof_inv h p v : nextof h p = Some v -> exists c, h !! p = Some c /\ l_next c = v.
Proof. unfold nextof. destruct (h !! p); naive_solver. Qed.

(** How the cells of a ring lie around the cut between [ys] and [zs]. *)
Lemma ring_cut (l p : Z) ys zs ys' :
  NoDup (l :: ys ++ zs) -> l :: ys = ys' ++ [p] ->
  (forall x, x ∈ zs -> x <> p) /\ (forall x, x ∈ ys -> x <> default l (head zs)) /\
  (forall x, x ∈ ys' -> x <> p) /\ (forall x, x ∈ ys' -> x ∈ l :: ys) /\
  p ∈ l :: ys /\ default l (head zs) ∈ l :: zs /\ (forall x, x ∈ tail zs ++ [l] -> zs <> [] -> x <> default l (head zs)).
Proof.
  intros Hnd Hyp. assert (Hnd2 := Hnd). change (NoDup ((l :: ys) ++ zs)) in Hnd2.
  rewrite Hyp in Hnd2. apply NoDup_app in Hnd2 as (Hnd3 & Hd & _).
  apply NoDup_app in Hnd3 as (_ & Hd' & _).
  apply NoDup_cons in Hnd as [Hl Hnd]. apply NoDup_app in Hnd as (_ & Hd2 & Hz).
  split_and!.
  - set_solver +Hd.
  - destruct zs; simpl; set_solver +Hd2 Hl.
  - set_solver +Hd'.
  - rewrite Hyp. set_solver +.
  - rewrite Hyp. set_solver +.
  - destruct zs; set_solver +.
  - destruct zs as [|z zs]; simpl; [done|]. apply NoDup_cons in Hz as [Hz _]. set_solver +Hz Hl.
Qed.

(** Inserting [new] in front of the first cell of [zs] (or of the head, when
    [zs] is empty) puts it between [ys] and [zs]; rings that share no cell with
    this one are not touched. *)
Lemma insert_before_refines h l ys zs new :
  is_list h l (ys ++ zs) -> is_Some (h !! new) -> new ∉ l :: ys ++ zs -> new <> NULL ->
  exists h', list_insert_before (default l (head zs)) new h = Done tt h'
    /\ is_list h' l (ys ++ new :: zs)
    /\ forall q, q ∉ new :: l :: ys ++ zs -> h' !! q = h !! q.
Proof.
  intros (Hnd & Hnull & Hc) [cn Hcn] Hnew Hnn.
  set (old := default l (head zs)).
  destruct (snoc_exists l ys) as (ys' & p & Hyp).
  destruct (ring_cut l p ys zs ys' Hnd Hyp) as (Hpz & Hys & Hys' & Hsub & Hp & Hold & Htl).
  fold old in Hys, Hold, Htl.
  assert (Hcl : chain h l ys old).
  { unfold old. destruct zs as [|z zs]; simpl; [by rewrite app_nil_r in Hc|].
    by apply chain_app in Hc as [? _]. }
  destruct (chain_last _ _ _ _ _ _ Hyp Hcl) as [Hnp Hpo].
  destruct (prevof_inv _ _ _ Hpo) as (co & Hco & Hcop).
  assert (Hne : forall x, x ∈ l :: ys ++ zs -> x <> new) by set_solver +Hnew.
  destruct (run_insert_before h old new p cn co) as (h' & Hrun & Hnx & Hpv & Hfr & _); [done..| | |].
  { by eapply chain_is_Some. }
  { intros Heq. apply (Hne old); [|done]. set_solver +Hold. }
  assert (Hpn : p <> new) by (apply Hne; set_solver +Hp).
  assert (Hon : old <> new) by (apply Hne; set_solver +Hold).
  exists h'. split_and!; [done| |].
  - split_and!.
    + assert (l :: ys ++ new :: zs ≡ₚ new :: l :: ys ++ zs) as -> by solve_Permutation.
      by apply NoDup_cons.
    + set_solver +Hnull Hnn.
    + apply chain_app. split.
      * eapply chain_redirect; [exact Hyp|..|exact Hcl].
        -- intros x Hx. rewrite Hnx, !decide_False; [done| |by apply Hys'].
           apply Hne. specialize (Hsub _ Hx). set_solver +Hsub.
        -- intros x Hx. rewrite Hpv, !decide_False; [done| |by apply Hys].
           apply Hne. set_solver +Hx.
        -- by rewrite Hnx, decide_True.
        -- rewrite Hpv, decide_False by done. by rewrite decide_True.
      * assert (Hno : nextof h' new = Some old /\ prevof h' old = Some new).
        { rewrite Hnx, Hpv, decide_False by done. by rewrite !decide_True. }
        unfold old in *. destruct zs as [|z zs]; simpl in *; [done|]. split; [done|].
        apply chain_app in Hc as [_ Hcz]. eapply chain_frame; [..|exact Hcz].
        -- intros x Hx. rewrite Hnx, !decide_False; [done| |by apply Hpz].
           apply Hne. set_solver +Hx.
        -- intros x Hx. rewrite Hpv, !decide_False; [done| |by apply Htl].
           apply Hne. set_solver +Hx.
  - intros q Hq. apply Hfr. intros Hin. apply Hq. set_solver +Hin Hp Hold.
Qed.

(** Removing the cell [x] closes the ring around it and clears its two pointers. *)
Lemma remove_refines h l ys x zs :
  is_list h l (ys ++ x :: zs) ->
  exists h', list_remove x h = Done tt h'
    /\ is_list h' l (ys ++ zs)
    /\ h' !! x = Some (mk_link NULL NULL)
    /\ (forall q, is_Some (h !! q) -> is_Some (h' !! q))
    /\ forall q, q ∉ l :: ys ++ x :: zs -> h' !! q = h !! q.
Proof.
  intros (Hnd & Hnull & Hc).
  destruct (snoc_exists l ys) as (ys' & p & Hyp).
  apply chain_app in Hc as [Hcl Hcr].
  destruct (chain_last _ _ _ _ _ _ Hyp Hcl) as [Hnp Hpx].
  destruct (chain_head _ _ _ _ Hcr) as (cx & Hcx & Hcn).
  destruct (prevof_inv _ _ _ Hpx) as (cx' & Hcx' & Hcp). simplify_eq.
  set (n := default l (head zs)) in *.
  assert (Hnd' : NoDup (l :: ys ++ zs) /\ x ∉ l :: ys ++ zs).
  { assert (Hperm : l :: ys ++ x :: zs ≡ₚ x :: l :: ys ++ zs) by solve_Permutation.
    rewrite Hperm in Hnd. apply NoDup_cons in Hnd. naive_solver. }
  destruct Hnd' as [Hnd' Hx].
  destruct (ring_cut l (l_prev cx) ys zs ys' Hnd' Hyp) as (Hpz & Hys & Hys' & Hsub & Hp & Hold & Htl).
  fold n in Hys, Hold, Htl.
  assert (Hne : forall y, y ∈ l :: ys ++ zs -> y <> x) by set_solver +Hx.
  assert (Hpne : l_prev cx <> x) by (apply Hne; set_solver +Hp).
  assert (Hnne : n <> x) by (apply Hne; set_solver +Hold).
  destruct (run_remove h x cx) as (h' & Hrun & Hnx & Hpv & Hfr & Hsome); [done|..|done|by rewrite Hcn|].
  { by eapply (chain_is_Some _ _ _ _ _ Hcl). }
  { rewrite Hcn. unfold n. destruct zs as [|z zs]; simpl.
    - eapply (chain_is_Some _ _ _ _ _ Hcl). set_solver +.
    - eapply (chain_is_Some _ _ _ _ _ Hcr). set_solver +. }
  rewrite Hcn in Hnx, Hpv.
  exists h'. split_and!; [done| | |done|].
  - split_and!; [done|set_solver +Hnull|].
    assert (Hl : chain h' l ys n).
    { eapply chain_redirect; [exact Hyp|..|exact Hcl].
      - intros y Hy. rewrite Hnx, !decide_False; [done|by apply Hys'|].
        apply Hne. specialize (Hsub _ Hy). set_solver +Hsub.
      - intros y Hy. rewrite Hpv, !decide_False; [done|by apply Hys|]. apply Hne. set_solver +Hy.
      - rewrite Hnx, decide_False by done. by rewrite decide_True.
      - rewrite Hpv, decide_False by done. by rewrite decide_True. }
    unfold n in *. destruct zs as [|z zs]; simpl in *; [by rewrite app_nil_r|].
    apply chain_app. split; [done|]. destruct Hcr as [_ Hcr].
    eapply chain_frame; [..|exact Hcr].
    + intros y Hy. rewrite Hnx, !decide_False; [done|by apply Hpz|]. apply Hne. set_solver +Hy.
    + intros y Hy. rewrite Hpv, !decide_False; [done|by apply Htl|]. apply Hne. set_solver +Hy.
  - assert (Hn0 := Hnx x). assert (Hp0 := Hpv x). rewrite decide_True in Hn0, Hp0 by done.
    unfold nextof, prevof in *. destruct (h' !! x) as [[]|]; naive_solver.
  - intros q Hq. apply Hfr. rewrite Hcn. intros Hin. apply Hq. set_solver +Hin Hp Hold.
Qed.

Lemma is_list_head h l xs : is_list h l xs -> exists c, h !! l = Some c /\ l_next c = default l (head xs).
Proof. intros (_ & _ & Hc). by apply chain_head in Hc. Qed.

Lemma is_list_tail h l xs : is_list h l xs -> exists c, h !! l = Some c /\ l_prev c = default l (last xs).
Proof.
  intros (_ & _ & Hc). destruct (snoc_exists l xs) as (ys & p & Hyp).
  destruct (chain_last _ _ _ _ _ _ Hyp Hc) as [_ Hpv].
  destruct (prevof_inv _ _ _ Hpv) as (c & Hcl & <-). exists c. split; [done|].
  induction xs as [|x xs _] using rev_ind.
  - destruct ys as [|? []]; simplify_eq/=; done.
  - rewrite last_snoc. rewrite app_comm_cons in Hyp. apply app_inj_tail in Hyp as [_ ->]. done.
Qed.

(** ** Properties *)

(** [list_insert_head] and [list_insert_tail] put a fresh cell at the front and
    at the back of the ring, and leave every ring with other cells alone. *)
Theorem list_insert_refines h l xs new :
  is_list h l xs -> is_Some (h !! new) -> new ∉ l :: xs -> new <> NULL ->
  (exists h', list_insert_head l new h = Done tt h' /\ is_list h' l (new :: xs)
     /\ forall l2 ws, is_list h l2 ws -> (l2 :: ws) ## (new :: l :: xs) -> is_list h' l2 ws)
  /\ (exists h', list_insert_tail l new h = Done tt h' /\ is_list h' l (xs ++ [new])
     /\ forall l2 ws, is_list h l2 ws -> (l2 :: ws) ## (new :: l :: xs) -> is_list h' l2 ws).
Proof.
  intros Hl Hs Hnew Hnn. split.
  - destruct (is_list_head _ _ _ Hl) as (c & Hc & Hn).
    unfold list_insert_head, kbind. rewrite (run_load _ _ _ Hc). simpl. rewrite Hn.
    destruct (insert_before_refines h l [] xs new) as (h' & ? & ? & ?); [done..|].
    eauto 6 using is_list_disjoint_frame.
  - destruct (insert_before_refines h l xs [] new) as (h' & ? & ? & ?); rewrite ?app_nil_r; [done..|].
    rewrite app_nil_r in *. eauto 6 using is_list_disjoint_frame.
Qed.

Lemma linked_in_ring h l ys x zs :
  is_list h l (ys ++ x :: zs) -> list_link_is_linked x h = Done true h.
Proof.
  intros (Hnd & Hnull & [Hcl Hcr]%chain_app).
  destruct (snoc_exists l ys) as (ys' & p & Hyp).
  destruct (chain_last _ _ _ _ _ _ Hyp Hcl) as [_ (cx' & Hcx' & Hcp)%prevof_inv].
  destruct (chain_head _ _ _ _ Hcr) as (cx & Hcx & Hcn).
  assert (cx' = cx) as -> by congruence. subst p.
  unfold list_link_is_linked, kbind. rewrite (run_load _ _ _ Hcx). simpl. unfold kret. f_equal.
  rewrite Hcn. assert (l_prev cx ∈ l :: ys) by (rewrite Hyp; set_solver +).
  assert (default l (head zs) ∈ l :: zs) by (destruct zs; set_solver +).
  destruct (Z.eqb_spec (default l (head zs)) NULL) as [E|]; [rewrite E in *; set_solver|].
  destruct (Z.eqb_spec (l_prev cx) NULL) as [E|]; [rewrite E in *; set_solver|done].
Qed.

(** [list_remove] takes exactly the given cell out of its ring, wherever it
    is; the cell then no longer counts as linked; other rings are not touched. *)
Theorem list_remove_refines h l xs x :
  is_list h l xs -> x ∈ xs ->
  exists ys zs h', xs = ys ++ x :: zs /\ list_remove x h = Done tt h' /\ is_list h' l (ys ++ zs)
    /\ list_link_is_linked x h = Done true h /\ list_link_is_linked x h' = Done false h'
    /\ forall l2 ws, is_list h l2 ws -> (l2 :: ws) ## (l :: xs) -> is_list h' l2 ws.
Proof.
  intros Hl (ys & zs & ->)%list_elem_of_split.
  destruct (remove_refines _ _ _ _ _ Hl) as (h' & ? & ? & Hx & _ & Hfr).
  exists ys, zs, h'. split_and!; try done; [by eapply linked_in_ring| |by eauto using is_list_disjoint_frame].
  unfold list_link_is_linked, kbind. by rewrite (run_load _ _ _ Hx).
Qed.

Lemma list_remove_head_run h l x xs :
  is_list h l (x :: xs) -> exists h', list_remove_head l h = Done tt h' /\ is_list h' l xs.
Proof.
  intros Hl. destruct (is_list_head _ _ _ Hl) as (c & Hc & Hn).
  destruct (remove_refines h l [] x xs Hl) as (h' & ? & ? & _).
  unfold list_remove_head, kbind. rewrite (run_load _ _ _ Hc). simpl. rewrite Hn. eauto.
Qed.

Lemma list_remove_tail_run h l x xs :
  is_list h l (xs ++ [x]) -> exists h', list_remove_tail l h = Done tt h' /\ is_list h' l xs.
Proof.
  intros Hl. destruct (is_list_tail _ _ _ Hl) as (c & Hc & Hn). rewrite last_snoc in Hn.
  destruct (remove_refines h l xs x [] Hl) as (h' & ? & Hl' & _). rewrite app_nil_r in Hl'.
  unfold list_remove_tail, kbind. rewrite (run_load _ _ _ Hc). simpl. rewrite Hn. eauto.
Qed.

Lemma list_iterate_from_remove h l xs fuel :
  is_list h l xs -> (length xs < fuel)%nat ->
  exists h', list_iterate_from fuel l (default l (head xs)) list_remove h = Done tt h' /\ is_list h' l []
    /\ (forall x, x ∈ xs -> h' !! x = Some (mk_link NULL NULL))
    /\ (forall q, q ∉ l :: xs -> h' !! q = h !! q).
Proof.
  revert h fuel. induction xs as [|x xs IH]; intros h [|fuel] Hl Hf; simpl in *; [lia| |lia|].
  - rewrite Z.eqb_refl. exists h. set_solver.
  - assert (Hx : x ∉ l :: xs).
    { destruct Hl as [Hnd _]. rewrite !NoDup_cons in Hnd. set_solver. }
    destruct (Z.eqb_spec x l); [set_solver|].
    destruct (remove_refines h l [] x xs Hl) as (h' & Hrun & Hl' & Hx' & _ & Hfr).
    destruct Hl as (_ & _ & [_ Hcr]). destruct (chain_head _ _ _ _ Hcr) as (cx & Hcx & Hcn).
    unfold kbind. rewrite (run_load _ _ _ Hcx). simpl. rewrite Hrun. simpl. rewrite Hcn.
    destruct (IH h' fuel Hl') as (h2 & Hr2 & Hl2 & Hz2 & Hq2); [lia|].
    exists h2. split_and!; [done..| |].
    + intros y [->|Hy]%elem_of_cons; [|by apply Hz2]. by rewrite Hq2.
    + intros q Hq. rewrite Hq2, Hfr; set_solver.
Qed.

(** a [list_iterate_begin] loop whose body removes the current cell visits
    every cell, terminates, and leaves the list empty and all cells unlinked. *)
Theorem list_iterate_remove h l xs fuel :
  is_list h l xs -> (length xs < fuel)%nat ->
  exists h', list_iterate fuel l list_remove h = Done tt h' /\ is_list h' l []
    /\ list_empty l h' = Done true h'
    /\ forall x, x ∈ xs -> list_link_is_linked x h' = Done false h'.
Proof.
  intros Hl Hf. destruct (is_list_head _ _ _ Hl) as (c & Hc & Hn).
  unfold list_iterate, kbind. rewrite (run_load _ _ _ Hc). simpl. rewrite Hn.
  destruct (list_iterate_from_remove h l xs fuel Hl Hf) as (h' & ? & Hl' & Hz & _).
  exists h'. split_and!; [done..| |].
  - destruct (is_list_head _ _ _ Hl') as (c' & Hc' & Hn').
    unfold list_empty, kbind. rewrite (run_load _ _ _ Hc'). simpl. rewrite Hn'. simpl.
    by rewrite Z.eqb_refl.
  - intros x Hx. unfold list_link_is_linked, kbind. by rewrite (run_load _ _ _ (Hz x Hx)).
Qed.

(** ** Witnesses: a ring at address 16 with cells 32 and 48, and a free cell 64 *)

Definition demo_heap : heap :=
  list_to_map [(16, mk_link 32 48); (32, mk_link 48 16); (48, mk_link 16 32); (64, mk_link 0 0)].

Lemma demo_is_list : is_list demo_heap 16 [32; 48].
Proof.
  split_and!; [apply (bool_decide_unpack _); by vm_compute..|]. by repeat split.
Qed.

Lemma list_insert_refines_witness :
  exists h', list_insert_head 16 64 demo_heap = Done tt h' /\ is_list h' 16 [64; 32; 48].
Proof.
  destruct (list_insert_refines demo_heap 16 [32; 48] 64 demo_is_list) as [(h' & ? & ? & _) _];
    [by eexists|apply (bool_decide_unpack _); by vm_compute|done|].
  by exists h'.
Defined.

Lemma list_remove_refines_witness :
  exists h', list_remove 32 demo_heap = Done tt h' /\ list_link_is_linked 32 h' = Done false h'.
Proof.
  destruct (list_remove_refines demo_heap 16 [32; 48] 32 demo_is_list)
    as (ys & zs & h' & _ & ? & _ & _ & ? & _); [apply (bool_decide_unpack _); by vm_compute|].
  by exists h'.
Defined.

Lemma list_iterate_remove_witness :
  exists h', list_iterate 3 16 list_remove demo_heap = Done tt h' /\ list_empty 16 h' = Done true h'.
Proof.
  destruct (list_iterate_remove demo_heap 16 [32; 48] 3 demo_is_list) as (h' & ? & _ & ? & _);
    [simpl; lia|].
  by exists h'.
Defined.

End KList.
