(* ===== verification/Sched.v ===== *)
(** * The scheduler ([kernel/proc/sched.c])

    Threads, wait queues and the run queue.  A queue holds the sequence of
    threads linked through [kt_qlink], head first (see [KList] for why the ring
    behaves as a sequence); [ktqueue_enqueue] adds at the head and
    [ktqueue_dequeue] takes from the tail.  Pointers to threads, queues and
    processes are integers; the structures they designate are in the maps of
    the state. *)

From S2P Require Import Prelude.
Local Open Scope Z_scope.
Local Open Scope kernel_scope.

Module Sched.

(** The [KT_*] thread states of [proc/kthread.h] *)
Inductive ktstate : Set :=
| KT_NO_STATE | KT_RUN | KT_SLEEP | KT_SLEEP_CANCELLABLE | KT_EXITED.

#[export] Instance ktstate_eq_dec : EqDecision ktstate.
Proof. solve_decision. Defined.

(** [struct kthread].  The saved context [kt_ctx] is the continuation a
    suspended thread resumes with (see [Kmutex]); the links [kt_qlink] and
    [kt_plink] are in the sequences of the queue and of the process. *)
Record kthread : Type := mk_kthread {
  kt_kstack : Z;
  kt_retval : Z;
  kt_errno : Z;
  kt_proc : Z;
  kt_cancelled : Z;
  kt_wchan : option Z;
  kt_state : ktstate;
}.

(** [struct ktqueue] *)
Record ktqueue : Type := mk_ktqueue { tq_list : list Z; tq_size : Z }.

(** The state the scheduler works on.  [ext] is the rest of the kernel's
    memory, of a type each client chooses; no operation of this file touches it. *)
Record kstate (X : Type) : Type := mk_sched {
  threads : gmap Z kthread;
  queues : gmap Z ktqueue;
  curthr : option Z;
  curproc : option Z;
  ipl : Z;
  ext : X;
}.

Arguments mk_sched {X}.
Arguments threads {X}.
Arguments queues {X}.
Arguments curthr {X}.
Arguments curproc {X}.
Arguments ipl {X}.
Arguments ext {X}.

(** The address of the static run queue *)
Definition kt_runq : Z := 1.

Definition IPL_LOW : Z := 0.
Definition IPL_HIGH : Z := 0xff.

(** ** Access to the state *)

Definition with_retval (v : Z) (t : kthread) : kthread :=
  mk_kthread (kt_kstack t) v (kt_errno t) (kt_proc t) (kt_cancelled t) (kt_wchan t) (kt_state t).
Definition with_errno (v : Z) (t : kthread) : kthread :=
  mk_kthread (kt_kstack t) (kt_retval t) v (kt_proc t) (kt_cancelled t) (kt_wchan t) (kt_state t).
Definition with_cancelled (v : Z) (t : kthread) : kthread :=
  mk_kthread (kt_kstack t) (kt_retval t) (kt_errno t) (kt_proc t) v (kt_wchan t) (kt_state t).
Definition with_wchan (v : option Z) (t : kthread) : kthread :=
  mk_kthread (kt_kstack t) (kt_retval t) (kt_errno t) (kt_proc t) (kt_cancelled t) v (kt_state t).
Definition with_state (v : ktstate) (t : kthread) : kthread :=
  mk_kthread (kt_kstack t) (kt_retval t) (kt_errno t) (kt_proc t) (kt_cancelled t) (kt_wchan t) v.

Section operations.
Context {X : Type}.
Abbreviation sched := (kstate X).

Definition set_threads (f : gmap Z kthread -> gmap Z kthread) (s : sched) : sched :=
  mk_sched (f (threads s)) (queues s) (curthr s) (curproc s) (ipl s) (ext s).
Definition set_queues (f : gmap Z ktqueue -> gmap Z ktqueue) (s : sched) : sched :=
  mk_sched (threads s) (f (queues s)) (curthr s) (curproc s) (ipl s) (ext s).
Definition set_cur (t p : option Z) (s : sched) : sched :=
  mk_sched (threads s) (queues s) t p (ipl s) (ext s).
Definition set_ipl (v : Z) (s : sched) : sched :=
  mk_sched (threads s) (queues s) (curthr s) (curproc s) v (ext s).

Definition get_thread (t : Z) : kernel sched kthread := s <- kget ;; kderef (threads s !! t).
Definition upd_thread (t : Z) (f : kthread -> kthread) : kernel sched unit :=
  get_thread t ;;; kmodify (set_threads (alter f t)).
Definition get_queue (q : Z) : kernel sched ktqueue := s <- kget ;; kderef (queues s !! q).
Definition upd_queue (q : Z) (f : ktqueue -> ktqueue) : kernel sched unit :=
  get_queue q ;;; kmodify (set_queues (alter f q)).

Definition intr_getipl : kernel sched Z := s <- kget ;; kret (ipl s).
Definition intr_setipl (v : Z) : kernel sched unit := kmodify (set_ipl v).

(** Is [thr->kt_qlink] linked into some queue? *)
Definition qlink_is_linked (s : sched) (t : Z) : bool :=
  bool_decide (map_Exists (fun _ k => t ∈ tq_list k) (queues s)).

(** [list_remove(&thr->kt_qlink)]: the link leaves the ring it is in. *)
Definition unlink_thread (t : Z) (k : ktqueue) : ktqueue :=
  mk_ktqueue (filter (fun x => x <> t) (tq_list k)) (tq_size k).

(** ** Private queue operations *)

Definition ktqueue_enqueue (q thr : Z) : kernel sched unit :=
  t <- get_thread thr ;;
  kassert (bool_decide (kt_wchan t = None)) ;;;
  upd_queue q (fun k => mk_ktqueue (thr :: tq_list k) (tq_size k)) ;;;
  upd_thread thr (with_wchan (Some q)) ;;;
  upd_queue q (fun k => mk_ktqueue (tq_list k) (tq_size k + 1)).

Definition ktqueue_dequeue (q : Z) : kernel sched (option Z) :=
  k <- get_queue q ;;
  match last (tq_list k) with
  | None => kret None
  | Some thr =>
      kmodify (set_queues (fmap (unlink_thread thr))) ;;;
      upd_thread thr (with_wchan None) ;;;
      upd_queue q (fun k => mk_ktqueue (tq_list k) (tq_size k - 1)) ;;;
      kret (Some thr)
  end.

Definition ktqueue_remove (q : option Z) (thr : Z) : kernel sched unit :=
  s <- kget ;;
  kassert (qlink_is_linked s thr) ;;;
  kmodify (set_queues (fmap (unlink_thread thr))) ;;;
  upd_thread thr (with_wchan None) ;;;
  q <- kderef q ;;
  upd_queue q (fun k => mk_ktqueue (tq_list k) (tq_size k - 1)).

(** ** Public operations *)

Definition sched_queue_init (q : Z) : kernel sched unit :=
  kmodify (set_queues (insert q (mk_ktqueue [] 0))).

Definition sched_queue_empty (q : Z) : kernel sched bool :=
  k <- get_queue q ;; kret (bool_decide (tq_list k = [])).

Definition sched_make_runnable (thr : Z) : kernel sched unit :=
  t <- get_thread thr ;;
  kassert (bool_decide (kt_wchan t <> Some kt_runq)) ;;;
  interrupt_l <- intr_getipl ;;
  intr_setipl IPL_HIGH ;;;
  upd_thread thr (with_state KT_RUN) ;;;
  ktqueue_enqueue kt_runq thr ;;;
  intr_setipl interrupt_l.

(** The idle loop of [sched_switch]; [fuel] bounds the number of interrupts
    that leave the run queue empty. *)
Fixpoint runq_wait (fuel : nat) : kernel sched unit :=
  match fuel with
  | O => fun _ => NoFuel
  | S fuel =>
      empty <- sched_queue_empty kt_runq ;;
      if empty : bool then
        intr_setipl IPL_LOW ;;;
        kenv IntrWait ;;;
        intr_setipl IPL_HIGH ;;;
        runq_wait fuel
      else kret tt
  end.

(** [curthr = ktqueue_dequeue(&kt_runq); curproc = curthr->kt_proc;
     context_switch(&thr1->kt_ctx, &curthr->kt_ctx)] *)
Definition switch_to_next (thr1 : option Z) : kernel sched unit :=
  next <- ktqueue_dequeue kt_runq ;;
  next <- kderef next ;;
  t <- get_thread next ;;
  kmodify (set_cur (Some next) (Some (kt_proc t))) ;;;
  old <- kderef thr1 ;;
  get_thread old ;;;
  kenv CtxSwitch.

Definition sched_switch (fuel : nat) : kernel sched unit :=
  s <- kget ;;
  let thr1 := curthr s in
  interrupt_l <- intr_getipl ;;
  intr_setipl IPL_HIGH ;;;
  empty <- sched_queue_empty kt_runq ;;
  (if negb empty then switch_to_next thr1
   else runq_wait fuel ;;; switch_to_next thr1) ;;;
  intr_setipl interrupt_l.

Definition sched_sleep_on (fuel : nat) (q : Z) : kernel sched unit :=
  s <- kget ;;
  cur <- kderef (curthr s) ;;
  upd_thread cur (with_state KT_SLEEP) ;;;
  ktqueue_enqueue q cur ;;;
  sched_switch fuel.

Definition sched_cancellable_sleep_on (fuel : nat) (q : Z) : kernel sched Z :=
  s <- kget ;;
  cur <- kderef (curthr s) ;;
  upd_thread cur (with_state KT_SLEEP_CANCELLABLE) ;;;
  ktqueue_enqueue q cur ;;;
  sched_switch fuel ;;;
  s' <- kget ;;
  cur' <- kderef (curthr s') ;;
  t <- get_thread cur' ;;
  kret (if kt_cancelled t =? 1 then - EINTR else 0).

Definition sched_wakeup_on (q : Z) : kernel sched (option Z) :=
  empty <- sched_queue_empty q ;;
  if negb empty then
    thr <- ktqueue_dequeue q ;;
    thr <- kderef thr ;;
    t <- get_thread thr ;;
    kassert (bool_decide (kt_state t = KT_SLEEP \/ kt_state t = KT_SLEEP_CANCELLABLE)) ;;;
    sched_make_runnable thr ;;;
    kret (Some thr)
  else kret None.

(** The loop of [sched_broadcast_on]; each round takes one thread off [q]. *)
Fixpoint broadcast_loop (fuel : nat) (q : Z) : kernel sched unit :=
  match fuel with
  | O => fun _ => NoFuel
  | S fuel =>
      empty <- sched_queue_empty q ;;
      if negb empty then sched_wakeup_on q ;;; broadcast_loop fuel q
      else kret tt
  end.

Definition sched_broadcast_on (q : Z) : kernel sched unit :=
  k <- get_queue q ;;
  broadcast_loop (S (length (tq_list k))) q.

Definition sched_cancel (kthr : Z) : kernel sched unit :=
  t <- get_thread kthr ;;
  kassert (bool_decide (kt_state t <> KT_NO_STATE /\ kt_state t <> KT_EXITED)) ;;;
  upd_thread kthr (with_cancelled 1) ;;;
  if bool_decide (kt_state t = KT_SLEEP_CANCELLABLE) then
    ktqueue_remove (kt_wchan t) kthr ;;;
    sched_make_runnable kthr
  else kret tt.

(** ** Running the state accesses *)

Lemma run_get_thread t th s : threads s !! t = Some th -> get_thread t s = Done th s.
Proof. intros H. unfold get_thread. kpure. by rewrite H. Qed.
Lemma run_upd_thread t f th s :
  threads s !! t = Some th -> upd_thread t f s = Done tt (set_threads (alter f t) s).
Proof. intros H. unfold upd_thread. by kstep run_get_thread. Qed.
Lemma run_get_queue q k s : queues s !! q = Some k -> get_queue q s = Done k s.
Proof. intros H. unfold get_queue. kpure. by rewrite H. Qed.
Lemma run_upd_queue q f k s :
  queues s !! q = Some k -> upd_queue q f s = Done tt (set_queues (alter f q) s).
Proof. intros H. unfold upd_queue. by kstep run_get_queue. Qed.
Lemma run_queue_empty q k s :
  queues s !! q = Some k -> sched_queue_empty q s = Done (bool_decide (tq_list k = [])) s.
Proof. intros H. unfold sched_queue_empty. by kstep run_get_queue. Qed.

Lemma run_getipl s : intr_getipl s = Done (ipl s) s.
Proof. done. Qed.
Lemma run_setipl v s : intr_setipl v s = Done tt (set_ipl v s).
Proof. done. Qed.

(** The two changes every operation is made of: a thread is put at the head of
    a queue, a thread is taken off a queue. *)
Definition push (t : Z) (k : ktqueue) : ktqueue := mk_ktqueue (t :: tq_list k) (tq_size k + 1).
Definition pull (t : Z) (k : ktqueue) : ktqueue :=
  mk_ktqueue (filter (fun x => x <> t) (tq_list k)) (tq_size k - 1).
Definition put_on (q t : Z) (s : sched) : sched :=
  mk_sched (alter (with_wchan (Some q)) t (threads s)) (alter (push t) q (queues s))
           (curthr s) (curproc s) (ipl s) (ext s).
Definition take_off (q t : Z) (s : sched) : sched :=
  mk_sched (alter (with_wchan None) t (threads s)) (alter (pull t) q (queues s))
           (curthr s) (curproc s) (ipl s) (ext s).
Definition mark (st : ktstate) (t : Z) (s : sched) : sched := set_threads (alter (with_state st) t) s.

Lemma run_enqueue q t th k s :
  threads s !! t = Some th -> kt_wchan th = None -> queues s !! q = Some k ->
  ktqueue_enqueue q t s = Done tt (put_on q t s).
Proof.
  intros Ht Hw Hq. unfold ktqueue_enqueue. kstep run_get_thread. kstep kassert_dec.
  kstep run_upd_queue. kstep run_upd_thread.
  erewrite run_upd_queue; [|simpl; rewrite lookup_alter_eq, Hq; reflexivity].
  unfold put_on, set_queues, set_threads. simpl. f_equal. f_equal.
  by rewrite alter_alter_eq.
Qed.

(** ** The invariant *)

(** Where a thread in a given state may be. *)
Definition state_ok (cur : option Z) (t : Z) (th : kthread) : Prop :=
  match kt_state th with
  | KT_RUN => kt_wchan th = Some kt_runq \/ (kt_wchan th = None /\ cur = Some t)
  | KT_SLEEP | KT_SLEEP_CANCELLABLE => exists q, kt_wchan th = Some q /\ q <> kt_runq
  | KT_NO_STATE | KT_EXITED => kt_wchan th = None
  end.

(** Well-formedness, except for the state of the threads in [b], which are on no queue. *)
Record wf_but (b : option Z) (s : sched) : Prop := {
  wf_size : forall q k, queues s !! q = Some k -> tq_size k = Z.of_nat (length (tq_list k));
  wf_nodup : forall q k, queues s !! q = Some k -> NoDup (tq_list k);
  wf_on : forall q k t, queues s !! q = Some k -> t ∈ tq_list k ->
            exists th, threads s !! t = Some th /\ kt_wchan th = Some q;
  wf_wchan : forall t th q, threads s !! t = Some th -> kt_wchan th = Some q ->
            exists k, queues s !! q = Some k /\ t ∈ tq_list k;
  wf_runq : exists k, queues s !! kt_runq = Some k;
  wf_state : forall t th, threads s !! t = Some th -> Some t <> b -> state_ok (curthr s) t th;
  wf_hole : forall t, b = Some t -> exists th, threads s !! t = Some th /\ kt_wchan th = None;
}.

(** The scheduler invariant: queue sizes are exact, a thread is on the queue its
    [kt_wchan] names and on no other, and its state says where it is. *)
Definition sched_wf (s : sched) : Prop := wf_but None s.

Lemma take_off_queues b s q t k :
  wf_but b s -> queues s !! q = Some k -> t ∈ tq_list k ->
  alter (fun k => mk_ktqueue (tq_list k) (tq_size k - 1)) q (unlink_thread t <$> queues s)
  = alter (pull t) q (queues s).
Proof.
  intros Hwf Hq Ht. apply map_eq. intros q'. rewrite !lookup_alter, !lookup_fmap.
  case_decide as Heq; subst; [by destruct (queues s !! q')|].
  destruct (queues s !! q') as [k'|] eqn:Hk'; [|done]. simpl. f_equal.
  destruct k' as [l' n']. unfold unlink_thread. simpl. f_equal.
  apply list_filter_all. intros x Hx ->.
  destruct (wf_on _ _ Hwf _ _ _ Hq Ht) as (th & Hth & ?).
  destruct (wf_on _ _ Hwf _ _ _ Hk' Hx) as (th' & Hth' & ?). congruence.
Qed.

Lemma run_dequeue b s q k t :
  wf_but b s -> queues s !! q = Some k -> last (tq_list k) = Some t ->
  ktqueue_dequeue q s = Done (Some t) (take_off q t s).
Proof.
  intros Hwf Hq Hlast. assert (Ht : t ∈ tq_list k) by (by apply last_elem_of).
  destruct (wf_on _ _ Hwf _ _ _ Hq Ht) as (th & Hth & Hw).
  unfold ktqueue_dequeue. kstep run_get_queue. rewrite Hlast. kpure.
  kstep run_upd_thread.
  erewrite kbind_done; [|eapply run_upd_queue; simpl; rewrite lookup_fmap, Hq; reflexivity].
  unfold kret, take_off, set_queues, set_threads. simpl. by erewrite take_off_queues.
Qed.

Lemma wf_make_hole s t th :
  sched_wf s -> threads s !! t = Some th -> kt_wchan th = None -> wf_but (Some t) s.
Proof. intros Hwf Ht Hw. destruct Hwf; split; naive_solver. Qed.

Lemma wf_take_off s q t th :
  sched_wf s -> threads s !! t = Some th -> kt_wchan th = Some q -> wf_but (Some t) (take_off q t s).
Proof.
  intros Hwf Ht Hw. destruct (wf_wchan _ _ Hwf _ _ _ Ht Hw) as (k & Hq & Hin).
  split; simpl.
  - intros q' k'. rewrite lookup_alter. case_decide; subst; [|by apply (wf_size _ _ Hwf)].
    rewrite Hq. intros [= <-]. simpl. rewrite (wf_size _ _ Hwf _ _ Hq).
    rewrite (length_filter_ne t) by eauto using wf_nodup. lia.
  - intros q' k'. rewrite lookup_alter. case_decide; subst; [|by apply (wf_nodup _ _ Hwf)].
    rewrite Hq. intros [= <-]. simpl. apply NoDup_filter. by eapply wf_nodup.
  - intros q' k' x Hk' Hx. assert (Hxt : x <> t).
    { intros ->. rewrite lookup_alter in Hk'. case_decide; subst.
      - rewrite Hq in Hk'. injection Hk' as <-. simpl in Hx. apply list_elem_of_filter in Hx. naive_solver.
      - destruct (wf_on _ _ Hwf _ _ _ Hk' Hx) as (th' & ? & ?). congruence. }
    rewrite lookup_alter_ne by done. rewrite lookup_alter in Hk'. case_decide; subst.
    + rewrite Hq in Hk'. injection Hk' as <-. simpl in Hx. apply list_elem_of_filter in Hx as [_ Hx].
      by eapply wf_on.
    + by eapply wf_on.
  - intros x th' q'. rewrite lookup_alter. case_decide; subst.
    + rewrite Ht. intros [= <-]. done.
    + intros Hx Hwx. destruct (wf_wchan _ _ Hwf _ _ _ Hx Hwx) as (k' & Hk' & Hin').
      rewrite lookup_alter. case_decide; subst; [|by eauto].
      rewrite Hk'. eexists. split; [done|]. simpl. apply list_elem_of_filter. naive_solver.
  - destruct (wf_runq _ _ Hwf) as [k' Hk']. rewrite lookup_alter, Hk'. case_decide; eauto.
    subst. rewrite Hk'. simpl. eauto.
  - intros x th' Hx Hne. rewrite lookup_alter_ne in Hx by congruence. by apply (wf_state _ _ Hwf).
  - intros x [= <-]. exists (with_wchan None th). by rewrite lookup_alter_eq, Ht.
Qed.

(** Which queue goes with which state. *)
Definition placement (st : ktstate) (q : Z) : Prop :=
  (st = KT_RUN /\ q = kt_runq) \/ ((st = KT_SLEEP \/ st = KT_SLEEP_CANCELLABLE) /\ q <> kt_runq).

Lemma wf_put_on s q t st k :
  wf_but (Some t) s -> queues s !! q = Some k -> placement st q -> sched_wf (put_on q t (mark st t s)).
Proof.
  intros Hwf Hq Hpl. destruct (wf_hole _ _ Hwf t eq_refl) as (th & Ht & Hw).
  assert (Hoff : forall q' k', queues s !! q' = Some k' -> t ∉ tq_list k').
  { intros q' k' Hk' Hin. destruct (wf_on _ _ Hwf _ _ _ Hk' Hin) as (? & ? & ?). congruence. }
  assert (Hthr : alter (with_wchan (Some q)) t (alter (with_state st) t (threads s)) !! t
                 = Some (with_wchan (Some q) (with_state st th))).
  { by rewrite !lookup_alter_eq, Ht. }
  split; simpl.
  - intros q' k'. rewrite lookup_alter. case_decide; subst; [|by apply (wf_size _ _ Hwf)].
    rewrite Hq. intros [= <-]. simpl. rewrite (wf_size _ _ Hwf _ _ Hq). lia.
  - intros q' k'. rewrite lookup_alter. case_decide; subst; [|by apply (wf_nodup _ _ Hwf)].
    rewrite Hq. intros [= <-]. simpl. apply NoDup_cons. eauto using wf_nodup.
  - intros q' k' x Hk' Hx. destruct (decide (x = t)) as [->|Hxt].
    + rewrite Hthr. eexists. split; [done|]. simpl. f_equal.
      rewrite lookup_alter in Hk'. case_decide; [done|]. by destruct (Hoff _ _ Hk').
    + rewrite !lookup_alter_ne by done. rewrite lookup_alter in Hk'. case_decide; subst.
      * rewrite Hq in Hk'. injection Hk' as <-. simpl in Hx. eapply wf_on; [done..|]. set_solver.
      * by eapply wf_on.
  - intros x th' q' Hx Hwx. destruct (decide (x = t)) as [->|Hxt].
    + rewrite Hthr in Hx. injection Hx as <-. simpl in Hwx. injection Hwx as <-.
      rewrite lookup_alter_eq, Hq. eexists. split; [done|]. simpl. set_solver.
    + rewrite !lookup_alter_ne in Hx by done.
      destruct (wf_wchan _ _ Hwf _ _ _ Hx Hwx) as (k' & Hk' & Hin').
      rewrite lookup_alter. case_decide; subst; [|by eauto].
      rewrite Hk'. eexists. split; [done|]. simpl. set_solver.
  - destruct (wf_runq _ _ Hwf) as [k' Hk']. rewrite lookup_alter. case_decide; subst; [|eauto].
    rewrite Hk'. simpl. eauto.
  - intros x th' Hx _. destruct (decide (x = t)) as [->|Hxt].
    + rewrite Hthr in Hx. injection Hx as <-. unfold state_ok. simpl.
      destruct Hpl as [[-> ->]|[[->| ->] ?]]; simpl; eauto.
    + rewrite !lookup_alter_ne in Hx by done. apply (wf_state _ _ Hwf); congruence.
  - done.
Qed.

Lemma wf_set_cur s t th p :
  wf_but (Some t) s -> threads s !! t = Some th -> kt_state th = KT_RUN ->
  (forall c thc, curthr s = Some c -> threads s !! c = Some thc -> c <> t ->
     kt_state thc = KT_RUN -> kt_wchan thc = Some kt_runq) ->
  sched_wf (set_cur (Some t) p s).
Proof.
  intros Hwf Ht Hrun Hpark. split; simpl; [by apply Hwf..| |done].
  intros x thx Hx _. destruct (decide (x = t)) as [->|Hne].
  - simplify_eq. unfold state_ok. rewrite Hrun. right. split; [|done].
    destruct (wf_hole _ _ Hwf t eq_refl) as (th' & ? & ?). congruence.
  - assert (Hok := wf_state _ _ Hwf x thx Hx ltac:(congruence)).
    unfold state_ok in *. destruct (kt_state thx) eqn:Hst; try done.
    destruct Hok as [|[Hw Hc]]; [by left|]. left. by eapply Hpark.
Qed.

Lemma wf_set_ipl b v s : wf_but b s -> wf_but b (set_ipl v s).
Proof. intros Hwf. destruct Hwf. by split. Qed.

(** ** What the operations compute on well-formed states *)

Definition runnable (t : Z) (s : sched) : sched := put_on kt_runq t (mark KT_RUN t s).
Definition wake (q t : Z) (s : sched) : sched := runnable t (take_off q t s).

Lemma mark_lookup st t th s :
  threads s !! t = Some th -> threads (mark st t s) !! t = Some (with_state st th).
Proof. intros Ht. simpl. by rewrite lookup_alter_eq, Ht. Qed.

Lemma run_make_runnable s t :
  wf_but (Some t) s -> sched_make_runnable t s = Done tt (runnable t s) /\ sched_wf (runnable t s).
Proof.
  intros Hwf. destruct (wf_hole _ _ Hwf t eq_refl) as (th & Ht & Hw).
  destruct (wf_runq _ _ Hwf) as [k Hk]. split.
  - unfold sched_make_runnable. kstep run_get_thread. kstep kassert_dec; [|by rewrite Hw].
    kstep run_getipl. kstep run_setipl. kstep run_upd_thread.
    erewrite kbind_done; [|eapply (run_enqueue _ _ (with_state KT_RUN th) k); simpl;
                           [by rewrite lookup_alter_eq, Ht|done|done]]. by destruct s.
  - eapply wf_put_on; [done..|]. by left.
Qed.

Lemma take_off_lookup q t th s :
  threads s !! t = Some th -> threads (take_off q t s) !! t = Some (with_wchan None th).
Proof. intros Ht. simpl. by rewrite lookup_alter_eq, Ht. Qed.

Lemma run_wakeup s q k l t :
  sched_wf s -> queues s !! q = Some k -> tq_list k = l ++ [t] -> q <> kt_runq ->
  sched_wakeup_on q s = Done (Some t) (wake q t s) /\ sched_wf (wake q t s).
Proof.
  intros Hwf Hq Hl Hne.
  destruct (wf_on _ _ Hwf q k t Hq) as (th & Ht & Hw); [rewrite Hl; set_solver|].
  assert (Hoff := wf_take_off _ _ _ _ Hwf Ht Hw).
  destruct (run_make_runnable _ _ Hoff) as [Hrun Hwf']. split; [|done].
  unfold sched_wakeup_on. kstep run_queue_empty. rewrite bool_decide_eq_false_2 by (rewrite Hl; by destruct l).
  simpl. kstep run_dequeue; [|by rewrite Hl, last_snoc]. kpure.
  erewrite kbind_done; [|by apply kderef_Some]. cbn beta.
  erewrite kbind_done; [|by apply run_get_thread, take_off_lookup]. cbn beta.
  erewrite kbind_done; [|apply kassert_dec].
  - by kstep Hrun.
  - assert (Hok := wf_state _ _ Hwf t th Ht ltac:(done)). unfold state_ok in Hok. simpl.
    destruct (kt_state th); naive_solver.
Qed.

Lemma run_wakeup_empty s q k :
  queues s !! q = Some k -> tq_list k = [] -> sched_wakeup_on q s = Done None s.
Proof. intros Hq Hl. unfold sched_wakeup_on. kstep run_queue_empty. by rewrite Hl. Qed.

(** The queues after [wake]. *)
Lemma wake_queue s q k l t :
  sched_wf s -> queues s !! q = Some k -> tq_list k = l ++ [t] -> q <> kt_runq ->
  queues (wake q t s) !! q = Some (mk_ktqueue l (Z.of_nat (length l))).
Proof.
  intros Hwf Hq Hl Hne. unfold wake, runnable, put_on, mark, take_off. simpl.
  rewrite lookup_alter_ne by done. rewrite lookup_alter_eq, Hq. unfold pull. simpl.
  assert (Hnd := wf_nodup _ _ Hwf _ _ Hq). assert (Hsz := wf_size _ _ Hwf _ _ Hq). rewrite Hl in *.
  rewrite filter_ne_snoc by done. rewrite length_app in Hsz. simpl in Hsz. do 2 f_equal. lia.
Qed.

Lemma wake_runq s q t kr :
  queues s !! kt_runq = Some kr -> q <> kt_runq ->
  queues (wake q t s) !! kt_runq = Some (push t kr).
Proof.
  intros Hr Hne. unfold wake, runnable, put_on, mark, take_off. simpl.
  by rewrite lookup_alter_eq, lookup_alter_ne, Hr by done.
Qed.

(** One thread of [q] is woken. *)
Definition wakes_one (q : Z) (s s' : sched) : Prop :=
  exists k l t, sched_wf s /\ queues s !! q = Some k /\ tq_list k = l ++ [t] /\ s' = wake q t s.

Lemma broadcast_loop_run s q l n kr :
  sched_wf s -> queues s !! q = Some (mk_ktqueue l n) -> q <> kt_runq -> queues s !! kt_runq = Some kr ->
  exists s', broadcast_loop (S (length l)) q s = Done tt s' /\ sched_wf s'
    /\ queues s' !! q = Some (mk_ktqueue [] 0)
    /\ queues s' !! kt_runq = Some (mk_ktqueue (l ++ tq_list kr) (tq_size kr + Z.of_nat (length l)))
    /\ curthr s' = curthr s /\ ipl s' = ipl s /\ rtc (wakes_one q) s s'.
Proof.
  revert s n kr. induction l as [|t l IH] using rev_ind; intros s n kr Hwf Hq Hne Hr.
  - exists s. simpl. kstep run_queue_empty. assert (Hsz := wf_size _ _ Hwf _ _ Hq). simpl in *. subst n.
    rewrite Z.add_0_r. destruct kr. split_and!; done || apply rtc_refl.
  - destruct (run_wakeup s q _ l t Hwf Hq eq_refl Hne) as [Hrun Hwf'].
    assert (Hq' := wake_queue _ _ _ _ _ Hwf Hq eq_refl Hne).
    assert (Hr' := wake_runq s q t kr Hr Hne).
    destruct (IH _ _ _ Hwf' Hq' Hne Hr') as (s' & Hs' & ? & ? & Hr2 & ? & ? & ?).
    exists s'. rewrite length_app. simpl length. replace (length l + 1)%nat with (S (length l)) by lia.
    split_and!; [|done| | |done|done|eapply rtc_l; [by eexists _, l, t|done]].
    + change (broadcast_loop (S (S (length l))) q) with
        (kbind (sched_queue_empty q) (fun empty => if negb empty then
           kbind (sched_wakeup_on q) (fun _ => broadcast_loop (S (length l)) q) else kret tt)).
      kstep run_queue_empty. rewrite bool_decide_eq_false_2 by (simpl; by destruct l). cbn [negb].
      by kstep Hrun.
    + done.
    + rewrite Hr2. unfold push. simpl. rewrite <- app_assoc. simpl. do 2 f_equal. lia.
Qed.

(** ** Cancellation *)

Definition cancel_mark (t : Z) (s : sched) : sched := set_threads (alter (with_cancelled 1) t) s.

Lemma wf_cancel_mark b t s : wf_but b s -> wf_but b (cancel_mark t s).
Proof.
  intros Hwf. assert (Hlk : forall x th, threads (cancel_mark t s) !! x = Some th ->
    exists th0, threads s !! x = Some th0 /\ kt_wchan th = kt_wchan th0 /\ kt_state th = kt_state th0).
  { intros x th. simpl. rewrite lookup_alter. case_decide; subst; [|by eauto].
    destruct (threads s !! x); [|done]. intros [= <-]. eauto. }
  assert (Hlk' : forall x th0, threads s !! x = Some th0 ->
    exists th, threads (cancel_mark t s) !! x = Some th /\ kt_wchan th = kt_wchan th0).
  { intros x th0 Hx. simpl. rewrite lookup_alter. case_decide; subst; rewrite Hx; simpl; eauto. }
  split; simpl; [by apply Hwf..| | |by apply Hwf| |].
  - intros q k x Hk Hx. destruct (wf_on _ _ Hwf _ _ _ Hk Hx) as (th0 & H0 & Hw0).
    destruct (Hlk' _ _ H0) as (th & ? & ?). exists th. split; [done|congruence].
  - intros x th q Hx Hw. destruct (Hlk _ _ Hx) as (th0 & ? & Hw0 & _).
    eapply wf_wchan; [done..|congruence].
  - intros x th Hx Hb. destruct (Hlk _ _ Hx) as (th0 & H0 & Hw0 & Hs0).
    assert (Hok := wf_state _ _ Hwf _ _ H0 Hb). unfold state_ok in *. by rewrite Hs0, Hw0.
  - intros x Hb. destruct (wf_hole _ _ Hwf _ Hb) as (th0 & H0 & Hw0).
    destruct (Hlk' _ _ H0) as (th & ? & ?). exists th. split; [done|congruence].
Qed.

Lemma run_ktqueue_remove b s q t th :
  wf_but b s -> threads s !! t = Some th -> kt_wchan th = Some q ->
  ktqueue_remove (Some q) t s = Done tt (take_off q t s).
Proof.
  intros Hwf Ht Hw. destruct (wf_wchan _ _ Hwf _ _ _ Ht Hw) as (k & Hq & Hin).
  unfold ktqueue_remove. kpure. kstep kassert_dec; [|by exists q, k]. kpure. kstep run_upd_thread.
  erewrite kbind_done; [|by apply kderef_Some]. cbn beta.
  erewrite run_upd_queue; [|simpl; rewrite lookup_fmap, Hq; reflexivity].
  unfold take_off, set_queues, set_threads. simpl. by erewrite take_off_queues.
Qed.

(** [sched_cancel] of a thread in a cancellable sleep takes it off its queue
    and makes it runnable; of any other live thread it only sets the flag. *)
Lemma run_cancel_sleeper s q t th :
  sched_wf s -> threads s !! t = Some th -> kt_state th = KT_SLEEP_CANCELLABLE ->
  kt_wchan th = Some q ->
  sched_cancel t s = Done tt (wake q t (cancel_mark t s)) /\ sched_wf (wake q t (cancel_mark t s)).
Proof.
  intros Hwf Ht Hst Hw. assert (Hwf1 := wf_cancel_mark None t s Hwf).
  assert (Ht1 : threads (cancel_mark t s) !! t = Some (with_cancelled 1 th)).
  { simpl. by rewrite lookup_alter_eq, Ht. }
  destruct (run_make_runnable _ _ (wf_take_off _ q _ _ Hwf1 Ht1 Hw)) as [Hrun Hwf2]. split; [|done].
  unfold sched_cancel. kstep run_get_thread. kstep kassert_dec; [|by rewrite Hst].
  kstep run_upd_thread. rewrite bool_decide_eq_true_2, Hw by done.
  erewrite kbind_done; [exact Hrun|by eapply run_ktqueue_remove].
Qed.

Lemma run_cancel_other s t th :
  threads s !! t = Some th -> kt_state th = KT_RUN \/ kt_state th = KT_SLEEP ->
  sched_cancel t s = Done tt (cancel_mark t s).
Proof.
  intros Ht Hst. unfold sched_cancel. kstep run_get_thread. kstep kassert_dec; [|by destruct Hst as [-> | ->]].
  kstep run_upd_thread. by rewrite bool_decide_eq_false_2 by (by destruct Hst as [-> | ->]).
Qed.

Lemma run_cancel_dead s t th :
  threads s !! t = Some th -> kt_state th = KT_NO_STATE \/ kt_state th = KT_EXITED ->
  sched_cancel t s = Panic.
Proof.
  intros Ht Hst. unfold sched_cancel. kstep run_get_thread. apply kbind_panic.
  unfold kassert. rewrite bool_decide_eq_false_2; [done|]. intros []. by destruct Hst.
Qed.

(** ** Switching *)

(** The current thread has left the processor: it is on the run queue, asleep, or has exited. *)
Definition parked (s : sched) : Prop :=
  exists c th, curthr s = Some c /\ threads s !! c = Some th
    /\ (kt_state th = KT_RUN -> kt_wchan th = Some kt_runq).

(** The run queue, oldest thread last. *)
Definition runq_is (s : sched) (l : list Z) : Prop :=
  exists k, queues s !! kt_runq = Some k /\ tq_list k = l.

(** [t] becomes the running thread. *)
Definition dispatch (t p : Z) (s : sched) : sched :=
  set_cur (Some t) (Some p) (take_off kt_runq t s).

Lemma run_switch_to_next s l t :
  sched_wf s -> parked s -> runq_is s (l ++ [t]) ->
  exists th, threads s !! t = Some th
    /\ switch_to_next (curthr s) s = Env CtxSwitch (dispatch t (kt_proc th) s) (fun s' => Done tt s')
    /\ sched_wf (dispatch t (kt_proc th) s).
Proof.
  intros Hwf (c & thc & Hc & Hthc & Hpk) (k & Hk & Hl).
  destruct (wf_on _ _ Hwf _ _ t Hk) as (th & Ht & Hw); [rewrite Hl; set_solver|].
  assert (Hrun : kt_state th = KT_RUN).
  { assert (Hok := wf_state _ _ Hwf t th Ht ltac:(done)). unfold state_ok in Hok.
    destruct (kt_state th); naive_solver. }
  exists th. split; [done|]. split.
  - unfold switch_to_next. kstep run_dequeue; [|by rewrite Hl, last_snoc].
    erewrite kbind_done; [|by apply kderef_Some]. cbn beta.
    erewrite kbind_done; [|by apply run_get_thread, take_off_lookup]. kpure.
    erewrite kbind_done; [|by apply kderef_Some]. cbn beta.
    assert (Hold : exists th', threads (dispatch t (kt_proc th) s) !! c = Some th').
    { simpl. rewrite lookup_alter. case_decide; subst; rewrite Hthc; simpl; eauto. }
    destruct Hold as [th' Hold].
    by erewrite kbind_done; [|apply run_get_thread; exact Hold].
  - unfold dispatch. eapply wf_set_cur; [by eapply wf_take_off|by apply take_off_lookup|done|].
    intros c' thc' Hc' Hthc' Hne Hst. simpl in *. rewrite lookup_alter_ne in Hthc' by done.
    simplify_eq. auto.
Qed.

Lemma runq_is_fun s l l' : runq_is s l -> runq_is s l' -> l = l'.
Proof. intros (k & ? & ?) (k' & ? & ?). congruence. Qed.
Lemma parked_set_ipl v s : parked s -> parked (set_ipl v s).
Proof. done. Qed.

Lemma run_switch fuel s l t :
  sched_wf s -> parked s -> runq_is s (l ++ [t]) ->
  exists th, threads s !! t = Some th
    /\ sched_switch fuel s = Env CtxSwitch (dispatch t (kt_proc th) (set_ipl IPL_HIGH s))
                                (fun s' => Done tt (set_ipl (ipl s) s'))
    /\ sched_wf (dispatch t (kt_proc th) (set_ipl IPL_HIGH s)).
Proof.
  intros Hwf Hpk Hr.
  destruct (run_switch_to_next (set_ipl IPL_HIGH s) l t) as (th & Ht & Hrun & Hwf');
    [by apply wf_set_ipl|done|done|].
  exists th. split; [done|]. split; [|done]. destruct Hr as (k & Hk & Hl).
  unfold sched_switch. kpure. kstep run_getipl. kstep run_setipl. kstep run_queue_empty.
  rewrite Hl, bool_decide_eq_false_2 by (by destruct l). cbn [negb].
  by erewrite kbind_env; [|exact Hrun].
Qed.

(** ** Going to sleep *)

Definition asleep (st : ktstate) (q t : Z) (s : sched) : sched := put_on q t (mark st t s).

Lemma sleep_ready st s q c th k :
  sched_wf s -> curthr s = Some c -> threads s !! c = Some th -> kt_wchan th = None ->
  queues s !! q = Some k -> placement st q ->
  sched_wf (asleep st q c s) /\ parked (asleep st q c s)
  /\ (upd_thread c (with_state st) ;;; ktqueue_enqueue q c) s = Done tt (asleep st q c s).
Proof.
  intros Hwf Hc Hth Hw Hq Hpl.
  assert (Hm : threads (mark st c s) !! c = Some (with_state st th)) by (by apply mark_lookup).
  split_and!.
  - eapply wf_put_on; [by eapply wf_make_hole|done|done].
  - exists c, (with_wchan (Some q) (with_state st th)). simpl. split; [done|].
    rewrite lookup_alter_eq. simpl in Hm. rewrite Hm. split; [done|]. simpl. intros ->.
    destruct Hpl as [[_ ->]|[[|] _]]; done.
  - kstep run_upd_thread. by eapply run_enqueue.
Qed.

Lemma run_sleep fuel s q c th k :
  sched_wf s -> curthr s = Some c -> threads s !! c = Some th -> kt_wchan th = None ->
  queues s !! q = Some k -> q <> kt_runq ->
  sched_sleep_on fuel q s = sched_switch fuel (asleep KT_SLEEP q c s).
Proof.
  intros Hwf Hc Hth Hw Hq Hne.
  destruct (sleep_ready KT_SLEEP s q c th k) as (_ & _ & Hrun); [done..|right; auto|].
  unfold sched_sleep_on. kpure. erewrite kbind_done; [|by apply kderef_Some]. cbn beta.
  unfold kbind at 1. unfold kbind in Hrun at 1. revert Hrun. kpure. rewrite !(run_upd_thread c _ th) by done.
  simpl. intros Hrun. unfold kbind. by rewrite Hrun.
Qed.

(** What [sched_cancellable_sleep_on] does after the switch. *)
Definition sleep_result : kernel sched Z :=
  s' <- kget ;;
  cur' <- kderef (curthr s') ;;
  t <- get_thread cur' ;;
  kret (if kt_cancelled t =? 1 then - EINTR else 0).

Lemma run_sleep_cancellable fuel s q c th k :
  sched_wf s -> curthr s = Some c -> threads s !! c = Some th -> kt_wchan th = None ->
  queues s !! q = Some k -> q <> kt_runq ->
  sched_cancellable_sleep_on fuel q s
  = obind (sched_switch fuel (asleep KT_SLEEP_CANCELLABLE q c s)) (fun _ => sleep_result).
Proof.
  intros Hwf Hc Hth Hw Hq Hne.
  destruct (sleep_ready KT_SLEEP_CANCELLABLE s q c th k) as (_ & _ & Hrun); [done..|right; auto|].
  unfold sched_cancellable_sleep_on. kpure. erewrite kbind_done; [|by apply kderef_Some]. cbn beta.
  unfold kbind at 1. unfold kbind in Hrun at 1. revert Hrun. kpure. rewrite !(run_upd_thread c _ th) by done.
  simpl. intros Hrun. unfold kbind at 1. by rewrite Hrun.
Qed.

(** ** The idle loop *)

(** Feed a sequence of interrupt handlers to an operation that waits for interrupts. *)
Fixpoint interrupts {A} (hs : list (sched -> sched)) (o : outcome sched A) : outcome sched A :=
  match o, hs with
  | Env IntrWait s k, h :: hs' => interrupts hs' (k (h s))
  | _, _ => o
  end.

(** The handlers of [hs] run one after the other from the idle state [s]; only
    the last one makes threads runnable, and then the state is [s'] and [t] is
    the oldest runnable thread. *)
Inductive wakes (t : Z) : list (sched -> sched) -> sched -> sched -> Prop :=
| wakes_last h s s' l :
    s' = h (set_ipl IPL_LOW s) -> sched_wf s' -> parked s' -> curthr s' = curthr s ->
    runq_is s' (l ++ [t]) -> wakes t [h] s s'
| wakes_more h hs s s1 s' :
    s1 = h (set_ipl IPL_LOW s) -> runq_is s1 [] -> curthr s1 = curthr s ->
    wakes t hs s1 s' -> wakes t (h :: hs) s s'.

Lemma wakes_end t hs s s' : wakes t hs s s' ->
  curthr s' = curthr s /\ sched_wf s' /\ parked s' /\ exists l, runq_is s' (l ++ [t]).
Proof. induction 1; naive_solver congruence. Qed.

Lemma runq_wait_empty fuel s :
  runq_is s [] -> runq_wait (S fuel) s
  = Env IntrWait (set_ipl IPL_LOW s) (fun s' => runq_wait fuel (set_ipl IPL_HIGH s')).
Proof.
  intros (k & Hk & Hl). change (runq_wait (S fuel)) with
    (kbind (sched_queue_empty kt_runq) (fun e : bool => if e then
       kbind (intr_setipl IPL_LOW) (fun _ => kbind (kenv IntrWait) (fun _ =>
         kbind (intr_setipl IPL_HIGH) (fun _ => runq_wait fuel))) else kret tt)).
  kstep run_queue_empty. by rewrite Hl.
Qed.

Lemma runq_wait_ready fuel s l t :
  runq_is s (l ++ [t]) -> runq_wait (S fuel) s = Done tt s.
Proof.
  intros (k & Hk & Hl). cbn [runq_wait]. kstep run_queue_empty.
  rewrite Hl. rewrite bool_decide_eq_false_2 by (by destruct l). done.
Qed.

(** [F] is what the caller does with the outcome of an operation: it lets the
    thread be suspended and resumed. *)
Definition passes_env {A B} (F : outcome sched A -> outcome sched B) : Prop :=
  forall e x k, F (Env e x k) = Env e x (fun y => F (k y)).

Lemma interrupts_switch {A} hs s k :
  interrupts hs (Env CtxSwitch s k) = (Env CtxSwitch s k : outcome sched A).
Proof. by destruct hs. Qed.

Lemma runq_wait_wakes {A} (F : outcome sched unit -> outcome sched A) t hs s s' :
  passes_env F -> wakes t hs s s' -> runq_is s [] ->
  interrupts hs (F (runq_wait (S (length hs)) s)) = interrupts [] (F (Done tt (set_ipl IPL_HIGH s'))).
Proof.
  intros HF. induction 1 as [h s s' l -> Hwf Hpk Hc Hr|h hs s s1 s' -> Hr1 Hc Hw IH]; intros Hr0.
  - rewrite runq_wait_empty, HF by done. cbn [length interrupts].
    by erewrite (runq_wait_ready _ _ l t) by exact Hr.
  - rewrite runq_wait_empty, HF by done. cbn [length interrupts].
    assert (Heq : forall fuel, runq_wait (S fuel) (set_ipl IPL_HIGH (h (set_ipl IPL_LOW s)))
                 = runq_wait (S fuel) (h (set_ipl IPL_LOW s))).
    { intros fuel. by rewrite !runq_wait_empty by done. }
    rewrite Heq. by apply IH.
Qed.

Lemma switch_empty fuel s :
  runq_is s [] -> sched_switch (S fuel) s
  = obind (obind (runq_wait (S fuel) s) (fun _ => switch_to_next (curthr s)))
          (fun _ => intr_setipl (ipl s)).
Proof.
  intros Hr. assert (Hset : runq_wait (S fuel) (set_ipl IPL_HIGH s) = runq_wait (S fuel) s).
  { by rewrite !runq_wait_empty. }
  destruct Hr as (k & Hk & Hkl).
  unfold sched_switch. kpure. kstep run_getipl. kstep run_setipl. kstep run_queue_empty.
  rewrite Hkl, bool_decide_eq_true_2 by done. cbn [negb]. unfold kbind. by rewrite Hset.
Qed.

Lemma switch_idle {A} (F : outcome sched unit -> outcome sched A) t hs s s' :
  passes_env F -> wakes t hs s s' -> runq_is s [] ->
  exists th, threads s' !! t = Some th
    /\ interrupts hs (F (sched_switch (S (length hs)) s))
       = F (Env CtxSwitch (dispatch t (kt_proc th) (set_ipl IPL_HIGH s'))
                          (fun r => Done tt (set_ipl (ipl s) r)))
    /\ sched_wf (dispatch t (kt_proc th) (set_ipl IPL_HIGH s')).
Proof.
  intros HF Hw Hr. destruct (wakes_end _ _ _ _ Hw) as (Hc & Hwf & Hpk & l & Hl).
  destruct (run_switch_to_next (set_ipl IPL_HIGH s') l t) as (th & Ht & Hrun & Hwf');
    [by apply wf_set_ipl|done|done|].
  exists th. split; [done|]. split; [|done]. rewrite switch_empty, <- Hc by done.
  rewrite (runq_wait_wakes (fun o => F (obind (obind o (fun _ => switch_to_next (curthr s')))
                                              (fun _ => intr_setipl (ipl s)))) t hs s s');
    [|by intros e x k'; simpl; apply HF|done|done].
  simpl in Hrun. cbn [obind]. rewrite Hrun. cbn [obind]. rewrite !HF. apply interrupts_switch.
Qed.

(** ** Checking the invariant on a concrete state *)

Definition state_okb (cur : option Z) (t : Z) (th : kthread) : bool :=
  match kt_state th with
  | KT_RUN => bool_decide (kt_wchan th = Some kt_runq)
              || (bool_decide (kt_wchan th = None) && bool_decide (cur = Some t))
  | KT_SLEEP | KT_SLEEP_CANCELLABLE =>
      match kt_wchan th with Some q => negb (q =? kt_runq) | None => false end
  | KT_NO_STATE | KT_EXITED => bool_decide (kt_wchan th = None)
  end.

Definition queue_okb (s : sched) (q : Z) (k : ktqueue) : bool :=
  (tq_size k =? Z.of_nat (length (tq_list k))) && bool_decide (NoDup (tq_list k))
  && forallb (fun t => bool_decide (kt_wchan <$> threads s !! t = Some (Some q))) (tq_list k).

Definition thread_okb (s : sched) (t : Z) (th : kthread) : bool :=
  state_okb (curthr s) t th &&
  match kt_wchan th with
  | None => true
  | Some q => match queues s !! q with Some k => bool_decide (t ∈ tq_list k) | None => false end
  end.

Definition sched_wfb (s : sched) : bool :=
  bool_decide (map_Forall (fun q k => queue_okb s q k = true) (queues s))
  && bool_decide (map_Forall (fun t th => thread_okb s t th = true) (threads s))
  && bool_decide (is_Some (queues s !! kt_runq)).

Lemma state_okb_sound cur t th : state_okb cur t th = true -> state_ok cur t th.
Proof.
  unfold state_okb, state_ok.
  destruct (kt_state th); rewrite ?orb_true_iff, ?andb_true_iff, ?bool_decide_eq_true; try done.
  all: destruct (kt_wchan th) as [q|]; [|done]; intros Hq%negb_true_iff%Z.eqb_neq; eauto.
Qed.

Lemma sched_wfb_sound s : sched_wfb s = true -> sched_wf s.
Proof.
  unfold sched_wfb. rewrite !andb_true_iff, !bool_decide_eq_true. intros [[Hq Ht] [k Hk]].
  assert (Hq' : forall q k, queues s !! q = Some k ->
    tq_size k = Z.of_nat (length (tq_list k)) /\ NoDup (tq_list k) /\
    Forall (fun t => kt_wchan <$> threads s !! t = Some (Some q)) (tq_list k)).
  { intros q k' Hk'. specialize (Hq _ _ Hk'). unfold queue_okb in Hq.
    rewrite !andb_true_iff, bool_decide_eq_true, Z.eqb_eq, forallb_forall in Hq.
    destruct Hq as [[??] Hf]. split_and!; [done..|]. apply Forall_forall. intros x Hx.
    eapply bool_decide_eq_true, Hf. by apply list_elem_of_In. }
  split; [naive_solver..| | | | |done].
  - intros q k' t Hk' Hin. destruct (Hq' _ _ Hk') as (_ & _ & Hf).
    eapply Forall_forall in Hf; [|done]. destruct (threads s !! t); naive_solver.
  - intros t th q Hth Hw. specialize (Ht _ _ Hth). unfold thread_okb in Ht. rewrite Hw in Ht.
    apply andb_true_iff in Ht as [_ Ht]. destruct (queues s !! q) as [k'|]; [|done].
    apply bool_decide_eq_true in Ht. eauto.
  - eauto.
  - intros t th Hth _. specialize (Ht _ _ Hth). unfold thread_okb in Ht.
    apply andb_true_iff in Ht as [Ht _]. by apply state_okb_sound.
Qed.

End operations.

(** Process 1 runs thread 10; threads 11 and 12 sleep on queue 5 (12 in a
    cancellable sleep, queued first); thread 13 is runnable. *)
Definition demo : kstate unit := {|
  threads := {[ 10 := mk_kthread 0 0 0 1 0 None KT_RUN; 11 := mk_kthread 0 0 0 2 0 (Some 5) KT_SLEEP;
                12 := mk_kthread 0 0 0 3 0 (Some 5) KT_SLEEP_CANCELLABLE;
                13 := mk_kthread 0 0 0 4 0 (Some 1) KT_RUN ]};
  queues := {[ 1 := mk_ktqueue [13] 1; 5 := mk_ktqueue [11; 12] 2 ]};
  curthr := Some 10; curproc := Some 1; ipl := 0; ext := tt |}.

Lemma demo_wf : sched_wf demo.
Proof. by apply sched_wfb_sound. Qed.

(** ** Properties *)

(** [sched_wakeup_on] wakes the longest waiting thread and no other: the
    thread leaves the wait queue, becomes the youngest thread of the run queue
    in state [KT_RUN], and is returned; the interrupt level and the running
    thread stay.  It never panics on a well-formed state, and on an empty queue
    it returns no thread and changes nothing. *)
Theorem sched_wakeup_spec {X} (s : kstate X) q k :
  sched_wf s -> queues s !! q = Some k -> q <> kt_runq ->
  match last (tq_list k) with
  | None => sched_wakeup_on q s = Done None s
  | Some t => exists s' kr l th,
      sched_wakeup_on q s = Done (Some t) s' /\ sched_wf s'
      /\ tq_list k = l ++ [t] /\ queues s' !! q = Some (mk_ktqueue l (tq_size k - 1))
      /\ queues s !! kt_runq = Some kr /\ queues s' !! kt_runq = Some (push t kr)
      /\ threads s' !! t = Some th /\ kt_state th = KT_RUN
      /\ (forall t', t' <> t -> threads s' !! t' = threads s !! t')
      /\ (forall q', q' <> q -> q' <> kt_runq -> queues s' !! q' = queues s !! q')
      /\ curthr s' = curthr s /\ ipl s' = ipl s
  end.
Proof.
  intros Hwf Hq Hne. destruct (last (tq_list k)) as [t|] eqn:Hl.
  - apply last_Some in Hl as [l Hl]. destruct (run_wakeup _ _ _ _ _ Hwf Hq Hl Hne) as [Hrun Hwf'].
    destruct (wf_runq _ _ Hwf) as [kr Hkr].
    destruct (wf_on _ _ Hwf _ _ t Hq) as (th & Hth & _); [rewrite Hl; set_solver|].
    assert (Hq' := wake_queue _ _ _ _ _ Hwf Hq Hl Hne).
    eexists (wake q t s), kr, l, _. 
    split; [done|]. split; [done|]. split; [done|]. split; [|split; [done|]]; [|split; [by apply wake_runq|]].
    + rewrite Hq'. do 2 f_equal. rewrite (wf_size _ _ Hwf _ _ Hq), Hl, length_app. simpl. lia.
    + simpl. rewrite !lookup_alter_eq, Hth. split; [done|]. split; [done|]. split_and!; [..|done|done].
      * intros t' Ht'. by rewrite !lookup_alter_ne.
      * intros q' ??. by rewrite !lookup_alter_ne.
  - apply last_None in Hl. by eapply run_wakeup_empty.
Qed.

Lemma sched_wakeup_spec_witness :
  exists s', sched_wakeup_on 5 demo = Done (Some 12) s' /\ sched_wf s'
    /\ queues s' !! 5 = Some (mk_ktqueue [11] 1).
Proof.
  destruct (sched_wakeup_spec demo 5 _ demo_wf eq_refl ltac:(done)) as (s' & ? & l & ? & H).
  exists s'. destruct H as (? & ? & Hl & Hq & _). split_and!; [done..|].
  change [11; 12] with ([11] ++ [12]) in Hl. apply app_inj_2 in Hl as [<- _]; done.
Defined.

(** [sched_broadcast_on] terminates, empties the queue, and makes its
    threads runnable in the order in which they had gone to sleep: the run
    queue afterwards is the wait queue put in front of the old run queue. *)
Theorem sched_broadcast_spec {X} (s : kstate X) q k kr :
  sched_wf s -> queues s !! q = Some k -> q <> kt_runq -> queues s !! kt_runq = Some kr ->
  exists s', sched_broadcast_on q s = Done tt s' /\ sched_wf s'
    /\ queues s' !! q = Some (mk_ktqueue [] 0)
    /\ queues s' !! kt_runq = Some (mk_ktqueue (tq_list k ++ tq_list kr) (tq_size kr + tq_size k))
    /\ curthr s' = curthr s /\ ipl s' = ipl s.
Proof.
  intros Hwf Hq Hne Hr. rewrite (wf_size _ _ Hwf _ _ Hq). destruct k as [l n].
  unfold sched_broadcast_on. kstep run_get_queue.
  destruct (broadcast_loop_run s q l n kr) as (s' & ? & ? & ? & ? & ? & ? & _); [done..|]. by exists s'.
Qed.

Lemma sched_broadcast_spec_witness :
  exists s', sched_broadcast_on 5 demo = Done tt s' /\ sched_wf s'
    /\ queues s' !! kt_runq = Some (mk_ktqueue [11; 12; 13] 3).
Proof.
  destruct (sched_broadcast_spec demo 5 _ _ demo_wf eq_refl ltac:(done) eq_refl) as (s' & ? & ? & ? & ? & _).
  by exists s'.
Defined.

(** [sched_cancel] sets the flag of any live thread; a thread in a
    cancellable sleep is also taken off its queue and made runnable, and a
    thread in an uninterruptible sleep or on the run queue stays where it is.
    A thread that has no state or has exited trips the assertion. *)
Theorem sched_cancel_spec {X} (s : kstate X) t th :
  sched_wf s -> threads s !! t = Some th ->
  match kt_state th with
  | KT_NO_STATE | KT_EXITED => sched_cancel t s = Panic
  | KT_RUN | KT_SLEEP => exists s', sched_cancel t s = Done tt s' /\ sched_wf s'
      /\ queues s' = queues s /\ threads s' !! t = Some (with_cancelled 1 th)
  | KT_SLEEP_CANCELLABLE => exists s' q k, sched_cancel t s = Done tt s' /\ sched_wf s'
      /\ kt_wchan th = Some q /\ queues s !! q = Some k /\ queues s' !! q = Some (pull t k)
      /\ queues s' !! kt_runq = push t <$> queues s !! kt_runq
      /\ threads s' !! t = Some (with_wchan (Some kt_runq) (with_state KT_RUN (with_cancelled 1 th)))
  end.
Proof.
  intros Hwf Ht. assert (Hok := wf_state _ _ Hwf t th Ht ltac:(done)). unfold state_ok in Hok.
  destruct (kt_state th) eqn:Hst.
  - eapply run_cancel_dead; eauto.
  - eexists. erewrite run_cancel_other by eauto. split; [done|]. split; [by apply wf_cancel_mark|].
    simpl. by rewrite lookup_alter_eq, Ht.
  - eexists. erewrite run_cancel_other by eauto. split; [done|]. split; [by apply wf_cancel_mark|].
    simpl. by rewrite lookup_alter_eq, Ht.
  - destruct Hok as (q & Hw & Hne). destruct (wf_wchan _ _ Hwf _ _ _ Ht Hw) as (k & Hk & _).
    destruct (run_cancel_sleeper s q t th) as [Hrun Hwf']; [done..|].
    eexists _, q, k. split; [exact Hrun|]. split_and!; [done..| | |]; simpl.
    + by rewrite lookup_alter_ne, lookup_alter_eq, Hk by done.
    + by rewrite lookup_alter_eq, lookup_alter_ne by done.
    + by rewrite !lookup_alter_eq, Ht.
  - eapply run_cancel_dead; eauto.
Qed.

Lemma sched_cancel_spec_witness :
  exists s' q k, sched_cancel 12 demo = Done tt s' /\ sched_wf s' /\ Some 5 = Some q
    /\ queues demo !! q = Some k /\ queues s' !! q = Some (pull 12 k).
Proof.
  destruct (sched_cancel_spec demo 12 _ demo_wf eq_refl) as (s' & q & k & ? & ? & ? & ? & ? & _).
  by exists s', q, k.
Defined.

(** C38: [sched_switch] on an empty run queue waits, with interrupts enabled,
    for as many interrupts as it takes for one to make a thread runnable, and
    then hands the processor to the oldest runnable thread with interrupts
    masked; when the caller is switched back to, its own interrupt level is
    restored. *)
Theorem sched_switch_idle {X} (s : kstate X) t hs s' :
  runq_is s [] -> wakes t hs s s' ->
  exists th, threads s' !! t = Some th
    /\ interrupts hs (sched_switch (S (length hs)) s)
       = Env CtxSwitch (dispatch t (kt_proc th) (set_ipl IPL_HIGH s'))
                       (fun r => Done tt (set_ipl (ipl s) r))
    /\ sched_wf (dispatch t (kt_proc th) (set_ipl IPL_HIGH s')).
Proof. intros Hr Hw. by apply (switch_idle id t hs s s'). Qed.

(** Thread 10 sleeps on queue 5 and nothing is runnable; a disk interrupt wakes it. *)
Definition idle_demo : kstate unit := {|
  threads := {[ 10 := mk_kthread 0 0 0 1 0 (Some 5) KT_SLEEP ]};
  queues := {[ 1 := mk_ktqueue [] 0; 5 := mk_ktqueue [10] 1 ]};
  curthr := Some 10; curproc := Some 1; ipl := 7; ext := tt |}.

Lemma sched_switch_idle_witness :
  exists th, threads (wake 5 10 (set_ipl IPL_LOW (set_ipl IPL_LOW idle_demo))) !! 10 = Some th
    /\ exists s1, interrupts [id; wake 5 10] (sched_switch 3 idle_demo)
       = Env CtxSwitch s1 (fun r => Done tt (set_ipl 7 r)).
Proof.
  destruct (sched_switch_idle idle_demo 10 [id; wake 5 10]
              (wake 5 10 (set_ipl IPL_LOW (set_ipl IPL_LOW idle_demo)))) as (th & Ht & Hrun & _).
  - by eexists.
  - eapply wakes_more; [done|by eexists|done|]. eapply (wakes_last _ _ _ _ []); [done|by apply sched_wfb_sound| |done|].
    + eexists _, _. split; [done|]. split; [done|]. done.
    + by eexists.
  - exists th. split; [done|]. eexists. exact Hrun.
Defined.

(** [sched_sleep_on] puts the running thread at the back of the wait queue
    in state [KT_SLEEP] and gives the processor to the oldest runnable thread. *)
Theorem sched_sleep_spec {X} fuel (s : kstate X) q c th k l t :
  sched_wf s -> curthr s = Some c -> threads s !! c = Some th -> kt_wchan th = None ->
  queues s !! q = Some k -> q <> kt_runq -> runq_is s (l ++ [t]) ->
  exists s', sched_sleep_on fuel q s = Env CtxSwitch s' (fun r => Done tt (set_ipl (ipl s) r))
    /\ sched_wf s' /\ curthr s' = Some t /\ ipl s' = IPL_HIGH
    /\ queues s' !! q = Some (push c k) /\ runq_is s' l
    /\ threads s' !! c = Some (with_wchan (Some q) (with_state KT_SLEEP th)).
Proof.
  intros Hwf Hc Hth Hw Hq Hne Hr. assert (Hpl : placement KT_SLEEP q) by (right; auto).
  destruct (sleep_ready _ _ _ _ _ _ Hwf Hc Hth Hw Hq Hpl) as (Hwf1 & Hpk & _).
  destruct (run_switch fuel (asleep KT_SLEEP q c s) l t) as (tht & Ht & Hrun & Hwf2); [done..| |].
  { destruct Hr as (kr & ? & ?). exists kr. simpl. by rewrite lookup_alter_ne. }
  eexists. split; [erewrite run_sleep by done; exact Hrun|]. split; [done|]. do 2 (split; [done|]).
  destruct Hr as (kr & Hkr & Hl). assert (Htc : t <> c).
  { intros ->. destruct (wf_on _ _ Hwf _ _ c Hkr) as (? & ? & ?); [rewrite Hl; set_solver|]. congruence. }
  simpl. split_and!.
  - by rewrite lookup_alter_ne, lookup_alter_eq, Hq by done.
  - exists (pull t kr). simpl. rewrite lookup_alter_eq, lookup_alter_ne, Hkr by done. split; [done|].
    simpl. rewrite Hl. apply filter_ne_snoc. rewrite <- Hl. exact (wf_nodup _ _ Hwf _ _ Hkr).
  - by rewrite lookup_alter_ne, !lookup_alter_eq, Hth by done.
Qed.

Lemma sched_sleep_spec_witness :
  exists s', sched_sleep_on 1 5 demo = Env CtxSwitch s' (fun r => Done tt (set_ipl 0 r))
    /\ sched_wf s' /\ curthr s' = Some 13.
Proof.
  destruct (sched_sleep_spec 1 demo 5 10 _ _ [] 13 demo_wf eq_refl eq_refl eq_refl eq_refl)
    as (s' & ? & ? & ? & _); [done|by eexists|]. by exists s'.
Defined.

End Sched.
