(* ===== verification/Kmutex.v ===== *)
(** * Mutexes ([kernel/proc/kmutex.c]) and the threads that use them

    The operations of [kmutex.c], and the transition system of a set of kernel
    threads that lock, unlock, sleep, wake and cancel: the running thread calls
    an operation, the operation may suspend it, and the scheduler resumes the
    thread it picks where that thread was suspended. *)

From S2P Require Import Prelude Sched.
Local Open Scope Z_scope.
Local Open Scope kernel_scope.

Module Kmutex.
Import Sched.

(** The mutexes: [km_holder] of the mutex at each address.  [km_waitq] is the
    first member of [struct kmutex], so the address of the mutex is the address
    of its queue. *)
Abbreviation mutexes := (gmap Z (option Z)).
Abbreviation state := (kstate mutexes).

Definition set_ext {X} (f : X -> X) (s : kstate X) : kstate X :=
  mk_sched (threads s) (queues s) (curthr s) (curproc s) (ipl s) (f (ext s)).

Definition km_waitq (mtx : Z) : Z := mtx.
Definition km_holder (mtx : Z) : kernel state (option Z) := s <- kget ;; kderef (ext s !! mtx).
Definition set_holder (mtx : Z) (h : option Z) : kernel state unit :=
  kmodify (set_ext (insert mtx h)).

Definition kmutex_init (mtx : Z) : kernel state unit :=
  sched_queue_init (km_waitq mtx) ;;;
  set_holder mtx None.

(** [KASSERT(curthr && (curthr != mtx->km_holder))] and the same with [==] *)
Definition assert_not_holder (mtx : Z) : kernel state unit :=
  s <- kget ;; h <- km_holder mtx ;;
  kassert (bool_decide (curthr s <> None) && bool_decide (curthr s <> h)).
Definition assert_holder (mtx : Z) : kernel state unit :=
  s <- kget ;; h <- km_holder mtx ;;
  kassert (bool_decide (curthr s <> None) && bool_decide (curthr s = h)).

Definition kmutex_lock (fuel : nat) (mtx : Z) : kernel state unit :=
  assert_not_holder mtx ;;;
  h <- km_holder mtx ;;
  if bool_decide (h <> None) then sched_sleep_on fuel (km_waitq mtx)
  else s <- kget ;; set_holder mtx (curthr s).

Definition kmutex_lock_cancellable (fuel : nat) (mtx : Z) : kernel state Z :=
  assert_not_holder mtx ;;;
  h <- km_holder mtx ;;
  if bool_decide (h <> None) then sched_cancellable_sleep_on fuel (km_waitq mtx)
  else s <- kget ;; set_holder mtx (curthr s) ;;; kret 0.

Definition kmutex_unlock (mtx : Z) : kernel state unit :=
  assert_holder mtx ;;;
  set_holder mtx None ;;;
  k <- get_queue (km_waitq mtx) ;;
  if negb (tq_size k =? 0) then
    s <- kget ;; h <- km_holder mtx ;;
    kassert (bool_decide (curthr s <> h)) ;;;
    thr <- sched_wakeup_on (km_waitq mtx) ;;
    set_holder mtx thr
  else kret tt.

(** ** Threads that use them *)

(** What a thread may call; [Yield] is
    [sched_make_runnable(curthr); sched_switch()]. *)
Inductive call : Set :=
| Lock (m : Z) | LockCancellable (m : Z) | Unlock (m : Z)
| Yield | SleepOn (q : Z) | CancellableSleepOn (q : Z) | WakeupOn (q : Z) | Cancel (t : Z).

Definition run (fuel : nat) (c : call) : kernel state Z :=
  match c with
  | Lock m => kmutex_lock fuel m ;;; kret 0
  | LockCancellable m => kmutex_lock_cancellable fuel m
  | Unlock m => kmutex_unlock m ;;; kret 0
  | Yield => s <- kget ;; cur <- kderef (curthr s) ;;
             sched_make_runnable cur ;;; sched_switch fuel ;;; kret 0
  | SleepOn q => sched_sleep_on fuel q ;;; kret 0
  | CancellableSleepOn q => sched_cancellable_sleep_on fuel q
  | WakeupOn q => sched_wakeup_on q ;;; kret 0
  | Cancel t => sched_cancel t ;;; kret 0
  end.

(** What an interrupt handler does to the scheduler. *)
Inductive handler : Set := HWakeup (q : Z) | HBroadcast (q : Z).

Definition handle (h : handler) (s : state) : state :=
  match (match h with
         | HWakeup q => sched_wakeup_on q ;;; kret tt
         | HBroadcast q => sched_broadcast_on q
         end) s with
  | Done _ s' => s'
  | _ => s
  end.

(** The running system: the kernel state, the suspended calls with their
    continuations, and which thread has been told it holds which mutex. *)
Record config : Type := mk_config {
  st : state;
  conts : gmap Z (call * kernel state Z);
  cs : gset (Z * Z);
}.

Definition note_return (t : Z) (c : call) (r : Z) (x : gset (Z * Z)) : gset (Z * Z) :=
  match c with
  | Lock m => {[ (t, m) ]} ∪ x
  | LockCancellable m => if r =? 0 then {[ (t, m) ]} ∪ x else x
  | Unlock m => x ∖ {[ (t, m) ]}
  | _ => x
  end.

(** The configuration after thread [t] ran [c] up to the outcome [o]. *)
Definition settle (t : Z) (c : call) (o : outcome state Z) (g : config) : option config :=
  match o with
  | Done r s => Some (mk_config s (conts g) (note_return t c r (cs g)))
  | Env CtxSwitch s k => Some (mk_config s (<[t := (c, k)]> (conts g)) (cs g))
  | _ => None
  end.

(** A queue that belongs to no mutex and is not the run queue. *)
Definition plain_queue (s : state) (q : Z) : bool :=
  bool_decide (is_Some (queues s !! q)) && negb (q =? kt_runq) && bool_decide (ext s !! q = None).

Definition handler_ok (s : state) (h : handler) : bool :=
  match h with HWakeup q | HBroadcast q => plain_queue s q end.

(** How threads may call: a mutex is locked by a thread that does not hold it,
    unlocked by one that was told it holds it, and wait queues of mutexes are
    used by [kmutex.c] only. *)
Definition allowed (g : config) (t : Z) (c : call) : bool :=
  match c with
  | Lock m | LockCancellable m =>
      match ext (st g) !! m with Some h => bool_decide (h <> Some t) | None => false end
  | Unlock m => bool_decide ((t, m) ∈ cs g)
  | Yield => true
  | SleepOn q | CancellableSleepOn q | WakeupOn q => plain_queue (st g) q
  | Cancel t' =>
      match threads (st g) !! t' with
      | Some th => negb (bool_decide (kt_state th = KT_NO_STATE) || bool_decide (kt_state th = KT_EXITED))
      | None => false
      end
  end.

(** One step: the running thread calls an operation (during which the
    handlers [hs] run if it has to wait for an interrupt), or it is resumed. *)
Inductive step (g : config) : config -> Prop :=
| step_call t c hs g' :
    curthr (st g) = Some t -> conts g !! t = None -> allowed g t c = true ->
    forallb (handler_ok (st g)) hs = true ->
    settle t c (interrupts (handle <$> hs) (run (S (length hs)) c (st g))) g = Some g' ->
    step g g'
| step_resume t c k g' :
    curthr (st g) = Some t -> conts g !! t = Some (c, k) ->
    settle t c (k (st g)) (mk_config (st g) (delete t (conts g)) (cs g)) = Some g' ->
    step g g'.

(** A system that starts: threads are running or on the run queue, every mutex is free. *)
Definition initial (g : config) : Prop :=
  sched_wf (st g) /\ (exists t th, curthr (st g) = Some t /\ threads (st g) !! t = Some th
                        /\ kt_state th = KT_RUN /\ kt_wchan th = None)
  /\ conts g = ∅ /\ cs g = ∅
  /\ (forall m h, ext (st g) !! m = Some h ->
        h = None /\ m <> kt_runq /\ queues (st g) !! m = Some (mk_ktqueue [] 0)).

Definition reachable (g : config) : Prop := exists g0, initial g0 /\ rtc step g0 g.

(** ** What interrupt handlers leave alone *)

Record quiet (s s' : state) : Prop := {
  quiet_wf : sched_wf s';
  quiet_parked : parked s';
  quiet_cur : curthr s' = curthr s;
  quiet_ext : ext s' = ext s;
  quiet_waitq : forall m, m <> kt_runq -> is_Some (ext s !! m) -> queues s' !! m = queues s !! m;
  quiet_dom : forall q, is_Some (queues s !! q) -> is_Some (queues s' !! q);
  quiet_cancelled : forall t, kt_cancelled <$> threads s' !! t = kt_cancelled <$> threads s !! t;
  quiet_asleep : forall t th m, threads s' !! t = Some th -> kt_wchan th = Some m -> m <> kt_runq ->
    threads s !! t = Some th;
}.

Lemma quiet_refl s : sched_wf s -> parked s -> quiet s s.
Proof. by split. Qed.

Lemma quiet_trans s1 s2 s3 : quiet s1 s2 -> quiet s2 s3 -> quiet s1 s3.
Proof.
  intros [] []. split; try done; try congruence; [|naive_solver..].
  intros m Hr Hm. rewrite <- quiet_waitq0 by done. apply quiet_waitq1; [done|congruence].
Qed.

Lemma quiet_set_ipl v s s' : quiet s s' -> quiet s (set_ipl v s').
Proof. intros []. split; try done. by apply wf_set_ipl. Qed.
Lemma quiet_set_ipl_l v s s' : quiet (set_ipl v s) s' -> quiet s s'.
Proof. intros []. by split. Qed.

Lemma plain_queue_spec s q :
  plain_queue s q = true <-> is_Some (queues s !! q) /\ q <> kt_runq /\ ext s !! q = None.
Proof.
  unfold plain_queue. rewrite !andb_true_iff, !bool_decide_eq_true, negb_true_iff, Z.eqb_neq. tauto.
Qed.

Lemma handler_ok_quiet s s' h : quiet s s' -> handler_ok s h = true -> handler_ok s' h = true.
Proof.
  intros Hq. assert (H : forall q, plain_queue s q = true -> plain_queue s' q = true).
  { intros q. rewrite !plain_queue_spec. rewrite (quiet_ext _ _ Hq). pose proof (quiet_dom _ _ Hq q). tauto. }
  destruct h; apply H.
Qed.

(** A plain queue has no address in common with a mutex. *)
Lemma wakes_one_quiet q s s' :
  parked s -> plain_queue s q = true -> wakes_one q s s' -> quiet s s'.
Proof.
  intros Hpk (_ & Hne & Hext)%plain_queue_spec (k & l & t & Hwf & Hq & Hl & ->).
  destruct (run_wakeup _ _ _ _ _ Hwf Hq Hl Hne) as [_ Hwf'].
  split; try done; simpl.
  - destruct Hpk as (c & th & Hc & Hth & Hpk). destruct (decide (c = t)) as [->|Hct].
    + eexists t, _. split; [done|]. simpl. rewrite !lookup_alter_eq, Hth. split; [done|]. done.
    + exists c, th. simpl. rewrite !lookup_alter_ne by done. done.
  - intros m Hr [h Hm]. rewrite !lookup_alter_ne by congruence. done.
  - intros q' Hq'. rewrite !lookup_alter. repeat case_decide; subst; by rewrite ?fmap_is_Some.
  - intros x. rewrite !lookup_alter. repeat case_decide; subst; by destruct (threads s !! x).
  - intros x th m. rewrite !lookup_alter. repeat case_decide; subst; try done.
    destruct (threads s !! x); [|done]. simpl. intros [= <-]. naive_solver.
Qed.

Lemma handle_quiet s h : sched_wf s -> parked s -> handler_ok s h = true -> quiet s (handle h s).
Proof.
  intros Hwf Hpk Hok. assert (Hp := Hok). destruct h as [q|q]; simpl in Hok;
    apply plain_queue_spec in Hok as ([k Hk] & Hne & _); unfold handle.
  - destruct (tq_list k) as [|t l _] eqn:Hl using rev_ind.
    + kstep run_wakeup_empty. by apply quiet_refl.
    + destruct (run_wakeup _ _ _ _ _ Hwf Hk Hl Hne) as [Hrun _]. kstep Hrun.
      eapply wakes_one_quiet; [done|exact Hp|]. by exists k, l, t.
  - destruct (wf_runq _ _ Hwf) as [kr Hkr]. destruct k as [l n].
    destruct (broadcast_loop_run _ _ _ _ _ Hwf Hk Hne Hkr) as (s' & Hrun & _ & _ & _ & _ & _ & Hs).
    unfold sched_broadcast_on. kstep run_get_queue. simpl tq_list. rewrite Hrun.
    assert (Hgen : forall s', rtc (wakes_one q) s s' -> quiet s s').
    { clear Hs Hrun s'. intros s' Hs. revert Hwf Hpk Hp. clear Hk Hkr Hne.
      induction Hs as [s|s1 s2 s3 H12 _ IH]; intros Hwf Hpk Hp; [by apply quiet_refl|].
      assert (H := wakes_one_quiet _ _ _ Hpk Hp H12). eapply quiet_trans; [exact H|].
      apply IH; [by apply H..|]. by apply (handler_ok_quiet _ _ (HBroadcast q) H). }
    by apply Hgen.
Qed.

(** The run queue is empty or has an oldest thread. *)
Lemma runq_cases {X} (s : kstate X) : sched_wf s -> runq_is s [] \/ exists l t, runq_is s (l ++ [t]).
Proof.
  intros Hwf. destruct (wf_runq _ _ Hwf) as [k Hk].
  destruct (tq_list k) as [|t l _] eqn:Hl using rev_ind; [left; by exists k|right; by exists l, t, k].
Qed.

(** Waiting for an interrupt ends when a handler makes a thread runnable. *)
Lemma idle_cases (hs : list handler) s n :
  sched_wf s -> parked s -> runq_is s [] -> forallb (handler_ok s) hs = true ->
  (exists l t s', quiet s s' /\ runq_is s' (l ++ [t]) /\
     forall F : outcome state unit -> outcome state Z, passes_env F -> exists rest,
       interrupts (handle <$> hs) (F (runq_wait (S (length hs + n)) s)) = interrupts rest (F (Done tt s')))
  \/ (forall F : outcome state unit -> outcome state Z, passes_env F -> exists x k,
       interrupts (handle <$> hs) (F (runq_wait (S (length hs + n)) s)) = Env IntrWait x k).
Proof.
  revert s. induction hs as [|h hs IH]; intros s Hwf Hpk Hr Hok.
  - right. intros F HF. rewrite runq_wait_empty, HF by done. by eexists _, _.
  - simpl in Hok. apply andb_true_iff in Hok as [Hh Hhs].
    set (s1 := set_ipl IPL_HIGH (handle h (set_ipl IPL_LOW s))).
    assert (Hq : quiet s s1).
    { apply quiet_set_ipl. apply (quiet_set_ipl_l IPL_LOW). apply handle_quiet; [by apply wf_set_ipl|done|].
      by destruct h. }
    assert (Hstep : forall F : outcome state unit -> outcome state Z, passes_env F ->
      interrupts (handle <$> h :: hs) (F (runq_wait (S (length (h :: hs) + n)) s))
      = interrupts (handle <$> hs) (F (runq_wait (S (length hs + n)) s1))).
    { intros F HF. rewrite runq_wait_empty, HF by done. done. }
    destruct (runq_cases s1 (quiet_wf _ _ Hq)) as [He|(l & t & Hlt)].
    + destruct (IH s1) as [(l & t & s' & Hq' & Hr' & HF')|Hno]; [by apply Hq..|done| | |].
      * rewrite forallb_forall in Hhs |- *. intros h' Hin. eapply handler_ok_quiet; eauto.
      * left. exists l, t, s'. split; [by eapply quiet_trans|]. split; [done|]. intros F HF.
        rewrite Hstep by done. by apply HF'.
      * right. intros F HF. rewrite Hstep by done. by apply Hno.
    + left. exists l, t, s1. split; [done|]. split; [done|]. intros F HF. rewrite Hstep by done.
      erewrite runq_wait_ready by done. by eexists.
Qed.

(** What [sched_switch] leads to, whatever handlers run meanwhile. *)
Lemma switch_cases (F : outcome state unit -> outcome state Z) (hs : list handler) s :
  passes_env F -> sched_wf s -> parked s -> forallb (handler_ok s) hs = true ->
  let o := interrupts (handle <$> hs) (F (sched_switch (S (length hs)) s)) in
  (exists x k, o = Env IntrWait x k)
  \/ exists t th s', quiet s s' /\ threads s' !! t = Some th /\ kt_wchan th = Some kt_runq
      /\ sched_wf (dispatch t (kt_proc th) s')
      /\ o = Env CtxSwitch (dispatch t (kt_proc th) s') (fun r => F (Done tt (set_ipl (ipl s) r))).
Proof.
  intros HF Hwf Hpk Hok o. subst o.
  assert (Hfin : forall s' l t rest, quiet s s' -> runq_is s' (l ++ [t]) -> exists th,
    threads s' !! t = Some th /\ kt_wchan th = Some kt_runq /\ sched_wf (dispatch t (kt_proc th) s') /\
    interrupts rest (F (obind (switch_to_next (curthr s') s') (fun _ => intr_setipl (ipl s))))
    = Env CtxSwitch (dispatch t (kt_proc th) s') (fun r => F (Done tt (set_ipl (ipl s) r)))).
  { intros s' l t rest Hq Hr. destruct (run_switch_to_next s' l t) as (th & Ht & Hrun & Hwf');
      [by apply Hq..|done|]. exists th. split; [done|]. split; [|split; [done|]].
    - destruct Hr as (k & Hk & Hl). destruct (wf_on _ _ (quiet_wf _ _ Hq) _ _ t Hk) as (th' & ? & ?);
        [rewrite Hl; set_solver|]. congruence.
    - rewrite Hrun. simpl. rewrite HF. apply interrupts_switch. }
  destruct (runq_cases s Hwf) as [He|(l & t & Hlt)].
  - rewrite switch_empty by done.
    destruct (idle_cases hs s 0 Hwf Hpk He Hok) as [(l & t & s' & Hq & Hr & HF')|Hno]; rewrite Nat.add_0_r in *.
    + right. destruct (HF' (fun o => F (obind (obind o (fun _ => switch_to_next (curthr s)))
                                              (fun _ => intr_setipl (ipl s))))) as [rest Hrest].
      { intros e x k. simpl. apply HF. }
      rewrite Hrest. simpl. rewrite <- (quiet_cur _ _ Hq).
      destruct (Hfin s' l t rest Hq Hr) as (th & ? & ? & ? & ?). by exists t, th, s'.
    + left. apply (Hno (fun o => F (obind (obind o (fun _ => switch_to_next (curthr s)))
                                          (fun _ => intr_setipl (ipl s))))).
      intros e x k. simpl. apply HF.
  - right. destruct (run_switch (S (length hs)) s l t) as (th & Ht & Hrun & Hwf'); [done..|].
    exists t, th, (set_ipl IPL_HIGH s). split_and!; [by apply quiet_set_ipl, quiet_refl|done| |done|].
    + destruct Hlt as (k & Hk & Hl). destruct (wf_on _ _ Hwf _ _ t Hk) as (th' & ? & ?);
        [rewrite Hl; set_solver|]. congruence.
    + rewrite Hrun, HF. apply interrupts_switch.
Qed.

(** ** The invariant of the system *)

(** What a call still has to do once its thread has been switched back to. *)
Definition post (c : call) : kernel state Z :=
  match c with
  | LockCancellable _ | CancellableSleepOn _ => sleep_result
  | _ => kret 0
  end.

(** [s] changes to [s'] without giving a mutex away: a thread leaves the wait
    queue of a mutex only when its cancellable sleep is cancelled. *)
Record evolves (s s' : state) : Prop := {
  ev_wf : sched_wf s';
  ev_ext : ext s' = ext s;
  ev_queue : forall m k, m <> kt_runq -> is_Some (ext s !! m) -> queues s !! m = Some k ->
    exists k', queues s' !! m = Some k'
      /\ (forall t, t ∈ tq_list k' -> t ∈ tq_list k
                   /\ kt_state <$> threads s' !! t = kt_state <$> threads s !! t)
      /\ (forall t th', t ∈ tq_list k -> t ∉ tq_list k' -> threads s' !! t = Some th' ->
           kt_cancelled th' = 1 /\ kt_state <$> threads s !! t = Some KT_SLEEP_CANCELLABLE);
  ev_thread : forall t th', threads s' !! t = Some th' ->
    exists th, threads s !! t = Some th /\ (kt_cancelled th = 1 -> kt_cancelled th' = 1);
}.

Record inv (s : state) (cn : gmap Z (call * kernel state Z)) (x : gset (Z * Z)) : Prop := {
  inv_wf : sched_wf s;
  inv_mutex : forall m h, ext s !! m = Some h -> m <> kt_runq
    /\ exists k, queues s !! m = Some k /\ (h = None -> tq_list k = []);
  inv_conts : forall t c k, cn !! t = Some (c, k) -> exists i, forall r, k r = post c (set_ipl i r);
  (** a suspended [kmutex_lock] that is off the wait queue owns the mutex *)
  inv_granted : forall t m c k kq th, cn !! t = Some (c, k) -> is_Some (ext s !! m) ->
    queues s !! m = Some kq ->
    t ∉ tq_list kq -> threads s !! t = Some th ->
    c = Lock m \/ (c = LockCancellable m /\ kt_cancelled th <> 1) -> ext s !! m = Some (Some t);
  inv_sleep : forall t m k kq, cn !! t = Some (Lock m, k) -> queues s !! m = Some kq -> t ∈ tq_list kq ->
    kt_state <$> threads s !! t = Some KT_SLEEP;
  inv_call : forall t m c k, cn !! t = Some (c, k) -> c = Lock m \/ c = LockCancellable m -> is_Some (ext s !! m);
  inv_cs : forall t m, (t, m) ∈ x -> ext s !! m = Some (Some t);
}.

Definition running (s : state) : Prop :=
  exists t th, curthr s = Some t /\ threads s !! t = Some th /\ kt_state th = KT_RUN /\ kt_wchan th = None.

Lemma inv_evolves s s' cn x : evolves s s' -> inv s cn x -> inv s' cn x.
Proof.
  intros [Hwf Hext Hqs Hths] Hi. split.
  - done.
  - intros m h Hm. rewrite Hext in Hm. destruct (inv_mutex _ _ _ Hi _ _ Hm) as (Hr & k & Hk & He).
    split; [done|]. destruct (Hqs m k Hr ltac:(done) Hk) as (k' & Hk' & Hsub & _).
    exists k'. split; [done|]. intros ->. rewrite He in Hsub by done.
    destruct (tq_list k') as [|y l]; [done|]. destruct (Hsub y) as [[]%not_elem_of_nil _]. set_solver.
  - apply Hi.
  - intros t m c k kq' th' Hc Hm Hk' Hnin Hth' Hcase. rewrite Hext in *.
    destruct Hm as [h Hm]. destruct (inv_mutex _ _ _ Hi _ _ Hm) as (Hr & kq & Hkq & _).
    destruct (Hqs m kq Hr ltac:(done) Hkq) as (k2 & Hk2 & Hsub & Hleave).
    assert (k2 = kq') as -> by congruence. destruct (Hths _ _ Hth') as (th & Hth & Hcan).
    destruct (decide (t ∈ tq_list kq)) as [Hin|Hout].
    + destruct (Hleave _ _ Hin Hnin Hth') as [Hc1 Hst]. destruct Hcase as [->|[-> ?]]; [|done].
      rewrite (inv_sleep _ _ _ Hi _ _ _ _ Hc Hkq Hin) in Hst. done.
    + eapply (inv_granted _ _ _ Hi); [done..|]. destruct Hcase as [->|[-> ?]]; [by left|right; naive_solver].
  - intros t m k kq' Hc Hk' Hin. assert (Hm := inv_call _ _ _ Hi _ m _ _ Hc (or_introl eq_refl)).
    destruct Hm as [h Hm]. destruct (inv_mutex _ _ _ Hi _ _ Hm) as (Hr & kq & Hkq & _).
    destruct (Hqs m kq Hr ltac:(done) Hkq) as (k2 & Hk2 & Hsub & Hleave).
    assert (k2 = kq') as -> by congruence. destruct (Hsub _ Hin) as [Hin0 ->]. by eapply inv_sleep.
  - rewrite Hext. apply Hi.
  - rewrite Hext. apply Hi.
Qed.

(** A change that keeps the wait queues of mutexes and the threads on them. *)
Lemma evolves_same s s' :
  sched_wf s' -> ext s' = ext s ->
  (forall m, m <> kt_runq -> is_Some (ext s !! m) -> queues s' !! m = queues s !! m) ->
  (forall t th m, threads s' !! t = Some th -> kt_wchan th = Some m -> m <> kt_runq ->
     kt_state <$> threads s !! t = Some (kt_state th)) ->
  (forall t th', threads s' !! t = Some th' ->
     exists th, threads s !! t = Some th /\ (kt_cancelled th = 1 -> kt_cancelled th' = 1)) ->
  evolves s s'.
Proof.
  intros Hwf Hext Hq Hst Hc. split; [done..| |done].
  intros m k Hr Hm Hk. exists k. rewrite Hq by done. split; [done|]. split; [|naive_solver].
  intros t Hin. split; [done|].
  destruct (wf_on _ _ Hwf m k t) as (th & Hth & Hw); [by rewrite Hq|done|].
  by rewrite Hth, (Hst _ _ _ Hth Hw Hr).
Qed.

Lemma evolves_refl s : sched_wf s -> evolves s s.
Proof. intros. apply evolves_same; [done..| |eauto]. by intros ? ? ? ->. Qed.

Lemma evolves_set_ipl v s : sched_wf s -> evolves s (set_ipl v s).
Proof.
  intros. apply evolves_same; [by apply wf_set_ipl|done|done| |eauto]. simpl. by intros ? ? ? ->.
Qed.

Lemma evolves_quiet s s' : quiet s s' -> evolves s s'.
Proof.
  intros []. apply evolves_same; try done.
  - intros t th m Hth Hw Hr. by rewrite (quiet_asleep0 _ _ _ Hth Hw Hr).
  - intros t th' Hth'. specialize (quiet_cancelled0 t). rewrite Hth' in quiet_cancelled0.
    destruct (threads s !! t) as [th|]; [|done]. simpl in *. exists th. split; [done|congruence].
Qed.

Lemma evolves_dispatch s t th p :
  threads s !! t = Some th -> kt_wchan th = Some kt_runq -> sched_wf (dispatch t p s) ->
  evolves s (dispatch t p s).
Proof.
  intros Ht Hw Hwf. apply evolves_same; simpl; try done.
  - intros m Hr _. by rewrite lookup_alter_ne.
  - intros x thx m. rewrite lookup_alter. case_decide; subst; [rewrite Ht; by intros [= <-]|by intros ->].
  - intros x thx. rewrite lookup_alter. case_decide; subst; [|eauto]. rewrite Ht. intros [= <-]. eauto.
Qed.

(** A plain queue loses its oldest thread to the run queue. *)
Lemma evolves_wake s q k l t :
  sched_wf s -> ext s !! q = None -> queues s !! q = Some k -> tq_list k = l ++ [t] -> q <> kt_runq ->
  evolves s (wake q t s).
Proof.
  intros Hwf Hq Hk Hl Hne. destruct (run_wakeup _ _ _ _ _ Hwf Hk Hl Hne) as [_ Hwf'].
  apply evolves_same; simpl; try done.
  - intros m Hr [h Hm]. by rewrite !lookup_alter_ne by congruence.
  - intros x thx m. destruct (decide (x = t)) as [->|Hx].
    + rewrite !lookup_alter_eq. destruct (threads s !! t); [|done]. intros [= <-]. naive_solver.
    + rewrite !lookup_alter_ne by done. by intros ->.
  - intros x thx. destruct (decide (x = t)) as [->|Hx].
    + rewrite !lookup_alter_eq. destruct (threads s !! t); [|done]. intros [= <-]. eauto.
    + rewrite !lookup_alter_ne by done. eauto.
Qed.

Lemma cancel_mark_lookup {X} (s : kstate X) t x th' :
  threads (cancel_mark t s) !! x = Some th' ->
  exists th, threads s !! x = Some th /\ kt_state th' = kt_state th /\ kt_wchan th' = kt_wchan th
    /\ (kt_cancelled th = 1 -> kt_cancelled th' = 1) /\ (x = t -> kt_cancelled th' = 1).
Proof.
  simpl. rewrite lookup_alter. case_decide; subst.
  - destruct (threads s !! x); [|done]. intros [= <-]. eauto 10.
  - intros ->. eexists. split; [done|]. naive_solver.
Qed.

Lemma evolves_cancel_mark s t : sched_wf s -> evolves s (cancel_mark t s).
Proof.
  intros Hwf. apply evolves_same; try done; [by apply wf_cancel_mark|..].
  - intros x thx m (th & -> & -> & _)%cancel_mark_lookup _ _. done.
  - intros x thx (th & -> & _ & _ & ? & _)%cancel_mark_lookup. eauto.
Qed.

Lemma evolves_cancel s q t th :
  sched_wf s -> threads s !! t = Some th -> kt_state th = KT_SLEEP_CANCELLABLE -> kt_wchan th = Some q ->
  q <> kt_runq -> evolves s (wake q t (cancel_mark t s)).
Proof.
  intros Hwf Ht Hst Hw Hne. destruct (run_cancel_sleeper s q t th) as [_ Hwf']; [done..|].
  assert (Hlk : forall x, x <> t -> threads (wake q t (cancel_mark t s)) !! x = threads s !! x).
  { intros x Hx. simpl. by rewrite !lookup_alter_ne. }
  assert (Hlt : threads (wake q t (cancel_mark t s)) !! t
                = Some (with_wchan (Some kt_runq) (with_state KT_RUN (with_cancelled 1 th)))).
  { simpl. by rewrite !lookup_alter_eq, Ht. }
  split; [done|done| |].
  - intros m k Hr _ Hk. destruct (decide (m = q)) as [->|Hmq].
    + exists (pull t k). split; [simpl; by rewrite lookup_alter_ne, lookup_alter_eq, Hk by done|].
      split; simpl.
      * intros x [Hx Hin]%list_elem_of_filter. split; [done|]. by rewrite !lookup_alter_ne by done.
      * intros x thx Hin Hout Hx. assert (x = t) as ->.
        { destruct (decide (x = t)); [done|]. destruct Hout. by apply list_elem_of_filter. }
        simpl in Hlt. rewrite Hlt in Hx. injection Hx as <-. simpl. by rewrite Ht, <- Hst.
    + exists k. split; [simpl; by rewrite !lookup_alter_ne by done|]. split; [|done].
      intros x Hin. split; [done|]. rewrite Hlk; [done|]. intros ->.
      destruct (wf_on _ _ Hwf _ _ _ Hk Hin) as (? & ? & ?). congruence.
  - intros x thx Hx. destruct (decide (x = t)) as [->|Hxt].
    + rewrite Hlt in Hx. injection Hx as <-. eauto.
    + rewrite Hlk in Hx by done. eauto.
Qed.

(** ** Calls that block *)

(** In which state and on which queue a blocking call leaves its thread. *)
Definition bplace (c : call) : option (ktstate * Z) :=
  match c with
  | Lock m => Some (KT_SLEEP, m)
  | LockCancellable m => Some (KT_SLEEP_CANCELLABLE, m)
  | Yield => Some (KT_RUN, kt_runq)
  | SleepOn q => Some (KT_SLEEP, q)
  | CancellableSleepOn q => Some (KT_SLEEP_CANCELLABLE, q)
  | _ => None
  end.

Lemma run_km_holder m h s : ext s !! m = Some h -> km_holder m s = Done h s.
Proof. intros Hm. unfold km_holder. kpure. by rewrite Hm. Qed.

Lemma run_assert_not_holder m h t s :
  curthr s = Some t -> ext s !! m = Some h -> h <> Some t -> assert_not_holder m s = Done tt s.
Proof.
  intros Hc Hm Hne. unfold assert_not_holder. kpure. kstep run_km_holder. apply kassert_true.
  rewrite Hc. by rewrite !bool_decide_eq_true_2 by congruence.
Qed.

Lemma run_blocks c s t th sta q k :
  sched_wf s -> curthr s = Some t -> threads s !! t = Some th -> kt_wchan th = None ->
  bplace c = Some (sta, q) -> queues s !! q = Some k -> placement sta q ->
  (forall m, c = Lock m \/ c = LockCancellable m -> exists h, ext s !! m = Some (Some h) /\ h <> t) ->
  exists F, passes_env F /\ (forall x, F (Done tt x) = post c x)
    /\ forall fuel, run fuel c s = F (sched_switch fuel (asleep sta q t s)).
Proof.
  intros Hwf Hc Hth Hw Hb Hq Hpl Hm.
  assert (Hq' : sta <> KT_RUN -> q <> kt_runq) by (destruct Hpl as [[-> ->]|[[->| ->] ?]]; done).
  destruct c; try done; simpl in Hb; injection Hb as <- <-.
  - exists (fun o => obind o (fun _ => kret 0)). split; [done|]. split; [done|]. intros fuel.
    destruct (Hm m) as (h & Hh & Hne); [by left|]. simpl. unfold kbind at 1. f_equal. unfold kmutex_lock.
    erewrite kbind_done; [|eapply run_assert_not_holder; [done..|congruence]].
    kstep run_km_holder. simpl. eapply run_sleep; eauto.
  - exists (fun o => obind o (fun _ => sleep_result)). split; [done|]. split; [done|]. intros fuel.
    destruct (Hm m) as (h & Hh & Hne); [by right|]. simpl. unfold kmutex_lock_cancellable.
    erewrite kbind_done; [|eapply run_assert_not_holder; [done..|congruence]].
    kstep run_km_holder. simpl. eapply run_sleep_cancellable; eauto.
  - exists (fun o => obind o (fun _ => kret 0)). split; [done|]. split; [done|]. intros fuel.
    simpl. kpure. erewrite kbind_done; [|by apply kderef_Some]. cbn beta.
    destruct (run_make_runnable s t) as [Hrun _]; [by eapply wf_make_hole|]. by kstep Hrun.
  - exists (fun o => obind o (fun _ => kret 0)). split; [done|]. split; [done|]. intros fuel.
    simpl. unfold kbind at 1. f_equal. eapply run_sleep; eauto.
  - exists (fun o => obind o (fun _ => sleep_result)). split; [done|]. split; [done|]. intros fuel.
    simpl. eapply run_sleep_cancellable; eauto.
Qed.

(** ** Every step keeps the invariant *)

Lemma wf_set_ext b (f : mutexes -> mutexes) s : wf_but b s -> wf_but b (set_ext f s).
Proof. intros Hwf. destruct Hwf. by split. Qed.

Lemma inv_delete s cn x t : inv s cn x -> inv s (delete t cn) x.
Proof.
  intros []. split; try done; intros *; intros [_ H]%lookup_delete_Some; revert H; eauto.
Qed.

Lemma inv_note s cn x t m : inv s cn x -> ext s !! m = Some (Some t) -> inv s cn ({[(t, m)]} ∪ x).
Proof. intros [] Hm. split; try done. set_solver. Qed.

Lemma inv_block s cn x t th sta q k c kq i :
  inv s cn x -> curthr s = Some t -> threads s !! t = Some th -> kt_wchan th = None ->
  bplace c = Some (sta, q) -> queues s !! q = Some kq -> placement sta q ->
  (forall m, c = Lock m \/ c = LockCancellable m -> is_Some (ext s !! m)) ->
  ext s !! q <> Some None -> (forall r, k r = post c (set_ipl i r)) ->
  inv (asleep sta q t s) (<[t := (c, k)]> cn) x.
Proof.
  intros Hi Hc Hth Hw Hb Hq Hpl Hm Hfree Hk.
  destruct (sleep_ready sta s q t th kq) as (Hwf & _ & _); [apply Hi|done..|].
  assert (Hthr : forall t', t' <> t -> threads (asleep sta q t s) !! t' = threads s !! t').
  { intros t' Hne. simpl. by rewrite !lookup_alter_ne. }
  assert (Hqs : forall m k', queues (asleep sta q t s) !! m = Some k' ->
     exists k0, queues s !! m = Some k0 /\ (k' = k0 \/ (m = q /\ k' = push t k0))).
  { intros m k'. simpl. rewrite lookup_alter. case_decide; subst; [|eauto].
    destruct (queues s !! m); [|done]. intros [= <-]. eauto. }
  split; [done|..].
  - intros m h Hmh. destruct (inv_mutex _ _ _ Hi m h Hmh) as (Hr & k0 & Hk0 & He). split; [done|].
    simpl. rewrite lookup_alter. case_decide; subst; [|eauto]. rewrite Hk0. eexists. split; [done|].
    intros ->. done.
  - intros t' c' k' [[<- [= <- <-]]|[_ ?]]%lookup_insert_Some; [eauto|by eapply inv_conts].
  - intros t' m c' k' kq' th' [[<- [= <- <-]]|[Hne Hc']]%lookup_insert_Some Hsm Hkq' Hout Hth' Hcase.
    + exfalso. destruct (Hqs _ _ Hkq') as (k0 & Hk0 & Hor).
      assert (m = q) as -> by (destruct Hcase as [->|[-> _]]; simpl in Hb; congruence).
      simpl in Hkq'. rewrite lookup_alter_eq, Hq in Hkq'. injection Hkq' as <-. apply Hout. simpl. set_solver +.
    + rewrite Hthr in Hth' by done. destruct (Hqs _ _ Hkq') as (k0 & Hk0 & Hor).
      eapply (inv_granted _ _ _ Hi); [done..| |done|done].
      destruct Hor as [->|[-> ->]]; [done|]. simpl in Hout. set_solver +Hout.
  - intros t' m k' kq' [[<- [= -> <-]]|[Hne Hc']]%lookup_insert_Some Hkq' Hin.
    + simpl in Hb. injection Hb as <- <-. simpl. by rewrite !lookup_alter_eq, Hth.
    + rewrite Hthr by done. destruct (Hqs _ _ Hkq') as (k0 & Hk0 & Hor).
      eapply (inv_sleep _ _ _ Hi); [done..|].
      destruct Hor as [->|[-> ->]]; [done|]. simpl in Hin. set_solver +Hin Hne.
  - intros t' m c' k' [[<- [= <- <-]]|[_ Hc']]%lookup_insert_Some Hcase; [eauto|exact (inv_call _ _ _ Hi _ _ _ _ Hc' Hcase)].
  - apply Hi.
Qed.

Lemma inv_acquire s cn x m t :
  inv s cn x -> ext s !! m = Some None -> inv (set_ext (insert m (Some t)) s) cn ({[(t, m)]} ∪ x).
Proof.
  intros Hi Hm. split; simpl.
  - apply wf_set_ext, Hi.
  - intros m' h [[<- <-]|[_ Hm']]%lookup_insert_Some; [|by apply Hi].
    destruct (inv_mutex _ _ _ Hi _ _ Hm) as (? & k & ? & _). split; [done|]. by exists k.
  - apply Hi.
  - intros t' m' c k kq th Hc Hsm Hkq Hout Hth Hcase.
    assert (Hsm' : is_Some (ext s !! m')).
    { destruct Hcase as [->|[-> _]]; eapply (inv_call _ _ _ Hi); eauto. }
    assert (H := inv_granted _ _ _ Hi _ _ _ _ _ _ Hc Hsm' Hkq Hout Hth Hcase).
    rewrite lookup_insert_ne; [done|congruence].
  - apply Hi.
  - intros t' m' c k Hc Hcase. rewrite lookup_insert_is_Some. 
    destruct (decide (m = m')); [by left|right]. split; [done|]. by eapply (inv_call _ _ _ Hi).
  - intros t' m' [[= -> ->]%elem_of_singleton|Hx]%elem_of_union; [by rewrite lookup_insert_eq|].
    assert (H := inv_cs _ _ _ Hi _ _ Hx). rewrite lookup_insert_ne; [done|congruence].
Qed.

(** Giving a held mutex up, to nobody or to the thread that is then woken. *)
Lemma inv_release s cn x m t :
  inv s cn x -> ext s !! m = Some (Some t) -> cn !! t = None ->
  queues s !! m = Some (mk_ktqueue [] 0) -> inv (set_ext (insert m None) s) cn (x ∖ {[(t, m)]}).
Proof.
  intros Hi Hm Hcn Hq. split; simpl.
  - apply wf_set_ext, Hi.
  - intros m' h [[<- <-]|[_ Hm']]%lookup_insert_Some; [|by apply Hi].
    destruct (inv_mutex _ _ _ Hi _ _ Hm) as (? & k & ? & _). split; [done|]. eauto.
  - apply Hi.
  - intros t' m' c k kq th Hc Hsm Hkq Hout Hth Hcase.
    assert (Hsm' : is_Some (ext s !! m')).
    { destruct Hcase as [->|[-> _]]; eapply (inv_call _ _ _ Hi); eauto. }
    assert (H := inv_granted _ _ _ Hi _ _ _ _ _ _ Hc Hsm' Hkq Hout Hth Hcase).
    rewrite lookup_insert_ne; [done|]. intros <-. congruence.
  - apply Hi.
  - intros t' m' c k Hc Hcase. rewrite lookup_insert_is_Some.
    destruct (decide (m = m')); [by left|right]. split; [done|]. by eapply (inv_call _ _ _ Hi).
  - intros t' m' [Hx Hne]%elem_of_difference. assert (H := inv_cs _ _ _ Hi _ _ Hx).
    rewrite lookup_insert_ne; [done|]. intros <-. set_solver.
Qed.

Definition hand_over (m t : Z) (s : state) : state := set_ext (insert m (Some t)) (wake m t s).

Lemma inv_hand_over s cn x m t k l t' :
  inv s cn x -> ext s !! m = Some (Some t) -> cn !! t = None ->
  queues s !! m = Some k -> tq_list k = l ++ [t'] ->
  inv (hand_over m t' s) cn (x ∖ {[(t, m)]}).
Proof.
  intros Hi Hm Hcn Hq Hl. destruct (inv_mutex _ _ _ Hi _ _ Hm) as (Hr & _).
  destruct (run_wakeup _ _ _ _ _ (inv_wf _ _ _ Hi) Hq Hl Hr) as [_ Hwf].
  assert (Hwq := wake_queue _ _ _ _ _ (inv_wf _ _ _ Hi) Hq Hl Hr).
  assert (Hqs : forall m', m' <> m -> m' <> kt_runq -> queues (wake m t' s) !! m' = queues s !! m').
  { intros m' ??. simpl. by rewrite !lookup_alter_ne. }
  assert (Hths : forall x, x <> t' -> threads (wake m t' s) !! x = threads s !! x).
  { intros ??. simpl. by rewrite !lookup_alter_ne. }
  assert (Hcan : forall x thx, threads (wake m t' s) !! x = Some thx ->
            exists th, threads s !! x = Some th /\ kt_cancelled th = kt_cancelled thx).
  { intros y thy. destruct (decide (y = t')) as [->|]; [|rewrite Hths by done; eauto].
    simpl. rewrite !lookup_alter_eq. destruct (threads s !! t'); [|done]. intros [= <-]. eauto. }
  unfold hand_over. split.
  - by apply wf_set_ext.
  - intros m' h. simpl ext. intros [[<- <-]|[Hne Hm']]%lookup_insert_Some.
    + split; [done|]. eexists. split; [exact Hwq|done].
    + destruct (inv_mutex _ _ _ Hi _ _ Hm') as (Hr' & k' & Hk' & He). split; [done|]. exists k'.
      split; [|done]. by rewrite <- Hk'; apply Hqs.
  - apply Hi.
  - intros t2 m2 c k2 kq th Hc Hsm Hkq Hout Hth Hcase. simpl ext.
    assert (Hsm' : is_Some (ext s !! m2)).
    { destruct Hcase as [->|[-> _]]; eapply (inv_call _ _ _ Hi); eauto. }
    destruct (Hcan _ _ Hth) as (th0 & Hth0 & Hcc). rewrite <- Hcc in Hcase.
    destruct (decide (m2 = m)) as [->|Hne].
    + rewrite lookup_insert_eq. f_equal. f_equal. destruct (decide (t2 = t')); [done|]. exfalso.
      change (queues (wake m t' s) !! m = Some kq) in Hkq. rewrite Hwq in Hkq. injection Hkq as <-.
      assert (H := inv_granted _ _ _ Hi _ _ _ _ k _ Hc Hsm' Hq ltac:(rewrite Hl; set_solver) Hth0 Hcase).
      congruence.
    + destruct Hsm' as [h2 Hm2]. destruct (inv_mutex _ _ _ Hi _ _ Hm2) as (Hr2 & _).
      change (queues (wake m t' s) !! m2 = Some kq) in Hkq. rewrite Hqs in Hkq by done.
      rewrite lookup_insert_ne by done. eapply (inv_granted _ _ _ Hi); [done|by eexists|done..].
  - intros t2 m2 k2 kq Hc Hkq Hin. destruct (wf_on _ _ Hwf _ _ _ Hkq Hin) as (th & Hth & Hw).
    assert (Hsm := inv_call _ _ _ Hi _ m2 _ _ Hc (or_introl eq_refl)). destruct Hsm as [h2 Hm2].
    destruct (inv_mutex _ _ _ Hi _ _ Hm2) as (Hr2 & k0 & Hk0 & _).
    assert (Ht2 : t2 <> t').
    { intros ->. simpl in Hth. rewrite !lookup_alter_eq in Hth. destruct (threads s !! t'); [|done].
      injection Hth as <-. simpl in Hw. naive_solver. }
    change (kt_state <$> threads (wake m t' s) !! t2 = Some KT_SLEEP). rewrite Hths by done.
    eapply (inv_sleep _ _ _ Hi); [done..|]. change (queues (wake m t' s) !! m2 = Some kq) in Hkq.
    destruct (decide (m2 = m)) as [->|Hne].
    + assert (k0 = k) as -> by congruence. rewrite Hwq in Hkq. injection Hkq as <-. rewrite Hl. simpl in Hin. set_solver +Hin.
    + rewrite Hqs in Hkq by done. congruence.
  - intros t2 m2 c k2 Hc Hcase. simpl ext. rewrite lookup_insert_is_Some.
    destruct (decide (m = m2)); [by left|right]. split; [done|]. by eapply (inv_call _ _ _ Hi).
  - intros t2 m2 [Hx Hne]%elem_of_difference. assert (H := inv_cs _ _ _ Hi _ _ Hx). simpl ext.
    rewrite lookup_insert_ne; [done|]. intros <-. set_solver.
Qed.

Lemma run_unlock s m t k :
  sched_wf s -> curthr s = Some t -> ext s !! m = Some (Some t) -> m <> kt_runq ->
  queues s !! m = Some k ->
  kmutex_unlock m s = match last (tq_list k) with
                      | None => Done tt (set_ext (insert m None) s)
                      | Some t' => Done tt (hand_over m t' s)
                      end.
Proof.
  intros Hwf Hc Hm Hr Hk. unfold kmutex_unlock.
  erewrite kbind_done.
  2:{ unfold assert_holder. kpure. kstep run_km_holder. apply kassert_true. by rewrite Hc, !bool_decide_eq_true_2. }
  unfold set_holder. kpure. kstep run_get_queue.
  assert (Hsz := wf_size _ _ Hwf _ _ Hk). destruct (tq_list k) as [|t' l _] eqn:Hl using rev_ind.
  - by rewrite Hsz.
  - rewrite last_snoc, Hsz. destruct (Z.eqb_spec (Z.of_nat (length (l ++ [t']))) 0) as [H0|_].
    { rewrite length_app in H0. simpl in H0. lia. }
    cbn [negb]. kpure.
    erewrite kbind_done; [|eapply run_km_holder; simpl; by rewrite lookup_insert_eq].
    kstep kassert_dec; [|simpl; by rewrite Hc].
    destruct (run_wakeup (set_ext (insert m None) s) m k l t') as [Hrun _]; [by apply wf_set_ext|done..|].
    kstep Hrun. unfold kmodify, hand_over, set_ext, wake. simpl. by rewrite insert_insert_eq.
Qed.

(** The running thread is on no queue. *)
Lemma running_off (s : state) t th q k :
  sched_wf s -> threads s !! t = Some th -> kt_wchan th = None -> queues s !! q = Some k -> t ∉ tq_list k.
Proof. intros Hwf Ht Hw Hk Hin. destruct (wf_on _ _ Hwf _ _ _ Hk Hin) as (? & ? & ?). congruence. Qed.

Lemma running_same s s' :
  running s -> curthr s' = curthr s ->
  (forall t th, curthr s = Some t -> threads s !! t = Some th -> exists th', threads s' !! t = Some th'
     /\ kt_state th' = kt_state th /\ kt_wchan th' = kt_wchan th) -> running s'.
Proof.
  intros (t & th & Hc & Hth & Hst & Hw) Hc' Hth'. destruct (Hth' _ _ Hc Hth) as (th' & ? & ? & ?).
  exists t, th'. split_and!; congruence.
Qed.

Lemma running_wake s q k l t :
  sched_wf s -> running s -> queues s !! q = Some k -> tq_list k = l ++ [t] -> running (wake q t s).
Proof.
  intros Hwf Hrun Hk Hl. eapply running_same; [exact Hrun|done|].
  destruct Hrun as (c & thc & Hc & Hth & Hst & Hw). intros ? ? Hc' Hth'. simplify_eq.
  assert (Hne : c <> t). { intros ->. destruct (running_off _ _ _ _ _ Hwf Hth Hw Hk). rewrite Hl. set_solver. }
  simpl. rewrite !lookup_alter_ne by done. eauto.
Qed.

Lemma interrupts_done {A} hs (a : A) (s : state) : interrupts hs (Done a s) = Done a s.
Proof. by destruct hs. Qed.

Definition good (g : config) : Prop := inv (st g) (conts g) (cs g) /\ running (st g).

(** A call that has to switch. *)
Lemma good_block g t c hs g' sta q kq :
  good g -> curthr (st g) = Some t -> conts g !! t = None ->
  forallb (handler_ok (st g)) hs = true ->
  bplace c = Some (sta, q) -> queues (st g) !! q = Some kq -> placement sta q ->
  (forall m, c = Lock m \/ c = LockCancellable m -> exists h, ext (st g) !! m = Some (Some h) /\ h <> t) ->
  ext (st g) !! q <> Some None ->
  settle t c (interrupts (handle <$> hs) (run (S (length hs)) c (st g))) g = Some g' -> good g'.
Proof.
  intros [Hi (t0 & th & Hc0 & Hth & Hst & Hw)] Hc Hcn Hhs Hb Hq Hpl Hm Hfree Hs.
  assert (t0 = t) as -> by congruence.
  destruct (run_blocks c (st g) t th sta q kq) as (F & HF & HFd & Hrun); [apply Hi|done..|].
  rewrite Hrun in Hs.
  destruct (sleep_ready sta (st g) q t th kq) as (Hwf & Hpk & _); [apply Hi|done..|].
  destruct (switch_cases F hs (asleep sta q t (st g))) as [(x & k & Ho)|(t' & th' & s' & Hqt & Ht' & Hw' & Hwf' & Ho)];
    [done..| | |].
  - rewrite forallb_forall in Hhs |- *. intros h Hin. specialize (Hhs h Hin).
    assert (Hpq : forall q', plain_queue (st g) q' = true -> plain_queue (asleep sta q t (st g)) q' = true).
    { intros q'. rewrite !plain_queue_spec. intros (? & ? & ?). split; [|done]. simpl.
      rewrite lookup_alter. case_decide; by rewrite ?fmap_is_Some; subst. }
    destruct h; apply Hpq, Hhs.
  - by rewrite Ho in Hs.
  - rewrite Ho in Hs. simpl in Hs. injection Hs as <-.
    assert (Hi1 : inv (asleep sta q t (st g))
                    (<[t := (c, fun r => F (Done tt (set_ipl (ipl (st g)) r)))]> (conts g)) (cs g)).
    { eapply (inv_block _ _ _ _ _ _ _ _ _ _ (ipl (st g))); [done..| | |].
      - intros m Hmm. destruct (Hm m Hmm) as (h & -> & _). done.
      - done.
      - intros r. apply HFd. }
    split; simpl.
    + eapply inv_evolves; [by eapply evolves_dispatch|]. by eapply inv_evolves; [apply evolves_quiet|].
    + assert (Hok := wf_state _ _ (quiet_wf _ _ Hqt) t' th' Ht' ltac:(done)). unfold state_ok in Hok.
      exists t', (with_wchan None th'). simpl. rewrite lookup_alter_eq, Ht'. split_and!; try done.
      simpl. destruct (kt_state th'); naive_solver.
Qed.

Lemma good_done g t c hs g' s' :
  run (S (length hs)) c (st g) = Done 0 s' -> running s' ->
  inv s' (conts g) (note_return t c 0 (cs g)) ->
  settle t c (interrupts (handle <$> hs) (run (S (length hs)) c (st g))) g = Some g' -> good g'.
Proof. intros -> Hr Hi. rewrite interrupts_done. intros [= <-]. done. Qed.

Lemma good_lock g t c m hs g' :
  good g -> curthr (st g) = Some t -> conts g !! t = None -> allowed g t c = true ->
  forallb (handler_ok (st g)) hs = true -> c = Lock m \/ c = LockCancellable m ->
  settle t c (interrupts (handle <$> hs) (run (S (length hs)) c (st g))) g = Some g' -> good g'.
Proof.
  intros Hg Hc Hcn Hal Hhs Hcase Hs. assert (Hg' := Hg). destruct Hg' as [Hi Hrun].
  assert (Hm : exists h, ext (st g) !! m = Some h /\ h <> Some t).
  { destruct Hcase as [-> | ->]; simpl in Hal; destruct (ext (st g) !! m) as [h|]; try done;
      apply bool_decide_eq_true in Hal; eauto. }
  destruct Hm as (h & Hm & Hne). destruct (inv_mutex _ _ _ Hi _ _ Hm) as (Hr & k & Hk & _).
  destruct h as [h|].
  - destruct Hcase as [-> | ->];
      (eapply good_block; [..|exact Hs]; [done|done|done|done|reflexivity|done|by right; auto| |congruence]);
      intros m' [[= <-]|[= <-]]; exists h; (split; [done|congruence]).
  - assert (Hdone : forall fuel, run fuel c (st g) = Done 0 (set_ext (insert m (Some t)) (st g))).
    { intros fuel. destruct Hcase as [-> | ->]; simpl; [unfold kmutex_lock|unfold kmutex_lock_cancellable].
      - erewrite kbind_done; [done|]. erewrite kbind_done; [|by eapply run_assert_not_holder].
        kstep run_km_holder. simpl. kpure. by rewrite Hc.
      - erewrite kbind_done; [|by eapply run_assert_not_holder].
        kstep run_km_holder. simpl. kpure. by rewrite Hc. }
    eapply good_done; [apply Hdone| | |exact Hs].
    + eapply running_same; [exact Hrun|done|]. eauto.
    + destruct Hcase as [-> | ->]; by apply inv_acquire.
Qed.

Lemma good_unlock g t m hs g' :
  good g -> curthr (st g) = Some t -> conts g !! t = None -> allowed g t (Unlock m) = true ->
  settle t (Unlock m) (interrupts (handle <$> hs) (run (S (length hs)) (Unlock m) (st g))) g = Some g' ->
  good g'.
Proof.
  intros [Hi Hrun] Hc Hcn Hal Hs. simpl in Hal. apply bool_decide_eq_true in Hal.
  assert (Hm := inv_cs _ _ _ Hi _ _ Hal). destruct (inv_mutex _ _ _ Hi _ _ Hm) as (Hr & k & Hk & _).
  assert (Hu := run_unlock _ _ _ _ (inv_wf _ _ _ Hi) Hc Hm Hr Hk).
  destruct (tq_list k) as [|t' l _] eqn:Hl using rev_ind.
  - eapply good_done; [..|exact Hs]; [unfold run; by kstep Hu| |].
    + eapply running_same; [exact Hrun|done|]. eauto.
    + simpl. apply inv_release; [done..|]. rewrite Hk. f_equal. destruct k as [l n].
      assert (Hsz := wf_size _ _ (inv_wf _ _ _ Hi) _ _ Hk). simpl in *. subst. done.
  - rewrite last_snoc in Hu. eapply good_done; [..|exact Hs]; [unfold run; by kstep Hu| |].
    + assert (Hw : running (wake m t' (st g))) by (eapply running_wake; [apply Hi|done..]). exact Hw.
    + simpl. by eapply inv_hand_over.
Qed.

Lemma good_wakeup g t q hs g' :
  good g -> allowed g t (WakeupOn q) = true ->
  settle t (WakeupOn q) (interrupts (handle <$> hs) (run (S (length hs)) (WakeupOn q) (st g))) g = Some g' ->
  good g'.
Proof.
  intros [Hi Hrun] Hal Hs. simpl in Hal. apply plain_queue_spec in Hal as ([k Hk] & Hr & Hx).
  destruct (tq_list k) as [|t' l _] eqn:Hl using rev_ind.
  - eapply good_done; [..|exact Hs]; [|exact Hrun|exact Hi]. unfold run. by kstep run_wakeup_empty.
  - destruct (run_wakeup _ _ _ _ _ (inv_wf _ _ _ Hi) Hk Hl Hr) as [Hw _].
    eapply good_done; [..|exact Hs]; [unfold run; by kstep Hw| |].
    + eapply running_wake; [apply Hi|done..].
    + simpl. eapply inv_evolves; [|done]. eapply evolves_wake; [apply Hi|done..].
Qed.

Lemma good_cancel g t t' hs g' :
  good g -> allowed g t (Cancel t') = true ->
  settle t (Cancel t') (interrupts (handle <$> hs) (run (S (length hs)) (Cancel t') (st g))) g = Some g' ->
  good g'.
Proof.
  intros [Hi Hrun] Hal Hs. simpl in Hal. destruct (threads (st g) !! t') as [th|] eqn:Hth; [|done].
  apply negb_true_iff, orb_false_iff in Hal as [H1%bool_decide_eq_false H2%bool_decide_eq_false].
  assert (Hmark : forall c thc, curthr (st g) = Some c -> threads (st g) !! c = Some thc ->
     exists th', threads (cancel_mark t' (st g)) !! c = Some th' /\ kt_state th' = kt_state thc
                 /\ kt_wchan th' = kt_wchan thc).
  { intros c thc _ Hthc. simpl. rewrite lookup_alter. case_decide; subst; rewrite Hthc; simpl; eauto. }
  destruct (decide (kt_state th = KT_SLEEP_CANCELLABLE)) as [Hst|Hst].
  - assert (Hok := wf_state _ _ (inv_wf _ _ _ Hi) _ _ Hth ltac:(done)). unfold state_ok in Hok.
    rewrite Hst in Hok. destruct Hok as (q & Hw & Hr).
    destruct (run_cancel_sleeper (st g) q t' th) as [Hc _]; [apply Hi|done..|].
    eapply good_done; [..|exact Hs]; [unfold run; by kstep Hc| |].
    + eapply running_same; [exact Hrun|done|]. destruct Hrun as (c & thc & Hcc & Hthc & Hstc & _).
      intros ? ? ? ?. simplify_eq. assert (c <> t') by (intros ->; simplify_eq; congruence).
      simpl. rewrite !lookup_alter_ne by done. eauto.
    + simpl. eapply inv_evolves; [|done]. eapply evolves_cancel; [apply Hi|done..].
  - assert (Hc : sched_cancel t' (st g) = Done tt (cancel_mark t' (st g))).
    { eapply run_cancel_other; [done|]. destruct (kt_state th); naive_solver. }
    eapply good_done; [..|exact Hs]; [unfold run; by kstep Hc| |].
    + eapply running_same; [exact Hrun|done|exact Hmark].
    + simpl. eapply inv_evolves; [|done]. apply evolves_cancel_mark, Hi.
Qed.

(** A resumed call returns, and a resumed lock that is told it succeeded holds the mutex. *)
Lemma resume_returns g t c k :
  good g -> curthr (st g) = Some t -> conts g !! t = Some (c, k) ->
  exists r i th, k (st g) = Done r (set_ipl i (st g)) /\ threads (st g) !! t = Some th
    /\ (forall m, c = Lock m \/ (c = LockCancellable m /\ r = 0) -> ext (st g) !! m = Some (Some t))
    /\ (forall m, c = LockCancellable m -> r = if kt_cancelled th =? 1 then - EINTR else 0).
Proof.
  intros [Hi (t0 & th & Hc0 & Hth & Hst & Hw)] Hc Hcn. assert (t0 = t) as -> by congruence.
  destruct (inv_conts _ _ _ Hi _ _ _ Hcn) as [i Hk]. rewrite Hk.
  assert (Hsr : sleep_result (set_ipl i (st g))
                = Done (if kt_cancelled th =? 1 then - EINTR else 0) (set_ipl i (st g))).
  { unfold sleep_result. kpure. erewrite kbind_done; [|by apply kderef_Some]. cbn beta.
    by kstep run_get_thread. }
  assert (Hgr : forall m, c = Lock m \/ (c = LockCancellable m /\ kt_cancelled th <> 1) ->
                  ext (st g) !! m = Some (Some t)).
  { intros m Hcase. assert (Hm : is_Some (ext (st g) !! m)).
    { eapply (inv_call _ _ _ Hi); [done|]. naive_solver. }
    destruct Hm as [h Hm]. destruct (inv_mutex _ _ _ Hi _ _ Hm) as (_ & kq & Hkq & _).
    eapply (inv_granted _ _ _ Hi); [done|by eexists|done| |done|done].
    eapply running_off; [apply Hi|done..]. }
  destruct c; simpl; rewrite ?Hsr; (eexists _, i, th; split; [done|]; split; [done|]; split); try naive_solver.
  intros m' [|[[= <-] Hr]]; [done|]. apply Hgr. right. split; [done|].
  intros Hcan. rewrite Hcan in Hr. done.
Qed.

Lemma good_step g g' : good g -> step g g' -> good g'.
Proof.
  intros Hg Hstep. destruct Hstep as [t c hs g' Hc Hcn Hal Hhs Hs|t c k g' Hc Hcn Hs].
  - assert (Hplain : forall q, plain_queue (st g) q = true ->
      exists k, queues (st g) !! q = Some k /\ q <> kt_runq /\ ext (st g) !! q = None).
    { intros q ([k ?] & ? & ?)%plain_queue_spec. eauto. }
    destruct c as [m|m|m| |q|q|q|t'].
    + eapply good_lock; eauto.
    + eapply good_lock; eauto.
    + eapply good_unlock; eauto.
    + destruct (wf_runq _ _ (inv_wf _ _ _ (proj1 Hg))) as [k Hk].
      eapply good_block; [..|exact Hs]; [done|done|done|done|reflexivity|done|by left|naive_solver|].
      intros Hm. by destruct (inv_mutex _ _ _ (proj1 Hg) _ _ Hm).
    + destruct (Hplain q Hal) as (k & Hk & Hr & Hx).
      eapply good_block; [..|exact Hs];
        [done|done|done|done|reflexivity|done|right; auto|naive_solver|congruence].
    + destruct (Hplain q Hal) as (k & Hk & Hr & Hx).
      eapply good_block; [..|exact Hs];
        [done|done|done|done|reflexivity|done|right; auto|naive_solver|congruence].
    + by eapply good_wakeup.
    + by eapply good_cancel.
  - destruct (resume_returns g t c k Hg Hc Hcn) as (r & i & th & Hk & Hth & Hgr & _).
    rewrite Hk in Hs. simpl in Hs. injection Hs as <-. destruct Hg as [Hi Hrun]. split; simpl.
    + apply inv_evolves with (s := st g); [apply evolves_set_ipl, Hi|]. apply inv_delete.
      destruct c; simpl; try done.
      * apply inv_note; [done|]. apply Hgr. by left.
      * destruct (Z.eqb_spec r 0) as [->|]; [|done]. apply inv_note; [done|]. apply Hgr. by right.
      * destruct Hi. split; try done. set_solver.
    + eapply running_same; [exact Hrun|done|]. eauto.
Qed.

Lemma good_initial g : initial g -> good g.
Proof.
  intros (Hwf & Hrun & Hcn & Hcs & Hm). split; [|done]. rewrite Hcn, Hcs. split; try done.
  - intros m h Hh. destruct (Hm _ _ Hh) as (-> & ? & ?). eauto.
Qed.

Lemma good_reachable g : reachable g -> good g.
Proof.
  intros (g0 & Hg0%good_initial & Hs). induction Hs as [|g1 g2 g3 H12 _ IH]; [done|].
  apply IH. by eapply good_step.
Qed.

(** ** Running a schedule *)

(** Resume the running thread if it is suspended, otherwise let it make the call. *)
Definition advance (c : call) (g : config) : option config :=
  match curthr (st g) with
  | None => None
  | Some t =>
      match conts g !! t with
      | Some (c', k) => settle t c' (k (st g)) (mk_config (st g) (delete t (conts g)) (cs g))
      | None => if allowed g t c then settle t c (run 1 c (st g)) g else None
      end
  end.

Fixpoint execute (l : list call) (g : config) : option config :=
  match l with
  | [] => Some g
  | c :: l => match advance c g with Some g' => execute l g' | None => None end
  end.

Lemma interrupts_nil {A} (o : outcome state A) : interrupts [] o = o.
Proof. by destruct o as [| | |[] ? ?]. Qed.

Lemma advance_step c g g' : advance c g = Some g' -> step g g'.
Proof.
  unfold advance. destruct (curthr (st g)) as [t|] eqn:Hc; [|done].
  destruct (conts g !! t) as [[c' k]|] eqn:Hcn; [by apply step_resume|].
  destruct (allowed g t c) eqn:Hal; [|done]. intros Hs. eapply (step_call _ t c []); try done.
  change (handle <$> []) with (@nil (state -> state)). by rewrite interrupts_nil.
Qed.

Lemma execute_steps l g g' : execute l g = Some g' -> rtc step g g'.
Proof.
  revert g. induction l as [|c l IH]; intros g; simpl; [intros [= ->]; constructor|].
  destruct (advance c g) as [g1|] eqn:H; [|done]. intros. eapply rtc_l; [by eapply advance_step|by apply IH].
Qed.

(** Two threads and a free mutex at address 5. *)
Definition start : config := mk_config {|
  threads := {[ 10 := mk_kthread 0 0 0 1 0 None KT_RUN; 11 := mk_kthread 0 0 0 2 0 (Some 1) KT_RUN ]};
  queues := {[ 1 := mk_ktqueue [11] 1; 5 := mk_ktqueue [] 0 ]};
  curthr := Some 10; curproc := Some 1; ipl := 0; ext := {[ 5 := None ]} |} ∅ ∅.

Lemma start_initial : initial start.
Proof.
  split; [by apply sched_wfb_sound|]. split; [by eexists 10, _|]. do 2 (split; [done|]).
  intros m h Hm. change (({[5 := None]} : mutexes) !! m = Some h) in Hm.
  by apply lookup_singleton_Some in Hm as [<- <-].
Qed.

Lemma execute_reachable l g : execute l start = Some g -> reachable g.
Proof. intros Hl. exists start. split; [apply start_initial|by eapply execute_steps]. Qed.

(** ** Properties *)

(** C3: mutual exclusion.  In every state the threads can reach, at most one
    thread has been told it holds a given mutex, and it is the one recorded in
    [km_holder]. *)
Theorem kmutex_mutual_exclusion g t1 t2 m :
  reachable g -> (t1, m) ∈ cs g -> (t2, m) ∈ cs g -> t1 = t2 /\ ext (st g) !! m = Some (Some t1).
Proof.
  intros [Hi _]%good_reachable H1 H2. assert (E1 := inv_cs _ _ _ Hi _ _ H1).
  assert (E2 := inv_cs _ _ _ Hi _ _ H2). split; [congruence|done].
Qed.

(** Thread 10 locks the mutex and yields, thread 11 waits for it, thread 10 is
    resumed and unlocks it, and thread 11 is resumed and holds it. *)
Definition contention : list call := [Lock 5; Yield; Lock 5; Yield; Unlock 5; Yield; Yield].

Lemma kmutex_mutual_exclusion_witness :
  exists g, execute contention start = Some g /\ (11 = 11 /\ ext (st g) !! 5 = Some (Some 11)).
Proof.
  destruct (execute contention start) as [g|] eqn:Hg; [|by vm_compute in Hg].
  exists g. split; [done|].
  assert (Hin : (fun g => bool_decide ((11, 5) ∈ cs g)) <$> execute contention start = Some true)
    by (vm_compute; reflexivity).
  rewrite Hg in Hin. simpl in Hin. injection Hin as Hin. apply bool_decide_eq_true in Hin.
  apply (kmutex_mutual_exclusion g 11 11 5); [by eapply execute_reachable|done|done].
Defined.

(** C37: [kmutex_lock] returns holding the mutex.  Whenever a thread that was
    suspended in [kmutex_lock], or in [kmutex_lock_cancellable] and not
    cancelled, is switched back to, the call returns 0 and [km_holder] is that thread. *)
Theorem kmutex_lock_grants g t m c k th :
  reachable g -> curthr (st g) = Some t -> conts g !! t = Some (c, k) -> threads (st g) !! t = Some th ->
  c = Lock m \/ (c = LockCancellable m /\ kt_cancelled th <> 1) ->
  exists r s', k (st g) = Done r s' /\ ext s' !! m = Some (Some t) /\ (c = LockCancellable m -> r = 0).
Proof.
  intros Hr Hc Hcn Hth Hcase.
  destruct (resume_returns g t c k (good_reachable g Hr) Hc Hcn) as (r & i & th' & Hk & Hth' & Hgr & Hres).
  simplify_eq. exists r, (set_ipl i (st g)). split; [done|]. simpl.
  assert (H0 : c = LockCancellable m -> r = 0).
  { intros Hl. rewrite (Hres m Hl). destruct Hcase as [->|[_ Hn]]; [done|].
    by destruct (Z.eqb_spec (kt_cancelled th) 1). }
  split; [|done]. apply Hgr. destruct Hcase as [->|[-> _]]; auto.
Qed.

Lemma kmutex_lock_grants_witness :
  exists g k, execute [Lock 5; Yield; Lock 5; Yield; Unlock 5; Yield] start = Some g
    /\ conts g !! 11 = Some (Lock 5, k)
    /\ exists r s', k (st g) = Done r s' /\ ext s' !! 5 = Some (Some 11) /\ (Lock 5 = LockCancellable 5 -> r = 0).
Proof.
  set (l := [Lock 5; Yield; Lock 5; Yield; Unlock 5; Yield]).
  destruct (execute l start) as [g|] eqn:Hg; [|by vm_compute in Hg].
  assert (Hc : (fun g => curthr (st g)) <$> execute l start = Some (Some 11)) by (vm_compute; reflexivity).
  assert (Hk : (fun g => fst <$> conts g !! 11) <$> execute l start = Some (Some (Lock 5))) by (vm_compute; reflexivity).
  assert (Ht : (fun g => bool_decide (is_Some (threads (st g) !! 11))) <$> execute l start = Some true) by (vm_compute; reflexivity).
  rewrite Hg in Hc, Hk, Ht. simpl in Hc, Hk, Ht.
  injection Hc as Hc. injection Hk as Hk. injection Ht as Ht. apply bool_decide_eq_true in Ht as [th Ht].
  destruct (conts g !! 11) as [[c k]|] eqn:Hck; simpl in Hk; [|done]. injection Hk as ->.
  exists g, k. split; [done|]. split; [done|].
  apply (kmutex_lock_grants g 11 5 (Lock 5) k th); [by eapply execute_reachable|done..|by left].
Defined.

(** [kmutex_unlock] hands the mutex to the thread that has waited longest:
    it becomes the holder, leaves the wait queue and is the youngest thread on
    the run queue; with no waiter the mutex becomes free.  The caller keeps the
    processor. *)
Theorem kmutex_unlock_spec s m t k kr :
  sched_wf s -> curthr s = Some t -> ext s !! m = Some (Some t) -> m <> kt_runq ->
  queues s !! m = Some k -> queues s !! kt_runq = Some kr ->
  exists s', kmutex_unlock m s = Done tt s' /\ sched_wf s' /\ curthr s' = Some t
    /\ ext s' !! m = Some (last (tq_list k))
    /\ match last (tq_list k) with
       | None => queues s' = queues s
       | Some t' => exists l, tq_list k = l ++ [t'] /\ queues s' !! m = Some (mk_ktqueue l (Z.of_nat (length l)))
                    /\ queues s' !! kt_runq = Some (push t' kr)
       end.
Proof.
  intros Hwf Hc Hm Hr Hk Hkr. rewrite (run_unlock s m t k) by done.
  destruct (tq_list k) as [|t' l _] eqn:Hl using rev_ind.
  - eexists. split; [done|]. split_and!; [by apply wf_set_ext|done| |done]. simpl. by rewrite lookup_insert_eq.
  - rewrite last_snoc. destruct (run_wakeup _ _ _ _ _ Hwf Hk Hl Hr) as [_ Hwf'].
    eexists. split; [done|]. split_and!; [by apply wf_set_ext|done| |].
    + simpl. by rewrite lookup_insert_eq.
    + exists l. split; [done|]. split; [by eapply wake_queue|by eapply wake_runq].
Qed.

(** Thread 10 holds mutex 5; thread 12, then thread 11, wait for it. *)
Definition held_demo : state := {|
  threads := {[ 10 := mk_kthread 0 0 0 1 0 None KT_RUN; 11 := mk_kthread 0 0 0 2 0 (Some 5) KT_SLEEP;
                12 := mk_kthread 0 0 0 3 0 (Some 5) KT_SLEEP ]};
  queues := {[ 1 := mk_ktqueue [] 0; 5 := mk_ktqueue [11; 12] 2 ]};
  curthr := Some 10; curproc := Some 1; ipl := 0; ext := {[ 5 := Some 10 ]} |}.

Lemma kmutex_unlock_spec_witness :
  exists s', kmutex_unlock 5 held_demo = Done tt s' /\ sched_wf s' /\ ext s' !! 5 = Some (Some 12).
Proof.
  destruct (kmutex_unlock_spec held_demo 5 10 (mk_ktqueue [11; 12] 2) (mk_ktqueue [] 0)) as (s' & ? & ? & _ & ? & _).
  - by apply sched_wfb_sound.
  - done.
  - done.
  - done.
  - done.
  - done.
  - by exists s'.
Defined.

(** C40: [kmutex_lock_cancellable] can return [-EINTR] to a thread that holds
    the mutex, contrary to [kmutex.h], which promises that the thread does not
    hold it then: an unlock hands the mutex to the sleeping thread and the
    thread is cancelled before it runs again. *)
Theorem kmutex_lock_cancellable_eintr_holding :
  exists g t k s', reachable g /\ curthr (st g) = Some t
    /\ conts g !! t = Some (LockCancellable 5, k)
    /\ k (st g) = Done (- EINTR) s' /\ ext s' !! 5 = Some (Some t).
Proof.
  set (l := [Lock 5; Yield; LockCancellable 5; Yield; Unlock 5; Cancel 11; Yield]).
  destruct (execute l start) as [g|] eqn:Hg; [|by vm_compute in Hg].
  pose (check := fun g => match conts g !! 11 with
    | Some (LockCancellable 5, k) => match k (st g) with
        | Done r s => bool_decide (r = - EINTR /\ ext s !! 5 = Some (Some 11) /\ curthr (st g) = Some 11)
        | _ => false end
    | _ => false end).
  assert (Hch : check <$> execute l start = Some true) by (vm_compute; reflexivity).
  rewrite Hg in Hch. simpl in Hch. injection Hch as Hch. unfold check in Hch.
  destruct (conts g !! 11) as [[c k]|] eqn:Hk; [|done]. destruct c as [|m| | | | | |]; try done.
  destruct (decide (m = 5)) as [->|Hm]; [|by repeat (destruct m as [|m|m]; try done)].
  destruct (k (st g)) as [r s| | |] eqn:Hr; try done.
  apply bool_decide_eq_true in Hch as (-> & ? & ?).
  exists g, 11, k, s. split_and!; [by eapply execute_reachable|done..].
Qed.

End Kmutex.
