(* ===== verification/Vmmap.v ===== *)
(** * Address spaces ([kernel/vm/vmmap.c])

    A [vmmap] is a list of areas; an area maps the pages [vma_start, vma_end) of
    the address space to consecutive pages of a memory object.  Page numbers
    are [uint32_t].  Memory comes from slab allocators, which hand out objects
    at fresh addresses until memory runs out ([vm_budget]). *)

From Stdlib Require Import Sorted.
From S2P Require Import Prelude.
Local Open Scope Z_scope.
Local Open Scope kernel_scope.

Module Vmmap.

Definition PAGE_SHIFT : Z := 12.
Definition PAGE_SIZE : Z := 4096.
Definition USER_MEM_LOW : Z := 0x00400000.
Definition USER_MEM_HIGH : Z := 0xc0000000.
Definition ADDR_TO_PN (x : Z) : Z := Z.shiftr (u32 x) PAGE_SHIFT.
Definition PAGE_ALIGNED (x : Z) : bool := u32 x mod PAGE_SIZE =? 0.

Definition PROT_NONE : Z := 0.
Definition PROT_READ : Z := 1.
Definition PROT_WRITE : Z := 2.
Definition PROT_EXEC : Z := 4.
Definition MAP_SHARED : Z := 1.
Definition MAP_PRIVATE : Z := 2.
Definition VMMAP_DIR_HILO : Z := 2.

(** [struct vmarea] *)
Record vmarea : Type := mk_vmarea {
  vma_start : Z;
  vma_end : Z;
  vma_off : Z;
  vma_prot : Z;
  vma_flags : Z;
  vma_vmmap : option Z;
  vma_obj : option Z;
}.

(** [struct vmmap] *)
Record vmmap : Type := mk_vmmap { vmm_list : list Z; vmm_proc : option Z }.

(** The operations table of a memory object tells what kind of object it is. *)
Inductive mmobj_ops : Set := anon_mmobj_ops | shadow_mmobj_ops | vnode_mmobj_ops.

(** [struct mmobj]: [mmo_bottom_obj] is the union's member for shadow objects. *)
Record mmobj : Type := mk_mmobj {
  mmo_ops : mmobj_ops;
  mmo_refcount : Z;
  mmo_nrespages : Z;
  mmo_bottom_obj : option Z;
  mmo_shadowed : option Z;
}.

Record vm : Type := mk_vm {
  areas : gmap Z vmarea;
  maps : gmap Z vmmap;
  objs : gmap Z mmobj;
  vm_next : Z;
  vm_budget : nat;
}.

Definition set_areas (f : gmap Z vmarea -> gmap Z vmarea) (s : vm) : vm :=
  mk_vm (f (areas s)) (maps s) (objs s) (vm_next s) (vm_budget s).
Definition set_maps (f : gmap Z vmmap -> gmap Z vmmap) (s : vm) : vm :=
  mk_vm (areas s) (f (maps s)) (objs s) (vm_next s) (vm_budget s).
Definition set_objs (f : gmap Z mmobj -> gmap Z mmobj) (s : vm) : vm :=
  mk_vm (areas s) (maps s) (f (objs s)) (vm_next s) (vm_budget s).

Definition get_area (a : Z) : kernel vm vmarea := s <- kget ;; kderef (areas s !! a).
Definition upd_area (a : Z) (f : vmarea -> vmarea) : kernel vm unit :=
  get_area a ;;; kmodify (set_areas (alter f a)).
Definition get_map (m : Z) : kernel vm vmmap := s <- kget ;; kderef (maps s !! m).
Definition upd_list (m : Z) (f : list Z -> list Z) : kernel vm unit :=
  get_map m ;;; kmodify (set_maps (alter (fun k => mk_vmmap (f (vmm_list k)) (vmm_proc k)) m)).
Definition get_obj (o : Z) : kernel vm mmobj := s <- kget ;; kderef (objs s !! o).
Definition upd_obj (o : Z) (f : mmobj -> mmobj) : kernel vm unit :=
  get_obj o ;;; kmodify (set_objs (alter f o)).

Definition with_start (v : Z) (a : vmarea) : vmarea :=
  mk_vmarea v (vma_end a) (vma_off a) (vma_prot a) (vma_flags a) (vma_vmmap a) (vma_obj a).
Definition with_end (v : Z) (a : vmarea) : vmarea :=
  mk_vmarea (vma_start a) v (vma_off a) (vma_prot a) (vma_flags a) (vma_vmmap a) (vma_obj a).
Definition with_off (v : Z) (a : vmarea) : vmarea :=
  mk_vmarea (vma_start a) (vma_end a) v (vma_prot a) (vma_flags a) (vma_vmmap a) (vma_obj a).
Definition with_prot (v : Z) (a : vmarea) : vmarea :=
  mk_vmarea (vma_start a) (vma_end a) (vma_off a) v (vma_flags a) (vma_vmmap a) (vma_obj a).
Definition with_flags (v : Z) (a : vmarea) : vmarea :=
  mk_vmarea (vma_start a) (vma_end a) (vma_off a) (vma_prot a) v (vma_vmmap a) (vma_obj a).
Definition with_vmmap (v : option Z) (a : vmarea) : vmarea :=
  mk_vmarea (vma_start a) (vma_end a) (vma_off a) (vma_prot a) (vma_flags a) v (vma_obj a).
Definition with_obj (v : option Z) (a : vmarea) : vmarea :=
  mk_vmarea (vma_start a) (vma_end a) (vma_off a) (vma_prot a) (vma_flags a) (vma_vmmap a) v.
Definition with_refcount (v : Z) (o : mmobj) : mmobj :=
  mk_mmobj (mmo_ops o) v (mmo_nrespages o) (mmo_bottom_obj o) (mmo_shadowed o).
Definition with_shadowed (v : option Z) (o : mmobj) : mmobj :=
  mk_mmobj (mmo_ops o) (mmo_refcount o) (mmo_nrespages o) (mmo_bottom_obj o) v.
Definition with_bottom (v : option Z) (o : mmobj) : mmobj :=
  mk_mmobj (mmo_ops o) (mmo_refcount o) (mmo_nrespages o) v (mmo_shadowed o).

(** ** Lists of areas *)

(** [list_insert_before(&area->vma_plink, &new->vma_plink)] *)
Fixpoint insert_before (area new : Z) (l : list Z) : list Z :=
  match l with
  | [] => []
  | x :: l => if x =? area then new :: x :: l else x :: insert_before area new l
  end.

(** [__next] of the iteration macros: the element after [x]; [None] when [x] is not linked. *)
Fixpoint next_of (x : Z) (l : list Z) : option (option Z) :=
  match l with
  | [] => None
  | y :: l => if y =? x then Some (head l) else next_of x l
  end.

Section operations.

(** What a slab object holds when it is handed out. *)
Variable junk : vmarea.

(** [file->vn_ops->mmap]: the file system's answer and the object it stores. *)
Variable vn_mmap : Z -> Z -> kernel vm (Z * Z).

Definition slab_obj_alloc : kernel vm (option Z) :=
  s <- kget ;;
  match vm_budget s with
  | O => kret None
  | S b => kput (mk_vm (areas s) (maps s) (objs s) (vm_next s + 1) b) ;;; kret (Some (vm_next s))
  end.

Definition vmarea_alloc : kernel vm (option Z) :=
  newvma <- slab_obj_alloc ;;
  match newvma with
  | None => kret None
  | Some p => kmodify (set_areas (insert p (with_vmmap None junk))) ;;; kret (Some p)
  end.

Definition vmarea_free (vma : Z) : kernel vm unit := kmodify (set_areas (delete vma)).

Definition vmmap_create : kernel vm (option Z) :=
  newvmmap <- slab_obj_alloc ;;
  match newvmmap with
  | None => kret None
  | Some p => kmodify (set_maps (insert p (mk_vmmap [] None))) ;;; kret (Some p)
  end.

(** [anon_create] and [shadow_create] *)
Definition obj_create (ops : mmobj_ops) : kernel vm (option Z) :=
  o <- slab_obj_alloc ;;
  match o with
  | None => kret None
  | Some p =>
      kmodify (set_objs (insert p (mk_mmobj ops 0 0 None None))) ;;;
      upd_obj p (fun o => with_refcount (s32 (mmo_refcount o + 1)) o) ;;;
      kret (Some p)
  end.
Definition anon_create : kernel vm (option Z) := obj_create anon_mmobj_ops.
Definition shadow_create : kernel vm (option Z) := obj_create shadow_mmobj_ops.

(** [o->mmo_ops->ref(o)]: [anon_ref], [shadow_ref] and [vref] assert a positive
    count and increment it. *)
Definition mmo_ref (o : Z) : kernel vm unit :=
  ob <- get_obj o ;;
  kassert (0 <? mmo_refcount ob) ;;;
  upd_obj o (fun o => with_refcount (s32 (mmo_refcount o + 1)) o).

(** The scan of [vmmap_insert] for the first area that starts above [start]. *)
Fixpoint first_above (l : list Z) (start : Z) : kernel vm (option Z) :=
  match l with
  | [] => kret None
  | a :: l => ar <- get_area a ;; if vma_start ar >? start then kret (Some a) else first_above l start
  end.

Definition vmmap_insert (map newvma : Z) : kernel vm unit :=
  m <- get_map map ;;
  a <- get_area newvma ;;
  kassert (bool_decide (vma_vmmap a = None)) ;;;
  kassert (vma_start a <? vma_end a) ;;;
  kassert ((ADDR_TO_PN USER_MEM_LOW <=? vma_start a) && (vma_end a <=? ADDR_TO_PN USER_MEM_HIGH)) ;;;
  upd_area newvma (with_vmmap (Some map)) ;;;
  if negb (bool_decide (vmm_list m = [])) then
    before <- first_above (vmm_list m) (vma_start a) ;;
    match before with
    | Some area => upd_list map (insert_before area newvma)
    | None => upd_list map (fun l => l ++ [newvma])
    end
  else upd_list map (fun l => newvma :: l).

Fixpoint range_loop (l : list Z) (startvfn endvfn : Z) : kernel vm Z :=
  match l with
  | [] => kret 1
  | a :: l =>
      ar <- get_area a ;;
      if (vma_start ar >? endvfn) || (vma_end ar <=? startvfn) then range_loop l startvfn endvfn
      else kret 0
  end.

Definition vmmap_is_range_empty (map startvfn npages : Z) : kernel vm Z :=
  let endvfn := u32 (startvfn + npages) in
  kassert ((startvfn <? endvfn) && (ADDR_TO_PN USER_MEM_LOW <=? startvfn)
           && (endvfn <=? ADDR_TO_PN USER_MEM_HIGH)) ;;;
  m <- get_map map ;;
  range_loop (vmm_list m) startvfn endvfn.

(** The two scans of [vmmap_find_range]. *)
Fixpoint scan_down (l : list Z) (map npages : Z) : kernel vm Z :=
  match l with
  | [] => kret (-1)
  | a :: l =>
      ar <- get_area a ;;
      i <- vmmap_is_range_empty map (u32 (vma_start ar - npages)) (u32 (vma_start ar - 1)) ;;
      if i =? 1 then kret (s32 (vma_start ar - npages)) else scan_down l map npages
  end.
Fixpoint scan_up (l : list Z) (map npages : Z) : kernel vm Z :=
  match l with
  | [] => kret (-1)
  | a :: l =>
      ar <- get_area a ;;
      i <- vmmap_is_range_empty map (u32 (vma_end ar + 1)) (u32 (vma_end ar + npages)) ;;
      if i =? 1 then kret (s32 (vma_end ar + 1)) else scan_up l map npages
  end.

Definition vmmap_find_range (map npages dir : Z) : kernel vm Z :=
  m <- get_map map ;;
  kassert (0 <? npages) ;;;
  if negb (bool_decide (vmm_list m = [])) then
    if dir =? VMMAP_DIR_HILO then scan_down (reverse (vmm_list m)) map npages
    else scan_up (vmm_list m) map npages
  else if dir =? VMMAP_DIR_HILO then kret (s32 (ADDR_TO_PN USER_MEM_HIGH - npages + 1))
  else kret (s32 (ADDR_TO_PN USER_MEM_LOW)).

Fixpoint lookup_loop (l : list Z) (vfn : Z) : kernel vm (option Z) :=
  match l with
  | [] => kret None
  | a :: l =>
      ar <- get_area a ;;
      if (vma_start ar <=? vfn) && (vma_end ar >? vfn) then kret (Some a) else lookup_loop l vfn
  end.

Definition vmmap_lookup (map vfn : Z) : kernel vm (option Z) :=
  m <- get_map map ;; lookup_loop (vmm_list m) vfn.

(** The loop of [vmmap_clone]; [false] when an area cannot be allocated. *)
Fixpoint clone_loop (l : list Z) (newmap : Z) : kernel vm bool :=
  match l with
  | [] => kret true
  | a :: l =>
      newarea <- vmarea_alloc ;;
      match newarea with
      | None => kret false
      | Some n =>
          ar <- get_area a ;;
          upd_area n (with_start (vma_start ar)) ;;;
          upd_area n (with_end (vma_end ar)) ;;;
          upd_area n (with_off (vma_off ar)) ;;;
          upd_area n (with_prot (vma_prot ar)) ;;;
          upd_area n (with_flags (vma_flags ar)) ;;;
          vmmap_insert newmap n ;;;
          clone_loop l newmap
      end
  end.

Definition vmmap_clone (map : Z) : kernel vm (option Z) :=
  newmap <- vmmap_create ;;
  match newmap with
  | None => kret None
  | Some nm =>
      m <- get_map map ;;
      ok <- clone_loop (vmm_list m) nm ;;
      kret (if ok : bool then Some nm else None)
  end.

(** The body of the loop of [vmmap_remove]. *)
Definition remove_area (map area lopage npages : Z) : kernel vm unit :=
  let hi := u32 (lopage + npages) in
  a <- get_area area ;;
  if (vma_start a <? lopage) && (vma_end a >? hi) then
    newvma <- vmarea_alloc ;;
    newvma <- kderef newvma ;;
    upd_area newvma (with_start hi) ;;;
    upd_area newvma (with_end (vma_end a)) ;;;
    upd_area area (with_end lopage) ;;;
    upd_area newvma (with_off (u32 (vma_off a + npages))) ;;;
    upd_area newvma (with_prot (vma_prot a)) ;;;
    vmmap_insert map newvma ;;;
    upd_area newvma (with_obj (vma_obj a)) ;;;
    upd_area newvma (with_flags (vma_flags a)) ;;;
    match vma_obj a with Some o => mmo_ref o | None => kret tt end
  else if (vma_start a <? lopage) && (vma_end a <=? hi) && (vma_end a >=? lopage) then
    upd_area area (with_end lopage)
  else if (vma_start a >=? lopage) && (vma_end a >? hi) && (vma_start a <=? hi) then
    upd_area area (with_off (u32 (vma_off a + lopage + npages - vma_start a))) ;;;
    upd_area area (with_start hi)
  else if (vma_start a >=? lopage) && (vma_end a <=? hi) then
    upd_list map (filter (fun x => x <> area))
  else kret tt.

(** The iteration itself: the next element is read before the body runs. *)
Fixpoint remove_loop (fuel : nat) (map : Z) (cur : option Z) (lopage npages : Z) : kernel vm unit :=
  match cur with
  | None => kret tt
  | Some area =>
      match fuel with
      | O => fun _ => NoFuel
      | S fuel =>
          m <- get_map map ;;
          next <- kderef (next_of area (vmm_list m)) ;;
          remove_area map area lopage npages ;;;
          remove_loop fuel map next lopage npages
      end
  end.

Definition vmmap_remove (map lopage npages : Z) : kernel vm Z :=
  m <- get_map map ;;
  remove_loop (length (vmm_list m)) map (head (vmm_list m)) lopage npages ;;;
  kret 0.

(** What [vmmap_map] does once it knows where the mapping goes. *)
Definition map_at (map : Z) (file : option Z) (start npages prot flags off : Z) : kernel vm Z :=
  newarea <- vmarea_alloc ;;
  match newarea with
  | None => kret (-1)
  | Some n =>
      upd_area n (with_start (u32 start)) ;;;
      upd_area n (with_end (u32 (start + npages))) ;;;
      upd_area n (with_off (u32 off)) ;;;
      upd_area n (with_prot prot) ;;;
      upd_area n (with_flags flags) ;;;
      vmmap_insert map n ;;;
      match file with
      | Some f =>
          r <- vn_mmap f n ;;
          if fst r <? 0 then kret (fst r)
          else
            shadow <- shadow_create ;;
            match shadow with
            | Some sh =>
                upd_obj sh (with_shadowed (Some (snd r))) ;;;
                upd_obj sh (with_bottom (Some (snd r))) ;;;
                mmo_ref (snd r) ;;;
                upd_area n (with_obj (Some sh)) ;;;
                kret 0
            | None => kret 0
            end
      | None =>
          newmmobj <- (if negb (flags =? MAP_PRIVATE) then anon_create else shadow_create) ;;
          match newmmobj with
          | None => kret (-1)
          | Some o => upd_area n (with_obj (Some o)) ;;; mmo_ref o ;;; kret 0
          end
      end
  end.

(** The last parameter of the C function, [vmarea_t **new], is left out: the comment of
    the code says that the new area is stored through it, but the code only assigns
    to the parameter itself, which its caller cannot see. *)
Definition vmmap_map (map : Z) (file : option Z) (lopage npages prot flags off dir : Z) : kernel vm Z :=
  get_map map ;;;
  kassert (0 <? npages) ;;;
  kassert (Z.land (Z.lnot (Z.lor PROT_NONE (Z.lor PROT_READ (Z.lor PROT_WRITE PROT_EXEC)))) prot =? 0) ;;;
  kassert (negb (Z.land MAP_SHARED flags =? 0) || negb (Z.land MAP_PRIVATE flags =? 0)) ;;;
  kassert ((lopage =? 0) || (ADDR_TO_PN USER_MEM_LOW <=? lopage)) ;;;
  kassert ((lopage =? 0) || (u32 (lopage + npages) <=? ADDR_TO_PN USER_MEM_HIGH)) ;;;
  kassert (PAGE_ALIGNED off) ;;;
  if lopage =? 0 then
    start <- vmmap_find_range map npages dir ;;
    if start =? -1 then kret (-1) else map_at map file start npages prot flags off
  else
    empty <- vmmap_is_range_empty map lopage npages ;;
    r <- (if empty =? 0 then vmmap_remove map lopage npages else kret 0) ;;
    if negb (r =? 0) then kret (-1) else map_at map file lopage npages prot flags off.

End operations.

(** ** Well-formed address spaces *)

Definition LOW_PN : Z := 0x400.
Definition HIGH_PN : Z := 0xc0000.
Lemma user_low_pn : ADDR_TO_PN USER_MEM_LOW = LOW_PN.
Proof. done. Qed.
Lemma user_high_pn : ADDR_TO_PN USER_MEM_HIGH = HIGH_PN.
Proof. done. Qed.

Definition valid (a : vmarea) : Prop := LOW_PN <= vma_start a < vma_end a /\ vma_end a <= HIGH_PN.
Definition below (a b : vmarea) : Prop := vma_end a <= vma_start b.

(** Areas in increasing order, without overlap, inside user memory. *)
Definition ordered (l : list vmarea) : Prop := StronglySorted below l /\ Forall valid l.

(** The map at [m] lists the areas [l], which are stored at [ps]. *)
Record is_map (s : vm) (m : Z) (ps : list Z) (l : list vmarea) : Prop := {
  im_list : vmm_list <$> maps s !! m = Some ps;
  im_areas : Forall2 (fun p a => areas s !! p = Some a) ps l;
  im_nodup : NoDup ps;
}.

(** Addresses not handed out yet are not in use. *)
Definition fresh (s : vm) : Prop := forall p, is_Some (areas s !! p) -> p < vm_next s.

Definition covers (vfn : Z) (a : vmarea) : bool := (vma_start a <=? vfn) && (vfn <? vma_end a).

(** The area a page lies in. *)
Fixpoint find_area (l : list vmarea) (vfn : Z) : option vmarea :=
  match l with
  | [] => None
  | a :: l => if covers vfn a then Some a else find_area l vfn
  end.

(** ** Running the state accesses *)

Lemma run_get_area p a s : areas s !! p = Some a -> get_area p s = Done a s.
Proof. intros H. unfold get_area. kpure. by rewrite H. Qed.
Lemma run_upd_area p f a s : areas s !! p = Some a -> upd_area p f s = Done tt (set_areas (alter f p) s).
Proof. intros H. unfold upd_area. by kstep run_get_area. Qed.
Lemma run_get_map m ps l s : is_map s m ps l -> exists k, maps s !! m = Some k /\ vmm_list k = ps /\ get_map m s = Done k s.
Proof.
  intros [Hl _ _]. unfold get_map. kpure. destruct (maps s !! m) as [k|]; [|done].
  injection Hl as <-. by exists k.
Qed.
Lemma run_get_map' m k s : maps s !! m = Some k -> get_map m s = Done k s.
Proof. intros H. unfold get_map. kpure. by rewrite H. Qed.
Lemma run_upd_list m f k s : maps s !! m = Some k ->
  upd_list m f s = Done tt (set_maps (alter (fun k => mk_vmmap (f (vmm_list k)) (vmm_proc k)) m) s).
Proof. intros H. unfold upd_list. by kstep run_get_map'. Qed.
Lemma run_get_obj o ob s : objs s !! o = Some ob -> get_obj o s = Done ob s.
Proof. intros H. unfold get_obj. kpure. by rewrite H. Qed.
Lemma run_mmo_ref o ob s : objs s !! o = Some ob -> 0 < mmo_refcount ob ->
  mmo_ref o s = Done tt (set_objs (alter (fun o => with_refcount (s32 (mmo_refcount o + 1)) o) o) s).
Proof.
  intros H Hr. unfold mmo_ref. kstep run_get_obj.
  erewrite kbind_done; [|apply kassert_true; by apply Z.ltb_lt]. unfold upd_obj. by kstep run_get_obj.
Qed.

(** ** Lookup *)

Lemma lookup_loop_spec s ps l vfn :
  Forall2 (fun p a => areas s !! p = Some a) ps l ->
  exists r, lookup_loop ps vfn s = Done r s /\
    match r with
    | Some p => exists i a, ps !! i = Some p /\ l !! i = Some a /\ find_area l vfn = Some a
    | None => find_area l vfn = None
    end.
Proof.
  induction 1 as [|p a ps l Hp _ IH]; [by exists None|].
  destruct IH as (r & Hr & Hspec). cbn [lookup_loop find_area]. unfold covers.
  destruct ((vma_start a <=? vfn) && (vfn <? vma_end a)) eqn:Hc.
  - exists (Some p). kstep run_get_area. rewrite Z.gtb_ltb, Hc. split; [done|]. by exists 0%nat, a.
  - exists r. kstep run_get_area. rewrite Z.gtb_ltb, Hc. split; [done|]. destruct r as [q|]; [|done].
    destruct Hspec as (i & b & ? & ? & ?). by exists (S i), b.
Qed.

Lemma find_area_Some l vfn a : find_area l vfn = Some a -> a ∈ l /\ covers vfn a = true.
Proof. induction l as [|b l IH]; simpl; [done|]. case_match; [intros [= <-]|]; set_solver. Qed.
Lemma find_area_None l vfn a : find_area l vfn = None -> a ∈ l -> covers vfn a = false.
Proof. induction l as [|b l IH]; simpl; [set_solver|]. case_match; [done|]. set_solver. Qed.

Lemma covers_spec vfn a : covers vfn a = true <-> vma_start a <= vfn < vma_end a.
Proof. unfold covers. rewrite andb_true_iff, Z.leb_le, Z.ltb_lt. tauto. Qed.
Lemma covers_false vfn a : covers vfn a = false <-> ~ vma_start a <= vfn < vma_end a.
Proof. rewrite <- covers_spec. by destruct (covers vfn a). Qed.

(** ** Emptiness of a range *)

Definition range_clear (startvfn endvfn : Z) (a : vmarea) : bool :=
  (vma_start a >? endvfn) || (vma_end a <=? startvfn).

Lemma range_loop_spec s ps l st en :
  Forall2 (fun p a => areas s !! p = Some a) ps l ->
  range_loop ps st en s = Done (if forallb (range_clear st en) l then 1 else 0) s.
Proof.
  induction 1 as [|p a ps l Hp _ IH]; [done|]. cbn [range_loop forallb]. kstep run_get_area. unfold range_clear at 1.
  by destruct ((vma_start a >? en) || (vma_end a <=? st)).
Qed.

Lemma run_is_range_empty s m ps l st n :
  is_map s m ps l -> LOW_PN <= st -> 0 < n -> st + n <= HIGH_PN ->
  vmmap_is_range_empty m st n s = Done (if forallb (range_clear st (st + n)) l then 1 else 0) s.
Proof.
  intros Hm Hst Hn Hhi. destruct (run_get_map _ _ _ _ Hm) as (k & _ & Hk & Hrun).
  unfold vmmap_is_range_empty. unfold LOW_PN, HIGH_PN in *. rewrite u32_small by lia.
  erewrite kbind_done.
  2:{ apply kassert_true. rewrite user_low_pn, user_high_pn. unfold LOW_PN, HIGH_PN.
      rewrite !andb_true_iff, Z.ltb_lt, !Z.leb_le. lia. }
  kstep Hrun. rewrite Hk. apply range_loop_spec, Hm.
Qed.

(** ** Insertion *)

Lemma first_above_spec s ps l st :
  Forall2 (fun p a => areas s !! p = Some a) ps l ->
  (first_above ps st s = Done None s /\ Forall (fun a => vma_start a <= st) l)
  \/ exists ps1 p ps2 l1 a l2, ps = ps1 ++ p :: ps2 /\ l = l1 ++ a :: l2 /\ length ps1 = length l1
      /\ first_above ps st s = Done (Some p) s /\ Forall (fun a => vma_start a <= st) l1 /\ st < vma_start a.
Proof.
  induction 1 as [|p a ps l Hp _ IH]; [by left|]. cbn [first_above].
  destruct (vma_start a >? st) eqn:Hgt.
  - right. exists [], p, ps, [], a, l. split_and!; try done; [|lia]. kstep run_get_area. by rewrite Hgt.
  - assert (vma_start a <= st) by lia.
    destruct IH as [[Hrun Hall]|(ps1 & q & ps2 & l1 & b & l2 & -> & -> & ? & Hrun & ? & ?)].
    + left. split; [|by constructor]. kstep run_get_area. by rewrite Hgt.
    + right. exists (p :: ps1), q, ps2, (a :: l1), b, l2. split_and!; try done; simpl; [lia| |by constructor].
      kstep run_get_area. by rewrite Hgt.
Qed.

Lemma insert_before_app ps1 p x ps2 :
  p ∉ ps1 -> insert_before p x (ps1 ++ p :: ps2) = ps1 ++ x :: p :: ps2.
Proof.
  induction ps1 as [|y ps1 IH]; simpl; intros Hp; [by rewrite Z.eqb_refl|].
  destruct (Z.eqb_spec y p); [set_solver|]. f_equal. apply IH. set_solver.
Qed.

Lemma Forall2_areas_alter s x f ps l :
  x ∉ ps -> Forall2 (fun p a => areas s !! p = Some a) ps l ->
  Forall2 (fun p a => alter f x (areas s) !! p = Some a) ps l.
Proof.
  intros Hx HF.
  induction HF as [|p a ps l Hp HF IH]; [done|]. constructor; [|apply IH; set_solver].
  rewrite lookup_alter_ne; [done|set_solver].
Qed.

(** The state after [x] has been linked into the map at [m], whose list becomes [ps]. *)
Definition linked (m x : Z) (ps : list Z) (s : vm) : vm :=
  set_maps (alter (fun k => mk_vmmap ps (vmm_proc k)) m) (set_areas (alter (with_vmmap (Some m)) x) s).

Definition disjoint (a b : vmarea) : Prop := below a b \/ below b a.

Lemma ordered_insert l1 l2 a :
  ordered (l1 ++ l2) -> valid a -> Forall (disjoint a) (l1 ++ l2) ->
  Forall (fun b => vma_start b <= vma_start a) l1 ->
  (match l2 with b :: _ => vma_start a < vma_start b | [] => True end) ->
  ordered (l1 ++ a :: l2).
Proof.
  intros [Hss Hv] Ha Hd H1 H2. split; [|rewrite Forall_app in Hv |- *; naive_solver].
  rewrite Forall_app in Hd, Hv. destruct Hd as [Hd1 Hd2], Hv as [Hv1 Hv2].
  assert (Hb1 : Forall (fun b => below b a) l1).
  { rewrite !Forall_forall in *. intros b Hb. specialize (Hd1 b Hb). specialize (H1 b Hb).
    destruct Hd1; [|done]. unfold below, valid in *. specialize (Hv1 b Hb). lia. }
  assert (Hb2 : Forall (below a) l2).
  { destruct l2 as [|b l2]; [done|]. inversion Hd2 as [|? ? Hdb _]; subst.
    assert (below a b). { destruct Hdb; [done|]. unfold below, valid in *. inversion Hv2; subst. unfold valid in *. lia. }
    constructor; [done|]. clear - Hss H Hv2. induction l1 as [|c l1 IH]; [|inversion Hss; auto].
    inversion Hss as [|? ? _ Hf]; subst. inversion Hv2 as [|? ? Hvb _]; subst.
    eapply Forall_impl; [done|]. unfold below, valid in *. lia. }
  clear - Hss Hb1 Hb2. induction l1 as [|c l1 IH]; simpl in *; [by constructor|].
  inversion Hss as [|? ? Hs Hf]; subst. inversion Hb1; subst. constructor; [by apply IH|].
  rewrite Forall_app in Hf |- *. destruct Hf. split; [done|]. by constructor.
Qed.

Lemma insert_run s m ps l x a :
  is_map s m ps l -> areas s !! x = Some a -> x ∉ ps -> vma_vmmap a = None -> valid a ->
  exists ps1 ps2 l1 l2, ps = ps1 ++ ps2 /\ l = l1 ++ l2 /\ length ps1 = length l1
    /\ vmmap_insert m x s = Done tt (linked m x (ps1 ++ x :: ps2) s)
    /\ is_map (linked m x (ps1 ++ x :: ps2) s) m (ps1 ++ x :: ps2) (l1 ++ with_vmmap (Some m) a :: l2)
    /\ Forall (fun b => vma_start b <= vma_start a) l1
    /\ match l2 with b :: _ => vma_start a < vma_start b | [] => True end.
Proof.
  intros Hm Hx Hnin Hv0 [[Hlo Hlt] Hhi]. destruct (run_get_map _ _ _ _ Hm) as (k & Hk & Hkl & Hrun).
  assert (Hpre : forall g, (vmmap_insert m x s = g) <->
    ((upd_area x (with_vmmap (Some m)) ;;;
      if negb (bool_decide (vmm_list k = [])) then
        before <- first_above (vmm_list k) (vma_start a) ;;
        match before with
        | Some area => upd_list m (insert_before area x)
        | None => upd_list m (fun l => l ++ [x])
        end
      else upd_list m (fun l => x :: l)) s = g)).
  { intros g. unfold vmmap_insert. kstep Hrun. kstep run_get_area. kstep kassert_dec.
    erewrite kbind_done; [|by apply kassert_true, Z.ltb_lt].
    erewrite kbind_done; [done|]. apply kassert_true. rewrite user_low_pn, user_high_pn, andb_true_iff, !Z.leb_le. lia. }
  set (s1 := set_areas (alter (with_vmmap (Some m)) x) s).
  assert (HF : Forall2 (fun p a => areas s1 !! p = Some a) ps l) by (by apply Forall2_areas_alter, Hm).
  assert (Hx1 : areas s1 !! x = Some (with_vmmap (Some m) a)) by (simpl; by rewrite lookup_alter_eq, Hx).
  assert (Hgoal : forall ps1 ps2 l1 l2, ps = ps1 ++ ps2 -> l = l1 ++ l2 -> length ps1 = length l1 ->
    is_map (linked m x (ps1 ++ x :: ps2) s) m (ps1 ++ x :: ps2) (l1 ++ with_vmmap (Some m) a :: l2)).
  { intros ps1 ps2 l1 l2 -> -> Hlen. apply Forall2_app_inv in HF as [HF1 HF2]; [|done].
    split; [simpl; by rewrite lookup_alter_eq, Hk|by apply Forall2_app; [|constructor]|].
    apply im_nodup in Hm. rewrite NoDup_app, NoDup_cons in *. set_solver. }
  assert (Hupd : forall f ps', f ps = ps' ->
            upd_list m f s1 = Done tt (linked m x ps' s)).
  { intros f ps' <-. rewrite (run_upd_list _ _ k) by done. unfold linked, set_maps. simpl. do 2 f_equal.
    apply map_eq. intros i. rewrite !lookup_alter. case_decide; subst; [|done]. rewrite Hk. simpl. done. }
  destruct ps as [|p0 ps0] eqn:Eps.
  - exists [], [], [], []. inversion HF; subst. split_and!; try done; [|by apply (Hgoal [] [] [] [])].
    apply Hpre. kstep run_upd_area. rewrite Hkl. simpl. by apply Hupd.
  - rewrite <- Eps in *. destruct (first_above_spec s1 ps l (vma_start a) HF)
      as [[Hfa Hall]|(ps1 & p & ps2 & l1 & b & l2 & -> & -> & Hlen & Hfa & Hall & Hb)].
    + exists ps, [], l, []. rewrite !app_nil_r. split_and!; try done.
      * by eapply Forall2_length, HF.
      * apply Hpre. kstep run_upd_area. rewrite Hkl, bool_decide_eq_false_2 by (by rewrite Eps). cbn [negb].
        kstep Hfa. by apply Hupd.
      * apply Hgoal; rewrite ?app_nil_r; try done. by eapply Forall2_length, HF.
    + exists ps1, (p :: ps2), l1, (b :: l2). split_and!; try done.
      * apply Hpre. kstep run_upd_area. rewrite Hkl, bool_decide_eq_false_2 by (by destruct ps1). cbn [negb].
        kstep Hfa. apply Hupd. apply insert_before_app.
        apply im_nodup in Hm. rewrite NoDup_app in Hm. set_solver.
      * by apply Hgoal.
Qed.

(** ** Removal *)

(** What [vmmap_remove] leaves of one area. *)
Definition carve (m lo np : Z) (a : vmarea) : list vmarea :=
  let hi := lo + np in
  if (vma_start a <? lo) && (vma_end a >? hi) then
    [with_end lo a;
     mk_vmarea hi (vma_end a) (u32 (vma_off a + np)) (vma_prot a) (vma_flags a) (Some m) (vma_obj a)]
  else if (vma_start a <? lo) && (vma_end a <=? hi) && (vma_end a >=? lo) then [with_end lo a]
  else if (vma_start a >=? lo) && (vma_end a >? hi) && (vma_start a <=? hi) then
    [with_start hi (with_off (u32 (vma_off a + lo + np - vma_start a)) a)]
  else if (vma_start a >=? lo) && (vma_end a <=? hi) then []
  else [a].

(** The hole lies strictly inside the area. *)
Definition splits (lo np : Z) (a : vmarea) : bool := (vma_start a <? lo) && (vma_end a >? lo + np).

(** The objects of areas are alive. *)
Definition obj_live (s : vm) (a : vmarea) : Prop :=
  forall o, vma_obj a = Some o -> exists ob, objs s !! o = Some ob /\ 0 < mmo_refcount ob.

Lemma is_map_upd s m ps1 p ps2 l1 a l2 f :
  is_map s m (ps1 ++ p :: ps2) (l1 ++ a :: l2) -> length ps1 = length l1 ->
  is_map (set_areas (alter f p) s) m (ps1 ++ p :: ps2) (l1 ++ f a :: l2).
Proof.
  intros [Hl HF Hnd] Hlen. apply Forall2_app_inv in HF as [HF1 HF2]; [|done].
  inversion HF2 as [|? ? ? ? Hp HF3]; subst. rewrite NoDup_app, NoDup_cons in Hnd. destruct Hnd as (? & Hd & ? & ?).
  split; [done| |by rewrite NoDup_app, NoDup_cons].
  apply Forall2_app; [apply Forall2_areas_alter; [set_solver|done]|].
  constructor; [simpl; by rewrite lookup_alter_eq, Hp|]. apply Forall2_areas_alter; [set_solver|done].
Qed.

Lemma is_map_lookup s m ps1 p ps2 l1 a l2 :
  is_map s m (ps1 ++ p :: ps2) (l1 ++ a :: l2) -> length ps1 = length l1 -> areas s !! p = Some a.
Proof.
  intros [_ HF _] Hlen. apply Forall2_app_inv in HF as [_ HF2]; [|done]. by inversion HF2.
Qed.

Lemma fresh_upd f p s : fresh s -> fresh (set_areas (alter f p) s).
Proof.
  intros Hf q. simpl. rewrite lookup_alter. case_decide; subst; rewrite ?fmap_is_Some; apply Hf.
Qed.

Lemma ordered_no_covering l1 a l2 lo np :
  ordered (l1 ++ a :: l2) -> splits lo np a = true -> 0 <= np ->
  Forall (fun b => splits lo np b = false) l2.
Proof.
  intros [Hss Hv] Hsp Hnp. unfold splits in *. apply andb_true_iff in Hsp as [Hs1 Hs2].
  assert (Hb : Forall (below a) l2).
  { clear - Hss. induction l1 as [|c l1 IH]; [by inversion Hss|]. apply IH. by inversion Hss. }
  eapply Forall_impl; [exact Hb|]. intros b Hab. unfold below in *. apply andb_false_iff. left. lia.
Qed.

Section removal.
Variable junk : vmarea.

Lemma run_vmarea_alloc s b :
  vm_budget s = S b ->
  vmarea_alloc junk s = Done (Some (vm_next s))
    (mk_vm (<[vm_next s := with_vmmap None junk]> (areas s)) (maps s) (objs s) (vm_next s + 1) b).
Proof. intros Hb. unfold vmarea_alloc, slab_obj_alloc. unfold kbind, kget, obind. by rewrite Hb. Qed.

(** A list is cut in one way into elements that satisfy [P] followed by a tail
    that starts with one that does not. *)
Lemma cut_unique {A} (P : A -> Prop) (l1 l2 k1 k2 : list A) :
  l1 ++ l2 = k1 ++ k2 -> Forall P l1 -> Forall P k1 ->
  match l2 with b :: _ => ~ P b | [] => True end -> match k2 with b :: _ => ~ P b | [] => True end ->
  l1 = k1 /\ l2 = k2.
Proof.
  revert k1. induction l1 as [|x l1 IH]; intros [|y k1]; simpl; intros Heq H1 H2 H3 H4; simplify_eq; [done|..].
  - by inversion H2.
  - by inversion H1.
  - inversion H1; inversion H2; subst. by destruct (IH k1) as [-> ->].
Qed.

Lemma is_map_fresh s m ps l : is_map s m ps l -> fresh s -> vm_next s ∉ ps.
Proof.
  intros [_ HF _] Hf Hin. apply list_elem_of_lookup in Hin as [i Hi].
  destruct (Forall2_lookup_l _ _ _ _ _ HF Hi) as (a & _ & Ha).
  assert (vm_next s < vm_next s) by (apply Hf; by eexists). lia.
Qed.

(** The new area of a split, and where [vmmap_insert] puts it. *)
Lemma insert_after s m ps1 p ps2 l1 a l2 x b :
  is_map s m (ps1 ++ p :: ps2) (l1 ++ a :: l2) -> length ps1 = length l1 ->
  ordered (l1 ++ a :: l2) -> areas s !! x = Some b -> x ∉ ps1 ++ p :: ps2 -> vma_vmmap b = None ->
  valid b -> vma_end a <= vma_start b -> Forall (fun c => vma_start b < vma_start c) l2 ->
  vmmap_insert m x s = Done tt (linked m x (ps1 ++ p :: x :: ps2) s)
  /\ is_map (linked m x (ps1 ++ p :: x :: ps2) s) m (ps1 ++ p :: x :: ps2)
            (l1 ++ a :: with_vmmap (Some m) b :: l2).
Proof.
  intros Hm Hlen [Hss Hv] Hx Hnin Hvm Hval Hab Hl2.
  destruct (insert_run s m _ _ x b Hm Hx Hnin Hvm Hval)
    as (qs1 & qs2 & k1 & k2 & Hps & Hl & Hqk & Hrun & Him & Hk1 & Hk2).
  assert (Hcut : l1 ++ [a] = k1 /\ l2 = k2).
  { apply (cut_unique (fun c => vma_start c <= vma_start b)).
    - by rewrite <- app_assoc.
    - rewrite Forall_app, Forall_singleton. rewrite Forall_app in Hv. destruct Hv as [Hv1 Hv2].
      assert (Hva : valid a) by (by inversion Hv2). unfold valid in *. split; [|lia].
      clear - Hss Hva Hab Hv1. induction l1 as [|c l1 IH]; [done|]. inversion Hss as [|? ? ? Hf]; subst.
      inversion Hv1; subst. constructor; [|by apply IH]. rewrite Forall_app in Hf. destruct Hf as [_ Hf].
      inversion Hf; subst. unfold below, valid in *. lia.
    - done.
    - destruct l2 as [|c l2]; [done|]. inversion Hl2; subst. lia.
    - destruct k2; [done|lia]. }
  destruct Hcut as [<- <-].
  assert (qs1 = ps1 ++ [p] /\ qs2 = ps2) as [-> ->].
  { apply (app_inj_1 qs1 (ps1 ++ [p])); [rewrite Hqk, !length_app; simpl; lia|by rewrite <- app_assoc]. }
  rewrite <- !app_assoc in *. done.
Qed.

Lemma linked_lookup_ne m x ps s p : p <> x -> areas (linked m x ps s) !! p = areas s !! p.
Proof. intros. simpl. by rewrite lookup_alter_ne. Qed.

Lemma fresh_linked m x ps s : fresh s -> fresh (linked m x ps s).
Proof. intros Hf. by apply (fresh_upd (with_vmmap (Some m)) x) in Hf. Qed.

Definition bump (o : mmobj) : mmobj := with_refcount (s32 (mmo_refcount o + 1)) o.

Lemma is_map_frame s s' m ps l :
  is_map s m ps l -> maps s' !! m = maps s !! m ->
  (forall q, q ∈ ps -> areas s' !! q = areas s !! q) -> is_map s' m ps l.
Proof.
  intros [Hl HF Hnd] Hmaps Hq. split; [by rewrite Hmaps| |done]. clear Hl Hnd.
  induction HF as [|q c qs cs Hqc _ IH]; constructor; [rewrite Hq; [done|set_solver +]|].
  apply IH. intros q' Hq'. apply Hq. set_solver +Hq'.
Qed.

(** The first half of a split: the new area is filled in and the old one is cut. *)
Lemma split_build_run s p lo np a x c {A} (K : kernel vm A) :
  areas s !! x = Some c -> areas s !! p = Some a -> x <> p ->
  exists s', (upd_area x (with_start (lo + np)) ;;;
    upd_area x (with_end (vma_end a)) ;;;
    upd_area p (with_end lo) ;;;
    upd_area x (with_off (u32 (vma_off a + np))) ;;;
    upd_area x (with_prot (vma_prot a)) ;;; K) s = K s'
    /\ areas s' = <[x := mk_vmarea (lo + np) (vma_end a) (u32 (vma_off a + np)) (vma_prot a)
                               (vma_flags c) (vma_vmmap c) (vma_obj c)]> (<[p := with_end lo a]> (areas s))
    /\ maps s' = maps s /\ objs s' = objs s /\ vm_next s' = vm_next s /\ vm_budget s' = vm_budget s.
Proof.
  intros Hx Hp Hne. eexists. split.
  - kstep run_upd_area.
    erewrite kbind_done; [|eapply run_upd_area; simpl; rewrite lookup_alter_eq, Hx; reflexivity].
    erewrite kbind_done; [|eapply run_upd_area; simpl; rewrite !lookup_alter_ne by done; exact Hp].
    erewrite kbind_done;
      [|eapply run_upd_area; simpl; rewrite lookup_alter_ne, !lookup_alter_eq, Hx by done; reflexivity].
    erewrite kbind_done; [reflexivity|]. eapply run_upd_area. simpl.
    by rewrite lookup_alter_eq, lookup_alter_ne, !lookup_alter_eq, Hx.
  - split; [|done]. simpl. apply map_eq. intros i. destruct (decide (i = x)) as [->|Hix].
    + rewrite lookup_insert_eq, !lookup_alter_eq, lookup_alter_ne, !lookup_alter_eq, Hx by done. done.
    + rewrite lookup_insert_ne, !(lookup_alter_ne _ _ x) by done.
      destruct (decide (i = p)) as [->|Hip].
      * rewrite lookup_insert_eq, lookup_alter_eq, !lookup_alter_ne, Hp by done. done.
      * by rewrite lookup_insert_ne, !lookup_alter_ne by done.
Qed.

(** The second half: the new area is linked and takes a reference on the object. *)
Lemma split_link_run s m ps l x b o f :
  is_map s m ps l -> areas s !! x = Some b -> x ∈ ps ->
  (forall i, o = Some i -> exists ob, objs s !! i = Some ob /\ 0 < mmo_refcount ob) ->
  exists s', (upd_area x (with_obj o) ;;; upd_area x (with_flags f) ;;;
              match o with Some i => mmo_ref i | None => kret tt end) s = Done tt s'
    /\ areas s' = <[x := with_flags f (with_obj o b)]> (areas s) /\ maps s' = maps s
    /\ objs s' = match o with Some i => alter bump i (objs s) | None => objs s end
    /\ vm_next s' = vm_next s /\ vm_budget s' = vm_budget s.
Proof.
  intros Hm Hx Hin Hlive.
  set (s2 := set_areas (alter (with_flags f) x) (set_areas (alter (with_obj o) x) s)).
  assert (Hgo : forall K : kernel vm unit,
    (upd_area x (with_obj o) ;;; upd_area x (with_flags f) ;;; K) s = K s2).
  { intros K. kstep run_upd_area. erewrite kbind_done; [reflexivity|].
    eapply run_upd_area. simpl. rewrite lookup_alter_eq, Hx. reflexivity. }
  assert (Ha : areas s2 = <[x := with_flags f (with_obj o b)]> (areas s)).
  { simpl. apply map_eq. intros i. destruct (decide (i = x)) as [->|].
    - by rewrite lookup_insert_eq, !lookup_alter_eq, Hx.
    - by rewrite lookup_insert_ne, !lookup_alter_ne by done. }
  rewrite Hgo. destruct o as [i|].
  - destruct (Hlive i eq_refl) as (ob & Hob & Hpos). erewrite run_mmo_ref by done.
    eexists. split; [done|]. by split_and!.
  - eexists. split; [done|]. by split_and!.
Qed.

Lemma split_run s m ps1 p ps2 l1 a l2 lo np :
  is_map s m (ps1 ++ p :: ps2) (l1 ++ a :: l2) -> length ps1 = length l1 ->
  ordered (l1 ++ a :: l2) -> fresh s -> obj_live s a -> vm_budget s <> 0%nat ->
  0 <= np -> 0 <= lo -> lo + np < 2 ^ 32 -> splits lo np a = true ->
  exists s' x, remove_area junk m p lo np s = Done tt s' /\ fresh s' /\
    is_map s' m (ps1 ++ p :: x :: ps2) (l1 ++ carve m lo np a ++ l2) /\
    vm_budget s = S (vm_budget s') /\
    objs s' = match vma_obj a with Some o => alter bump o (objs s) | None => objs s end.
Proof.
  intros Hm Hlen Hord Hf Hlive Hb Hnp Hlo Hhi Hsp. assert (Hp := is_map_lookup _ _ _ _ _ _ _ _ Hm Hlen).
  destruct (vm_budget s) as [|b] eqn:Hbud; [done|]. set (x := vm_next s).
  assert (Hxps := is_map_fresh _ _ _ _ Hm Hf). fold x in Hxps.
  assert (Hxp : x <> p) by set_solver +Hxps.
  assert (Hspl := Hsp). unfold splits in Hsp.
  assert (Hva : valid a /\ Forall (fun c => vma_end a <= vma_start c) l2).
  { destruct Hord as [Hss Hv]. rewrite Forall_app in Hv. destruct Hv as [_ Hv]. split; [by inversion Hv|].
    clear - Hss. induction l1 as [|c l1 IH]; [by inversion Hss|]. apply IH. by inversion Hss. }
  destruct Hva as [Hva Hl2]. apply andb_true_iff in Hsp as [Hs1 Hs2].
  set (s0 := mk_vm (<[x := with_vmmap None junk]> (areas s)) (maps s) (objs s) (x + 1) b).
  destruct (split_build_run s0 p lo np a x (with_vmmap None junk)
    (kbind (vmmap_insert m x) (fun _ => kbind (upd_area x (with_obj (vma_obj a))) (fun _ =>
       kbind (upd_area x (with_flags (vma_flags a))) (fun _ =>
         match vma_obj a with Some o => mmo_ref o | None => kret tt end)))))
    as (s1 & Hrun1 & Ha1 & Hm1 & Ho1 & Hn1 & Hb1);
    [apply lookup_insert_eq|simpl; by rewrite lookup_insert_ne by done|done|].
  set (nb := mk_vmarea (lo + np) (vma_end a) (u32 (vma_off a + np)) (vma_prot a) _ _ _) in Ha1.
  assert (Him1 : is_map s1 m (ps1 ++ p :: ps2) (l1 ++ with_end lo a :: l2)).
  { eapply is_map_frame; [apply (is_map_upd _ _ _ _ _ _ _ _ (with_end lo) Hm Hlen)|by rewrite Hm1|].
    intros q Hq. rewrite Ha1. simpl. rewrite lookup_insert_ne by (intros <-; done).
    destruct (decide (q = p)) as [->|]; [by rewrite lookup_insert_eq, lookup_alter_eq, Hp|].
    rewrite lookup_insert_ne, lookup_alter_ne, lookup_insert_ne by (done || intros <-; done). done. }
  destruct (insert_after s1 m ps1 p ps2 l1 (with_end lo a) l2 x nb) as [Hrun2 Him2];
    [done|done| |by rewrite Ha1, lookup_insert_eq|done|done| |simpl; lia| |].
  { destruct Hord as [Hss Hv]. unfold valid in *. split.
    - clear - Hss Hs1 Hs2 Hnp. induction l1 as [|c l1 IH]; simpl in *; inversion Hss as [|? ? Hs' Hf']; subst.
      + constructor; [done|]. eapply Forall_impl; [exact Hf'|]. unfold below. simpl. lia.
      + constructor; [by apply IH|]. rewrite Forall_app, Forall_cons in Hf' |- *. naive_solver.
    - rewrite Forall_app, Forall_cons in Hv |- *. destruct Hv as (? & ? & ?). split_and!; [done| |done].
      unfold valid in *. simpl. lia. }
  { unfold valid in *. simpl. lia. }
  { eapply Forall_impl; [exact Hl2|]. simpl. lia. }
  destruct (split_link_run _ m _ _ x (with_vmmap (Some m) nb) (vma_obj a) (vma_flags a) Him2)
    as (s3 & Hrun3 & Ha3 & Hm3 & Ho3 & Hn3 & Hb3).
  { simpl. by rewrite lookup_alter_eq, Ha1, lookup_insert_eq. }
  { set_solver +. }
  { intros o Ho. simpl. rewrite Ho1. by apply Hlive. }
  exists s3, x. split_and!.
  - unfold remove_area. rewrite u32_small by lia. kstep run_get_area. unfold splits in Hspl. rewrite Hspl.
    erewrite kbind_done; [|by apply run_vmarea_alloc]. cbn beta.
    erewrite kbind_done; [|by apply kderef_Some]. cbn beta. fold x. fold s0. rewrite Hrun1.
    kstep Hrun2. exact Hrun3.
  - intros q Hq. rewrite Hn3. simpl. rewrite Hn1. simpl. rewrite Ha3 in Hq. simpl in Hq.
    destruct (decide (q = x)) as [->|Hqx]; [lia|].
    rewrite lookup_insert_ne, lookup_alter_ne, Ha1, lookup_insert_ne in Hq by done. simpl in Hq.
    destruct (decide (q = p)) as [->|Hqp].
    + assert (p < vm_next s) by (apply Hf; by eexists). subst x. lia.
    + rewrite !lookup_insert_ne in Hq by done. apply Hf in Hq. subst x. lia.
  - unfold carve. unfold splits in Hspl. rewrite Hspl. simpl.
    replace (mk_vmarea (lo + np) _ _ _ _ (Some m) (vma_obj a))
      with (with_flags (vma_flags a) (with_obj (vma_obj a) (with_vmmap (Some m) nb))) by done.
    assert (Him3 : is_map (linked m x (ps1 ++ p :: x :: ps2) s1) m ((ps1 ++ [p]) ++ x :: ps2)
                     ((l1 ++ [with_end lo a]) ++ with_vmmap (Some m) nb :: l2)) by (by rewrite <- !app_assoc).
    apply (is_map_upd _ _ _ _ _ _ _ _ (fun c => with_flags (vma_flags a) (with_obj (vma_obj a) c))) in Him3;
      [|rewrite !length_app; simpl; lia].
    rewrite <- !app_assoc in Him3. eapply is_map_frame; [exact Him3|by rewrite Hm3|].
    intros q Hq. rewrite Ha3. simpl. destruct (decide (q = x)) as [->|Hqx].
    + by rewrite lookup_insert_eq, !lookup_alter_eq, Ha1, lookup_insert_eq.
    + by rewrite lookup_insert_ne, !lookup_alter_ne by done.
  - rewrite Hb3. simpl. by rewrite Hb1.
  - rewrite Ho3. simpl. by rewrite Ho1.
Qed.

(** An area can be carved: if it has to be split there is memory and its object is alive. *)
Definition ready (s : vm) (lo np : Z) (a : vmarea) : Prop :=
  splits lo np a = true -> vm_budget s <> 0%nat /\ obj_live s a.

Lemma remove_area_run s m ps1 p ps2 l1 a l2 lo np :
  is_map s m (ps1 ++ p :: ps2) (l1 ++ a :: l2) -> length ps1 = length l1 ->
  ordered (l1 ++ a :: l2) -> fresh s -> ready s lo np a ->
  0 <= np -> 0 <= lo -> lo + np < 2 ^ 32 ->
  exists s' qs, remove_area junk m p lo np s = Done tt s' /\ fresh s' /\
    is_map s' m (ps1 ++ qs ++ ps2) (l1 ++ carve m lo np a ++ l2) /\
    length qs = length (carve m lo np a) /\
    (vm_budget s <= S (vm_budget s'))%nat /\
    (splits lo np a = false -> vm_budget s' = vm_budget s /\ objs s' = objs s).
Proof.
  intros Hm Hlen Hord Hf Hr Hnp Hlo Hhi. destruct (splits lo np a) eqn:Hsp.
  - destruct (Hr Hsp) as [Hb Hlive].
    destruct (split_run s m ps1 p ps2 l1 a l2 lo np) as (s' & x & Hrun & Hf' & Hm' & Hb' & _); try done.
    exists s', [p; x]. split_and!; try done; [|lia]. unfold carve. unfold splits in Hsp. by rewrite Hsp.
  - assert (Hp := is_map_lookup _ _ _ _ _ _ _ _ Hm Hlen). unfold splits in Hsp.
    unfold remove_area, carve. rewrite u32_small by lia. kstep run_get_area. rewrite Hsp.
    destruct ((vma_start a <? lo) && (vma_end a <=? lo + np) && (vma_end a >=? lo)).
    { eexists _, [p]. erewrite run_upd_area by done. split_and!; try done; [by apply fresh_upd| |simpl; lia].
      by apply (is_map_upd _ _ _ _ _ _ _ _ (with_end lo)). }
    destruct ((vma_start a >=? lo) && (vma_end a >? lo + np) && (vma_start a <=? lo + np)).
    { set (off := u32 _). kstep run_upd_area.
      erewrite run_upd_area; [|simpl; rewrite lookup_alter_eq, Hp; reflexivity].
      eexists _, [p]. split; [done|]. split; [by repeat apply fresh_upd|]. split; [|split_and!; try done; simpl; lia].
      apply (is_map_upd _ _ _ _ _ _ _ _ (with_start (lo + np)));
        [by apply (is_map_upd _ _ _ _ _ _ _ _ (with_off off))|done]. }
    destruct ((vma_start a >=? lo) && (vma_end a <=? lo + np)); [|eexists s, [p]; split_and!; try done; lia].
    destruct (run_get_map _ _ _ _ Hm) as (k & Hk & Hkl & _). erewrite run_upd_list by done.
    eexists _, []. split; [done|]. split; [done|]. split; [|split_and!; try done; simpl; lia]. simpl.
    destruct Hm as [_ HF Hnd]. apply Forall2_app_inv in HF as [HF1 HF2]; [|done].
    inversion HF2; subst. rewrite NoDup_app, NoDup_cons in Hnd. destruct Hnd as (? & Hd & Hp2 & ?).
    split; [|by apply Forall2_app|rewrite NoDup_app; set_solver +H H0 Hd].
    simpl. rewrite lookup_alter_eq, Hk. simpl. rewrite Hkl. f_equal.
    rewrite filter_app, filter_cons, decide_False by naive_solver.
    rewrite !list_filter_all; [done|set_solver +Hp2|set_solver +Hd].
Qed.

Lemma carve_ordered m lo np l1 a l2 :
  0 <= np -> ordered (l1 ++ a :: l2) -> ordered (l1 ++ carve m lo np a ++ l2).
Proof.
  intros Hnp [Hss Hv]. rewrite Forall_app, Forall_cons in Hv. destruct Hv as (Hv1 & Hva & Hv2).
  assert (Hin : Forall (fun c => vma_start a <= vma_start c /\ vma_end c <= vma_end a /\ valid c) (carve m lo np a)
                /\ StronglySorted below (carve m lo np a)).
  { unfold carve, valid in *. repeat case_match; split;
      repeat (constructor || split); unfold below; simpl in *; lia. }
  destruct Hin as [Hin Hcs]. split.
  - revert Hss Hv1. induction l1 as [|c l1 IH]; simpl; intros Hss Hv1.
    + inversion Hss as [|? ? Hs2 Hf2]; subst. clear - Hin Hcs Hs2 Hf2.
      induction (carve m lo np a) as [|d ds IHd]; [done|]. simpl. inversion Hin as [|? ? Hd Hds]; subst.
      inversion Hcs; subst. constructor; [by apply IHd|]. rewrite Forall_app. split; [done|].
      eapply Forall_impl; [exact Hf2|]. unfold below. naive_solver lia.
    + inversion Hss as [|? ? Hs2 Hf2]; subst. inversion Hv1; subst. constructor; [by apply IH|].
      rewrite !Forall_app, Forall_cons in *. destruct Hf2 as (? & Hca & ?). split_and!; try done.
      eapply Forall_impl; [exact Hin|]. unfold below in *. naive_solver lia.
  - rewrite !Forall_app. split_and!; try done. eapply Forall_impl; [exact Hin|]. naive_solver.
Qed.

Lemma next_of_app ps1 p ps2 : p ∉ ps1 -> next_of p (ps1 ++ p :: ps2) = Some (head ps2).
Proof.
  induction ps1 as [|y ps1 IH]; simpl; intros Hp; [by rewrite Z.eqb_refl|].
  destruct (Z.eqb_spec y p); [set_solver|]. apply IH. set_solver.
Qed.

Lemma remove_loop_run m lo np ps2 : forall s ps1 l1 l2,
  is_map s m (ps1 ++ ps2) (l1 ++ l2) -> length ps1 = length l1 -> ordered (l1 ++ l2) ->
  fresh s -> Forall (ready s lo np) l2 -> 0 <= np -> 0 <= lo -> lo + np < 2 ^ 32 ->
  exists s' qs, remove_loop junk (length ps2) m (head ps2) lo np s = Done tt s' /\ fresh s' /\
    is_map s' m (ps1 ++ qs) (l1 ++ flat_map (carve m lo np) l2) /\
    ordered (l1 ++ flat_map (carve m lo np) l2) /\ (vm_budget s <= S (vm_budget s'))%nat /\
    (Forall (fun a => splits lo np a = false) l2 -> vm_budget s' = vm_budget s).
Proof.
  induction ps2 as [|p ps2 IH]; intros s ps1 l1 l2 Hm Hlen Hord Hf Hr Hnp Hlo Hhi.
  - assert (l2 = []) as ->.
    { apply im_areas, Forall2_length in Hm. rewrite !length_app in Hm. destruct l2; [done|simpl in *; lia]. }
    exists s, []. split_and!; try done; lia.
  - destruct l2 as [|a l2].
    { apply im_areas, Forall2_length in Hm. rewrite !length_app in Hm. simpl in *. lia. }
    apply Forall_cons in Hr as [Hra Hr].
    destruct (remove_area_run s m ps1 p ps2 l1 a l2 lo np) as (s1 & qs & Hrun & Hf1 & Hm1 & Hql & Hbd & Hsame); try done.
    assert (Hord1 := carve_ordered m lo np l1 a l2 Hnp Hord).
    assert (Hnos : splits lo np a = true -> Forall (fun b => splits lo np b = false) l2).
    { intros Hsp. by eapply ordered_no_covering. }
    assert (Hr1 : Forall (ready s1 lo np) l2).
    { destruct (splits lo np a) eqn:Hsp.
      - eapply Forall_impl; [by apply Hnos|]. intros b Hb Hb'. congruence.
      - destruct (Hsame eq_refl) as [Hbud Hobj]. eapply Forall_impl; [exact Hr|].
        intros b Hb Hb'. destruct (Hb Hb') as [? Hl]. split; [congruence|]. intros o Ho. rewrite Hobj. by apply Hl. }
    destruct (IH s1 (ps1 ++ qs) (l1 ++ carve m lo np a) l2) as (s' & qs' & Hrun' & Hf' & Hm' & Hord' & Hbd' & Hsame');
      [by rewrite <- !app_assoc|rewrite !length_app; lia|by rewrite <- app_assoc|done..|].
    exists s', (qs ++ qs'). rewrite <- !app_assoc in *. split_and!; try done.
    2:{ destruct (splits lo np a) eqn:Hsp; [rewrite Hsame' by auto; lia|].
        destruct (Hsame eq_refl) as [<- _]. lia. }
    2:{ intros [Ha Hall]%Forall_cons. destruct (Hsame Ha) as [<- _]. auto. }
    destruct (run_get_map _ _ _ _ Hm) as (k & _ & Hkl & Hget).
    cbn [length head remove_loop]. kstep Hget. rewrite Hkl.
    erewrite kbind_done.
    2:{ apply kderef_Some, next_of_app. apply im_nodup in Hm. rewrite NoDup_app in Hm. set_solver +Hm. }
    cbn beta. by kstep Hrun.
Qed.

Lemma remove_run m lo np s ps l :
  is_map s m ps l -> ordered l -> fresh s -> Forall (ready s lo np) l ->
  0 <= np -> 0 <= lo -> lo + np < 2 ^ 32 ->
  exists s' qs, vmmap_remove junk m lo np s = Done 0 s' /\ fresh s' /\
    is_map s' m qs (flat_map (carve m lo np) l) /\ ordered (flat_map (carve m lo np) l)
    /\ (vm_budget s <= S (vm_budget s'))%nat.
Proof.
  intros Hm Hord Hf Hr Hnp Hlo Hhi.
  destruct (remove_loop_run m lo np ps s [] [] l) as (s' & qs & Hrun & ? & ? & ? & ? & _); try done.
  exists s', qs. split_and!; try done. destruct (run_get_map _ _ _ _ Hm) as (k & _ & Hkl & Hget).
  unfold vmmap_remove. kstep Hget. rewrite Hkl. by kstep Hrun.
Qed.

End removal.

(** ** Pages *)

(** What a page is mapped to: object, protection and flags. *)
Definition attrs (l : list vmarea) (vfn : Z) : option (option Z * Z * Z) :=
  (fun a => (vma_obj a, vma_prot a, vma_flags a)) <$> find_area l vfn.

(** Which page of the object it is. *)
Definition obj_page (l : list vmarea) (vfn : Z) : option Z :=
  (fun a => u32 (vma_off a + (vfn - vma_start a))) <$> find_area l vfn.

Lemma find_area_app l1 l2 vfn :
  find_area (l1 ++ l2) vfn = match find_area l1 vfn with Some a => Some a | None => find_area l2 vfn end.
Proof. induction l1 as [|a l1 IH]; [done|]. simpl. by destruct (covers vfn a). Qed.

Lemma find_area_carve m lo np a vfn :
  0 <= np -> valid a ->
  if (lo <=? vfn) && (vfn <? lo + np) || negb (covers vfn a) then find_area (carve m lo np a) vfn = None
  else exists b, find_area (carve m lo np a) vfn = Some b
         /\ vma_obj b = vma_obj a /\ vma_prot b = vma_prot a /\ vma_flags b = vma_flags a
         /\ u32 (vma_off b + (vfn - vma_start b)) =
            u32 (vma_off a + (vfn - vma_start a) - if splits lo np a && (lo + np <=? vfn) then lo - vma_start a else 0).
Proof.
  intros Hnp Hv. unfold valid, carve, splits, covers in *.
  destruct (vma_start a <? lo) eqn:E1, (vma_end a >? lo + np) eqn:E2, (vma_end a <=? lo + np) eqn:E3,
    (vma_end a >=? lo) eqn:E4, (vma_start a >=? lo) eqn:E5, (vma_start a <=? lo + np) eqn:E6;
    simpl; try (exfalso; lia);
    destruct (vma_start a <=? vfn) eqn:E7, (vfn <? vma_end a) eqn:E8, (lo <=? vfn) eqn:E9, (vfn <? lo + np) eqn:E10;
    unfold covers; simpl; rewrite ?E7, ?E8; simpl; try (exfalso; lia); try done;
    repeat match goal with
    | |- context [?x <=? ?y] => destruct (Z.leb_spec x y); simpl; try (exfalso; lia)
    | |- context [?x <? ?y] => destruct (Z.ltb_spec x y); simpl; try (exfalso; lia)
    end; try done;
    (eexists; split; [reflexivity|]; simpl; split_and!; try done;
     unfold u32; rewrite ?Zplus_mod_idemp_l; f_equal; lia).
Qed.

Lemma attrs_carve m lo np l vfn :
  0 <= np -> Forall valid l ->
  attrs (flat_map (carve m lo np) l) vfn = if (lo <=? vfn) && (vfn <? lo + np) then None else attrs l vfn.
Proof.
  intros Hnp. unfold attrs. induction 1 as [|a l Ha _ IH]; simpl; [by case_match|].
  rewrite find_area_app. assert (Hc := find_area_carve m lo np a vfn Hnp Ha).
  destruct ((lo <=? vfn) && (vfn <? lo + np)) eqn:Hin; simpl in Hc.
  - rewrite Hc. exact IH.
  - destruct (covers vfn a); simpl in Hc; [|by rewrite Hc].
    destruct Hc as (b & -> & ? & ? & ? & _). simpl. congruence.
Qed.

Lemma obj_page_carve m lo np l vfn a :
  0 <= np -> ordered l -> find_area l vfn = Some a -> ~ lo <= vfn < lo + np ->
  obj_page (flat_map (carve m lo np) l) vfn
  = Some (u32 (vma_off a + (vfn - vma_start a) - if splits lo np a && (lo + np <=? vfn) then lo - vma_start a else 0)).
Proof.
  intros Hnp [_ Hv] Hfind Hout. unfold obj_page. induction Hv as [|b l Hb _ IH]; simpl in *; [done|].
  rewrite find_area_app. assert (Hc := find_area_carve m lo np b vfn Hnp Hb).
  destruct ((lo <=? vfn) && (vfn <? lo + np)) eqn:Hin; [exfalso; lia|]. simpl in Hc.
  destruct (covers vfn b); simpl in Hc.
  - injection Hfind as ->. destruct Hc as (c & -> & _ & _ & _ & Hoff). simpl. by rewrite Hoff.
  - rewrite Hc. by apply IH.
Qed.

(** ** Searching for a range *)

Lemma range_empty_cases s m ps l st n :
  is_map s m ps l ->
  vmmap_is_range_empty m st n s = Panic
  \/ (st < u32 (st + n) /\ LOW_PN <= st /\ u32 (st + n) <= HIGH_PN
      /\ vmmap_is_range_empty m st n s = Done (if forallb (range_clear st (u32 (st + n))) l then 1 else 0) s).
Proof.
  intros Hm. destruct (run_get_map _ _ _ _ Hm) as (k & _ & Hk & Hrun).
  unfold vmmap_is_range_empty. rewrite user_low_pn, user_high_pn.
  destruct ((st <? u32 (st + n)) && (LOW_PN <=? st) && (u32 (st + n) <=? HIGH_PN)) eqn:Hc.
  - right. rewrite !andb_true_iff, Z.ltb_lt, !Z.leb_le in Hc. split_and!; [lia..|].
    erewrite kbind_done; [|done]. kstep Hrun. rewrite Hk. apply range_loop_spec, Hm.
  - left. by apply kbind_panic.
Qed.

Lemma scan_down_fails s m ps l qs ks n :
  is_map s m ps l -> Forall valid l -> 0 < n <= 2 ^ 20 ->
  Forall2 (fun p a => areas s !! p = Some a) qs ks -> (forall a, a ∈ ks -> a ∈ l) ->
  scan_down qs m n s = Panic \/ scan_down qs m n s = Done (-1) s.
Proof.
  intros Hm Hv Hn HF Hsub. induction HF as [|q a qs ks Hq _ IH]; [by right|]. cbn [scan_down].
  assert (Ha : a ∈ l) by (apply Hsub; set_solver +).
  assert (Hva : valid a) by (by eapply Forall_forall). unfold valid, LOW_PN, HIGH_PN in Hva.
  destruct (range_empty_cases s m ps l (u32 (vma_start a - n)) (u32 (vma_start a - 1)) Hm) as [Hp|(H1 & H2 & H3 & Hd)].
  - left. kstep run_get_area. by apply kbind_panic.
  - assert (Hfalse : forallb (range_clear (u32 (vma_start a - n))
              (u32 (u32 (vma_start a - n) + u32 (vma_start a - 1)))) l = false).
    { apply not_true_iff_false. rewrite forallb_forall. intros Hall.
      specialize (Hall a (proj1 (list_elem_of_In _ _) Ha)).
      assert (Hs1 : u32 (vma_start a - 1) = vma_start a - 1) by (apply u32_small; lia).
      rewrite Hs1 in *. set (x := u32 (vma_start a - n)) in *.
      assert (Hx : 0 <= x < 2 ^ 32) by apply u32_range. unfold LOW_PN, HIGH_PN in *.
      assert (Hsum : u32 (x + (vma_start a - 1)) = x + (vma_start a - 1) \/
                     u32 (x + (vma_start a - 1)) = x + (vma_start a - 1) - 2 ^ 32).
      { unfold u32. destruct (Z_lt_ge_dec (x + (vma_start a - 1)) (2 ^ 32)).
        - left. apply Z.mod_small. lia.
        - right. symmetry. apply Z.mod_unique with 1; lia. }
      unfold range_clear in Hall. apply orb_true_iff in Hall. 
      assert (Hxs : x <= vma_start a \/ 2 ^ 32 - n < x).
      { subst x. unfold u32. destruct (Z_le_gt_dec 0 (vma_start a - n)).
        - left. rewrite Z.mod_small; lia.
        - right. rewrite <- (Z.mod_add _ 1), Z.mod_small; lia. }
      destruct Hall as [Hg|Hg]; destruct Hxs; lia. }
    destruct IH as [IH|IH]; [intros; apply Hsub; set_solver|..]; [left|right]; kstep run_get_area;
      kstep Hd; rewrite Hfalse; simpl; done.
Qed.

(** ** Mapping at a fixed address *)

Section mapping.
Variable junk : vmarea.
Variable vn_mmap : Z -> Z -> kernel vm (Z * Z).

Lemma run_slab s b : vm_budget s = S b ->
  slab_obj_alloc s = Done (Some (vm_next s)) (mk_vm (areas s) (maps s) (objs s) (vm_next s + 1) b).
Proof. intros Hb. unfold slab_obj_alloc, kbind, kget, obind. by rewrite Hb. Qed.





Lemma range_clear_spec st en a : range_clear st en a = true -> en < vma_start a \/ vma_end a <= st.
Proof. unfold range_clear. rewrite orb_true_iff. lia. Qed.


End mapping.

(** ** Example *)

Definition no_mmap : Z -> Z -> kernel vm (Z * Z) := fun _ _ => kret (- EINVAL, 0).
Definition junk0 : vmarea := mk_vmarea 0 0 0 0 0 None None.

(** Two areas of the map at 9: pages 0x500-0x50f and 0x600-0x60f. *)
Definition area_a : vmarea := mk_vmarea 0x500 0x510 3 PROT_READ MAP_SHARED (Some 9) (Some 30).
Definition area_b : vmarea := mk_vmarea 0x600 0x610 0 PROT_WRITE MAP_PRIVATE (Some 9) (Some 31).
Definition vm_demo : vm := {|
  areas := {[ 20 := area_a; 21 := area_b ]};
  maps := {[ 9 := mk_vmmap [20; 21] None ]};
  objs := {[ 30 := mk_mmobj anon_mmobj_ops 1 0 None None; 31 := mk_mmobj anon_mmobj_ops 1 0 None None ]};
  vm_next := 40; vm_budget := 10 |}.

Lemma demo_is_map : is_map vm_demo 9 [20; 21] [area_a; area_b].
Proof. split; [done|repeat (apply List.Forall2_cons; [reflexivity|]); apply List.Forall2_nil|by apply (bool_decide_unpack _)]. Qed.
Lemma demo_ordered : ordered [area_a; area_b].
Proof.
  split; [|by repeat apply Forall_cons_2; try apply Forall_nil_2].
  repeat apply SSorted_cons; try apply SSorted_nil; by repeat apply Forall_cons_2; try apply Forall_nil_2.
Qed.
Lemma demo_fresh : fresh vm_demo.
Proof.
  intros p. change (is_Some (({[ 20 := area_a; 21 := area_b ]} : gmap Z vmarea) !! p) -> p < 40).
  rewrite lookup_insert_is_Some, lookup_singleton_is_Some. lia.
Qed.
Lemma demo_ready lo np : Forall (ready vm_demo lo np) [area_a; area_b].
Proof.
  repeat apply Forall_cons_2; try apply Forall_nil_2; (split; [done|]); intros o [= <-];
    eexists; split; try reflexivity; done.
Qed.

(** ** Properties *)

(** [vmmap_lookup] finds the area a page lies in, and there is only one:
    it returns the address of the area that covers the page, and [NULL] exactly
    when no area does. *)
Theorem vmmap_lookup_spec s m ps l vfn :
  is_map s m ps l -> ordered l ->
  exists r, vmmap_lookup m vfn s = Done r s /\
    match r with
    | Some p => exists i a, ps !! i = Some p /\ l !! i = Some a /\ vma_start a <= vfn < vma_end a
                  /\ forall j b, l !! j = Some b -> vma_start b <= vfn < vma_end b -> j = i
    | None => forall a, a ∈ l -> ~ vma_start a <= vfn < vma_end a
    end.
Proof.
  intros Hm [Hss _]. destruct (lookup_loop_spec s ps l vfn (im_areas _ _ _ _ Hm)) as (r & Hr & Hspec).
  exists r. split.
  { destruct (run_get_map _ _ _ _ Hm) as (k & _ & Hk & Hrun). unfold vmmap_lookup. kstep Hrun. by rewrite Hk. }
  destruct r as [p|].
  - destruct Hspec as (i & a & Hi & Ha & [_ Hc%covers_spec]%find_area_Some). exists i, a. split_and!; [done..|lia|lia|].
    assert (Hlt : forall i j a b, (i < j)%nat -> l !! i = Some a -> l !! j = Some b -> below a b).
    { clear - Hss. induction Hss as [|c l _ IH Hf]; [done|]. intros [|i] [|j] a b Hij Ha Hb; simpl in *; try lia.
      - injection Ha as <-. rewrite Forall_forall in Hf. eapply Hf, list_elem_of_lookup_2, Hb.
      - eapply IH; [|done..]. lia. }
    intros j b Hb Hbc. destruct (Nat.lt_trichotomy i j) as [H|[H|H]]; [|done|];
      [pose proof (Hlt i j a b H Ha Hb) as Hbel|pose proof (Hlt j i b a H Hb Ha) as Hbel]; unfold below in Hbel; lia.
  - intros a Ha Hc. apply covers_spec in Hc. by rewrite (find_area_None _ _ _ Hspec Ha) in Hc.
Qed.

Lemma vmmap_lookup_spec_witness :
  exists r, vmmap_lookup 9 0x605 vm_demo = Done r vm_demo /\ r = Some 21.
Proof.
  destruct (vmmap_lookup_spec vm_demo 9 _ _ 0x605 demo_is_map demo_ordered) as (r & Hr & _).
  exists r. split; [done|]. assert (H : vmmap_lookup 9 0x605 vm_demo = Done (Some 21) vm_demo) by done. congruence.
Defined.

(** [vmmap_insert] of a valid area that overlaps no other keeps the list
    sorted and free of overlap, and adds exactly that area. *)
Theorem vmmap_insert_spec s m ps l x a :
  is_map s m ps l -> ordered l -> areas s !! x = Some a -> x ∉ ps -> vma_vmmap a = None -> valid a ->
  Forall (disjoint a) l ->
  exists s' qs l', vmmap_insert m x s = Done tt s' /\ is_map s' m qs l' /\ ordered l'
    /\ l' ≡ₚ with_vmmap (Some m) a :: l /\ qs ≡ₚ x :: ps.
Proof.
  intros Hm Hord Hx Hnin Hv0 Hv Hd.
  destruct (insert_run s m ps l x a) as (ps1 & ps2 & l1 & l2 & -> & -> & _ & Hrun & Him & H1 & H2); [done..|].
  eexists _, _, _. split; [done|]. split; [exact Him|]. split; [|split; by rewrite Permutation_middle].
  by apply ordered_insert.
Qed.

Lemma vmmap_insert_spec_witness :
  exists s' qs l', vmmap_insert 9 22 (set_areas (insert 22 (mk_vmarea 0x520 0x530 0 1 1 None None)) vm_demo) = Done tt s'
    /\ is_map s' 9 qs l' /\ ordered l'.
Proof.
  destruct (vmmap_insert_spec (set_areas (insert 22 (mk_vmarea 0x520 0x530 0 1 1 None None)) vm_demo) 9 [20; 21]
              [area_a; area_b] 22 (mk_vmarea 0x520 0x530 0 1 1 None None)) as (s' & qs & l' & ? & ? & ? & _).
  - split; [done|repeat (apply List.Forall2_cons; [reflexivity|]); apply List.Forall2_nil|by apply (bool_decide_unpack _)].
  - apply demo_ordered.
  - done.
  - set_solver.
  - done.
  - done.
  - apply Forall_cons_2; [by right|]. apply Forall_cons_2; [by left|apply Forall_nil_2].
  - by exists s', qs, l'.
Defined.

(** C32: [vmmap_remove] unmaps exactly the given pages.  On a well-formed map it
    returns 0 and leaves a well-formed map in which no page of the range is
    mapped and every other page keeps its object, protection and flags. *)
Theorem vmmap_remove_spec junk s m ps l lo np :
  is_map s m ps l -> ordered l -> fresh s -> Forall (ready s lo np) l ->
  0 <= np -> 0 <= lo -> lo + np < 2 ^ 32 ->
  exists s' qs l', vmmap_remove junk m lo np s = Done 0 s' /\ is_map s' m qs l' /\ ordered l'
    /\ forall vfn, attrs l' vfn = if (lo <=? vfn) && (vfn <? lo + np) then None else attrs l vfn.
Proof.
  intros Hm Hord Hf Hr Hnp Hlo Hhi.
  destruct (remove_run junk m lo np s ps l) as (s' & qs & Hrun & _ & Him & Hord' & _); [done..|].
  exists s', qs, (flat_map (carve m lo np) l). split_and!; [done..|].
  intros vfn. apply attrs_carve; [done|apply Hord].
Qed.

Lemma vmmap_remove_spec_witness :
  exists s' qs l', vmmap_remove junk0 9 0x504 0x100 vm_demo = Done 0 s' /\ is_map s' 9 qs l' /\ ordered l'
    /\ attrs l' 0x505 = None.
Proof.
  destruct (vmmap_remove_spec junk0 vm_demo 9 _ _ 0x504 0x100 demo_is_map demo_ordered demo_fresh (demo_ready _ _))
    as (s' & qs & l' & ? & ? & ? & Ha); [done..|].
  exists s', qs, l'. split_and!; [done..|]. by rewrite Ha.
Defined.

(** when [vmmap_remove] splits an area, the pages above the hole are
    mapped to the wrong page of the object: their offset is too small by the
    number of pages below the hole, which is never zero.  [vma_off] of the new
    area is [vma_off + npages] and not [vma_off + lopage + npages - vma_start]. *)
Theorem vmmap_remove_split_offset junk s m ps l lo np a vfn :
  is_map s m ps l -> ordered l -> fresh s -> Forall (ready s lo np) l ->
  0 <= np -> 0 <= lo -> lo + np < 2 ^ 32 ->
  find_area l vfn = Some a -> vma_start a < lo -> lo + np <= vfn < vma_end a ->
  exists s' qs l', vmmap_remove junk m lo np s = Done 0 s' /\ is_map s' m qs l'
    /\ obj_page l vfn = Some (u32 (vma_off a + (vfn - vma_start a)))
    /\ obj_page l' vfn = Some (u32 (vma_off a + (vfn - vma_start a) - (lo - vma_start a)))
    /\ obj_page l' vfn <> obj_page l vfn.
Proof.
  intros Hm Hord Hf Hr Hnp Hlo Hhi Hfa Hst Hv.
  destruct (remove_run junk m lo np s ps l) as (s' & qs & Hrun & _ & Him & _ & _); [done..|].
  assert (Hpage := obj_page_carve m lo np l vfn a Hnp Hord Hfa ltac:(lia)).
  replace (splits lo np a && (lo + np <=? vfn)) with true in Hpage.
  2:{ symmetry. unfold splits. rewrite !andb_true_iff, Z.ltb_lt, Z.gtb_lt, Z.leb_le. lia. }
  exists s', qs, (flat_map (carve m lo np) l). split_and!; [done..| |done|].
  - unfold obj_page. by rewrite Hfa.
  - rewrite Hpage. unfold obj_page. rewrite Hfa. simpl. intros [= Heq].
    apply find_area_Some in Hfa as [Hin _]. destruct Hord as [_ Hval]. rewrite Forall_forall in Hval.
    specialize (Hval _ Hin). unfold valid, LOW_PN, HIGH_PN in Hval.
    revert Heq. unfold u32. intros Heq. set (x := vma_off a + (vfn - vma_start a)) in *.
    set (d := lo - vma_start a) in *. assert (0 < d < 2 ^ 32) by lia.
    assert (Hz : d mod 2 ^ 32 = 0).
    { replace d with (x - (x - d)) by lia. rewrite Zminus_mod, Heq, Z.sub_diag. done. }
    rewrite Z.mod_small in Hz; lia.
Qed.

Lemma vmmap_remove_split_offset_witness :
  exists s' qs l', vmmap_remove junk0 9 0x504 2 vm_demo = Done 0 s' /\ is_map s' 9 qs l'
    /\ obj_page [area_a; area_b] 0x508 = Some 11 /\ obj_page l' 0x508 = Some 7.
Proof.
  destruct (vmmap_remove_split_offset junk0 vm_demo 9 _ _ 0x504 2 area_a 0x508 demo_is_map demo_ordered demo_fresh
    (demo_ready _ _)) as (s' & qs & l' & ? & ? & ? & H & _); [done..|].
  exists s', qs, l'. split_and!; [done..|]. by rewrite H.
Defined.

(** [vmmap_is_range_empty] is right when it answers 1, the range then meets
    no area; when it answers 0 some area meets the range or starts exactly at
    its end, so a free range directly below an area is reported as occupied. *)
Theorem vmmap_is_range_empty_spec s m ps l st n :
  is_map s m ps l -> Forall valid l -> LOW_PN <= st -> 0 < n -> st + n <= HIGH_PN ->
  exists r, vmmap_is_range_empty m st n s = Done r s /\ (r = 0 \/ r = 1)
    /\ (r = 1 -> forall a vfn, a ∈ l -> st <= vfn < st + n -> covers vfn a = false)
    /\ (r = 0 <-> exists a, a ∈ l /\ vma_start a <= st + n /\ st < vma_end a).
Proof.
  intros Hm Hv Hlo Hn Hhi. eexists. split; [by eapply run_is_range_empty|].
  destruct (forallb (range_clear st (st + n)) l) eqn:Hall; split_and!; auto; try done.
  - intros _ a vfn Ha Hvfn. rewrite forallb_forall in Hall. 
    specialize (Hall a (proj1 (list_elem_of_In _ _) Ha)). apply range_clear_spec in Hall.
    apply covers_false. lia.
  - split; [done|]. intros (a & Ha & ? & ?). rewrite forallb_forall in Hall.
    specialize (Hall a (proj1 (list_elem_of_In _ _) Ha)). apply range_clear_spec in Hall. lia.
  - split; [intros _|done]. apply not_true_iff_false in Hall. rewrite forallb_forall in Hall.
    assert (Hex : Exists (fun a => vma_start a <= st + n /\ st < vma_end a) l).
    { destruct (decide (Exists (fun a => vma_start a <= st + n /\ st < vma_end a) l)) as [|Hno]; [done|].
      exfalso. apply Hall. intros a Ha%list_elem_of_In. unfold range_clear.
      destruct (Z.gtb_spec (vma_start a) (st + n)), (Z.leb_spec (vma_end a) st); try done.
      destruct Hno. apply Exists_exists. exists a. split; [done|lia]. }
    apply Exists_exists in Hex as (a & ? & ? & ?). eauto.
Qed.

Lemma vmmap_is_range_empty_spec_witness :
  exists r, vmmap_is_range_empty 9 0x5f0 0x10 vm_demo = Done r vm_demo
    /\ (r = 0 <-> exists a, a ∈ [area_a; area_b] /\ vma_start a <= 0x5f0 + 0x10 /\ 0x5f0 < vma_end a).
Proof.
  destruct (vmmap_is_range_empty_spec vm_demo 9 _ _ 0x5f0 0x10 demo_is_map (proj2 demo_ordered))
    as (r & ? & _ & _ & ?); [done..|]. by exists r.
Defined.

Section find_range.
Variable junk : vmarea.
Variable vn_mmap : Z -> Z -> kernel vm (Z * Z).

Lemma find_range_hilo s m ps l n :
  is_map s m ps l -> Forall valid l -> 0 < n <= 2 ^ 19 ->
  (l = [] /\ vmmap_find_range m n VMMAP_DIR_HILO s = Done (HIGH_PN - n + 1) s)
  \/ vmmap_find_range m n VMMAP_DIR_HILO s = Panic \/ vmmap_find_range m n VMMAP_DIR_HILO s = Done (-1) s.
Proof.
  intros Hm Hv Hn. destruct (run_get_map _ _ _ _ Hm) as (k & _ & Hk & Hrun).
  assert (Hgo : vmmap_find_range m n VMMAP_DIR_HILO s =
    (if negb (bool_decide (ps = [])) then scan_down (reverse ps) m n
     else kret (s32 (ADDR_TO_PN USER_MEM_HIGH - n + 1))) s).
  { unfold vmmap_find_range. kstep Hrun. rewrite Hk. by erewrite kbind_done; [|apply kassert_true; lia]. }
  rewrite Hgo. assert (HF := im_areas _ _ _ _ Hm). destruct ps as [|p ps].
  - left. inversion HF; subst. split; [done|]. simpl. unfold kret.
    rewrite user_high_pn. unfold HIGH_PN. rewrite s32_small by lia. done.
  - right. rewrite bool_decide_eq_false_2 by done. cbn [negb].
    eapply scan_down_fails; [done|done|lia|by apply Forall2_reverse|]. intros a. by rewrite elem_of_reverse.
Qed.

(** An area that ends above user memory cannot be inserted. *)
Lemma insert_too_high s m ps l x a :
  is_map s m ps l -> areas s !! x = Some a -> vma_vmmap a = None -> HIGH_PN < vma_end a -> vmmap_insert m x s = Panic.
Proof.
  intros Hm Hx Hv Hhi. destruct (run_get_map _ _ _ _ Hm) as (k & _ & Hk & Hrun).
  unfold vmmap_insert. kstep Hrun. kstep run_get_area. kstep kassert_dec.
  destruct (vma_start a <? vma_end a) eqn:Hlt; [|by apply kbind_panic].
  erewrite kbind_done; [|done]. apply kbind_panic. unfold kassert.
  rewrite user_high_pn. destruct (vma_end a <=? HIGH_PN) eqn:Hle; [lia|]. by rewrite andb_false_r.
Qed.

End find_range.

(** a mapping whose address the kernel chooses from the top never
    succeeds.  With [VMMAP_DIR_HILO] and [lopage] 0, [vmmap_map] panics or
    returns -1 on every well-formed map: the scan of [vmmap_find_range] passes an
    end page where [vmmap_is_range_empty] takes a length, and on an empty map the
    range it proposes ends one page above user memory, which trips the
    assertion of [vmmap_insert]. *)
Theorem vmmap_map_hilo_never_maps junk vn_mmap s m file ps l np prot flags off :
  is_map s m ps l -> ordered l -> 0 < np <= 2 ^ 19 ->
  vmmap_map junk vn_mmap m file 0 np prot flags off VMMAP_DIR_HILO s = Panic
  \/ exists s', vmmap_map junk vn_mmap m file 0 np prot flags off VMMAP_DIR_HILO s = Done (-1) s'.
Proof.
  intros Hm [_ Hv] Hnp. destruct (run_get_map _ _ _ _ Hm) as (k & _ & _ & Hrun). unfold vmmap_map.
  assert (Has : forall b (K : kernel vm Z), (kbind (kassert b) (fun _ => K)) s = Panic
                 \/ (kbind (kassert b) (fun _ => K)) s = K s).
  { intros [] K; [by right|by left]. }
  kstep Hrun.
  repeat match goal with
  | |- context [kbind (kassert ?b) (fun _ => ?K) s] =>
      destruct (Has b K) as [Hp|Hp]; rewrite Hp; [by left|]; clear Hp
  end.
  cbn beta iota. change (0 =? 0) with true. cbn iota.
  destruct (find_range_hilo s m ps l np Hm Hv Hnp) as [[-> Hf]|[Hf|Hf]].
  - kstep Hf. unfold HIGH_PN. destruct (Z.eqb_spec (0xc0000 - np + 1) (-1)); [lia|].
    unfold map_at. destruct (vm_budget s) as [|b] eqn:Hb.
    + right. exists s. unfold vmarea_alloc, slab_obj_alloc, kbind, kget, obind. by rewrite Hb.
    + left. erewrite kbind_done; [|by apply run_vmarea_alloc]. cbn beta iota.
      do 5 (erewrite kbind_done; [|eapply run_upd_area; simpl; rewrite ?lookup_alter_eq, lookup_insert_eq; reflexivity]).
      apply kbind_panic. eapply (insert_too_high _ m []).
      * assert (ps = []) as -> by (by eapply Forall2_nil_inv_r, Hm).
        split; [exact (im_list _ _ _ _ Hm)|apply Forall2_nil_2|apply NoDup_nil_2].
      * simpl. rewrite !lookup_alter_eq, lookup_insert_eq. reflexivity.
      * done.
      * simpl. unfold HIGH_PN. rewrite (u32_small (786432 - np + 1 + np)) by lia. lia.
  - left. by apply kbind_panic.
  - right. exists s. kstep Hf. done.
Qed.

Lemma vmmap_map_hilo_never_maps_witness :
  vmmap_map junk0 no_mmap 9 None 0 1 PROT_READ MAP_PRIVATE 0 VMMAP_DIR_HILO vm_demo = Panic
  \/ exists s', vmmap_map junk0 no_mmap 9 None 0 1 PROT_READ MAP_PRIVATE 0 VMMAP_DIR_HILO vm_demo = Done (-1) s'.
Proof.
  apply (vmmap_map_hilo_never_maps junk0 no_mmap vm_demo 9 None _ _ 1 PROT_READ MAP_PRIVATE 0 demo_is_map demo_ordered).
  lia.
Defined.



(** ** Cloning *)

Section cloning.
Variable junk : vmarea.

(** The clone of an area: everything but the object. *)
Definition clone_area (nm : Z) (a : vmarea) : vmarea :=
  mk_vmarea (vma_start a) (vma_end a) (vma_off a) (vma_prot a) (vma_flags a) (Some nm) (vma_obj junk).

Lemma clone_loop_run m nm ps2 : forall s ps1 l1 l2 qs b,
  is_map s m (ps1 ++ ps2) (l1 ++ l2) -> length ps1 = length l1 -> ordered (l1 ++ l2) -> m <> nm ->
  is_map s nm qs (clone_area nm <$> l1) -> fresh s -> vm_budget s = (length ps2 + b)%nat ->
  exists s' qs', clone_loop junk ps2 nm s = Done true s' /\ is_map s' m (ps1 ++ ps2) (l1 ++ l2)
    /\ is_map s' nm qs' (clone_area nm <$> (l1 ++ l2)).
Proof.
  induction ps2 as [|p ps2 IH]; intros s ps1 l1 l2 qs b Hm Hlen Hord Hne Hq Hf Hb.
  - assert (l2 = []) as ->.
    { apply im_areas, Forall2_length in Hm. rewrite !length_app in Hm. destruct l2; [done|simpl in *; lia]. }
    exists s, qs. by rewrite !app_nil_r in *.
  - destruct l2 as [|a l2].
    { apply im_areas, Forall2_length in Hm. rewrite !length_app in Hm. simpl in *. lia. }
    assert (Hp := is_map_lookup _ _ _ _ _ _ _ _ Hm Hlen). simpl in Hb. set (n := vm_next s).
    assert (Hnps := is_map_fresh _ _ _ _ Hm Hf). assert (Hnqs := is_map_fresh _ _ _ _ Hq Hf). fold n in Hnps, Hnqs.
    set (a0 := with_vmmap None (clone_area nm a)).
    set (s1 := mk_vm (<[n := a0]> (areas s)) (maps s) (objs s) (n + 1) (length ps2 + b)).
    assert (Hfr : forall m' ps' l', is_map s m' ps' l' -> n ∉ ps' -> is_map s1 m' ps' l').
    { intros m' ps' l' Hm' Hn'. eapply is_map_frame; [exact Hm'|done|]. intros q Hq'. simpl.
      rewrite lookup_insert_ne; [done|]. by intros <-. }
    assert (Hva : valid a) by (destruct Hord as [_ Hv]; rewrite Forall_app, Forall_cons in Hv; naive_solver).
    destruct (insert_run s1 nm qs (clone_area nm <$> l1) n a0 (Hfr _ _ _ Hq Hnqs))
      as (qs1 & qs2 & k1 & k2 & Hqs & Hk & Hqk & Hins & Him & Hk1 & Hk2);
      [apply lookup_insert_eq|done|done|done|].
    (* the clone comes after the earlier ones *)
    assert (k2 = []) as ->.
    { destruct k2 as [|c k2]; [done|]. exfalso. assert (Hc : c ∈ clone_area nm <$> l1) by (rewrite Hk; set_solver +).
      apply list_elem_of_fmap in Hc as (d & -> & Hd). destruct Hord as [Hss Hv]. simpl in Hk2.
      assert (below d a).
      { clear - Hss Hd. induction l1 as [|e l1 IH]; [set_solver|]. inversion Hss as [|? ? ? Hf]; subst.
        apply elem_of_cons in Hd as [->|Hd]; [|by apply IH]. rewrite Forall_app in Hf. destruct Hf as [_ Hf].
        by inversion Hf. }
      rewrite Forall_app, !Forall_forall in Hv. destruct Hv as [Hv _]. specialize (Hv d Hd). unfold below, valid in *. lia. }
    rewrite app_nil_r in Hk. subst k1.
    assert (qs2 = []) as ->.
    { apply im_areas, Forall2_length in Hq. rewrite Hqs, length_app, Hqk in Hq. destruct qs2; [done|simpl in *; lia]. }
    destruct (IH (linked nm n (qs1 ++ [n]) s1) (ps1 ++ [p]) (l1 ++ [a]) l2 (qs1 ++ [n]) b)
      as (s' & qs' & Hrun & Hm' & Hq'); try done.
    + rewrite <- !app_assoc. simpl. eapply is_map_frame; [by apply (Hfr _ _ _ Hm)|simpl; by rewrite lookup_alter_ne|].
      intros q Hq'. simpl. rewrite lookup_alter_ne; [done|]. by intros <-.
    + rewrite !length_app. simpl. lia.
    + by rewrite <- app_assoc.
    + by rewrite fmap_app.
    + apply fresh_linked. intros q Hq'. simpl in *. apply lookup_insert_is_Some in Hq' as [<-|[_ Hq']]; [lia|].
      apply Hf in Hq'. subst n. lia.
    + exists s', qs'. rewrite <- !app_assoc in *. simpl in *. split_and!; try done.
      cbn [clone_loop]. erewrite kbind_done; [|apply run_vmarea_alloc; exact Hb]. cbn beta iota. fold n.
      erewrite kbind_done; [|apply run_get_area; simpl; rewrite lookup_insert_ne; [exact Hp|]].
      2:{ set_solver +Hnps. }
      do 5 (erewrite kbind_done; [|eapply run_upd_area; simpl; rewrite ?lookup_alter_eq, lookup_insert_eq; reflexivity]).
      match goal with |- (_ ;;; _)%kernel ?x = _ => assert (Hx : x = s1) end.
      { unfold s1, set_areas. simpl. f_equal. apply map_eq. intros i. destruct (decide (i = n)) as [->|].
        - by rewrite !lookup_alter_eq, !lookup_insert_eq.
        - by rewrite !lookup_alter_ne, !lookup_insert_ne by done. }
      rewrite Hx. by kstep Hins.
Qed.

End cloning.

(** [vmmap_clone] makes a new map with an area for each area of the old
    one, with the same bounds, offset, protection and flags and in the same
    order, and leaves the old map alone. *)
Theorem vmmap_clone_spec junk s m ps l b :
  is_map s m ps l -> ordered l -> fresh s -> m < vm_next s -> vm_budget s = (S (length ps) + b)%nat ->
  exists s' nm qs, vmmap_clone junk m s = Done (Some nm) s' /\ nm <> m
    /\ is_map s' m ps l /\ is_map s' nm qs (clone_area junk nm <$> l) /\ ordered (clone_area junk nm <$> l).
Proof.
  intros Hm Hord Hf Hlt Hb. set (nm := vm_next s). assert (Hne : m <> nm) by lia.
  set (s1 := mk_vm (areas s) (<[nm := mk_vmmap [] None]> (maps s)) (objs s) (nm + 1) (length ps + b)).
  assert (Hm1 : is_map s1 m ps l) by (eapply is_map_frame; [done|simpl; by rewrite lookup_insert_ne|done]).
  destruct (clone_loop_run junk m nm ps s1 [] [] l [] b) as (s' & qs & Hrun & Hm' & Hq'); try done.
  { split; [simpl; by rewrite lookup_insert_eq|apply Forall2_nil_2|apply NoDup_nil_2]. }
  { intros p Hp. apply Hf in Hp. simpl. lia. }
  exists s', nm, qs. split_and!; try done.
  - unfold vmmap_clone, vmmap_create. unfold kbind at 1 2. rewrite (run_slab s (length ps + b)) by done. simpl obind.
    fold nm. destruct (run_get_map _ _ _ _ Hm1) as (k & _ & Hk & Hget). kstep Hget. rewrite Hk. by kstep Hrun.
  - destruct Hord as [Hss Hv]. split.
    + clear - Hss. induction Hss as [|a l _ IH Hf]; simpl; constructor; [done|]. rewrite Forall_fmap.
      eapply Forall_impl; [exact Hf|done].
    + rewrite Forall_fmap. eapply Forall_impl; [exact Hv|done].
Qed.

Lemma vmmap_clone_spec_witness :
  exists s' nm qs, vmmap_clone junk0 9 vm_demo = Done (Some nm) s' /\ nm <> 9
    /\ is_map s' nm qs (clone_area junk0 nm <$> [area_a; area_b]).
Proof.
  destruct (vmmap_clone_spec junk0 vm_demo 9 _ _ 7 demo_is_map demo_ordered demo_fresh) as (s' & nm & qs & ? & ? & _ & ? & _);
    [done..|]. by exists s', nm, qs.
Defined.

End Vmmap.
