(* ===== verification/PageAlloc.v ===== *)
(** * The page allocator ([kernel/mm/page.c], [kernel/include/util/bits.h])

    A buddy allocator.  A page group manages the pages of an address range in
    blocks of 2^order pages, order 0 to 7: a free list per order, and per order a
    bitmap with one bit for each pair of buddies one order below.  The
    operations inside one group are functions on the group; the page system
    keeps the list of groups and the number of free pages. *)

From S2P Require Import Prelude.
Local Open Scope Z_scope.
Local Open Scope kernel_scope.

Module PageAlloc.

Definition PAGE_SHIFT : Z := 12.
Definition PAGE_SIZE : Z := 4096.
Definition PAGE_NSIZES : Z := 8.
Definition PAGE_ALIGN_DOWN (x : Z) : Z := Z.land x (Z.shiftl (2 ^ 20 - 1) 12).
Definition PAGE_ALIGNED (x : Z) : bool := x mod PAGE_SIZE =? 0.
Definition ADDR_TO_PN (x : Z) : Z := Z.shiftr (u32 x) PAGE_SHIFT.

(** ** Bitmaps: words of 32 bits *)

Abbreviation bitmap := (gmap Z Z).

Definition bit_flip (map : bitmap) (bit : Z) : option bitmap :=
  let w := Z.shiftr bit 5 in
  match map !! w with
  | Some v => Some (<[w := Z.lxor v (u32 (Z.shiftl 1 (Z.land bit 0x1f)))]> map)
  | None => None
  end.

Definition bit_check (map : bitmap) (bit : Z) : option Z :=
  (fun v => Z.land v (Z.shiftl 1 (Z.land bit 0x1f))) <$> map !! Z.shiftr bit 5.

(** ** Page groups *)

(** [struct pagegroup].  The free lists hold block addresses, head first;
    [pg_map[0]] is [NULL] and has no entry. *)
Record pagegroup : Type := mk_group {
  pg_freelist : gmap Z (list Z);
  pg_map : gmap Z bitmap;
  pg_baseaddr : Z;
  pg_endaddr : Z;
}.

Definition flist (g : pagegroup) (order : Z) : list Z := default [] (pg_freelist g !! order).
Definition set_flist (order : Z) (l : list Z) (g : pagegroup) : pagegroup :=
  mk_group (<[order := l]> (pg_freelist g)) (pg_map g) (pg_baseaddr g) (pg_endaddr g).
Definition set_map (order : Z) (m : bitmap) (g : pagegroup) : pagegroup :=
  mk_group (pg_freelist g) (<[order := m]> (pg_map g)) (pg_baseaddr g) (pg_endaddr g).

Definition group_flip (order bit : Z) : kernel pagegroup unit :=
  g <- kget ;;
  m <- kderef (pg_map g !! order) ;;
  m' <- kderef (bit_flip m bit) ;;
  kput (set_map order m' g).
Definition group_check (order bit : Z) : kernel pagegroup bool :=
  g <- kget ;;
  m <- kderef (pg_map g !! order) ;;
  v <- kderef (bit_check m bit) ;;
  kret (negb (v =? 0)).

(** [list_insert_head(&group->pg_freelist[order], ...)] of the block at [addr] *)
Definition free_push (order addr : Z) : kernel pagegroup unit :=
  kmodify (fun g => set_flist order (addr :: flist g order) g).
(** [list_remove_head] of a non-empty free list *)
Definition free_pop (order : Z) : kernel pagegroup unit :=
  kmodify (fun g => set_flist order (tail (flist g order)) g).

(** [list_remove] of the [fp_link] stored in the block at [addr]: the page must be on a
    free list; a page that is not holds arbitrary bytes where the links would be. *)
Definition free_unlink (addr : Z) : kernel pagegroup unit :=
  g <- kget ;;
  kassert (bool_decide (map_Exists (fun _ l => addr ∈ l) (pg_freelist g))) ;;;
  kput (mk_group (filter (fun x => x <> addr) <$> pg_freelist g) (pg_map g) (pg_baseaddr g) (pg_endaddr g)).

Definition pagegroup_calculate_index (order addr : Z) : kernel pagegroup Z :=
  g <- kget ;;
  kassert (PAGE_ALIGNED addr) ;;;
  kassert (order <? PAGE_NSIZES) ;;;
  kassert ((pg_baseaddr g <=? addr) && (addr <? pg_endaddr g)) ;;;
  let offset := u32 (addr - pg_baseaddr g) in
  kassert (Z.land offset (Z.shiftl 1 order - 1) =? 0) ;;;
  kret (Z.shiftr (Z.shiftr offset order) PAGE_SHIFT).

(** [__page_split] *)
Definition page_split1 (order : Z) : kernel pagegroup unit :=
  kassert (0 <? order) ;;;
  kassert (order <? PAGE_NSIZES) ;;;
  g <- kget ;;
  target <- kderef (head (flist g order)) ;;
  free_pop order ;;;
  (if order <? PAGE_NSIZES - 1 then
     index <- pagegroup_calculate_index (order + 1) target ;;
     group_flip (order + 1) index
   else kret tt) ;;;
  index <- pagegroup_calculate_index order target ;;
  b <- group_check order index ;;
  kassert (negb b) ;;;
  let buddy := u32 (target + Z.shiftl (Z.shiftl 1 (order - 1)) PAGE_SHIFT) in
  free_push (order - 1) target ;;;
  free_push (order - 1) buddy.

(** [while (norder > order) { __page_split(group, norder); --norder; }];
    [n] is [norder - order]. *)
Fixpoint split_down (n : nat) (order : Z) : kernel pagegroup unit :=
  match n with
  | O => kret tt
  | S n => page_split1 (order + Z.of_nat n + 1) ;;; split_down n order
  end.

(** [__page_join]; the loop ends because [order] grows up to [PAGE_NSIZES - 1]. *)
Fixpoint page_join (fuel : nat) (order addr : Z) : kernel pagegroup unit :=
  match fuel with
  | O => fun _ => NoFuel
  | S fuel =>
      if order <? PAGE_NSIZES - 1 then
        index <- pagegroup_calculate_index (order + 1) addr ;;
        b <- group_check (order + 1) index ;;
        if b : bool then kret tt
        else
          g <- kget ;;
          let offset := u32 (addr - pg_baseaddr g) in
          let size := Z.shiftl (Z.shiftl 1 order) PAGE_SHIFT in
          let buddy := u32 (addr + size *
            (if Z.land (Z.shiftr (Z.shiftr offset PAGE_SHIFT) order) 1 =? 0 then 1 else -1)) in
          kassert (Z.land offset (Z.shiftl 1 order - 1) =? 0) ;;;
          free_unlink addr ;;;
          free_unlink buddy ;;;
          let addr' := Z.min addr buddy in
          free_push (order + 1) addr' ;;;
          (if order + 1 <? PAGE_NSIZES - 1 then
             index <- pagegroup_calculate_index (order + 2) addr' ;;
             group_flip (order + 2) index
           else kret tt) ;;;
          page_join fuel (order + 1) addr'
      else kret tt
  end.

(** [found:] in [_page_alloc_order]: take the first block of the free list. *)
Definition take_block (order : Z) : kernel pagegroup Z :=
  g <- kget ;;
  addr <- kderef (head (flist g order)) ;;
  free_pop order ;;;
  (if order <? PAGE_NSIZES - 1 then
     index <- pagegroup_calculate_index (order + 1) addr ;;
     group_flip (order + 1) index
   else kret tt) ;;;
  kret addr.

(** The part of [_page_free_order] that works on the group. *)
Definition put_block (addr order : Z) : kernel pagegroup unit :=
  free_push order addr ;;;
  if order <? PAGE_NSIZES - 1 then
    index <- pagegroup_calculate_index (order + 1) addr ;;
    group_flip (order + 1) index ;;;
    page_join (Z.to_nat PAGE_NSIZES) order addr
  else kret tt.

(** ** The page system *)

Record pages : Type := mk_pages {
  pagegroup_list : list pagegroup;
  page_freecount : Z;
}.

Definition with_group {A} (i : nat) (m : kernel pagegroup A) : kernel pages A := fun s =>
  match pagegroup_list s !! i with
  | None => Panic
  | Some g =>
      match m g with
      | Done a g' => Done a (mk_pages (<[i := g']> (pagegroup_list s)) (page_freecount s))
      | Panic => Panic
      | _ => NoFuel
      end
  end.

Definition add_freecount (d : Z) : kernel pages unit :=
  kmodify (fun s => mk_pages (pagegroup_list s) (u32 (page_freecount s + d))).

Definition page_init : kernel pages unit := kput (mk_pages [] 0).

(** The first group with a free block of the order. *)
Definition group_with_free (order : Z) (s : pages) : option nat :=
  fst <$> list_find (fun g => flist g order <> []) (pagegroup_list s).

(** [_pagegroup_from_address] *)
Definition pagegroup_from_address (addr : Z) (s : pages) : option nat :=
  fst <$> list_find (fun g => pg_baseaddr g <= addr < pg_endaddr g) (pagegroup_list s).

Section page_system.

(** [slab_allocators_reclaim(0)] of the slab allocator *)
Variable slab_allocators_reclaim : kernel pages Z.

(** The [for] loop of [_page_split]; [n] orders are left to try. *)
Fixpoint split_search (n : nat) (norder order : Z) : kernel pages (option nat) :=
  match n with
  | O => kret None
  | S n =>
      s <- kget ;;
      match group_with_free norder s with
      | Some i => with_group i (split_down (Z.to_nat (norder - order)) order) ;;; kret (Some i)
      | None => split_search n (norder + 1) order
      end
  end.

(** [_page_split] *)
Definition page_split (order : Z) : kernel pages (option nat) :=
  r <- split_search (Z.to_nat (PAGE_NSIZES - (order + 1))) (order + 1) order ;;
  match r with
  | Some i =>
      s <- kget ;;
      g <- kderef (pagegroup_list s !! i) ;;
      kassert (bool_decide (flist g order <> [])) ;;;
      kret (Some i)
  | None => slab_allocators_reclaim ;;; kret None
  end.

(** [_page_alloc_order] *)
Definition page_alloc_order (order : Z) : kernel pages (option Z) :=
  s <- kget ;;
  group <- match group_with_free order s with
           | Some i => kret (Some i)
           | None => page_split order
           end ;;
  match group with
  | None => kret None
  | Some i =>
      addr <- with_group i (take_block order) ;;
      add_freecount (- Z.shiftl 1 order) ;;;
      kret (Some addr)
  end.

(** [_page_free_order] *)
Definition page_free_order (addr order : Z) : kernel pages unit :=
  s <- kget ;;
  match pagegroup_from_address addr s with
  | None => kret tt
  | Some i =>
      (* the count is updated after the insertion and before the join; nothing reads it between *)
      with_group i (put_block addr order) ;;;
      add_freecount (Z.shiftl 1 order)
  end.

Definition page_alloc : kernel pages (option Z) := page_alloc_order 0.
Definition page_free (addr : Z) : kernel pages unit := page_free_order addr 0.

(** The order of [npages] pages: the loop of [page_alloc_n] and [page_free_n]. *)
Fixpoint order_loop (n : nat) (order npages : Z) : Z :=
  match n with
  | O => order
  | S n => if Z.shiftl 1 order >=? s32 npages then order else order_loop n (order + 1) npages
  end.

Definition page_alloc_n (npages : Z) : kernel pages (option Z) :=
  let order := order_loop (Z.to_nat PAGE_NSIZES) 0 npages in
  if order =? PAGE_NSIZES then kpanic else page_alloc_order order.

Definition page_free_n (start npages : Z) : kernel pages unit :=
  let order := order_loop (Z.to_nat PAGE_NSIZES) 0 npages in
  if order =? PAGE_NSIZES then kpanic else page_free_order start order.

Definition page_free_count : kernel pages Z := s <- kget ;; kret (page_freecount s).

End page_system.

(** ** Creating a group *)

(** [sizeof(struct pagegroup)]: eight list heads, eight pointers, two addresses and a link *)
Definition sizeof_pagegroup : Z := 112.

(** A bitmap of [count] bytes, all zero. *)
Definition zero_bitmap (count : Z) : bitmap :=
  list_to_map ((fun i => (Z.of_nat i, 0)) <$> seq 0 (Z.to_nat ((count + 3) / 4))).

(** The loop that lays out the bitmaps below [end_]. *)
Fixpoint layout_maps (n : nat) (order npages end_ : Z) (maps : gmap Z bitmap) : gmap Z bitmap * Z :=
  match n with
  | O => (maps, end_)
  | S n =>
      let count := u32 (Z.shiftr npages order) in
      let count := u32 (Z.land (u32 (count - 1)) (Z.lnot 7) + 8) in
      let count := Z.shiftr count 3 in
      layout_maps n (order + 1) npages (u32 (end_ - count)) (<[order := zero_bitmap count]> maps)
  end.

(** The loop that puts the odd blocks at the end of the range on the smaller lists. *)
Fixpoint odd_blocks (n : nat) (order npages end_ : Z) (fl : gmap Z (list Z)) : gmap Z (list Z) * Z :=
  match n with
  | O => (fl, end_)
  | S n =>
      if negb (Z.land npages (Z.shiftl 1 order) =? 0) then
        let end_ := u32 (end_ - Z.shiftl (Z.shiftl 1 order) PAGE_SHIFT) in
        odd_blocks n (order + 1) npages end_ (<[order := [end_]]> fl)
      else odd_blocks n (order + 1) npages end_ (<[order := []]> fl)
  end.

(** The loop that puts the rest on the list of the largest order. *)
Fixpoint top_blocks (fuel : nat) (current end_ : Z) (l : list Z) : list Z :=
  match fuel with
  | O => l
  | S fuel =>
      if current <? end_ then
        top_blocks fuel (current + Z.shiftl (Z.shiftl 1 (PAGE_NSIZES - 1)) PAGE_SHIFT) end_ (current :: l)
      else l
  end.

(** [_pagegroup_create] *)
Definition pagegroup_create (start end_ : Z) : option pagegroup :=
  let npages := Z.shiftr (u32 (end_ - start)) PAGE_SHIFT in
  let '(maps, end1) := layout_maps 7 1 npages (u32 (end_ - sizeof_pagegroup)) ∅ in
  let endaddr := PAGE_ALIGN_DOWN end1 in
  let npages := Z.shiftr (u32 (endaddr - start)) PAGE_SHIFT in
  let '(fl, end2) := odd_blocks 7 0 npages endaddr ∅ in
  if (u32 (end2 - start) mod Z.shiftl 1 7 =? 0) then
    let top := top_blocks (Z.to_nat (npages + 1)) start end2 [] in
    Some (mk_group (<[7 := top]> fl) maps start endaddr)
  else None.

Definition page_add_range (start end_ : Z) : kernel pages unit :=
  let start := PAGE_ALIGN_DOWN start in
  let end_ := PAGE_ALIGN_DOWN end_ in
  group <- kderef (pagegroup_create start end_) ;;
  if pg_baseaddr group <? pg_endaddr group then
    kmodify (fun s => mk_pages (pagegroup_list s ++ [group])
      (u32 (page_freecount s + ADDR_TO_PN (pg_endaddr group - pg_baseaddr group))))
  else kret tt.

(** ** Bits *)

Lemma land_bit v k : 0 <= k -> (Z.land v (Z.shiftl 1 k) =? 0) = negb (Z.testbit v k).
Proof.
  intros Hk. assert (Hb : forall n, Z.testbit (Z.land v (Z.shiftl 1 k)) n = Z.testbit v n && (n =? k)).
  { intros n. rewrite Z.land_spec. f_equal. destruct (Z.neg_nonneg_cases n) as [Hn|Hn].
    - rewrite Z.testbit_neg_r by done. symmetry. apply Z.eqb_neq. lia.
    - rewrite Z.shiftl_spec by done. destruct (Z.eqb_spec n k) as [->|Hne]; [by rewrite Z.sub_diag|].
      destruct (Z.neg_nonneg_cases (n - k)); [by rewrite Z.testbit_neg_r|].
      apply Z.bits_above_log2; simpl; lia. }
  destruct (Z.testbit v k) eqn:Hv; simpl.
  - apply Z.eqb_neq. intros H0. specialize (Hb k). rewrite H0, Hv, Z.eqb_refl, Z.testbit_0_l in Hb. done.
  - apply Z.eqb_eq. apply Z.bits_inj'. intros n Hn. rewrite Hb, Z.testbit_0_l.
    destruct (Z.eqb_spec n k) as [->|]; [by rewrite Hv|by rewrite andb_false_r].
Qed.

Lemma low5 bit : 0 <= bit -> Z.land bit 0x1f = bit mod 32.
Proof. intros. change 0x1f with (Z.ones 5). by rewrite Z.land_ones. Qed.

(** The bit of a bitmap, as a truth value. *)
Definition bitv (m : bitmap) (bit : Z) : option bool := (fun v => negb (v =? 0)) <$> bit_check m bit.

Lemma bitv_spec m bit : 0 <= bit -> bitv m bit = (fun v => Z.testbit v (bit mod 32)) <$> m !! (bit / 32).
Proof.
  intros Hb. unfold bitv, bit_check. rewrite low5, Z.shiftr_div_pow2 by lia. change (2 ^ 5) with 32.
  destruct (m !! (bit / 32)); simpl; [|done]. f_equal.
  rewrite land_bit by (apply Z.mod_pos_bound; lia). by rewrite negb_involutive.
Qed.

(** Flipping a bit changes that bit and no other. *)
Lemma bit_flip_spec m bit b :
  0 <= bit -> bitv m bit = Some b ->
  exists m', bit_flip m bit = Some m' /\
    forall bit', 0 <= bit' -> bitv m' bit' = if bit' =? bit then Some (negb b) else bitv m bit'.
Proof.
  intros Hb Hv. rewrite bitv_spec in Hv by done. unfold bit_flip.
  rewrite low5, Z.shiftr_div_pow2 by lia. change (2 ^ 5) with 32.
  destruct (m !! (bit / 32)) as [v|] eqn:Hm; [|done]. injection Hv as Hv.
  eexists. split; [done|]. intros bit' Hb'. rewrite !bitv_spec by done.
  assert (Hmod := Z.mod_pos_bound bit 32 ltac:(lia)). assert (Hmod' := Z.mod_pos_bound bit' 32 ltac:(lia)).
  rewrite u32_small.
  2:{ rewrite Z.shiftl_1_l. split; [apply Z.pow_nonneg; lia|]. apply Z.pow_lt_mono_r; lia. }
  rewrite Z.shiftl_1_l. destruct (decide (bit / 32 = bit' / 32)) as [Hd|Hd].
  - rewrite <- Hd, lookup_insert_eq, Hm. simpl. rewrite Z.lxor_spec, Z.pow2_bits_eqb by lia.
    destruct (Z.eqb_spec bit' bit) as [->|Hne].
    + rewrite Z.eqb_refl, Hv. by destruct b.
    + assert (bit mod 32 <> bit' mod 32).
      { intros He. apply Hne. rewrite (Z.div_mod bit 32), (Z.div_mod bit' 32) by lia. lia. }
      destruct (Z.eqb_spec (bit mod 32) (bit' mod 32)); [done|]. by rewrite xorb_false_r.
  - rewrite lookup_insert_ne by done. destruct (Z.eqb_spec bit' bit) as [->|]; done.
Qed.

(** ** The abstract state of a group

    [F order index] says that the block of the order at the index is on the
    free list; [B order index] is the bit of the pair of blocks [2 * index] and
    [2 * index + 1] of the order. *)

Definition blk (g : pagegroup) (o j : Z) : Z := pg_baseaddr g + j * 2 ^ (o + 12).

Definition upd2 (F : Z -> Z -> bool) (o j : Z) (v : bool) : Z -> Z -> bool :=
  fun o' j' => if (o' =? o) && (j' =? j) then v else F o' j'.

Lemma upd2_eq F o j v : upd2 F o j v o j = v.
Proof. unfold upd2. by rewrite !Z.eqb_refl. Qed.
Lemma upd2_ne F o j v o' j' : o' <> o \/ j' <> j -> upd2 F o j v o' j' = F o' j'.
Proof.
  intros H. unfold upd2. destruct (Z.eqb_spec o' o), (Z.eqb_spec j' j); simpl; try done. naive_solver.
Qed.

(** The group manages [T] blocks of the largest order. *)
Record shape (g : pagegroup) (T : Z) : Prop := {
  sh_base : 0 <= pg_baseaddr g /\ pg_baseaddr g mod 4096 = 0;
  sh_size : 0 <= T;
  sh_end : pg_endaddr g = pg_baseaddr g + T * 2 ^ 19;
  sh_top : pg_endaddr g <= 2 ^ 32 - 1;
}.

Record repr (g : pagegroup) (T : Z) (F B : Z -> Z -> bool) : Prop := {
  rp_shape : shape g T;
  rp_free : forall o a, 0 <= o < 8 -> a ∈ flist g o <-> exists j, a = blk g o j /\ F o j = true;
  rp_nodup : forall o, NoDup (flist g o);
  rp_dom : forall o l, pg_freelist g !! o = Some l -> 0 <= o < 8;
  rp_range : forall o j, F o j = true -> 0 <= o < 8 /\ 0 <= j < T * 2 ^ (7 - o);
  rp_bits : forall o i, 0 <= o < 7 -> 0 <= i < T * 2 ^ (6 - o) ->
    (m ← pg_map g !! (o + 1); bitv m i) = Some (B o i);
}.

(** Free blocks do not overlap, and the bit of a pair tells whether exactly one of the two is free. *)
Record good (T : Z) (F B : Z -> Z -> bool) : Prop := {
  gd_disj : forall o j o' j', F o j = true -> F o' j' = true -> o <= o' -> j / 2 ^ (o' - o) = j' -> o = o';
  gd_bits : forall o i, 0 <= o < 7 -> 0 <= i < T * 2 ^ (6 - o) -> B o i = xorb (F o (2 * i)) (F o (2 * i + 1));
}.

(** Page [p] of the group lies in a free block. *)
Definition page_is_free (F : Z -> Z -> bool) (p : Z) : Prop := exists o, 0 <= o < 8 /\ F o (p / 2 ^ o) = true.

Lemma pow_pos o : 0 <= o -> 0 < 2 ^ o.
Proof. intros. apply Z.pow_pos_nonneg; lia. Qed.

Lemma pow_split a b : 0 <= a -> 0 <= b -> 2 ^ (a + b) = 2 ^ a * 2 ^ b.
Proof. intros. apply Z.pow_add_r; lia. Qed.

Lemma blk_inj g o j j' : 0 <= o -> blk g o j = blk g o j' -> j = j'.
Proof. intros Ho. unfold blk. assert (Hp := pow_pos (o + 12) ltac:(lia)). nia. Qed.

(** Block addresses are inside the group and page aligned. *)
Lemma blk_range g T o j :
  shape g T -> 0 <= o < 8 -> 0 <= j < T * 2 ^ (7 - o) ->
  pg_baseaddr g <= blk g o j /\ blk g o j + 2 ^ (o + 12) <= pg_endaddr g.
Proof.
  intros Hs Ho Hj. rewrite (sh_end _ _ Hs). unfold blk. assert (Hp := pow_pos (o + 12) ltac:(lia)).
  assert (H19 : 2 ^ 19 = 2 ^ (7 - o) * 2 ^ (o + 12)) by (rewrite <- Z.pow_add_r by lia; f_equal; lia).
  rewrite H19. nia.
Qed.

Lemma run_index g T o o' j :
  shape g T -> 0 <= o < 8 -> 0 <= o' < 8 -> 0 <= j < T * 2 ^ (7 - o') ->
  pagegroup_calculate_index o (blk g o' j) g = Done (j * 2 ^ o' / 2 ^ o) g.
Proof.
  intros Hs Ho Ho' Hj. assert (Hr := blk_range _ _ _ _ Hs Ho' Hj). assert (Hp := pow_pos (o' + 12) ltac:(lia)).
  destruct (sh_base _ _ Hs) as [Hb0 Hbm]. assert (Ht := sh_top _ _ Hs).
  assert (H12 : 2 ^ (o' + 12) = 2 ^ o' * 4096) by (rewrite Z.pow_add_r by lia; done).
  unfold pagegroup_calculate_index. kpure.
  erewrite kbind_done; [|apply kassert_true]. 2:{ unfold PAGE_ALIGNED, PAGE_SIZE, blk. rewrite H12, Z.mul_assoc, Z.mod_add by lia. lia. }
  erewrite kbind_done; [|apply kassert_true; unfold PAGE_NSIZES; lia].
  erewrite kbind_done; [|apply kassert_true; lia].
  assert (Hoff : u32 (blk g o' j - pg_baseaddr g) = j * 2 ^ o' * 4096).
  { unfold blk at 1. rewrite u32_small; [lia|]. unfold blk in Hr. lia. }
  rewrite Hoff. erewrite kbind_done; [|apply kassert_true].
  2:{ rewrite Z.shiftl_1_l. replace (2 ^ o - 1) with (Z.ones o) by (rewrite Z.ones_equiv; lia).
      rewrite Z.land_ones by lia. apply Z.eqb_eq.
      replace 4096 with (2 ^ (12 - o) * 2 ^ o) by (rewrite <- Z.pow_add_r by lia; replace (12 - o + o) with 12 by lia; done).
      rewrite Z.mul_assoc. apply Z.mod_mul. assert (Hpo := pow_pos o ltac:(lia)). lia. }
  unfold kret. f_equal. unfold PAGE_SHIFT. rewrite !Z.shiftr_div_pow2 by lia.
  assert (Hpo := pow_pos o ltac:(lia)). rewrite Z.div_div by lia. change (2 ^ 12) with 4096.
  by rewrite Z.div_mul_cancel_r by lia.
Qed.

(** ** What the primitive operations do to the abstract state *)

Lemma flist_set o l g o' : flist (set_flist o l g) o' = if o' =? o then l else flist g o'.
Proof.
  unfold flist, set_flist. simpl. destruct (Z.eqb_spec o' o) as [->|]; [by rewrite lookup_insert_eq|].
  by rewrite lookup_insert_ne.
Qed.

(** The number of pages on the free lists *)
Definition gcount (g : pagegroup) : Z :=
  foldr Z.add 0 ((fun o => Z.of_nat (length (flist g o)) * 2 ^ o) <$> [0; 1; 2; 3; 4; 5; 6; 7]).

Lemma gcount_change g g' o :
  0 <= o < 8 -> (forall o', o' <> o -> 0 <= o' < 8 -> flist g' o' = flist g o') ->
  gcount g' = gcount g + (Z.of_nat (length (flist g' o)) - Z.of_nat (length (flist g o))) * 2 ^ o.
Proof.
  intros Ho Hsame. unfold gcount. simpl.
  assert (o = 0 \/ o = 1 \/ o = 2 \/ o = 3 \/ o = 4 \/ o = 5 \/ o = 6 \/ o = 7) as Hc by lia.
  destruct Hc as [->|[->|[->|[->|[->|[->|[->| ->]]]]]]];
    repeat match goal with
    | |- context [flist g' ?k] => rewrite (Hsame k) by lia
    end; lia.
Qed.

Lemma repr_set_flist g T F F' B o l :
  repr g T F B -> 0 <= o < 8 -> NoDup l ->
  (forall a, a ∈ l <-> exists j, a = blk g o j /\ F' o j = true) ->
  (forall o' j, o' <> o -> F' o' j = F o' j) ->
  (forall j, F' o j = true -> 0 <= j < T * 2 ^ (7 - o)) ->
  repr (set_flist o l g) T F' B.
Proof.
  intros Hr Ho Hnd Hl Hother Hrange. split; try apply Hr.
  - by destruct (rp_shape _ _ _ _ Hr); split.
  - intros o' a Ho'. rewrite flist_set. change (blk (set_flist o l g)) with (blk g).
    destruct (Z.eqb_spec o' o) as [->|Hne]; [apply Hl|]. rewrite (rp_free _ _ _ _ Hr) by done.
    by setoid_rewrite Hother.
  - intros o'. rewrite flist_set. destruct (o' =? o); [done|apply Hr].
  - intros o' l'. simpl. intros [[<- <-]|[_ H]]%lookup_insert_Some; [done|by eapply rp_dom].
  - intros o' j HF. destruct (decide (o' = o)) as [->|Hne]; [auto|].
    rewrite Hother in HF by done. by apply (rp_range _ _ _ _ Hr).
Qed.

Lemma run_push g T F B o j :
  repr g T F B -> 0 <= o < 8 -> 0 <= j < T * 2 ^ (7 - o) -> F o j = false ->
  exists g', free_push o (blk g o j) g = Done tt g' /\ repr g' T (upd2 F o j true) B
    /\ pg_baseaddr g' = pg_baseaddr g /\ flist g' o = blk g o j :: flist g o
    /\ gcount g' = gcount g + 2 ^ o.
Proof.
  intros Hr Ho Hj HF. eexists. split; [done|]. split; [|split; [done|]].
  2:{ split; [by rewrite flist_set, Z.eqb_refl|]. rewrite (gcount_change g _ o).
      - rewrite flist_set, Z.eqb_refl. simpl length. lia.
      - done.
      - intros o' Hne _. rewrite flist_set. by destruct (Z.eqb_spec o' o). }
  eapply repr_set_flist; [done..| | | |].
  - apply NoDup_cons. split; [|apply Hr]. rewrite (rp_free _ _ _ _ Hr) by done.
    intros (j' & Heq%blk_inj & HF'); [|lia]. congruence.
  - intros a. rewrite elem_of_cons, (rp_free _ _ _ _ Hr) by done. split.
    + intros [->|(j' & -> & HF')]; [exists j; by rewrite upd2_eq|]. exists j'. split; [done|].
      destruct (decide (j' = j)) as [->|]; [by rewrite upd2_eq|]. by rewrite upd2_ne by auto.
    + intros (j' & -> & HF'). destruct (decide (j' = j)) as [->|Hne]; [by left|right].
      rewrite upd2_ne in HF' by auto. eauto.
  - intros o' j' Hne. apply upd2_ne. auto.
  - intros j'. destruct (decide (j' = j)) as [->|Hne]; [done|]. rewrite upd2_ne by auto. apply (rp_range _ _ _ _ Hr).
Qed.

Lemma run_pop g T F B o j l :
  repr g T F B -> 0 <= o < 8 -> flist g o = blk g o j :: l ->
  exists g', free_pop o g = Done tt g' /\ repr g' T (upd2 F o j false) B
    /\ pg_baseaddr g' = pg_baseaddr g /\ flist g' o = l /\ gcount g' = gcount g - 2 ^ o.
Proof.
  intros Hr Ho Hl. assert (Hnd := rp_nodup _ _ _ _ Hr o). rewrite Hl, NoDup_cons in Hnd. destruct Hnd as [Hnin Hnd].
  assert (Hfr := fun a => rp_free _ _ _ _ Hr o a Ho). rewrite Hl in Hfr.
  eexists. split; [done|]. split; [|split; [done|]].
  2:{ split; [by rewrite flist_set, Z.eqb_refl, Hl|]. rewrite (gcount_change g _ o).
      - rewrite flist_set, Z.eqb_refl, Hl. simpl length. lia.
      - done.
      - intros o' Hne _. rewrite flist_set. by destruct (Z.eqb_spec o' o). }
  eapply repr_set_flist; [done|done|by rewrite Hl| | |]; rewrite ?Hl; simpl.
  - intros a. split.
    + intros Ha. destruct (proj1 (Hfr a)) as (j' & -> & HF'); [set_solver|]. exists j'. split; [done|].
      rewrite upd2_ne; [done|]. right. intros ->. done.
    + intros (j' & -> & HF'). destruct (decide (j' = j)) as [->|Hne]; [by rewrite upd2_eq in HF'|].
      rewrite upd2_ne in HF' by auto.
      assert (Hin : blk g o j' ∈ blk g o j :: l) by (apply Hfr; eauto).
      apply elem_of_cons in Hin as [Heq|]; [|done]. apply blk_inj in Heq; [done|lia].
  - intros o' j' Hne. apply upd2_ne. auto.
  - intros j'. destruct (decide (j' = j)) as [->|Hne]; [by rewrite upd2_eq|].
    rewrite upd2_ne by auto. apply (rp_range _ _ _ _ Hr).
Qed.

(** An address is that of at most one free block. *)
Lemma free_once g T F B o j o' :
  repr g T F B -> good T F B -> F o j = true -> 0 <= o' < 8 -> blk g o j ∈ flist g o' -> o' = o.
Proof.
  intros Hr Hg HF Ho' Hin. destruct (rp_range _ _ _ _ Hr _ _ HF) as [Ho Hj].
  apply (rp_free _ _ _ _ Hr) in Hin as (j' & Heq & HF'); [|done]. unfold blk in Heq.
  assert (Hcmp : forall a b x y, 0 <= a -> a <= b -> x * 2 ^ (a + 12) = y * 2 ^ (b + 12) -> x / 2 ^ (b - a) = y).
  { intros a b x y Ha Hab Hxy. assert (Hp := pow_pos (a + 12) ltac:(lia)). assert (Hq := pow_pos (b - a) ltac:(lia)).
    replace (b + 12) with ((b - a) + (a + 12)) in Hxy by lia. rewrite (Z.pow_add_r 2 (b - a)) in Hxy by lia.
    assert (x = y * 2 ^ (b - a)) as ->; [|apply Z.div_mul; lia].
    apply (Z.mul_cancel_r _ _ (2 ^ (a + 12))); [lia|]. by rewrite <- Z.mul_assoc. }
  destruct (Z_le_gt_dec o o').
  - symmetry. eapply (gd_disj _ _ _ Hg); [exact HF|exact HF'|done|]. apply Hcmp; lia.
  - eapply (gd_disj _ _ _ Hg); [exact HF'|exact HF|lia|]. apply Hcmp; lia.
Qed.

Lemma run_unlink_block g T F B o j :
  repr g T F B -> F o j = true -> (forall o', 0 <= o' < 8 -> blk g o j ∈ flist g o' -> o' = o) ->
  exists g', free_unlink (blk g o j) g = Done tt g' /\ repr g' T (upd2 F o j false) B
    /\ pg_baseaddr g' = pg_baseaddr g /\ (forall o', o' <> o -> 0 <= o' < 8 -> flist g' o' = flist g o')
    /\ flist g' o = filter (fun x => x <> blk g o j) (flist g o) /\ gcount g' = gcount g - 2 ^ o.
Proof.
  intros Hr HF Honce. destruct (rp_range _ _ _ _ Hr _ _ HF) as [Ho Hj].
  assert (Hin : blk g o j ∈ flist g o) by (apply (rp_free _ _ _ _ Hr); eauto).
  assert (Hex : map_Exists (fun _ l => blk g o j ∈ l) (pg_freelist g)).
  { unfold flist in Hin. destruct (pg_freelist g !! o) as [l|] eqn:Hl; [by exists o, l|set_solver]. }
  unfold free_unlink. kpure. kstep kassert_dec. eexists. split; [done|].
  set (g' := mk_group _ _ _ _).
  assert (Hfl : forall o', flist g' o' = filter (fun x => x <> blk g o j) (flist g o')).
  { intros o'. unfold flist, g'. simpl. rewrite lookup_fmap. by destruct (pg_freelist g !! o'). }
  assert (Hsame : forall o', o' <> o -> 0 <= o' < 8 -> flist g' o' = flist g o').
  { intros o' Hne Ho'. rewrite Hfl. apply list_filter_all. intros x Hx ->. by apply Hne, Honce. }
  split_and!; [|done|done|by rewrite Hfl|].
  2:{ rewrite (gcount_change g _ o) by done. rewrite Hfl, (length_filter_ne (blk g o j) (flist g o)) by (done || apply Hr). lia. }
  split.
  - by destruct (rp_shape _ _ _ _ Hr); split.
  - intros o' a Ho'. change (blk g') with (blk g). destruct (decide (o' = o)) as [->|Hne].
    + rewrite Hfl, list_elem_of_filter, (rp_free _ _ _ _ Hr) by done. split.
      * intros [Ha (j' & -> & HF')]. exists j'. split; [done|]. rewrite upd2_ne; [done|]. right. naive_solver.
      * intros (j' & -> & HF'). destruct (decide (j' = j)) as [->|Hne]; [by rewrite upd2_eq in HF'|].
        rewrite upd2_ne in HF' by auto. split; [|eauto]. intros Heq%blk_inj; [done|lia].
    + rewrite Hsame by done. rewrite (rp_free _ _ _ _ Hr) by done.
      split; intros (j' & -> & HF'); exists j'; (split; [done|]); rewrite upd2_ne in *; auto.
  - intros o'. rewrite Hfl. apply NoDup_filter, Hr.
  - intros o' l. unfold g'. simpl. rewrite lookup_fmap. intros (l' & Hl' & _)%fmap_Some. by eapply rp_dom.
  - intros o' j' HF'. apply (rp_range _ _ _ _ Hr). unfold upd2 in HF'. by destruct (_ && _).
  - apply Hr.
Qed.

Lemma run_flip g T F B o i :
  repr g T F B -> 0 <= o < 7 -> 0 <= i < T * 2 ^ (6 - o) ->
  exists g', group_flip (o + 1) i g = Done tt g' /\ repr g' T F (upd2 B o i (negb (B o i)))
    /\ pg_baseaddr g' = pg_baseaddr g /\ pg_freelist g' = pg_freelist g.
Proof.
  intros Hr Ho Hi. assert (Hb := rp_bits _ _ _ _ Hr _ _ Ho Hi).
  destruct (pg_map g !! (o + 1)) as [m|] eqn:Hm; [|done]. simpl in Hb.
  destruct (bit_flip_spec m i (B o i)) as (m' & Hflip & Hm'); [lia|done|].
  unfold group_flip. kpure. erewrite kbind_done; [|by apply kderef_Some]. cbn beta.
  erewrite kbind_done; [|by apply kderef_Some]. eexists. split; [done|]. split; [|done].
  destruct Hr as [Hsh Hfr Hnd Hdom Hrg Hbits]. split; try done; [by destruct Hsh; split|].
  intros o' i' Ho' Hi'. simpl. destruct (decide (o' = o)) as [->|Hne].
  - rewrite lookup_insert_eq. simpl. rewrite Hm' by lia.
    destruct (Z.eqb_spec i' i) as [->|Hne]; [by rewrite upd2_eq|]. rewrite upd2_ne by auto.
    specialize (Hbits o i' Ho Hi'). by rewrite Hm in Hbits.
  - rewrite lookup_insert_ne, upd2_ne by (auto; lia). by apply Hbits.
Qed.

Lemma run_check g T F B o i :
  repr g T F B -> 0 <= o < 7 -> 0 <= i < T * 2 ^ (6 - o) -> group_check (o + 1) i g = Done (B o i) g.
Proof.
  intros Hr Ho Hi. assert (Hb := rp_bits _ _ _ _ Hr _ _ Ho Hi).
  destruct (pg_map g !! (o + 1)) as [m|] eqn:Hm; [|done]. simpl in Hb. unfold bitv in Hb.
  destruct (bit_check m i) as [v|] eqn:Hv; [|done]. injection Hb as Hb.
  unfold group_check. kpure. erewrite kbind_done; [|by apply kderef_Some]. cbn beta.
  erewrite kbind_done; [|by apply kderef_Some]. unfold kret. by rewrite Hb.
Qed.

(** ** The moves of the allocator on the abstract state *)

Definition tog (B : Z -> Z -> bool) (o i : Z) : Z -> Z -> bool :=
  if o <? 7 then upd2 B o i (negb (B o i)) else B.

Lemma half j : j = 2 * (j / 2) \/ j = 2 * (j / 2) + 1.
Proof. pose proof (Z.div_mod j 2). pose proof (Z.mod_pos_bound j 2). lia. Qed.

Lemma half_range T o j : 0 <= o < 7 -> 0 <= j < T * 2 ^ (7 - o) -> 0 <= j / 2 < T * 2 ^ (6 - o).
Proof.
  intros Ho Hj. replace (7 - o) with (1 + (6 - o)) in Hj by lia. rewrite Z.pow_add_r in Hj by lia.
  change (2 ^ 1) with 2 in Hj. destruct (half j); lia.
Qed.

(** One block of a pair changes side and the bit of the pair is flipped. *)
Lemma bits_toggle T F B o j v :
  (forall o i, 0 <= o < 7 -> 0 <= i < T * 2 ^ (6 - o) -> B o i = xorb (F o (2 * i)) (F o (2 * i + 1))) ->
  F o j = negb v ->
  forall o' i, 0 <= o' < 7 -> 0 <= i < T * 2 ^ (6 - o') ->
  tog B o (j / 2) o' i = xorb (upd2 F o j v o' (2 * i)) (upd2 F o j v o' (2 * i + 1)).
Proof.
  intros Hb HF o' i Ho' Hi. unfold tog. destruct (Z.ltb_spec o 7).
  - destruct (decide (o' = o /\ i = j / 2)) as [[-> ->]|Hne].
    + rewrite upd2_eq, Hb by done. destruct (half j) as [Hj|Hj];
        set (k := j / 2) in *; clearbody k; subst j; rewrite HF, upd2_eq, upd2_ne by lia.
      * by destruct v, (F o (2 * k + 1)).
      * by destruct v, (F o (2 * k)).
    + assert (Hn : o' <> o \/ i <> j / 2) by lia. rewrite !upd2_ne; [by apply Hb|..]; destruct (half j); lia.
  - rewrite !upd2_ne by lia. by apply Hb.
Qed.

Lemma good_take T F B o j : good T F B -> F o j = true -> good T (upd2 F o j false) (tog B o (j / 2)).
Proof.
  intros Hg HF. split; [|by apply bits_toggle; [apply Hg|]].
  intros a x b y Ha Hb. apply (gd_disj _ _ _ Hg).
  - unfold upd2 in Ha. by destruct (_ && _).
  - unfold upd2 in Hb. by destruct (_ && _).
Qed.

(** No free block meets the block [j] of order [o]. *)
Definition clear (F : Z -> Z -> bool) (o j : Z) : Prop :=
  forall o' j', F o' j' = true ->
    (o <= o' -> j / 2 ^ (o' - o) <> j') /\ (o' <= o -> j' / 2 ^ (o - o') <> j).

Lemma clear_not_free F o j : clear F o j -> F o j = false.
Proof.
  intros Hc. apply not_true_iff_false. intros HF. destruct (Hc _ _ HF) as [H _].
  apply H; [lia|]. by rewrite Z.sub_diag, Z.div_1_r.
Qed.

Lemma good_put T F B o j : good T F B -> clear F o j -> good T (upd2 F o j true) (tog B o (j / 2)).
Proof.
  intros Hg Hc. split; [|apply bits_toggle; [apply Hg|by apply clear_not_free]].
  intros a x b y Ha Hb Hab Hxy. destruct (decide (a = o /\ x = j)) as [[-> ->]|Ha'].
  - destruct (decide (b = o /\ y = j)) as [[-> ->]|Hb']; [done|].
    rewrite upd2_ne in Hb by lia. destruct (Hc _ _ Hb) as [Hc1 _]. by destruct (Hc1 Hab).
  - rewrite upd2_ne in Ha by lia. destruct (decide (b = o /\ y = j)) as [[-> ->]|Hb'].
    + destruct (Hc _ _ Ha) as [_ Hc2]. by destruct (Hc2 Hab).
    + rewrite upd2_ne in Hb by lia. by eapply (gd_disj _ _ _ Hg).
Qed.

(** A block contains its halves and the halves of blocks below it. *)
Lemma child_div j o o' c : 0 <= o < o' -> c = 2 * j \/ c = 2 * j + 1 ->
  c / 2 ^ (o' - o) = j / 2 ^ (o' - (o + 1)).
Proof.
  intros Ho Hc. replace (o' - o) with (1 + (o' - (o + 1))) by lia. rewrite Z.pow_add_r by lia.
  assert (Hp := pow_pos (o' - (o + 1)) ltac:(lia)). rewrite <- Z.div_div by lia. f_equal. change (2 ^ 1) with 2.
  destruct Hc as [-> | ->]; [rewrite Z.mul_comm; by apply Z.div_mul|].
  rewrite Z.mul_comm, Z.div_add_l by lia. change (1 / 2) with 0. lia.
Qed.

Lemma parent_div j o o' c : 0 <= o' <= o -> c = 2 * j \/ c = 2 * j + 1 ->
  forall x, x / 2 ^ (o - o') = c -> x / 2 ^ (o + 1 - o') = j.
Proof.
  intros Ho Hc x Hx. replace (o + 1 - o') with ((o - o') + 1) by lia. rewrite Z.pow_add_r by lia.
  assert (Hp := pow_pos (o - o') ltac:(lia)). rewrite <- Z.div_div by lia. rewrite Hx. change (2 ^ 1) with 2.
  destruct Hc as [-> | ->]; [rewrite Z.mul_comm; by apply Z.div_mul|].
  rewrite Z.mul_comm, Z.div_add_l by lia. change (1 / 2) with 0. lia.
Qed.

Lemma children_of j o o' x : 0 <= o' <= o -> x / 2 ^ (o + 1 - o') = j ->
  x / 2 ^ (o - o') = 2 * j \/ x / 2 ^ (o - o') = 2 * j + 1.
Proof.
  intros Ho Hx. replace (o + 1 - o') with ((o - o') + 1) in Hx by lia. rewrite Z.pow_add_r in Hx by lia.
  assert (Hp := pow_pos (o - o') ltac:(lia)). rewrite <- Z.div_div in Hx by lia. change (2 ^ 1) with 2 in Hx.
  destruct (half (x / 2 ^ (o - o'))); lia.
Qed.

(** The state between: the block [j] of order [o + 1] becomes its two halves, or the other way round. *)
Definition halves (F : Z -> Z -> bool) (o j : Z) (v : bool) : Z -> Z -> bool :=
  upd2 (upd2 (upd2 F (o + 1) j (negb v)) o (2 * j) v) o (2 * j + 1) v.

Lemma halves_old F o j v a x :
  ~ (a = o + 1 /\ x = j) -> ~ (a = o /\ (x = 2 * j \/ x = 2 * j + 1)) -> halves F o j v a x = F a x.
Proof. intros. unfold halves. rewrite !upd2_ne by lia. done. Qed.
Lemma halves_parent F o j v : halves F o j v (o + 1) j = negb v.
Proof. unfold halves. rewrite !upd2_ne, upd2_eq by lia. done. Qed.
Lemma halves_child F o j v x : x = 2 * j \/ x = 2 * j + 1 -> halves F o j v o x = v.
Proof.
  intros [-> | ->]; unfold halves; [rewrite upd2_ne by lia|]; by rewrite upd2_eq.
Qed.

(** A pair whose halves are both free or both taken keeps its bit. *)
Lemma halves_bits T F B o j v :
  good T F B -> 0 <= o < 7 -> F (o + 1) j = v -> F o (2 * j) = negb v -> F o (2 * j + 1) = negb v ->
  forall o' i, 0 <= o' < 7 -> 0 <= i < T * 2 ^ (6 - o') ->
  tog B (o + 1) (j / 2) o' i = xorb (halves F o j v o' (2 * i)) (halves F o j v o' (2 * i + 1)).
Proof.
  intros Hg Ho Hp H0 H1 o' i Ho' Hi.
  assert (Ht := bits_toggle T F B (o + 1) j (negb v) (gd_bits _ _ _ Hg) ltac:(by rewrite negb_involutive) o' i Ho' Hi).
  rewrite Ht. unfold halves. destruct (decide (o' = o /\ i = j)) as [[-> ->]|Hne].
  - rewrite (upd2_eq _ o (2 * j + 1)). rewrite (upd2_ne _ o (2 * j + 1)), (upd2_eq _ o (2 * j)) by lia.
    rewrite !upd2_ne by lia. rewrite H0, H1. by destruct v.
  - rewrite !(upd2_ne _ o (2 * j + 1)), !(upd2_ne _ o (2 * j)) by lia. done.
Qed.

Lemma good_split T F B o j :
  good T F B -> 0 <= o < 7 -> F (o + 1) j = true ->
  (forall a x, F a x = true -> 0 <= a) ->
  F o (2 * j) = false /\ F o (2 * j + 1) = false
  /\ good T (halves F o j true) (tog B (o + 1) (j / 2)).
Proof.
  intros Hg Ho HF Hnn.
  assert (Hch : forall c, c = 2 * j \/ c = 2 * j + 1 -> F o c = false).
  { intros c Hc. apply not_true_iff_false. intros HFc.
    assert (o = o + 1); [|lia]. eapply (gd_disj _ _ _ Hg); [exact HFc|exact HF|lia|].
    rewrite (child_div j) by (lia || done). by rewrite Z.sub_diag, Z.div_1_r. }
  split_and!; [by apply Hch; left|by apply Hch; right|].
  split; [|by apply halves_bits; [done|done|done|apply Hch; left|apply Hch; right]].
  (* a block of the new state is a half or an old block other than the parent *)
  assert (Hcase : forall a x, halves F o j true a x = true ->
    (a = o /\ (x = 2 * j \/ x = 2 * j + 1)) \/ (F a x = true /\ ~ (a = o + 1 /\ x = j))).
  { intros a x. destruct (decide (a = o + 1 /\ x = j)) as [[-> ->]|Hp]; [by rewrite halves_parent|].
    destruct (decide (a = o /\ (x = 2 * j \/ x = 2 * j + 1))); [auto|]. rewrite halves_old by done. auto. }
  intros a x b y Ha Hb Hab Hxy.
  destruct (Hcase _ _ Ha) as [[-> Hx]|[HFa Hna]], (Hcase _ _ Hb) as [[-> Hy]|[HFb Hnb]]; [done|..].
  - destruct (decide (b = o)) as [->|Hbo]; [done|]. exfalso. apply Hnb.
    rewrite (child_div j) in Hxy by (lia || done).
    assert (o + 1 = b) as <- by (eapply (gd_disj _ _ _ Hg); [exact HF|exact HFb|lia|done]).
    rewrite Z.sub_diag, Z.div_1_r in Hxy. auto.
  - destruct (decide (a = o)) as [->|Hao]; [done|]. exfalso. assert (0 <= a) by eauto.
    assert (a = o + 1); [|lia]. eapply (gd_disj _ _ _ Hg); [exact HFa|exact HF|lia|].
    eapply parent_div; [lia|exact Hy|done].
  - by eapply (gd_disj _ _ _ Hg).
Qed.

Lemma good_join T F B o j :
  good T F B -> 0 <= o < 7 -> F o (2 * j) = true -> F o (2 * j + 1) = true ->
  (forall a x, F a x = true -> 0 <= a) ->
  F (o + 1) j = false /\ good T (halves F o j false) (tog B (o + 1) (j / 2)).
Proof.
  intros Hg Ho H0 H1 Hnn.
  assert (Hpar : F (o + 1) j = false).
  { apply not_true_iff_false. intros HF. assert (o = o + 1); [|lia].
    eapply (gd_disj _ _ _ Hg); [exact H0|exact HF|lia|].
    rewrite (child_div j) by (lia || auto). by rewrite Z.sub_diag, Z.div_1_r. }
  split; [done|]. split; [|by apply halves_bits].
  assert (Hcase : forall a x, halves F o j false a x = true ->
    (a = o + 1 /\ x = j) \/ (F a x = true /\ ~ (a = o /\ (x = 2 * j \/ x = 2 * j + 1)))).
  { intros a x. destruct (decide (a = o + 1 /\ x = j)) as [|Hp]; [auto|].
    destruct (decide (a = o /\ (x = 2 * j \/ x = 2 * j + 1))) as [[-> Hx]|]; [by rewrite halves_child|].
    rewrite halves_old by done. auto. }
  intros a x b y Ha Hb Hab Hxy.
  destruct (Hcase _ _ Ha) as [[-> ->]|[HFa Hna]], (Hcase _ _ Hb) as [[-> ->]|[HFb Hnb]]; [done|..].
  - destruct (decide (b = o + 1)) as [->|Hbo]; [done|]. exfalso.
    assert (o = b); [|lia]. eapply (gd_disj _ _ _ Hg); [exact H0|exact HFb|lia|].
    by rewrite (child_div j) by (lia || auto).
  - destruct (decide (a = o + 1)) as [->|Hao]; [done|]. exfalso. assert (0 <= a) by eauto.
    destruct (children_of j o a x ltac:(lia) Hxy) as [Hc|Hc].
    + assert (a = o) as -> by (eapply (gd_disj _ _ _ Hg); [exact HFa|exact H0|lia|done]).
      rewrite Z.sub_diag, Z.div_1_r in Hc. auto.
    + assert (a = o) as -> by (eapply (gd_disj _ _ _ Hg); [exact HFa|exact H1|lia|done]).
      rewrite Z.sub_diag, Z.div_1_r in Hc. auto.
  - by eapply (gd_disj _ _ _ Hg).
Qed.

(** ** The operations on a group *)

Lemma repr_ext g T F F' B B' :
  (forall o j, F o j = F' o j) -> (forall o j, B o j = B' o j) -> repr g T F B -> repr g T F' B'.
Proof.
  intros HF HB Hr. split; try apply Hr.
  - intros o a Ho. rewrite (rp_free _ _ _ _ Hr) by done. by setoid_rewrite HF.
  - intros o j. rewrite <- HF. apply Hr.
  - intros o i. rewrite <- HB. apply Hr.
Qed.

Lemma index_up o j : 0 <= o -> j * 2 ^ o / 2 ^ (o + 1) = j / 2.
Proof.
  intros Ho. assert (Hp := pow_pos o Ho). rewrite Z.pow_add_r by lia. rewrite (Z.mul_comm (2 ^ o)).
  by rewrite Z.div_mul_cancel_r by lia.
Qed.
Lemma index_same o j : 0 <= o -> j * 2 ^ o / 2 ^ o = j.
Proof. intros Ho. assert (Hp := pow_pos o Ho). apply Z.div_mul. lia. Qed.

(** Flip the bit of the pair the block belongs to, if its order has one. *)
Lemma run_flip_pair g T F B o j :
  repr g T F B -> 0 <= o < 8 -> 0 <= j < T * 2 ^ (7 - o) ->
  exists g', (if o <? PAGE_NSIZES - 1 then
       index <- pagegroup_calculate_index (o + 1) (blk g o j) ;; group_flip (o + 1) index
     else kret tt) g = Done tt g'
    /\ repr g' T F (tog B o (j / 2)) /\ pg_baseaddr g' = pg_baseaddr g
    /\ pg_freelist g' = pg_freelist g.
Proof.
  intros Hr Ho Hj. unfold tog, PAGE_NSIZES. change (8 - 1) with 7. destruct (Z.ltb_spec o 7).
  - destruct (run_flip g T F B o (j / 2)) as (g' & Hf & Hr' & ? & ?); [done|lia|by apply half_range; [lia|]|].
    exists g'. split; [|done].
    erewrite kbind_done; [|apply run_index with (T := T); [apply Hr|lia|lia|done]]. by rewrite index_up by lia.
  - by exists g.
Qed.

Lemma gcount_flists g g' : pg_freelist g' = pg_freelist g -> gcount g' = gcount g.
Proof. intros H. unfold gcount, flist. by rewrite H. Qed.

Lemma run_take g T F B o :
  repr g T F B -> good T F B -> 0 <= o < 8 -> flist g o <> [] ->
  exists j g', F o j = true /\ take_block o g = Done (blk g o j) g'
    /\ repr g' T (upd2 F o j false) (tog B o (j / 2)) /\ good T (upd2 F o j false) (tog B o (j / 2))
    /\ pg_baseaddr g' = pg_baseaddr g /\ gcount g' = gcount g - 2 ^ o.
Proof.
  intros Hr Hg Ho Hne. destruct (flist g o) as [|a l] eqn:Hl; [done|].
  assert (Ha : a ∈ flist g o) by (rewrite Hl; set_solver +).
  apply (rp_free _ _ _ _ Hr) in Ha as (j & -> & HF); [|done].
  destruct (rp_range _ _ _ _ Hr _ _ HF) as [_ Hj].
  destruct (run_pop g T F B o j l Hr Ho Hl) as (g1 & Hpop & Hr1 & Hb1 & _ & Hc1).
  destruct (run_flip_pair g1 T _ B o j Hr1 Ho Hj) as (g2 & Hfl & Hr2 & Hb2 & Hfr2).
  exists j, g2. split_and!; [done| |done|by apply good_take|congruence|by rewrite (gcount_flists _ _ Hfr2)].
  unfold take_block. kpure. rewrite Hl. erewrite kbind_done; [|by apply kderef_Some]. cbn beta.
  kstep Hpop. replace (blk g o j) with (blk g1 o j) at 1 by (unfold blk; by rewrite Hb1).
  by kstep Hfl.
Qed.

Lemma blk_halves g o j : 0 <= o -> blk g (o + 1) j = blk g o (2 * j).
Proof. intros. unfold blk. replace (o + 1 + 12) with (1 + (o + 12)) by lia. rewrite Z.pow_add_r by lia. lia. Qed.

Lemma run_split1 g T F B o :
  repr g T F B -> good T F B -> 0 <= o < 7 -> flist g (o + 1) <> [] ->
  exists j g', F (o + 1) j = true /\ page_split1 (o + 1) g = Done tt g'
    /\ repr g' T (halves F o j true) (tog B (o + 1) (j / 2))
    /\ good T (halves F o j true) (tog B (o + 1) (j / 2))
    /\ pg_baseaddr g' = pg_baseaddr g /\ flist g' o <> [] /\ gcount g' = gcount g.
Proof.
  intros Hr Hg Ho Hne. destruct (flist g (o + 1)) as [|a l] eqn:Hl; [done|].
  assert (Ha : a ∈ flist g (o + 1)) by (rewrite Hl; set_solver +).
  apply (rp_free _ _ _ _ Hr) in Ha as (j & -> & HF); [|lia].
  destruct (rp_range _ _ _ _ Hr _ _ HF) as [Ho1 Hj]. replace (7 - (o + 1)) with (6 - o) in Hj by lia.
  destruct (good_split T F B o j Hg Ho HF) as (H0 & H1 & Hg').
  { intros a x Hax. apply (rp_range _ _ _ _ Hr) in Hax. lia. }
  destruct (run_pop g T F B (o + 1) j l Hr Ho1 Hl) as (g1 & Hpop & Hr1 & Hb1 & _ & Hc1).
  destruct (run_flip_pair g1 T _ B (o + 1) j Hr1 Ho1) as (g2 & Hfl & Hr2 & Hb2 & Hfr2);
    [by replace (7 - (o + 1)) with (6 - o) by lia|].
  assert (Hj2 : 2 * j + 1 < T * 2 ^ (7 - o)).
  { replace (7 - o) with (1 + (6 - o)) by lia. rewrite Z.pow_add_r by lia. change (2 ^ 1) with 2. lia. }
  destruct (run_push g2 T _ _ o (2 * j) Hr2) as (g3 & Hp3 & Hr3 & Hb3 & Hl3 & Hc3); [lia|lia|by rewrite upd2_ne by lia|].
  destruct (run_push g3 T _ _ o (2 * j + 1) Hr3) as (g4 & Hp4 & Hr4 & Hb4 & Hl4 & Hc4);
    [lia|lia|by rewrite !upd2_ne by lia|].
  exists j, g4. split_and!; [done| |exact Hr4|done|congruence|by rewrite Hl4|].
  2:{ rewrite Hc4, Hc3, (gcount_flists _ _ Hfr2), Hc1, Z.pow_add_r by lia. lia. }
  unfold page_split1. erewrite kbind_done; [|apply kassert_true; lia].
  erewrite kbind_done; [|apply kassert_true; unfold PAGE_NSIZES; lia]. kpure. rewrite Hl.
  erewrite kbind_done; [|by apply kderef_Some]. cbn beta. kstep Hpop.
  assert (Hbk : forall g' o' j', pg_baseaddr g' = pg_baseaddr g -> blk g o' j' = blk g' o' j').
  { intros g' o' j' Heq. unfold blk. by rewrite Heq. }
  rewrite (Hbk g1) by done. kstep Hfl.
  rewrite <- (Hbk g1) by done. rewrite (Hbk g2) by congruence.
  erewrite kbind_done; [|apply run_index with (T := T); [apply Hr2|lia|lia|]].
  2:{ by replace (7 - (o + 1)) with (6 - o) by lia. }
  cbn beta. rewrite index_same by lia.
  erewrite kbind_done; [|apply (run_check g2 T _ _ o j Hr2); lia]. cbn beta.
  assert (Hbit : tog B (o + 1) (j / 2) o j = false).
  { unfold tog. assert (HB : B o j = false) by (rewrite (gd_bits _ _ _ Hg), H0, H1 by lia; done).
    destruct (o + 1 <? 7); [by rewrite upd2_ne by lia|done]. }
  rewrite Hbit. erewrite kbind_done; [|done].
  replace (o + 1 - 1) with o by lia.
  assert (Hend : blk g2 o (2 * j + 1) < 2 ^ 32 /\ 0 <= blk g2 o (2 * j + 1)).
  { destruct (blk_range g2 T o (2 * j + 1)) as [Hlo Hhi]; [apply Hr2|lia|lia|].
    assert (Ht := sh_top _ _ (rp_shape _ _ _ _ Hr2)). destruct (sh_base _ _ (rp_shape _ _ _ _ Hr2)).
    assert (Hpp := pow_pos (o + 12) ltac:(lia)). lia. }
  assert (Hbuddy : u32 (blk g2 (o + 1) j + Z.shiftl (Z.shiftl 1 o) PAGE_SHIFT) = blk g2 o (2 * j + 1)).
  { rewrite Z.shiftl_shiftl, Z.shiftl_1_l by lia. unfold PAGE_SHIFT. rewrite blk_halves by lia.
    replace (blk g2 o (2 * j) + 2 ^ (o + 12)) with (blk g2 o (2 * j + 1)) by (unfold blk; lia).
    apply u32_small. lia. }
  rewrite Hbuddy, blk_halves by lia. kstep Hp3.
  replace (blk g2 o (2 * j + 1)) with (blk g3 o (2 * j + 1)) by (unfold blk; by rewrite Hb3). exact Hp4.
Qed.

(** ** Which pages are free *)

Lemma page_in_half o j p : 0 <= o -> p / 2 ^ (o + 1) = j <-> p / 2 ^ o = 2 * j \/ p / 2 ^ o = 2 * j + 1.
Proof.
  intros Ho. assert (Hp := pow_pos o Ho). rewrite Z.pow_add_r, <- Z.div_div by lia. change (2 ^ 1) with 2.
  pose proof (half (p / 2 ^ o)). split; [lia|]. intros [-> | ->].
  - rewrite Z.mul_comm. by apply Z.div_mul.
  - rewrite Z.mul_comm, Z.div_add_l by lia. change (1 / 2) with 0. lia.
Qed.

(** Splitting a free block, or joining two, does not change which pages are free. *)
Lemma free_halves F o j v p :
  0 <= o < 7 -> F (o + 1) j = v -> F o (2 * j) = negb v -> F o (2 * j + 1) = negb v ->
  page_is_free (halves F o j v) p <-> page_is_free F p.
Proof.
  intros Ho Hp H0 H1. split; intros (a & Ha & HF).
  - destruct (decide (a = o + 1 /\ p / 2 ^ a = j)) as [[-> Hj]|Hn1].
    + rewrite Hj, halves_parent in HF. apply negb_true_iff in HF. subst v.
      apply page_in_half in Hj; [|lia]. exists o. split; [lia|]. destruct Hj as [-> | ->]; rewrite ?H0, ?H1; by rewrite HF.
    + destruct (decide (a = o /\ (p / 2 ^ a = 2 * j \/ p / 2 ^ a = 2 * j + 1))) as [[-> Hj]|Hn2].
      * rewrite halves_child in HF by done. subst v. exists (o + 1). split; [lia|].
        apply page_in_half in Hj; [|lia]. by rewrite Hj.
      * rewrite halves_old in HF by done. by exists a.
  - destruct (decide (a = o + 1 /\ p / 2 ^ a = j)) as [[-> Hj]|Hn1].
    + rewrite Hj in HF. exists o. split; [lia|]. apply page_in_half in Hj; [|lia].
      rewrite halves_child by done. congruence.
    + destruct (decide (a = o /\ (p / 2 ^ a = 2 * j \/ p / 2 ^ a = 2 * j + 1))) as [[-> Hj]|Hn2].
      * exists (o + 1). split; [lia|]. assert (Hj' := Hj). apply page_in_half in Hj'; [|lia].
        rewrite Hj', halves_parent. destruct Hj as [Hj|Hj]; rewrite Hj in HF; congruence.
      * exists a. split; [done|]. by rewrite halves_old.
Qed.

Lemma free_take T F B o j p :
  good T F B -> 0 <= o < 8 -> F o j = true ->
  page_is_free (upd2 F o j false) p <-> page_is_free F p /\ p / 2 ^ o <> j.
Proof.
  intros Hg Ho HF. split.
  - intros (a & Ha & HFa). destruct (decide (a = o /\ p / 2 ^ a = j)) as [[-> Hj]|Hne].
    + by rewrite Hj, upd2_eq in HFa.
    + rewrite upd2_ne in HFa by lia. split; [by exists a|]. intros Hj. apply Hne.
      (* both blocks contain the page *)
      destruct (Z_le_gt_dec o a).
      * assert (o = a) as <-; [|done]. eapply (gd_disj _ _ _ Hg); [exact HF|exact HFa|done|].
        rewrite <- Hj. assert (Hq := pow_pos o ltac:(lia)). assert (Hq' := pow_pos (a - o) ltac:(lia)).
        rewrite Z.div_div, <- Z.pow_add_r by lia. do 2 f_equal. lia.
      * assert (a = o) as ->; [|done]. eapply (gd_disj _ _ _ Hg); [exact HFa|exact HF|lia|].
        rewrite <- Hj. assert (Hq := pow_pos a ltac:(lia)). assert (Hq' := pow_pos (o - a) ltac:(lia)).
        rewrite Z.div_div, <- Z.pow_add_r by lia. do 2 f_equal. lia.
  - intros [(a & Ha & HFa) Hj]. exists a. split; [done|]. rewrite upd2_ne; [done|].
    destruct (decide (a = o)) as [->|]; [by right|by left].
Qed.

Lemma free_put F o j p :
  0 <= o < 8 -> page_is_free (upd2 F o j true) p <-> page_is_free F p \/ p / 2 ^ o = j.
Proof.
  intros Ho. split.
  - intros (a & Ha & HFa). destruct (decide (a = o /\ p / 2 ^ a = j)) as [[-> Hj]|Hne]; [by right|].
    rewrite upd2_ne in HFa by lia. left. by exists a.
  - intros [(a & Ha & HFa)|Hj].
    + exists a. split; [done|]. destruct (decide (a = o /\ p / 2 ^ a = j)) as [[-> ->]|Hne]; [by rewrite upd2_eq|].
      by rewrite upd2_ne by lia.
    + exists o. split; [done|]. by rewrite Hj, upd2_eq.
Qed.

(** A block none of whose pages is free meets no free block. *)
Lemma clear_pages F o j :
  (forall a x, F a x = true -> 0 <= a < 8) -> 0 <= o < 8 ->
  (forall p, p / 2 ^ o = j -> ~ page_is_free F p) -> clear F o j.
Proof.
  intros Hr Ho Hp a x HF. assert (Ha := Hr _ _ HF). split; intros Hle Heq.
  - apply (Hp (j * 2 ^ o)).
    { assert (Hq := pow_pos o ltac:(lia)). apply Z.div_mul. lia. }
    exists a. split; [done|]. replace (j * 2 ^ o / 2 ^ a) with x; [done|]. rewrite <- Heq.
    replace a with (o + (a - o)) at 2 by lia. rewrite Z.pow_add_r by lia.
    assert (Hq := pow_pos o ltac:(lia)). assert (Hq' := pow_pos (a - o) ltac:(lia)).
    rewrite <- Z.div_div, Z.div_mul by lia. done.
  - apply (Hp (x * 2 ^ a)).
    { replace o with (a + (o - a)) by lia. rewrite Z.pow_add_r by lia.
      assert (Hq := pow_pos a ltac:(lia)). assert (Hq' := pow_pos (o - a) ltac:(lia)).
      rewrite <- Z.div_div, Z.div_mul by lia. done. }
    exists a. split; [done|]. assert (Hq := pow_pos a ltac:(lia)). by rewrite Z.div_mul by lia.
Qed.

(** ** Joining and freeing *)

Definition sibling (j : Z) : Z := if j mod 2 =? 0 then j + 1 else j - 1.

Lemma sibling_cases j : (j = 2 * (j / 2) /\ sibling j = 2 * (j / 2) + 1)
  \/ (j = 2 * (j / 2) + 1 /\ sibling j = 2 * (j / 2)).
Proof.
  unfold sibling. pose proof (Z.div_mod j 2). pose proof (Z.mod_pos_bound j 2).
  destruct (Z.eqb_spec (j mod 2) 0); lia.
Qed.

Lemma run_join_step g T F B o j :
  repr g T F B -> good T F B -> 0 <= o < 7 -> F o j = true -> B o (j / 2) = false ->
  exists g1, (free_unlink (blk g o j) ;;; free_unlink (blk g o (sibling j)) ;;;
              free_push (o + 1) (Z.min (blk g o j) (blk g o (sibling j)))) g = Done tt g1
    /\ F o (2 * (j / 2)) = true /\ F o (2 * (j / 2) + 1) = true /\ F (o + 1) (j / 2) = false
    /\ repr g1 T (halves F o (j / 2) false) B /\ pg_baseaddr g1 = pg_baseaddr g
    /\ Z.min (blk g o j) (blk g o (sibling j)) = blk g (o + 1) (j / 2) /\ gcount g1 = gcount g.
Proof.
  intros Hr Hg Ho HF HB. destruct (rp_range _ _ _ _ Hr _ _ HF) as [_ Hj].
  assert (Hhr := half_range T o j Ho Hj). rewrite (gd_bits _ _ _ Hg) in HB by done.
  assert (Hsib := sibling_cases j).
  assert (Hboth : F o (2 * (j / 2)) = true /\ F o (2 * (j / 2) + 1) = true).
  { destruct Hsib as [[Hj' _]|[Hj' _]]; rewrite Hj' in HF;
      destruct (F o (2 * (j / 2))), (F o (2 * (j / 2) + 1)); done. }
  destruct Hboth as [H0 H1].
  assert (HFs : F o (sibling j) = true) by (destruct Hsib as [[_ ->]|[_ ->]]; done).
  destruct (good_join T F B o (j / 2) Hg Ho H0 H1) as [Hpar _].
  { intros a x Hax. apply (rp_range _ _ _ _ Hr) in Hax. lia. }
  assert (Hne : sibling j <> j) by lia.
  destruct (run_unlink_block g T F B o j Hr HF) as (ga & Hua & Hra & Hba & Hsa & Hfa & Hca).
  { intros o' Ho' Hin. by eapply (free_once g T F B o j). }
  destruct (run_unlink_block ga T _ B o (sibling j) Hra) as (gb & Hub & Hrb & Hbb & Hsb & Hfb & Hcb).
  { by rewrite upd2_ne by lia. }
  { intros o' Ho' Hin. replace (blk ga o (sibling j)) with (blk g o (sibling j)) in Hin by (unfold blk; by rewrite Hba).
    destruct (decide (o' = o)) as [|Hoo]; [done|]. rewrite Hsa in Hin by done.
    by eapply (free_once g T F B o (sibling j)). }
  assert (Hmin : Z.min (blk g o j) (blk g o (sibling j)) = blk g (o + 1) (j / 2)).
  { rewrite blk_halves by lia. assert (Hp := pow_pos (o + 12) ltac:(lia)). unfold blk.
    destruct Hsib as [[Ha Hb]|[Ha Hb]]; rewrite Hb; rewrite Ha at 1; [apply Z.min_l|apply Z.min_r]; nia. }
  destruct (run_push gb T _ B (o + 1) (j / 2) Hrb) as (gc & Hpc & Hrc & Hbc & _ & Hcc);
    [lia|by replace (7 - (o + 1)) with (6 - o) by lia|by rewrite !upd2_ne by lia|].
  exists gc. split_and!; try done.
  - kstep Hua. replace (blk g o (sibling j)) with (blk ga o (sibling j)) at 1 by (unfold blk; by rewrite Hba).
    kstep Hub. rewrite Hmin. replace (blk g (o + 1) (j / 2)) with (blk gb (o + 1) (j / 2)); [exact Hpc|].
    unfold blk. by rewrite Hbb, Hba.
  - eapply repr_ext; [|reflexivity|exact Hrc]. intros a x. unfold halves. simpl negb.
    destruct (decide (a = o + 1 /\ x = j / 2)) as [[-> ->]|Hn1].
    { rewrite upd2_eq, !(upd2_ne _ o) by lia. by rewrite upd2_eq. }
    rewrite upd2_ne by lia. destruct (decide (a = o /\ (x = j \/ x = sibling j))) as [[-> Hx]|Hn2].
    + assert (Hx' : x = 2 * (j / 2) \/ x = 2 * (j / 2) + 1) by lia. trans false.
      * destruct Hx as [-> | ->]; [rewrite upd2_ne by lia|]; by rewrite upd2_eq.
      * symmetry. by apply (halves_child F o (j / 2) false).
    + rewrite !upd2_ne by lia. done.
  - congruence.
  - rewrite Hcc, Hcb, Hca, Z.pow_add_r by lia. lia.
Qed.

(** The block is part of a free block that has no free buddy. *)
Definition merged (F : Z -> Z -> bool) (o j : Z) : Prop :=
  exists k, o <= k < 8 /\ F k (j / 2 ^ (k - o)) = true /\ (k = 7 \/ F k (sibling (j / 2 ^ (k - o))) = false).
Lemma merged_here F o j : 0 <= o < 8 -> F o j = true -> o = 7 \/ F o (sibling j) = false -> merged F o j.
Proof. intros Ho HF Hs. exists o. replace (o - o) with 0 by lia. rewrite Z.div_1_r. split; [lia|done]. Qed.
Lemma merged_up F o j : 0 <= o -> merged F (o + 1) (j / 2) -> merged F o j.
Proof.
  intros Ho (k & Hk & HF & Hs). exists k. assert (E : j / 2 ^ (k - o) = j / 2 / 2 ^ (k - (o + 1))).
  { replace (k - o) with (1 + (k - (o + 1))) by lia. rewrite Z.pow_add_r, Z.pow_1_r, Z.div_div by lia. done. }
  rewrite E. split; [lia|done].
Qed.

Lemma run_page_join fuel : forall g T F B o j,
  repr g T F B -> good T F B -> 0 <= o < 8 -> F o j = true -> 8 - o <= Z.of_nat fuel ->
  exists g' F' B', page_join fuel o (blk g o j) g = Done tt g'
    /\ repr g' T F' B' /\ good T F' B' /\ (forall p, page_is_free F' p <-> page_is_free F p)
    /\ pg_baseaddr g' = pg_baseaddr g /\ gcount g' = gcount g /\ merged F' o j.
Proof.
  induction fuel as [|fuel IH]; intros g T F B o j Hr Hg Ho HF Hfuel; [lia|].
  destruct (rp_range _ _ _ _ Hr _ _ HF) as [_ Hj]. cbn [page_join]. unfold PAGE_NSIZES. change (8 - 1) with 7.
  destruct (Z.ltb_spec o 7) as [Ho7|Ho7]; [|exists g, F, B; split_and!; try done; apply merged_here; [done|done|lia]].
  assert (Hhr := half_range T o j ltac:(lia) Hj).
  erewrite kbind_done; [|apply run_index with (T := T); [apply Hr|lia|lia|done]]. cbn beta. rewrite index_up by lia.
  erewrite kbind_done; [|apply (run_check g T F B o (j / 2) Hr); [lia|done]]. cbn beta.
  destruct (B o (j / 2)) eqn:HB.
  { exists g, F, B. split_and!; try done. apply merged_here; [done|done|right]. rewrite (gd_bits _ _ _ Hg) in HB by (lia || done).
    destruct (sibling_cases j) as [[E ->]|[E ->]]; rewrite E in HF; rewrite HF in HB; [by destruct (F o (2 * (j / 2) + 1))|by destruct (F o (2 * (j / 2)))]. }
  destruct (run_join_step g T F B o j) as (g1 & Hrun & H0 & H1 & Hpar & Hr1 & Hb1 & Hmin & Hc1); [done|done|lia|done|done|].
  destruct (good_join T F B o (j / 2) Hg ltac:(lia) H0 H1) as [_ Hg1].
  { intros a x Hax. apply (rp_range _ _ _ _ Hr) in Hax. lia. }
  destruct (run_flip_pair g1 T _ B (o + 1) (j / 2) Hr1) as (g2 & Hfl & Hr2 & Hb2 & Hfr2);
    [lia|by replace (7 - (o + 1)) with (6 - o) by lia|].
  destruct (IH g2 T (halves F o (j / 2) false) (tog B (o + 1) (j / 2 / 2)) (o + 1) (j / 2))
    as (g' & F' & B' & Hrun' & Hr' & Hg' & Hfree & Hb' & Hc' & Hmg); [done|done|lia|by rewrite halves_parent|lia|].
  exists g', F', B'. split_and!; [|done|done| |congruence| |apply merged_up; [lia|done]].
  3:{ rewrite Hc', (gcount_flists _ _ Hfr2). done. }
  2:{ intros p. rewrite Hfree. apply free_halves; [lia|done|by rewrite H0|by rewrite H1]. }
  kpure. destruct (blk_range _ _ _ _ (rp_shape _ _ _ _ Hr) Ho Hj) as [Hlo Hhi].
  assert (Ht := sh_top _ _ (rp_shape _ _ _ _ Hr)). destruct (sh_base _ _ (rp_shape _ _ _ _ Hr)) as [Hb0 _].
  assert (Hp12 := pow_pos (o + 12) ltac:(lia)). assert (Hpo := pow_pos o ltac:(lia)).
  assert (Hoff : u32 (blk g o j - pg_baseaddr g) = j * 2 ^ (o + 12)).
  { rewrite u32_small by lia. unfold blk. lia. }
  rewrite Hoff.
  assert (Hodd : Z.land (Z.shiftr (Z.shiftr (j * 2 ^ (o + 12)) PAGE_SHIFT) o) 1 = j mod 2).
  { rewrite Z.shiftr_shiftr by lia. unfold PAGE_SHIFT. rewrite Z.shiftr_div_pow2 by lia.
    replace (12 + o) with (o + 12) by lia. rewrite Z.div_mul by lia. exact (Z.land_ones j 1 ltac:(lia)). }
  rewrite Hodd.
  assert (Hsz : Z.shiftl (Z.shiftl 1 o) PAGE_SHIFT = 2 ^ (o + 12)).
  { unfold PAGE_SHIFT. by rewrite Z.shiftl_shiftl, Z.shiftl_1_l by lia. }
  rewrite Hsz.
  assert (Hbud : u32 (blk g o j + 2 ^ (o + 12) * (if j mod 2 =? 0 then 1 else -1)) = blk g o (sibling j)).
  { assert (Hs : blk g o j + 2 ^ (o + 12) * (if j mod 2 =? 0 then 1 else -1) = blk g o (sibling j)).
    { unfold blk, sibling. destruct (j mod 2 =? 0); lia. }
    rewrite Hs. apply u32_small.
    assert (Hsr : 0 <= sibling j < T * 2 ^ (7 - o)).
    { apply (rp_range _ _ _ _ Hr o). destruct (sibling_cases j) as [[_ ->]|[_ ->]]; done. }
    destruct (blk_range _ _ _ _ (rp_shape _ _ _ _ Hr) Ho Hsr). lia. }
  rewrite Hbud.
  erewrite kbind_done; [|apply kassert_true].
  2:{ rewrite Z.shiftl_1_l. replace (2 ^ o - 1) with (Z.ones o) by (rewrite Z.ones_equiv; lia).
      rewrite Z.land_ones by lia. apply Z.eqb_eq. rewrite Z.add_comm, Z.pow_add_r, Z.mul_assoc by lia. apply Z.mod_mul. lia. }
  cbn beta. rewrite Hmin in Hrun |- *.
  (* regroup the two removals and the insertion *)
  assert (Hseq : forall K : kernel pagegroup unit,
    (free_unlink (blk g o j) ;;; free_unlink (blk g o (sibling j)) ;;; free_push (o + 1) (blk g (o + 1) (j / 2)) ;;; K) g = K g1).
  { intros K. revert Hrun. unfold kbind. destruct (free_unlink (blk g o j) g) as [[] ga| | |]; simpl; try done.
    destruct (free_unlink (blk g o (sibling j)) ga) as [[] gb| | |]; simpl; try done. by intros [= ->]. }
  rewrite Hseq. replace (blk g (o + 1) (j / 2)) with (blk g1 (o + 1) (j / 2)) by (unfold blk; by rewrite Hb1).
  unfold PAGE_NSIZES in Hfl. change (8 - 1) with 7 in Hfl. replace (o + 1 + 1) with (o + 2) in Hfl by lia.
  kstep Hfl. replace (blk g1 (o + 1) (j / 2)) with (blk g2 (o + 1) (j / 2)) by (unfold blk; by rewrite Hb2).
  exact Hrun'.
Qed.

Lemma run_put g T F B o j :
  repr g T F B -> good T F B -> 0 <= o < 8 -> 0 <= j < T * 2 ^ (7 - o) -> clear F o j ->
  exists g' F' B', put_block (blk g o j) o g = Done tt g'
    /\ repr g' T F' B' /\ good T F' B'
    /\ (forall p, page_is_free F' p <-> page_is_free F p \/ p / 2 ^ o = j)
    /\ pg_baseaddr g' = pg_baseaddr g /\ gcount g' = gcount g + 2 ^ o /\ merged F' o j.
Proof.
  intros Hr Hg Ho Hj Hc.
  destruct (run_push g T F B o j Hr Ho Hj (clear_not_free _ _ _ Hc)) as (g1 & Hp & Hr1 & Hb1 & _ & Hc1).
  destruct (run_flip_pair g1 T _ B o j Hr1 Ho Hj) as (g2 & Hfl & Hr2 & Hb2 & Hfr2).
  assert (Hg2 := good_put T F B o j Hg Hc).
  unfold put_block. kstep Hp. revert Hfl. unfold PAGE_NSIZES. change (8 - 1) with 7.
  replace (blk g o j) with (blk g1 o j) by (unfold blk; by rewrite Hb1).
  destruct (Z.ltb_spec o 7) as [Ho7|Ho7]; intros Hfl.
  - destruct (run_page_join 8 g2 T _ _ o j Hr2 Hg2 Ho) as (g' & F' & B' & Hrun & Hr' & Hg' & Hfree & Hb' & Hc' & Hmg);
      [by rewrite upd2_eq|lia|].
    exists g', F', B'. split_and!; [|done|done| |congruence| |done].
    + rewrite (kbind_regroup _ _ _ _ _ _ Hfl).
      replace (blk g1 o j) with (blk g2 o j) by (unfold blk; by rewrite Hb2). exact Hrun.
    + intros p. rewrite Hfree. by apply free_put.
    + rewrite Hc', (gcount_flists _ _ Hfr2). done.
  - injection Hfl as <-. exists g1, (upd2 F o j true), (tog B o (j / 2)).
    split_and!; try done; [intros p; by apply free_put|]. apply merged_here; [done|by rewrite upd2_eq|lia].
Qed.

Lemma run_split_down n : forall g T F B order,
  repr g T F B -> good T F B -> 0 <= order -> order + Z.of_nat n < 8 -> flist g (order + Z.of_nat n) <> [] ->
  exists g' F' B', split_down n order g = Done tt g'
    /\ repr g' T F' B' /\ good T F' B' /\ (forall p, page_is_free F' p <-> page_is_free F p)
    /\ pg_baseaddr g' = pg_baseaddr g /\ flist g' order <> [] /\ gcount g' = gcount g.
Proof.
  induction n as [|n IH]; intros g T F B order Hr Hg Ho Hlt Hne.
  - rewrite Z.add_0_r in Hne. by exists g, F, B.
  - replace (order + Z.of_nat (S n)) with (order + Z.of_nat n + 1) in * by lia.
    destruct (run_split1 g T F B (order + Z.of_nat n) Hr Hg ltac:(lia) Hne)
      as (j & g1 & HF & Hrun & Hr1 & Hg1 & Hb1 & Hne1 & Hc1).
    destruct (good_split T F B (order + Z.of_nat n) j Hg ltac:(lia) HF) as (H0 & H1 & _).
    { intros a x Hax. apply (rp_range _ _ _ _ Hr) in Hax. lia. }
    destruct (IH g1 T _ _ order Hr1 Hg1 Ho ltac:(lia) Hne1) as (g' & F' & B' & Hrun' & ? & ? & Hfree & ? & ? & ?).
    exists g', F', B'. split_and!; try done; [|..].
    + cbn [split_down]. by kstep Hrun.
    + intros p. rewrite Hfree. apply free_halves; [lia|done|by rewrite H0|by rewrite H1].
    + congruence.
    + congruence.
Qed.

(** ** The page system *)

(** The byte at [x] lies in a free block of the group. *)
Definition free_at (g : pagegroup) (x : Z) : Prop :=
  exists o b, 0 <= o < 8 /\ b ∈ flist g o /\ b <= x < b + 2 ^ (o + 12).

Lemma div_interval x b k : 0 < k -> (x / k = b <-> b * k <= x < b * k + k).
Proof.
  intros Hk. split.
  - intros <-. pose proof (Z.div_mod x k). pose proof (Z.mod_pos_bound x k). nia.
  - intros Hx. symmetry. apply (Z.div_unique x k b (x - b * k)); lia.
Qed.

(** A byte lies in block [j] of order [o] when its page does. *)
Lemma blk_contains g o j x : 0 <= o ->
  blk g o j <= x < blk g o j + 2 ^ (o + 12) <-> (x - pg_baseaddr g) / 4096 / 2 ^ o = j.
Proof.
  intros Ho. assert (Hp := pow_pos o Ho). rewrite Z.div_div by lia.
  assert (H12 : 2 ^ (o + 12) = 4096 * 2 ^ o) by (rewrite Z.pow_add_r by lia; change (2 ^ 12) with 4096; lia).
  rewrite div_interval by lia. unfold blk. rewrite H12. lia.
Qed.

Lemma free_at_spec g T F B x :
  repr g T F B -> free_at g x <-> page_is_free F ((x - pg_baseaddr g) / 4096).
Proof.
  intros Hr. split.
  - intros (o & b & Ho & Hb & Hx). apply (rp_free _ _ _ _ Hr) in Hb as (j & -> & HF); [|done].
    apply blk_contains in Hx; [|lia]. exists o. split; [done|]. by rewrite Hx.
  - intros (o & Ho & HF). exists o, (blk g o ((x - pg_baseaddr g) / 4096 / 2 ^ o)). split; [done|].
    split; [apply (rp_free _ _ _ _ Hr); eauto|]. apply blk_contains; [lia|done].
Qed.

Definition group_ok (g : pagegroup) : Prop := exists T F B, repr g T F B /\ good T F B.

Definition total (s : pages) : Z := foldr Z.add 0 (gcount <$> pagegroup_list s).

(** Well-formed page systems: every group is, groups do not overlap, and the counter is right. *)
Record pages_ok (s : pages) : Prop := {
  po_groups : Forall group_ok (pagegroup_list s);
  po_disj : forall i j gi gj, pagegroup_list s !! i = Some gi -> pagegroup_list s !! j = Some gj -> i <> j ->
    pg_endaddr gi <= pg_baseaddr gj \/ pg_endaddr gj <= pg_baseaddr gi;
  po_count : page_freecount s = u32 (total s);
}.

Definition sys_free (s : pages) (x : Z) : Prop := exists g, g ∈ pagegroup_list s /\ free_at g x.

Lemma free_at_range g x : group_ok g -> free_at g x -> pg_baseaddr g <= x < pg_endaddr g.
Proof.
  intros (T & F & B & Hr & _) (o & b & Ho & Hb & Hx).
  apply (rp_free _ _ _ _ Hr) in Hb as (j & -> & HF); [|done]. destruct (rp_range _ _ _ _ Hr _ _ HF) as [_ Hj].
  destruct (blk_range _ _ _ _ (rp_shape _ _ _ _ Hr) Ho Hj). lia.
Qed.

Lemma total_insert l i g g' c d :
  l !! i = Some g -> gcount g' = gcount g + d ->
  foldr Z.add c (gcount <$> <[i := g']> l) = foldr Z.add c (gcount <$> l) + d.
Proof.
  intros Hi Hd. revert i Hi. induction l as [|h l IH]; intros [|i] Hi; try done.
  - simpl in Hi. simplify_eq. simpl. lia.
  - change (<[S i := g']> (h :: l)) with (h :: <[i := g']> l). rewrite !fmap_cons. cbn [foldr].
    rewrite (IH i) by done. lia.
Qed.

(** Group [i] is replaced by a group over the same addresses. *)
Lemma pages_ok_insert s i g g' d :
  pages_ok s -> pagegroup_list s !! i = Some g -> group_ok g' ->
  pg_baseaddr g' = pg_baseaddr g -> pg_endaddr g' = pg_endaddr g -> gcount g' = gcount g + d ->
  pages_ok (mk_pages (<[i := g']> (pagegroup_list s)) (u32 (page_freecount s + d))).
Proof.
  intros [Hg Hd Hc] Hi Hg' Hb He Hcnt. split; simpl.
  - by apply Forall_insert.
  - intros a b ga gb Ha Hbb Hne.
    assert (Hsame : forall k gk, <[i := g']> (pagegroup_list s) !! k = Some gk ->
      exists gk0, pagegroup_list s !! k = Some gk0 /\ pg_baseaddr gk = pg_baseaddr gk0 /\ pg_endaddr gk = pg_endaddr gk0).
    { intros k gk Hk. destruct (decide (k = i)) as [->|Hki].
      - rewrite list_lookup_insert_eq in Hk by (by eapply lookup_lt_Some). injection Hk as <-. eauto.
      - rewrite list_lookup_insert_ne in Hk by done. eauto. }
    destruct (Hsame _ _ Ha) as (ga0 & Ha0 & -> & ->). destruct (Hsame _ _ Hbb) as (gb0 & Hb0 & -> & ->). eauto.
  - unfold total. simpl. rewrite (total_insert _ i g g' 0 d) by done. rewrite Hc. unfold u32, total.
    by rewrite Zplus_mod_idemp_l.
Qed.

(** The bytes free in a system whose group [i] changes. *)
Lemma sys_free_insert s i g g' c x :
  pages_ok s -> pagegroup_list s !! i = Some g -> 
  (forall y, free_at g' y -> pg_baseaddr g <= y < pg_endaddr g) ->
  sys_free (mk_pages (<[i := g']> (pagegroup_list s)) c) x <->
  if decide (pg_baseaddr g <= x < pg_endaddr g) then free_at g' x else sys_free s x.
Proof.
  intros [Hg Hd Hc] Hi Hin. assert (Hlt := lookup_lt_Some _ _ _ Hi). unfold sys_free. simpl. case_decide as Hx.
  - split.
    + intros (h & (k & Hk)%list_elem_of_lookup & Hh). destruct (decide (k = i)) as [->|Hne].
      * rewrite list_lookup_insert_eq in Hk by done. by simplify_eq.
      * rewrite list_lookup_insert_ne in Hk by done.
        assert (Hok : group_ok h) by (eapply Forall_lookup_1; done).
        apply free_at_range in Hh; [|done]. destruct (Hd k i h g Hk Hi Hne); lia.
    + intros Hf. exists g'. split; [|done]. apply list_elem_of_lookup. exists i. by apply list_lookup_insert_eq.
  - split; intros (h & (k & Hk)%list_elem_of_lookup & Hh); exists h; (split; [|done]); apply list_elem_of_lookup; exists k.
    + destruct (decide (k = i)) as [->|Hne]; [|by rewrite list_lookup_insert_ne in Hk].
      rewrite list_lookup_insert_eq in Hk by done. simplify_eq. by apply Hin in Hh.
    + destruct (decide (k = i)) as [->|Hne]; [|by rewrite list_lookup_insert_ne].
      simplify_eq. apply free_at_range in Hh; [done|]. eapply Forall_lookup_1; done.
Qed.

Lemma shape_end g g' T : shape g T -> shape g' T -> pg_baseaddr g' = pg_baseaddr g -> pg_endaddr g' = pg_endaddr g.
Proof. intros Hs Hs' Hb. by rewrite (sh_end _ _ Hs), (sh_end _ _ Hs'), Hb. Qed.

Lemma run_with_group {A} i (m : kernel pagegroup A) s g a g' :
  pagegroup_list s !! i = Some g -> m g = Done a g' ->
  with_group i m s = Done a (mk_pages (<[i := g']> (pagegroup_list s)) (page_freecount s)).
Proof. intros Hi Hm. unfold with_group. by rewrite Hi, Hm. Qed.

(** [g'] is [g] with its free blocks cut differently. *)
Record same_group (g g' : pagegroup) : Prop := {
  sg_ok : group_ok g';
  sg_base : pg_baseaddr g' = pg_baseaddr g;
  sg_end : pg_endaddr g' = pg_endaddr g;
  sg_free : forall x, free_at g' x <-> free_at g x;
  sg_count : gcount g' = gcount g;
}.

Lemma same_group_system s i g g' :
  pages_ok s -> pagegroup_list s !! i = Some g -> same_group g g' ->
  let s' := mk_pages (<[i := g']> (pagegroup_list s)) (page_freecount s) in
  pages_ok s' /\ forall x, sys_free s' x <-> sys_free s x.
Proof.
  intros Hs Hi [Hok Hb He Hf Hc] s'. assert (Hg : group_ok g) by (eapply Forall_lookup_1; [apply Hs|done]).
  split.
  - assert (Hp := pages_ok_insert s i g g' 0 Hs Hi Hok Hb He ltac:(lia)). rewrite Z.add_0_r in Hp.
    subst s'. replace (page_freecount s) with (u32 (page_freecount s)); [done|].
    rewrite (po_count _ Hs). unfold u32. by rewrite Zmod_mod.
  - intros x. subst s'. rewrite (sys_free_insert s i g g' _ x Hs Hi).
    2:{ intros y Hy%Hf. by apply free_at_range. }
    case_decide as Hx; [|done]. rewrite Hf. split.
    + intros Hfx. exists g. split; [|done]. apply list_elem_of_lookup. eauto.
    + intros (h & (k & Hk)%list_elem_of_lookup & Hh). destruct (decide (k = i)) as [->|Hne]; [by simplify_eq|].
      exfalso. assert (Hokh : group_ok h) by (eapply Forall_lookup_1; [apply Hs|done]).
      apply free_at_range in Hh; [|done]. destruct (po_disj _ Hs k i h g Hk Hi Hne); lia.
Qed.

Lemma split_group g n order :
  group_ok g -> 0 <= order -> order + Z.of_nat n < 8 -> flist g (order + Z.of_nat n) <> [] ->
  exists g', split_down n order g = Done tt g' /\ same_group g g' /\ flist g' order <> [].
Proof.
  intros (T & F & B & Hr & Hg) Ho Hlt Hne.
  destruct (run_split_down n g T F B order Hr Hg Ho Hlt Hne) as (g' & F' & B' & Hrun & Hr' & Hg' & Hfree & Hb & Hne' & Hc).
  exists g'. split; [done|]. split; [|done]. split; [by exists T, F', B'|done| | |done].
  - eapply shape_end; [apply Hr|apply Hr'|done].
  - intros x. rewrite (free_at_spec g' T F' B' x Hr'), (free_at_spec g T F B x Hr), Hb. apply Hfree.
Qed.

Lemma group_with_free_Some o s i :
  group_with_free o s = Some i -> exists g, pagegroup_list s !! i = Some g /\ flist g o <> [].
Proof.
  unfold group_with_free. intros ([i' g] & Hf & ->)%fmap_Some. apply list_find_Some in Hf as (? & ? & _). eauto.
Qed.
Lemma group_with_free_None o s : group_with_free o s = None -> forall g, g ∈ pagegroup_list s -> flist g o = [].
Proof.
  unfold group_with_free. intros Hf%fmap_None%list_find_None g Hg. rewrite Forall_forall in Hf.
  specialize (Hf g Hg). destruct (flist g o); [done|]. by destruct Hf.
Qed.

Lemma run_split_search n : forall s norder order,
  pages_ok s -> 0 <= order < norder -> norder + Z.of_nat n = 8 ->
  (split_search n norder order s = Done None s
     /\ forall g o, g ∈ pagegroup_list s -> norder <= o < 8 -> flist g o = [])
  \/ exists i g g', pagegroup_list s !! i = Some g /\ same_group g g' /\ flist g' order <> []
      /\ (exists o', norder <= o' < 8 /\ flist g o' <> [])
      /\ split_search n norder order s = Done (Some i) (mk_pages (<[i := g']> (pagegroup_list s)) (page_freecount s)).
Proof.
  induction n as [|n IH]; intros s norder order Hs Ho Hn.
  - left. split; [done|]. intros. lia.
  - cbn [split_search]. destruct (group_with_free norder s) as [i|] eqn:Hf.
    + right. destruct (group_with_free_Some _ _ _ Hf) as (g & Hi & Hne).
      destruct (split_group g (Z.to_nat (norder - order)) order) as (g' & Hrun & Hsame & Hne').
      { eapply Forall_lookup_1; [apply Hs|done]. }
      { lia. }
      { lia. }
      { by replace (order + Z.of_nat (Z.to_nat (norder - order))) with norder by lia. }
      exists i, g, g'. split_and!; try done; [exists norder; split; [lia|done]|]. kpure. rewrite Hf.
      by erewrite kbind_done; [|by eapply run_with_group].
    + destruct (IH s (norder + 1) order Hs ltac:(lia) ltac:(lia)) as [[Hrun Hall]|(i & g & g' & ? & ? & ? & (o' & ? & ?) & Hrun)].
      * left. split; [kpure; by rewrite Hf|]. intros g o Hg Hoo. destruct (decide (o = norder)) as [->|Hne].
        -- by eapply group_with_free_None.
        -- apply Hall; [done|lia].
      * right. exists i, g, g'. split_and!; try done; [exists o'; split; [lia|done]|]. kpure. by rewrite Hf.
Qed.

Lemma run_take_system s i g o :
  pages_ok s -> pagegroup_list s !! i = Some g -> 0 <= o < 8 -> flist g o <> [] ->
  exists a s', (addr <- with_group i (take_block o) ;; add_freecount (- Z.shiftl 1 o) ;;; kret (Some addr)) s
      = Done (Some a) s'
    /\ pages_ok s' /\ page_freecount s' = u32 (page_freecount s - 2 ^ o)
    /\ (exists j, a = blk g o j) /\ pg_baseaddr g <= a /\ a + 2 ^ (o + 12) <= pg_endaddr g
    /\ (forall x, a <= x < a + 2 ^ (o + 12) -> sys_free s x)
    /\ (forall x, sys_free s' x <-> sys_free s x /\ ~ a <= x < a + 2 ^ (o + 12)).
Proof.
  intros Hs Hi Ho Hne. assert (Hok : group_ok g) by (eapply Forall_lookup_1; [apply Hs|done]).
  destruct Hok as (T & F & B & Hr & Hg).
  destruct (run_take g T F B o Hr Hg Ho Hne) as (j & g' & HF & Hrun & Hr' & Hg' & Hb & Hc).
  destruct (rp_range _ _ _ _ Hr _ _ HF) as [_ Hj].
  destruct (blk_range _ _ _ _ (rp_shape _ _ _ _ Hr) Ho Hj) as [Hlo Hhi].
  assert (He : pg_endaddr g' = pg_endaddr g) by (eapply shape_end; [apply Hr|apply Hr'|done]).
  assert (Hok' : group_ok g') by (by eexists T, _, _).
  assert (Hgin : g ∈ pagegroup_list s) by (apply list_elem_of_lookup; eauto).
  exists (blk g o j), (mk_pages (<[i := g']> (pagegroup_list s)) (u32 (page_freecount s - 2 ^ o))).
  split_and!.
  - erewrite kbind_done; [|by eapply run_with_group]. cbn beta. unfold add_freecount. kpure.
    rewrite Z.shiftl_1_l. done.
  - by apply (pages_ok_insert s i g g' (- 2 ^ o)).
  - done.
  - by exists j.
  - done.
  - done.
  - intros x Hx. exists g. split; [done|]. apply (free_at_spec g T F B x Hr). apply blk_contains in Hx; [|lia].
    exists o. split; [done|]. by rewrite Hx.
  - intros x. rewrite (sys_free_insert s i g g' _ x Hs Hi).
    2:{ intros y Hy%free_at_range; [lia|done]. }
    assert (Hff : free_at g' x <-> free_at g x /\ ~ blk g o j <= x < blk g o j + 2 ^ (o + 12)).
    { rewrite (free_at_spec g' _ _ _ x Hr'), (free_at_spec g T F B x Hr), Hb, blk_contains by lia.
      by eapply free_take. }
    case_decide as Hx.
    + rewrite Hff. split; [intros [??]; split; [by exists g|done]|]. intros [(h & (k & Hk)%list_elem_of_lookup & Hh) Hnb].
      split; [|done]. destruct (decide (k = i)) as [->|Hki]; [by simplify_eq|].
      exfalso. assert (Hokh : group_ok h) by (eapply Forall_lookup_1; [apply Hs|done]).
      apply free_at_range in Hh; [|done]. destruct (po_disj _ Hs k i h g Hk Hi Hki); lia.
    + split; [intros; split; [done|lia]|by intros [??]].
Qed.

Lemma from_address s i g a :
  pages_ok s -> pagegroup_list s !! i = Some g -> pg_baseaddr g <= a < pg_endaddr g ->
  pagegroup_from_address a s = Some i.
Proof.
  intros Hs Hi Ha. unfold pagegroup_from_address. apply fmap_Some. exists (i, g). split; [|done].
  apply list_find_Some. split; [done|]. split; [done|]. intros k h Hk Hlt Hh.
  destruct (po_disj _ Hs k i h g Hk Hi ltac:(lia)); lia.
Qed.

(** The block of [g] is part of a block that is on a free list of [g'] and whose buddy is not. *)
Definition joined (g' g : pagegroup) (o j : Z) : Prop := exists k, o <= k < 8 /\ let n := j / 2 ^ (k - o) in
  blk g k n ∈ flist g' k /\ (k = PAGE_NSIZES - 1 \/ blk g k (sibling n) ∉ flist g' k).
Lemma merged_joined g' g T F B o j : repr g' T F B -> pg_baseaddr g' = pg_baseaddr g -> 0 <= o -> merged F o j -> joined g' g o j.
Proof.
  intros Hr Hb Ho (k & Hk & HF & Hs). exists k. split; [done|]. assert (Eb : forall n, blk g k n = blk g' k n) by (intros n; unfold blk; by rewrite Hb).
  split; [apply (rp_free _ _ _ _ Hr); [lia|]; eexists; by rewrite Eb|]. destruct Hs as [->|Hs]; [by left|right]. rewrite Eb.
  intros (n & En%blk_inj & Hn)%(rp_free _ _ _ _ Hr); [|lia|lia]. congruence.
Qed.

(** A block is given back: none of its bytes is free. *)
Lemma run_put_system s i g o j :
  pages_ok s -> pagegroup_list s !! i = Some g -> 0 <= o < 8 ->
  let a := blk g o j in
  pg_baseaddr g <= a -> a + 2 ^ (o + 12) <= pg_endaddr g ->
  (forall x, a <= x < a + 2 ^ (o + 12) -> ~ sys_free s x) ->
  exists s', page_free_order a o s = Done tt s' /\ pages_ok s'
    /\ page_freecount s' = u32 (page_freecount s + 2 ^ o)
    /\ (forall x, sys_free s' x <-> sys_free s x \/ a <= x < a + 2 ^ (o + 12))
    /\ exists g', pagegroup_list s' !! i = Some g' /\ joined g' g o j.
Proof.
  intros Hs Hi Ho a Hlo Hhi Hnf. assert (Hok : group_ok g) by (eapply Forall_lookup_1; [apply Hs|done]).
  destruct Hok as (T & F & B & Hr & Hg). assert (Hgin : g ∈ pagegroup_list s) by (apply list_elem_of_lookup; eauto).
  assert (Hp12 := pow_pos (o + 12) ltac:(lia)).
  assert (Hj : 0 <= j < T * 2 ^ (7 - o)).
  { rewrite (sh_end _ _ (rp_shape _ _ _ _ Hr)) in Hhi. subst a. unfold blk in *.
    assert (H19 : 2 ^ 19 = 2 ^ (7 - o) * 2 ^ (o + 12)) by (rewrite <- Z.pow_add_r by lia; f_equal; lia).
    rewrite H19 in Hhi. nia. }
  assert (Hcl : clear F o j).
  { apply clear_pages; [intros b x Hbx; apply (rp_range _ _ _ _ Hr) in Hbx; lia|done|].
    intros p Hp Hfree. apply (Hnf (pg_baseaddr g + p * 4096)).
    - apply blk_contains; [lia|]. replace (pg_baseaddr g + p * 4096 - pg_baseaddr g) with (p * 4096) by lia.
      by rewrite Z.div_mul by lia.
    - exists g. split; [done|]. apply (free_at_spec g T F B _ Hr).
      replace (pg_baseaddr g + p * 4096 - pg_baseaddr g) with (p * 4096) by lia. by rewrite Z.div_mul by lia. }
  destruct (run_put g T F B o j Hr Hg Ho Hj Hcl) as (g' & F' & B' & Hrun & Hr' & Hg' & Hfree & Hb & Hc & Hmg).
  assert (He : pg_endaddr g' = pg_endaddr g) by (eapply shape_end; [apply Hr|apply Hr'|done]).
  assert (Hok' : group_ok g') by (by eexists T, _, _).
  exists (mk_pages (<[i := g']> (pagegroup_list s)) (u32 (page_freecount s + 2 ^ o))). split_and!.
  - unfold page_free_order. kpure. rewrite (from_address s i g a) by (done || lia).
    erewrite kbind_done; [|by eapply run_with_group]. unfold add_freecount, kmodify. simpl. by rewrite Z.shiftl_1_l.
  - by apply (pages_ok_insert s i g g' (2 ^ o)).
  - done.
  - intros x. rewrite (sys_free_insert s i g g' _ x Hs Hi).
    2:{ intros y Hy%free_at_range; [lia|done]. }
    assert (Hff : free_at g' x <-> free_at g x \/ a <= x < a + 2 ^ (o + 12)).
    { subst a. rewrite (free_at_spec g' _ _ _ x Hr'), (free_at_spec g T F B x Hr), Hb, blk_contains by lia. apply Hfree. }
    case_decide as Hx.
    + rewrite Hff. split; [intros [?|?]; [left; by exists g|by right]|].
      intros [(h & (k & Hk)%list_elem_of_lookup & Hh)|]; [|by right]. left.
      destruct (decide (k = i)) as [->|Hki]; [by simplify_eq|].
      exfalso. assert (Hokh : group_ok h) by (eapply Forall_lookup_1; [apply Hs|done]).
      apply free_at_range in Hh; [|done]. destruct (po_disj _ Hs k i h g Hk Hi Hki); lia.
    + split; [by left|]. intros [|]; [done|lia].
  - exists g'. split; [apply list_lookup_insert_eq; by eapply lookup_lt_Some|]. by eapply merged_joined; [| |lia|].
Qed.

(** ** Example: a group of 128 pages *)

Definition no_reclaim : kernel pages Z := kret 0.

Definition demo_group : pagegroup := Eval vm_compute in
  match pagegroup_create 0x100000 0x181000 with Some g => g | None => mk_group ∅ ∅ 0 0 end.
Definition demo_pages : pages := mk_pages [demo_group] 128.

Lemma demo_pages_created : page_add_range 0x100000 0x181000 (mk_pages [] 0) = Done tt demo_pages.
Proof. vm_compute. reflexivity. Qed.

Lemma demo_group_ok : group_ok demo_group.
Proof.
  exists 1, (fun o j => (o =? 7) && (j =? 0)), (fun _ _ => false). split.
  - assert (Hcase : forall o, 0 <= o < 8 -> o = 0 \/ o = 1 \/ o = 2 \/ o = 3 \/ o = 4 \/ o = 5 \/ o = 6 \/ o = 7) by lia.
    assert (Hfl : forall o, flist demo_group o = if o =? 7 then [0x100000] else []).
    { intros o. destruct (decide (0 <= o < 8)) as [Ho|Ho].
      - by destruct (Hcase o Ho) as [->|[->|[->|[->|[->|[->|[->| ->]]]]]]].
      - unfold flist. destruct (pg_freelist demo_group !! o) as [l|] eqn:Hl.
        + assert (Hd : map_Forall (fun o _ => 0 <= o < 8) (pg_freelist demo_group)) by (apply (bool_decide_unpack _); vm_compute; done).
          by apply Hd in Hl.
        + destruct (Z.eqb_spec o 7); [lia|done]. }
    split.
    + by split; vm_compute.
    + intros o a Ho. rewrite Hfl. destruct (Z.eqb_spec o 7) as [->|Hne]; simpl.
      * rewrite list_elem_of_singleton. split; [intros ->; by exists 0|]. intros (j & -> & Hj%Z.eqb_eq). by subst.
      * split; [set_solver|]. by intros (j & _ & ?).
    + intros o. rewrite Hfl. destruct (o =? 7); [apply NoDup_singleton|apply NoDup_nil_2].
    + intros o l Hl. assert (Hd : map_Forall (fun o _ => 0 <= o < 8) (pg_freelist demo_group)) by (apply (bool_decide_unpack _); vm_compute; done).
      by apply Hd in Hl.
    + intros o j [->%Z.eqb_eq ->%Z.eqb_eq]%andb_true_iff. split; [lia|done].
    + intros o i Ho Hi. rewrite Z.mul_1_l in Hi.
      assert (Hw : forall k, 0 <= k < 2 ^ (6 - o) / 32 + 1 -> forall m, pg_map demo_group !! (o + 1) = Some m ->
                   k * 32 < 2 ^ (6 - o) -> m !! k = Some 0).
      { intros k Hk m Hm Hlt. destruct (Hcase o ltac:(lia)) as [->|[->|[->|[->|[->|[->|[->| ->]]]]]]]; try lia;
          vm_compute in Hm; injection Hm as <-;
          (assert (k = 0 \/ k = 1) as [-> | ->] by (change (2 ^ (6 - 0)) with 64 in *; simpl in *; lia)); done || (exfalso; simpl in *; lia). }
      assert (Hm : is_Some (pg_map demo_group !! (o + 1))).
      { destruct (Hcase o ltac:(lia)) as [->|[->|[->|[->|[->|[->|[->| ->]]]]]]]; try lia; by eexists. }
      destruct Hm as [m Hm]. rewrite Hm. simpl. rewrite bitv_spec by lia.
      pose proof (Z.div_mod i 32 ltac:(lia)). pose proof (Z.mod_pos_bound i 32 ltac:(lia)).
      assert (Hdv : 0 <= i / 32 < 2 ^ (6 - o) / 32 + 1).
      { split; [apply Z.div_pos; lia|]. assert (i / 32 <= 2 ^ (6 - o) / 32) by (apply Z.div_le_mono; lia). lia. }
      rewrite (Hw (i / 32) Hdv m Hm) by lia. simpl. by rewrite Z.testbit_0_l.
  - split; [|done || (intros o i Ho Hi; simpl; destruct (Z.eqb_spec o 7); [lia|done])].
    intros o j o' j' [->%Z.eqb_eq _]%andb_true_iff [->%Z.eqb_eq _]%andb_true_iff. done.
Qed.

Lemma demo_pages_ok : pages_ok demo_pages.
Proof.
  split.
  - apply Forall_singleton, demo_group_ok.
  - intros [|i] [|j] gi gj Hi Hj Hne; try done.
  - done.
Qed.

(** ** Properties *)

(** What an allocation of order [o] found in group [g] does. *)
Lemma alloc_cases reclaim s o :
  pages_ok s -> 0 <= o < 8 ->
  ((forall r s', reclaim s = Done r s' -> page_alloc_order reclaim o s = Done None s')
     /\ forall g o', g ∈ pagegroup_list s -> o <= o' < 8 -> flist g o' = [])
  \/ (exists g o', g ∈ pagegroup_list s /\ o <= o' < 8 /\ flist g o' <> []) /\
    exists i g a s', pagegroup_list s' !! i = Some g /\ page_alloc_order reclaim o s = Done (Some a) s'
    /\ pages_ok s' /\ page_freecount s' = u32 (page_freecount s - 2 ^ o)
    /\ (exists j, a = blk g o j) /\ pg_baseaddr g <= a /\ a + 2 ^ (o + 12) <= pg_endaddr g
    /\ (forall x, a <= x < a + 2 ^ (o + 12) -> sys_free s x)
    /\ (forall x, sys_free s' x <-> sys_free s x /\ ~ a <= x < a + 2 ^ (o + 12)).
Proof.
  intros Hs Ho.
  (* the group the block is taken from, after splitting *)
  assert (Hdone : forall i g s1, pages_ok s1 -> pagegroup_list s1 !! i = Some g -> flist g o <> [] ->
    page_freecount s1 = page_freecount s -> (forall x, sys_free s1 x <-> sys_free s x) ->
    (forall K : option nat -> kernel pages (option Z), (group <- match group_with_free o s with Some i => kret (Some i) | None => page_split reclaim o end ;; K group) s
               = K (Some i) s1) ->
    exists i g a s', pagegroup_list s' !! i = Some g /\ page_alloc_order reclaim o s = Done (Some a) s'
      /\ pages_ok s' /\ page_freecount s' = u32 (page_freecount s - 2 ^ o)
      /\ (exists j, a = blk g o j) /\ pg_baseaddr g <= a /\ a + 2 ^ (o + 12) <= pg_endaddr g
      /\ (forall x, a <= x < a + 2 ^ (o + 12) -> sys_free s x)
      /\ (forall x, sys_free s' x <-> sys_free s x /\ ~ a <= x < a + 2 ^ (o + 12))).
  { intros i g s1 Hs1 Hi Hne Hfc Hsame Hgo.
    destruct (run_take_system s1 i g o Hs1 Hi Ho Hne) as (a & s' & Hrun & Hok & Hcnt & [j Hj] & Hlo & Hhi & Hbl & Hfree).
    assert (Hg' : exists g', pagegroup_list s' !! i = Some g' /\ pg_baseaddr g' = pg_baseaddr g /\ pg_endaddr g' = pg_endaddr g).
    { assert (Hgok : group_ok g) by (eapply Forall_lookup_1; [apply Hs1|done]). destruct Hgok as (T & F & B & Hr & Hg).
      destruct (run_take g T F B o Hr Hg Ho Hne) as (j' & g' & HF & Hrt & Hr' & _ & Hb & _).
      revert Hrun. erewrite kbind_done; [|by eapply run_with_group]. cbn beta. unfold add_freecount. kpure.
      unfold kret. intros [= _ <-]. simpl. exists g'. split; [|split; [done|]].
      - apply list_lookup_insert_eq. by eapply lookup_lt_Some.
      - eapply shape_end; [apply Hr|apply Hr'|done]. }
    destruct Hg' as (g' & Hi' & Hb' & He').
    exists i, g', a, s'. split_and!; [done| |done|by rewrite Hcnt, Hfc| |lia|lia| |].
    - unfold page_alloc_order. kpure. rewrite (Hgo (fun group => match group with
        | None => kret None
        | Some i => addr <- with_group i (take_block o) ;; add_freecount (- Z.shiftl 1 o) ;;; kret (Some addr) end)). done.
    - exists j. rewrite Hj. unfold blk. by rewrite Hb'.
    - intros x Hx. apply Hsame. auto.
    - intros x. by rewrite Hfree, Hsame. }
  destruct (group_with_free o s) as [i|] eqn:Hgf.
  - right. destruct (group_with_free_Some _ _ _ Hgf) as (g & Hi & Hne).
    split; [|by eapply (Hdone i g s)].
    exists g, o. split; [apply list_elem_of_lookup; eauto|]. split; [lia|done].
  - destruct (run_split_search (Z.to_nat (PAGE_NSIZES - (o + 1))) s (o + 1) o Hs ltac:(lia))
      as [[Hrun Hall]|(i & g & g' & Hi & Hsame & Hne & (o' & Ho' & Hne') & Hrun)]; [unfold PAGE_NSIZES; lia|..].
    + left. split.
      * intros r s' Hrc. unfold page_alloc_order. kpure. rewrite Hgf. unfold page_split, kbind at 1. unfold kbind at 1.
        rewrite Hrun. simpl. unfold kbind. by rewrite Hrc.
      * intros g o' Hg Ho'. destruct (decide (o' = o)) as [->|Hne']; [by eapply group_with_free_None|].
        apply Hall; [done|lia].
    + right. destruct (same_group_system s i g g' Hs Hi Hsame) as [Hs1 Hfree1].
      split; [exists g, o'; split; [apply list_elem_of_lookup; eauto|split; [lia|done]]|].
      eapply (Hdone i g' _ Hs1); try done.
      { simpl. apply list_lookup_insert_eq. by eapply lookup_lt_Some. }
      intros K. erewrite kbind_done; [reflexivity|]. unfold page_split. kstep Hrun. kpure.
      erewrite kbind_done; [|apply kderef_Some; simpl; apply list_lookup_insert_eq; by eapply lookup_lt_Some].
      cbn beta. by kstep kassert_dec.
Qed.

(** C9: allocation of a block of 2^order pages.  On a well-formed page system
    [_page_alloc_order] never trips an assertion.  If some group has a free block
    of at least the size, it returns a block of a group that lies at a multiple of
    its size from the group's start and was free, takes exactly its
    bytes out of the free memory, however many larger blocks it had to split,
    and lowers the count by 2^order; otherwise it asks the slab allocators to
    give memory back and returns [NULL]. *)
Theorem page_alloc_order_spec reclaim s o :
  pages_ok s -> 0 <= o < 8 ->
  ((exists g o', g ∈ pagegroup_list s /\ o <= o' < 8 /\ flist g o' <> []) ->
   exists a s', page_alloc_order reclaim o s = Done (Some a) s' /\ pages_ok s'
     /\ page_freecount s' = u32 (page_freecount s - 2 ^ o)
     /\ (exists i g j, pagegroup_list s' !! i = Some g /\ a = pg_baseaddr g + j * 2 ^ (o + 12) /\ pg_baseaddr g <= a /\ a + 2 ^ (o + 12) <= pg_endaddr g)
     /\ (forall x, a <= x < a + 2 ^ (o + 12) -> sys_free s x)
     /\ (forall x, sys_free s' x <-> sys_free s x /\ ~ a <= x < a + 2 ^ (o + 12)))
  /\ ((forall g o', g ∈ pagegroup_list s -> o <= o' < 8 -> flist g o' = []) ->
      forall r s', reclaim s = Done r s' -> page_alloc_order reclaim o s = Done None s').
Proof.
  intros Hs Ho.
  destruct (alloc_cases reclaim s o Hs Ho)
    as [[Hnone Hall]|[(g & o' & Hg & Ho' & Hne) (i & g' & a & s' & Hi & Hrun & Hok & Hc & [j Ej] & Hlo & Hhi & Hbl & Hfree)]].
  - split; [|done]. intros (g & o' & Hg & Ho' & Hne). by rewrite (Hall g o' Hg Ho') in Hne.
  - split; [intros _; exists a, s'; split_and!; try done; by exists i, g', j|]. intros Hall. by rewrite (Hall g o' Hg Ho') in Hne.
Qed.

Lemma page_alloc_order_spec_witness :
  exists a s', page_alloc_order no_reclaim 0 demo_pages = Done (Some a) s' /\ pages_ok s'
    /\ page_freecount s' = 127 /\ (exists i g j, pagegroup_list s' !! i = Some g /\ a = pg_baseaddr g + j * 4096) /\ (forall x, a <= x < a + 2 ^ 12 -> sys_free demo_pages x).
Proof.
  destruct (page_alloc_order_spec no_reclaim demo_pages 0 demo_pages_ok ltac:(lia)) as [H _].
  destruct H as (a & s' & ? & ? & Hc & (i & g & j & Hi & Ej & _) & ? & _).
  - exists demo_group, 7. split; [set_solver|]. split; [lia|done].
  - exists a, s'. split_and!; [done..| |done]. exists i, g, j. split; [exact Hi|exact Ej].
Defined.

(** C10: freeing a block of a well-formed page system whose bytes are all in use
    returns, adds exactly the bytes of the block to the free memory and its pages to
    the count, and joins it with its buddies as far as they are free: afterwards the
    block is part of a block on a free list that is of the largest order or whose
    buddy is not on that list. *)
Theorem page_free_order_spec s i g o j :
  pages_ok s -> pagegroup_list s !! i = Some g -> 0 <= o < 8 ->
  pg_baseaddr g <= blk g o j -> blk g o j + 2 ^ (o + 12) <= pg_endaddr g ->
  (forall x, blk g o j <= x < blk g o j + 2 ^ (o + 12) -> ~ sys_free s x) ->
  exists s', page_free_order (blk g o j) o s = Done tt s' /\ pages_ok s'
    /\ page_freecount s' = u32 (page_freecount s + 2 ^ o)
    /\ (forall x, sys_free s' x <-> sys_free s x \/ blk g o j <= x < blk g o j + 2 ^ (o + 12))
    /\ exists g', pagegroup_list s' !! i = Some g' /\ joined g' g o j.
Proof. intros. by eapply run_put_system. Qed.

(** The demonstration group with its only block taken. *)
Definition full_group : pagegroup := Eval vm_compute in
  match take_block 7 demo_group with Done _ g => g | _ => demo_group end.

Lemma full_pages : exists s, page_alloc_order no_reclaim 7 demo_pages = Done (Some 0x100000) s
  /\ pages_ok s /\ pagegroup_list s !! 0%nat = Some full_group
  /\ forall x, sys_free s x <-> sys_free demo_pages x /\ ~ 0x100000 <= x < 0x100000 + 2 ^ 19.
Proof.
  destruct (alloc_cases no_reclaim demo_pages 7 demo_pages_ok ltac:(lia))
    as [[_ Hall]|[_ (i & g & a & s' & Hi & Hrun & Hok & Hc & _ & _ & _ & Hbl & Hfree)]].
  { assert (H : flist demo_group 7 = []) by (apply Hall; [set_solver|lia]). done. }
  assert (Hc' : page_alloc_order no_reclaim 7 demo_pages = Done (Some 0x100000) (mk_pages [full_group] 0)) by (vm_compute; reflexivity).
  rewrite Hc' in Hrun. injection Hrun as <- <-. eexists. split; [exact Hc'|]. split_and!; [done|done|exact Hfree].
Qed.

Lemma page_free_order_spec_witness :
  exists s s', pages_ok s /\ page_free_order 0x100000 0 s = Done tt s' /\ pages_ok s'.
Proof.
  destruct full_pages as (s & _ & Hok & Hi & Hfree).
  destruct (page_free_order_spec s 0 full_group 0 0 Hok Hi) as (s' & ? & ? & _); [lia|done|done| |by exists s, s'].
  intros x Hx [_ Hn]%Hfree. apply Hn. change (2 ^ 19) with 524288. change (blk full_group 0 0) with 0x100000 in Hx.
  change (2 ^ (0 + 12)) with 4096 in Hx. lia.
Defined.

(** round trip.  A block that has just been allocated can be freed; after
    that the same memory is free and the count is the same as before. *)
Theorem page_alloc_free_roundtrip reclaim s o a s1 :
  pages_ok s -> 0 <= o < 8 -> page_alloc_order reclaim o s = Done (Some a) s1 ->
  (exists g o', g ∈ pagegroup_list s /\ o <= o' < 8 /\ flist g o' <> []) ->
  exists s2, page_free_order a o s1 = Done tt s2 /\ pages_ok s2
    /\ page_freecount s2 = page_freecount s /\ (forall x, sys_free s2 x <-> sys_free s x).
Proof.
  intros Hs Ho Hrun (g0 & o0 & Hg0 & Ho0 & Hne0).
  destruct (alloc_cases reclaim s o Hs Ho)
    as [[_ Hall]|[_ (i & g & a' & s' & Hi & Hrun' & Hok & Hc & [j ->] & Hlo & Hhi & Hbl & Hfree)]].
  { by rewrite (Hall g0 o0 Hg0 Ho0) in Hne0. }
  rewrite Hrun' in Hrun. injection Hrun as <- <-.
  destruct (run_put_system s' i g o j Hok Hi Ho Hlo Hhi) as (s2 & Hfr & Hok2 & Hc2 & Hfree2 & _).
  { intros x Hx Hsf. apply Hfree in Hsf. tauto. }
  exists s2. split; [done|]. split; [done|]. split.
  - rewrite Hc2, Hc, (po_count _ Hs). unfold u32. rewrite Zplus_mod_idemp_l.
    replace (total s mod 2 ^ 32 - 2 ^ o + 2 ^ o) with (total s mod 2 ^ 32) by lia. apply Zmod_mod.
  - intros x. rewrite Hfree2, Hfree. destruct (decide (blk g o j <= x < blk g o j + 2 ^ (o + 12))) as [Hx|Hx].
    + specialize (Hbl x Hx). tauto.
    + tauto.
Qed.

Lemma page_alloc_free_roundtrip_witness :
  exists a s1 s2, page_alloc_order no_reclaim 3 demo_pages = Done (Some a) s1
    /\ page_free_order a 3 s1 = Done tt s2 /\ pages_ok s2 /\ page_freecount s2 = 128.
Proof.
  destruct (page_alloc_order no_reclaim 3 demo_pages) as [[a|] s1| | |] eqn:Hrun; try by vm_compute in Hrun.
  destruct (page_alloc_free_roundtrip no_reclaim demo_pages 3 a s1 demo_pages_ok ltac:(lia) Hrun) as (s2 & H1 & H2 & H3 & _).
  - exists demo_group, 7. split; [by apply list_elem_of_singleton|]. split; [lia|done].
  - exists a, s1, s2. split; [reflexivity|]. split; [exact H1|]. split; [exact H2|exact H3].
Defined.

(** [page_alloc_n] and [page_free_n] use the smallest order whose blocks
    hold the pages, and panic for more than 128 pages. *)
Theorem order_loop_spec npages :
  0 <= npages < 2 ^ 31 ->
  let order := order_loop (Z.to_nat PAGE_NSIZES) 0 npages in
  (npages <= 128 -> 0 <= order < 8 /\ npages <= 2 ^ order /\ (0 < order -> 2 ^ (order - 1) < npages))
  /\ (128 < npages -> forall reclaim start s, page_alloc_n reclaim npages s = Panic /\ page_free_n start npages s = Panic).
Proof.
  intros Hn order.
  assert (Hval : order = if npages <=? 1 then 0 else if npages <=? 2 then 1 else if npages <=? 4 then 2
    else if npages <=? 8 then 3 else if npages <=? 16 then 4 else if npages <=? 32 then 5
    else if npages <=? 64 then 6 else if npages <=? 128 then 7 else 8).
  { unfold order. change (Z.to_nat PAGE_NSIZES) with 8%nat. cbn [order_loop].
    rewrite s32_small by lia. rewrite !Z.geb_leb. done. }
  split.
  - intros Hle. rewrite Hval. repeat case_match; simpl; lia.
  - intros Hgt reclaim start s. unfold page_alloc_n, page_free_n. fold order. rewrite Hval.
    repeat case_match; try lia; done.
Qed.

Lemma order_loop_spec_witness : let order := order_loop (Z.to_nat PAGE_NSIZES) 0 5 in 0 <= order < 8 /\ 5 <= 2 ^ order.
Proof. destruct (order_loop_spec 5 ltac:(lia)) as [H _]. destruct (H ltac:(lia)) as (? & ? & _). done. Defined.

(** a group whose number of pages is not a multiple of 128 is not safe.
    [_pagegroup_create] puts the odd pages at the end of the range on the small
    free lists and leaves the bit of their pair at 0 although their buddies do
    not exist; when such a page is allocated and freed, [__page_join] takes the
    memory behind the group for a free buddy and follows the links it finds
    there. *)
Theorem page_free_odd_group :
  exists s a s1, page_add_range 0x100000 0x300000 (mk_pages [] 0) = Done tt s
    /\ page_alloc no_reclaim s = Done (Some a) s1 /\ page_free a s1 = Panic.
Proof.
  assert (H : match page_add_range 0x100000 0x300000 (mk_pages [] 0) with
    | Done _ s => match page_alloc no_reclaim s with
                  | Done (Some a) s1 => match page_free a s1 with Panic => true | _ => false end
                  | _ => false end
    | _ => false end = true) by (vm_compute; reflexivity).
  destruct (page_add_range 0x100000 0x300000 (mk_pages [] 0)) as [[] s| | |]; try done.
  destruct (page_alloc no_reclaim s) as [[a|] s1| | |] eqn:Ha; try done.
  destruct (page_free a s1) eqn:Hf; try done. exists s, a, s1. by split_and!.
Qed.

End PageAlloc.
