(* ===== verification/Slab.v ===== *)
(** * The slab allocator ([mm/slab.c])

    Allocators of objects of one size, [kmalloc] and [kfree] on top of them, over the
    page allocator, which is reached through the class [PageSource].  The build has
    [SLAB_REDZONE] and [SLAB_CHECK_FREE] on.

    Memory is modelled at the addresses the code computes: a block of pages holds
    objects, each followed by its [struct slab_bufctl], and the [struct slab] comes
    after the last one.  Each kind of structure has a map from addresses; [words] has
    the red zones and the word [kmalloc] puts in front of an object.  The contents of
    a block are gone when its pages are given back. *)

From Stdlib Require Import Ascii String.
From S2P Require Import Prelude.

Module Slab.

Local Open Scope Z_scope.
Local Open Scope kernel_scope.

Definition NULL : Z := 0.
Definition PAGE_SIZE : Z := 4096.
Definition PAGE_NSIZES : Z := 8.
Definition SLAB_REDZONE : Z := 0xdeadbeef.
Definition SLAB_MAX_ORDER : Z := 5.
Definition KMALLOC_SIZE_MIN_ORDER : Z := 6.
Definition KMALLOC_SIZE_MAX_ORDER : Z := 18.
Definition MM_POISON_FREE_WORD : Z := 0xdddddddd.
(** The sizes of the structures of this file and of a pointer *)
Definition sizeof_slab : Z := 16.
Definition sizeof_bufctl : Z := 8.
Definition sizeof_allocator : Z := 24.
Definition sizeof_word : Z := 4.

Record slab : Type := mk_slab { s_next : Z; s_inuse : Z; s_free : Z; s_addr : Z }.

Record slab_allocator : Type := mk_allocator {
  sa_next : Z;
  sa_name : list Z;
  sa_objsize : Z;
  sa_slabs : Z;
  sa_order : Z;
  sa_slab_nobjs : Z
}.

(** [sb_link] is the union of [sb_next] and [sb_slab]. *)
Record slab_bufctl : Type := mk_bufctl { sb_link : Z; sb_free : bool }.

(** Pages in blocks of a number of pages *)
Class PageSource (P : Type) : Type := {
  pg_alloc : Z -> kernel P (option Z);
  pg_free : Z -> Z -> kernel P unit
}.

Record mem (P : Type) : Type := mk_mem {
  allocators : gmap Z slab_allocator;
  slabs : gmap Z slab;
  bufctls : gmap Z slab_bufctl;
  words : gmap Z Z;
  slab_allocators : Z;              (** head of the list of allocators *)
  kmalloc_allocators : list Z;
  pages : P
}.
Arguments mk_mem {P}.
Arguments allocators {P}.
Arguments slabs {P}.
Arguments bufctls {P}.
Arguments words {P}.
Arguments slab_allocators {P}.
Arguments kmalloc_allocators {P}.
Arguments pages {P}.

(** String constants *)
Definition chars (s : string) : list Z := (fun c => Z.of_nat (nat_of_ascii c)) <$> list_ascii_of_string s.
Definition kmalloc_allocator_names : list (list Z) := chars <$>
  ["size-64"; "size-128"; "size-256"; "size-512"; "size-1024"; "size-2048"; "size-4096"; "size-8192"; "size-16384";
   "size-32768"; "size-65536"; "size-131072"; "size-262144"]%string.

(** The address of the static [slab_allocator_allocator] *)
Definition slab_allocator_allocator : Z := 8.

Definition with_slabs (l : Z) (a : slab_allocator) : slab_allocator :=
  mk_allocator (sa_next a) (sa_name a) (sa_objsize a) l (sa_order a) (sa_slab_nobjs a).
Definition with_snext (n : Z) (s : slab) : slab := mk_slab n (s_inuse s) (s_free s) (s_addr s).
Definition with_inuse (n : Z) (s : slab) : slab := mk_slab (s_next s) n (s_free s) (s_addr s).
Definition with_sfree (o : Z) (s : slab) : slab := mk_slab (s_next s) (s_inuse s) o (s_addr s).

Definition obj_bufctl (a : slab_allocator) (obj : Z) : Z := u32 (obj + sa_objsize a).
Definition next_obj (a : slab_allocator) (obj : Z) : Z := u32 (obj + sa_objsize a + sizeof_bufctl).
Definition rear_rz (a : slab_allocator) (obj : Z) : Z := u32 (obj + sa_objsize a - sizeof_word).

(** ** Sizes *)

Definition slab_size (objsize nobjs : Z) : Z := u32 (nobjs * (objsize + sizeof_bufctl) + sizeof_slab).
Definition slab_nobjs (objsize order : Z) : Z :=
  s32 (u32 (Z.shiftl PAGE_SIZE order - sizeof_slab) / u32 (objsize + sizeof_bufctl)).
Definition slab_waste (objsize order : Z) : Z :=
  s32 (Z.shiftl PAGE_SIZE order - slab_size objsize (u32 (slab_nobjs objsize order))).

(** The loop for the smallest block that holds one object: [PAGE_NSIZES] if there is
    none *)
Fixpoint minorder_loop (n : nat) (minorder minsize : Z) : Z :=
  match n with
  | O => minorder
  | S n => if s32 (Z.shiftl PAGE_SIZE minorder) >=? minsize then minorder else minorder_loop n (minorder + 1) minsize
  end.

(** The loop that looks for less waste *)
Fixpoint best_loop (n : nat) (objsize order best_order best_waste : Z) : Z :=
  match n with
  | O => best_order
  | S n =>
      let waste := slab_waste objsize order in
      if waste <? best_waste then best_loop n objsize (order + 1) order waste
      else best_loop n objsize (order + 1) best_order best_waste
  end.

Section operations.
Context {P : Type} `{PageSource P}.
Abbreviation M := (kernel (mem P)).

Definition set_allocators (f : gmap Z slab_allocator -> gmap Z slab_allocator) (h : mem P) : mem P :=
  mk_mem (f (allocators h)) (slabs h) (bufctls h) (words h) (slab_allocators h) (kmalloc_allocators h) (pages h).
Definition set_slabs (f : gmap Z slab -> gmap Z slab) (h : mem P) : mem P :=
  mk_mem (allocators h) (f (slabs h)) (bufctls h) (words h) (slab_allocators h) (kmalloc_allocators h) (pages h).
Definition set_bufctls (f : gmap Z slab_bufctl -> gmap Z slab_bufctl) (h : mem P) : mem P :=
  mk_mem (allocators h) (slabs h) (f (bufctls h)) (words h) (slab_allocators h) (kmalloc_allocators h) (pages h).
Definition set_words (f : gmap Z Z -> gmap Z Z) (h : mem P) : mem P :=
  mk_mem (allocators h) (slabs h) (bufctls h) (f (words h)) (slab_allocators h) (kmalloc_allocators h) (pages h).
Definition set_head (a : Z) (h : mem P) : mem P :=
  mk_mem (allocators h) (slabs h) (bufctls h) (words h) a (kmalloc_allocators h) (pages h).
Definition set_kmalloc (l : list Z) (h : mem P) : mem P :=
  mk_mem (allocators h) (slabs h) (bufctls h) (words h) (slab_allocators h) l (pages h).
Definition set_pages (p : P) (h : mem P) : mem P :=
  mk_mem (allocators h) (slabs h) (bufctls h) (words h) (slab_allocators h) (kmalloc_allocators h) p.

Definition get_allocator (sa : Z) : M slab_allocator := h <- kget ;; kderef (allocators h !! sa).
Definition upd_allocator (sa : Z) (f : slab_allocator -> slab_allocator) : M unit :=
  get_allocator sa ;;; kmodify (set_allocators (alter f sa)).
Definition get_slab (s : Z) : M slab := h <- kget ;; kderef (slabs h !! s).
Definition upd_slab (s : Z) (f : slab -> slab) : M unit := get_slab s ;;; kmodify (set_slabs (alter f s)).
Definition get_bufctl (b : Z) : M slab_bufctl := h <- kget ;; kderef (bufctls h !! b).
Definition set_bufctl (b : Z) (c : slab_bufctl) : M unit := kmodify (set_bufctls (insert b c)).
Definition get_word (x : Z) : M Z := h <- kget ;; kderef (words h !! x).
Definition set_word (x v : Z) : M unit := kmodify (set_words (insert x v)).

(** Running the page allocator's part of the state *)
Definition page_op {A} (m : kernel P A) : M A := fun h =>
  match m (pages h) with
  | Done a p => Done a (set_pages p h)
  | NoFuel => NoFuel
  | _ => Panic
  end.

(** ** Creating allocators *)

Definition calc_slab_size (sa : Z) : M unit :=
  a <- get_allocator sa ;;
  let size := sa_objsize a in
  let minsize := s32 (slab_size size 1) in
  let minorder := minorder_loop (Z.to_nat PAGE_NSIZES) 0 minsize in
  if minorder =? PAGE_NSIZES then kpanic
  else
    (* a division by zero is a fault *)
    kassert (negb (u32 (size + sizeof_bufctl) =? 0)) ;;;
    let best := best_loop (Z.to_nat (SLAB_MAX_ORDER - (minorder + 1))) size (minorder + 1) minorder (slab_waste size minorder) in
    upd_allocator sa (fun a => mk_allocator (sa_next a) (sa_name a) (sa_objsize a) (sa_slabs a) best (slab_nobjs size best)).

(** [name] is the name or, for a null pointer, "<unnamed>".  The memory of the
    allocator is overwritten field by field. *)
Definition allocator_init (sa : Z) (name : list Z) (size : Z) : M unit :=
  kmodify (set_allocators (insert sa (mk_allocator NULL name (u32 (size + 2 * sizeof_word)) NULL 0 0))) ;;;
  calc_slab_size sa ;;;
  h <- kget ;;
  upd_allocator sa (fun a => mk_allocator (slab_allocators h) (sa_name a) (sa_objsize a) (sa_slabs a) (sa_order a) (sa_slab_nobjs a)) ;;;
  kmodify (set_head sa).

(** ** Reclaiming *)

(** The place of a pointer to a slab: [&a->sa_slabs] or [&s->s_next] *)
Inductive slab_link : Set := Head (sa : Z) | Next (s : Z).
Definition set_link (l : slab_link) (v : Z) : M unit :=
  match l with Head sa => upd_allocator sa (with_slabs v) | Next s => upd_slab s (with_snext v) end.

(** [page_free_n] of the page allocator: what the pages held is gone. *)
Definition in_block (addr npages x : Z) : bool := (addr <=? x) && (x <? addr + npages * PAGE_SIZE).
Definition slab_page_free (addr npages : Z) : M unit :=
  page_op (pg_free addr npages) ;;;
  kmodify (fun h => mk_mem (allocators h) (filter (fun x => in_block addr npages x.1 = false) (slabs h))
                      (filter (fun x => in_block addr npages x.1 = false) (bufctls h))
                      (filter (fun x => in_block addr npages x.1 = false) (words h))
                      (slab_allocators h) (kmalloc_allocators h) (pages h)).

(** The inner loop of [slab_allocators_reclaim], over the slabs of one allocator: the
    number of pages freed so far and whether the target was met *)
Fixpoint reclaim_slabs (n : nat) (order target : Z) (prev : slab_link) (s npages_freed : Z) : M (Z * bool) :=
  if s =? NULL then kret (npages_freed, false)
  else
    match n with
    | O => fun _ => NoFuel
    | S n =>
        sl <- get_slab s ;;
        let next := s_next sl in
        r <- (if s_inuse sl =? 0 then
                set_link prev next ;;;
                let npages := Z.shiftl 1 order in
                slab_page_free (s_addr sl) npages ;;;
                kret (prev, s32 (npages_freed + npages))
              else kret (Next s, npages_freed)) ;;
        if (0 <? target) && (target <=? snd r) then kret (snd r, true)
        else reclaim_slabs n order target (fst r) next (snd r)
    end.

(** The outer loop, over the allocators *)
Fixpoint reclaim_loop (n : nat) (target a npages_freed : Z) : M Z :=
  if a =? NULL then kret npages_freed
  else
    match n with
    | O => fun _ => NoFuel
    | S n =>
        al <- get_allocator a ;;
        h <- kget ;;
        r <- reclaim_slabs (S (size (slabs h))) (sa_order al) target (Head a) (sa_slabs al) npages_freed ;;
        if snd r : bool then kret (fst r)
        else al <- get_allocator a ;; reclaim_loop n target (sa_next al) (fst r)
    end.

Definition slab_allocators_reclaim (target : Z) : M Z :=
  h <- kget ;; reclaim_loop (S (size (allocators h))) target (slab_allocators h) 0.

(** [page_alloc_n] of the page allocator: when no block is free the page allocator has the slab allocators
    give back what they can and fails. *)
Definition slab_page_alloc (npages : Z) : M (option Z) :=
  r <- page_op (pg_alloc npages) ;;
  match r with
  | Some addr => kret (Some addr)
  | None => slab_allocators_reclaim 0 ;;; kret None
  end.

(** ** Growing *)

(** The loop that links the objects of a new slab; the result is the last object. *)
Fixpoint link_loop (n : nat) (a : slab_allocator) (obj : Z) : M Z :=
  match n with
  | O => kret obj
  | S n => set_bufctl (obj_bufctl a obj) (mk_bufctl (next_obj a obj) true) ;;; link_loop n a (next_obj a obj)
  end.

(** The loop that sets the red zones *)
Fixpoint redzone_loop (n : nat) (a : slab_allocator) (obj : Z) : M unit :=
  match n with
  | O => kret tt
  | S n =>
      set_word obj SLAB_REDZONE ;;;
      set_word (rear_rz a obj) SLAB_REDZONE ;;;
      redzone_loop n a (next_obj a obj)
  end.

(** What is written into a new block: the free list, the slab structure after the last
    object and the red zones.  The result is the slab structure. *)
Definition init_slab (a : slab_allocator) (addr : Z) : M Z :=
  obj <- link_loop (Z.to_nat (sa_slab_nobjs a - 1)) a addr ;;
  set_bufctl (obj_bufctl a obj) (mk_bufctl NULL true) ;;;
  let s := next_obj a obj in
  kmodify (set_slabs (insert s (mk_slab NULL 0 addr addr))) ;;;
  redzone_loop (Z.to_nat (sa_slab_nobjs a)) a addr ;;;
  kret s.

Definition slab_allocator_grow (sa : Z) : M bool :=
  a <- get_allocator sa ;;
  addr <- slab_page_alloc (Z.shiftl 1 (sa_order a)) ;;
  match addr with
  | None => kret false
  | Some addr =>
      s <- init_slab a addr ;;
      a <- get_allocator sa ;;
      upd_slab s (with_snext (sa_slabs a)) ;;;
      upd_allocator sa (with_slabs s) ;;;
      kret true
  end.

(** ** Objects *)

Definition verify_redzones (a : slab_allocator) (obj : Z) : M unit :=
  f <- get_word obj ;;
  r <- get_word (rear_rz a obj) ;;
  kassert ((f =? SLAB_REDZONE) && (r =? SLAB_REDZONE)).

(** The first slab that is not full, from [s] on; [NULL] if there is none *)
Fixpoint find_slab (n : nat) (nobjs s : Z) : M Z :=
  if s =? NULL then kret NULL
  else
    match n with
    | O => fun _ => NoFuel
    | S n => sl <- get_slab s ;; if s_inuse sl =? nobjs then find_slab n nobjs (s_next sl) else kret s
    end.

(** The loop of [slab_obj_alloc] that finds or makes a slab with a free object; [n]
    bounds the number of slabs it makes. *)
Fixpoint slab_with_free (n : nat) (sa : Z) : M Z :=
  a <- get_allocator sa ;;
  h <- kget ;;
  s <- find_slab (S (size (slabs h))) (sa_slab_nobjs a) (sa_slabs a) ;;
  found <- (if s =? NULL then kret false else sl <- get_slab s ;; kret (s_inuse sl <? sa_slab_nobjs a)) ;;
  if found : bool then kret s
  else
    grown <- slab_allocator_grow sa ;;
    if grown : bool then match n with O => fun _ => NoFuel | S n => slab_with_free n sa end
    else kret NULL.

(** What is done once a slab is found *)
Definition take_object (a : slab_allocator) (s : Z) : M Z :=
  sl <- get_slab s ;;
  let obj := s_free sl in
  b <- get_bufctl (obj_bufctl a obj) ;;
  upd_slab s (with_sfree (sb_link b)) ;;;
  set_bufctl (obj_bufctl a obj) (mk_bufctl s false) ;;;
  upd_slab s (fun sl => with_inuse (s32 (s_inuse sl + 1)) sl) ;;;
  verify_redzones a obj ;;;
  kret (u32 (obj + sizeof_word)).

Definition slab_obj_alloc (sa : Z) : M (option Z) :=
  s <- slab_with_free 1 sa ;;
  if s =? NULL then kret None
  else a <- get_allocator sa ;; obj <- take_object a s ;; kret (Some obj).

Definition slab_obj_free (sa obj : Z) : M unit :=
  a <- get_allocator sa ;;
  let obj := u32 (obj - sizeof_word) in
  verify_redzones a obj ;;;
  b <- get_bufctl (obj_bufctl a obj) ;;
  kassert (negb (sb_free b)) ;;;
  let s := sb_link b in
  sl <- get_slab s ;;
  set_bufctl (obj_bufctl a obj) (mk_bufctl (s_free sl) true) ;;;
  upd_slab s (with_sfree obj) ;;;
  upd_slab s (fun sl => with_inuse (s32 (s_inuse sl - 1)) sl).

Definition slab_allocator_create (name : list Z) (size : Z) : M (option Z) :=
  sa <- slab_obj_alloc slab_allocator_allocator ;;
  match sa with
  | None => kret None
  | Some sa => allocator_init sa name size ;;; kret (Some sa)
  end.

(** ** [kmalloc] *)

(** The loop over the powers of two *)
Fixpoint kmalloc_loop (cs : list Z) (order size : Z) : M (option Z) :=
  match cs with
  | [] => kpanic
  | c :: cs =>
      if size <=? u32 (Z.shiftl 1 order) then
        addr <- slab_obj_alloc c ;;
        match addr with
        | None => kret None
        | Some addr => set_word addr c ;;; kret (Some (u32 (addr + sizeof_word)))
        end
      else kmalloc_loop cs (order + 1) size
  end.
Definition kmalloc (size : Z) : M (option Z) :=
  h <- kget ;; kmalloc_loop (kmalloc_allocators h) KMALLOC_SIZE_MIN_ORDER (u32 (size + sizeof_word)).

(** The object is filled with the pattern for free memory, its first word included. *)
Definition kfree (addr : Z) : M unit :=
  let addr := u32 (addr - sizeof_word) in
  sa <- get_word addr ;;
  get_allocator sa ;;;
  set_word addr MM_POISON_FREE_WORD ;;;
  slab_obj_free sa addr.

(** The loop of [slab_init] *)
Fixpoint create_buckets (names : list (list Z)) (order : Z) : M (list Z) :=
  match names with
  | [] => kret []
  | name :: names =>
      c <- slab_allocator_create name (u32 (Z.shiftl 1 order)) ;;
      c <- kderef c ;;
      cs <- create_buckets names (order + 1) ;;
      kret (c :: cs)
  end.
Definition slab_init : M unit :=
  allocator_init slab_allocator_allocator (chars "slab_allocators") sizeof_allocator ;;;
  cs <- create_buckets kmalloc_allocator_names KMALLOC_SIZE_MIN_ORDER ;;
  kmodify (set_kmalloc cs).

End operations.

End Slab.
