(* ===== verification/SlabInv.v ===== *)
(** * The invariant of the slab allocator

    What the memory of [Slab] looks like: where the parts of a slab are, when a block
    of pages is a slab with a given free list, and when the allocators, their slabs and
    the pages they borrowed fit together.  The invariant is stated over a [view]: the
    slabs of each allocator and the free objects of each slab. *)

From stdpp Require Import functions.
From S2P Require Import Prelude.
From S2P Require Export Slab.

Module SlabInv.
Export Slab.

Local Open Scope Z_scope.
Local Open Scope kernel_scope.

(** ** What the page allocator promises

    [pages_ok p lent]: the blocks lent to callers are [lent], a map from the address of
    a block to its number of pages. *)

Class PageLaws (P : Type) `{PageSource P} : Type := {
  pages_ok : P -> gmap Z Z -> Prop;
  lent_range : forall p lent b n, pages_ok p lent -> lent !! b = Some n -> PAGE_SIZE <= b /\ b + n * PAGE_SIZE <= 2 ^ 32;
  lent_apart : forall p lent b n c m, pages_ok p lent -> lent !! b = Some n -> lent !! c = Some m -> b <> c ->
    b + n * PAGE_SIZE <= c \/ c + m * PAGE_SIZE <= b;
  pg_alloc_ok : forall p lent o, pages_ok p lent -> 0 <= o < PAGE_NSIZES ->
    runs (pg_alloc (2 ^ o)) p (fun r p' => match r with
      | Some b => lent !! b = None /\ pages_ok p' (<[b := 2 ^ o]> lent)
      | None => pages_ok p' lent
      end);
  pg_free_ok : forall p lent b o, pages_ok p lent -> 0 <= o < PAGE_NSIZES -> lent !! b = Some (2 ^ o) ->
    runs (pg_free b (2 ^ o)) p (fun _ p' => pages_ok p' (delete b lent))
}.

(** ** The layout of a slab *)

Definition stride (a : slab_allocator) : Z := sa_objsize a + sizeof_bufctl.
Definition npages (a : slab_allocator) : Z := 2 ^ sa_order a.
Definition obj_at (a : slab_allocator) (b i : Z) : Z := b + i * stride a.
Definition ctl_at (a : slab_allocator) (b i : Z) : Z := obj_at a b i + sa_objsize a.
Definition slab_at (a : slab_allocator) (b : Z) : Z := obj_at a b (sa_slab_nobjs a).

(** Room for the red zones, at least one object, and everything fits in the block *)
Record geom (a : slab_allocator) : Prop := {
  g_size : 2 * sizeof_word <= sa_objsize a;
  g_order : 0 <= sa_order a < PAGE_NSIZES;
  g_nobjs : 1 <= sa_slab_nobjs a;
  g_fits : sa_slab_nobjs a * stride a + sizeof_slab <= npages a * PAGE_SIZE
}.

Definition in_space (a : slab_allocator) (b : Z) : Prop := PAGE_SIZE <= b /\ b + npages a * PAGE_SIZE <= 2 ^ 32.
Definition in_blk (b n x : Z) : Prop := b <= x < b + n * PAGE_SIZE.

Section layout.
Context (a : slab_allocator) (Ha : geom a).

Lemma npages_range : 1 <= npages a <= 128.
Proof.
  unfold npages. destruct (g_order a Ha) as [H1 H2]. unfold PAGE_NSIZES in H2.
  pose proof (Z.pow_le_mono_r 2 0 (sa_order a)). pose proof (Z.pow_le_mono_r 2 (sa_order a) 7). lia.
Qed.

Lemma obj_in_slab b i : 0 <= i < sa_slab_nobjs a ->
  b <= obj_at a b i /\ obj_at a b i + stride a <= slab_at a b /\ slab_at a b + sizeof_slab <= b + npages a * PAGE_SIZE.
Proof.
  intros Hi. pose proof (g_size a Ha). pose proof (g_fits a Ha). unfold slab_at, obj_at.
  assert (i * stride a + stride a <= sa_slab_nobjs a * stride a); [|unfold stride, sizeof_bufctl, sizeof_word in *; nia].
  transitivity ((i + 1) * stride a); [lia|]. apply Z.mul_le_mono_nonneg_r; unfold stride, sizeof_bufctl, sizeof_word in *; lia.
Qed.

Lemma nobjs_small : sa_slab_nobjs a < 2 ^ 20.
Proof.
  pose proof (g_size a Ha). pose proof (g_fits a Ha). pose proof npages_range. pose proof (g_nobjs a Ha).
  unfold stride, sizeof_bufctl, sizeof_word, sizeof_slab, PAGE_SIZE in *. nia.
Qed.

(** The places of an object and of what is [d] bytes behind it *)
Lemma obj_offset_inj b i j d e :
  0 <= d < stride a -> 0 <= e < stride a -> obj_at a b i + d = obj_at a b j + e -> i = j /\ d = e.
Proof.
  unfold obj_at. intros Hd He E.
  apply (Z.div_mod_unique (stride a)); [by left..|lia].
Qed.

Lemma obj_at_inj b i j : obj_at a b i = obj_at a b j -> i = j.
Proof.
  pose proof (g_size a Ha). unfold sizeof_word in *. intros E.
  eapply (obj_offset_inj b i j 0 0); unfold stride, sizeof_bufctl; lia.
Qed.
Lemma ctl_at_inj b i j : ctl_at a b i = ctl_at a b j -> i = j.
Proof. unfold ctl_at. intros E. apply (obj_at_inj b). lia. Qed.
Lemma slab_at_inj b c : slab_at a b = slab_at a c -> b = c.
Proof. unfold slab_at, obj_at. lia. Qed.
Lemma obj_next b i : obj_at a b (i + 1) = obj_at a b i + stride a.
Proof. unfold obj_at. lia. Qed.

Context (b : Z) (Hb : in_space a b).

Lemma at_bufctl i : 0 <= i < sa_slab_nobjs a -> obj_bufctl a (obj_at a b i) = ctl_at a b i.
Proof.
  intros Hi. destruct (obj_in_slab b i Hi) as (H1 & H2 & H3). destruct Hb. pose proof (g_size a Ha).
  unfold obj_bufctl, ctl_at. apply u32_small. unfold stride, sizeof_bufctl, sizeof_word, sizeof_slab, PAGE_SIZE in *. lia.
Qed.
Lemma at_next i : 0 <= i < sa_slab_nobjs a -> next_obj a (obj_at a b i) = obj_at a b (i + 1).
Proof.
  intros Hi. destruct (obj_in_slab b i Hi) as (H1 & H2 & H3). destruct Hb. pose proof (g_size a Ha). rewrite obj_next.
  unfold next_obj. rewrite u32_small; unfold stride, sizeof_bufctl, sizeof_word, sizeof_slab, PAGE_SIZE in *; lia.
Qed.
Lemma at_rear i : 0 <= i < sa_slab_nobjs a -> rear_rz a (obj_at a b i) = ctl_at a b i - sizeof_word.
Proof.
  intros Hi. destruct (obj_in_slab b i Hi) as (H1 & H2 & H3). destruct Hb. pose proof (g_size a Ha).
  unfold rear_rz, ctl_at. rewrite u32_small; unfold stride, sizeof_bufctl, sizeof_word, sizeof_slab, PAGE_SIZE in *; lia.
Qed.
Lemma at_front i : 0 <= i < sa_slab_nobjs a -> u32 (obj_at a b i + sizeof_word) = obj_at a b i + sizeof_word.
Proof.
  intros Hi. destruct (obj_in_slab b i Hi) as (H1 & H2 & H3). destruct Hb. pose proof (g_size a Ha).
  rewrite u32_small; unfold stride, sizeof_bufctl, sizeof_word, sizeof_slab, PAGE_SIZE in *; lia.
Qed.
Lemma at_back i : 0 <= i < sa_slab_nobjs a -> u32 (obj_at a b i + sizeof_word - sizeof_word) = obj_at a b i.
Proof.
  intros Hi. destruct (obj_in_slab b i Hi) as (H1 & H2 & H3). destruct Hb. pose proof (g_size a Ha).
  rewrite u32_small; unfold stride, sizeof_bufctl, sizeof_word, sizeof_slab, PAGE_SIZE in *; lia.
Qed.

(** Every part of an object and the slab structure are inside the block. *)
Lemma obj_in_blk i d : 0 <= i < sa_slab_nobjs a -> 0 <= d < stride a -> in_blk b (npages a) (obj_at a b i + d).
Proof. intros Hi Hd. destruct (obj_in_slab b i Hi). unfold in_blk, sizeof_slab in *. lia. Qed.
Lemma ctl_in_blk i : 0 <= i < sa_slab_nobjs a -> in_blk b (npages a) (ctl_at a b i).
Proof. intros Hi. pose proof (g_size a Ha). unfold ctl_at. apply obj_in_blk; [done|]. unfold stride, sizeof_bufctl, sizeof_word in *. lia. Qed.
Lemma slab_in_blk : in_blk b (npages a) (slab_at a b).
Proof.
  pose proof (g_nobjs a Ha). destruct (obj_in_slab b 0) as (? & ? & ?); [lia|].
  unfold in_blk, sizeof_slab, stride, sizeof_bufctl in *. pose proof (g_size a Ha). unfold sizeof_word in *. lia.
Qed.
Lemma slab_nonnull : slab_at a b <> NULL.
Proof. pose proof slab_in_blk. destruct Hb. unfold in_blk, NULL, PAGE_SIZE in *. lia. Qed.
Lemma obj_nonnull i : 0 <= i < sa_slab_nobjs a -> obj_at a b i <> NULL.
Proof. intros Hi. destruct (obj_in_slab b i Hi). destruct Hb. unfold NULL, PAGE_SIZE in *. lia. Qed.

End layout.

(** ** One slab *)

Section reps.
Context {P : Type}.
Implicit Types (h : mem P) (a : slab_allocator).

(** A pointer to the first of a list of objects, given by their numbers, and to the
    first of a list of slabs, given by their blocks, that ends in [e] *)
Definition fptr a (b : Z) (f : list Z) : Z := match f with [] => NULL | i :: _ => obj_at a b i end.
Definition sptr a (l : list Z) (e : Z) : Z := match l with [] => e | b :: _ => slab_at a b end.

(** The free list of a slab *)
Fixpoint fchain h a (b : Z) (f : list Z) : Prop :=
  match f with
  | [] => True
  | i :: f' => bufctls h !! ctl_at a b i = Some (mk_bufctl (fptr a b f') true) /\ fchain h a b f'
  end.

Definition objects a : list Z := seqZ 0 (sa_slab_nobjs a).

(** The block at [b] is a slab whose free objects are [f]. *)
Record slab_rep h a (b : Z) (f : list Z) (next : Z) : Prop := {
  sr_slab : slabs h !! slab_at a b = Some (mk_slab next (sa_slab_nobjs a - Z.of_nat (length f)) (fptr a b f) b);
  sr_chain : fchain h a b f;
  sr_nodup : NoDup f;
  sr_range : forall i, i ∈ f -> 0 <= i < sa_slab_nobjs a;
  sr_used : forall i, 0 <= i < sa_slab_nobjs a -> i ∉ f ->
    bufctls h !! ctl_at a b i = Some (mk_bufctl (slab_at a b) false);
  sr_zones : forall i, 0 <= i < sa_slab_nobjs a ->
    words h !! obj_at a b i = Some SLAB_REDZONE /\ words h !! (ctl_at a b i - sizeof_word) = Some SLAB_REDZONE
}.

(** What is at an address, and states that agree on a block or differ in one only *)
Definition cell h (x : Z) := (slabs h !! x, bufctls h !! x, words h !! x).
Definition agree h h' (b n : Z) : Prop := forall x, in_blk b n x -> cell h' x = cell h x.
Definition local h h' (b n : Z) : Prop := forall x, ~ in_blk b n x -> cell h' x = cell h x.

Lemma cell_slabs h h' x : cell h' x = cell h x -> slabs h' !! x = slabs h !! x.
Proof. by intros [= E _ _]. Qed.
Lemma cell_bufctls h h' x : cell h' x = cell h x -> bufctls h' !! x = bufctls h !! x.
Proof. by intros [= _ E _]. Qed.
Lemma cell_words h h' x : cell h' x = cell h x -> words h' !! x = words h !! x.
Proof. by intros [= _ _ E]. Qed.

Lemma fchain_same h h' a b f : (forall i, i ∈ f -> bufctls h' !! ctl_at a b i = bufctls h !! ctl_at a b i) ->
  fchain h a b f -> fchain h' a b f.
Proof.
  induction f as [|i f IH]; simpl; intros E; [done|]. intros [Hi Hf].
  rewrite (E i) by set_solver. split; [done|]. apply IH; [|done]. intros j Hj. apply E. set_solver.
Qed.

Lemma slab_rep_agree h h' a b f nx : geom a -> agree h h' b (npages a) -> slab_rep h a b f nx -> slab_rep h' a b f nx.
Proof.
  intros Ha E [H1 H2 H3 H4 H5 H6].
  assert (Ec : forall i, 0 <= i < sa_slab_nobjs a -> bufctls h' !! ctl_at a b i = bufctls h !! ctl_at a b i)
    by (intros i Hi; apply cell_bufctls, E, ctl_in_blk; done).
  pose proof (g_size a Ha). split; try done.
  - by rewrite (cell_slabs h h') by (by apply E, slab_in_blk).
  - apply (fchain_same h); [|done]. intros i Hi. apply Ec. by apply H4.
  - intros i Hi Hf. rewrite Ec by done. by apply H5.
  - intros i Hi. destruct (H6 i Hi) as [Hz Hr]. split; rewrite (cell_words h h'); try done; apply E.
    + replace (obj_at a b i) with (obj_at a b i + 0) by lia. apply obj_in_blk; [done..|]. unfold stride, sizeof_bufctl, sizeof_word in *. lia.
    + unfold ctl_at. rewrite <- Z.add_sub_assoc. apply obj_in_blk; [done..|]. unfold stride, sizeof_bufctl, sizeof_word in *. lia.
Qed.

Lemma agree_apart h h' b n c m : local h h' b n -> b + n * PAGE_SIZE <= c \/ c + m * PAGE_SIZE <= b -> agree h h' c m.
Proof. intros E Hd x Hx. apply E. unfold in_blk in *. lia. Qed.

Lemma local_trans h1 h2 h3 b n : local h1 h2 b n -> local h2 h3 b n -> local h1 h3 b n.
Proof. intros E1 E2 x Hx. by rewrite E2, E1. Qed.

(** The numbers of free and used objects *)
Lemma free_submseteq h a b f nx : geom a -> slab_rep h a b f nx -> f ⊆+ objects a.
Proof.
  intros Ha R. apply NoDup_submseteq; [apply R|]. intros i Hi. apply elem_of_seqZ.
  pose proof (sr_range _ _ _ _ _ R i Hi). lia.
Qed.
Lemma free_length h a b f nx : geom a -> slab_rep h a b f nx -> Z.of_nat (length f) <= sa_slab_nobjs a.
Proof.
  intros Ha R. pose proof (submseteq_length _ _ (free_submseteq _ _ _ _ _ Ha R)) as E. pose proof (g_nobjs a Ha).
  unfold objects in E. rewrite length_seqZ in E. lia.
Qed.
(** A slab with no object in use has all its objects on the free list. *)
Lemma all_free h a b f nx i : geom a -> slab_rep h a b f nx -> Z.of_nat (length f) = sa_slab_nobjs a ->
  0 <= i < sa_slab_nobjs a -> i ∈ f.
Proof.
  intros Ha R El Hi. pose proof (g_nobjs a Ha). pose proof (free_submseteq _ _ _ _ _ Ha R) as Hs.
  assert (Ep : f ≡ₚ objects a).
  { apply submseteq_length_Permutation; [done|]. unfold objects. rewrite length_seqZ. lia. }
  rewrite Ep. apply elem_of_seqZ. lia.
Qed.

(** ** Lists of slabs *)

Fixpoint lseg h a (fr : Z -> list Z) (l : list Z) (e : Z) : Prop :=
  match l with
  | [] => True
  | b :: l' => slab_rep h a b (fr b) (sptr a l' e) /\ lseg h a fr l' e
  end.

Lemma sptr_app a l1 l2 e : sptr a (l1 ++ l2) e = sptr a l1 (sptr a l2 e).
Proof. by destruct l1. Qed.

Lemma lseg_app h a fr l1 l2 e : lseg h a fr (l1 ++ l2) e <-> lseg h a fr l1 (sptr a l2 e) /\ lseg h a fr l2 e.
Proof. induction l1 as [|b l1 IH]; simpl; [tauto|]. rewrite IH, sptr_app. tauto. Qed.

Lemma lseg_same h h' a fr fr' l e : (forall b nx, b ∈ l -> slab_rep h a b (fr b) nx -> slab_rep h' a b (fr' b) nx) ->
  lseg h a fr l e -> lseg h' a fr' l e.
Proof.
  induction l as [|b l IH]; simpl; intros E; [done|]. intros [Hb Hl]. split; [apply E; [set_solver|done]|].
  apply IH; [|done]. intros c nx Hc. apply E. set_solver.
Qed.

Lemma lseg_member h a fr l e b : lseg h a fr l e -> b ∈ l -> exists nx, slab_rep h a b (fr b) nx.
Proof.
  intros Hl (l1 & l2 & ->)%list_elem_of_split. apply lseg_app in Hl as [_ [Hb _]]. by eexists.
Qed.

(** A list of slabs is no longer than the table of slabs. *)
Lemma lseg_length h a fr l e : geom a -> NoDup l -> lseg h a fr l e -> (length l <= size (slabs h))%nat.
Proof.
  intros Ha Hn Hl. rewrite <- (length_fmap (slab_at a) l), <- size_dom.
  rewrite <- (size_list_to_set (C := gset Z)) by (apply (NoDup_fmap_2_strong _ l); [|done]; intros b c _ _; by apply slab_at_inj).
  apply subseteq_size. intros x. rewrite elem_of_list_to_set. intros (b & -> & Hb)%list_elem_of_fmap.
  apply (lseg_member h a fr l e) in Hb as [nx R]; [|done]. apply elem_of_dom. rewrite (sr_slab _ _ _ _ _ R). by eexists.
Qed.

End reps.

(** ** The whole state *)

(** [chain]: the blocks of an allocator's slabs, in the order of its list; [free]: the
    free objects of the slab in a block, in the order of its free list; [alist]: the
    list of allocators. *)
Record view : Type := mk_view { chain : Z -> list Z; free : Z -> list Z; alist : list Z }.
Definition set_chain (sa : Z) (l : list Z) (V : view) : view := mk_view (<[sa := l]> (chain V)) (free V) (alist V).
Definition set_free (b : Z) (f : list Z) (V : view) : view := mk_view (chain V) (<[b := f]> (free V)) (alist V).

Section wf.
Context {P : Type} `{PageLaws P}.
Implicit Types (h : mem P) (a : slab_allocator) (V : view).

Fixpoint aseg h (l : list Z) : Prop :=
  match l with
  | [] => True
  | sa :: l' => (exists a, allocators h !! sa = Some a /\ sa_next a = hd NULL l') /\ aseg h l'
  end.

Record wf h (lent : gmap Z Z) V : Prop := {
  wf_pages : pages_ok (pages h) lent;
  wf_geom : forall sa a, allocators h !! sa = Some a -> geom a;
  wf_head : forall sa a, allocators h !! sa = Some a -> sa_slabs a = sptr a (chain V sa) NULL;
  wf_seg : forall sa a, allocators h !! sa = Some a -> lseg h a (free V) (chain V sa) NULL;
  wf_idle : forall sa, allocators h !! sa = None -> chain V sa = [];
  wf_nodup : forall sa, NoDup (chain V sa);
  wf_owner : forall sa sa' b, b ∈ chain V sa -> b ∈ chain V sa' -> sa = sa';
  wf_lent : forall sa a b, allocators h !! sa = Some a -> b ∈ chain V sa -> lent !! b = Some (npages a);
  wf_first : slab_allocators h = hd NULL (alist V);
  wf_aseg : aseg h (alist V);
  wf_anodup : NoDup (alist V);
  wf_null : NULL ∉ alist V;
  wf_member : forall sa, sa ∈ alist V <-> is_Some (allocators h !! sa)
}.

(** The objects an allocator has given out *)
Definition live h V (sa o : Z) : Prop :=
  exists a b i, allocators h !! sa = Some a /\ b ∈ chain V sa /\ 0 <= i < sa_slab_nobjs a /\ i ∉ free V b
    /\ o = obj_at a b i + sizeof_word.

(** What the operations on the objects of one slab leave alone *)
Record same_rest h h' : Prop := {
  sm_allocators : allocators h' = allocators h;
  sm_first : slab_allocators h' = slab_allocators h;
  sm_kmalloc : kmalloc_allocators h' = kmalloc_allocators h;
  sm_pages : pages h' = pages h
}.

Lemma same_rest_trans h1 h2 h3 : same_rest h1 h2 -> same_rest h2 h3 -> same_rest h1 h3.
Proof. intros [] []. split; congruence. Qed.

Section facts.
Context h lent V (W : wf h lent V).

Lemma chain_space sa a b : allocators h !! sa = Some a -> b ∈ chain V sa -> in_space a b.
Proof. intros Hsa Hb. apply (lent_range (pages h) lent); [apply W|by eapply wf_lent]. Qed.

Lemma chain_alloc sa b : b ∈ chain V sa -> exists a, allocators h !! sa = Some a.
Proof.
  intros Hb. destruct (allocators h !! sa) as [a|] eqn:E; [by eexists|].
  rewrite (wf_idle _ _ _ W sa E) in Hb. by apply not_elem_of_nil in Hb.
Qed.

Lemma chains_apart sa a b sa' a' b' :
  allocators h !! sa = Some a -> b ∈ chain V sa -> allocators h !! sa' = Some a' -> b' ∈ chain V sa' -> b <> b' ->
  b + npages a * PAGE_SIZE <= b' \/ b' + npages a' * PAGE_SIZE <= b.
Proof. intros. by apply (lent_apart (pages h) lent); [apply W|eapply wf_lent..|]. Qed.

Lemma chain_rep sa a b : allocators h !! sa = Some a -> b ∈ chain V sa -> exists nx, slab_rep h a b (free V b) nx.
Proof. intros Hsa Hb. by eapply lseg_member; [eapply wf_seg|]. Qed.

(** Changing one slab without moving it *)
Lemma wf_touch h' sa a b fr :
  allocators h !! sa = Some a -> b ∈ chain V sa -> same_rest h h' -> local h h' b (npages a) ->
  (forall nx, slab_rep h a b (free V b) nx -> slab_rep h' a b (fr b) nx) -> (forall c, c <> b -> fr c = free V c) ->
  wf h' lent (mk_view (chain V) fr (alist V)).
Proof.
  intros Hsa Hb [E1 E2 E3 E4] Hl Hf Hfr.
  assert (Hsl : forall sa' a' c nx, allocators h !! sa' = Some a' -> c ∈ chain V sa' ->
            slab_rep h a' c (free V c) nx -> slab_rep h' a' c (fr c) nx).
  { intros sa' a' c nx Hsa' Hc R. destruct (decide (c = b)) as [->|Hne].
    - assert (sa' = sa) as -> by (by eapply wf_owner). simplify_eq. by apply Hf.
    - rewrite Hfr by done. apply (slab_rep_agree h); [by eapply wf_geom| |done].
      apply (agree_apart h h' b (npages a)); [done|]. by apply (chains_apart sa a b sa' a' c). }
  destruct W as [W1 W2 W3 W4 W5 W6 W7 W8 W9 W10 W11 W12 W13]. split; rewrite ?E1, ?E2, ?E4; try done.
  - intros sa' a' Hsa'. specialize (W4 sa' a' Hsa'). apply (lseg_same h _ _ (free V)); [|done].
    intros c nx Hc. by apply (Hsl sa').
  - clear -W10 E1. simpl. induction (alist V) as [|x l IH]; simpl in *; [done|]. rewrite E1. split; [apply W10|]. apply IH, W10.
Qed.

(** Changing one slab's free list *)
Lemma wf_set_free h' sa a b f :
  allocators h !! sa = Some a -> b ∈ chain V sa -> same_rest h h' -> local h h' b (npages a) ->
  (forall nx, slab_rep h a b (free V b) nx -> slab_rep h' a b f nx) ->
  wf h' lent (set_free b f V).
Proof.
  intros Hsa Hb Hs Hl Hf. apply (wf_touch h' sa a b); try done.
  - by rewrite fn_lookup_insert.
  - intros c Hc. by rewrite fn_lookup_insert_ne.
Qed.

End facts.

(** ** Reading and writing *)

Lemma runs_get_allocator h sa a (Q : slab_allocator -> mem P -> Prop) :
  allocators h !! sa = Some a -> Q a h -> runs (get_allocator sa) h Q.
Proof. intros E HQ. unfold get_allocator. by go. Qed.
Lemma runs_get_slab h s sl (Q : slab -> mem P -> Prop) : slabs h !! s = Some sl -> Q sl h -> runs (get_slab s) h Q.
Proof. intros E HQ. unfold get_slab. by go. Qed.
Lemma runs_get_bufctl h x c (Q : slab_bufctl -> mem P -> Prop) : bufctls h !! x = Some c -> Q c h -> runs (get_bufctl x) h Q.
Proof. intros E HQ. unfold get_bufctl. by go. Qed.
Lemma runs_get_word h x c (Q : Z -> mem P -> Prop) : words h !! x = Some c -> Q c h -> runs (get_word x) h Q.
Proof. intros E HQ. unfold get_word. by go. Qed.
Lemma runs_upd_slab h s sl g (Q : unit -> mem P -> Prop) :
  slabs h !! s = Some sl -> Q tt (set_slabs (insert s (g sl)) h) -> runs (upd_slab s g) h Q.
Proof.
  intros E HQ. unfold upd_slab. go. eapply runs_get_slab; [done|]. go.
  replace (set_slabs (alter g s) h) with (set_slabs (insert s (g sl)) h); [done|].
  unfold set_slabs. f_equal. by apply map_eq; intros x; destruct (decide (x = s)) as [->|]; simplify_map_eq.
Qed.
Lemma runs_upd_allocator h sa a g (Q : unit -> mem P -> Prop) :
  allocators h !! sa = Some a -> Q tt (set_allocators (insert sa (g a)) h) -> runs (upd_allocator sa g) h Q.
Proof.
  intros E HQ. unfold upd_allocator. go. eapply runs_get_allocator; [done|]. go.
  replace (set_allocators (alter g sa) h) with (set_allocators (insert sa (g a)) h); [done|].
  unfold set_allocators. f_equal. by apply map_eq; intros x; destruct (decide (x = sa)) as [->|]; simplify_map_eq.
Qed.

Lemma local_slabs h b n x s : in_blk b n x -> local h (set_slabs (insert x s) h) b n.
Proof. intros Hx y Hy. unfold cell. simpl. by rewrite lookup_insert_ne by (by intros ->). Qed.
Lemma local_bufctls h b n x c : in_blk b n x -> local h (set_bufctls (insert x c) h) b n.
Proof. intros Hx y Hy. unfold cell. simpl. by rewrite lookup_insert_ne by (by intros ->). Qed.
Lemma local_words h b n x c : in_blk b n x -> local h (set_words (insert x c) h) b n.
Proof. intros Hx y Hy. unfold cell. simpl. by rewrite lookup_insert_ne by (by intros ->). Qed.

End wf.

End SlabInv.
