(* ===== verification/SlabOps.v ===== *)
(** * The operations of the slab allocator on a well-formed state

    For each loop and operation of [Slab]: that it returns and what it does to the
    view, from which [SlabSpec] has its theorems. *)

From stdpp Require Import functions.
From S2P Require Import Prelude.
From S2P Require Export SlabInv.

Module SlabOps.
Export SlabInv.

Local Open Scope Z_scope.
Local Open Scope kernel_scope.

(** Runs steps, the writes of words and of [struct slab_bufctl] included. *)
Ltac sgo := unfold set_bufctl, set_word; go.

Section ops.
Context {P : Type} `{PageLaws P}.
Implicit Types (h : mem P) (a : slab_allocator) (V : view).

(** ** Taking an object from a slab and giving it back *)

Lemma run_verify h a b f nx i (Q : unit -> mem P -> Prop) :
  geom a -> in_space a b -> slab_rep h a b f nx -> 0 <= i < sa_slab_nobjs a -> Q tt h ->
  runs (verify_redzones a (obj_at a b i)) h Q.
Proof.
  intros Ha Hb R Hi HQ. destruct (sr_zones _ _ _ _ _ R i Hi) as [Hz Hr]. unfold verify_redzones.
  go. eapply runs_get_word; [done|]. go. rewrite at_rear by done. eapply runs_get_word; [done|]. go. done.
Qed.

Lemma take_rep h a b i f nx : geom a -> in_space a b -> slab_rep h a b (i :: f) nx ->
  let h' := set_slabs (insert (slab_at a b) (mk_slab nx (sa_slab_nobjs a - Z.of_nat (length f)) (fptr a b f) b))
              (set_bufctls (insert (ctl_at a b i) (mk_bufctl (slab_at a b) false)) h) in
  slab_rep h' a b f nx.
Proof.
  intros Ha Hb [H1 H2 H3 H4 H5 H6] h'. apply NoDup_cons in H3 as [Hi Hn]. split; simpl; try done.
  - by rewrite lookup_insert_eq.
  - apply (fchain_same h); [|apply H2]. intros j Hj. simpl. rewrite lookup_insert_ne; [done|].
    intros E. apply (ctl_at_inj a Ha) in E. by subst.
  - intros j Hj. apply H4. set_solver.
  - intros j Hj Hjf. destruct (decide (j = i)) as [->|Hne]; [by rewrite lookup_insert_eq|].
    rewrite lookup_insert_ne by (intros E; apply (ctl_at_inj a Ha) in E; by subst). apply H5; set_solver.
Qed.

Lemma run_take_object h a b i f nx : geom a -> in_space a b -> slab_rep h a b (i :: f) nx ->
  runs (take_object a (slab_at a b)) h (fun o h' =>
    o = obj_at a b i + sizeof_word /\ slab_rep h' a b f nx /\ local h h' b (npages a) /\ same_rest h h' /\ words h' = words h).
Proof.
  intros Ha Hb R. pose proof R as [H1 H2 H3 H4 H5 H6].
  assert (Hi : 0 <= i < sa_slab_nobjs a) by (apply H4; set_solver).
  pose proof (free_length _ _ _ _ _ Ha R) as Hl. pose proof (nobjs_small a Ha).
  pose proof (take_rep h a b i f nx Ha Hb R) as R'. cbv zeta in R'.
  unfold take_object. go. eapply runs_get_slab; [done|]. go. simpl. rewrite !at_bufctl by done.
  eapply runs_get_bufctl; [apply H2|]. go. eapply runs_upd_slab; [done|]. sgo.
  eapply runs_upd_slab; [simpl; by rewrite lookup_insert_eq|]. go. simpl.
  set (h' := set_slabs _ _).
  assert (Eh : h' = set_slabs (insert (slab_at a b) (mk_slab nx (sa_slab_nobjs a - Z.of_nat (length f)) (fptr a b f) b))
              (set_bufctls (insert (ctl_at a b i) (mk_bufctl (slab_at a b) false)) h)).
  { unfold h', set_slabs, set_bufctls. simpl. f_equal. unfold with_inuse, with_sfree. simpl. simpl in Hl.
    rewrite insert_insert_eq, s32_small by lia. f_equal. f_equal. lia. }
  rewrite <- Eh in R'. eapply run_verify; [done..|]. go. rewrite at_front by done. split_and!; try done.
  rewrite Eh. eapply local_trans; [apply local_bufctls, ctl_in_blk; done|]. by apply local_slabs, slab_in_blk.
Qed.

Lemma give_rep h a b i f nx : geom a -> in_space a b -> slab_rep h a b f nx -> 0 <= i < sa_slab_nobjs a -> i ∉ f ->
  let h' := set_slabs (insert (slab_at a b) (mk_slab nx (sa_slab_nobjs a - Z.of_nat (length (i :: f))) (obj_at a b i) b))
              (set_bufctls (insert (ctl_at a b i) (mk_bufctl (fptr a b f) true)) h) in
  slab_rep h' a b (i :: f) nx.
Proof.
  intros Ha Hb [H1 H2 H3 H4 H5 H6] Hi Hf h'. split; simpl; try done.
  - by rewrite lookup_insert_eq.
  - rewrite lookup_insert_eq. split; [done|]. apply (fchain_same h); [|done]. intros j Hj. simpl. rewrite lookup_insert_ne; [done|].
    intros E. apply (ctl_at_inj a Ha) in E. by subst.
  - by constructor.
  - intros j [->|Hj]%elem_of_cons; [done|]. by apply H4.
  - intros j Hj Hjf. rewrite lookup_insert_ne by (intros E; apply (ctl_at_inj a Ha) in E; set_solver). apply H5; set_solver.
Qed.

Lemma run_give h sa a b i f nx : geom a -> in_space a b -> allocators h !! sa = Some a -> slab_rep h a b f nx ->
  0 <= i < sa_slab_nobjs a -> i ∉ f ->
  runs (slab_obj_free sa (obj_at a b i + sizeof_word)) h (fun _ h' =>
    slab_rep h' a b (i :: f) nx /\ local h h' b (npages a) /\ same_rest h h' /\ words h' = words h).
Proof.
  intros Ha Hb Hsa R Hi Hf. pose proof R as [H1 H2 H3 H4 H5 H6]. pose proof (nobjs_small a Ha).
  pose proof (free_length _ _ _ _ _ Ha (give_rep h a b i f nx Ha Hb R Hi Hf)) as Hl.
  pose proof (give_rep h a b i f nx Ha Hb R Hi Hf) as R'. cbv zeta in R'.
  unfold slab_obj_free. go. eapply runs_get_allocator; [done|]. go. rewrite at_back by done.
  eapply run_verify; [done..|]. go. rewrite at_bufctl by done. eapply runs_get_bufctl; [by apply H5|]. go.
  eapply runs_get_slab; [done|]. sgo. eapply runs_upd_slab; [done|]. sgo.
  eapply runs_upd_slab; [simpl; by rewrite lookup_insert_eq|].
  set (h' := set_slabs _ _).
  assert (Eh : h' = set_slabs (insert (slab_at a b) (mk_slab nx (sa_slab_nobjs a - Z.of_nat (length (i :: f))) (obj_at a b i) b))
              (set_bufctls (insert (ctl_at a b i) (mk_bufctl (fptr a b f) true)) h)).
  { unfold h', set_slabs, set_bufctls. simpl. f_equal. unfold with_inuse, with_sfree. simpl. simpl in Hl.
    rewrite insert_insert_eq, s32_small by lia. f_equal. f_equal. lia. }
  rewrite <- Eh in R'. split_and!; try done; rewrite Eh; try done.
  eapply local_trans; [apply local_bufctls, ctl_in_blk; done|]. by apply local_slabs, slab_in_blk.
Qed.

(** ** Looking for a slab *)

Lemma run_find h a fr l : geom a -> (forall b, b ∈ l -> in_space a b) -> lseg h a fr l NULL -> forall n, (length l < n)%nat ->
  runs (find_slab n (sa_slab_nobjs a) (sptr a l NULL)) h (fun s h' => h' = h /\
    ((s = NULL /\ forall b, b ∈ l -> fr b = []) \/ (exists b, b ∈ l /\ s = slab_at a b /\ fr b <> []))).
Proof.
  intros Ha. induction l as [|b l IH]; intros Hs Hl n Hn.
  - destruct n; [lia|]. simpl. go. split; [done|]. left. split; [done|]. intros b Hb. by apply not_elem_of_nil in Hb.
  - destruct n as [|n]; [simpl in *; lia|]. destruct Hl as [R Hl]. assert (Hb : in_space a b) by (apply Hs; set_solver).
    pose proof (slab_nonnull a Ha b Hb) as Hnn.
    change (sptr a (b :: l) NULL) with (slab_at a b). cbn [find_slab].
    destruct (Z.eqb_spec (slab_at a b) NULL); [done|]. go. eapply runs_get_slab; [apply R|]. simpl.
    destruct (Z.eqb_spec (sa_slab_nobjs a - Z.of_nat (length (fr b))) (sa_slab_nobjs a)) as [E|E].
    + assert (Ef : fr b = []) by (apply length_zero_iff_nil; lia).
      eapply runs_mono; [apply (IH ltac:(intros c Hc; apply Hs; set_solver) Hl n ltac:(simpl in Hn; lia))|].
      intros s h' [-> [[-> Ho]|(c & Hc & -> & Hne)]]; (split; [done|]).
      * left. split; [done|]. intros c [->|Hc]%elem_of_cons; [done|by apply Ho].
      * right. exists c. split_and!; try done. set_solver.
    + go. split; [done|]. right. exists b. split_and!; [set_solver|done|]. intros Ef. rewrite Ef in E. simpl in E. lia.
Qed.

(** ** Changing the list of slabs of one allocator *)

Lemma with_slabs_id a : with_slabs (sa_slabs a) a = a.
Proof. by destruct a. Qed.
Lemma sptr_with p a l e : sptr (with_slabs p a) l e = sptr a l e.
Proof. by destruct l. Qed.
Lemma geom_with p a : geom (with_slabs p a) <-> geom a.
Proof. split; intros []; by split. Qed.
Lemma fchain_with h p a b f : fchain h (with_slabs p a) b f <-> fchain h a b f.
Proof. induction f as [|i f IH]; simpl; [done|]. rewrite IH. by destruct f. Qed.
Lemma slab_rep_with h p a b f nx : slab_rep h (with_slabs p a) b f nx <-> slab_rep h a b f nx.
Proof.
  split; intros [H1 H2 H3 H4 H5 H6]; split; try done; by eapply fchain_with.
Qed.
Lemma lseg_with h p a fr l e : lseg h (with_slabs p a) fr l e <-> lseg h a fr l e.
Proof. induction l as [|b l IH]; simpl; [done|]. by rewrite IH, slab_rep_with, sptr_with. Qed.

Lemma aseg_same h h' l : (forall sa, sa_next <$> allocators h' !! sa = sa_next <$> allocators h !! sa) -> aseg h l -> aseg h' l.
Proof.
  intros E. induction l as [|sa l IH]; simpl; [done|]. intros [(a & Ea & Hn) Hl]. split; [|by apply IH].
  specialize (E sa). rewrite Ea in E. simpl in E. apply fmap_Some in E as (a' & Ea' & En). exists a'. split; [done|]. congruence.
Qed.

Lemma wf_rechain h h' lent lent' V sa a p l fr :
  wf h lent V -> allocators h !! sa = Some a ->
  allocators h' = <[sa := with_slabs p a]> (allocators h) -> slab_allocators h' = slab_allocators h ->
  pages_ok (pages h') lent' -> p = sptr a l NULL -> NoDup l -> lseg h' a fr l NULL ->
  (forall b, b ∈ l -> lent' !! b = Some (npages a)) ->
  (forall sa' a' b, sa' <> sa -> allocators h !! sa' = Some a' -> b ∈ chain V sa' ->
     b ∉ l /\ agree h h' b (npages a') /\ fr b = free V b /\ lent' !! b = lent !! b) ->
  wf h' lent' (mk_view (<[sa := l]> (chain V)) fr (alist V)).
Proof.
  intros W Hsa Eal Ef Hp Ep Hn Hl Hlent Ho.
  assert (Hx : forall sa' b, sa' <> sa -> b ∈ chain V sa' -> b ∉ l).
  { intros sa' b Hne Hb. destruct (chain_alloc _ _ _ W sa' b Hb) as [a' Ha']. by apply (Ho sa' a'). }
  destruct W as [W1 W2 W3 W4 W5 W6 W7 W8 W9 W10 W11 W12 W13].
  assert (Hlk : forall sa', sa' <> sa -> allocators h' !! sa' = allocators h !! sa') by (intros; by rewrite Eal, lookup_insert_ne).
  assert (Hlk' : allocators h' !! sa = Some (with_slabs p a)) by (by rewrite Eal, lookup_insert_eq).
  split; simpl; try done.
  - intros sa' a'. destruct (decide (sa' = sa)) as [->|Hne]; [|rewrite Hlk by done; by apply W2].
    rewrite Hlk'. intros [= <-]. apply geom_with. by eapply W2.
  - intros sa' a'. destruct (decide (sa' = sa)) as [->|Hne].
    + rewrite Hlk', fn_lookup_insert. intros [= <-]. by rewrite sptr_with.
    + rewrite Hlk, fn_lookup_insert_ne by done. by apply W3.
  - intros sa' a'. destruct (decide (sa' = sa)) as [->|Hne].
    + rewrite Hlk', fn_lookup_insert. intros [= <-]. by apply lseg_with.
    + rewrite Hlk, fn_lookup_insert_ne by done. intros Ha'. apply (lseg_same h _ _ (free V)); [|by apply W4].
      intros b nx Hb R. destruct (Ho sa' a' b Hne Ha' Hb) as (_ & Hag & -> & _). apply (slab_rep_agree h); [by eapply W2|done..].
  - intros sa'. destruct (decide (sa' = sa)) as [->|Hne]; [by rewrite Hlk'|]. rewrite Hlk, fn_lookup_insert_ne by done. by apply W5.
  - intros sa'. destruct (decide (sa' = sa)) as [->|Hne]; [by rewrite fn_lookup_insert|by rewrite fn_lookup_insert_ne].
  - intros sa1 sa2 b. destruct (decide (sa1 = sa)) as [->|H1], (decide (sa2 = sa)) as [->|H2];
      rewrite ?fn_lookup_insert, ?(fn_lookup_insert_ne _ sa sa1), ?(fn_lookup_insert_ne _ sa sa2) by done; try done.
    + intros Hb Hc. by destruct (Hx sa2 b H2 Hc).
    + intros Hc Hb. by destruct (Hx sa1 b H1 Hc).
    + by apply W7.
  - intros sa' a' b. destruct (decide (sa' = sa)) as [->|Hne].
    + rewrite Hlk', fn_lookup_insert. intros [= <-]. by apply Hlent.
    + rewrite Hlk, fn_lookup_insert_ne by done. intros Ha' Hb. destruct (Ho sa' a' b Hne Ha' Hb) as (_ & _ & _ & ->). by apply (W8 sa').
  - by rewrite Ef.
  - apply (aseg_same h); [|done]. intros sa'. destruct (decide (sa' = sa)) as [->|Hne]; [by rewrite Hlk', Hsa|by rewrite Hlk].
  - intros sa'. rewrite W13. destruct (decide (sa' = sa)) as [->|Hne]; [by rewrite Hlk', Hsa|by rewrite Hlk].
Qed.

(** ** Reclaiming *)

(** The place that points to the slab behind those of [kept] *)
Definition link_behind (sa : Z) a (kept : list Z) : slab_link :=
  match last kept with None => Head sa | Some c => Next (slab_at a c) end.

Lemma snext_rep h a c f nx nx' : slab_rep h a c f nx ->
  let h' := set_slabs (insert (slab_at a c) (mk_slab nx' (sa_slab_nobjs a - Z.of_nat (length f)) (fptr a c f) c)) h in
  slab_rep h' a c f nx'.
Proof. intros [H1 H2 H3 H4 H5 H6] h'. split; simpl; try done; [by rewrite lookup_insert_eq|]. by apply (fchain_same h). Qed.

(** Taking a slab off the list *)
Lemma run_unlink_slab h lent V sa p a kept b rest :
  wf h lent V -> allocators h !! sa = Some (with_slabs p a) -> chain V sa = kept ++ b :: rest ->
  runs (set_link (link_behind sa a kept) (sptr a rest NULL)) h (fun _ h' =>
    wf h' lent (set_chain sa (kept ++ rest) V) /\ (exists p', allocators h' = <[sa := with_slabs p' a]> (allocators h))
    /\ bufctls h' = bufctls h /\ words h' = words h /\ kmalloc_allocators h' = kmalloc_allocators h /\ pages h' = pages h).
Proof.
  intros W Hsa Hc. pose proof (wf_nodup _ _ _ W sa) as Hnd. rewrite Hc in Hnd.
  assert (Hnd' : NoDup (kept ++ rest)) by (apply NoDup_app in Hnd as (? & ? & [_ ?]%NoDup_cons); apply NoDup_app; set_solver).
  assert (Hlent : forall c, c ∈ kept ++ rest -> lent !! c = Some (npages a)).
  { intros c Hin. apply (wf_lent _ _ _ W sa (with_slabs p a)); [done|]. rewrite Hc. set_solver. }
  assert (Hx : forall sa' c, sa' <> sa -> c ∈ chain V sa' -> c ∉ kept ++ rest).
  { intros sa' c Hne Hin Hk. apply Hne. apply (wf_owner _ _ _ W sa' sa c); [done|]. rewrite Hc. set_solver. }
  pose proof (wf_seg _ _ _ W sa _ Hsa) as Hl. rewrite lseg_with, Hc, lseg_app in Hl. destruct Hl as [Hk [Rb Hr]].
  assert (Ha : geom a) by (eapply geom_with, wf_geom; done).
  unfold link_behind. destruct kept as [|c kept _] using rev_ind; simpl.
  - eapply runs_upd_allocator; [done|]. split_and!; try done; [|by eexists].
    eapply (wf_rechain h _ lent lent V sa (with_slabs p a) (sptr a rest NULL)); try done; try apply W.
    + apply lseg_with. apply (lseg_same h _ _ (free V)); [|done]. intros c nx _. apply slab_rep_agree; [done|]. by intros x.
    + intros sa' a' c Hne Ha' Hin. split_and!; try done; by eapply Hx.
  - rewrite last_snoc. apply lseg_app in Hk as [Hk [Rc _]]. simpl in Rc.
    eapply runs_upd_slab; [apply Rc|]. split_and!; try done; [|exists p; by rewrite insert_id].
    unfold with_snext. simpl. pose proof (snext_rep _ _ _ _ _ (sptr a rest NULL) Rc) as Rc'. cbv zeta in Rc'.
    assert (Hloc : local h (set_slabs (insert (slab_at a c) (mk_slab (sptr a rest NULL) (sa_slab_nobjs a - Z.of_nat (length (free V c)))
              (fptr a c (free V c)) c)) h) c (npages a)) by (apply local_slabs, slab_in_blk; done).
    assert (Hin : c ∈ chain V sa) by (rewrite Hc; set_solver).
    set (h' := set_slabs _ _) in *.
    assert (Hkeep : forall d sa' a', allocators h !! sa' = Some a' -> d ∈ chain V sa' -> d <> c ->
              agree h h' d (npages a')).
    { intros d sa' a' Ha' Hd Hne. apply (agree_apart h h' c (npages a) d); [done|]. by apply (chains_apart _ _ _ W sa (with_slabs p a) c sa'). }
    assert (Hown : forall d nx, d ∈ chain V sa -> d <> c -> slab_rep h a d (free V d) nx -> slab_rep h' a d (free V d) nx).
    { intros d nx Hd Hne. apply slab_rep_agree; [done|]. by apply (Hkeep d sa (with_slabs p a)). }
    eapply (wf_rechain h h' lent lent V sa (with_slabs p a) p); try done; try apply W.
    + simpl. by rewrite insert_id.
    + pose proof (wf_head _ _ _ W sa _ Hsa) as E. simpl in E. rewrite Hc in E. by destruct kept.
    + apply lseg_with, lseg_app. split; [apply lseg_app; split|].
      * apply (lseg_same h _ _ (free V)); [|done]. intros d nx Hd. apply Hown; [rewrite Hc; set_solver|].
        intros ->. apply NoDup_app in Hnd as [[_ [Hd' _]]%NoDup_app _]. set_solver.
      * done.
      * apply (lseg_same h _ _ (free V)); [|done]. intros d nx Hd. apply Hown; [rewrite Hc; set_solver|].
        intros ->. apply NoDup_app in Hnd as (_ & Hd' & _). set_solver.
    + intros sa' a' d Hne Ha' Hd. split_and!; try done; [by eapply Hx|]. apply (Hkeep d sa' a' Ha' Hd).
      intros ->. apply Hne. by apply (wf_owner _ _ _ W sa' sa c).
Qed.

(** Giving back a block that is no slab any more *)
Lemma run_page_free h lent V b o :
  wf h lent V -> 0 <= o < PAGE_NSIZES -> lent !! b = Some (2 ^ o) -> (forall sa, b ∉ chain V sa) ->
  runs (slab_page_free b (2 ^ o)) h (fun _ h' =>
    wf h' (delete b lent) V /\ allocators h' = allocators h /\ kmalloc_allocators h' = kmalloc_allocators h
    /\ (forall c m, lent !! c = Some m -> c <> b -> agree h h' c m)).
Proof.
  intros W Ho Hb Hc. unfold slab_page_free. apply runs_bind. destruct (pg_free_ok _ _ _ _ (wf_pages _ _ _ W) Ho Hb) as ([] & p' & E & Hp).
  apply (runs_done _ _ tt (set_pages p' h)); [unfold page_op; by rewrite E|]. go. simpl.
  assert (Hout : forall c m x, lent !! c = Some m -> c <> b -> in_blk c m x -> in_block b (2 ^ o) x = false).
  { intros c m x Hm Hne Hx. pose proof (lent_apart _ _ b (2 ^ o) c m (wf_pages _ _ _ W) Hb Hm ltac:(done)).
    unfold in_block, in_blk in *. lia. }
  assert (Hag : forall c m, lent !! c = Some m -> c <> b -> agree h
    (mk_mem (allocators h) (filter (fun x => in_block b (2 ^ o) x.1 = false) (slabs h))
       (filter (fun x => in_block b (2 ^ o) x.1 = false) (bufctls h)) (filter (fun x => in_block b (2 ^ o) x.1 = false) (words h))
       (slab_allocators h) (kmalloc_allocators h) p') c m).
  { intros c m Hm Hne x Hx. specialize (Hout c m x Hm Hne Hx). unfold cell. simpl.
    rewrite !map_lookup_filter. f_equal; [f_equal|]; (destruct (_ !! x); simpl; [by rewrite option_guard_True|done]). }
  split_and!; try done. pose proof W as [W1 W2 W3 W4 W5 W6 W7 W8 W9 W10 W11 W12 W13]. split; try done.
  - intros sa a Hsa. simpl in Hsa. apply (lseg_same h _ _ (free V)); [|by apply W4]. intros c nx Hin. apply slab_rep_agree; [by eapply W2|].
    apply Hag; [by apply (W8 sa)|]. intros ->. by apply (Hc sa).
  - intros sa a c Hsa Hin. rewrite lookup_delete_ne; [by apply (W8 sa)|]. intros ->. by apply (Hc sa).
  - by apply (aseg_same h).
Qed.

(** What reclaiming does: it takes slabs without live objects away. *)
Definition alike (m m' : gmap Z slab_allocator) : Prop := forall sa, with_slabs NULL <$> m' !! sa = with_slabs NULL <$> m !! sa.
Definition empty_slab a V (b : Z) : Prop := Z.of_nat (length (free V b)) = sa_slab_nobjs a.

Record shrunk h (lent : gmap Z Z) V h' (lent' : gmap Z Z) V' : Prop := {
  sk_alloc : alike (allocators h) (allocators h');
  sk_kmalloc : kmalloc_allocators h' = kmalloc_allocators h;
  sk_free : free V' = free V;
  sk_alist : alist V' = alist V;
  sk_sub : forall sa b, b ∈ chain V' sa -> b ∈ chain V sa;
  sk_kept : forall sa a b, allocators h !! sa = Some a -> b ∈ chain V sa -> b ∈ chain V' sa \/ empty_slab a V b;
  sk_words : forall sa a b x, allocators h !! sa = Some a -> b ∈ chain V' sa -> in_blk b (npages a) x -> words h' !! x = words h !! x;
  sk_lent : lent' ⊆ lent
}.

Lemma alike_Some m m' sa a : alike m m' -> m !! sa = Some a -> exists p, m' !! sa = Some (with_slabs p a).
Proof.
  intros E Hsa. specialize (E sa). rewrite Hsa in E. apply fmap_Some in E as (a' & -> & E). exists (sa_slabs a'). f_equal.
  destruct a, a'. unfold with_slabs in *. simpl in *. by simplify_eq.
Qed.
Lemma alike_sym m m' : alike m m' -> alike m' m.
Proof. intros E sa. by rewrite E. Qed.
Lemma alike_insert m sa p q a : m !! sa = Some (with_slabs q a) -> alike m (<[sa := with_slabs p a]> m).
Proof. intros Hsa sa'. destruct (decide (sa' = sa)) as [->|]; [by rewrite lookup_insert_eq, Hsa|by rewrite lookup_insert_ne]. Qed.

Lemma shrunk_refl h lent V : shrunk h lent V h lent V.
Proof. split; try done. by left. Qed.

Lemma shrunk_trans h1 l1 V1 h2 l2 V2 h3 l3 V3 : shrunk h1 l1 V1 h2 l2 V2 -> shrunk h2 l2 V2 h3 l3 V3 -> shrunk h1 l1 V1 h3 l3 V3.
Proof.
  intros [A1 A2 A3 A4 A5 A6 A7 A8] [B1 B2 B3 B4 B5 B6 B7 B8]. split; [|congruence..| | | |].
  - intros sa. by rewrite B1, A1.
  - auto.
  - intros sa a b Hsa Hb. destruct (A6 sa a b Hsa Hb) as [Hb2|He]; [|by right].
    destruct (alike_Some _ _ _ _ A1 Hsa) as [p Hsa2]. destruct (B6 sa _ b Hsa2 Hb2) as [Hb3|He]; [by left|].
    right. unfold empty_slab in *. by rewrite A3 in He.
  - intros sa a b x Hsa Hb Hx. destruct (alike_Some _ _ _ _ A1 Hsa) as [p Hsa2].
    rewrite (B7 sa (with_slabs p a) b x), (A7 sa a b x); eauto.
  - by transitivity l2.
Qed.

(** The live objects stay. *)
Lemma shrunk_live h lent V h' lent' V' sa o : wf h lent V -> shrunk h lent V h' lent' V' -> live h' V' sa o <-> live h V sa o.
Proof.
  intros W [A1 A2 A3 A4 A5 A6 A7 A8]. split.
  - intros (a' & b & i & Ha' & Hb & Hi & Hf & ->). destruct (alike_Some _ _ _ _ (alike_sym _ _ A1) Ha') as [p Ha].
    exists (with_slabs p a'), b, i. rewrite A3 in Hf. split_and!; try done; try apply Hi. by apply A5.
  - intros (a & b & i & Ha & Hb & Hi & Hf & ->). destruct (alike_Some _ _ _ _ A1 Ha) as [p Ha'].
    destruct (A6 sa a b Ha Hb) as [Hb'|He].
    + exists (with_slabs p a), b, i. rewrite A3. split_and!; try done; apply Hi.
    + destruct Hf. destruct (chain_rep _ _ _ W sa a b Ha Hb) as [nx R].
      by apply (all_free h a b (free V b) nx i (wf_geom _ _ _ W sa a Ha)).
Qed.

(** Taking an empty slab away *)
Lemma run_drop h lent V sa p a kept b rest :
  wf h lent V -> allocators h !! sa = Some (with_slabs p a) -> chain V sa = kept ++ b :: rest -> empty_slab a V b ->
  runs (set_link (link_behind sa a kept) (sptr a rest NULL) ;;; slab_page_free b (npages a)) h (fun _ h' =>
    let V' := set_chain sa (kept ++ rest) V in
    wf h' (delete b lent) V' /\ shrunk h lent V h' (delete b lent) V' /\ (exists p', allocators h' !! sa = Some (with_slabs p' a))).
Proof.
  intros W Hsa Hc He. assert (Hin : b ∈ chain V sa) by (rewrite Hc; set_solver).
  assert (Ho : 0 <= sa_order a < PAGE_NSIZES) by apply (g_order _ (wf_geom _ _ _ W sa _ Hsa)).
  pose proof (wf_lent _ _ _ W sa _ b Hsa Hin) as Hb. pose proof (wf_nodup _ _ _ W sa) as Hnd. rewrite Hc in Hnd.
  assert (Hne : b ∉ kept ++ rest) by (apply NoDup_app in Hnd as (? & ? & [? ?]%NoDup_cons); set_solver).
  assert (Hoff : forall sa', b ∉ chain (set_chain sa (kept ++ rest) V) sa').
  { intros sa'. simpl. destruct (decide (sa' = sa)) as [->|Hd]; [by rewrite fn_lookup_insert|].
    rewrite fn_lookup_insert_ne by done. intros Hb'. apply Hd. by apply (wf_owner _ _ _ W sa' sa b). }
  eapply runs_step; [by apply (run_unlink_slab h lent V sa p a kept b rest)|]. intros [] h1 (W1 & (p' & E1) & E2 & E3 & E4 & E5). cbv beta.
  eapply runs_mono; [by apply (run_page_free h1 lent (set_chain sa (kept ++ rest) V) b (sa_order a))|]. intros [] h2 (W2 & F1 & F2 & F3). cbv zeta.
  assert (Hsub : forall sa' c, c ∈ chain (set_chain sa (kept ++ rest) V) sa' -> c ∈ chain V sa').
  { intros sa' c. simpl. destruct (decide (sa' = sa)) as [->|Hd]; [|by rewrite fn_lookup_insert_ne].
    rewrite fn_lookup_insert, Hc. set_solver. }
  split_and!; [done| |exists p'; by rewrite F1, E1, lookup_insert_eq].
  split; try done; try congruence.
  - rewrite F1, E1. by apply (alike_insert _ _ _ p).
  - intros sa' a' c Ha' Hc'. simpl. destruct (decide (sa' = sa)) as [->|Hd]; [|rewrite fn_lookup_insert_ne by done; by left].
    rewrite fn_lookup_insert. rewrite Hc in Hc'. simplify_eq. destruct (decide (c = b)) as [->|]; [by right|left; set_solver].
  - intros sa' a' c x Ha' Hc' Hx. rewrite <- E3. apply cell_words. apply (F3 c (npages a')); [|by intros ->; apply (Hoff sa')|done].
    apply (wf_lent _ _ _ W sa'); [done|]. by apply Hsub.
  - apply delete_subseteq.
Qed.

(** The number of pages lent *)
Definition lent_pages (lent : gmap Z Z) : Z := msum id lent.

(** The loop over the slabs of one allocator *)
Lemma run_reclaim_slabs sa a target rest : forall n h lent V p kept acc,
  wf h lent V -> allocators h !! sa = Some (with_slabs p a) -> chain V sa = kept ++ rest -> (length rest < n)%nat ->
  acc = s32 acc -> (forall b, b ∈ kept -> ~ empty_slab a V b) ->
  runs (reclaim_slabs n (sa_order a) target (link_behind sa a kept) (sptr a rest NULL) acc) h (fun r h' =>
    exists lent' V', wf h' lent' V' /\ shrunk h lent V h' lent' V' /\ r.1 = s32 (acc + (lent_pages lent - lent_pages lent'))
      /\ (forall sa', sa' <> sa -> chain V' sa' = chain V sa')
      /\ if r.2 : bool then 0 < target <= r.1 else forall b, b ∈ chain V' sa -> ~ empty_slab a V b).
Proof.
  induction rest as [|b rest IH]; intros n h lent V p kept acc W Hsa Hc Hn Hacc Hk.
  { destruct n; [lia|]. simpl. go. exists lent, V. split_and!; try done; [apply shrunk_refl|simpl; by rewrite Z.sub_diag, Z.add_0_r|].
    intros b Hb. apply Hk. rewrite Hc in Hb. by rewrite app_nil_r in Hb. }
  destruct n as [|n]; [simpl in Hn; lia|]. simpl in Hn.
  assert (Hin : b ∈ chain V sa) by (rewrite Hc; set_solver).
  assert (Ha : geom a) by (eapply geom_with, wf_geom; done).
  pose proof (chain_space _ _ _ W sa _ b Hsa Hin) as Hb. pose proof (slab_nonnull a Ha b Hb) as Hnn.
  pose proof (wf_seg _ _ _ W sa _ Hsa) as Hl. rewrite lseg_with, Hc, lseg_app in Hl. destruct Hl as [_ [R _]].
  change (sptr a (b :: rest) NULL) with (slab_at a b). cbn [reclaim_slabs].
  destruct (Z.eqb_spec (slab_at a b) NULL); [done|]. go. eapply runs_get_slab; [apply R|]. cbn [s_inuse s_next s_addr].
  apply runs_bind. destruct (Z.eqb_spec (sa_slab_nobjs a - Z.of_nat (length (free V b))) 0) as [He|He].
  - rewrite Z.shiftl_1_l. assert (He' : empty_slab a V b) by (unfold empty_slab; lia).
    eapply runs_regroup; [by apply (run_drop h lent V sa p a kept b rest)|]. intros [] h1 (W1 & S1 & p1 & Hsa1). go. cbn [fst snd].
    assert (En : lent_pages (delete b lent) = lent_pages lent - npages a).
    { unfold lent_pages. rewrite (msum_delete id lent b (npages a)); [done|]. by apply (wf_lent _ _ _ W sa (with_slabs p a)). }
    set (acc' := s32 (acc + 2 ^ sa_order a)) in *.
    assert (Eacc : acc' = s32 (acc + (lent_pages lent - lent_pages (delete b lent)))) by (rewrite En; unfold acc'; f_equal; unfold npages; lia).
    destruct ((0 <? target) && (target <=? acc')) eqn:Et.
    + go. exists (delete b lent), (set_chain sa (kept ++ rest) V). split_and!; try done; simpl; [|lia..].
      intros sa' Hne. by rewrite fn_lookup_insert_ne.
    + eapply runs_mono; [apply (IH n h1 (delete b lent) (set_chain sa (kept ++ rest) V) p1 kept acc')|]; try done.
      * simpl. by rewrite fn_lookup_insert.
      * lia.
      * unfold acc'. by rewrite s32_idem.
      * intros r h2 (lent2 & V2 & W2 & S2 & Er & Hch & Hr). exists lent2, V2. split_and!; try done.
        -- by eapply shrunk_trans.
        -- rewrite Er, Eacc, s32_add. f_equal. lia.
        -- intros sa' Hne. rewrite Hch by done. simpl. by rewrite fn_lookup_insert_ne.
  - assert (He' : ~ empty_slab a V b) by (unfold empty_slab; lia). go. cbn [fst snd].
    destruct ((0 <? target) && (target <=? acc)) eqn:Et.
    + go. exists lent, V. split_and!; try done; [apply shrunk_refl|simpl; by rewrite Z.sub_diag, Z.add_0_r|simpl; lia..].
    + replace (Next (slab_at a b)) with (link_behind sa a (kept ++ [b])) by (unfold link_behind; by rewrite last_snoc).
      apply (IH n h lent V p (kept ++ [b]) acc); try done; [by rewrite <- app_assoc|lia|].
      intros c [Hc'|Hc']%elem_of_app; [by apply Hk|]. apply list_elem_of_singleton in Hc' as ->. done.
Qed.

Lemma aseg_at h l1 sa l2 : aseg h (l1 ++ sa :: l2) -> exists a, allocators h !! sa = Some a /\ sa_next a = hd NULL l2.
Proof. induction l1 as [|x l1 IH]; simpl; intros [E Hl]; [done|by apply IH]. Qed.

(** The loop over the allocators *)
Lemma run_reclaim_loop target l2 : forall n h lent V l1 acc,
  wf h lent V -> alist V = l1 ++ l2 -> (length l2 < n)%nat -> acc = s32 acc ->
  (forall sa a b, sa ∈ l1 -> allocators h !! sa = Some a -> b ∈ chain V sa -> ~ empty_slab a V b) ->
  runs (reclaim_loop n target (hd NULL l2) acc) h (fun r h' =>
    exists lent' V', wf h' lent' V' /\ shrunk h lent V h' lent' V' /\ r = s32 (acc + (lent_pages lent - lent_pages lent'))
      /\ (0 < target <= r \/ forall sa a b, allocators h !! sa = Some a -> b ∈ chain V' sa -> ~ empty_slab a V b)).
Proof.
  induction l2 as [|sa l2 IH]; intros n h lent V l1 acc W Hl Hn Hacc Hk.
  { destruct n; [simpl in Hn; lia|]. simpl. go. exists lent, V. split_and!; try done; [apply shrunk_refl|by rewrite Z.sub_diag, Z.add_0_r|].
    right. intros sa a b Hsa. apply Hk; [|done]. rewrite app_nil_r in Hl. rewrite <- Hl. apply (wf_member _ _ _ W). by eexists. }
  destruct n as [|n]; [simpl in Hn; lia|]. simpl in Hn.
  pose proof (wf_aseg _ _ _ W) as Hs. rewrite Hl in Hs. apply aseg_at in Hs as (a & Hsa & Hnx).
  assert (Hnn : sa <> NULL) by (intros ->; apply (wf_null _ _ _ W); rewrite Hl; set_solver).
  cbn [reclaim_loop hd]. destruct (Z.eqb_spec sa NULL); [done|]. go. eapply runs_get_allocator; [done|]. go.
  pose proof (wf_geom _ _ _ W sa a Hsa) as Ha. rewrite (wf_head _ _ _ W sa a Hsa). change (Head sa) with (link_behind sa a []).
  eapply runs_mono; [apply (run_reclaim_slabs sa a target (chain V sa) _ h lent V (sa_slabs a) [] acc)|]; try done.
  - by rewrite with_slabs_id.
  - pose proof (lseg_length _ _ _ _ _ Ha (wf_nodup _ _ _ W sa) (wf_seg _ _ _ W sa a Hsa)). lia.
  - intros b Hb. by apply not_elem_of_nil in Hb.
  - intros [r met] h1 (lent1 & V1 & W1 & S1 & Er & Hch & Hr). cbn [fst snd] in *. destruct met.
    + go. exists lent1, V1. split_and!; try done. by left.
    + go. destruct (alike_Some _ _ _ _ (sk_alloc _ _ _ _ _ _ S1) Hsa) as [p Hsa1]. eapply runs_get_allocator; [done|]. cbn [sa_next with_slabs].
      rewrite Hnx. eapply runs_mono; [apply (IH n h1 lent1 V1 (l1 ++ [sa]) r)|]; try done.
      * rewrite (sk_alist _ _ _ _ _ _ S1), Hl, <- app_assoc. done.
      * lia.
      * by rewrite Er, s32_idem.
      * intros sa' a' b Hin Ha' Hb. destruct (decide (sa' = sa)) as [->|Hne].
        -- simplify_eq. unfold empty_slab. rewrite (sk_free _ _ _ _ _ _ S1). by apply Hr.
        -- destruct (alike_Some _ _ _ _ (alike_sym _ _ (sk_alloc _ _ _ _ _ _ S1)) Ha') as [q Ha0].
           unfold empty_slab. rewrite (sk_free _ _ _ _ _ _ S1). rewrite Hch in Hb by done. apply (Hk sa' _ b) in Ha0; [done|set_solver|done].
      * intros r' h2 (lent2 & V2 & W2 & S2 & Er' & Hor). exists lent2, V2. split_and!; try done.
        -- by eapply shrunk_trans.
        -- rewrite Er', Er, s32_add. f_equal. lia.
        -- destruct Hor as [Ht|Ho]; [by left|right]. intros sa' a' b Ha' Hb.
           destruct (alike_Some _ _ _ _ (sk_alloc _ _ _ _ _ _ S1) Ha') as [q Ha1]. specialize (Ho sa' _ b Ha1 Hb).
           unfold empty_slab in *. by rewrite (sk_free _ _ _ _ _ _ S1) in Ho.
Qed.

Lemma alist_length h lent V : wf h lent V -> length (alist V) = size (allocators h).
Proof.
  intros W. rewrite <- (size_dom (D := gset Z)), <- (size_list_to_set (C := gset Z) (alist V)) by apply (wf_anodup _ _ _ W).
  f_equal. apply set_eq. intros sa. by rewrite elem_of_list_to_set, elem_of_dom, (wf_member _ _ _ W).
Qed.

Lemma run_reclaim h lent V target : wf h lent V ->
  runs (slab_allocators_reclaim target) h (fun r h' =>
    exists lent' V', wf h' lent' V' /\ shrunk h lent V h' lent' V' /\ r = s32 (lent_pages lent - lent_pages lent')
      /\ (0 < target <= r \/ forall sa a b, allocators h !! sa = Some a -> b ∈ chain V' sa -> ~ empty_slab a V b)).
Proof.
  intros W. unfold slab_allocators_reclaim. go. rewrite (wf_first _ _ _ W).
  apply (run_reclaim_loop target (alist V) _ h lent V [] 0); try done.
  - rewrite (alist_length _ _ _ W). lia.
  - intros sa a b Hsa. by apply not_elem_of_nil in Hsa.
Qed.

(** ** Growing *)

Section new_slab.
Context a (Ha : geom a) (b : Z) (Hb : in_space a b).

Lemma fptr_objects : fptr a b (objects a) = b.
Proof. pose proof (g_nobjs a Ha). unfold objects. rewrite seqZ_cons by lia. simpl. unfold obj_at. lia. Qed.

Lemma run_link_loop n : forall k h, 0 <= k -> k + Z.of_nat n = sa_slab_nobjs a - 1 ->
  runs (link_loop n a (obj_at a b k)) h (fun o h' => o = obj_at a b (sa_slab_nobjs a - 1) /\ same_rest h h' /\ local h h' b (npages a)
    /\ (forall j, k <= j < sa_slab_nobjs a - 1 -> bufctls h' !! ctl_at a b j = Some (mk_bufctl (obj_at a b (j + 1)) true))
    /\ (forall j, j < k -> bufctls h' !! ctl_at a b j = bufctls h !! ctl_at a b j)).
Proof.
  induction n as [|n IH]; intros k h Hk Hn; cbn [link_loop].
  - go. replace k with (sa_slab_nobjs a - 1) by lia. split_and!; try done. intros. lia.
  - assert (Hki : 0 <= k < sa_slab_nobjs a) by lia. rewrite at_next, at_bufctl by done. sgo.
    eapply runs_mono; [apply (IH (k + 1)); lia|]. intros o h' (-> & E1 & E2 & E3 & E4). split_and!; try done.
    + eapply same_rest_trans; [|done]. done.
    + eapply local_trans; [|done]. by apply local_bufctls, ctl_in_blk.
    + intros j Hj. destruct (decide (j = k)) as [->|Hne]; [|apply E3; lia]. rewrite E4 by lia. simpl. by rewrite lookup_insert_eq.
    + intros j Hj. rewrite E4 by lia. simpl. rewrite lookup_insert_ne; [done|]. intros E. apply (ctl_at_inj a Ha) in E. lia.
Qed.

Definition zoned h (j : Z) : Prop :=
  words h !! obj_at a b j = Some SLAB_REDZONE /\ words h !! (ctl_at a b j - sizeof_word) = Some SLAB_REDZONE.

Lemma run_redzone_loop n : forall k h, 0 <= k -> k + Z.of_nat n = sa_slab_nobjs a -> (forall j, 0 <= j < k -> zoned h j) ->
  runs (redzone_loop n a (obj_at a b k)) h (fun _ h' => same_rest h h' /\ local h h' b (npages a)
    /\ slabs h' = slabs h /\ bufctls h' = bufctls h /\ (forall j, 0 <= j < sa_slab_nobjs a -> zoned h' j)).
Proof.
  induction n as [|n IH]; intros k h Hk Hn Hz; cbn [redzone_loop].
  - go. split_and!; try done. intros j Hj. apply Hz. lia.
  - assert (Hki : 0 <= k < sa_slab_nobjs a) by lia. rewrite at_next, at_rear by done. sgo.
    set (h1 := set_words _ (set_words _ h)). pose proof (g_size a Ha) as Hs. unfold sizeof_word in Hs.
    assert (Hw : forall x, words h !! x = Some SLAB_REDZONE -> words h1 !! x = Some SLAB_REDZONE).
    { intros x Hx. unfold h1. simpl. destruct (decide (x = ctl_at a b k - sizeof_word)) as [->|]; [by rewrite lookup_insert_eq|].
      rewrite lookup_insert_ne by done. destruct (decide (x = obj_at a b k)) as [->|]; [by rewrite lookup_insert_eq|by rewrite lookup_insert_ne]. }
    eapply runs_mono; [apply (IH (k + 1) h1); [lia..|]|].
    + intros j Hj. destruct (decide (j = k)) as [->|Hne].
      * unfold zoned, h1. simpl. rewrite lookup_insert_eq. split; [|done].
        destruct (decide (ctl_at a b k - sizeof_word = obj_at a b k)) as [->|]; [by rewrite lookup_insert_eq|].
        by rewrite lookup_insert_ne, lookup_insert_eq.
      * destruct (Hz j ltac:(lia)). split; by apply Hw.
    + intros [] h' (E1 & E2 & E3 & E4 & E5). split_and!; try done; [by apply (same_rest_trans h h1 h')|].
      eapply local_trans; [|done]. unfold h1. eapply local_trans; apply local_words.
      * replace (obj_at a b k) with (obj_at a b k + 0) by lia. apply obj_in_blk; [done..|]. unfold stride, sizeof_bufctl. lia.
      * unfold ctl_at. rewrite <- Z.add_sub_assoc. apply obj_in_blk; [done..|]. unfold stride, sizeof_bufctl, sizeof_word. lia.
Qed.

(** The free list of a new slab *)
Lemma fchain_new h n : forall k, 0 <= k -> k + Z.of_nat n = sa_slab_nobjs a ->
  (forall j, 0 <= j < sa_slab_nobjs a - 1 -> bufctls h !! ctl_at a b j = Some (mk_bufctl (obj_at a b (j + 1)) true)) ->
  bufctls h !! ctl_at a b (sa_slab_nobjs a - 1) = Some (mk_bufctl NULL true) ->
  fchain h a b (seqZ k (Z.of_nat n)).
Proof.
  induction n as [|n IH]; intros k Hk Hn Hj Hlast; [done|]. rewrite seqZ_cons by lia. rewrite Nat2Z.inj_succ, Z.pred_succ.
  split; [|rewrite <- Z.add_1_r; apply IH; [lia..|done|done]]. destruct n as [|n].
  - simpl. by replace k with (sa_slab_nobjs a - 1) by lia.
  - rewrite seqZ_cons by lia. simpl. rewrite <- Z.add_1_r. apply Hj. lia.
Qed.

Lemma run_init_slab h : runs (init_slab a b) h (fun s h' =>
  s = slab_at a b /\ same_rest h h' /\ local h h' b (npages a) /\ slab_rep h' a b (objects a) NULL).
Proof.
  pose proof (g_nobjs a Ha) as Hno. unfold init_slab. apply runs_bind.
  assert (E0 : b = obj_at a b 0) by (unfold obj_at; lia). rewrite E0 at 1.
  eapply runs_mono; [apply (run_link_loop (Z.to_nat (sa_slab_nobjs a - 1)) 0); lia|]. intros o h1 (-> & A1 & A2 & A3 & _).
  rewrite at_bufctl, at_next by (done || lia). replace (sa_slab_nobjs a - 1 + 1) with (sa_slab_nobjs a) by lia. sgo.
  set (h2 := set_slabs _ _). rewrite E0 at 1.
  eapply runs_mono; [apply (run_redzone_loop (Z.to_nat (sa_slab_nobjs a)) 0 h2); [lia..|intros; lia]|].
  intros [] h3 (B1 & B2 & B3 & B4 & B5). go. split_and!; [done|by apply (same_rest_trans h h1 h3), (same_rest_trans h1 h2 h3)| |].
  - eapply local_trans; [done|]. eapply local_trans; [|done]. unfold h2.
    eapply local_trans; [apply (local_bufctls _ _ _ (ctl_at a b (sa_slab_nobjs a - 1)) (mk_bufctl NULL true)), ctl_in_blk; [done|lia]|]. by apply local_slabs, slab_in_blk.
  - assert (El : Z.of_nat (length (objects a)) = sa_slab_nobjs a) by (unfold objects; rewrite length_seqZ; lia).
    pose proof fptr_objects as Ef.
    split.
    + rewrite B3, El, Ef, Z.sub_diag. unfold h2. simpl. unfold slab_at. by rewrite lookup_insert_eq.
    + unfold objects. replace (sa_slab_nobjs a) with (Z.of_nat (Z.to_nat (sa_slab_nobjs a))) at 1 by lia.
      apply fchain_new; [lia..| |]; rewrite B4; unfold h2; simpl; [|by rewrite lookup_insert_eq].
      intros j Hj. rewrite lookup_insert_ne; [apply A3; lia|]. intros E. apply (ctl_at_inj a Ha) in E. lia.
    + apply NoDup_seqZ.
    + intros i Hi%elem_of_seqZ. lia.
    + intros i Hi []. apply elem_of_seqZ. lia.
    + by apply B5.
Qed.

End new_slab.

(** A block added to the slabs of an allocator *)
Definition grown_view sa a b V : view := mk_view (<[sa := b :: chain V sa]> (chain V)) (<[b := objects a]> (free V)) (alist V).

Record grown h sa a b h' : Prop := {
  gr_alloc : allocators h' = <[sa := with_slabs (slab_at a b) a]> (allocators h);
  gr_kmalloc : kmalloc_allocators h' = kmalloc_allocators h;
  gr_local : local h h' b (npages a)
}.

Lemma wf_grown h h1 h2 lent V sa a b p :
  wf h lent V -> allocators h !! sa = Some a -> lent !! b = None -> pages_ok p (<[b := npages a]> lent) ->
  same_rest (set_pages p h) h1 -> local h h1 b (npages a) -> slab_rep h1 a b (objects a) NULL ->
  h2 = set_allocators (insert sa (with_slabs (slab_at a b) a))
         (set_slabs (insert (slab_at a b) (mk_slab (sa_slabs a) 0 b b)) h1) ->
  wf h2 (<[b := npages a]> lent) (grown_view sa a b V) /\ grown h sa a b h2.
Proof.
  intros W Hsa Hb Hp [E1 E2 E3 E4] Hl R E. pose proof (wf_geom _ _ _ W sa a Hsa) as Ha. pose proof (g_nobjs a Ha).
  assert (Hloc : local h h2 b (npages a)).
  { eapply local_trans; [done|]. rewrite E. intros x Hx. eapply (local_slabs h1 b (npages a) (slab_at a b) (mk_slab (sa_slabs a) 0 b b)); [|done]. by apply slab_in_blk. }
  assert (El : Z.of_nat (length (objects a)) = sa_slab_nobjs a) by (unfold objects; rewrite length_seqZ; lia).
  pose proof (fptr_objects a Ha b) as Ef.
  assert (Hnew : forall sa', b ∉ chain V sa').
  { intros sa' Hin. destruct (chain_alloc _ _ _ W sa' b Hin) as [a' Ha']. by rewrite (wf_lent _ _ _ W sa' a' b Ha' Hin) in Hb. }
  assert (Hap : forall sa' a' c, allocators h !! sa' = Some a' -> c ∈ chain V sa' -> agree h h2 c (npages a')).
  { intros sa' a' c Ha' Hc. apply (agree_apart h h2 b (npages a)); [done|].
    assert (b <> c) by (intros <-; by apply (Hnew sa')).
    apply (lent_apart p (<[b := npages a]> lent)); [done|by rewrite lookup_insert_eq| |done].
    rewrite lookup_insert_ne by done. by apply (wf_lent _ _ _ W sa'). }
  split; [|split; [by rewrite E; simpl; rewrite E1|by rewrite E; simpl; rewrite E3|done]].
  apply (wf_rechain h h2 lent _ V sa a (slab_at a b) (b :: chain V sa) (<[b := objects a]> (free V))); try done.
  - rewrite E. simpl. by rewrite E1.
  - by rewrite E.
  - rewrite E. simpl. by rewrite E4.
  - constructor; [apply Hnew|apply W].
  - split.
    + rewrite fn_lookup_insert. rewrite <- (wf_head _ _ _ W sa a Hsa). pose proof (snext_rep _ _ _ _ _ (sa_slabs a) R) as R'.
      cbv zeta in R'. rewrite El, Ef, Z.sub_diag in R'. apply (slab_rep_agree _ h2) in R'; [done..|]. by intros x _; rewrite E.
    + apply (lseg_same h _ _ (free V)); [|by apply W]. intros c nx Hc. rewrite fn_lookup_insert_ne by (intros <-; by apply (Hnew sa)).
      apply slab_rep_agree; [done|]. by apply (Hap sa).
  - intros c [->|Hc]%elem_of_cons; [by rewrite lookup_insert_eq|]. rewrite lookup_insert_ne by (intros <-; by apply (Hnew sa)).
    by apply (wf_lent _ _ _ W sa).
  - intros sa' a' c Hne Ha' Hc. assert (Hcb : c <> b) by (intros ->; by apply (Hnew sa')). split_and!.
    + intros [->|Hc']%elem_of_cons; [done|]. apply Hne. by apply (wf_owner _ _ _ W sa' sa c).
    + by apply (Hap sa').
    + by rewrite fn_lookup_insert_ne.
    + by rewrite lookup_insert_ne.
Qed.

Lemma wf_set_pages h lent V p : wf h lent V -> pages_ok p lent -> wf (set_pages p h) lent V.
Proof.
  intros [W1 W2 W3 W4 W5 W6 W7 W8 W9 W10 W11 W12 W13] Hp. split; try done.
  - intros sa a Ha. apply (lseg_same h _ _ (free V)); [|by apply W4]. intros b nx _. by apply slab_rep_agree; [eapply W2|].
  - by apply (aseg_same h).
Qed.

Lemma run_grow h lent V sa a : wf h lent V -> allocators h !! sa = Some a ->
  runs (slab_allocator_grow sa) h (fun g h' =>
    if g : bool then exists b, lent !! b = None /\ wf h' (<[b := npages a]> lent) (grown_view sa a b V) /\ grown h sa a b h'
    else (exists p', pg_alloc (npages a) (pages h) = Done None p')
      /\ exists lent' V', wf h' lent' V' /\ shrunk h lent V h' lent' V').
Proof.
  intros W Hsa. pose proof (wf_geom _ _ _ W sa a Hsa) as Ha. unfold slab_allocator_grow. go.
  eapply runs_get_allocator; [done|]. apply runs_bind. unfold slab_page_alloc. rewrite Z.shiftl_1_l. apply runs_bind.
  destruct (pg_alloc_ok (pages h) lent (sa_order a) (wf_pages _ _ _ W) (g_order a Ha)) as ([b|] & p & E & Hr);
    (eapply (runs_done _ _ _ (set_pages p h)); [unfold page_op; by rewrite E|]); cbv beta iota.
  - go. destruct Hr as [Hb Hp].
    assert (Hs : in_space a b) by (apply (lent_range p _ b (npages a)) in Hp; [done|by rewrite lookup_insert_eq]).
    eapply runs_mono; [by apply (run_init_slab a Ha b Hs)|]. intros s h1 (-> & S1 & L1 & R1).
    assert (Hsa1 : allocators h1 !! sa = Some a) by (by rewrite (sm_allocators _ _ S1)).
    assert (El : Z.of_nat (length (objects a)) = sa_slab_nobjs a) by (unfold objects; rewrite length_seqZ; pose proof (g_nobjs a Ha); lia).
    go. eapply runs_get_allocator; [done|]. go. eapply runs_upd_slab; [apply R1|]. go. eapply runs_upd_allocator; [done|]. go.
    exists b. split; [done|]. apply (wf_grown h h1 _ lent V sa a b p); try done.
    rewrite El, Z.sub_diag, fptr_objects by done. done.
  - go. eapply runs_mono; [by apply (run_reclaim (set_pages p h) lent V 0), wf_set_pages|].
    intros r h' (lent' & V' & W' & S' & _). go. split; [by exists p|]. exists lent', V'. split; [done|].
    destruct S'. by split.
Qed.

(** ** Objects *)

Section objects.
Context h lent V (W : wf h lent V).

(** An address belongs to one object of one slab only. *)
Lemma obj_id sa a b i d sa' a' b' i' d' :
  allocators h !! sa = Some a -> b ∈ chain V sa -> 0 <= i < sa_slab_nobjs a -> 0 <= d < stride a ->
  allocators h !! sa' = Some a' -> b' ∈ chain V sa' -> 0 <= i' < sa_slab_nobjs a' -> 0 <= d' < stride a' ->
  obj_at a b i + d = obj_at a' b' i' + d' -> sa = sa' /\ b = b' /\ i = i' /\ d = d'.
Proof.
  intros Hsa Hb Hi Hd Hsa' Hb' Hi' Hd' E.
  pose proof (obj_in_blk a (wf_geom _ _ _ W _ _ Hsa) b i d Hi Hd) as H1.
  pose proof (obj_in_blk a' (wf_geom _ _ _ W _ _ Hsa') b' i' d' Hi' Hd') as H2.
  destruct (decide (b = b')) as [<-|Hne].
  - assert (sa = sa') as <- by (by apply (wf_owner _ _ _ W sa sa' b)). simplify_eq.
    by destruct (obj_offset_inj a b i i' d d') as [-> ->].
  - pose proof (chains_apart _ _ _ W _ _ _ _ _ _ Hsa Hb Hsa' Hb' Hne). unfold in_blk in *. lia.
Qed.

(** The memory of an object, without its red zones *)
Definition inside a (o x : Z) : Prop := o <= x < o + sa_objsize a - 2 * sizeof_word.

Lemma live_cell sa a o x : allocators h !! sa = Some a -> live h V sa o -> inside a o x ->
  exists b i, b ∈ chain V sa /\ 0 <= i < sa_slab_nobjs a /\ i ∉ free V b /\ o = obj_at a b i + sizeof_word
    /\ x = obj_at a b i + (x - obj_at a b i) /\ 0 <= x - obj_at a b i < stride a /\ in_blk b (npages a) x.
Proof.
  intros Hsa (a' & b & i & Ha' & Hb & Hi & Hf & ->) Hx. simplify_eq. exists b, i. unfold inside, stride, sizeof_word, sizeof_bufctl in *.
  split_and!; try done; try lia. replace x with (obj_at a b i + (x - obj_at a b i)) by lia.
  apply obj_in_blk; [by eapply wf_geom|done|]. unfold stride, sizeof_bufctl. lia.
Qed.

Lemma live_apart sa a o sa' a' o' x : allocators h !! sa = Some a -> allocators h !! sa' = Some a' ->
  live h V sa o -> live h V sa' o' -> inside a o x -> inside a' o' x -> sa = sa' /\ o = o'.
Proof.
  intros Hsa Hsa' Ho Ho' Hx Hx'.
  destruct (live_cell sa a o x Hsa Ho Hx) as (b & i & Hb & Hi & _ & -> & E & Hd & _).
  destruct (live_cell sa' a' o' x Hsa' Ho' Hx') as (b' & i' & Hb' & Hi' & _ & -> & E' & Hd' & _).
  destruct (obj_id _ _ _ _ _ _ _ _ _ _ Hsa Hb Hi Hd Hsa' Hb' Hi' Hd' ltac:(lia)) as (<- & <- & <- & _).
  split; [done|]. by simplify_eq.
Qed.

Lemma live_take h' sa a b i f : allocators h' = allocators h -> allocators h !! sa = Some a -> b ∈ chain V sa -> free V b = i :: f ->
  forall sa' o', live h' (set_free b f V) sa' o' <-> live h V sa' o' \/ (sa' = sa /\ o' = obj_at a b i + sizeof_word).
Proof.
  intros E Hsa Hb Hf sa' o'. destruct (chain_rep _ _ _ W sa a b Hsa Hb) as [nx R]. rewrite Hf in R.
  pose proof (sr_nodup _ _ _ _ _ R) as [Hi _]%NoDup_cons. pose proof (sr_range _ _ _ _ _ R i ltac:(set_solver)) as Hir.
  unfold live. rewrite E. simpl. split.
  - intros (a' & b' & j & Ha' & Hb' & Hj & Hjf & ->). destruct (decide (b' = b)) as [->|Hne].
    + assert (sa' = sa) as -> by (by apply (wf_owner _ _ _ W sa' sa b)). simplify_eq. rewrite fn_lookup_insert in Hjf.
      destruct (decide (j = i)) as [->|Hji]; [by right|]. left. exists a, b, j. rewrite Hf. split_and!; try done; try lia. set_solver.
    + rewrite fn_lookup_insert_ne in Hjf by done. left. exists a', b', j. split_and!; try done; lia.
  - intros [(a' & b' & j & Ha' & Hb' & Hj & Hjf & ->)|[-> ->]].
    + exists a', b', j. split_and!; try done; try lia. destruct (decide (b' = b)) as [->|Hne].
      * rewrite fn_lookup_insert. rewrite Hf in Hjf. set_solver.
      * by rewrite fn_lookup_insert_ne.
    + exists a, b, i. rewrite fn_lookup_insert. split_and!; try done; lia.
Qed.

Lemma live_give h' sa a b i : allocators h' = allocators h -> allocators h !! sa = Some a -> b ∈ chain V sa ->
  0 <= i < sa_slab_nobjs a -> i ∉ free V b ->
  forall sa' o', live h' (set_free b (i :: free V b) V) sa' o' <-> live h V sa' o' /\ ~ (sa' = sa /\ o' = obj_at a b i + sizeof_word).
Proof.
  intros E Hsa Hb Hi Hf sa' o'. pose proof (g_size a (wf_geom _ _ _ W sa a Hsa)) as Hs. unfold sizeof_word in Hs.
  unfold live. rewrite E. simpl. split.
  - intros (a' & b' & j & Ha' & Hb' & Hj & Hjf & ->). destruct (decide (b' = b)) as [->|Hne].
    + assert (sa' = sa) as -> by (by apply (wf_owner _ _ _ W sa' sa b)). simplify_eq. rewrite fn_lookup_insert in Hjf.
      split; [exists a, b, j; split_and!; try done; try lia; set_solver|]. intros [_ Ee]. destruct Hjf.
      assert (j = i) as -> by (apply (obj_at_inj a (wf_geom _ _ _ W sa a Hsa) b); lia). set_solver.
    + rewrite fn_lookup_insert_ne in Hjf by done. split; [exists a', b', j; split_and!; try done; lia|]. intros [-> Ee]. simplify_eq.
      pose proof (wf_geom _ _ _ W sa a Hsa) as Ha. apply Hne.
      destruct (obj_id sa a b' j 0 sa a b i 0) as (_ & ? & _); try done; unfold stride, sizeof_bufctl; lia.
  - intros [(a' & b' & j & Ha' & Hb' & Hj & Hjf & ->) Hno]. exists a', b', j. split_and!; try done; try lia.
    destruct (decide (b' = b)) as [->|Hne]; [|by rewrite fn_lookup_insert_ne].
    assert (sa' = sa) as -> by (by apply (wf_owner _ _ _ W sa' sa b)). simplify_eq. rewrite fn_lookup_insert.
    intros [->|Hj']%elem_of_cons; [by destruct Hno|done].
Qed.

(** A block just added has no live objects. *)
Lemma live_grown h' sa a b : allocators h !! sa = Some a -> lent !! b = None -> grown h sa a b h' ->
  forall sa' o, live h' (grown_view sa a b V) sa' o <-> live h V sa' o.
Proof.
  intros Hsa Hb [E _ _] sa' o.
  assert (Hnew : forall sa', b ∉ chain V sa').
  { intros sa'' Hin. destruct (chain_alloc _ _ _ W sa'' b Hin) as [a' Ha']. by rewrite (wf_lent _ _ _ W sa'' a' b Ha' Hin) in Hb. }
  unfold live. rewrite E. simpl. split.
  - intros (a' & c & i & Ha' & Hc & Hi & Hf & ->). destruct (decide (sa' = sa)) as [->|Hne].
    + rewrite lookup_insert_eq in Ha'. rewrite fn_lookup_insert in Hc. simplify_eq. exists a, c, i.
      apply elem_of_cons in Hc as [->|Hc].
      * rewrite fn_lookup_insert in Hf. destruct Hf. apply elem_of_seqZ. simpl in Hi. lia.
      * rewrite fn_lookup_insert_ne in Hf by (intros <-; by apply (Hnew sa)). split_and!; try done; apply Hi.
    + rewrite lookup_insert_ne in Ha' by done. rewrite fn_lookup_insert_ne in Hc by done.
      rewrite fn_lookup_insert_ne in Hf by (intros <-; by apply (Hnew sa')). exists a', c, i. split_and!; try done; lia.
  - intros (a' & c & i & Ha' & Hc & Hi & Hf & ->). assert (Hcb : b <> c) by (intros <-; by apply (Hnew sa')).
    destruct (decide (sa' = sa)) as [->|Hne].
    + simplify_eq. exists (with_slabs (slab_at a b) a), c, i. rewrite lookup_insert_eq, fn_lookup_insert, fn_lookup_insert_ne by done.
      split_and!; try done; try apply Hi. set_solver.
    + exists a', c, i. rewrite lookup_insert_ne, !fn_lookup_insert_ne by done. split_and!; try done; lia.
Qed.

End objects.

(** What every operation leaves to the objects that are live before it *)
Record keeps h V h' : Prop := {
  kp_alloc : alike (allocators h) (allocators h');
  kp_kmalloc : kmalloc_allocators h' = kmalloc_allocators h;
  kp_words : forall sa a o x, allocators h !! sa = Some a -> live h V sa o -> inside a o x -> words h' !! x = words h !! x
}.

Lemma keeps_refl h V : keeps h V h.
Proof. done. Qed.

Lemma keeps_trans h1 V1 h2 V2 h3 : (forall sa o, live h1 V1 sa o -> live h2 V2 sa o) ->
  keeps h1 V1 h2 -> keeps h2 V2 h3 -> keeps h1 V1 h3.
Proof.
  intros Hl [A1 A2 A3] [B1 B2 B3]. split.
  - intros sa. by rewrite B1, A1.
  - congruence.
  - intros sa a o x Hsa Ho Hx. destruct (alike_Some _ _ _ _ A1 Hsa) as [p Hsa2]. rewrite <- (A3 sa a o x) by done.
    apply (B3 sa (with_slabs p a) o x); [done|by apply Hl|done].
Qed.

Lemma keeps_shrunk h lent V h' lent' V' : wf h lent V -> shrunk h lent V h' lent' V' -> keeps h V h'.
Proof.
  intros W S. split; [apply S..|]. intros sa a o x Hsa Ho Hx. pose proof Ho as Ho'.
  apply (shrunk_live _ _ _ _ _ _ sa o W S) in Ho' as (a' & b & i & Ha' & Hb & Hi & Hf & E).
  destruct (alike_Some _ _ _ _ (sk_alloc _ _ _ _ _ _ S) Hsa) as [p Hp]. simplify_eq.
  apply (sk_words _ _ _ _ _ _ S sa a b); [done..|]. unfold inside, sizeof_word in *. change (obj_at (with_slabs p a) b i) with (obj_at a b i) in Hx.
  replace x with (obj_at a b i + (x - obj_at a b i)) by lia. apply obj_in_blk; [by eapply wf_geom|done|]. unfold stride, sizeof_bufctl. lia.
Qed.

Lemma keeps_grown h lent V h' sa a b : wf h lent V -> allocators h !! sa = Some a -> lent !! b = None ->
  wf h' (<[b := npages a]> lent) (grown_view sa a b V) -> grown h sa a b h' -> keeps h V h'.
Proof.
  intros W Hsa Hb W' [E1 E2 E3]. split; [|done|].
  - rewrite E1. apply (alike_insert _ _ _ (sa_slabs a)). by rewrite with_slabs_id.
  - intros sa' a' o x Ha' Ho Hx. destruct (live_cell h lent V W sa' a' o x Ha' Ho Hx) as (c & i & Hc & _ & _ & _ & _ & _ & Hin).
    assert (Hcb : b <> c) by (intros <-; by rewrite (wf_lent _ _ _ W sa' a' b Ha' Hc) in Hb).
    apply cell_words. apply (agree_apart h h' b (npages a) c (npages a')); [done| |done].
    apply (lent_apart _ _ b (npages a) c (npages a') (wf_pages _ _ _ W')); [by rewrite lookup_insert_eq| |done].
    rewrite lookup_insert_ne by done. by apply (wf_lent _ _ _ W sa').
Qed.

End ops.

End SlabOps.
