(* ===== verification/SlabSpec.v ===== *)
(** * What the slab allocator guarantees

    Allocation, freeing and reclaiming in terms of the live objects; the size of slabs;
    [kmalloc] and [kfree].  All theorems hold for any page allocator that keeps the laws
    of [PageLaws]. *)

From stdpp Require Import functions.
From S2P Require Import Prelude.
From S2P Require Export SlabOps.

Module SlabSpec.
Export SlabOps.

Local Open Scope Z_scope.
Local Open Scope kernel_scope.

(** ** Allocating an object *)

Section objects.
Context {P : Type} `{PageLaws P}.
Implicit Types (h : mem P) (a : slab_allocator) (V : view).

Lemma run_find_all h lent V sa a : wf h lent V -> allocators h !! sa = Some a ->
  runs (find_slab (S (size (slabs h))) (sa_slab_nobjs a) (sa_slabs a)) h (fun s h' => h' = h /\
    ((s = NULL /\ forall b, b ∈ chain V sa -> free V b = []) \/ (exists b, b ∈ chain V sa /\ s = slab_at a b /\ free V b <> []))).
Proof.
  intros W Hsa. pose proof (wf_geom _ _ _ W sa a Hsa) as Ha. rewrite (wf_head _ _ _ W sa a Hsa).
  apply run_find; [done| |by apply W|].
  - intros b Hb. by apply (chain_space _ _ _ W sa).
  - pose proof (lseg_length _ _ _ _ _ Ha (wf_nodup _ _ _ W sa) (wf_seg _ _ _ W sa a Hsa)). lia.
Qed.

(** A pass of the search that succeeds at once *)
Lemma run_search_found n h lent V sa a : wf h lent V -> allocators h !! sa = Some a ->
  (exists b, b ∈ chain V sa /\ free V b <> []) ->
  runs (slab_with_free n sa) h (fun s h' => h' = h /\ exists b, b ∈ chain V sa /\ s = slab_at a b /\ free V b <> []).
Proof.
  intros W Hsa (b0 & Hb0 & Hf0). pose proof (wf_geom _ _ _ W sa a Hsa) as Ha.
  destruct n; cbn [slab_with_free]; go; (eapply runs_get_allocator; [done|]); go;
    (eapply runs_mono; [by apply (run_find_all h lent V sa a)|]);
    (intros s h' (-> & [[-> Hno]|(b & Hb & -> & Hf)]); [by destruct Hf0; apply Hno|]);
    (pose proof (slab_nonnull a Ha b (chain_space _ _ _ W sa a b Hsa Hb)) as Hnn);
    (destruct (Z.eqb_spec (slab_at a b) NULL); [done|]);
    (destruct (chain_rep _ _ _ W sa a b Hsa Hb) as [nx R]); go; (eapply runs_get_slab; [apply R|]); go;
    cbn [s_inuse]; (destruct (Z.ltb_spec (sa_slab_nobjs a - Z.of_nat (length (free V b))) (sa_slab_nobjs a));
      [|destruct (free V b); [done|simpl in *; lia]]); go; (split; [done|]); by exists b.
Qed.

Lemma run_search h lent V sa a : wf h lent V -> allocators h !! sa = Some a ->
  runs (slab_with_free 1 sa) h (fun s h' => exists lent' V', wf h' lent' V' /\ keeps h V h'
    /\ (forall sa' o, live h' V' sa' o <-> live h V sa' o)
    /\ ((s = NULL /\ (forall b, b ∈ chain V sa -> free V b = []) /\ exists p', pg_alloc (npages a) (pages h) = Done None p')
        \/ exists b a', allocators h' !! sa = Some a' /\ b ∈ chain V' sa /\ s = slab_at a' b /\ free V' b <> [])).
Proof.
  intros W Hsa. pose proof (wf_geom _ _ _ W sa a Hsa) as Ha.
  destruct (decide (Exists (fun b => free V b <> []) (chain V sa))) as [Hex|Hex].
  { apply Exists_exists in Hex. eapply runs_mono; [by apply (run_search_found 1 h lent V sa a)|].
    intros s h' (-> & b & Hb & -> & Hf). exists lent, V. split_and!; try done. right. by exists b, a. }
  assert (Hno : forall b, b ∈ chain V sa -> free V b = []).
  { intros b Hb. destruct (decide (free V b = [])) as [|Hne]; [done|]. destruct Hex. apply Exists_exists. by exists b. }
  cbn [slab_with_free]. go. eapply runs_get_allocator; [done|]. go. eapply runs_mono; [by apply (run_find_all h lent V sa a)|].
  intros s h' (-> & [[-> _]|(b & Hb & -> & Hf)]); [|by destruct Hf; apply Hno]. simpl. go.
  eapply runs_mono; [by apply (run_grow h lent V sa a)|]. intros [] h'.
  - intros (b & Hb & W' & G). cbv iota.
    assert (Hsa' : allocators h' !! sa = Some (with_slabs (slab_at a b) a)) by (by rewrite (gr_alloc _ _ _ _ _ G), lookup_insert_eq).
    pose proof (keeps_grown h lent V h' sa a b W Hsa Hb W' G) as K. pose proof (live_grown h lent V W h' sa a b Hsa Hb G) as L.
    eapply runs_mono; [apply (run_search_found 0 h' _ _ sa _ W' Hsa')|].
    + exists b. simpl. rewrite !fn_lookup_insert. split; [set_solver|]. unfold objects. pose proof (g_nobjs a Ha).
      rewrite seqZ_cons by lia. done.
    + intros s h'' (-> & c & Hc & -> & Hf). exists (<[b := npages a]> lent), (grown_view sa a b V). split_and!; try done. right.
      by exists c, (with_slabs (slab_at a b) a).
  - intros (Hp & lent' & V' & W' & S). go. exists lent', V'. split_and!; try done; [by eapply keeps_shrunk| |by left].
    intros sa' o. by eapply shrunk_live.
Qed.

Lemma keeps_words h V h' : allocators h' = allocators h -> kmalloc_allocators h' = kmalloc_allocators h -> words h' = words h -> keeps h V h'.
Proof. intros E1 E2 E3. split; [by rewrite E1|done|by rewrite E3]. Qed.

(** Taking the first free object of a slab *)
Lemma run_take_wf h lent V sa a b i f : wf h lent V -> allocators h !! sa = Some a -> b ∈ chain V sa -> free V b = i :: f ->
  runs (take_object a (slab_at a b)) h (fun o h' => o = obj_at a b i + sizeof_word /\ wf h' lent (set_free b f V) /\ same_rest h h'
    /\ keeps h V h' /\ PAGE_SIZE <= o /\ ~ live h V sa o
    /\ (forall sa' o', live h' (set_free b f V) sa' o' <-> live h V sa' o' \/ (sa' = sa /\ o' = o))).
Proof.
  intros W Hsa Hb Ef. pose proof (wf_geom _ _ _ W sa a Hsa) as Ha. pose proof (chain_space _ _ _ W sa a b Hsa Hb) as Hs.
  destruct (chain_rep _ _ _ W sa a b Hsa Hb) as [nx R]. rewrite Ef in R. pose proof (sr_range _ _ _ _ _ R i ltac:(set_solver)) as Hi.
  eapply runs_mono; [by apply (run_take_object h a b i f nx)|]. intros o h2 (-> & R2 & Hl & Hsm & Hw). split_and!; try done.
  - apply (wf_set_free h lent V W h2 sa a b f); [done..|]. intros nx'. rewrite Ef. intros R'.
    assert (nx' = nx) as -> by (pose proof (sr_slab _ _ _ _ _ R) as E1; rewrite (sr_slab _ _ _ _ _ R') in E1; by injection E1). done.
  - apply keeps_words; [apply Hsm..|done].
  - destruct (obj_in_slab a Ha b i Hi). destruct Hs. unfold sizeof_word, PAGE_SIZE in *. lia.
  - intros (a' & b' & j & Ha' & Hb' & Hj & Hjf & E). simplify_eq. pose proof (g_size a Ha). unfold sizeof_word in *.
    destruct (obj_id h lent V W sa a b i 0 sa a b' j 0) as (_ & <- & <- & _); try done; try (unfold stride, sizeof_bufctl; lia).
    rewrite Ef in Hjf. set_solver.
  - by apply (live_take h lent V W h2 sa a b i f (sm_allocators _ _ Hsm) Hsa Hb Ef).
Qed.

Lemma run_obj_alloc h lent V sa a : wf h lent V -> allocators h !! sa = Some a ->
  runs (slab_obj_alloc sa) h (fun r h' => exists lent' V', wf h' lent' V' /\ keeps h V h' /\
    match r with
    | Some o => ~ live h V sa o /\ PAGE_SIZE <= o /\ forall sa' o', live h' V' sa' o' <-> live h V sa' o' \/ (sa' = sa /\ o' = o)
    | None => (forall b, b ∈ chain V sa -> free V b = []) /\ (exists p', pg_alloc (npages a) (pages h) = Done None p')
              /\ forall sa' o', live h' V' sa' o' <-> live h V sa' o'
    end).
Proof.
  intros W Hsa. unfold slab_obj_alloc. eapply runs_step; [by apply (run_search h lent V sa a)|].
  intros s h1 (lent1 & V1 & W1 & K1 & L1 & [(-> & Hno & Hp)|(b & a1 & Hsa1 & Hb & -> & Hf)]).
  { simpl. go. by exists lent1, V1. }
  pose proof (slab_nonnull a1 (wf_geom _ _ _ W1 sa a1 Hsa1) b (chain_space _ _ _ W1 sa a1 b Hsa1 Hb)) as Hnn.
  destruct (Z.eqb_spec (slab_at a1 b) NULL) as [E|_]; [done|]. go.
  eapply runs_get_allocator; [done|]. destruct (free V1 b) as [|i f] eqn:Ef; [done|]. go.
  eapply runs_mono; [by apply (run_take_wf h1 lent1 V1 sa a1 b i f)|]. intros o h2 (_ & W2 & _ & K2 & Ho & Hn & L2). go.
  exists lent1, (set_free b f V1). split_and!; try done.
  - eapply (keeps_trans h V h1 V1 h2); [intros; by apply L1|done..].
  - by rewrite <- L1.
  - intros sa' o'. rewrite L2, L1. done.
Qed.

Lemma run_obj_free h lent V sa o : wf h lent V -> live h V sa o ->
  runs (slab_obj_free sa o) h (fun _ h' => exists V', wf h' lent V' /\ keeps h V h' /\ allocators h' = allocators h
    /\ forall sa' o', live h' V' sa' o' <-> live h V sa' o' /\ ~ (sa' = sa /\ o' = o)).
Proof.
  intros W (a & b & i & Hsa & Hb & Hi & Hf & ->). pose proof (wf_geom _ _ _ W sa a Hsa) as Ha.
  pose proof (chain_space _ _ _ W sa a b Hsa Hb) as Hs. destruct (chain_rep _ _ _ W sa a b Hsa Hb) as [nx R].
  eapply runs_mono; [by apply (run_give h sa a b i (free V b) nx)|]. intros [] h1 (R1 & Hl & Hsm & Hw).
  exists (set_free b (i :: free V b) V). split_and!.
  - apply (wf_set_free h lent V W h1 sa a b); [done..|]. intros nx' R'.
    assert (nx' = nx) as -> by (pose proof (sr_slab _ _ _ _ _ R) as E1; rewrite (sr_slab _ _ _ _ _ R') in E1; by injection E1). done.
  - apply keeps_words; [apply Hsm..|done].
  - apply Hsm.
  - by apply (live_give h lent V W h1 sa a b i (sm_allocators _ _ Hsm)).
Qed.

(** C11: on a well-formed state [slab_obj_alloc] returns.  An object it gives out was not
    live, its memory does not meet that of any live object, and it is the only new one;
    it fails only when no slab of the allocator has a free object and the page allocator
    has no block.  The contents of the live objects are unchanged. *)
Theorem slab_obj_alloc_spec h lent V sa a : wf h lent V -> allocators h !! sa = Some a ->
  runs (slab_obj_alloc sa) h (fun r h' => exists lent' V', wf h' lent' V' /\ keeps h V h' /\
    match r with
    | Some o => PAGE_SIZE <= o
        /\ (forall sa' a' o' x, allocators h !! sa' = Some a' -> live h V sa' o' -> inside a' o' x -> ~ inside a o x)
        /\ (forall sa' o', live h' V' sa' o' <-> live h V sa' o' \/ (sa' = sa /\ o' = o))
    | None => (forall b, b ∈ chain V sa -> free V b = []) /\ (exists p', pg_alloc (npages a) (pages h) = Done None p')
        /\ (forall sa' o', live h' V' sa' o' <-> live h V sa' o')
    end).
Proof.
  intros W Hsa. eapply runs_mono; [by apply (run_obj_alloc h lent V sa a)|].
  intros [o|] h' (lent' & V' & W' & K & Hr); exists lent', V'; split_and!; try done; try apply Hr.
  destruct Hr as (Hnew & Hnn & L). intros sa' a' o' x Ha' Ho' Hx Hx'.
  destruct (alike_Some _ _ _ _ (kp_alloc _ _ _ K) Hsa) as [p Hp]. destruct (alike_Some _ _ _ _ (kp_alloc _ _ _ K) Ha') as [p' Hp'].
  destruct (live_apart h' lent' V' W' sa' _ o' sa _ o x Hp' Hp) as [-> ->]; try done; apply L; [by left|by right].
Qed.

(** C12: freeing a live object returns; that object and no other stops being live, and the
    contents of the live objects are unchanged. *)
Theorem slab_obj_free_spec h lent V sa o : wf h lent V -> live h V sa o ->
  runs (slab_obj_free sa o) h (fun _ h' => exists V', wf h' lent V' /\ keeps h V h'
    /\ forall sa' o', live h' V' sa' o' <-> live h V sa' o' /\ ~ (sa' = sa /\ o' = o)).
Proof.
  intros W Ho. eapply runs_mono; [by apply (run_obj_free h lent V sa o)|]. intros [] h' (V' & W' & K & _ & L). by exists V'.
Qed.

(** freeing an object that is free already is caught. *)
Theorem slab_double_free h lent V sa a b i : wf h lent V -> allocators h !! sa = Some a -> b ∈ chain V sa -> i ∈ free V b ->
  slab_obj_free sa (obj_at a b i + sizeof_word) h = Panic.
Proof.
  intros W Hsa Hb Hi. pose proof (wf_geom _ _ _ W sa a Hsa) as Ha. pose proof (chain_space _ _ _ W sa a b Hsa Hb) as Hs.
  destruct (chain_rep _ _ _ W sa a b Hsa Hb) as [nx R]. pose proof (sr_range _ _ _ _ _ R i Hi) as Hr.
  assert (Hc : exists l, bufctls h !! ctl_at a b i = Some (mk_bufctl l true)).
  { pose proof (sr_chain _ _ _ _ _ R) as Hc. clear -Hc Hi. induction (free V b) as [|j f IH]; [by apply not_elem_of_nil in Hi|].
    destruct Hc as [Hj Hc]. apply elem_of_cons in Hi as [->|Hi]; [by eexists|by apply IH]. }
  destruct Hc as [l Hc]. unfold slab_obj_free.
  rewrite (kbind_done _ _ h a h) by (unfold get_allocator; kpure; by rewrite Hsa). rewrite at_back by done.
  destruct (run_verify h a b (free V b) nx i (fun _ h' => h' = h) Ha Hs R Hr eq_refl) as ([] & ? & E & ->).
  rewrite (kbind_done _ _ h tt h E), at_bufctl by done.
  rewrite (kbind_done _ _ h (mk_bufctl l true) h) by (unfold get_bufctl; kpure; by rewrite Hc). done.
Qed.

(** C13: [slab_allocators_reclaim] returns the number of pages it gave back.  It takes
    nothing but slabs without live objects, and all of them when the target is not
    positive; live objects and their contents are unchanged. *)
Theorem slab_reclaim_spec h lent V target : wf h lent V ->
  runs (slab_allocators_reclaim target) h (fun r h' => exists lent' V', wf h' lent' V' /\ keeps h V h' /\ lent' ⊆ lent
    /\ r = s32 (lent_pages lent - lent_pages lent')
    /\ (forall sa o, live h' V' sa o <-> live h V sa o)
    /\ (0 < target <= r \/ forall sa b, b ∈ chain V' sa -> exists o, live h' V' sa o)).
Proof.
  intros W. eapply runs_mono; [by apply (run_reclaim h lent V target)|]. intros r h' (lent' & V' & W' & S & Er & Hor).
  exists lent', V'. split_and!; try done; [by eapply keeps_shrunk|apply S|intros; by eapply shrunk_live|].
  destruct Hor as [Ht|Ho]; [by left|right]. intros sa b Hb. destruct (chain_alloc _ _ _ W' sa b Hb) as [a' Ha'].
  destruct (alike_Some _ _ _ _ (alike_sym _ _ (sk_alloc _ _ _ _ _ _ S)) Ha') as [p Hp].
  specialize (Ho sa _ b Hp Hb). destruct (chain_rep _ _ _ W' sa a' b Ha' Hb) as [nx R]. pose proof (wf_geom _ _ _ W' sa a' Ha') as Ha.
  pose proof (free_length _ _ _ _ _ Ha R). assert (Hlt : (length (free V' b) < length (objects a'))%nat).
  { unfold objects, empty_slab in *. rewrite length_seqZ. rewrite (sk_free _ _ _ _ _ _ S) in *. simpl in Ho. lia. }
  destruct (decide (Exists (fun i => i ∉ free V' b) (objects a'))) as [(i & Hi & Hf)%Exists_exists|Hn].
  - apply elem_of_seqZ in Hi. exists (obj_at a' b i + sizeof_word), a', b, i. split_and!; try done; lia.
  - assert (Hsub : objects a' ⊆+ free V' b); [|apply submseteq_length in Hsub; lia].
    apply NoDup_submseteq; [apply NoDup_seqZ|]. intros i Hi. destruct (decide (i ∈ free V' b)) as [|Hx]; [done|].
    destruct Hn. apply Exists_exists. by exists i.
Qed.

End objects.

End SlabSpec.
