(* ===== verification/Kmalloc.v ===== *)
(** * Creating allocators, [kmalloc] and [kfree]

    The sizes [_calc_slab_size] chooses, allocators as objects of the first allocator,
    the state [slab_init] leaves, and allocation by powers of two on top of it. *)

From stdpp Require Import functions.
From S2P Require Import Prelude.
From S2P Require Export SlabSpec.

Module Kmalloc.
Export SlabSpec.

Local Open Scope Z_scope.
Local Open Scope kernel_scope.

(** ** The size of a slab *)

Definition block_bytes (o : Z) : Z := PAGE_SIZE * 2 ^ o.
(** One object and its overhead fit in a block of order [o]. *)
Definition fits (size o : Z) : Prop := size + sizeof_bufctl + sizeof_slab <= block_bytes o.
(** What is left of a block filled with objects *)
Definition unused (size o : Z) : Z := (block_bytes o - sizeof_slab) mod (size + sizeof_bufctl).

Lemma block_range o : 0 <= o < PAGE_NSIZES -> PAGE_SIZE <= block_bytes o <= 2 ^ 19.
Proof.
  unfold block_bytes, PAGE_NSIZES, PAGE_SIZE. intros Ho. pose proof (Z.pow_le_mono_r 2 0 o). pose proof (Z.pow_le_mono_r 2 o 7). lia.
Qed.
Lemma shiftl_block o : 0 <= o -> Z.shiftl PAGE_SIZE o = block_bytes o.
Proof. intros Ho. by rewrite Z.shiftl_mul_pow2. Qed.
Lemma block_mono o o' : 0 <= o <= o' -> block_bytes o <= block_bytes o'.
Proof. unfold block_bytes, PAGE_SIZE. intros Ho. pose proof (Z.pow_le_mono_r 2 o o'). lia. Qed.

Lemma nobjs_eq size o : 0 <= size < 2 ^ 31 -> 0 <= o < PAGE_NSIZES ->
  slab_nobjs size o = (block_bytes o - sizeof_slab) / (size + sizeof_bufctl).
Proof.
  intros Hs Ho. pose proof (block_range o Ho). unfold slab_nobjs, sizeof_slab, sizeof_bufctl, PAGE_SIZE in *.
  rewrite shiftl_block, !u32_small by lia. apply s32_small.
  pose proof (Z.div_pos (block_bytes o - 16) (size + 8)). pose proof (Z.div_le_upper_bound (block_bytes o - 16) (size + 8) (2 ^ 19)). nia.
Qed.

Lemma waste_eq size o : 0 <= size < 2 ^ 31 -> 0 <= o < PAGE_NSIZES -> slab_waste size o = unused size o.
Proof.
  intros Hs Ho. pose proof (block_range o Ho) as Hb. unfold slab_waste, slab_size, unused.
  rewrite nobjs_eq, shiftl_block, Zmod_eq_full by (unfold sizeof_bufctl in *; lia).
  set (q := _ / _). assert (Hq : 0 <= q <= 2 ^ 19 /\ q * (size + sizeof_bufctl) <= block_bytes o - sizeof_slab).
  { unfold q, sizeof_bufctl, sizeof_slab, PAGE_SIZE in *. pose proof (Z.div_pos (block_bytes o - 16) (size + 8)).
    pose proof (Z.mul_div_le (block_bytes o - 16) (size + 8)). nia. }
  unfold sizeof_bufctl, sizeof_slab, PAGE_SIZE in *. rewrite (u32_small q), u32_small, s32_small; nia.
Qed.

Lemma minorder_loop_spec minsize n : forall k, 0 <= k -> k + Z.of_nat n = PAGE_NSIZES ->
  let m := minorder_loop n k minsize in
  k <= m <= PAGE_NSIZES /\ (m < PAGE_NSIZES -> minsize <= block_bytes m) /\ (forall o, k <= o < m -> block_bytes o < minsize).
Proof.
  induction n as [|n IH]; intros k Hk Hn; simpl; [split_and!; intros; lia|].
  assert (Ho : 0 <= k < PAGE_NSIZES) by lia. pose proof (block_range k Ho).
  rewrite shiftl_block, s32_small by (unfold PAGE_SIZE in *; lia). destruct (Z.geb_spec (block_bytes k) minsize) as [Hle|Hlt].
  - split_and!; [lia..|done|intros; lia].
  - destruct (IH (k + 1) ltac:(lia) ltac:(lia)) as (H1 & H2 & H3). split_and!; [lia..|done|].
    intros o Hok. destruct (decide (o = k)) as [->|]; [lia|]. apply H3. lia.
Qed.

(** The best order among those from [m] on looked at so far *)
Definition best (size m upto o : Z) : Prop :=
  m <= o < upto /\ forall o', m <= o' < upto -> unused size o <= unused size o' /\ (o' < o -> unused size o < unused size o').

Lemma best_loop_spec size m n : forall order bo, 0 <= size < 2 ^ 31 -> 0 <= m -> order + Z.of_nat n <= PAGE_NSIZES -> best size m order bo ->
  best size m (order + Z.of_nat n) (best_loop n size order bo (slab_waste size bo)).
Proof.
  induction n as [|n IH]; intros order bo Hs Hm Hn Hb; [by rewrite Z.add_0_r|]. cbn [best_loop].
  destruct Hb as [Hr Hb]. replace (order + Z.of_nat (S n)) with (order + 1 + Z.of_nat n) by lia.
  rewrite (waste_eq size order), (waste_eq size bo) by lia.
  destruct (Z.ltb_spec (unused size order) (unused size bo)) as [Hlt|Hge].
  - rewrite <- (waste_eq size order) by lia. apply IH; [lia..|]. split; [lia|]. intros o' Ho'.
    destruct (decide (o' = order)) as [->|Hne]; [lia|]. destruct (Hb o' ltac:(lia)). lia.
  - rewrite <- (waste_eq size bo) by lia. apply IH; [lia..|]. split; [lia|]. intros o' Ho'.
    destruct (decide (o' = order)) as [->|Hne]; [lia|]. destruct (Hb o' ltac:(lia)). lia.
Qed.

(** The order an allocator of objects of [size] bytes gets *)
Definition order_for (size o : Z) : Prop :=
  0 <= o < PAGE_NSIZES /\ fits size o
  /\ (forall o', 0 <= o' < SLAB_MAX_ORDER -> fits size o' -> unused size o <= unused size o' /\ (o' < o -> unused size o < unused size o')).

Section create.
Context {P : Type} `{PageSource P}.
Implicit Types (h : mem P) (a : slab_allocator).

Lemma run_calc h sa a : allocators h !! sa = Some a -> 2 * sizeof_word <= sa_objsize a -> fits (sa_objsize a) (PAGE_NSIZES - 1) ->
  runs (calc_slab_size sa) h (fun _ h' => exists o, order_for (sa_objsize a) o /\
    h' = set_allocators (insert sa (mk_allocator (sa_next a) (sa_name a) (sa_objsize a) (sa_slabs a) o (slab_nobjs (sa_objsize a) o))) h).
Proof.
  intros Hsa Hs Hf. unfold calc_slab_size. apply runs_bind. unfold get_allocator at 1. go.
  set (size := sa_objsize a) in *. assert (Hsz : size + 24 <= 2 ^ 19) by (unfold fits, block_bytes, sizeof_bufctl, sizeof_slab, PAGE_SIZE, PAGE_NSIZES in Hf; lia).
  assert (Hsz0 : 8 <= size) by (unfold sizeof_word in *; lia).
  assert (E1 : s32 (slab_size size 1) = size + 24).
  { unfold slab_size, sizeof_bufctl, sizeof_slab. rewrite u32_small, s32_small by lia. lia. }
  rewrite E1. destruct (minorder_loop_spec (size + 24) (Z.to_nat PAGE_NSIZES) 0 ltac:(lia) ltac:(done)) as (Hm1 & Hm2 & Hm3).
  set (m := minorder_loop _ _ _) in *. destruct (Z.eqb_spec m PAGE_NSIZES) as [Em|Hne].
  { specialize (Hm3 (PAGE_NSIZES - 1) ltac:(unfold PAGE_NSIZES in *; lia)). unfold fits, sizeof_bufctl, sizeof_slab in Hf. lia. }
  unfold sizeof_bufctl. rewrite u32_small by lia. apply runs_bind. apply runs_assert; [destruct (Z.eqb_spec (size + 8) 0); [lia|done]|].
  set (o := best_loop _ _ _ _ _). assert (Ho : order_for size o).
  { assert (Hb : best size m (m + 1 + Z.of_nat (Z.to_nat (SLAB_MAX_ORDER - (m + 1)))) o).
    { apply best_loop_spec; [lia|lia| |]; [unfold PAGE_NSIZES, SLAB_MAX_ORDER in *; lia|]. split; [lia|]. intros o' Ho'.
      assert (o' = m) as -> by lia. lia. }
    destruct Hb as [Hr Hb]. assert (Hlt : m < PAGE_NSIZES) by lia. split_and!.
    - lia.
    - unfold PAGE_NSIZES, SLAB_MAX_ORDER in *. lia.
    - unfold fits, sizeof_bufctl, sizeof_slab. pose proof (block_mono m o). specialize (Hm2 Hlt). lia.
    - intros o' Ho' Hfo. assert (m <= o').
      { destruct (decide (m <= o')) as [|Hnle]; [done|]. specialize (Hm3 o' ltac:(lia)). unfold fits, sizeof_bufctl, sizeof_slab in Hfo. lia. }
      apply Hb. lia. }
  unfold upd_allocator, get_allocator. go. exists o. split; [done|]. unfold set_allocators. f_equal.
  apply map_eq. intros x. destruct (decide (x = sa)) as [->|]; simplify_map_eq; done.
Qed.

Lemma geom_chosen a size o nx nm sl : 2 * sizeof_word <= size -> order_for size o -> a = mk_allocator nx nm size sl o (slab_nobjs size o) -> geom a.
Proof.
  intros Hs (Ho & Hf & _) ->. pose proof (block_range o Ho). unfold fits, sizeof_word in *.
  assert (Hn : slab_nobjs size o = (block_bytes o - sizeof_slab) / (size + sizeof_bufctl)) by (apply nobjs_eq; unfold sizeof_bufctl, sizeof_slab in *; lia).
  unfold sizeof_bufctl, sizeof_slab in *. split; simpl; try done; rewrite ?Hn.
  - apply Z.div_le_lower_bound; lia.
  - unfold stride, npages, sizeof_bufctl, sizeof_slab. simpl. fold (block_bytes o).
    pose proof (Z.mul_div_le (block_bytes o - 16) (size + 8)). unfold block_bytes in *. lia.
Qed.

(** [_calc_slab_size] chooses a block in which at least one object fits, filled with
    as many objects as fit, and among the orders below [SLAB_MAX_ORDER] in which an object
    fits none wastes less, and no smaller one wastes as little.  It panics if an object
    does not fit in the largest block. *)
Theorem calc_slab_size_spec h sa a : allocators h !! sa = Some a -> 2 * sizeof_word <= sa_objsize a < 2 ^ 31 - 24 ->
  let size := sa_objsize a in
  (fits size (PAGE_NSIZES - 1) ->
     runs (calc_slab_size sa) h (fun _ h' => exists o n a', order_for size o /\ geom a'
       /\ block_bytes o < (n + 1) * (size + sizeof_bufctl) + sizeof_slab
       /\ a' = mk_allocator (sa_next a) (sa_name a) size (sa_slabs a) o n /\ h' = set_allocators (insert sa a') h))
  /\ (~ fits size (PAGE_NSIZES - 1) -> calc_slab_size sa h = Panic).
Proof.
  intros Hsa Hs size. split.
  - intros Hf. eapply runs_mono; [apply (run_calc h sa a Hsa); [apply Hs|done]|]. intros [] h' (o & Ho & ->).
    exists o, (slab_nobjs size o), (mk_allocator (sa_next a) (sa_name a) size (sa_slabs a) o (slab_nobjs size o)).
    split_and!; try done; [eapply geom_chosen; [apply Hs|done..]|]. destruct Ho as (Ho & Hfo & _). rewrite nobjs_eq by (unfold size in *; unfold sizeof_word in *; lia).
    unfold sizeof_bufctl, sizeof_word in *. assert (Hp : 0 < size + 8) by (unfold size; lia).
    pose proof (Z.mul_succ_div_gt (block_bytes o - sizeof_slab) (size + 8) Hp). lia.
  - intros Hf. unfold calc_slab_size. rewrite (kbind_done _ _ h a h) by (unfold get_allocator; kpure; by rewrite Hsa). fold size.
    assert (E1 : s32 (slab_size size 1) = size + 24).
    { unfold slab_size, sizeof_bufctl, sizeof_slab, size, sizeof_word in *. rewrite u32_small, s32_small by lia. lia. }
    rewrite E1. destruct (minorder_loop_spec (size + 24) (Z.to_nat PAGE_NSIZES) 0 ltac:(lia) ltac:(done)) as (Hm1 & Hm2 & Hm3).
    set (m := minorder_loop _ _ _) in *. destruct (Z.eqb_spec m PAGE_NSIZES) as [Em|Hne]; [done|]. destruct Hf.
    unfold fits, sizeof_bufctl, sizeof_slab. pose proof (block_mono m (PAGE_NSIZES - 1)). specialize (Hm2 ltac:(lia)). lia.
Qed.

End create.

(** ** Allocators *)

Section allocators.
Context {P : Type} `{PageLaws P}.
Implicit Types (h : mem P) (a : slab_allocator) (V : view).

Definition push_alloc (sa : Z) V : view := mk_view (chain V) (free V) (sa :: alist V).

(** What [_allocator_init] leaves alone *)
Record same_cells h h' : Prop := {
  sc_cells : forall x, cell h' x = cell h x;
  sc_kmalloc : kmalloc_allocators h' = kmalloc_allocators h;
  sc_pages : pages h' = pages h
}.

Lemma wf_push h h' lent V sa a : wf h lent V -> sa <> NULL -> allocators h !! sa = None -> geom a -> sa_slabs a = NULL ->
  sa_next a = slab_allocators h -> allocators h' = <[sa := a]> (allocators h) -> slab_allocators h' = sa -> same_cells h h' ->
  wf h' lent (push_alloc sa V).
Proof.
  intros W Hnn Hno Ha Hs Hx E1 E2 [E3 E4 E5]. pose proof (wf_idle _ _ _ W sa Hno) as Hc.
  destruct W as [W1 W2 W3 W4 W5 W6 W7 W8 W9 W10 W11 W12 W13].
  assert (Hlk : forall sa', sa' <> sa -> allocators h' !! sa' = allocators h !! sa') by (intros; by rewrite E1, lookup_insert_ne).
  assert (Hlk' : allocators h' !! sa = Some a) by (by rewrite E1, lookup_insert_eq).
  assert (Hal : sa ∉ alist V) by (rewrite W13, Hno; by intros [? ?]).
  split; simpl; try done.
  - by rewrite E5.
  - intros sa' a'. destruct (decide (sa' = sa)) as [->|Hne]; [rewrite Hlk'; by intros [= <-]|rewrite Hlk by done; by apply W2].
  - intros sa' a'. destruct (decide (sa' = sa)) as [->|Hne]; [rewrite Hlk', Hc; by intros [= <-]|rewrite Hlk by done; by apply W3].
  - intros sa' a'. destruct (decide (sa' = sa)) as [->|Hne]; [by rewrite Hc|rewrite Hlk by done]. intros Ha'.
    apply (lseg_same h _ _ (free V)); [|by apply W4]. intros b nx _. apply slab_rep_agree; [by eapply W2|]. intros x _. apply E3.
  - intros sa'. destruct (decide (sa' = sa)) as [->|Hne]; [done|rewrite Hlk by done; by apply W5].
  - intros sa' a' b. destruct (decide (sa' = sa)) as [->|Hne]; [rewrite Hc; set_solver|rewrite Hlk by done; by apply W8].
  - split; [exists a; by rewrite Hx|]. clear -W10 Hlk Hal. induction (alist V) as [|x l IH]; simpl in *; [done|].
    rewrite Hlk by set_solver. split; [apply W10|]. apply IH; [apply W10|set_solver].
  - by constructor.
  - set_solver.
  - intros sa'. destruct (decide (sa' = sa)) as [->|Hne]; [rewrite Hlk'; set_solver|]. rewrite Hlk, <- W13 by done. set_solver.
Qed.

Lemma run_allocator_init h lent V sa name size : wf h lent V -> sa <> NULL -> allocators h !! sa = None ->
  0 <= size -> fits (size + 2 * sizeof_word) (PAGE_NSIZES - 1) ->
  runs (allocator_init sa name size) h (fun _ h' => wf h' lent (push_alloc sa V) /\ same_cells h h'
    /\ exists a o, allocators h' = <[sa := a]> (allocators h) /\ sa_objsize a = size + 2 * sizeof_word /\ order_for (sa_objsize a) o
      /\ sa_order a = o /\ sa_slab_nobjs a = slab_nobjs (sa_objsize a) o).
Proof.
  intros W Hnn Hno Hs Hf. unfold allocator_init.
  assert (Es : u32 (size + 2 * sizeof_word) = size + 2 * sizeof_word).
  { apply u32_small. unfold fits, block_bytes, sizeof_bufctl, sizeof_slab, sizeof_word, PAGE_SIZE, PAGE_NSIZES in *. lia. }
  rewrite Es. go. set (a0 := mk_allocator _ _ _ _ _ _).
  eapply runs_mono; [apply (run_calc _ sa a0); [simpl; by rewrite lookup_insert_eq|unfold a0; simpl; unfold sizeof_word; lia|done]|].
  intros [] h1 (o & Ho & ->). go. eapply runs_upd_allocator; [simpl; by rewrite lookup_insert_eq|]. go. cbn [sa_next sa_name sa_objsize sa_slabs sa_order sa_slab_nobjs].
  set (a := mk_allocator _ _ _ _ _ _). set (h' := set_head _ _).
  assert (E : allocators h' = <[sa := a]> (allocators h)) by (unfold h'; simpl; by rewrite !insert_insert_eq).
  split_and!.
  - apply (wf_push h h' lent V sa a); try done. eapply (geom_chosen a (sa_objsize a) o); [unfold a, a0; simpl; unfold sizeof_word; lia|done..].
  - done.
  - by exists a, o.
Qed.

(** Allocators other than the first are live objects of the first. *)
Record sinv h (lent : gmap Z Z) V : Prop := {
  sv_wf : wf h lent V;
  sv_static : is_Some (allocators h !! slab_allocator_allocator);
  sv_spawned : forall sa, is_Some (allocators h !! sa) -> sa = slab_allocator_allocator \/ live h V slab_allocator_allocator sa
}.

(** The allocators of [h] are still there. *)
Definition extends h h' : Prop := forall sa a, allocators h !! sa = Some a -> exists p, allocators h' !! sa = Some (with_slabs p a).

Lemma extends_trans h1 h2 h3 : extends h1 h2 -> extends h2 h3 -> extends h1 h3.
Proof. intros E1 E2 sa a (p & Hp)%E1. apply E2 in Hp as [q Hq]. by exists q. Qed.
Lemma extends_alike h h' : alike (allocators h) (allocators h') -> extends h h'.
Proof. intros E sa a Hsa. by eapply alike_Some. Qed.

Lemma live_push h h' V sa a : (forall sa', sa' <> sa -> allocators h' !! sa' = allocators h !! sa') -> allocators h !! sa = None ->
  allocators h' !! sa = Some a -> chain V sa = [] -> forall sa' o, live h' (push_alloc sa V) sa' o <-> live h V sa' o.
Proof.
  intros E Hno Hsa Hc sa' o. unfold live. simpl. destruct (decide (sa' = sa)) as [->|Hne]; [|by rewrite E].
  rewrite Hc. split; intros (a' & b & i & _ & Hb & _); by apply not_elem_of_nil in Hb.
Qed.

Lemma sinv_kept h lent V h' lent' V' : sinv h lent V -> wf h' lent' V' -> keeps h V h' ->
  (forall sa o, live h V sa o -> live h' V' sa o) -> sinv h' lent' V'.
Proof.
  intros [W [a Hst] Hsp] W' [K1 _ _] Hl. split; [done| |].
  - destruct (alike_Some _ _ _ _ K1 Hst) as [p Hp]. by eexists.
  - intros sa [a' Ha']. destruct (alike_Some _ _ _ _ (alike_sym _ _ K1) Ha') as [p Hp].
    destruct (Hsp sa) as [->|Ho]; [by eexists|by left|right; by apply Hl].
Qed.

(** A live object of the first allocator becomes an allocator. *)
Lemma run_spawn h lent V c name size : sinv h lent V -> live h V slab_allocator_allocator c -> allocators h !! c = None -> PAGE_SIZE <= c ->
  0 <= size -> fits (size + 2 * sizeof_word) (PAGE_NSIZES - 1) ->
  runs (allocator_init c name size) h (fun _ h' => sinv h' lent (push_alloc c V) /\ same_cells h h' /\ extends h h'
    /\ (forall sa o, live h' (push_alloc c V) sa o <-> live h V sa o)
    /\ exists a, allocators h' = <[c := a]> (allocators h) /\ sa_objsize a = size + 2 * sizeof_word).
Proof.
  intros [W [a8 Hst] Hsp] Ho Hno Hc Hs Hf. assert (Hnn : c <> NULL) by (unfold NULL, PAGE_SIZE in *; lia).
  eapply runs_mono; [by apply (run_allocator_init h lent V c name size)|]. intros [] h' (W' & Sc & a & o & E & Es & _).
  assert (Hne : forall sa', sa' <> c -> allocators h' !! sa' = allocators h !! sa') by (intros; by rewrite E, lookup_insert_ne).
  assert (L : forall sa o, live h' (push_alloc c V) sa o <-> live h V sa o).
  { apply (live_push h h' V c a); [done..|by rewrite E, lookup_insert_eq|]. by eapply wf_idle. }
  assert (H8 : slab_allocator_allocator <> c) by (unfold slab_allocator_allocator, PAGE_SIZE in *; lia).
  split_and!; try done; [split; [done| |]| |by exists a].
  - exists a8. by rewrite Hne.
  - intros sa' Hsa'. destruct (decide (sa' = c)) as [->|Hd]; [right; by apply L|].
    rewrite Hne in Hsa' by done. destruct (Hsp sa' Hsa') as [->|Hl]; [by left|right; by apply L].
  - intros sa' a' Ha'. rewrite Hne by (intros ->; congruence). exists (sa_slabs a'). by rewrite with_slabs_id.
Qed.

(** [slab_allocator_create] returns a fresh allocator of the size asked for, or fails
    when there is no memory; the other allocators, the live objects and their contents stay. *)
Theorem slab_allocator_create_spec h lent V name size : sinv h lent V -> 0 <= size -> fits (size + 2 * sizeof_word) (PAGE_NSIZES - 1) ->
  runs (slab_allocator_create name size) h (fun r h' => exists lent' V', sinv h' lent' V' /\ extends h h'
    /\ (forall sa a o x, allocators h !! sa = Some a -> live h V sa o -> inside a o x -> words h' !! x = words h !! x)
    /\ match r with
       | Some c => allocators h !! c = None
           /\ (exists a, allocators h' !! c = Some a /\ sa_objsize a = size + 2 * sizeof_word /\ forall o, ~ live h' V' c o)
           /\ (forall sa o, live h' V' sa o <-> live h V sa o \/ (sa = slab_allocator_allocator /\ o = c))
       | None => forall sa o, live h' V' sa o <-> live h V sa o
       end).
Proof.
  intros I Hs Hf. pose proof I as [W [a8 H8] Hsp]. unfold slab_allocator_create.
  eapply runs_step; [by apply (run_obj_alloc h lent V slab_allocator_allocator a8)|].
  intros [c|] h1 (lent1 & V1 & W1 & K & Hr).
  - destruct Hr as (Hnew & Hc & L). assert (I1 : sinv h1 lent1 V1) by (apply (sinv_kept h lent V); [done..|]; intros sa o Ho; apply L; by left).
    assert (Hno : allocators h !! c = None).
    { destruct (allocators h !! c) as [a'|] eqn:E; [|done]. destruct (Hsp c ltac:(by eexists)) as [Ec|Ho]; [|done].
      unfold slab_allocator_allocator, PAGE_SIZE in *. lia. }
    assert (Hno1 : allocators h1 !! c = None).
    { destruct (allocators h1 !! c) as [a'|] eqn:E; [|done]. destruct (alike_Some _ _ _ _ (alike_sym _ _ (kp_alloc _ _ _ K)) E). congruence. }
    apply runs_bind. eapply runs_mono; [apply (run_spawn h1 lent1 V1 c name size); try done; apply L; by right|].
    intros [] h2 (I2 & Sc & Ex & L2 & a & Ea & Es). go. exists lent1, (push_alloc c V1). split_and!; try done.
    + eapply extends_trans; [|done]. by apply extends_alike, K.
    + intros sa a' o x Hsa Ho Hx. rewrite (cell_words h1 h2) by apply Sc. by apply (kp_words _ _ _ K sa a' o x).
    + exists a. split_and!; [by rewrite Ea, lookup_insert_eq|done|]. intros o (? & b & ? & _ & Hb & _)%L2.
      rewrite (wf_idle _ _ _ W1 c Hno1) in Hb. by apply not_elem_of_nil in Hb.
    + intros sa o. by rewrite L2, L.
  - go. destruct Hr as (_ & _ & L). exists lent1, V1. split_and!; try done.
    + apply (sinv_kept h lent V); [done..|]. intros sa o. apply L.
    + by apply extends_alike, K.
    + apply K.
Qed.

End allocators.

(** ** [kmalloc] and [kfree] *)

Section kmalloc.
Context {P : Type} `{PageLaws P}.
Implicit Types (h : mem P) (a : slab_allocator) (V : view).

(** A write into a live object, away from its red zones *)
Lemma wf_write h lent V sa a o x v : wf h lent V -> allocators h !! sa = Some a -> live h V sa o -> inside a o x ->
  let h' := set_words (insert x v) h in wf h' lent V /\ forall sa' o', live h' V sa' o' <-> live h V sa' o'.
Proof.
  intros W Hsa Ho Hx h'. split; [|done]. pose proof (wf_geom _ _ _ W sa a Hsa) as Ha. pose proof (g_size a Ha).
  destruct (live_cell h lent V W sa a o x Hsa Ho Hx) as (b & i & Hb & Hi & _ & Eo & Ex & Hd & Hin). unfold inside, sizeof_word in *.
  pose proof (wf_touch h lent V W h' sa a b (free V) Hsa Hb) as T. destruct V as [ch fr al]. apply T; try done.
  - by apply local_words.
  - intros nx [R1 R2 R3 R4 R5 R6]. split; try done; [by apply (fchain_same h)|]. intros j Hj. destruct (R6 j Hj) as [Hz Hr]. unfold h'. simpl.
    rewrite !lookup_insert_ne; try done.
    + intros E. destruct (obj_offset_inj a b i j (x - obj_at a b i) (sa_objsize a - 4)) as [-> E']; unfold sizeof_word, stride, sizeof_bufctl, ctl_at in *; lia.
    + intros E. destruct (obj_offset_inj a b i j (x - obj_at a b i) 0) as [-> E']; unfold sizeof_word, stride, sizeof_bufctl in *; lia.
Qed.

(** The buckets of [kmalloc] *)
Definition bucket h (order c : Z) : Prop :=
  c <> slab_allocator_allocator /\ exists a, allocators h !! c = Some a /\ sa_objsize a = 2 ^ order + 2 * sizeof_word.

Record kinv h (lent : gmap Z Z) V : Prop := {
  kv_sinv : sinv h lent V;
  kv_length : Z.of_nat (length (kmalloc_allocators h)) = KMALLOC_SIZE_MAX_ORDER - KMALLOC_SIZE_MIN_ORDER + 1;
  kv_bucket : forall k c, kmalloc_allocators h !! k = Some c -> bucket h (KMALLOC_SIZE_MIN_ORDER + Z.of_nat k) c
}.

(** The pointers [kmalloc] has given out, with the number of bytes behind each *)
Definition owned h V (addr n : Z) : Prop :=
  exists c a, words h !! (addr - sizeof_word) = Some c /\ c ∈ kmalloc_allocators h /\ allocators h !! c = Some a
    /\ live h V c (addr - sizeof_word) /\ n = sa_objsize a - 3 * sizeof_word.

Lemma bucket_size h lent V c : kinv h lent V -> c ∈ kmalloc_allocators h -> exists a, allocators h !! c = Some a /\ 64 + 2 * sizeof_word <= sa_objsize a
  /\ c <> slab_allocator_allocator.
Proof.
  intros I (k & Hk)%list_elem_of_lookup. destruct (kv_bucket _ _ _ I k c Hk) as (Hne & a & Ha & E). exists a. split_and!; try done. rewrite E.
  pose proof (Z.pow_le_mono_r 2 6 (KMALLOC_SIZE_MIN_ORDER + Z.of_nat k)). unfold KMALLOC_SIZE_MIN_ORDER in *. lia.
Qed.

Lemma kinv_kept h lent V h' lent' V' : kinv h lent V -> sinv h' lent' V' -> alike (allocators h) (allocators h') ->
  kmalloc_allocators h' = kmalloc_allocators h -> kinv h' lent' V'.
Proof.
  intros [I Hl Hb] I' Ea Ek. split; [done|by rewrite Ek|]. rewrite Ek. intros k c Hk. destruct (Hb k c Hk) as (Hne & a & Ha & E).
  split; [done|]. destruct (alike_Some _ _ _ _ Ea Ha) as [p Hp]. by exists (with_slabs p a).
Qed.

(** The pointers that stay when the live objects and their contents stay *)
Lemma owned_kept h lent V h' V' x m : kinv h lent V -> keeps h V h' ->
  (forall sa o, live h V sa o -> live h' V' sa o) -> owned h V x m -> owned h' V' x m.
Proof.
  intros I [K1 K2 K3] Hl (c & a & Hw & Hc & Ha & Ho & ->). destruct (alike_Some _ _ _ _ K1 Ha) as [p Hp].
  destruct (bucket_size _ _ _ c I Hc) as (a' & Ha' & Hs & _). simplify_eq. exists c, (with_slabs p a). rewrite K2. split_and!; try done; [|by apply Hl].
  rewrite (K3 c a (x - sizeof_word)); try done. unfold inside, sizeof_word in *. lia.
Qed.

(** ... and those that are there when the live objects are those of before *)
Lemma owned_back h lent V h' lent' V' x m : kinv h lent V -> wf h lent V -> kinv h' lent' V' -> keeps h V h' ->
  (forall c, live h' V' c (x - sizeof_word) -> live h V c (x - sizeof_word)) -> owned h' V' x m -> owned h V x m.
Proof.
  intros I W I' [K1 K2 K3] Hl (c & a & Hw & Hc & Ha & Ho & ->). apply Hl in Ho. rewrite K2 in Hc.
  destruct (alike_Some _ _ _ _ (alike_sym _ _ K1) Ha) as [p Hp].
  destruct (bucket_size _ _ _ c I Hc) as (a' & Ha' & Hs & _). simplify_eq. exists c, (with_slabs p a). split_and!; try done.
  rewrite <- (K3 c (with_slabs p a) (x - sizeof_word)); try done. unfold inside, sizeof_word in *. lia.
Qed.

(** The bucket the loop of [kmalloc] stops at *)
Lemma kmalloc_loop_stops h size cs : forall order, 0 <= order -> 0 <= size -> order + Z.of_nat (length cs) <= 31 ->
  2 ^ (order - 1) < size \/ order = KMALLOC_SIZE_MIN_ORDER -> size <= 2 ^ (order + Z.of_nat (length cs) - 1) ->
  (0 < length cs)%nat ->
  exists k c, cs !! k = Some c /\ size <= 2 ^ (order + Z.of_nat k)
    /\ (2 ^ (order + Z.of_nat k - 1) < size \/ order + Z.of_nat k = KMALLOC_SIZE_MIN_ORDER)
    /\ kmalloc_loop cs order size h = (addr <- slab_obj_alloc c ;;
         match addr with None => kret None | Some addr => set_word addr c ;;; kret (Some (u32 (addr + sizeof_word))) end) h.
Proof.
  induction cs as [|c cs IH]; intros order Ho Hs Hl Hlow Hsz Hpos; [simpl in Hpos; lia|]. cbn [kmalloc_loop]. simpl length in *.
  assert (E : u32 (Z.shiftl 1 order) = 2 ^ order).
  { rewrite Z.shiftl_1_l. apply u32_small. pose proof (Z.pow_lt_mono_r 2 order 32). lia. }
  rewrite E. destruct (Z.leb_spec size (2 ^ order)) as [Hle|Hgt].
  - exists 0%nat, c. rewrite Z.add_0_r. done.
  - destruct cs as [|c' cs]; [exfalso; apply (Z.lt_irrefl (2 ^ order)); eapply Z.lt_le_trans; [exact Hgt|]; etransitivity; [exact Hsz|]; apply Z.pow_le_mono_r; simpl; lia|].
    destruct (IH (order + 1)) as (k & d & Hk & Hb & Hb' & Er); try lia.
    + left. by replace (order + 1 - 1) with order by lia.
    + replace (order + 1 + Z.of_nat (length (c' :: cs)) - 1) with (order + Z.of_nat (S (length (c' :: cs))) - 1) by lia. done.
    + simpl. lia.
    + exists (S k), d. replace (order + Z.of_nat (S k)) with (order + 1 + Z.of_nat k) by lia. done.
Qed.

(** Two pointers given out have nothing in common. *)
Lemma owned_apart h lent V x m x' m' y : wf h lent V -> owned h V x m -> owned h V x' m' ->
  x <= y < x + m -> x' <= y < x' + m' -> x = x'.
Proof.
  intros W (c & a & _ & _ & Ha & Ho & ->) (c' & a' & _ & _ & Ha' & Ho' & ->) Hy Hy'.
  destruct (live_apart h lent V W c a _ c' a' _ y Ha Ha' Ho Ho') as [_ E]; unfold inside, sizeof_word in *; lia.
Qed.

(** An object of a bucket is no allocator. *)
Lemma owned_plain h lent V c o : kinv h lent V -> c ∈ kmalloc_allocators h -> live h V c o -> allocators h !! o = None.
Proof.
  intros I Hc Ho. destruct (bucket_size _ _ _ c I Hc) as (a & Ha & Hs & Hne). destruct I as [[W [a8 H8] Hsp] _ _].
  destruct (allocators h !! o) as [a'|] eqn:E; [|done]. destruct (Hsp o ltac:(by eexists)) as [->|Hl].
  - destruct Ho as (a2 & b & i & Ha2 & Hb & Hi & _ & Eo). assert (a2 = a) as -> by congruence. pose proof (wf_geom _ _ _ W c a Ha) as G.
    destruct (obj_in_slab a G b i Hi). destruct (chain_space _ _ _ W c a b Ha Hb). unfold slab_allocator_allocator, sizeof_word, PAGE_SIZE in *. lia.
  - destruct Ho as (a2 & b & i & Ha2 & Hb & Hi & _ & Eo), Hl as (a3 & b' & i' & Ha3 & Hb' & Hi' & _ & Eo').
    assert (a2 = a) as -> by congruence. assert (a3 = a8) as -> by congruence.
    pose proof (g_size a (wf_geom _ _ _ W _ _ Ha)). pose proof (g_size a8 (wf_geom _ _ _ W _ _ H8)). unfold sizeof_word in *.
    destruct (obj_id h lent V W c a b i 0 slab_allocator_allocator a8 b' i' 0) as (? & _); try done; unfold stride, sizeof_bufctl; lia.
Qed.

Lemma live_bound h lent V sa a o : wf h lent V -> allocators h !! sa = Some a -> live h V sa o -> PAGE_SIZE <= o /\ o + sa_objsize a < 2 ^ 32.
Proof.
  intros W Ha (a' & b & i & Ha' & Hb & Hi & _ & ->). simplify_eq. pose proof (wf_geom _ _ _ W sa a Ha) as G.
  destruct (obj_in_slab a G b i Hi) as (? & ? & ?). destruct (chain_space _ _ _ W sa a b Ha Hb).
  unfold stride, sizeof_bufctl, sizeof_slab, sizeof_word, PAGE_SIZE in *. lia.
Qed.

(** Writing into an object that was not live before *)
Lemma keeps_write h V h1 lent1 V1 sa a o x v : wf h1 lent1 V1 -> keeps h V h1 -> (forall sa o, live h V sa o -> live h1 V1 sa o) ->
  allocators h1 !! sa = Some a -> live h1 V1 sa o -> ~ live h V sa o -> inside a o x -> keeps h V (set_words (insert x v) h1).
Proof.
  intros W [K1 K2 K3] Hl Ha Ho Hn Hx. split; [done..|]. intros sa' a' o' y Ha' Ho' Hy. simpl.
  rewrite lookup_insert_ne; [by apply (K3 sa' a' o' y)|]. intros <-. destruct (alike_Some _ _ _ _ K1 Ha') as [p Hp].
  destruct (live_apart h1 lent1 V1 W sa' _ o' sa a o x Hp Ha) as [-> ->]; try done. by apply Hl.
Qed.

Lemma runs_eq {S A} (m m' : kernel S A) s Q : m s = m' s -> runs m' s Q -> runs m s Q.
Proof. intros E (x & s' & E' & HQ). exists x, s'. by rewrite E. Qed.

(** There is no memory for an object of an allocator: its slabs have no free object and
    the page allocator has no block for another slab. *)
Definition exhausted h (V : view) (c : Z) (a : slab_allocator) : Prop :=
  (forall b, b ∈ chain V c -> free V b = []) /\ exists p', pg_alloc (npages a) (pages h) = Done None p'.

(** Allocation from the bucket of size [2 ^ (6 + k)] *)
Lemma run_kmalloc_from h lent V c a k : kinv h lent V -> kmalloc_allocators h !! k = Some c -> allocators h !! c = Some a ->
  sa_objsize a = 2 ^ (6 + Z.of_nat k) + 2 * sizeof_word ->
  runs (addr <- slab_obj_alloc c ;;
        match addr with None => kret None | Some addr => set_word addr c ;;; kret (Some (u32 (addr + sizeof_word))) end) h
    (fun r h' => exists lent' V', kinv h' lent' V' /\ keeps h V h' /\
      match r with
      | Some addr => let n := 2 ^ (6 + Z.of_nat k) - sizeof_word in
          (forall x m, owned h' V' x m <-> owned h V x m \/ (x = addr /\ m = n))
          /\ (forall x m y, owned h V x m -> x <= y < x + m -> ~ addr <= y < addr + n)
      | None => exhausted h V c a /\ forall x m, owned h' V' x m <-> owned h V x m
      end).
Proof.
  intros I Hk Ha Ea. assert (Hc : c ∈ kmalloc_allocators h) by (by eapply list_elem_of_lookup_2).
  pose proof (sv_wf _ _ _ (kv_sinv _ _ _ I)) as W. eapply runs_step; [by apply (run_obj_alloc h lent V c a)|].
  intros [o|] h1 (lent1 & V1 & W1 & K & Hr).
  2: { go. destruct Hr as (Hfull & Hpg & L). exists lent1, V1. assert (I1 : kinv h1 lent1 V1).
       { apply (kinv_kept h lent V); [done| |apply K..]. apply (sinv_kept h lent V); [apply I|done..|]. intros sa o. apply L. }
       split; [done|]. split; [done|]. split; [by split|]. intros x m. split; [apply (owned_back h lent V h1 lent1 V1); [done..|]; intros c'; apply L|].
       apply (owned_kept h lent V h1 V1); [done..|]. intros sa o. apply L. }
  destruct Hr as (Hn & Hpo & L). destruct (alike_Some _ _ _ _ (kp_alloc _ _ _ K) Ha) as [p Hp].
  assert (Ho : live h1 V1 c o) by (apply L; by right). assert (Hl : forall sa o, live h V sa o -> live h1 V1 sa o) by (intros; apply L; by left).
  destruct (bucket_size _ _ _ c I Hc) as (a' & Ha' & Hs & Hne). assert (a' = a) as -> by congruence.
  assert (Hin : inside (with_slabs p a) o o) by (unfold inside, sizeof_word in *; simpl; lia).
  destruct (live_bound h1 lent1 V1 c _ o W1 Hp Ho) as [_ Hbd]. simpl in Hbd. sgo. rewrite u32_small by (unfold sizeof_word, PAGE_SIZE in *; lia).
  destruct (wf_write h1 lent1 V1 c _ o o c W1 Hp Ho Hin) as [W2 L2]. pose proof (keeps_write h V h1 lent1 V1 c _ o o c W1 K Hl Hp Ho Hn Hin) as K2.
  set (h2 := set_words _ h1) in *. assert (I2 : kinv h2 lent1 V1).
  { apply (kinv_kept h lent V); [done| |apply K2..]. apply (sinv_kept h lent V); [apply I|done..|]. intros sa x Hx. by apply L2, Hl. }
  assert (Hnew : owned h2 V1 (o + sizeof_word) (2 ^ (6 + Z.of_nat k) - sizeof_word)).
  { exists c, (with_slabs p a). replace (o + sizeof_word - sizeof_word) with o by lia. split_and!; try done.
    - unfold h2. simpl. by rewrite lookup_insert_eq.
    - by rewrite (kp_kmalloc _ _ _ K2).
    - simpl. lia. }
  assert (Hold : forall x m, owned h V x m -> owned h2 V1 x m).
  { intros x m. apply (owned_kept h lent V h2 V1); [done..|]. intros sa y Hy. by apply L2, Hl. }
  assert (Hfresh : forall m, ~ owned h V (o + sizeof_word) m).
  { intros m (c' & a' & _ & Hc' & Ha2 & Hl' & _). replace (o + sizeof_word - sizeof_word) with o in Hl' by lia.
    destruct (alike_Some _ _ _ _ (kp_alloc _ _ _ K) Ha2) as [q Hq]. destruct (bucket_size _ _ _ c' I Hc') as (a3 & Ha3 & Hs3 & _).
    assert (a3 = a') as -> by congruence.
    destruct (live_apart h1 lent1 V1 W1 c' _ o c _ o o Hq Hp) as [-> _]; try done; [by apply Hl|unfold inside, sizeof_word in *; simpl; lia]. }
  exists lent1, V1. split_and!; try done.
  - intros x m. split; [|intros [Hx|[-> ->]]; [by apply Hold|done]]. intros Hx. destruct (decide (x = o + sizeof_word)) as [->|Hxo].
    + right. split; [done|]. destruct Hx as (c' & a2 & Hw & Hc' & Ha2 & _ & ->). replace (o + sizeof_word - sizeof_word) with o in Hw by lia.
      unfold h2 in Hw. simpl in Hw. rewrite lookup_insert_eq in Hw. assert (c' = c) as -> by congruence. assert (a2 = with_slabs p a) as -> by (unfold h2 in *; simpl in *; congruence).
      simpl. lia.
    + left. apply (owned_back h lent V h2 lent1 V1); [done..| |done]. intros c' Hl'%L2%L. destruct Hl' as [|[_ Ex]]; [done|lia].
  - intros x m y Hx Hy Hy'. assert (x = o + sizeof_word) as -> by (by eapply (owned_apart h2 lent1 V1 x m _ _ y); [apply I2|apply Hold|..]).
    by eapply Hfresh.
Qed.

(** C14: [kmalloc] of a size the largest bucket can hold takes from the smallest bucket
    that can hold it: less than twice the bytes asked for, counting the word in front,
    or the smallest bucket of all.  It returns a pointer to at least [size] bytes that
    meets none given out before, which all remain; it returns NULL only when that
    bucket has no free object and the page allocator has no block for another slab of
    it, and then what was given out is as before.  A size too large for the largest
    bucket is a panic.  Sizes from 2^32 - 4 on, where adding the word in front
    overflows, are excluded (see [kmalloc_overflow]). *)
Theorem kmalloc_spec h lent V size : kinv h lent V -> 0 <= size < 2 ^ 32 - sizeof_word ->
  (size + sizeof_word <= 2 ^ KMALLOC_SIZE_MAX_ORDER ->
   exists c a n, c ∈ kmalloc_allocators h /\ allocators h !! c = Some a /\ sa_objsize a = n + 3 * sizeof_word
     /\ size <= n /\ (n + sizeof_word < 2 * (size + sizeof_word) \/ n + sizeof_word = 2 ^ KMALLOC_SIZE_MIN_ORDER)
     /\ runs (kmalloc size) h (fun r h' => exists lent' V', kinv h' lent' V' /\ keeps h V h' /\
          match r with
          | Some addr => (forall x m, owned h' V' x m <-> owned h V x m \/ (x = addr /\ m = n))
              /\ (forall x m y, owned h V x m -> x <= y < x + m -> ~ addr <= y < addr + n)
          | None => exhausted h V c a /\ forall x m, owned h' V' x m <-> owned h V x m
          end))
  /\ (2 ^ KMALLOC_SIZE_MAX_ORDER < size + sizeof_word -> kmalloc size h = Panic).
Proof.
  intros I Hs. unfold kmalloc. rewrite (kbind_done kget _ h h h eq_refl), u32_small by (unfold sizeof_word in *; lia).
  pose proof (kv_length _ _ _ I) as Hlen. unfold KMALLOC_SIZE_MAX_ORDER, KMALLOC_SIZE_MIN_ORDER in *. split.
  2: { intros Hbig. clear I. enough (Hp : forall cs order, 0 <= order -> order + Z.of_nat (length cs) <= 19 -> kmalloc_loop cs order (size + sizeof_word) h = Panic) by (apply Hp; lia).
    induction cs as [|c cs IH]; intros order Ho Hc; [done|]. cbn [kmalloc_loop]. simpl in Hc.
    rewrite Z.shiftl_1_l. pose proof (Z.pow_le_mono_r 2 order 18). rewrite u32_small by (pose proof (Z.pow_nonneg 2 order); lia).
    destruct (Z.leb_spec (size + sizeof_word) (2 ^ order)); [lia|]. apply IH; lia. }
  intros Hfit. destruct (kmalloc_loop_stops h (size + sizeof_word) (kmalloc_allocators h) 6) as (k & c & Hk & Hb & Hb' & E);
    [unfold sizeof_word in *; lia..|by right|replace (6 + Z.of_nat (length (kmalloc_allocators h)) - 1) with 18 by lia; done|lia|].
  destruct (kv_bucket _ _ _ I k c Hk) as (Hne & a & Ha & Ea). unfold KMALLOC_SIZE_MIN_ORDER in Ea.
  exists c, a, (2 ^ (6 + Z.of_nat k) - sizeof_word). split_and!; [by eapply list_elem_of_lookup_2|done|lia|lia| |].
  - destruct Hb' as [Hb'|Hb']; [left|right; rewrite Hb'; unfold KMALLOC_SIZE_MIN_ORDER; lia].
    replace (6 + Z.of_nat k) with (Z.succ (6 + Z.of_nat k - 1)) by lia. rewrite Z.pow_succ_r by lia. lia.
  - apply (runs_eq _ _ _ _ E). by apply (run_kmalloc_from h lent V c a k).
Qed.

(** C15: [kfree] of a pointer [kmalloc] gave out returns; that pointer and no other is
    gone, and what is behind the others is unchanged. *)
Theorem kfree_spec h lent V addr n : kinv h lent V -> owned h V addr n ->
  runs (kfree addr) h (fun _ h' => exists V', kinv h' lent V'
    /\ (forall x m, owned h' V' x m <-> owned h V x m /\ x <> addr)
    /\ (forall x m y, owned h V x m -> x <> addr -> x <= y < x + m -> words h' !! y = words h !! y)).
Proof.
  intros I (c & a & Hw & Hc & Ha & Ho & ->). pose proof (sv_wf _ _ _ (kv_sinv _ _ _ I)) as W.
  destruct (live_bound h lent V c a _ W Ha Ho) as [Hb1 Hb2]. set (o := addr - sizeof_word) in *.
  destruct (bucket_size _ _ _ c I Hc) as (a' & Ha' & Hs & Hne). assert (a' = a) as -> by congruence.
  assert (Hin : inside a o o) by (unfold inside, sizeof_word in *; lia).
  unfold kfree. fold o. rewrite u32_small by (unfold PAGE_SIZE, sizeof_word in *; lia). go. eapply runs_get_word; [done|]. go.
  eapply runs_get_allocator; [done|]. sgo.
  destruct (wf_write h lent V c a o o MM_POISON_FREE_WORD W Ha Ho Hin) as [W1 L1]. set (h1 := set_words _ h) in *.
  eapply runs_mono; [apply (run_obj_free h1 lent V c o W1); by apply L1|]. intros [] h2 (V2 & W2 & K2 & Ea & L2).
  assert (Ew : forall sa x, live h V sa x -> ~ (sa = c /\ x = o) -> forall a' y, allocators h !! sa = Some a' -> inside a' x y -> words h2 !! y = words h !! y).
  { intros sa x Hx Hxo a' y Ha2 Hy. rewrite (kp_words _ _ _ K2 sa a' x y Ha2 Hx Hy). unfold h1. simpl. apply lookup_insert_ne.
    intros <-. apply Hxo. destruct (live_apart h lent V W sa a' x c a o o Ha2 Ha) as [-> ->]; done. }
  assert (I2 : sinv h2 lent V2).
  { destruct (kv_sinv _ _ _ I) as [_ [a8 H8] Hsp]. split; [done|exists a8; by rewrite Ea|]. intros sa Hsa. rewrite Ea in Hsa.
    destruct (Hsp sa Hsa) as [->|Hl]; [by left|right]. apply L2. split; [done|]. intros [_ ->].
    destruct Hsa as [a2 Ha2]. simpl in Ha2. by rewrite (owned_plain h lent V c o I Hc Ho) in Ha2. }
  exists V2. split_and!.
  - apply (kinv_kept h lent V); [done..|by rewrite Ea|]. apply K2.
  - intros x m. split.
    + intros (c' & a2 & Hw' & Hc' & Ha2 & Hl & ->). apply L2 in Hl as [Hl Hno]. rewrite (kp_kmalloc _ _ _ K2) in Hc'. rewrite Ea in Ha2.
      simpl in Hc', Ha2. destruct (bucket_size _ _ _ c' I Hc') as (a3 & Ha3 & Hs3 & _). assert (a3 = a2) as -> by congruence.
      assert (Hi : inside a2 (x - sizeof_word) (x - sizeof_word)) by (unfold inside, sizeof_word in *; lia).
      split.
      * exists c', a2. split_and!; try done. by rewrite <- (Ew c' (x - sizeof_word) Hl Hno a2).
      * intros ->. apply Hno. fold o in Hl. fold o in Hi. destruct (live_apart h lent V W c' a2 o c a o o Ha2 Ha) as [-> _]; done.
    + intros [(c' & a2 & Hw' & Hc' & Ha2 & Hl & ->) Hx]. exists c', a2.
      destruct (bucket_size _ _ _ c' I Hc') as (a3 & Ha3 & Hs3 & _). assert (a3 = a2) as -> by congruence.
      assert (Hno : ~ (c' = c /\ x - sizeof_word = o)) by (unfold o; lia).
      rewrite (Ew c' (x - sizeof_word) Hl Hno a2), (kp_kmalloc _ _ _ K2), Ea by (done || (unfold inside, sizeof_word in *; lia)).
      split_and!; try done. by apply L2.
  - intros x m y (c' & a2 & _ & Hc' & Ha2 & Hl & ->) Hx Hy. apply (Ew c' (x - sizeof_word) Hl ltac:(unfold o; lia) a2); [done|].
    unfold inside, sizeof_word in *. lia.
Qed.

End kmalloc.

(** ** [slab_init] *)

Section init.
Context {P : Type} `{PageLaws P}.
Implicit Types (h : mem P) (a : slab_allocator) (V : view).

(** The first allocator has one slab, with [n] free objects. *)
Definition stocked V (n : nat) : Prop := exists b, chain V slab_allocator_allocator = [b] /\ length (free V b) = n.

(** What follows the search when the slab found is the one of the first allocator *)
Lemma run_stocked_rest h lent V a b n : sinv h lent V -> allocators h !! slab_allocator_allocator = Some a ->
  chain V slab_allocator_allocator = [b] -> length (free V b) = S n ->
  runs (if slab_at a b =? NULL then kret None else al <- get_allocator slab_allocator_allocator ;; obj <- take_object al (slab_at a b) ;; kret (Some obj)) h
    (fun r h' => exists o V', r = Some o /\ sinv h' lent V' /\ stocked V' n
      /\ allocators h' = allocators h /\ PAGE_SIZE <= o /\ ~ live h V slab_allocator_allocator o /\ live h' V' slab_allocator_allocator o).
Proof.
  intros I Ha Hb Hn. pose proof I as [W _ Hsp]. set (sa := slab_allocator_allocator) in *.
  destruct (free V b) as [|i f] eqn:Ef; [done|]. assert (Hin : b ∈ chain V sa) by (rewrite Hb; set_solver).
  pose proof (slab_nonnull a (wf_geom _ _ _ W sa a Ha) b (chain_space _ _ _ W sa a b Ha Hin)) as Hnn.
  destruct (Z.eqb_spec (slab_at a b) NULL) as [E|_]; [done|].
  go. eapply runs_get_allocator; [done|]. go. eapply runs_mono; [by apply (run_take_wf h lent V sa a b i f)|].
  intros o h1 (_ & W1 & Sm & K & Ho & Hno & L). go. exists o, (set_free b f V). split_and!; try done.
  - apply (sinv_kept h lent V); [done..|]. intros sa' o' Hl. apply L. by left.
  - exists b. simpl. rewrite fn_lookup_insert. simpl in Hn. split; [done|lia].
  - apply Sm.
  - apply L. by right.
Qed.

(** An allocation from the first allocator while there are free objects *)
Lemma run_alloc_stocked h lent V n : sinv h lent V -> stocked V (S n) ->
  runs (slab_obj_alloc slab_allocator_allocator) h (fun r h' => exists o V', r = Some o /\ sinv h' lent V' /\ stocked V' n
    /\ allocators h' = allocators h /\ PAGE_SIZE <= o /\ ~ live h V slab_allocator_allocator o /\ live h' V' slab_allocator_allocator o).
Proof.
  intros I (b & Hb & Hn). pose proof I as [W [a Ha] Hsp]. unfold slab_obj_alloc.
  eapply runs_step; [apply (run_search_found 1 h lent V _ a W Ha); exists b; rewrite Hb; split; [set_solver|by intros E; rewrite E in Hn]|].
  intros s h' (-> & b' & Hb' & -> & _). rewrite Hb in Hb'. apply list_elem_of_singleton in Hb' as ->. by apply run_stocked_rest.
Qed.

(** The first allocation: a page is needed. *)
Lemma run_alloc_first h lent V a b p : sinv h lent V -> allocators h !! slab_allocator_allocator = Some a ->
  chain V slab_allocator_allocator = [] -> pg_alloc (npages a) (pages h) = Done (Some b) p ->
  runs (slab_obj_alloc slab_allocator_allocator) h (fun r h' => exists o lent' V', r = Some o /\ sinv h' lent' V'
    /\ stocked V' (Z.to_nat (sa_slab_nobjs a) - 1)
    /\ alike (allocators h) (allocators h') /\ PAGE_SIZE <= o /\ ~ live h V slab_allocator_allocator o /\ live h' V' slab_allocator_allocator o).
Proof.
  intros I Ha Hch Hp. pose proof I as [W _ Hsp]. unfold slab_obj_alloc. set (sa := slab_allocator_allocator) in *.
  pose proof (wf_geom _ _ _ W sa a Ha) as G. pose proof (g_nobjs a G) as Hno. apply runs_bind.
  cbn [slab_with_free]. go. eapply runs_get_allocator; [done|]. go. eapply runs_mono; [by apply (run_find_all h lent V sa a)|].
  intros s h' (-> & [[-> _]|(c & Hc & _)]); [|rewrite Hch in Hc; by apply not_elem_of_nil in Hc]. simpl. go.
  eapply runs_mono; [by apply (run_grow h lent V sa a)|]. intros [] h1; [|intros [[p' Hp'] _]; congruence].
  intros (c & Hc & W1 & Gr). pose proof (keeps_grown h lent V h1 sa a c W Ha Hc W1 Gr) as K1. cbv iota.
  pose proof (live_grown h lent V W h1 sa a c Ha Hc Gr) as L1.
  assert (I1 : sinv h1 (<[c := npages a]> lent) (grown_view sa a c V)) by (apply (sinv_kept h lent V); [done..|]; intros sa' o; apply L1).
  assert (Ha1 : allocators h1 !! sa = Some (with_slabs (slab_at a c) a)) by (by rewrite (gr_alloc _ _ _ _ _ Gr), lookup_insert_eq).
  assert (Hc1 : chain (grown_view sa a c V) sa = [c]) by (simpl; by rewrite fn_lookup_insert, Hch).
  assert (Hf1 : length (free (grown_view sa a c V) c) = S (Z.to_nat (sa_slab_nobjs a) - 1)).
  { simpl. rewrite fn_lookup_insert. unfold objects. rewrite length_seqZ. lia. }
  eapply runs_mono; [apply (run_search_found 0 h1 _ _ sa _ W1 Ha1); exists c; rewrite Hc1; split; [set_solver|by intros E; rewrite E in Hf1]|].
  intros s h' (-> & b' & Hb' & -> & _). rewrite Hc1 in Hb'. apply list_elem_of_singleton in Hb' as ->.
  eapply runs_mono; [by apply (run_stocked_rest h1 _ _ _ c _ I1 Ha1 Hc1 Hf1)|].
  intros r h2 (o & V2 & -> & I2 & S2 & Ea & Ho & Hnl & Hl). exists o, (<[c := npages a]> lent), V2.
  split_and!; try done; [rewrite Ea; apply K1|]. intros Hlo. by apply Hnl, L1.
Qed.

(** Making an allocator out of an object just allocated *)
Lemma run_make h lent V c name order n : sinv h lent V -> live h V slab_allocator_allocator c -> allocators h !! c = None ->
  PAGE_SIZE <= c -> stocked V n -> KMALLOC_SIZE_MIN_ORDER <= order <= KMALLOC_SIZE_MAX_ORDER ->
  runs (allocator_init c name (u32 (Z.shiftl 1 order))) h (fun _ h' => exists V', sinv h' lent V' /\ stocked V' n /\ extends h h' /\ bucket h' order c).
Proof.
  intros I Hl Hno Hc St Ho. unfold KMALLOC_SIZE_MIN_ORDER, KMALLOC_SIZE_MAX_ORDER in Ho.
  pose proof (Z.pow_le_mono_r 2 order 18). pose proof (Z.pow_nonneg 2 order).
  rewrite Z.shiftl_1_l, u32_small by lia. eapply runs_mono; [apply (run_spawn h lent V c name (2 ^ order)); try done; [lia|]|].
  - unfold fits, block_bytes, sizeof_bufctl, sizeof_slab, sizeof_word, PAGE_SIZE, PAGE_NSIZES. lia.
  - intros [] h' (I' & Sc & Ex & L & a & Ea & Es). exists (push_alloc c V). split_and!; try done.
    split; [unfold slab_allocator_allocator, PAGE_SIZE in *; lia|]. exists a. by rewrite Ea, lookup_insert_eq.
Qed.

Lemma bucket_extends h h' order c : extends h h' -> bucket h order c -> bucket h' order c.
Proof. intros Ex (Hne & a & Ha & E). split; [done|]. destruct (Ex c a Ha) as [p Hp]. by exists (with_slabs p a). Qed.

Lemma fresh_none h lent V o : sinv h lent V -> PAGE_SIZE <= o -> ~ live h V slab_allocator_allocator o -> allocators h !! o = None.
Proof.
  intros [_ _ Hsp] Ho Hn. destruct (allocators h !! o) as [a|] eqn:E; [|done]. destruct (Hsp o ltac:(by eexists)) as [->|Hl]; [|done].
  unfold slab_allocator_allocator, PAGE_SIZE in *. lia.
Qed.

(** The buckets *)
Definition buckets h (cs : list Z) (order : Z) : Prop := forall k c, cs !! k = Some c -> bucket h (order + Z.of_nat k) c.

Lemma run_create_buckets names : forall h lent V order n, sinv h lent V -> stocked V (length names + n) ->
  KMALLOC_SIZE_MIN_ORDER <= order -> order + Z.of_nat (length names) <= KMALLOC_SIZE_MAX_ORDER + 1 ->
  runs (create_buckets names order) h (fun cs h' => exists V', sinv h' lent V' /\ extends h h' /\ length cs = length names /\ buckets h' cs order).
Proof.
  induction names as [|name names IH]; intros h lent V order n I St Ho Hl; cbn [create_buckets].
  { go. exists V. split_and!; try done. intros sa a Ha. exists (sa_slabs a). by rewrite with_slabs_id. }
  simpl length in *. apply runs_bind. unfold slab_allocator_create. apply runs_bind.
  eapply runs_mono; [by apply (run_alloc_stocked h lent V (length names + n))|].
  intros r h1 (o & V1 & -> & I1 & S1 & Ea & Hpo & Hn & Hlv). pose proof (fresh_none h lent V o I Hpo Hn) as Hno. rewrite <- Ea in Hno.
  go. eapply runs_mono; [by apply (run_make h1 lent V1 o name order (length names + n)); [..|lia]|].
  intros [] h2 (V2 & I2 & S2 & Ex2 & B2). go. eapply runs_mono; [by apply (IH h2 lent V2 (order + 1) n); [..|lia|lia]|].
  intros cs h3 (V3 & I3 & Ex3 & Elen & B3). go. exists V3. split_and!; try done.
  - intros sa a Ha. rewrite <- Ea in Ha. by apply (extends_trans _ _ _ Ex2 Ex3).
  - simpl. lia.
  - intros [|k] c Hk; simpl in Hk; [injection Hk as <-; rewrite Z.add_0_r; by apply (bucket_extends h2)|].
    replace (order + Z.of_nat (S k)) with (order + 1 + Z.of_nat k) by lia. by apply B3.
Qed.

Definition no_view : view := mk_view (fun _ => []) (fun _ => []) [].

Lemma wf_none h lent : allocators h = ∅ -> slab_allocators h = NULL -> pages_ok (pages h) lent -> wf h lent no_view.
Proof.
  intros E1 E2 Hp. split; rewrite ?E1; simpl; try done; try (intros; by rewrite ?lookup_empty in *); try (intros; set_solver).
  - constructor.
  - constructor.
  - intros sa. rewrite lookup_empty. split; [set_solver|by intros [? ?]].
Qed.

(** The first allocator's slabs are single pages of 102 allocators. *)
Lemma first_size o : order_for (sizeof_allocator + 2 * sizeof_word) o -> o = 0 /\ slab_nobjs (sizeof_allocator + 2 * sizeof_word) o = 102.
Proof.
  intros (Ho & _ & Hb). assert (o = 0) as ->; [|done]. destruct (decide (o = 0)) as [|Hne]; [done|]. exfalso.
  destruct (Hb 0 ltac:(done) ltac:(done)) as [_ Hlt]. specialize (Hlt ltac:(lia)).
  assert (0 <= unused (sizeof_allocator + 2 * sizeof_word) o) by (by apply Z.mod_pos_bound).
  change (unused (sizeof_allocator + 2 * sizeof_word) 0) with 0 in Hlt. lia.
Qed.

Lemma run_slab_init h lent b p : allocators h = ∅ -> slab_allocators h = NULL -> pages_ok (pages h) lent ->
  pg_alloc 1 (pages h) = Done (Some b) p -> runs slab_init h (fun _ h' => exists lent' V', kinv h' lent' V').
Proof.
  intros E1 E2 Hp Hal. pose proof (wf_none h lent E1 E2 Hp) as W0. unfold slab_init. apply runs_bind.
  eapply runs_mono; [apply (run_allocator_init h lent no_view slab_allocator_allocator); try done; by rewrite E1|].
  intros [] h1 (W1 & Sc & a & o & Ea & Es & Ho & Eo & En). rewrite Es in Ho, En. destruct (first_size o Ho) as [-> En']. rewrite En' in En.
  assert (Ha : allocators h1 !! slab_allocator_allocator = Some a) by (by rewrite Ea, lookup_insert_eq).
  assert (I1 : sinv h1 lent (push_alloc slab_allocator_allocator no_view)).
  { split; [done|by exists a|]. intros sa Hsa. rewrite Ea, E1 in Hsa. left. destruct (decide (sa = slab_allocator_allocator)) as [|Hne]; [done|].
    rewrite lookup_insert_ne, lookup_empty in Hsa by done. by destruct Hsa. }
  destruct kmalloc_allocator_names as [|name names] eqn:En0; [done|]. assert (Hln : length names = 12%nat) by (by injection En0 as _ <-).
  apply runs_bind. cbn [create_buckets]. apply runs_bind. unfold slab_allocator_create. apply runs_bind.
  eapply runs_mono; [apply (run_alloc_first h1 lent _ a b p I1 Ha); [done|]; unfold npages; by rewrite Eo, (sc_pages _ _ Sc)|].
  intros r h2 (c & lent2 & V2 & -> & I2 & S2 & K2 & Hc & Hn & Hl). rewrite En in S2. simpl in S2.
  assert (Hno : allocators h2 !! c = None).
  { pose proof (fresh_none _ _ _ c I1 Hc Hn) as Hno. destruct (allocators h2 !! c) as [a2|] eqn:E; [|done].
    destruct (alike_Some _ _ _ _ (alike_sym _ _ K2) E). congruence. }
  go. eapply runs_mono; [by apply (run_make h2 lent2 V2 c name KMALLOC_SIZE_MIN_ORDER 101)|].
  intros [] h3 (V3 & I3 & S3 & Ex3 & B3). go.
  eapply runs_mono; [apply (run_create_buckets names h3 lent2 V3 (KMALLOC_SIZE_MIN_ORDER + 1) 89 I3); rewrite ?Hln; done|].
  intros cs h4 (V4 & I4 & Ex4 & El & B4). go. exists lent2, V4. split.
  - destruct I4 as [W4 Hst Hsp]. split; try done. destruct W4. split; try done.
    + intros sa a' Ha'. apply (lseg_same h4 _ _ (free V4)); [|by apply wf_seg0]. intros x nx _. apply slab_rep_agree; [by eapply wf_geom0|done].
    + by apply (aseg_same h4).
  - simpl. rewrite El, Hln. done.
  - intros [|k] d Hk; simpl in Hk; [injection Hk as <-; rewrite Z.add_0_r; by apply (bucket_extends h3)|].
    replace (KMALLOC_SIZE_MIN_ORDER + Z.of_nat (S k)) with (KMALLOC_SIZE_MIN_ORDER + 1 + Z.of_nat k) by lia. by apply B4.
Qed.

(** C16: started with no allocators and a page allocator that has a page, [slab_init]
    returns and leaves the state on which [kmalloc] and [kfree] are specified. *)
Theorem slab_init_spec h lent b p : allocators h = ∅ -> slab_allocators h = NULL -> pages_ok (pages h) lent ->
  pg_alloc 1 (pages h) = Done (Some b) p -> runs slab_init h (fun _ h' => exists lent' V', kinv h' lent' V').
Proof. apply run_slab_init. Qed.

End init.

End Kmalloc.
