(* ===== verification/SlabPages.v ===== *)
(** * The slab allocator on top of the page allocator

    The page allocator of [PageAlloc] keeps the laws of [PageLaws], so that what is
    proved of the slab allocator holds for the two together.  The page allocator calls
    [slab_allocators_reclaim] when it has no block; that call is made in
    [Slab.slab_page_alloc], and the page allocator itself runs without it. *)

From Stdlib Require Import String.
From S2P Require Import Prelude.
From S2P Require Import PageAlloc.
From S2P Require Export Kmalloc.

Module SlabPages.
Export Kmalloc.
Import PageAlloc.

Local Open Scope Z_scope.
Local Open Scope kernel_scope.

(** ** The ranges of the groups do not change *)

Section stable.
Context {A B : Type}.

Definition same_range (g g' : pagegroup) : Prop := pg_baseaddr g' = pg_baseaddr g /\ pg_endaddr g' = pg_endaddr g.
Definition stable {A} (m : kernel pagegroup A) : Prop := forall g x g', m g = Done x g' -> same_range g g'.

Lemma stable_bind (m : kernel pagegroup A) (f : A -> kernel pagegroup B) : stable m -> (forall x, stable (f x)) -> stable (kbind m f).
Proof.
  intros Hm Hf g x g'. unfold kbind. destruct (m g) as [y g1| | |] eqn:E; simpl; try done. intros E'.
  destruct (Hm _ _ _ E), (Hf y _ _ _ E'). split; congruence.
Qed.
Lemma stable_ret (x : A) : stable (kret x).
Proof. by intros g y g' [= _ <-]. Qed.
Lemma stable_deref (o : option A) : stable (kderef o).
Proof. intros g y g'. unfold kderef. destruct o; [by intros [= _ <-]|done]. Qed.
End stable.

Lemma stable_get : stable kget.
Proof. by intros g y g' [= _ <-]. Qed.
Lemma stable_assert b : stable (kassert b).
Proof. intros g y g'. unfold kassert. destruct b; [by intros [= _ <-]|done]. Qed.
Lemma stable_push order addr : stable (free_push order addr).
Proof. by intros g y g' [= _ <-]. Qed.
Lemma stable_pop order : stable (free_pop order).
Proof. by intros g y g' [= _ <-]. Qed.

Create HintDb stable discriminated.
#[local] Hint Resolve stable_bind stable_ret stable_deref stable_get stable_assert stable_push stable_pop : stable.
Ltac stable_go := repeat first
  [ progress (intros; auto with stable nocore)
  | apply stable_bind; [|intros]
  | match goal with |- stable (if ?b then _ else _) => destruct b end
  | match goal with |- stable (match ?b with _ => _ end) => destruct b end ].

Lemma stable_flip order bit : stable (group_flip order bit).
Proof.
  intros g x g'. unfold group_flip. unfold kbind, kget, kderef, kput. simpl. destruct (pg_map g !! order) as [m|]; simpl; [|done].
  destruct (bit_flip m bit); simpl; [|done]. by intros [= _ <-].
Qed.
Lemma stable_unlink addr : stable (free_unlink addr).
Proof.
  intros g x g'. unfold free_unlink, kbind, kget, kassert, kput. simpl. destruct (bool_decide _); simpl; [|done]. by intros [= _ <-].
Qed.
Lemma stable_check order bit : stable (group_check order bit).
Proof. unfold group_check. stable_go. Qed.
Lemma stable_index order addr : stable (pagegroup_calculate_index order addr).
Proof. unfold pagegroup_calculate_index. stable_go. Qed.
#[local] Hint Resolve stable_flip stable_unlink stable_check stable_index : stable.

Lemma stable_split1 order : stable (page_split1 order).
Proof. unfold page_split1. stable_go. Qed.
#[local] Hint Resolve stable_split1 : stable.
Lemma stable_split_down n order : stable (split_down n order).
Proof. induction n; cbn [split_down]; stable_go. Qed.
Lemma stable_join fuel : forall order addr, stable (page_join fuel order addr).
Proof. induction fuel; intros order addr; cbn [page_join]; [by intros g x g'|]. stable_go. Qed.
#[local] Hint Resolve stable_split_down stable_join : stable.
Lemma stable_take order : stable (take_block order).
Proof. unfold take_block. stable_go. Qed.
Lemma stable_put addr order : stable (put_block addr order).
Proof. unfold put_block. stable_go. Qed.

Definition ranges (s : pages) : list (Z * Z) := (fun g => (pg_baseaddr g, pg_endaddr g)) <$> pagegroup_list s.

Lemma ranges_group {A} i (m : kernel pagegroup A) s x s' : stable m -> with_group i m s = Done x s' -> ranges s' = ranges s.
Proof.
  intros Hm. unfold with_group. destruct (pagegroup_list s !! i) as [g|] eqn:Ei; [|done].
  destruct (m g) as [y g'| | |] eqn:E; try done. intros [= _ <-]. destruct (Hm _ _ _ E) as [E1 E2]. unfold ranges. simpl.
  rewrite list_fmap_insert, E1, E2. apply list_insert_id. by rewrite list_lookup_fmap, Ei.
Qed.

Lemma ranges_search n : forall norder order s x s', split_search n norder order s = Done x s' -> ranges s' = ranges s.
Proof.
  induction n as [|n IH]; intros norder order s x s'; cbn [split_search]; [by intros [= _ <-]|].
  unfold kbind at 1. simpl. destruct (group_with_free norder s) as [i|]; [|by apply IH].
  unfold kbind. destruct (with_group _ _ s) as [y s1| | |] eqn:E; simpl; try done. intros [= _ <-].
  eapply ranges_group; [|done]. apply stable_split_down.
Qed.

Lemma ranges_alloc o s x s' : page_alloc_order no_reclaim o s = Done x s' -> ranges s' = ranges s.
Proof.
  unfold page_alloc_order. rewrite (kbind_done kget _ s s s eq_refl).
  assert (Hg : forall r s1, match group_with_free o s with Some i => kret (Some i) | None => page_split no_reclaim o end s = Done r s1 -> ranges s1 = ranges s).
  { destruct (group_with_free o s) as [i|]; intros r s1; [by intros [= _ <-]|]. unfold page_split, kbind at 1.
    destruct (split_search _ _ _ s) as [[i|] s2| | |] eqn:E; simpl; try done; apply ranges_search in E.
    - unfold kbind, kderef, kassert. simpl. destruct (pagegroup_list s2 !! i); simpl; [|done]. destruct (bool_decide _); simpl; [|done]. by intros [= _ <-].
    - by intros [= _ <-]. }
  revert Hg. generalize (match group_with_free o s with Some i => kret (Some i) | None => page_split no_reclaim o end). intros m Hg.
  unfold kbind at 1. destruct (m s) as [[i|] s1| | |]; simpl; try done;
    specialize (Hg _ _ eq_refl) as E.
  - unfold kbind at 1. destruct (with_group i (take_block o) s1) as [a s2| | |] eqn:E2; simpl; try done.
    apply ranges_group in E2; [|apply stable_take]. intros [= _ <-]. by rewrite <- E, <- E2.
  - by intros [= _ <-].
Qed.

Lemma ranges_free a o s x s' : page_free_order a o s = Done x s' -> ranges s' = ranges s.
Proof.
  unfold page_free_order. rewrite (kbind_done kget _ s s s eq_refl). destruct (pagegroup_from_address a s) as [i|]; [|by intros [= _ <-]].
  unfold kbind. destruct (with_group i _ s) as [y s1| | |] eqn:E; simpl; try done. apply ranges_group in E; [|apply stable_put].
  intros [= _ <-]. by rewrite <- E.
Qed.

(** ** The laws *)

#[export] Instance page_source : PageSource pages := {
  pg_alloc := page_alloc_n no_reclaim;
  pg_free := page_free_n
}.

Lemma order_loop_pow o : 0 <= o < 8 -> order_loop (Z.to_nat PageAlloc.PAGE_NSIZES) 0 (2 ^ o) = o.
Proof.
  intros Ho. assert (o = 0 \/ o = 1 \/ o = 2 \/ o = 3 \/ o = 4 \/ o = 5 \/ o = 6 \/ o = 7) as E by lia.
  by repeat destruct E as [->|E]; [..|subst].
Qed.
Lemma alloc_n_pow o s : 0 <= o < 8 -> page_alloc_n no_reclaim (2 ^ o) s = page_alloc_order no_reclaim o s.
Proof. intros Ho. unfold PageAlloc.page_alloc_n. rewrite order_loop_pow by done. destruct (Z.eqb_spec o PageAlloc.PAGE_NSIZES); [unfold PageAlloc.PAGE_NSIZES in *; lia|done]. Qed.
Lemma free_n_pow a o s : 0 <= o < 8 -> PageAlloc.page_free_n a (2 ^ o) s = page_free_order a o s.
Proof. intros Ho. unfold PageAlloc.page_free_n. rewrite order_loop_pow by done. destruct (Z.eqb_spec o PageAlloc.PAGE_NSIZES); [unfold PageAlloc.PAGE_NSIZES in *; lia|done]. Qed.

(** A block of a group none of whose bytes is free *)
Definition lent_block (s : pages) (b n : Z) : Prop := exists o i g j, n = 2 ^ o /\ 0 <= o < 8 /\ pagegroup_list s !! i = Some g
  /\ b = blk g o j /\ pg_baseaddr g <= b /\ b + 2 ^ (o + 12) <= pg_endaddr g /\ forall x, b <= x < b + 2 ^ (o + 12) -> ~ sys_free s x.

Record lending (s : pages) (lent : gmap Z Z) : Prop := {
  ln_ok : pages_ok s;
  ln_low : forall g, g ∈ pagegroup_list s -> PageAlloc.PAGE_SIZE <= pg_baseaddr g;
  ln_block : forall b n, lent !! b = Some n -> lent_block s b n;
  ln_apart : forall b n c m, lent !! b = Some n -> lent !! c = Some m -> b <> c ->
    b + n * PageAlloc.PAGE_SIZE <= c \/ c + m * PageAlloc.PAGE_SIZE <= b
}.

Lemma pow_page o : 0 <= o -> 2 ^ (o + 12) = 2 ^ o * PageAlloc.PAGE_SIZE.
Proof. intros Ho. by rewrite Z.pow_add_r by lia. Qed.

Lemma same_ranges s s' i g : ranges s' = ranges s -> pagegroup_list s !! i = Some g ->
  exists g', pagegroup_list s' !! i = Some g' /\ same_range g g'.
Proof.
  intros E Hi. assert (Hr : ranges s' !! i = Some (pg_baseaddr g, pg_endaddr g)) by (rewrite E; unfold ranges; by rewrite list_lookup_fmap, Hi).
  unfold ranges in Hr. rewrite list_lookup_fmap in Hr. destruct (pagegroup_list s' !! i) as [g'|]; [|done].
  exists g'. split; [done|]. simpl in Hr. unfold same_range. by simplify_eq.
Qed.

(** A block stays lent if its bytes do not become free. *)
Lemma lent_block_kept s s' b n : ranges s' = ranges s -> lent_block s b n ->
  (forall x, b <= x < b + n * PageAlloc.PAGE_SIZE -> ~ sys_free s x -> ~ sys_free s' x) -> lent_block s' b n.
Proof.
  intros E (o & i & g & j & -> & Ho & Hi & -> & H1 & H2 & Hf) Hk. destruct (same_ranges s s' i g E Hi) as (g' & Hi' & E1 & E2).
  exists o, i, g', j. rewrite E1, E2. split_and!; try done; try lia; [unfold blk; by rewrite E1|].
  intros x Hx. apply Hk; [|by apply Hf]. rewrite pow_page in Hx by lia. done.
Qed.

Lemma low_kept s s' : ranges s' = ranges s -> (forall g, g ∈ pagegroup_list s -> PageAlloc.PAGE_SIZE <= pg_baseaddr g) ->
  forall g, g ∈ pagegroup_list s' -> PageAlloc.PAGE_SIZE <= pg_baseaddr g.
Proof.
  intros E Hl g (i & Hi)%list_elem_of_lookup. destruct (same_ranges s' s i g ltac:(done) Hi) as (g' & Hi' & <- & _).
  apply Hl. apply list_elem_of_lookup. by eexists.
Qed.

(** A free block and a lent one are apart. *)
Lemma lent_free_apart s b n c m : lent_block s b n -> 0 < m ->
  (forall x, c <= x < c + m * PageAlloc.PAGE_SIZE -> sys_free s x) ->
  b + n * PageAlloc.PAGE_SIZE <= c \/ c + m * PageAlloc.PAGE_SIZE <= b.
Proof.
  intros (o & i & g & j & -> & Ho & Hi & _ & H1 & H2 & Hf) Hm Hc. rewrite pow_page in Hf by lia.
  assert (Hp := pow_pos o ltac:(lia)). unfold PageAlloc.PAGE_SIZE in *.
  destruct (decide (b + 2 ^ o * 4096 <= c \/ c + m * 4096 <= b)) as [|Hn]; [done|]. exfalso.
  apply (Hf (Z.max b c)); [lia|]. apply Hc. lia.
Qed.

Lemma lending_alloc s lent o : lending s lent -> 0 <= o < 8 ->
  runs (page_alloc_n no_reclaim (2 ^ o)) s (fun r s' => match r with
    | Some b => lent !! b = None /\ lending s' (<[b := 2 ^ o]> lent)
    | None => lending s' lent
    end).
Proof.
  intros Ln Ho. pose proof Ln as [Hok Hlow Hb Hap]. apply (runs_eq _ (page_alloc_order no_reclaim o) _ _ (alloc_n_pow o s Ho)).
  destruct (alloc_cases no_reclaim s o Hok Ho) as [[Hn _]|[_ (i & g & a & s' & Hi & Hrun & Hok' & _ & (j & Ea) & H1 & H2 & Hfr & Hfree)]].
  { exists None, s. split; [by apply (Hn 0 s)|done]. }
  exists (Some a), s'. split; [done|]. pose proof (ranges_alloc o s _ _ Hrun) as Er. assert (Hp := pow_pos o ltac:(lia)).
  rewrite pow_page in H2, Hfr, Hfree by lia.
  assert (Hnew : forall b n, lent !! b = Some n -> b + n * PageAlloc.PAGE_SIZE <= a \/ a + 2 ^ o * PageAlloc.PAGE_SIZE <= b).
  { intros b n Hbn. by apply (lent_free_apart s b n a (2 ^ o) (Hb b n Hbn)). }
  assert (Ha : lent !! a = None).
  { destruct (lent !! a) as [n|] eqn:E; [|done]. destruct (Hb a n E) as (o' & _ & _ & _ & -> & Ho' & _). specialize (Hnew a _ E).
    assert (Hp' := pow_pos o' ltac:(lia)). unfold PageAlloc.PAGE_SIZE in *. lia. }
  split; [done|]. split; try done.
  - by eapply low_kept.
  - intros b n. destruct (decide (b = a)) as [->|Hne].
    + rewrite lookup_insert_eq. intros [= <-]. exists o, i, g, j. rewrite pow_page by lia. split_and!; try done; try lia.
      intros x Hx Hs%Hfree. tauto.
    + rewrite lookup_insert_ne by done. intros Hbn. apply (lent_block_kept s); [done|by apply Hb|]. intros x _ Hx Hs%Hfree. tauto.
  - intros b n c m. destruct (decide (b = a)) as [->|Hba], (decide (c = a)) as [->|Hca];
      rewrite ?lookup_insert_eq, ?(lookup_insert_ne lent a b), ?(lookup_insert_ne lent a c) by done.
    + done.
    + intros [= <-] Hc _. destruct (Hnew c m Hc); lia.
    + intros Hbn [= <-] _. destruct (Hnew b n Hbn); lia.
    + by apply Hap.
Qed.

Lemma lending_free s lent b o : lending s lent -> 0 <= o < 8 -> lent !! b = Some (2 ^ o) ->
  runs (PageAlloc.page_free_n b (2 ^ o)) s (fun _ s' => lending s' (delete b lent)).
Proof.
  intros Ln Ho Hbo. pose proof Ln as [Hok Hlow Hb Hap]. apply (runs_eq _ (page_free_order b o) _ _ (free_n_pow b o s Ho)).
  destruct (Hb b _ Hbo) as (o' & i & g & j & Eo & Ho' & Hi & -> & H1 & H2 & Hf).
  assert (o' = o) as -> by (by apply (Z.pow_inj_r 2); [lia..|]).
  destruct (run_put_system s i g o j Hok Hi Ho H1 H2 Hf) as (s' & Hrun & Hok' & _ & Hfree & _).
  exists tt, s'. split; [done|]. pose proof (ranges_free _ o s _ _ Hrun) as Er. split; try done.
  - by eapply low_kept.
  - intros c m [Hne Hc]%lookup_delete_Some. apply (lent_block_kept s); [done|by apply Hb|]. intros x Hx Hn [Hs|Hs]%Hfree; [done|].
    rewrite pow_page in Hs by lia. destruct (Hap _ _ _ _ Hbo Hc Hne); lia.
  - intros c m d k [_ Hc]%lookup_delete_Some [_ Hd]%lookup_delete_Some. by apply Hap.
Qed.

#[export, refine] Instance page_laws : PageLaws pages := { pages_ok := lending }.
Proof.
  - intros p lent b n Ln Hb. destruct (ln_block _ _ Ln b n Hb) as (o & i & g & j & -> & Ho & Hi & _ & H1 & H2 & _).
    assert (Hg : g ∈ pagegroup_list p) by (apply list_elem_of_lookup; by eexists). pose proof (ln_low _ _ Ln g Hg).
    assert (Hgo : group_ok g) by (eapply Forall_lookup_1; [apply (ln_ok _ _ Ln)|done]). destruct Hgo as (T & F & B & Hr & _).
    pose proof (sh_top _ _ (rp_shape _ _ _ _ Hr)). rewrite pow_page in H2 by lia. unfold PageAlloc.PAGE_SIZE, Slab.PAGE_SIZE in *. lia.
  - intros p lent b n c m Ln. apply (ln_apart _ _ Ln).
  - intros p lent o Ln Ho. by apply lending_alloc.
  - intros p lent b o Ln Ho. by apply lending_free.
Defined.

(** C17: the page allocator as the slab allocator sees it: a block it hands out does not
    meet any block lent before, and a block lent can be given back; blocks stay lent until
    they are. *)
Theorem page_allocator_lends s lent o : lending s lent -> 0 <= o < 8 ->
  runs (page_alloc_n no_reclaim (2 ^ o)) s (fun r s' => match r with
    | Some b => lent !! b = None /\ lending s' (<[b := 2 ^ o]> lent)
    | None => lending s' lent
    end)
  /\ forall b, lent !! b = Some (2 ^ o) -> runs (PageAlloc.page_free_n b (2 ^ o)) s (fun _ s' => lending s' (delete b lent)).
Proof. intros Ln Ho. split; [by apply lending_alloc|]. intros b Hb. by apply lending_free. Qed.

(** ** A state *)

(** The kernel's memory before [slab_init]: 128 pages *)
Definition demo_mem : mem pages := mk_mem ∅ ∅ ∅ ∅ NULL [] demo_pages.
Definition demo_slab : mem pages := match slab_init demo_mem with Done _ h => h | _ => demo_mem end.

Lemma demo_lending : lending demo_pages ∅.
Proof.
  split; [apply demo_pages_ok| |intros b n; by rewrite lookup_empty|intros b n c m; by rewrite lookup_empty].
  intros g Hg. apply list_elem_of_singleton in Hg as ->. done.
Qed.

Lemma demo_mem_lent : SlabInv.pages_ok (Slab.pages demo_mem) ∅.
Proof. exact demo_lending. Qed.

Lemma demo_page : exists p, page_alloc_n no_reclaim 1 demo_pages = Done (Some 0x17f000) p.
Proof. eexists. vm_compute. reflexivity. Qed.

Lemma demo_kinv : exists lent V, kinv demo_slab lent V.
Proof.
  destruct demo_page as [p Hp].
  destruct (run_slab_init demo_mem ∅ 0x17f000 p eq_refl eq_refl demo_mem_lent Hp) as ([] & h & E & lent & V & I).
  exists lent, V. unfold demo_slab. by rewrite E.
Qed.

(** The first allocator of the state, with one slab, thirteen objects of which are in use *)
Definition demo_first : slab_allocator := mk_allocator NULL (chars "slab_allocators"%string) 32 (0x17f000 + 102 * 40) 0 102.
Lemma demo_first_at : allocators demo_slab !! slab_allocator_allocator = Some demo_first.
Proof. vm_compute. reflexivity. Qed.

Lemma page_allocator_lends_witness : exists r s', page_alloc_n no_reclaim 4 demo_pages = Done r s'.
Proof.
  destruct (page_allocator_lends demo_pages ∅ 2 demo_lending ltac:(lia)) as [(r & s' & E & _) _]. exists r, s'. exact E.
Defined.

Lemma slab_init_spec_witness : exists h' lent V, slab_init demo_mem = Done tt h' /\ kinv h' lent V.
Proof.
  destruct demo_page as [p Hp].
  destruct (slab_init_spec demo_mem ∅ 0x17f000 p eq_refl eq_refl demo_mem_lent Hp) as ([] & h & E & lent & V & I).
  exists h, lent, V. split; [exact E|exact I].
Defined.

Lemma slab_obj_alloc_spec_witness : exists r h' lent' V', slab_obj_alloc slab_allocator_allocator demo_slab = Done r h' /\ wf h' lent' V'.
Proof.
  destruct demo_kinv as (lent & V & I).
  destruct (slab_obj_alloc_spec demo_slab lent V slab_allocator_allocator demo_first (sv_wf _ _ _ (kv_sinv _ _ _ I)) demo_first_at)
    as (r & h' & E & lent' & V' & W & _).
  exists r, h', lent', V'. split; [exact E|exact W].
Defined.

(** The allocator of the smallest bucket *)
Definition demo_bucket : Z := 0x17f004.
Lemma demo_bucket_at : kmalloc_allocators demo_slab !! 0%nat = Some demo_bucket.
Proof. vm_compute. reflexivity. Qed.

Lemma demo_bucket_live lent V : kinv demo_slab lent V -> live demo_slab V slab_allocator_allocator demo_bucket.
Proof.
  intros I. destruct (kv_bucket _ _ _ I 0%nat demo_bucket demo_bucket_at) as (Hne & a & Ha & _).
  destruct (sv_spawned _ _ _ (kv_sinv _ _ _ I) demo_bucket) as [E|Hl]; [by eexists|done..].
Qed.

Lemma slab_obj_free_spec_witness : exists h' lent V', slab_obj_free slab_allocator_allocator demo_bucket demo_slab = Done tt h' /\ wf h' lent V'.
Proof.
  destruct demo_kinv as (lent & V & I).
  destruct (slab_obj_free_spec demo_slab lent V slab_allocator_allocator demo_bucket (sv_wf _ _ _ (kv_sinv _ _ _ I)) (demo_bucket_live lent V I))
    as ([] & h' & E & V' & W & _).
  exists h', lent, V'. split; [exact E|exact W].
Defined.

Lemma slab_reclaim_spec_witness : exists r h', slab_allocators_reclaim 0 demo_slab = Done r h'.
Proof.
  destruct demo_kinv as (lent & V & I). destruct (slab_reclaim_spec demo_slab lent V 0 (sv_wf _ _ _ (kv_sinv _ _ _ I))) as (r & h' & E & _).
  exists r, h'. exact E.
Defined.

(** An allocator of objects of 100 bytes, before its sizes are chosen *)
Definition demo_sizing : mem pages := mk_mem {[ 8 := mk_allocator NULL [] 108 NULL 0 0 ]} ∅ ∅ ∅ NULL [] demo_pages.

Lemma calc_slab_size_spec_witness : exists h', calc_slab_size 8 demo_sizing = Done tt h'.
Proof.
  destruct (calc_slab_size_spec demo_sizing 8 (mk_allocator NULL [] 108 NULL 0 0) eq_refl ltac:(unfold sizeof_word; simpl; lia)) as [Hc _].
  destruct (Hc ltac:(vm_compute; discriminate)) as ([] & h' & E & _). exists h'. exact E.
Defined.

Lemma demo_kmalloc : match kmalloc 100 demo_slab with Done (Some _) _ => True | _ => False end.
Proof. vm_compute. exact I. Qed.

Lemma kmalloc_spec_witness : exists addr h' V' n, kmalloc 100 demo_slab = Done (Some addr) h' /\ 100 <= n /\ owned h' V' addr n.
Proof.
  destruct demo_kinv as (lent & V & I). destruct (kmalloc_spec demo_slab lent V 100 I ltac:(unfold sizeof_word; lia)) as [Hk _].
  destruct (Hk ltac:(unfold sizeof_word, KMALLOC_SIZE_MAX_ORDER; lia)) as (c & a & n & _ & _ & _ & Hn & _ & r & h' & E & lent' & V' & _ & _ & Hr).
  pose proof demo_kmalloc as Ean. rewrite E in Ean. destruct r as [addr|]; [|destruct Ean]. destruct Hr as [Ho _].
  exists addr, h', V', n. split; [exact E|]. split; [exact Hn|]. apply (proj2 (Ho _ _)). right. split; reflexivity.
Defined.

(** A pointer from the smallest bucket *)
Definition demo_alloc : kernel (mem pages) (option Z) :=
  addr <- slab_obj_alloc demo_bucket ;;
  match addr with None => kret None | Some addr => set_word addr demo_bucket ;;; kret (Some (u32 (addr + sizeof_word))) end.
Definition demo_ptr : Z := Eval vm_compute in match demo_alloc demo_slab with Done (Some x) _ => x | _ => 0 end.
Lemma demo_alloc_answer : answer (demo_alloc demo_slab) = Some (Some demo_ptr).
Proof. vm_compute. reflexivity. Qed.

Lemma demo_owned : exists h lent V n, answer (demo_alloc demo_slab) = Some (Some demo_ptr) /\ kinv h lent V /\ owned h V demo_ptr n.
Proof.
  destruct demo_kinv as (lent & V & I). destruct (kv_bucket _ _ _ I 0%nat demo_bucket demo_bucket_at) as (_ & a & Ha & Es).
  destruct (run_kmalloc_from demo_slab lent V demo_bucket a 0 I demo_bucket_at Ha Es) as (r & h' & E & lent' & V' & I' & _ & Hr).
  pose proof demo_alloc_answer as Ean. unfold demo_alloc in Ean. rewrite E in Ean. injection Ean as ->. destruct Hr as [Ho _].
  exists h', lent', V', (2 ^ (6 + Z.of_nat 0) - sizeof_word). split_and!; [apply demo_alloc_answer|done|]. apply (proj2 (Ho _ _)). right. split; reflexivity.
Qed.

Lemma kfree_spec_witness : exists h h' lent V', kfree demo_ptr h = Done tt h' /\ kinv h' lent V'.
Proof.
  destruct demo_owned as (h & lent & V & n & _ & I & Ho). destruct (kfree_spec h lent V demo_ptr n I Ho) as ([] & h' & E & V' & I' & _).
  exists h, h', lent, V'. split; [exact E|exact I'].
Defined.

(** ** What does not work as intended *)

(** [kmalloc] adds the word in front to the size without looking for overflow: a request
    for almost 4 GB is answered from the bucket of 64 bytes. *)
Example kmalloc_overflow : answer (kmalloc (2 ^ 32 - 1) demo_slab) = Some (Some demo_ptr).
Proof. vm_compute. reflexivity. Qed.

(** For objects of 2 GB and more the size of a slab, an [int], is negative, the search for
    a block ends at the first, and the allocator has slabs without objects. *)
Example huge_objects : exists h', calc_slab_size 8 (set_allocators (insert 8 (mk_allocator NULL [] (2 ^ 31) NULL 0 0)) demo_sizing) = Done tt h'
  /\ (sa_slab_nobjs <$> allocators h' !! 8) = Some 0.
Proof. eexists. split; vm_compute; reflexivity. Qed.

End SlabPages.
