(* ===== verification/PageTable.v ===== *)
(** * Page tables ([mm/pagetable.c])

    A page directory is two pages: [pd_physical], which the processor reads, and
    [pd_virtual], where the kernel finds the page tables.  Memory is a map from the kernel
    addresses of the pages that hold directories and page tables to their 1024 words; the
    kernel's memory is physical memory from [KERNEL_PHYS_BASE] on, so that a physical page
    is found at [to_virt].  Pages come from the page allocator, the class [PageSource]; a
    page that is allocated has some contents ([junk]), one that is freed is removed. *)

From S2P Require Import Prelude.
From S2P Require Import Slab.

Module PageTable.
Import Slab.

Local Open Scope Z_scope.
Local Open Scope kernel_scope.

Definition PAGE_SHIFT : Z := 12.
Definition PAGE_MASK : Z := 0xfffff000.
Definition PT_ENTRY_COUNT : Z := 1024.
Definition PT_VADDR_SIZE : Z := PAGE_SIZE * PT_ENTRY_COUNT.
Definition PT_PRESENT : Z := 0x001.
Definition PT_WRITE : Z := 0x002.
Definition USER_MEM_LOW : Z := 0x00400000.
Definition USER_MEM_HIGH : Z := 0xc0000000.
Definition UPTR_MAX : Z := 2 ^ 32 - 1.

Definition vaddr_to_pdindex (vaddr : Z) : Z := Z.shiftr (u32 vaddr) PAGE_SHIFT / PT_ENTRY_COUNT.
Definition vaddr_to_ptindex (vaddr : Z) : Z := Z.shiftr (u32 vaddr) PAGE_SHIFT mod PT_ENTRY_COUNT.
Definition vaddr_to_offset (vaddr : Z) : Z := Z.land (u32 vaddr) (u32 (Z.lnot PAGE_MASK)).
Definition PAGE_ALIGNED (x : Z) : bool := x mod PAGE_SIZE =? 0.
Definition present (e : Z) : bool := negb (Z.land PT_PRESENT e =? 0).

(** [kernel_start] of [link.ld], and where it is in physical memory *)
Definition kernel_start : Z := 0xc0000000.
Definition KERNEL_PHYS_BASE : Z := 0x100000.
Definition to_virt (paddr : Z) : Z := u32 (paddr - KERNEL_PHYS_BASE + kernel_start).

Record paging (P : Type) : Type := mk_paging {
  pt_pages : P;
  pt_mem : gmap Z (list Z);
  current_pagedir : Z;
  template_pagedir : Z;
  final_page : Z;
  phys_map_count : Z;
  cr3 : Z
}.
Arguments mk_paging {P}.
Arguments pt_pages {P}.
Arguments pt_mem {P}.
Arguments current_pagedir {P}.
Arguments template_pagedir {P}.
Arguments final_page {P}.
Arguments phys_map_count {P}.
Arguments cr3 {P}.

Section Paging.
Context {P : Type} `{PageSource P} (junk : Z).

Definition with_pages (p : P) (s : paging P) : paging P :=
  mk_paging p (pt_mem s) (current_pagedir s) (template_pagedir s) (final_page s) (phys_map_count s) (cr3 s).
Definition with_mem (m : gmap Z (list Z)) (s : paging P) : paging P :=
  mk_paging (pt_pages s) m (current_pagedir s) (template_pagedir s) (final_page s) (phys_map_count s) (cr3 s).
Definition with_current (pd c : Z) (s : paging P) : paging P :=
  mk_paging (pt_pages s) (pt_mem s) pd (template_pagedir s) (final_page s) (phys_map_count s) c.
Definition with_template (pd : Z) (s : paging P) : paging P :=
  mk_paging (pt_pages s) (pt_mem s) (current_pagedir s) pd (final_page s) (phys_map_count s) (cr3 s).
Definition with_map_count (c : Z) (s : paging P) : paging P :=
  mk_paging (pt_pages s) (pt_mem s) (current_pagedir s) (template_pagedir s) (final_page s) c (cr3 s).

(** ** Memory *)

Definition load_page (p : Z) : kernel (paging P) (list Z) := s <- kget ;; kderef (pt_mem s !! p).
Definition store_page (p : Z) (l : list Z) : kernel (paging P) unit := load_page p ;;; kmodify (fun s => with_mem (<[p := l]> (pt_mem s)) s).
(** [p[i]] and [p[i] = w] *)
Definition load (p i : Z) : kernel (paging P) Z := l <- load_page p ;; kderef (if i <? 0 then None else l !! Z.to_nat i).
Definition store (p i w : Z) : kernel (paging P) unit :=
  l <- load_page p ;;
  kassert ((0 <=? i) && (i <? Z.of_nat (length l))) ;;;
  store_page p (<[Z.to_nat i := w]> l).
(** [memset(&p[i], 0, n * sizeof(uint32_t))] *)
Definition clear (p i n : Z) : kernel (paging P) unit :=
  l <- load_page p ;;
  kassert ((0 <=? i) && (0 <=? n) && (i + n <=? Z.of_nat (length l))) ;;;
  store_page p (take (Z.to_nat i) l ++ replicate (Z.to_nat n) 0 ++ drop (Z.to_nat (i + n)) l).

Definition junk_page : list Z := replicate (Z.to_nat PT_ENTRY_COUNT) junk.
(** The pages of a block *)
Definition block (b n : Z) : list Z := (fun i => b + i * PAGE_SIZE) <$> seqZ 0 n.

Definition on_pages {A} (m : kernel P A) : kernel (paging P) A := fun s =>
  match m (pt_pages s) with
  | Done a p => Done a (with_pages p s)
  | Panic => Panic
  | NoFuel => NoFuel
  | Env _ _ _ => Panic
  end.
Definition page_alloc_n (n : Z) : kernel (paging P) (option Z) :=
  r <- on_pages (pg_alloc n) ;;
  match r with
  | None => kret None
  | Some b => kmodify (fun s => with_mem (foldr (fun p m => <[p := junk_page]> m) (pt_mem s) (block b n)) s) ;;; kret (Some b)
  end.
Definition page_free_n (b n : Z) : kernel (paging P) unit :=
  on_pages (pg_free b n) ;;;
  kmodify (fun s => with_mem (foldr delete (pt_mem s) (block b n)) s).

(** ** Temporary and permanent mappings of physical pages *)

Definition pt_phys_tmp_map (paddr : Z) : kernel (paging P) Z :=
  kassert (PAGE_ALIGNED paddr) ;;;
  s <- kget ;;
  store (final_page s) (PT_ENTRY_COUNT - 1) (Z.lor (Z.lor paddr PT_PRESENT) PT_WRITE) ;;;
  kret (UPTR_MAX - PAGE_SIZE + 1).
(** Reading through the address [pt_phys_tmp_map] returns: the last page of the address space, which the processor finds
    through the last entry of [final_page] *)
Definition load_tmp (i : Z) : kernel (paging P) Z :=
  s <- kget ;;
  e <- load (final_page s) (PT_ENTRY_COUNT - 1) ;;
  load (to_virt (Z.land e PAGE_MASK)) i.

Fixpoint perm_loop (count : nat) (i paddr map_count : Z) : kernel (paging P) unit :=
  match count with
  | O => kret tt
  | S count =>
      s <- kget ;;
      store (final_page s) (PT_ENTRY_COUNT - map_count + i) (Z.lor (Z.lor (u32 (paddr + PAGE_SIZE * i)) PT_PRESENT) PT_WRITE) ;;;
      perm_loop count (i + 1) paddr map_count
  end.
Definition pt_phys_perm_map (paddr count : Z) : kernel (paging P) Z :=
  kassert (PAGE_ALIGNED paddr) ;;;
  s <- kget ;;
  let map_count := u32 (phys_map_count s + count) in
  kmodify (with_map_count map_count) ;;;
  kassert (map_count <? PT_ENTRY_COUNT) ;;;
  perm_loop (Z.to_nat count) 0 paddr map_count ;;;
  kret (u32 (UPTR_MAX - PAGE_SIZE * map_count + 1)).

Definition pt_virt_to_phys (vaddr : Z) : kernel (paging P) Z :=
  let table := vaddr_to_pdindex vaddr in
  let entry := vaddr_to_ptindex vaddr in
  let offset := vaddr_to_offset vaddr in
  s <- kget ;;
  pde <- load (current_pagedir s) table ;;
  pt_phys_tmp_map (Z.land pde PAGE_MASK) ;;;
  pte <- load_tmp entry ;;
  kret (u32 (Z.land pte PAGE_MASK + offset)).

Definition pt_set (pd : Z) : kernel (paging P) unit :=
  pdir <- pt_virt_to_phys pd ;;
  kmodify (with_current pd pdir).
Definition pt_get : kernel (paging P) Z := s <- kget ;; kret (current_pagedir s).

(** ** Mapping and unmapping *)

(** [pd->pd_virtual] *)
Definition pd_virtual (pd : Z) : Z := pd + PAGE_SIZE.

(** The page table for an entry of the directory, which is made if there is none; [None] if there is no page for it *)
Definition get_table (pd index pdflags : Z) : kernel (paging P) (option Z) :=
  pde <- load pd index ;;
  if negb (present pde) then
    r <- page_alloc_n 1 ;;
    match r with
    | None => kret None
    | Some pt =>
        kassert (Z.land pdflags (u32 (Z.lnot PAGE_MASK)) =? pdflags) ;;;
        clear pt 0 PT_ENTRY_COUNT ;;;
        paddr <- pt_virt_to_phys pt ;;
        store pd index (Z.lor paddr pdflags) ;;;
        store (pd_virtual pd) index pt ;;;
        kret (Some pt)
    end
  else
    store pd index (Z.lor pde pdflags) ;;;
    pt <- load (pd_virtual pd) index ;;
    kret (Some pt).

Definition pt_map (pd vaddr paddr pdflags ptflags : Z) : kernel (paging P) Z :=
  kassert (PAGE_ALIGNED vaddr && PAGE_ALIGNED paddr) ;;;
  kassert ((USER_MEM_LOW <=? vaddr) && (vaddr <? USER_MEM_HIGH)) ;;;
  r <- get_table pd (vaddr_to_pdindex vaddr) pdflags ;;
  match r with
  | None => kret (- ENOMEM)
  | Some pt =>
      kassert (Z.land ptflags (u32 (Z.lnot PAGE_MASK)) =? ptflags) ;;;
      store pt (vaddr_to_ptindex vaddr) (Z.lor paddr ptflags) ;;;
      kret 0
  end.

Definition pt_unmap (pd vaddr : Z) : kernel (paging P) unit :=
  kassert (PAGE_ALIGNED vaddr) ;;;
  kassert ((USER_MEM_LOW <=? vaddr) && (vaddr <? USER_MEM_HIGH)) ;;;
  pde <- load pd (vaddr_to_pdindex vaddr) ;;
  if present pde then
    pt <- load (pd_virtual pd) (vaddr_to_pdindex vaddr) ;;
    store pt (vaddr_to_ptindex vaddr) 0
  else kret tt.

(** Clearing entries of the page table of [vaddr], if there is one *)
Definition clear_table (pd vaddr index n : Z) : kernel (paging P) unit :=
  pde <- load pd (vaddr_to_pdindex vaddr) ;;
  if present pde && negb (vaddr_to_ptindex vaddr =? 0) then
    pt <- load (pd_virtual pd) (vaddr_to_pdindex vaddr) ;;
    clear pt index n
  else kret tt.
(** Freeing [n] page tables, from the one of [i] on *)
Fixpoint free_tables (n : nat) (pd i : Z) : kernel (paging P) unit :=
  match n with
  | O => kret tt
  | S n =>
      pde <- load pd i ;;
      (if present pde then
         pt <- load (pd_virtual pd) i ;;
         page_free_n pt 1 ;;;
         store (pd_virtual pd) i 0 ;;;
         store pd i 0
       else kret tt) ;;;
      free_tables n pd (i + 1)
  end.
Definition pt_unmap_range (pd vlow vhigh : Z) : kernel (paging P) unit :=
  kassert (vlow <? vhigh) ;;;
  kassert (PAGE_ALIGNED vlow && PAGE_ALIGNED vhigh) ;;;
  kassert ((USER_MEM_LOW <=? vlow) && (vhigh <=? USER_MEM_HIGH)) ;;;
  let index := vaddr_to_ptindex vlow in
  clear_table pd vlow index (PT_ENTRY_COUNT - index) ;;;
  let vlow := u32 (vlow + PAGE_SIZE * ((PT_ENTRY_COUNT - index) mod PT_ENTRY_COUNT)) in
  let index := vaddr_to_ptindex vhigh in
  clear_table pd vhigh 0 index ;;;
  let vhigh := u32 (vhigh - PAGE_SIZE * index) in
  free_tables (Z.to_nat (vaddr_to_pdindex vhigh - vaddr_to_pdindex vlow)) pd (vaddr_to_pdindex vlow).

(** ** Directories *)

(** [memcpy] of a directory *)
Definition copy_pagedir (dst src : Z) : kernel (paging P) unit :=
  l <- load_page src ;;
  store_page dst l ;;;
  l <- load_page (pd_virtual src) ;;
  store_page (pd_virtual dst) l.

Definition pt_create_pagedir : kernel (paging P) (option Z) :=
  r <- page_alloc_n 2 ;;
  match r with
  | None => kret None
  | Some pdir =>
      s <- kget ;;
      copy_pagedir pdir (template_pagedir s) ;;;
      kret (Some pdir)
  end.

Fixpoint destroy_loop (n : nat) (pdir i : Z) : kernel (paging P) unit :=
  match n with
  | O => kret tt
  | S n =>
      pde <- load pdir i ;;
      (if present pde then pt <- load (pd_virtual pdir) i ;; page_free_n pt 1 else kret tt) ;;;
      destroy_loop n pdir (i + 1)
  end.
Definition pt_destroy_pagedir (pdir : Z) : kernel (paging P) unit :=
  kassert (PAGE_ALIGNED pdir) ;;;
  let begin_ := USER_MEM_LOW / PT_VADDR_SIZE in
  let end_ := (USER_MEM_HIGH - 1) / PT_VADDR_SIZE in
  kassert ((begin_ <? end_) && (0 <? begin_)) ;;;
  destroy_loop (Z.to_nat (end_ - begin_ + 1)) pdir begin_ ;;;
  page_free_n pdir 2.

(** The registration of the handler of page faults is left out. *)
Definition pt_template_init : kernel (paging P) unit :=
  s <- kget ;;
  pt <- load (pd_virtual (current_pagedir s)) 0 ;;
  clear pt 0 PT_ENTRY_COUNT ;;;
  r <- page_alloc_n 2 ;;
  match r with
  | None => kpanic
  | Some t =>
      kmodify (with_template t) ;;;
      s <- kget ;;
      copy_pagedir t (current_pagedir s)
  end.

End Paging.

End PageTable.
