(* ===== verification/PageTableInv.v ===== *)
(** * The invariant of page tables

    Which pages belong to which directory, that what the kernel and the processor read in
    a directory agree, and how changes of single pages of memory act on that. *)

From S2P Require Import Prelude.
From S2P Require Import SlabInv PageTable.

Module PageTableInv.
Import SlabInv PageTable.

Local Open Scope Z_scope.
Local Open Scope kernel_scope.

(** ** Indices and entries *)

Definition pdi (va : Z) : Z := va / 2 ^ 22.
Definition pti (va : Z) : Z := va / 2 ^ 12 mod 2 ^ 10.
Definition aligned (x : Z) : Prop := x mod 2 ^ 12 = 0.
Definition user_page (va : Z) : Prop := aligned va /\ USER_MEM_LOW <= va < USER_MEM_HIGH.
Definition to_phys (v : Z) : Z := v - kernel_start + KERNEL_PHYS_BASE.

Lemma pdindex_eq va : 0 <= va < 2 ^ 32 -> vaddr_to_pdindex va = pdi va.
Proof.
  intros Hv. unfold vaddr_to_pdindex, pdi, PAGE_SHIFT, PT_ENTRY_COUNT. rewrite u32_small, Z.shiftr_div_pow2, Z.div_div by lia. done.
Qed.
Lemma ptindex_eq va : 0 <= va < 2 ^ 32 -> vaddr_to_ptindex va = pti va.
Proof. intros Hv. unfold vaddr_to_ptindex, pti, PAGE_SHIFT, PT_ENTRY_COUNT. by rewrite u32_small, Z.shiftr_div_pow2 by lia. Qed.
Lemma aligned_PAGE x : PAGE_ALIGNED x = true <-> aligned x.
Proof. unfold PAGE_ALIGNED, aligned. apply Z.eqb_eq. Qed.
Lemma pti_range va : 0 <= pti va < 2 ^ 10.
Proof. apply Z.mod_pos_bound. lia. Qed.
(** A page is determined by its two indices. *)
Lemma page_split va : aligned va -> va = pdi va * 2 ^ 22 + pti va * 2 ^ 12.
Proof.
  unfold aligned, pdi, pti. intros Ha. pose proof (Z.div_mod va (2 ^ 12) ltac:(lia)) as E. pose proof (Z.div_mod (va / 2 ^ 12) (2 ^ 10) ltac:(lia)) as E'.
  rewrite Z.div_div in E' by lia. change (2 ^ 12 * 2 ^ 10) with (2 ^ 22) in E'. lia.
Qed.
Lemma user_slot va : USER_MEM_LOW <= va < USER_MEM_HIGH -> 1 <= pdi va < 768.
Proof. unfold USER_MEM_LOW, USER_MEM_HIGH, pdi. intros H. split; [apply Z.div_le_lower_bound; lia|apply Z.div_lt_upper_bound; lia]. Qed.

Lemma mask_flags a f : aligned a -> 0 <= a < 2 ^ 32 -> 0 <= f < 2 ^ 12 -> Z.land (Z.lor a f) PAGE_MASK = a.
Proof.
  intros Ha Hr Hf. apply Z.bits_inj'. intros i Hi. rewrite Z.land_spec, Z.lor_spec. change PAGE_MASK with (Z.shiftl (Z.ones 20) 12).
  assert (Ea : a = Z.shiftl (a / 2 ^ 12) 12) by (rewrite Z.shiftl_mul_pow2 by lia; unfold aligned in Ha; pose proof (Z.div_mod a (2 ^ 12)); lia).
  destruct (decide (i < 12)).
  - rewrite !Z.shiftl_spec_low by lia. rewrite andb_false_r. rewrite Ea. by rewrite Z.shiftl_spec_low by lia.
  - assert (Hfi : Z.testbit f i = false).
    { destruct (decide (f = 0)) as [->|]; [apply Z.bits_0|]. apply Z.bits_above_log2; [lia|]. apply Z.lt_le_trans with 12; [apply Z.log2_lt_pow2; lia|lia]. }
    rewrite Hfi, orb_false_r, Z.shiftl_spec by lia. destruct (decide (i < 32)).
    + rewrite Z.ones_spec_low by lia. apply andb_true_r.
    + rewrite Z.ones_spec_high, andb_false_r by lia. symmetry. destruct (decide (a = 0)) as [->|]; [apply Z.bits_0|].
      apply Z.bits_above_log2; [lia|]. apply Z.lt_le_trans with 32; [apply Z.log2_lt_pow2; lia|lia].
Qed.
Lemma mask_lor a f : 0 <= f < 2 ^ 12 -> Z.land (Z.lor a f) PAGE_MASK = Z.land a PAGE_MASK.
Proof.
  intros Hf. rewrite Z.land_lor_distr_l. assert (Z.land f PAGE_MASK = 0) as ->; [|apply Z.lor_0_r].
  change f with (Z.lor 0 f). by apply mask_flags.
Qed.
Lemma mask_aligned a : aligned (Z.land a PAGE_MASK).
Proof.
  unfold aligned. change PAGE_MASK with (Z.shiftl (Z.ones 20) 12). rewrite <- Z.land_ones by lia. rewrite <- Z.land_assoc.
  replace (Z.land (Z.shiftl (Z.ones 20) 12) (Z.ones 12)) with 0 by reflexivity. apply Z.land_0_r.
Qed.
Lemma mask_range a : 0 <= Z.land a PAGE_MASK < 2 ^ 32.
Proof.
  change PAGE_MASK with (Z.shiftl (Z.ones 20) 12). assert (E : Z.shiftl (Z.ones 20) 12 = Z.land (Z.shiftl (Z.ones 20) 12) (Z.ones 32)) by reflexivity.
  rewrite E, Z.land_assoc, Z.land_ones by lia. apply Z.mod_pos_bound. lia.
Qed.
Lemma flags_low f : (Z.land f (u32 (Z.lnot PAGE_MASK)) =? f) = true <-> 0 <= f < 2 ^ 12.
Proof.
  change (u32 (Z.lnot PAGE_MASK)) with (Z.ones 12). rewrite Z.eqb_eq, Z.land_ones by lia. split; [intros <-; apply Z.mod_pos_bound; lia|by apply Z.mod_small].
Qed.
Lemma present_lor a f : present a = true -> present (Z.lor a f) = true.
Proof.
  unfold present, PT_PRESENT. rewrite !negb_true_iff, !Z.eqb_neq. intros Ha E. apply Ha. rewrite Z.land_lor_distr_r in E. by apply Z.lor_eq_0_iff in E as [? _].
Qed.
Lemma present_flag a f : present f = true -> present (Z.lor a f) = true.
Proof. rewrite Z.lor_comm. apply present_lor. Qed.
Lemma to_virt_phys v : 0 <= v < 2 ^ 32 -> to_virt (to_phys v) = v.
Proof. intros Hv. unfold to_virt, to_phys. replace (v - kernel_start + KERNEL_PHYS_BASE - KERNEL_PHYS_BASE + kernel_start) with v by lia. by apply u32_small. Qed.

(** ** Memory *)

Definition entry (m : gmap Z (list Z)) (p i : Z) : option Z := l ← m !! p; l !! Z.to_nat i.
Definition whole (m : gmap Z (list Z)) (p : Z) : Prop := exists l, m !! p = Some l /\ length l = 1024%nat.

Lemma entry_same m m' p i : m' !! p = m !! p -> entry m' p i = entry m p i.
Proof. unfold entry. by intros ->. Qed.
Lemma whole_same m m' p : m' !! p = m !! p -> whole m p -> whole m' p.
Proof. unfold whole. by intros ->. Qed.
Lemma entry_whole m p i : whole m p -> 0 <= i < 1024 -> is_Some (entry m p i).
Proof. intros (l & Hl & Hlen) Hi. unfold entry. rewrite Hl. simpl. apply lookup_lt_is_Some. lia. Qed.
(** One entry of a page changed *)
Definition put (m : gmap Z (list Z)) (p i w : Z) : gmap Z (list Z) := alter (fun l => <[Z.to_nat i := w]> l) p m.
Lemma put_other m p i w q : p <> q -> put m p i w !! q = m !! q.
Proof. intros. by apply lookup_alter_ne. Qed.
Lemma put_whole m p i w q : whole m q -> whole (put m p i w) q.
Proof.
  intros (l & Hl & Hlen). unfold whole, put. destruct (decide (p = q)) as [->|]; [|rewrite lookup_alter_ne by done; eauto].
  rewrite lookup_alter_eq, Hl. eexists. split; [done|]. by rewrite length_insert.
Qed.
Lemma entry_put m p i w q j : whole m p -> 0 <= i < 1024 -> 0 <= j -> entry (put m p i w) q j = if decide (q = p /\ j = i) then Some w else entry m q j.
Proof.
  intros (l & Hl & Hlen) Hi Hj. unfold entry, put. destruct (decide (q = p /\ j = i)) as [[-> ->]|Hne].
  - rewrite lookup_alter_eq, Hl. simpl. apply list_lookup_insert_eq. lia.
  - destruct (decide (p = q)) as [->|]; [|by rewrite lookup_alter_ne by done]. rewrite lookup_alter_eq, Hl. simpl.
    apply list_lookup_insert_ne. intros E. apply Hne. split; [done|]. lia.
Qed.

(** ** What the processor finds *)

(** The page table entry for an address of user space *)
Definition walk (m : gmap Z (list Z)) (pd va : Z) : option Z :=
  pde ← entry m pd (pdi va);
  if present pde then
    pte ← entry m (to_virt (Z.land pde PAGE_MASK)) (pti va);
    if present pte then Some pte else None
  else None.

(** A directory, as the page tables of its entries for user space *)
Abbreviation tables := (gmap Z Z).
Definition mapped (m : gmap Z (list Z)) (T : tables) (va : Z) : option Z :=
  v ← T !! pdi va;
  pte ← entry m v (pti va);
  if present pte then Some pte else None.

Section Kernel.
(** The entries of every directory for the kernel's memory, and where the page allocator's memory lies; what the
    kernel set up when it started is below. *)
Context (kd : Z -> Z) (ram_lo ram_end : Z).

Definition slot_ok (m : gmap Z (list Z)) (pd : Z) (T : tables) (i : Z) : Prop :=
  match T !! i with
  | Some v => entry m (pd_virtual pd) i = Some v /\ exists e, entry m pd i = Some e /\ present e = true /\ Z.land e PAGE_MASK = to_phys v
  | None => exists e, entry m pd i = Some e /\ present e = false
  end.
Record dir_ok (m : gmap Z (list Z)) (pd : Z) (T : tables) : Prop := {
  do_phys : whole m pd;
  do_virt : whole m (pd_virtual pd);
  do_user : forall i, 1 <= i < 768 -> slot_ok m pd T i;
  do_kern : forall i, 768 <= i < 1024 -> entry m pd i = Some (kd i);
  do_dom : forall i v, T !! i = Some v -> 1 <= i < 768
}.

(** The blocks of pages the directories [V] own: two pages for each and one for each page table *)
Definition owner (V : gmap Z tables) (b n : Z) : Prop :=
  (n = 2 /\ is_Some (V !! b)) \/ (n = 1 /\ exists pd T i, V !! pd = Some T /\ T !! i = Some b).

(** [rest]: the blocks others own *)
Record mem_ok (m : gmap Z (list Z)) (fp : Z) (lent : gmap Z Z) (rest : Z -> Z -> Prop) (V : gmap Z tables) : Prop := {
  mo_ram : forall b n, lent !! b = Some n -> ram_lo <= b /\ b + n * PAGE_SIZE <= ram_end /\ aligned b;
  mo_apart : forall b n c k, lent !! b = Some n -> lent !! c = Some k -> b <> c -> b + n * PAGE_SIZE <= c \/ c + k * PAGE_SIZE <= b;
  mo_lent : forall b n, lent !! b = Some n <-> owner V b n \/ rest b n;
  mo_disj : forall b n k, owner V b n -> rest b k -> False;
  mo_dir : forall pd T, V !! pd = Some T -> dir_ok m pd T;
  mo_table : forall pd T i v, V !! pd = Some T -> T !! i = Some v -> whole m v;
  mo_inj : forall pd T i pd' T' i' v, V !! pd = Some T -> T !! i = Some v -> V !! pd' = Some T' -> T' !! i' = Some v -> pd = pd' /\ i = i';
  mo_final : whole m fp /\ fp < ram_lo;
  mo_range : kernel_start <= ram_lo /\ ram_end <= 0xffc00000;
  mo_kern : forall va, aligned va -> ram_lo <= va < ram_end -> let t := to_virt (Z.land (kd (pdi va)) PAGE_MASK) in
    t < ram_lo /\ t <> fp /\ exists e, entry m t (pti va) = Some e /\ Z.land e PAGE_MASK = to_phys va
}.

Lemma dir_ok_same m m' pd T : m' !! pd = m !! pd -> m' !! pd_virtual pd = m !! pd_virtual pd -> dir_ok m pd T -> dir_ok m' pd T.
Proof.
  intros E1 E2 [H1 H2 H3 H4 H5]. split; [by apply (whole_same m)|by apply (whole_same m)| |intros i Hi; rewrite (entry_same m) by done; by apply H4|done].
  intros i Hi. specialize (H3 i Hi). unfold slot_ok in *. destruct (T !! i) as [v|]; rewrite !(entry_same m m' pd) by done; [by rewrite (entry_same m m' (pd_virtual pd)) by done|done].
Qed.

Section Facts.
Context {m : gmap Z (list Z)} {fp : Z} {lent : gmap Z Z} {rest : Z -> Z -> Prop} {V : gmap Z tables} (M : mem_ok m fp lent rest V).

Lemma lent_dir pd T : V !! pd = Some T -> lent !! pd = Some 2.
Proof using M. intros HV. apply (mo_lent _ _ _ _ _ M). left. left. by rewrite HV. Qed.
Lemma lent_table pd T i v : V !! pd = Some T -> T !! i = Some v -> lent !! v = Some 1.
Proof using M. intros HV HT. apply (mo_lent _ _ _ _ _ M). left. right. split; [done|]. by exists pd, T, i. Qed.

(** Two pages of blocks that are lent are the same only if the blocks are. *)
Lemma lent_pages b n c k x y : lent !! b = Some n -> lent !! c = Some k -> b <= x < b + n * PAGE_SIZE -> c <= y < c + k * PAGE_SIZE -> b <> c -> x <> y.
Proof using M. intros Hb Hc Hx Hy Hne. destruct (mo_apart _ _ _ _ _ M _ _ _ _ Hb Hc Hne); lia. Qed.
Lemma dir_range pd T : V !! pd = Some T -> aligned pd /\ ram_lo <= pd /\ pd_virtual pd + PAGE_SIZE <= ram_end.
Proof using M. intros HV. destruct (mo_ram _ _ _ _ _ M _ _ (lent_dir _ _ HV)) as (? & ? & ?). unfold pd_virtual. split_and!; try done; lia. Qed.
Lemma table_range pd T i v : V !! pd = Some T -> T !! i = Some v -> aligned v /\ ram_lo <= v /\ v + PAGE_SIZE <= ram_end.
Proof using M. intros HV HT. destruct (mo_ram _ _ _ _ _ M _ _ (lent_table _ _ _ _ HV HT)) as (? & ? & ?). split_and!; try done; lia. Qed.

Lemma table_not_dir pd T i v pd' T' : V !! pd = Some T -> T !! i = Some v -> V !! pd' = Some T' -> v <> pd' /\ v <> pd_virtual pd'.
Proof using M.
  intros HV HT HV'. pose proof (lent_table _ _ _ _ HV HT) as H1. pose proof (lent_dir _ _ HV') as H2. assert (v <> pd') by congruence.
  split; [done|]. eapply lent_pages; [exact H1|exact H2| | |done]; unfold pd_virtual, PAGE_SIZE; lia.
Qed.
Lemma dir_not_dir pd T pd' T' : V !! pd = Some T -> V !! pd' = Some T' -> pd <> pd' -> pd <> pd_virtual pd' /\ pd_virtual pd <> pd_virtual pd'.
Proof using M.
  intros HV HV' Hne. pose proof (lent_dir _ _ HV) as H1. pose proof (lent_dir _ _ HV') as H2.
  split; (eapply lent_pages; [exact H1|exact H2| | |done]; unfold pd_virtual, PAGE_SIZE; lia).
Qed.

(** What the processor finds is what the page tables say. *)
Lemma walk_mapped pd T va : V !! pd = Some T -> USER_MEM_LOW <= va < USER_MEM_HIGH -> walk m pd va = mapped m T va.
Proof using M.
  intros HV Hva. pose proof (do_user _ _ _ (mo_dir _ _ _ _ _ M _ _ HV) _ (user_slot va Hva)) as HS. unfold slot_ok in HS. unfold walk, mapped.
  destruct (T !! pdi va) as [v|] eqn:HT.
  - destruct HS as (_ & e & -> & He & Em). cbn [mbind option_bind]. rewrite He, Em, to_virt_phys; [done|].
    destruct (table_range _ _ _ _ HV HT) as (_ & ? & ?). destruct (mo_range _ _ _ _ _ M). unfold kernel_start, PAGE_SIZE in *. lia.
  - destruct HS as (e & -> & He). cbn [mbind option_bind]. by rewrite He.
Qed.
End Facts.

(** ** Changes of memory *)

(** The last page of the kernel's address space *)
Lemma mem_ok_final m fp lent rest V i w : mem_ok m fp lent rest V -> mem_ok (put m fp i w) fp lent rest V.
Proof.
  intros M. pose proof M as [Hr Ha Hl Hd HD HT HI [Hf Hf'] Hk Hkern]. split; try done.
  - intros pd T HV. destruct (dir_range M _ _ HV) as (_ & H1 & H2). unfold pd_virtual, PAGE_SIZE in *. apply (dir_ok_same m); [apply put_other; lia|apply put_other; unfold pd_virtual, PAGE_SIZE; lia|by apply HD].
  - intros pd T j v HV Hv. apply put_whole. by eapply HT.
  - split; [by apply put_whole|done].
  - intros va Hva Hvr. destruct (Hkern va Hva Hvr) as (H1 & H2 & e & H3). split_and!; try done. exists e. by rewrite (entry_same m) by (apply put_other; congruence).
Qed.

(** One page table *)
Lemma mem_ok_table m m' fp lent rest V pd T i v : mem_ok m fp lent rest V -> V !! pd = Some T -> T !! i = Some v ->
  (forall p, p <> v -> m' !! p = m !! p) -> whole m' v -> mem_ok m' fp lent rest V.
Proof.
  intros M HV HTv Hm Hw. pose proof M as [Hr Ha Hl Hd HD HT HI [Hf Hf'] Hk Hkern]. destruct (table_range M _ _ _ _ HV HTv) as (_ & Hv & _). split; try done.
  - intros pd' T' HV'. destruct (table_not_dir M _ _ _ _ _ _ HV HTv HV') as [? ?]. apply (dir_ok_same m); [apply Hm; congruence|apply Hm; congruence|by apply HD].
  - intros pd' T' j v' HV' Hv'. destruct (decide (v' = v)) as [->|]; [done|]. apply (whole_same m); [by apply Hm|by eapply HT].
  - split; [|done]. apply (whole_same m); [apply Hm; lia|done].
  - intros va Hva Hvr. destruct (Hkern va Hva Hvr) as (H1 & H2 & e & H3). split_and!; try done. exists e. by rewrite (entry_same m) by (apply Hm; lia).
Qed.

(** The two pages of a directory, when its page tables stay *)
Lemma mem_ok_dir m m' fp lent rest V pd T : mem_ok m fp lent rest V -> V !! pd = Some T ->
  (forall p, p <> pd -> p <> pd_virtual pd -> m' !! p = m !! p) -> dir_ok m' pd T -> mem_ok m' fp lent rest V.
Proof.
  intros M HV Hm Hok. pose proof M as [Hr Ha Hl Hd HD HT HI [Hf Hf'] Hk Hkern]. destruct (dir_range M _ _ HV) as (_ & Hv & _). split; try done.
  - intros pd' T' HV'. destruct (decide (pd' = pd)) as [->|Hne]; [by replace T' with T by congruence|].
    destruct (dir_not_dir M _ _ _ _ HV HV' ltac:(done)) as [? ?]. destruct (dir_not_dir M _ _ _ _ HV' HV Hne) as [? ?].
    apply (dir_ok_same m); [by apply Hm|apply Hm; congruence|by apply HD].
  - intros pd' T' j v' HV' Hv'. destruct (table_not_dir M _ _ _ _ _ _ HV' Hv' HV). apply (whole_same m); [by apply Hm|by eapply HT].
  - split; [|done]. apply (whole_same m); [|done]. apply Hm; unfold pd_virtual, PAGE_SIZE; lia.
  - intros va Hva Hvr. destruct (Hkern va Hva Hvr) as (H1 & H2 & e & H3). split_and!; try done. exists e. rewrite (entry_same m); [done|].
    apply Hm; unfold pd_virtual, PAGE_SIZE; lia.
Qed.

(** A block is lent: its pages are new. *)
Lemma mem_ok_alloc m m' fp lent rest V b n : mem_ok m fp lent rest V -> lent !! b = None -> 0 < n ->
  (forall c k, <[b := n]> lent !! c = Some k -> ram_lo <= c /\ c + k * PAGE_SIZE <= ram_end /\ aligned c) ->
  (forall c k d l, <[b := n]> lent !! c = Some k -> <[b := n]> lent !! d = Some l -> c <> d -> c + k * PAGE_SIZE <= d \/ d + l * PAGE_SIZE <= c) ->
  (forall p, ~ b <= p < b + n * PAGE_SIZE -> m' !! p = m !! p) ->
  mem_ok m' fp (<[b := n]> lent) (fun c k => rest c k \/ (c = b /\ k = n)) V.
Proof.
  intros M Hb Hn Hr' Ha' Hm. pose proof M as [Hr Ha Hl Hd HD HT HI [Hf Hf'] Hk Hkern]. destruct (Hr' b n (lookup_insert_eq _ _ _)) as (Hb1 & _ & _).
  assert (Hout : forall c k x, lent !! c = Some k -> c <= x < c + k * PAGE_SIZE -> ~ b <= x < b + n * PAGE_SIZE).
  { intros c k x Hc Hx Hbx. assert (c <> b) by congruence. destruct (Ha' c k b n) as [?|?]; [by rewrite lookup_insert_ne|apply lookup_insert_eq|done|lia|lia]. }
  split; try done.
  - intros c k. destruct (decide (c = b)) as [->|Hne].
    + rewrite lookup_insert_eq. split; [intros [= <-]; right; by right|]. intros [Ho|[Hrest|[_ ->]]]; [|exfalso; assert (lent !! b = Some k) by (apply Hl; by right); congruence|done].
      exfalso. assert (lent !! b = Some k) by (apply Hl; by left). congruence.
    + rewrite lookup_insert_ne by done. rewrite Hl. split; [intros [?|?]; [by left|right; by left]|]. intros [?|[?|[-> _]]]; [by left|by right|done].
  - intros c k l Ho [Hrest|[-> ->]]; [by eapply Hd|]. assert (lent !! b = Some k) by (apply Hl; by left). congruence.
  - intros pd T HV. pose proof (lent_dir M _ _ HV) as Hpd. apply (dir_ok_same m); [| |by apply HD]; apply Hm; (eapply Hout; [exact Hpd|unfold pd_virtual, PAGE_SIZE; lia]).
  - intros pd T i v HV Hv. apply (whole_same m); [|by eapply HT]. apply Hm. eapply Hout; [by eapply lent_table|unfold PAGE_SIZE; lia].
  - split; [|done]. apply (whole_same m); [apply Hm; lia|done].
  - intros va Hva Hvr. destruct (Hkern va Hva Hvr) as (H1 & H2 & e & H3). split_and!; try done. exists e. rewrite (entry_same m); [done|apply Hm; lia].
Qed.

(** The pages of a block no directory owns *)
Lemma mem_ok_unowned m m' fp lent rest V b n : mem_ok m fp lent rest V -> rest b n -> (forall p, ~ b <= p < b + n * PAGE_SIZE -> m' !! p = m !! p) ->
  mem_ok m' fp lent rest V.
Proof.
  intros M Hb Hm. pose proof M as [Hr Ha Hl Hd HD HT HI [Hf Hf'] Hk Hkern]. assert (Hlb : lent !! b = Some n) by (apply Hl; by right). destruct (Hr _ _ Hlb) as (Hb1 & _ & _).
  assert (Hout : forall c k x, owner V c k -> c <= x < c + k * PAGE_SIZE -> ~ b <= x < b + n * PAGE_SIZE).
  { intros c k x Ho Hx Hbx. eapply (lent_pages M c k b n x x); [apply Hl; by left|done|done|done|intros ->; by eapply Hd|done]. }
  split; try done.
  - intros pd T HV. assert (Ho : owner V pd 2) by (left; by rewrite HV). apply (dir_ok_same m); [| |by apply HD]; apply Hm; (eapply Hout; [exact Ho|unfold pd_virtual, PAGE_SIZE; lia]).
  - intros pd T i v HV Hv. apply (whole_same m); [|by eapply HT]. apply Hm. eapply Hout; [right; split; [done|by exists pd, T, i]|unfold PAGE_SIZE; lia].
  - split; [|done]. apply (whole_same m); [apply Hm; lia|done].
  - intros va Hva Hvr. destruct (Hkern va Hva Hvr) as (H1 & H2 & e & H3). split_and!; try done. exists e. rewrite (entry_same m); [done|apply Hm; lia].
Qed.

(** A block no directory owns is given back. *)
Lemma mem_ok_free m m' fp lent rest V b n : mem_ok m fp lent rest V -> rest b n -> (forall p, ~ b <= p < b + n * PAGE_SIZE -> m' !! p = m !! p) ->
  mem_ok m' fp (delete b lent) (fun c k => rest c k /\ c <> b) V.
Proof.
  intros M Hb Hm. pose proof (mem_ok_unowned _ _ _ _ _ _ _ _ M Hb Hm) as [Hr Ha Hl Hd HD HT HI Hf Hk Hkern].
  assert (Hno : forall c k, owner V c k -> c <> b) by (intros c k Ho ->; by eapply Hd). split; try done.
  - intros c k [_ Hc]%lookup_delete_Some. by apply Hr.
  - intros c k d l [_ Hc]%lookup_delete_Some [_ Hd']%lookup_delete_Some. by apply Ha.
  - intros c k. rewrite lookup_delete_Some, Hl. split; [intros [? [?|?]]; [by left|by right]|]. intros [Ho|[? ?]]; [split; [apply not_eq_sym; by eapply Hno|by left]|split; [congruence|by right]].
  - intros c k l Ho [? _]. by eapply Hd.
Qed.

(** An entry of a directory is changed. *)
Lemma dir_ok_set m m' pd T T' i : dir_ok m pd T -> 1 <= i < 768 -> (forall j, j <> i -> T' !! j = T !! j) -> whole m' pd -> whole m' (pd_virtual pd) ->
  (forall j, 0 <= j -> j <> i -> entry m' pd j = entry m pd j /\ entry m' (pd_virtual pd) j = entry m (pd_virtual pd) j) -> slot_ok m' pd T' i -> dir_ok m' pd T'.
Proof.
  intros [H1 H2 H3 H4 H5] Hi HT W1 W2 He Hs. split; try done.
  - intros j Hj. destruct (decide (j = i)) as [->|Hne]; [done|]. specialize (H3 j Hj). unfold slot_ok in *. rewrite HT by done. destruct (He j ltac:(lia) Hne) as [-> ->]. done.
  - intros j Hj. destruct (He j ltac:(lia) ltac:(lia)) as [-> _]. by apply H4.
  - intros j v Hv. destruct (decide (j = i)) as [->|Hne]; [done|]. rewrite HT in Hv by done. by eapply H5.
Qed.

(** A page that is lent becomes a page table of a directory. *)
Lemma mem_ok_link m m' fp lent rest V pd T i b : mem_ok m fp lent rest V -> V !! pd = Some T -> T !! i = None -> rest b 1 -> whole m b ->
  (forall p, p <> pd -> p <> pd_virtual pd -> m' !! p = m !! p) -> dir_ok m' pd (<[i := b]> T) ->
  mem_ok m' fp lent (fun c k => rest c k /\ c <> b) (<[pd := <[i := b]> T]> V).
Proof.
  intros M HV HTi Hb Hw Hm Hok. pose proof M as [Hr Ha Hl Hd HD HT HI [Hf Hf'] Hk Hkern]. destruct (dir_range M _ _ HV) as (_ & Hv & _).
  assert (Hlb : lent !! b = Some 1) by (apply Hl; by right). assert (Hno : forall c k, owner V c k -> c <> b) by (intros c k Ho ->; by eapply Hd).
  assert (Hlook : forall pd' T' j v, <[pd := <[i := b]> T]> V !! pd' = Some T' -> T' !! j = Some v -> (pd' = pd /\ j = i /\ v = b) \/ (exists T0, V !! pd' = Some T0 /\ T0 !! j = Some v)).
  { intros pd' T' j v [[<- <-]|[? HV']]%lookup_insert_Some HT'; [|right; by exists T']. apply lookup_insert_Some in HT' as [[<- <-]|[? ?]]; [by left|right; by exists T]. }
  assert (Ho : forall c k, owner (<[pd := <[i := b]> T]> V) c k <-> owner V c k \/ (c = b /\ k = 1)).
  { intros c k. unfold owner. rewrite lookup_insert_is_Some. split.
    - intros [[-> [<-|[_ ?]]]|(-> & pd' & T' & j & HV' & HT')]; [left; left; by rewrite HV|left; by left|].
      destruct (Hlook _ _ _ _ HV' HT') as [(_ & _ & ->)|(T0 & ? & ?)]; [by right|left; right; split; [done|by exists pd', T0, j]].
    - intros [[[-> ?]|(-> & pd' & T' & j & HV' & HT')]|[-> ->]].
      + left. split; [done|]. destruct (decide (pd = c)); [by left|by right].
      + right. split; [done|]. destruct (decide (pd' = pd)) as [->|]; [|exists pd', T', j; by rewrite lookup_insert_ne].
        exists pd, (<[i := b]> T), j. rewrite lookup_insert_eq. split; [done|]. assert (T' = T) as -> by congruence. rewrite lookup_insert_ne; [done|congruence].
      + right. split; [done|]. exists pd, (<[i := b]> T), i. by rewrite !lookup_insert_eq. }
  assert (Hbp : b <> pd /\ b <> pd_virtual pd).
  { pose proof (lent_dir M _ _ HV) as Hlp. assert (b <> pd) by congruence. split; [done|]. eapply (lent_pages M b 1 pd 2); try done; unfold pd_virtual, PAGE_SIZE; lia. }
  split; try done.
  - intros c k. rewrite Hl, Ho. split; [intros [?|?]; [left; by left|]|intros [[?|[-> ->]]|[? _]]; [by left|by right|by right]].
    destruct (decide (c = b)) as [->|]; [|by right]. left. right. split; [done|]. assert (lent !! b = Some k) by (apply Hl; by right). congruence.
  - intros c k l [?|[-> ->]]%Ho [? ?]; [by eapply Hd|done].
  - intros pd' T' [[<- <-]|[Hne HV']]%lookup_insert_Some; [done|]. destruct (dir_not_dir M _ _ _ _ HV HV' Hne) as [? ?]. destruct (dir_not_dir M _ _ _ _ HV' HV ltac:(done)) as [? ?].
    apply (dir_ok_same m); [apply Hm; congruence|apply Hm; congruence|by apply HD].
  - intros pd' T' j v HV' HT'. destruct (Hlook _ _ _ _ HV' HT') as [(-> & -> & ->)|(T0 & HV0 & HT0)].
    + apply (whole_same m); [apply Hm; apply Hbp|done].
    + destruct (table_not_dir M _ _ _ _ _ _ HV0 HT0 HV). apply (whole_same m); [by apply Hm|by eapply HT].
  - intros pd1 T1 i1 pd2 T2 i2 v HV1 HT1 HV2 HT2.
    destruct (Hlook _ _ _ _ HV1 HT1) as [(-> & -> & ->)|(T10 & HV10 & HT10)], (Hlook _ _ _ _ HV2 HT2) as [(-> & -> & E)|(T20 & HV20 & HT20)]; [done| | |].
    + exfalso. eapply (Hno b 1); [right; split; [done|by exists pd2, T20, i2]|done].
    + subst v. exfalso. eapply (Hno b 1); [right; split; [done|by exists pd1, T10, i1]|done].
    + by eapply HI.
  - split; [|done]. apply (whole_same m); [|done]. apply Hm; unfold pd_virtual, PAGE_SIZE; lia.
  - intros va Hva Hvr. destruct (Hkern va Hva Hvr) as (H1 & H2 & e & H3). split_and!; try done. exists e. rewrite (entry_same m); [done|].
    apply Hm; unfold pd_virtual, PAGE_SIZE; lia.
Qed.

(** A page table leaves its directory. *)
Lemma mem_ok_unlink m m' fp lent rest V pd T i v : mem_ok m fp lent rest V -> V !! pd = Some T -> T !! i = Some v ->
  (forall p, p <> pd -> p <> pd_virtual pd -> m' !! p = m !! p) -> dir_ok m' pd (delete i T) ->
  mem_ok m' fp lent (fun c k => rest c k \/ (c = v /\ k = 1)) (<[pd := delete i T]> V).
Proof.
  intros M HV HTi Hm Hok. pose proof M as [Hr Ha Hl Hd HD HT HI [Hf Hf'] Hk Hkern]. destruct (dir_range M _ _ HV) as (_ & Hv & _).
  assert (Hlv : lent !! v = Some 1) by (by eapply lent_table).
  assert (Hlook : forall pd' T' j w, <[pd := delete i T]> V !! pd' = Some T' -> T' !! j = Some w -> ((pd' = pd /\ j <> i) \/ pd' <> pd) /\ exists T0, V !! pd' = Some T0 /\ T0 !! j = Some w).
  { intros pd' T' j w [[<- <-]|[? HV']]%lookup_insert_Some HT'; [|split; [by right|by exists T']]. apply lookup_delete_Some in HT' as [? ?]. split; [by left|by exists T]. }
  assert (Hnot : forall pd' T' j, <[pd := delete i T]> V !! pd' = Some T' -> T' !! j = Some v -> False).
  { intros pd' T' j HV' HT'. destruct (Hlook _ _ _ _ HV' HT') as [Hne (T0 & HV0 & HT0)]. destruct (HI _ _ _ _ _ _ _ HV HTi HV0 HT0) as [-> ->]. by destruct Hne as [[_ ?]|?]. }
  assert (Ho : forall c k, owner V c k <-> owner (<[pd := delete i T]> V) c k \/ (c = v /\ k = 1)).
  { intros c k. unfold owner. rewrite lookup_insert_is_Some. split.
    - intros [[-> ?]|(-> & pd' & T' & j & HV' & HT')]; [left; left; split; [done|]; destruct (decide (pd = c)); [by left|by right]|].
      destruct (decide (pd' = pd /\ j = i)) as [[-> ->]|Hne]; [right; split; [congruence|done]|]. left. right. split; [done|].
      destruct (decide (pd' = pd)) as [->|]; [|exists pd', T', j; by rewrite lookup_insert_ne]. assert (T' = T) as -> by congruence.
      exists pd, (delete i T), j. rewrite lookup_insert_eq, lookup_delete_ne; [done|]. intros ->. by apply Hne.
    - intros [[[-> [<-|[_ ?]]]|(-> & pd' & T' & j & HV' & HT')]|[-> ->]]; [left; by rewrite HV|by left| |right; split; [done|by exists pd, T, i]].
      destruct (Hlook _ _ _ _ HV' HT') as [_ (T0 & ? & ?)]. right. split; [done|by exists pd', T0, j]. }
  split; try done.
  - intros c k. rewrite Hl, Ho. split; [intros [[?|?]|?]; [by left|right; by right|right; by left]|intros [?|[?|?]]; [left; by left|by right|left; by right]].
  - intros c k l Hc [?|[-> ->]]; [eapply Hd; [apply Ho; by left|done]|]. unfold owner in Hc. rewrite lookup_insert_is_Some in Hc.
    destruct Hc as [[-> [<-|[_ [T0 HV0]]]]|(-> & pd' & T' & j & HV' & HT')]; [| |by eapply Hnot].
    + pose proof (lent_dir M _ _ HV). congruence.
    + pose proof (lent_dir M _ _ HV0). congruence.
  - intros pd' T' [[<- <-]|[Hne HV']]%lookup_insert_Some; [done|]. destruct (dir_not_dir M _ _ _ _ HV HV' Hne) as [? ?]. destruct (dir_not_dir M _ _ _ _ HV' HV ltac:(done)) as [? ?].
    apply (dir_ok_same m); [apply Hm; congruence|apply Hm; congruence|by apply HD].
  - intros pd' T' j w HV' HT'. destruct (Hlook _ _ _ _ HV' HT') as [_ (T0 & HV0 & HT0)]. destruct (table_not_dir M _ _ _ _ _ _ HV0 HT0 HV). apply (whole_same m); [by apply Hm|by eapply HT].
  - intros pd1 T1 i1 pd2 T2 i2 w HV1 HT1 HV2 HT2. destruct (Hlook _ _ _ _ HV1 HT1) as [_ (T10 & HV10 & HT10)], (Hlook _ _ _ _ HV2 HT2) as [_ (T20 & HV20 & HT20)]. by eapply HI.
  - split; [|done]. apply (whole_same m); [|done]. apply Hm; unfold pd_virtual, PAGE_SIZE; lia.
  - intros va Hva Hvr. destruct (Hkern va Hva Hvr) as (H1 & H2 & e & H3). split_and!; try done. exists e. rewrite (entry_same m); [done|].
    apply Hm; unfold pd_virtual, PAGE_SIZE; lia.
Qed.

(** Two pages that are lent become a directory without page tables. *)
Lemma mem_ok_create m fp lent rest V pd : mem_ok m fp lent rest V -> V !! pd = None -> rest pd 2 -> dir_ok m pd ∅ ->
  mem_ok m fp lent (fun c k => rest c k /\ c <> pd) (<[pd := ∅]> V).
Proof.
  intros M HV Hb Hok. pose proof M as [Hr Ha Hl Hd HD HT HI Hf Hk Hkern]. assert (Hlb : lent !! pd = Some 2) by (apply Hl; by right).
  assert (Hlook : forall pd' T' j w, <[pd := ∅]> V !! pd' = Some T' -> T' !! j = Some w -> V !! pd' = Some T').
  { by intros pd' T' j w [[<- <-]|[? HV']]%lookup_insert_Some HT'; [rewrite lookup_empty in HT'|]. }
  assert (Ho : forall c k, owner (<[pd := ∅]> V) c k <-> owner V c k \/ (c = pd /\ k = 2)).
  { intros c k. unfold owner. rewrite lookup_insert_is_Some. split.
    - intros [[-> [<-|[_ ?]]]|(-> & pd' & T' & j & HV' & HT')]; [by right|left; by left|left; right; split; [done|exists pd', T', j; eauto]].
    - intros [[[-> ?]|(-> & pd' & T' & j & HV' & HT')]|[-> ->]]; [left; split; [done|]; destruct (decide (pd = c)); [by left|by right]| |left; split; [done|by left]].
      right. split; [done|]. exists pd', T', j. rewrite lookup_insert_ne by congruence. done. }
  split; try done.
  - intros c k. rewrite Hl, Ho. split; [intros [?|?]; [left; by left|]|intros [[?|[-> ->]]|[? _]]; [by left|by right|by right]].
    destruct (decide (c = pd)) as [->|]; [|by right]. left. right. split; [done|]. assert (lent !! pd = Some k) by (apply Hl; by right). congruence.
  - intros c k l [?|[-> ->]]%Ho [? ?]; [by eapply Hd|done].
  - intros pd' T' [[<- <-]|[Hne HV']]%lookup_insert_Some; [done|by apply HD].
  - intros pd' T' j w HV' HT'. eapply HT; [by eapply Hlook|done].
  - intros pd1 T1 i1 pd2 T2 i2 w HV1 HT1 HV2 HT2. eapply HI; [by eapply Hlook|done|by eapply Hlook|done].
Qed.

(** A directory that is being destroyed: its pages belong to nobody. *)
Lemma mem_ok_forget m fp lent rest V pd T : mem_ok m fp lent rest V -> V !! pd = Some T ->
  mem_ok m fp lent (fun c k => rest c k \/ owner {[pd := T]} c k) (delete pd V).
Proof.
  intros M HV. pose proof M as [Hr Ha Hl Hd HD HT HI Hf Hk Hkern].
  assert (Ho : forall c k, owner V c k <-> owner (delete pd V) c k \/ owner {[pd := T]} c k).
  { intros c k. unfold owner. split.
    - intros [[-> ?]|(-> & pd' & T' & j & HV' & HT')].
      + destruct (decide (pd = c)) as [->|]; [right; left; by rewrite lookup_singleton_eq|left; left; by rewrite lookup_delete_ne].
      + destruct (decide (pd = pd')) as [->|]; [right|left; right; split; [done|exists pd', T', j; by rewrite lookup_delete_ne]].
        right. split; [done|]. exists pd', T', j. rewrite lookup_singleton_eq. split; [congruence|done].
    - intros [[[-> [? [_ ?]%lookup_delete_Some]]|(-> & pd' & T' & j & [_ HV']%lookup_delete_Some & HT')]|[[-> [? [<- _]%lookup_singleton_Some]]|(-> & pd' & T' & j & [<- <-]%lookup_singleton_Some & HT')]].
      + left. by split; [|eexists]. + right. split; [done|by exists pd', T', j]. + left. by rewrite HV. + right. split; [done|by exists pd, T, j]. }
  split; try done.
  - intros c k. rewrite Hl, Ho. tauto.
  - intros c k l Hc [?|Hl']; [eapply Hd; [apply Ho; by left|done]|].
    destruct Hc as [[-> [T1 [Hne1 HV1]%lookup_delete_Some]]|(-> & pd' & T' & j & [Hne1 HV']%lookup_delete_Some & HT')];
      destruct Hl' as [[-> [T2 [<- _]%lookup_singleton_Some]]|(-> & pd2 & T2 & j2 & [<- <-]%lookup_singleton_Some & HT2)]; [done| | |].
    + pose proof (lent_dir M _ _ HV1). pose proof (lent_table M _ _ _ _ HV HT2). congruence.
    + pose proof (lent_dir M _ _ HV). pose proof (lent_table M _ _ _ _ HV' HT'). congruence.
    + destruct (HI _ _ _ _ _ _ _ HV HT2 HV' HT') as [? _]. done.
  - intros pd' T' [_ HV']%lookup_delete_Some. by apply HD.
  - intros pd' T' j w [_ HV']%lookup_delete_Some. by eapply HT.
  - intros pd1 T1 i1 pd2 T2 i2 w [_ HV1]%lookup_delete_Some HT1 [_ HV2]%lookup_delete_Some HT2. by eapply HI.
Qed.

Lemma mem_ok_rest m fp lent rest rest' V : (forall b n, rest b n <-> rest' b n) -> mem_ok m fp lent rest V -> mem_ok m fp lent rest' V.
Proof. intros Hr [H1 H2 H3 H4 H5 H6 H7 H8 H9 H10]. split; try done; [intros b n; by rewrite H3, Hr|intros b n k Ho Hk; eapply H4; [done|by apply Hr]]. Qed.

End Kernel.

End PageTableInv.
