(* ===== verification/PageTableSpec.v ===== *)
(** * What [mm/pagetable.c] guarantees

    The operations on page directories over a page allocator that obeys [PageLaws]. *)

From S2P Require Import Prelude.
From S2P Require Import SlabInv PageTable PageTableInv.

Module PageTableSpec.
Import SlabInv PageTable PageTableInv.

Local Open Scope Z_scope.
Local Open Scope kernel_scope.

(** ** Reading and writing pages *)

Section Memory.
Context {P : Type}.
Implicit Types s : paging P.

Lemma load_eq s p i w : entry (pt_mem s) p i = Some w -> 0 <= i -> load p i s = Done w s.
Proof.
  unfold entry. intros E Hi. unfold load, load_page, kbind, kget, kderef. simpl. destruct (pt_mem s !! p) as [l|]; [|done]. simpl in *.
  rewrite (proj2 (Z.ltb_ge i 0) Hi). by rewrite E.
Qed.
Lemma load_page_eq s p l : pt_mem s !! p = Some l -> load_page p s = Done l s.
Proof. intros E. unfold load_page, kbind, kget, kderef. simpl. by rewrite E. Qed.
Lemma store_page_eq s p l : is_Some (pt_mem s !! p) -> store_page p l s = Done tt (with_mem (<[p := l]> (pt_mem s)) s).
Proof. intros [l' E]. unfold store_page. by rewrite (kbind_done _ _ _ _ _ (load_page_eq s p l' E)). Qed.

Lemma store_eq s p i w : whole (pt_mem s) p -> 0 <= i < 1024 -> store p i w s = Done tt (with_mem (put (pt_mem s) p i w) s).
Proof.
  intros (l & Hl & Hlen) Hi. unfold store. rewrite (kbind_done _ _ _ _ _ (load_page_eq s p l Hl)).
  rewrite (kbind_done _ _ s tt s) by (apply kassert_true; rewrite !andb_true_iff, ?Z.leb_le, ?Z.ltb_lt; lia). rewrite store_page_eq by (by rewrite Hl). do 2 f_equal. unfold put. apply map_eq. intros q.
  destruct (decide (p = q)) as [->|]; [by rewrite lookup_insert_eq, lookup_alter_eq, Hl|by rewrite lookup_insert_ne, lookup_alter_ne by done].
Qed.

(** [n] entries of a page cleared *)
Definition fill (m : gmap Z (list Z)) (p i n : Z) : gmap Z (list Z) :=
  alter (fun l => take (Z.to_nat i) l ++ replicate (Z.to_nat n) 0 ++ drop (Z.to_nat (i + n)) l) p m.
Lemma fill_other m p i n q : p <> q -> fill m p i n !! q = m !! q.
Proof. intros. by apply lookup_alter_ne. Qed.
Lemma fill_whole m p i n q : 0 <= i -> 0 <= n -> i + n <= 1024 -> whole m q -> whole (fill m p i n) q.
Proof.
  intros Hi Hn Hin (l & Hl & Hlen). unfold whole, fill. destruct (decide (p = q)) as [->|]; [|rewrite lookup_alter_ne by done; eauto].
  rewrite lookup_alter_eq, Hl. eexists. split; [done|]. rewrite !length_app, length_take, length_replicate, length_drop. lia.
Qed.
Lemma entry_fill m p i n q j : whole m p -> 0 <= i -> 0 <= n -> i + n <= 1024 -> 0 <= j ->
  entry (fill m p i n) q j = if decide (q = p /\ i <= j < i + n) then Some 0 else entry m q j.
Proof.
  intros (l & Hl & Hlen) Hi Hn Hin Hj. unfold entry, fill. destruct (decide (p = q)) as [->|]; [|rewrite lookup_alter_ne, decide_False by naive_solver; done].
  rewrite lookup_alter_eq, Hl. simpl. destruct (decide (q = q /\ i <= j < i + n)) as [[_ Hr]|Hr].
  - rewrite lookup_app_r, length_take by (rewrite length_take; lia). rewrite lookup_app_l by (rewrite length_replicate; lia). apply lookup_replicate_2. lia.
  - destruct (decide (j < i)); [rewrite lookup_app_l by (rewrite length_take; lia); apply lookup_take_lt; lia|].
    rewrite lookup_app_r, length_take by (rewrite length_take; lia). rewrite lookup_app_r, length_replicate by (rewrite length_replicate; lia).
    rewrite lookup_drop. f_equal. assert (i + n <= j) by naive_solver lia. lia.
Qed.
Lemma clear_eq s p i n : whole (pt_mem s) p -> 0 <= i -> 0 <= n -> i + n <= 1024 -> clear p i n s = Done tt (with_mem (fill (pt_mem s) p i n) s).
Proof.
  intros (l & Hl & Hlen) Hi Hn Hin. unfold clear. rewrite (kbind_done _ _ _ _ _ (load_page_eq s p l Hl)).
  rewrite (kbind_done _ _ s tt s) by (apply kassert_true; rewrite !andb_true_iff, ?Z.leb_le, ?Z.ltb_lt; lia). rewrite store_page_eq by (by rewrite Hl). do 2 f_equal. unfold fill. apply map_eq. intros q.
  destruct (decide (p = q)) as [->|]; [by rewrite lookup_insert_eq, lookup_alter_eq, Hl|by rewrite lookup_insert_ne, lookup_alter_ne by done].
Qed.

(** ** Temporary mappings *)

Definition tmp_entry (a : Z) : Z := Z.lor (Z.lor a PT_PRESENT) PT_WRITE.
Lemma tmp_map_eq s a : aligned a -> whole (pt_mem s) (final_page s) ->
  pt_phys_tmp_map a s = Done (UPTR_MAX - PAGE_SIZE + 1) (with_mem (put (pt_mem s) (final_page s) 1023 (tmp_entry a)) s).
Proof.
  intros Ha Hf. unfold pt_phys_tmp_map. rewrite (kbind_done _ _ s tt s) by (by apply kassert_true, aligned_PAGE). rewrite (kbind_done kget _ s s s eq_refl).
  by rewrite (kbind_done _ _ _ _ _ (store_eq s _ 1023 _ Hf ltac:(lia))).
Qed.
(** What is read there is the page that was mapped. *)
Lemma load_tmp_eq s a i e : aligned a -> 0 <= a < 2 ^ 32 -> whole (pt_mem s) (final_page s) -> to_virt a <> final_page s -> 0 <= i -> entry (pt_mem s) (to_virt a) i = Some e ->
  load_tmp i (with_mem (put (pt_mem s) (final_page s) 1023 (tmp_entry a)) s) = Done e (with_mem (put (pt_mem s) (final_page s) 1023 (tmp_entry a)) s).
Proof.
  intros Ha Hr Hf Hne Hi He. set (s1 := with_mem _ s). unfold load_tmp. rewrite (kbind_done kget _ s1 s1 s1 eq_refl).
  rewrite (kbind_done _ _ s1 (tmp_entry a) s1) by (apply load_eq; [simpl; rewrite entry_put, decide_True by (done || unfold PT_ENTRY_COUNT; lia); done|unfold PT_ENTRY_COUNT; lia]).
  assert (Ew : Z.land (tmp_entry a) PAGE_MASK = a) by (unfold tmp_entry; rewrite <- Z.lor_assoc; by apply mask_flags).
  rewrite Ew. apply load_eq; [|lia]. simpl. by rewrite (entry_same (pt_mem s)) by (apply put_other; congruence).
Qed.
Lemma virt_to_phys_via s v e e' : aligned v -> kernel_start <= v < 2 ^ 32 - 2 ^ 22 -> whole (pt_mem s) (final_page s) -> entry (pt_mem s) (current_pagedir s) (pdi v) = Some e ->
  entry (pt_mem s) (to_virt (Z.land e PAGE_MASK)) (pti v) = Some e' -> to_virt (Z.land e PAGE_MASK) <> final_page s -> Z.land e' PAGE_MASK = to_phys v ->
  pt_virt_to_phys v s = Done (to_phys v) (with_mem (put (pt_mem s) (final_page s) 1023 (tmp_entry (Z.land e PAGE_MASK))) s).
Proof.
  intros Ha Hv Hf He He' Hne Km. unfold kernel_start in Hv. pose proof (pti_range v). assert (0 <= pdi v) by (apply Z.div_pos; lia).
  unfold pt_virt_to_phys. rewrite pdindex_eq, ptindex_eq by lia. rewrite (kbind_done kget _ s s s eq_refl).
  rewrite (kbind_done _ _ _ _ _ (load_eq s _ _ _ He ltac:(lia))). pose proof (mask_aligned e). pose proof (mask_range e).
  rewrite (kbind_done _ _ _ _ _ (tmp_map_eq s _ ltac:(done) Hf)).
  rewrite (kbind_done _ _ _ _ _ (load_tmp_eq s _ (pti v) e' ltac:(done) ltac:(done) Hf Hne ltac:(lia) He')). unfold kret. f_equal. rewrite Km. unfold vaddr_to_offset. change (u32 (Z.lnot PAGE_MASK)) with (Z.ones 12).
  rewrite (u32_small v), Z.land_ones by lia. unfold aligned in Ha. rewrite Ha, Z.add_0_r. apply u32_small. unfold to_phys, kernel_start, KERNEL_PHYS_BASE. lia.
Qed.

Lemma block_1 b : block b 1 = [b].
Proof. unfold block. simpl. f_equal. unfold PAGE_SIZE. lia. Qed.
Lemma block_2 b : block b 2 = [b; pd_virtual b].
Proof. unfold block, pd_virtual. simpl. unfold PAGE_SIZE. repeat f_equal; lia. Qed.
Lemma block_in b n p : 0 <= n -> p ∈ block b n -> b <= p < b + n * PAGE_SIZE.
Proof. intros Hn. unfold block. rewrite list_elem_of_fmap. intros (i & -> & Hi%elem_of_seqZ). unfold PAGE_SIZE. lia. Qed.
Lemma foldr_insert (ps : list Z) (x : list Z) (m : gmap Z (list Z)) p : foldr (fun q m => <[q := x]> m) m ps !! p = if decide (p ∈ ps) then Some x else m !! p.
Proof.
  induction ps as [|q ps IH]; cbn [foldr]; [by rewrite decide_False by set_solver|]. destruct (decide (q = p)) as [->|Hne]; [rewrite lookup_insert_eq, decide_True by set_solver; done|].
  rewrite lookup_insert_ne, IH by done. destruct (decide (p ∈ ps)); [rewrite decide_True by set_solver|rewrite decide_False by set_solver]; done.
Qed.
Lemma foldr_delete (ps : list Z) (m : gmap Z (list Z)) p : p ∉ ps -> foldr delete m ps !! p = m !! p.
Proof. induction ps as [|q ps IH]; simpl; [done|]. intros Hp. rewrite lookup_delete_ne by set_solver. apply IH. set_solver. Qed.

End Memory.

(** ** The invariant *)

Section Spec.
Context {P : Type} `{PageLaws P} (junk : Z) (kd : Z -> Z) (ram_lo ram_end : Z).
(** The pages lent lie in the memory the kernel gave to the allocator. *)
Context (lent_ram : forall p lent b n, pages_ok p lent -> lent !! b = Some n -> ram_lo <= b /\ b + n * PAGE_SIZE <= ram_end /\ aligned b).
Implicit Types s : paging P.

Record paging_ok (s : paging P) (lent : gmap Z Z) (rest : Z -> Z -> Prop) (V : gmap Z tables) : Prop := {
  po_pages : pages_ok (pt_pages s) lent;
  po_mem : mem_ok kd ram_lo ram_end (pt_mem s) (final_page s) lent rest V;
  po_template : V !! template_pagedir s = Some ∅;
  po_current : is_Some (V !! current_pagedir s)
    \/ current_pagedir s < ram_lo /\ current_pagedir s <> final_page s /\ forall i, 768 <= i < 1024 -> entry (pt_mem s) (current_pagedir s) i = Some (kd i)
}.

Lemma paging_mem s lent rest V p m' lent' rest' V' : paging_ok s lent rest V -> pages_ok p lent' ->
  mem_ok kd ram_lo ram_end m' (final_page s) lent' rest' V' -> V' !! template_pagedir s = Some ∅ -> (is_Some (V !! current_pagedir s) -> is_Some (V' !! current_pagedir s)) ->
  (forall q, q < ram_lo -> q <> final_page s -> m' !! q = pt_mem s !! q) -> paging_ok (with_mem m' (with_pages p s)) lent' rest' V'.
Proof.
  intros [H1 H2 H3 H4] Hp Hm Ht Hc Hq. split; simpl; try done. destruct H4 as [?|(? & ? & Hk)]; [left; by apply Hc|right]. split_and!; try done.
  intros i Hi. rewrite (entry_same (pt_mem s)) by (by apply Hq). by apply Hk.
Qed.
Lemma with_pages_same s : with_pages (pt_pages s) s = s.
Proof. by destruct s. Qed.

Lemma runs_done_bind {A A'} (m : kernel (paging P) A) (f : A -> kernel (paging P) A') s a s' Q : m s = Done a s' -> runs (f a) s' Q -> runs (kbind m f) s Q.
Proof. intros E HQ. apply runs_bind. by exists a, s'. Qed.

(** ** Physical addresses *)

Lemma current_entry s lent rest V i : paging_ok s lent rest V -> 768 <= i < 1024 -> entry (pt_mem s) (current_pagedir s) i = Some (kd i).
Proof. intros [_ HM _ [[T HT]|(_ & _ & Hk)]] Hi; [by apply (do_kern _ _ _ _ (mo_dir _ _ _ _ _ _ _ _ HM _ _ HT))|by apply Hk]. Qed.

Lemma virt_to_phys_eq s lent rest V v : paging_ok s lent rest V -> aligned v -> ram_lo <= v < ram_end ->
  exists w, pt_virt_to_phys v s = Done (to_phys v) (with_mem (put (pt_mem s) (final_page s) 1023 w) s)
    /\ paging_ok (with_mem (put (pt_mem s) (final_page s) 1023 w) s) lent rest V.
Proof.
  intros I Ha Hv. pose proof (po_mem _ _ _ _ I) as M. destruct (mo_range _ _ _ _ _ _ _ _ M) as [R1 R2]. destruct (mo_final _ _ _ _ _ _ _ _ M) as [Hf Hf'].
  destruct (mo_kern _ _ _ _ _ _ _ _ M v Ha Hv) as (K1 & K2 & e & Ke & Km). unfold kernel_start in R1.
  assert (Hpd : 768 <= pdi v < 1024) by (unfold pdi; split; [apply Z.div_le_lower_bound; lia|apply Z.div_lt_upper_bound; lia]).
  eexists. split.
  - eapply virt_to_phys_via; [done|unfold kernel_start; lia|done|by eapply current_entry|exact Ke|done|done].
  - rewrite <- (with_pages_same s) at 3. eapply paging_mem; [exact I|apply I|by apply mem_ok_final|apply I|done|]. intros q _ Hq. by apply put_other.
Qed.

(** ** Pages from the allocator *)

Lemma runs_on_pages {A} (m : kernel P A) s (Q : A -> P -> Prop) : runs m (pt_pages s) Q -> runs (on_pages m) s (fun a s' => exists p, s' = with_pages p s /\ m (pt_pages s) = Done a p /\ Q a p).
Proof. intros (a & p & E & HQ). exists a, (with_pages p s). unfold on_pages. rewrite E. split; [done|by exists p]. Qed.

(** The page allocator has no block of [n] pages. *)
Definition no_pages s (n : Z) : Prop := exists p, Slab.pg_alloc n (pt_pages s) = Done None p.

Lemma alloc_ok s lent rest V o : paging_ok s lent rest V -> 0 <= o <= 1 ->
  runs (page_alloc_n junk (2 ^ o)) s (fun r s' => current_pagedir s' = current_pagedir s /\ template_pagedir s' = template_pagedir s /\ final_page s' = final_page s /\
    match r with
    | None => paging_ok s' lent rest V /\ pt_mem s' = pt_mem s /\ no_pages s (2 ^ o)
    | Some b => lent !! b = None /\ ram_lo <= b /\ aligned b /\ paging_ok s' (<[b := 2 ^ o]> lent) (fun c k => rest c k \/ (c = b /\ k = 2 ^ o)) V
        /\ (forall p, p ∈ block b (2 ^ o) -> whole (pt_mem s') p) /\ (forall p, p ∉ block b (2 ^ o) -> pt_mem s' !! p = pt_mem s !! p)
    end).
Proof.
  intros I Ho. unfold page_alloc_n. eapply runs_step; [apply runs_on_pages, (pg_alloc_ok _ lent); [apply I|unfold PAGE_NSIZES; lia]|].
  intros r s' (p & -> & Ep & HQ). destruct r as [b|].
  - destruct HQ as [Hb Hp]. go. split_and!; try done.
    + by apply (lent_ram p (<[b := 2 ^ o]> lent) b (2 ^ o) Hp), lookup_insert_eq.
    + by apply (lent_ram p (<[b := 2 ^ o]> lent) b (2 ^ o) Hp), lookup_insert_eq.
    + assert (Hpos : 0 < 2 ^ o) by (apply Z.pow_pos_nonneg; lia). eapply (paging_mem s); [done|done| |apply I|done|].
      * simpl. eapply mem_ok_alloc; [apply I|done|done|intros c k Hc; by eapply lent_ram|intros c k d l Hc Hd Hne; by eapply lent_apart|].
        intros q Hq. rewrite foldr_insert, decide_False; [done|]. intros Hin. apply Hq, block_in; [lia|done].
      * intros q Hq _. simpl. rewrite foldr_insert, decide_False; [done|]. intros Hin%block_in; [|lia].
        destruct (lent_ram p (<[b := 2 ^ o]> lent) b (2 ^ o) Hp (lookup_insert_eq _ _ _)). lia.
    + intros q Hq. simpl. unfold whole. rewrite foldr_insert, decide_True by done. eexists. split; [done|]. unfold junk_page. by rewrite length_replicate.
    + intros q Hq. simpl. by rewrite foldr_insert, decide_False.
  - go. split_and!; try done; [|by exists p]. pose proof I as [I1 I2 I3 I4]. by split.
Qed.

Lemma free_ok s lent rest V b o : paging_ok s lent rest V -> rest b (2 ^ o) -> 0 <= o <= 1 ->
  runs (page_free_n b (2 ^ o)) s (fun _ s' => current_pagedir s' = current_pagedir s /\ template_pagedir s' = template_pagedir s /\ final_page s' = final_page s /\
    paging_ok s' (delete b lent) (fun c k => rest c k /\ c <> b) V /\ forall p, ~ b <= p < b + 2 ^ o * PAGE_SIZE -> pt_mem s' !! p = pt_mem s !! p).
Proof.
  intros I Hb Ho. pose proof (po_mem _ _ _ _ I) as M. assert (Hl : lent !! b = Some (2 ^ o)) by (apply (mo_lent _ _ _ _ _ _ _ _ M); by right).
  unfold page_free_n. eapply runs_step; [apply runs_on_pages, (pg_free_ok _ lent); [apply I|unfold PAGE_NSIZES; lia|done]|].
  intros [] s' (p & -> & _ & HQ). go. assert (Hm : forall q, ~ b <= q < b + 2 ^ o * PAGE_SIZE -> foldr delete (pt_mem s) (block b (2 ^ o)) !! q = pt_mem s !! q).
  { intros q Hq. apply foldr_delete. intros Hin. apply Hq, block_in; [apply Z.pow_nonneg; lia|done]. }
  split_and!; try done. eapply (paging_mem s); [done|done| |apply I|done|].
  - simpl. by eapply mem_ok_free; [apply I| |].
  - intros q Hq _. simpl. apply Hm. destruct (lent_ram _ _ _ _ (po_pages _ _ _ _ I) Hl). lia.
Qed.

(** ** Directories *)

(** The translations of the directories other than [pd] *)
Definition others (V : gmap Z tables) (pd : Z) (m m' : gmap Z (list Z)) : Prop :=
  forall pd' T va, pd' <> pd -> V !! pd' = Some T -> mapped m' T va = mapped m T va.

Lemma mapped_same m m' T va : (forall v, T !! pdi va = Some v -> m' !! v = m !! v) -> mapped m' T va = mapped m T va.
Proof. intros Hs. unfold mapped. destruct (T !! pdi va) as [v|] eqn:E; [|done]. simpl. by rewrite (entry_same m) by (by apply Hs). Qed.
Lemma others_same V pd m m' : (forall pd' T i v, pd' <> pd -> V !! pd' = Some T -> T !! i = Some v -> m' !! v = m !! v) -> others V pd m m'.
Proof. intros Hs pd' T va Hne HV. apply mapped_same. intros v Hv. by eapply Hs. Qed.
Lemma others_dirs_trans V pd m1 m2 m3 : others V pd m1 m2 -> others V pd m2 m3 -> others V pd m1 m3.
Proof. intros H1 H2 pd' T va Hne HV. rewrite (H2 pd' T va Hne HV). by apply (H1 pd'). Qed.

(** An entry of a page table is set. *)
Lemma table_set s m' lent rest V pd T i v : paging_ok s lent rest V -> V !! pd = Some T -> T !! i = Some v -> (forall p, p <> v -> m' !! p = pt_mem s !! p) -> whole m' v ->
  paging_ok (with_mem m' s) lent rest V /\ others V pd (pt_mem s) m' /\ (forall va, pdi va <> i -> mapped m' T va = mapped (pt_mem s) T va)
  /\ forall va, pdi va = i -> mapped m' T va = (pte ← entry m' v (pti va); if present pte then Some pte else None).
Proof.
  intros I HV HT Hm Hw. pose proof (po_mem _ _ _ _ I) as M. split_and!.
  - rewrite <- (with_pages_same s). eapply (paging_mem s); [done|apply I| |apply I|done|].
    + by eapply mem_ok_table.
    + intros q Hq _. apply Hm. destruct (table_range _ _ _ M _ _ _ _ HV HT) as (_ & ? & _). lia.
  - apply others_same. intros pd' T' j w Hne HV' HT'. apply Hm. intros ->. by destruct (mo_inj _ _ _ _ _ _ _ _ M _ _ _ _ _ _ _ HV HT HV' HT').
  - intros va Hne. apply mapped_same. intros w Hw'. apply Hm. intros ->. by destruct (mo_inj _ _ _ _ _ _ _ _ M _ _ _ _ _ _ _ HV HT HV Hw').
  - intros va <-. unfold mapped. by rewrite HT.
Qed.

Lemma virtual_other pd : pd <> pd_virtual pd.
Proof. unfold pd_virtual, PAGE_SIZE. lia. Qed.

(** A page from the allocator becomes the page table of an entry that had none. *)
Lemma new_table_ok s s1 lent rest V pd T i f b e : paging_ok s lent rest V -> V !! pd = Some T -> pd <> template_pagedir s -> 1 <= i < 768 -> 0 <= f < 2 ^ 12 -> present f = true ->
  T !! i = None -> entry (pt_mem s) pd i = Some e ->
  current_pagedir s1 = current_pagedir s -> template_pagedir s1 = template_pagedir s -> final_page s1 = final_page s ->
  lent !! b = None -> ram_lo <= b -> aligned b -> paging_ok s1 (<[b := 1]> lent) (fun c k => rest c k \/ (c = b /\ k = 1)) V ->
  (forall p, p ∈ [b] -> whole (pt_mem s1) p) -> (forall p, p ∉ [b] -> pt_mem s1 !! p = pt_mem s !! p) ->
  runs (clear b 0 PT_ENTRY_COUNT ;;; paddr <- pt_virt_to_phys b ;; store pd i (Z.lor paddr f) ;;; store (pd_virtual pd) i b ;;; kret (Some b)) s1 (fun r s' =>
    current_pagedir s' = current_pagedir s /\ template_pagedir s' = template_pagedir s /\
    match r with
    | None => paging_ok s' lent rest V /\ pt_mem s' = pt_mem s /\ T !! i = None /\ no_pages s 1
    | Some v => exists lent' T', paging_ok s' lent' rest (<[pd := T']> V) /\ T' !! i = Some v
        /\ (forall va, mapped (pt_mem s') T' va = mapped (pt_mem s) T va) /\ others V pd (pt_mem s) (pt_mem s')
    end).
Proof using lent_ram.
  intros I HV Ht Hi Hf Hpf HT Ee C1 T1 F1 Hlb Hb Hab I1 Hw Hsame. pose proof (po_mem _ _ _ _ I) as M. specialize (Hw b ltac:(set_solver)).
  pose proof (virtual_other pd) as Hpv. destruct (mo_ram _ _ _ _ _ _ _ _ (po_mem _ _ _ _ I1) b 1 (lookup_insert_eq _ _ _)) as (_ & Hbe & _).
  eapply runs_done_bind; [by apply clear_eq|]. set (m2 := fill _ _ _ _). set (s2 := with_mem m2 s1).
  assert (Hm2 : forall p, p <> b -> m2 !! p = pt_mem s !! p) by (intros p Hp; unfold m2; rewrite fill_other by done; apply Hsame; set_solver).
  assert (I2 : paging_ok s2 (<[b := 1]> lent) (fun c k => rest c k \/ (c = b /\ k = 1)) V).
  { unfold s2. rewrite <- (with_pages_same s1). eapply (paging_mem s1); [done|apply I1| |apply I1|done|intros q Hq _; apply fill_other; lia].
    eapply mem_ok_unowned; [apply I1|right; by split|]. intros p Hp. apply fill_other. unfold PAGE_SIZE in Hp. lia. }
  destruct (virt_to_phys_eq s2 _ _ _ b I2 Hab) as (w & Ew & I3); [unfold PAGE_SIZE in *; lia|]. eapply runs_done_bind; [exact Ew|].
  set (m3 := put (pt_mem s2) (final_page s2) 1023 w) in *. set (s3 := with_mem m3 s2) in *. pose proof (po_mem _ _ _ _ I3) as M3. change (pt_mem s3) with m3 in M3.
  destruct (mo_final _ _ _ _ _ _ _ _ M) as [_ Hfp]. rewrite <- F1 in Hfp. change (final_page s1) with (final_page s2) in Hfp.
  assert (Hm3 : forall p, p <> b -> ram_lo <= p -> m3 !! p = pt_mem s !! p) by (intros p Hp Hlo; unfold m3; rewrite put_other by lia; by apply Hm2).
  assert (Hm3b : m3 !! b = m2 !! b) by (apply put_other; lia). pose proof (mo_dir _ _ _ _ _ _ _ _ M3 _ _ HV) as HD3. pose proof (do_phys _ _ _ _ HD3) as W1. pose proof (do_virt _ _ _ _ HD3) as W2.
  eapply runs_done_bind; [apply store_eq; [exact W1|lia]|]. eapply runs_done_bind; [apply store_eq; [by apply put_whole|lia]|].
  set (m5 := put _ (pd_virtual pd) i b). apply runs_ret. split; [done|]. split; [done|].
  assert (Hm5 : forall p, p <> pd -> p <> pd_virtual pd -> m5 !! p = m3 !! p) by (intros p H1 H2; unfold m5; rewrite put_other by done; simpl; by rewrite put_other by done).
  assert (HD5 : dir_ok kd m5 pd (<[i := b]> T)).
  { eapply (dir_ok_set _ m3 m5 pd T _ i); try done; [intros j Hj; by rewrite lookup_insert_ne|do 2 apply put_whole; done|do 2 apply put_whole; done| |].
    - intros j Hj Hne. unfold m5. simpl. by split; do 2 rewrite entry_put, decide_False by ((intros [? ?]; congruence) || lia || done || by apply put_whole).
    - unfold slot_ok, m5. simpl. rewrite lookup_insert_eq, !entry_put by (lia || done || by apply put_whole). rewrite decide_True by done. split; [done|].
      rewrite decide_False by (intros [? ?]; congruence). rewrite decide_True by done. eexists. split; [done|]. split; [by apply present_flag|].
      destruct (mo_range _ _ _ _ _ _ _ _ M) as [R1 R2]. apply mask_flags; [|unfold to_phys, kernel_start, KERNEL_PHYS_BASE, PAGE_SIZE in *; lia|done].
      unfold aligned, to_phys in *. rewrite <- Z.add_sub_swap, <- Z.add_sub_assoc. change (KERNEL_PHYS_BASE - kernel_start) with (- 0xbff00 * 2 ^ 12). by rewrite Z.mod_add. }
  assert (Htab : forall pd' T' j v, V !! pd' = Some T' -> T' !! j = Some v -> m5 !! v = pt_mem s !! v).
  { intros pd' T' j v HV' HT'. destruct (table_not_dir _ _ _ M _ _ _ _ _ _ HV' HT' HV) as [? ?]. destruct (table_range _ _ _ M _ _ _ _ HV' HT') as (_ & ? & _).
    rewrite Hm5, Hm3 by (done || (intros ->; pose proof (lent_table _ _ _ M _ _ _ _ HV' HT'); congruence)). done. }
  exists (<[b := 1]> lent), (<[i := b]> T). split_and!; [|by rewrite lookup_insert_eq| |].
  - change (paging_ok (with_mem m5 s3) (<[b := 1]> lent) rest (<[pd := <[i := b]> T]> V)). rewrite <- (with_pages_same s3). eapply (paging_mem s3); [exact I3|apply I3| | | |].
    + eapply mem_ok_rest; [|eapply (mem_ok_link _ _ _ m3); [exact M3|exact HV|exact HT|right; by split| |exact Hm5|exact HD5]].
      * intros c k. simpl. split; [intros [[?|[-> ->]] ?]; done|]. intros Hc. split; [by left|]. intros ->. assert (lent !! b = Some k) by (apply (mo_lent _ _ _ _ _ _ _ _ M); by right). congruence.
      * apply (whole_same m2); [done|]. by apply fill_whole.
    + rewrite lookup_insert_ne by (simpl; congruence). apply I3.
    + intros Hc. destruct (decide (pd = current_pagedir s3)) as [->|]; [by rewrite lookup_insert_eq|by rewrite lookup_insert_ne].
    + intros q Hq _. apply Hm5; destruct (dir_range _ _ _ M _ _ HV) as (_ & ? & _); unfold pd_virtual, PAGE_SIZE; lia.
  - intros va. change (mapped m5 (<[i := b]> T) va = mapped (pt_mem s) T va). unfold mapped. destruct (decide (pdi va = i)) as [->|Hne].
    + rewrite lookup_insert_eq, HT. simpl. pose proof (pti_range va). assert (b <> pd /\ b <> pd_virtual pd) as [? ?].
      { pose proof (lent_dir _ _ _ M _ _ HV) as Hlp. assert (b <> pd) by congruence. split; [done|].
        eapply (lent_pages _ _ _ (po_mem _ _ _ _ I1) b 1 pd 2); try done; [apply lookup_insert_eq|by rewrite lookup_insert_ne|unfold PAGE_SIZE; lia|unfold pd_virtual, PAGE_SIZE; lia]. }
      rewrite (entry_same m3), (entry_same m2) by (done || by apply Hm5). unfold m2. rewrite entry_fill, decide_True by (done || lia || (unfold PT_ENTRY_COUNT; lia)). done.
    + rewrite lookup_insert_ne by done. destruct (T !! pdi va) as [v|] eqn:Ev; [|done]. simpl. by rewrite (entry_same (pt_mem s)) by (by eapply Htab).
  - apply others_same. intros pd' T' j v _ HV' HT'. by eapply Htab.
Qed.

Lemma get_table_ok s lent rest V pd T i f : paging_ok s lent rest V -> V !! pd = Some T -> pd <> template_pagedir s -> 1 <= i < 768 -> 0 <= f < 2 ^ 12 -> present f = true ->
  runs (get_table junk pd i f) s (fun r s' => current_pagedir s' = current_pagedir s /\ template_pagedir s' = template_pagedir s /\
    match r with
    | None => paging_ok s' lent rest V /\ pt_mem s' = pt_mem s /\ T !! i = None /\ no_pages s 1
    | Some v => exists lent' T', paging_ok s' lent' rest (<[pd := T']> V) /\ T' !! i = Some v
        /\ (forall va, mapped (pt_mem s') T' va = mapped (pt_mem s) T va) /\ others V pd (pt_mem s) (pt_mem s')
    end).
Proof using lent_ram.
  intros I HV Ht Hi Hf Hpf. pose proof (po_mem _ _ _ _ I) as M. pose proof (mo_dir _ _ _ _ _ _ _ _ M _ _ HV) as HD. pose proof (do_user _ _ _ _ HD i Hi) as HS.
  pose proof (do_phys _ _ _ _ HD) as W1. pose proof (do_virt _ _ _ _ HD) as W2. pose proof (virtual_other pd) as Hpv. unfold slot_ok in HS. unfold get_table. destruct (T !! i) as [v|] eqn:HT.
  - destruct HS as (Ev & e & Ee & He & Em). set (m' := put (pt_mem s) pd i (Z.lor e f)).
    assert (Hm : forall p, p <> pd -> m' !! p = pt_mem s !! p) by (intros p Hp; by apply put_other).
    assert (HD' : dir_ok kd m' pd T).
    { eapply (dir_ok_set _ (pt_mem s) m' pd T T i); try done; [by apply put_whole|by apply put_whole| |].
      - intros j Hj Hne. rewrite (entry_same (pt_mem s) m' (pd_virtual pd)) by (by apply Hm). unfold m'. rewrite entry_put, decide_False by (done || lia || (intros [? ?]; congruence)). done.
      - unfold slot_ok. rewrite HT, (entry_same (pt_mem s) m' (pd_virtual pd)) by (by apply Hm). split; [done|]. exists (Z.lor e f). unfold m'. rewrite entry_put, decide_True by (done || lia).
        split_and!; [done|by apply present_lor|by rewrite mask_lor]. }
    eapply runs_done; [rewrite (kbind_done _ _ _ _ _ (load_eq s pd i e Ee ltac:(lia))); rewrite He; cbn [negb];
      rewrite (kbind_done _ _ _ _ _ (store_eq s pd i _ W1 ltac:(lia))); fold m'; rewrite (kbind_done _ _ (with_mem m' s) v (with_mem m' s)); [reflexivity|]|].
    { apply load_eq; [|lia]. simpl. rewrite (entry_same (pt_mem s)) by (by apply Hm). done. }
    assert (Hsame : forall pd' T' va, V !! pd' = Some T' -> mapped m' T' va = mapped (pt_mem s) T' va).
    { intros pd' T' va HV'. apply mapped_same. intros w Hw. apply Hm. by apply (table_not_dir _ _ _ M _ _ _ _ _ _ HV' Hw HV). }
    split_and!; [done|done|]. exists lent, T. split_and!; [|done|intros va; by eapply Hsame|intros pd' T' va _ HV'; by eapply Hsame].
    rewrite insert_id by done. rewrite <- (with_pages_same s). eapply (paging_mem s); [done|apply I| |apply I|done|].
    + eapply mem_ok_dir; [exact M|exact HV|intros p Hp _; by apply Hm|done].
    + intros q Hq _. apply Hm. destruct (dir_range _ _ _ M _ _ HV) as (_ & ? & _). lia.
  - destruct HS as (e & Ee & He). eapply runs_done_bind; [by apply load_eq; [exact Ee|lia]|]. rewrite He. cbn [negb].
    change (page_alloc_n junk 1) with (page_alloc_n junk (2 ^ 0)). eapply runs_step; [by apply (alloc_ok s lent rest V 0)|]. intros r s1 (C1 & T1 & F1 & HQ). destruct r as [b|]; [|destruct HQ as (? & ? & ?); go; by split_and!].
    destruct HQ as (Hlb & Hb & Hab & I1 & Hw & Hsame). change (2 ^ 0) with 1 in *. rewrite block_1 in *. apply runs_bind, runs_assert; [by apply flags_low|].
    eapply runs_mono; [by apply (new_table_ok s s1 lent rest V pd T i f b e)|]. intros r s' (? & ? & HQ). split_and!; [done|done|]. destruct r; [done|by destruct HQ as (? & ? & _ & ?)].
Qed.

(** ** Mapping and unmapping *)

Lemma user_range va : USER_MEM_LOW <= va < USER_MEM_HIGH -> 0 <= va < 2 ^ 32.
Proof. unfold USER_MEM_LOW, USER_MEM_HIGH. lia. Qed.
Lemma same_page va va' : user_page va -> user_page va' -> pdi va' = pdi va -> pti va' = pti va -> va' = va.
Proof. intros [Ha _] [Ha' _] E1 E2. rewrite (page_split va Ha), (page_split va' Ha'). congruence. Qed.

(** One entry of a page table *)
Lemma table_put s lent rest V pd T va v w : paging_ok s lent rest V -> V !! pd = Some T -> user_page va -> T !! pdi va = Some v ->
  store v (pti va) w s = Done tt (with_mem (put (pt_mem s) v (pti va) w) s) /\ paging_ok (with_mem (put (pt_mem s) v (pti va) w) s) lent rest V
  /\ others V pd (pt_mem s) (put (pt_mem s) v (pti va) w)
  /\ forall va', user_page va' -> mapped (put (pt_mem s) v (pti va) w) T va' = if decide (va' = va) then (if present w then Some w else None) else mapped (pt_mem s) T va'.
Proof using.
  intros I HV Hva HT. pose proof (po_mem _ _ _ _ I) as M. pose proof (mo_table _ _ _ _ _ _ _ _ M _ _ _ _ HV HT) as Hw. pose proof (pti_range va).
  split; [by apply store_eq; [|lia]|]. destruct (table_set s (put (pt_mem s) v (pti va) w) lent rest V pd T (pdi va) v) as (I' & Ho & Hne & Heq); try done; [intros p Hp; by apply put_other|by apply put_whole|].
  split; [done|]. split; [done|]. intros va' Hva'. pose proof (pti_range va'). destruct (decide (pdi va' = pdi va)) as [E|E].
  - rewrite (Heq _ E), entry_put by (done || lia). destruct (decide (va' = va)) as [->|Hn]; [by rewrite decide_True|]. rewrite decide_False.
    + unfold mapped. by rewrite E, HT.
    + intros [_ ?]. apply Hn. by apply same_page.
  - rewrite Hne by done. rewrite decide_False by congruence. done.
Qed.

Lemma pt_map_ok s lent rest V pd T va pa pdf ptf : paging_ok s lent rest V -> V !! pd = Some T -> pd <> template_pagedir s -> user_page va -> aligned pa ->
  0 <= pdf < 2 ^ 12 -> present pdf = true -> 0 <= ptf < 2 ^ 12 -> present ptf = true ->
  runs (pt_map junk pd va pa pdf ptf) s (fun r s' => current_pagedir s' = current_pagedir s /\ template_pagedir s' = template_pagedir s /\
    ((r = - ENOMEM /\ paging_ok s' lent rest V /\ pt_mem s' = pt_mem s /\ T !! pdi va = None /\ no_pages s 1)
     \/ (r = 0 /\ exists lent' T', paging_ok s' lent' rest (<[pd := T']> V) /\ others V pd (pt_mem s) (pt_mem s')
         /\ forall va', user_page va' -> mapped (pt_mem s') T' va' = if decide (va' = va) then Some (Z.lor pa ptf) else mapped (pt_mem s) T va'))).
Proof using lent_ram.
  intros I HV Ht Hva Hpa Hpf Hpp Htf Htp. destruct Hva as [Hal Hur]. pose proof (user_range va Hur). unfold pt_map.
  apply runs_bind, runs_assert; [apply andb_true_intro; split; by apply aligned_PAGE|]. apply runs_bind, runs_assert; [rewrite andb_true_iff, Z.leb_le, Z.ltb_lt; lia|].
  rewrite pdindex_eq, ptindex_eq by done. eapply runs_step; [apply (get_table_ok s lent rest V pd T); try done; by apply user_slot|].
  intros r s1 (C1 & T1 & HQ). destruct r as [v|]; [|destruct HQ as (? & ? & ? & ?); go; split_and!; try done; by left].
  destruct HQ as (lent' & T' & I1 & HT' & Hsame & Ho). apply runs_bind, runs_assert; [by apply flags_low|].
  destruct (table_put s1 lent' rest (<[pd := T']> V) pd T' va v (Z.lor pa ptf)) as (E & I2 & Ho2 & Hm2); try done; [apply lookup_insert_eq|].
  eapply runs_done_bind; [exact E|]. apply runs_ret. split_and!; try done. right. split; [done|]. exists lent', T'. split; [done|]. split.
  - intros pd' T0 va' Hne HV'. rewrite (Ho2 pd' T0) by (done || by rewrite lookup_insert_ne). by apply (Ho pd').
  - intros va' Hva'. simpl. rewrite Hm2, Hsame by done. by rewrite (present_flag pa ptf Htp).
Qed.

Lemma pt_unmap_ok s lent rest V pd T va : paging_ok s lent rest V -> V !! pd = Some T -> user_page va ->
  runs (pt_unmap pd va) s (fun _ s' => current_pagedir s' = current_pagedir s /\ template_pagedir s' = template_pagedir s /\ paging_ok s' lent rest V
    /\ others V pd (pt_mem s) (pt_mem s') /\ forall va', user_page va' -> mapped (pt_mem s') T va' = if decide (va' = va) then None else mapped (pt_mem s) T va').
Proof using.
  intros I HV Hva. pose proof (po_mem _ _ _ _ I) as M. pose proof Hva as [Hal Hur]. pose proof (user_range va Hur). unfold pt_unmap.
  apply runs_bind, runs_assert; [by apply aligned_PAGE|]. apply runs_bind, runs_assert; [rewrite andb_true_iff, Z.leb_le, Z.ltb_lt; lia|].
  rewrite pdindex_eq, ptindex_eq by done. pose proof (do_user _ _ _ _ (mo_dir _ _ _ _ _ _ _ _ M _ _ HV) _ (user_slot va Hur)) as HS. pose proof (user_slot va Hur).
  unfold slot_ok in HS. destruct (T !! pdi va) as [v|] eqn:HT.
  - destruct HS as (Ev & e & Ee & He & _). eapply runs_done_bind; [by apply load_eq; [exact Ee|lia]|]. rewrite He. eapply runs_done_bind; [by apply load_eq; [exact Ev|lia]|].
    destruct (table_put s lent rest V pd T va v 0) as (E & I2 & Ho2 & Hm2); try done. eapply runs_done; [exact E|]. split_and!; done.
  - destruct HS as (e & Ee & He). eapply runs_done_bind; [by apply load_eq; [exact Ee|lia]|]. rewrite He. apply runs_ret. split_and!; try done.
    intros va' Hva'. destruct (decide (va' = va)) as [->|]; [|done]. unfold mapped. by rewrite HT.
Qed.

(** ** Ranges *)

Lemma clear_table_ok s lent rest V pd T va i n : paging_ok s lent rest V -> V !! pd = Some T -> 0 <= va < 2 ^ 32 ->
  1 <= pdi va < 768 \/ (pdi va = 768 /\ pti va = 0) -> 0 <= i -> 0 <= n -> i + n <= 1024 ->
  runs (clear_table pd va i n) s (fun _ s' => current_pagedir s' = current_pagedir s /\ template_pagedir s' = template_pagedir s /\ paging_ok s' lent rest V
    /\ others V pd (pt_mem s) (pt_mem s')
    /\ forall va', mapped (pt_mem s') T va' = if decide (pti va <> 0 /\ pdi va' = pdi va /\ i <= pti va' < i + n) then None else mapped (pt_mem s) T va').
Proof using.
  intros I HV Hr Hva Hi Hn Hin. pose proof (po_mem _ _ _ _ I) as M. pose proof (mo_dir _ _ _ _ _ _ _ _ M _ _ HV) as HD. unfold clear_table. rewrite pdindex_eq, ptindex_eq by done.
  destruct (decide (pti va = 0)) as [E0|E0].
  { assert (Hp : 0 <= pdi va < 1024) by lia. destruct (entry_whole _ _ _ (do_phys _ _ _ _ HD) Hp) as [e Ee]. eapply runs_done_bind; [by apply load_eq; [exact Ee|lia]|].
    rewrite E0, andb_false_r. apply runs_ret. by split_and!. }
  assert (Hs : 1 <= pdi va < 768) by lia. pose proof (do_user _ _ _ _ HD _ Hs) as HS. unfold slot_ok in HS. rewrite (proj2 (Z.eqb_neq (pti va) 0) E0). destruct (T !! pdi va) as [v|] eqn:HT.
  - destruct HS as (Ev & e & Ee & He & _). eapply runs_done_bind; [by apply load_eq; [exact Ee|lia]|]. rewrite He. cbn [andb negb]. eapply runs_done_bind; [by apply load_eq; [exact Ev|lia]|].
    pose proof (mo_table _ _ _ _ _ _ _ _ M _ _ _ _ HV HT) as Hw. eapply runs_done; [by apply clear_eq|].
    destruct (table_set s (fill (pt_mem s) v i n) lent rest V pd T (pdi va) v) as (I' & Ho & Hne & Heq); try done; [intros p Hp; by apply fill_other|by apply fill_whole|].
    split_and!; try done. intros va'. pose proof (pti_range va'). simpl. destruct (decide (pdi va' = pdi va)) as [E|E]; [|rewrite Hne by done; by rewrite decide_False by (by intros (_ & ? & _))].
    rewrite (Heq _ E), entry_fill by (done || lia). destruct (decide (i <= pti va' < i + n)) as [|Hn']; [by rewrite !decide_True|].
    rewrite !decide_False by (intros Hx; apply Hn'; first [exact (proj2 Hx)|exact (proj2 (proj2 Hx))]).
    unfold mapped. by rewrite E, HT.
  - destruct HS as (e & Ee & He). eapply runs_done_bind; [by apply load_eq; [exact Ee|lia]|]. rewrite He. cbn [andb]. apply runs_ret. split_and!; try done.
    intros va'. destruct (decide _) as [(_ & E & _)|]; [|done]. unfold mapped. by rewrite E, HT.
Qed.

(** A page table is given back and its entries are cleared. *)
Lemma free_table_ok s lent rest V pd T i v : paging_ok s lent rest V -> V !! pd = Some T -> pd <> template_pagedir s -> T !! i = Some v ->
  runs (page_free_n v 1 ;;; store (pd_virtual pd) i 0 ;;; store pd i 0) s (fun _ s' => current_pagedir s' = current_pagedir s /\ template_pagedir s' = template_pagedir s
    /\ paging_ok s' (delete v lent) rest (<[pd := delete i T]> V) /\ others V pd (pt_mem s) (pt_mem s')
    /\ forall va, mapped (pt_mem s') (delete i T) va = if decide (pdi va = i) then None else mapped (pt_mem s) T va).
Proof using lent_ram.
  intros I HV Ht HT. pose proof (po_mem _ _ _ _ I) as M. pose proof (mo_dir _ _ _ _ _ _ _ _ M _ _ HV) as HD. pose proof (do_dom _ _ _ _ HD _ _ HT) as Hi.
  pose proof (virtual_other pd) as Hpv. pose proof (lent_table _ _ _ M _ _ _ _ HV HT) as Hlv. destruct (table_not_dir _ _ _ M _ _ _ _ _ _ HV HT HV) as [Hv1 Hv2].
  unfold page_free_n. apply runs_bind, runs_bind. eapply runs_mono; [apply runs_on_pages, (pg_free_ok _ lent v 0); [apply I|unfold PAGE_NSIZES; lia|done]|].
  intros [] s1 (p & -> & _ & Hp). apply runs_modify. rewrite block_1. cbn [foldr]. set (m1 := delete v (pt_mem s)).
  assert (Hm1 : forall q, q <> v -> m1 !! q = pt_mem s !! q) by (intros q Hq; unfold m1; by rewrite lookup_delete_ne).
  assert (W1 : whole m1 pd) by (apply (whole_same (pt_mem s)); [apply Hm1; congruence|apply HD]). assert (W2 : whole m1 (pd_virtual pd)) by (apply (whole_same (pt_mem s)); [apply Hm1; congruence|apply HD]).
  eapply runs_done_bind; [by apply store_eq; [exact W2|lia]|]. eapply runs_done; [apply store_eq; [by apply put_whole|lia]|]. simpl pt_mem. set (m3 := put _ pd i 0). split; [done|]. split; [done|].
  set (mu := put (put (pt_mem s) (pd_virtual pd) i 0) pd i 0).
  assert (Hmu : forall q, q <> v -> m3 !! q = mu !! q).
  { intros q Hq. unfold m3, mu, put. destruct (decide (pd = q)) as [<-|]; [rewrite !lookup_alter_eq|rewrite !(lookup_alter_ne _ _ pd) by done].
    - rewrite !lookup_alter_ne by done. by rewrite Hm1.
    - destruct (decide (pd_virtual pd = q)) as [<-|]; [by rewrite !lookup_alter_eq, Hm1|by rewrite !lookup_alter_ne, Hm1]. }
  assert (Hmo : forall q, q <> pd -> q <> pd_virtual pd -> mu !! q = pt_mem s !! q) by (intros q H1 H2; unfold mu; by rewrite !put_other).
  assert (HDu : dir_ok kd mu pd (delete i T)).
  { eapply (dir_ok_set _ (pt_mem s) mu pd T _ i); try done; [intros j Hj; by rewrite lookup_delete_ne|do 2 apply put_whole; apply HD|do 2 apply put_whole; apply HD| |].
    - intros j Hj Hne. unfold mu. by split; do 2 rewrite entry_put, decide_False by ((intros [? ?]; congruence) || lia || (repeat apply put_whole; apply HD)).
    - unfold slot_ok, mu. rewrite lookup_delete_eq. exists 0. split; [|done]. rewrite entry_put, decide_True; [done|done|apply put_whole, HD|lia|lia]. }
  pose proof (mem_ok_unlink _ _ _ _ mu _ _ _ _ _ _ _ _ M HV HT Hmo HDu) as Mu.
  assert (M3 : mem_ok kd ram_lo ram_end m3 (final_page s) (delete v lent) rest (<[pd := delete i T]> V)).
  { eapply mem_ok_rest; [|eapply (mem_ok_free _ _ _ mu m3 _ _ _ _ v 1); [exact Mu|right; by split|]].
    - intros c k. simpl. split; [intros [[?|[-> ->]] ?]; done|]. intros Hc. split; [by left|]. intros ->. eapply (mo_disj _ _ _ _ _ _ _ _ M v 1 k); [right; split; [done|by exists pd, T, i]|done].
    - intros q Hq. apply Hmu. intros ->. apply Hq. unfold PAGE_SIZE. lia. }
  assert (Hother : forall pd' T' j w, V !! pd' = Some T' -> T' !! j = Some w -> w <> v -> m3 !! w = pt_mem s !! w).
  { intros pd' T' j w HV' HT' Hne. destruct (table_not_dir _ _ _ M _ _ _ _ _ _ HV' HT' HV). by rewrite Hmu, Hmo. }
  split_and!.
  - change (paging_ok (with_mem m3 (with_pages p s)) (delete v lent) rest (<[pd := delete i T]> V)). eapply (paging_mem s); [done|done|done| | |].
    + rewrite lookup_insert_ne by done. apply I.
    + intros Hc. destruct (decide (pd = current_pagedir s)) as [->|]; [by rewrite lookup_insert_eq|by rewrite lookup_insert_ne].
    + intros q Hq _. destruct (dir_range _ _ _ M _ _ HV) as (_ & ? & _). destruct (table_range _ _ _ M _ _ _ _ HV HT) as (_ & ? & _). rewrite Hmu, Hmo; [done|lia| |lia]. unfold pd_virtual, PAGE_SIZE. lia.
  - apply others_same. intros pd' T' j w Hne HV' HT'. eapply Hother; [done|done|]. intros ->. by destruct (mo_inj _ _ _ _ _ _ _ _ M _ _ _ _ _ _ _ HV HT HV' HT').
  - intros va. change (mapped m3 (delete i T) va = if decide (pdi va = i) then None else mapped (pt_mem s) T va). unfold mapped. destruct (decide (pdi va = i)) as [->|Hne]; [by rewrite lookup_delete_eq|].
    rewrite lookup_delete_ne by done. destruct (T !! pdi va) as [w|] eqn:Hw; [|done]. simpl. rewrite (entry_same (pt_mem s)); [done|]. eapply Hother; [done|done|].
    intros ->. by destruct (mo_inj _ _ _ _ _ _ _ _ M _ _ _ _ _ _ _ HV HT HV Hw).
Qed.

Lemma free_tables_ok n s lent rest V pd T i : paging_ok s lent rest V -> V !! pd = Some T -> pd <> template_pagedir s -> 1 <= i -> i + Z.of_nat n <= 768 ->
  runs (free_tables n pd i) s (fun _ s' => current_pagedir s' = current_pagedir s /\ template_pagedir s' = template_pagedir s /\
    exists lent' T', paging_ok s' lent' rest (<[pd := T']> V) /\ others V pd (pt_mem s) (pt_mem s')
      /\ (forall j, T' !! j = if decide (i <= j < i + Z.of_nat n) then None else T !! j)
      /\ forall va, mapped (pt_mem s') T' va = if decide (i <= pdi va < i + Z.of_nat n) then None else mapped (pt_mem s) T va).
Proof using lent_ram.
  revert s lent V T i. induction n as [|n IH]; intros s lent V T i I HV Ht Hi Hn; cbn [free_tables].
  { apply runs_ret. split_and!; try done. exists lent, T. rewrite insert_id by done. split_and!; try done; intros va; by rewrite decide_False by lia. }
  pose proof (po_mem _ _ _ _ I) as M. pose proof (do_user _ _ _ _ (mo_dir _ _ _ _ _ _ _ _ M _ _ HV) i ltac:(lia)) as HS. unfold slot_ok in HS. destruct (T !! i) as [v|] eqn:HT.
  - destruct HS as (Ev & e & Ee & He & _). eapply runs_done_bind; [by apply load_eq; [exact Ee|lia]|]. rewrite He.
    eapply runs_step; [eapply runs_done_bind; [by apply load_eq; [exact Ev|lia]|]; by apply (free_table_ok s lent rest V pd T i v)|].
    intros [] s1 (C1 & T1 & I1 & Ho1 & Hm1). eapply runs_mono; [apply (IH s1 (delete v lent) (<[pd := delete i T]> V) (delete i T) (i + 1)); [done|apply lookup_insert_eq|congruence|lia|lia]|].
    intros [] s2 (C2 & T2 & lent' & T' & I2 & Ho2 & Hd2 & Hm2). split_and!; [congruence|congruence|]. exists lent', T'. rewrite insert_insert_eq in I2. split_and!; [done| | |].
    + intros pd' T0 va Hne HV'. rewrite (Ho2 pd' T0) by (done || by rewrite lookup_insert_ne). by apply (Ho1 pd').
    + intros j. rewrite Hd2. destruct (decide (j = i)) as [->|Hne]; [rewrite lookup_delete_eq; repeat case_decide; done || lia|rewrite lookup_delete_ne by done; repeat case_decide; done || lia].
    + intros va. rewrite Hm2, Hm1. repeat case_decide; done || lia.
  - destruct HS as (e & Ee & He). eapply runs_done_bind; [by apply load_eq; [exact Ee|lia]|]. rewrite He. apply runs_bind, runs_ret.
    eapply runs_mono; [by apply (IH s lent V T (i + 1)); try done; lia|]. intros [] s2 (C2 & T2 & lent' & T' & I2 & Ho2 & Hd2 & Hm2). split_and!; try done. exists lent', T'. split_and!; try done.
    { intros j. rewrite Hd2. destruct (decide (j = i)) as [->|Hne]; repeat case_decide; done || lia. }
    intros va. rewrite Hm2. destruct (decide (pdi va = i)) as [E|]; [|repeat case_decide; done || lia]. rewrite decide_False, decide_True by lia. unfold mapped. by rewrite E, HT.
Qed.

Lemma pt_unmap_range_ok s lent rest V pd T lo hi : paging_ok s lent rest V -> V !! pd = Some T -> pd <> template_pagedir s ->
  aligned lo -> aligned hi -> USER_MEM_LOW <= lo -> lo < hi -> hi <= USER_MEM_HIGH -> pti lo = 0 \/ pdi lo < pdi hi ->
  runs (pt_unmap_range pd lo hi) s (fun _ s' => current_pagedir s' = current_pagedir s /\ template_pagedir s' = template_pagedir s /\
    exists lent' T', paging_ok s' lent' rest (<[pd := T']> V) /\ others V pd (pt_mem s) (pt_mem s')
      /\ (forall j, T' !! j = if decide (lo <= j * 2 ^ 22 /\ (j + 1) * 2 ^ 22 <= hi) then None else T !! j)
      /\ forall va, user_page va -> mapped (pt_mem s') T' va = if decide (lo <= va < hi) then None else mapped (pt_mem s) T va).
Proof using lent_ram.
  intros I HV Ht Hal Hah Hlo Hlh Hhi Hsame. unfold USER_MEM_LOW, USER_MEM_HIGH in *. unfold pt_unmap_range.
  apply runs_bind, runs_assert; [by apply Z.ltb_lt|]. apply runs_bind, runs_assert; [apply andb_true_intro; split; by apply aligned_PAGE|].
  apply runs_bind, runs_assert; [rewrite andb_true_iff, !Z.leb_le; unfold USER_MEM_LOW, USER_MEM_HIGH; lia|]. rewrite !ptindex_eq by lia.
  pose proof (page_split lo Hal) as El. pose proof (page_split hi Hah) as Eh. pose proof (pti_range lo) as Rl. pose proof (pti_range hi) as Rh. change (2 ^ 10) with 1024 in Rl, Rh.
  assert (Pl : 1 <= pdi lo < 768) by (apply user_slot; unfold USER_MEM_LOW, USER_MEM_HIGH; lia).
  assert (Ph : 1 <= pdi hi < 768 \/ (pdi hi = 768 /\ pti hi = 0)) by lia.
  eapply runs_step; [apply (clear_table_ok s lent rest V pd T lo (pti lo) (PT_ENTRY_COUNT - pti lo)); try done; unfold PT_ENTRY_COUNT; lia|]. intros [] s1 (C1 & T1 & I1 & Ho1 & Hm1).
  eapply runs_step; [apply (clear_table_ok s1 lent rest V pd T hi 0 (pti hi)); try done; lia|]. intros [] s2 (C2 & T2 & I2 & Ho2 & Hm2).
  set (lo' := u32 (lo + _)). set (hi' := u32 (hi - _)). assert (Elo : vaddr_to_pdindex lo' = if decide (pti lo = 0) then pdi lo else pdi lo + 1).
  { unfold lo', PAGE_SIZE, PT_ENTRY_COUNT. destruct (decide (pti lo = 0)) as [->|Hn].
    - change ((1024 - 0) mod 1024) with 0. rewrite Z.mul_0_r, Z.add_0_r, u32_small, pdindex_eq by lia. done.
    - rewrite (Z.mod_small (1024 - pti lo)), u32_small, pdindex_eq by lia. unfold pdi at 1. replace (lo + 4096 * (1024 - pti lo)) with ((pdi lo + 1) * 2 ^ 22) by lia. by rewrite Z.div_mul. }
  assert (Ehi : vaddr_to_pdindex hi' = pdi hi).
  { unfold hi', PAGE_SIZE. rewrite u32_small, pdindex_eq by lia. unfold pdi at 1. replace (hi - 4096 * pti hi) with (pdi hi * 2 ^ 22) by lia. by rewrite Z.div_mul. }
  rewrite Elo, Ehi. set (a := if decide (pti lo = 0) then pdi lo else pdi lo + 1) in *. assert (Ha : pdi lo <= a <= pdi lo + 1 /\ (pti lo = 0 -> a = pdi lo) /\ (pti lo <> 0 -> a = pdi lo + 1)) by (clear; unfold a; destruct (decide (pti lo = 0)); split_and!; intros; done || lia).
  clearbody a. eapply runs_mono; [apply (free_tables_ok (Z.to_nat (pdi hi - a)) s2 lent rest V pd T a); try done; [congruence|lia|lia]|].
  intros [] s3 (C3 & T3 & lent' & T' & I3 & Ho3 & Hd3 & Hm3). split_and!; [congruence|congruence|]. exists lent', T'. split; [done|]. split; [by eapply others_dirs_trans; [eapply others_dirs_trans|]|].
  split; [intros j; rewrite Hd3; clear - El Eh Rl Rh Ha Hsame Hlh; repeat case_decide; done || lia|].
  intros va [Hva _]. rewrite Hm3, Hm2, Hm1. pose proof (page_split va Hva) as Ev. pose proof (pti_range va) as Rv. change (2 ^ 10) with 1024 in Rv. unfold PT_ENTRY_COUNT.
  clear - El Eh Ev Rl Rh Rv Ha Hsame Hlh. repeat case_decide; done || lia.
Qed.

(** ** Creating, destroying and changing directories *)

Lemma copy_eq s dst src lp lv : pt_mem s !! src = Some lp -> pt_mem s !! pd_virtual src = Some lv -> pd_virtual src <> dst -> whole (pt_mem s) dst -> whole (pt_mem s) (pd_virtual dst) ->
  copy_pagedir dst src s = Done tt (with_mem (<[pd_virtual dst := lv]> (<[dst := lp]> (pt_mem s))) s).
Proof using.
  intros E1 E2 Hne (l1 & Hl1 & _) (l2 & Hl2 & _). pose proof (virtual_other dst). unfold copy_pagedir. rewrite (kbind_done _ _ _ _ _ (load_page_eq s src lp E1)).
  rewrite (kbind_done _ _ _ _ _ (store_page_eq s dst lp ltac:(by rewrite Hl1))). set (s1 := with_mem _ s).
  rewrite (kbind_done _ _ s1 lv s1) by (apply load_page_eq; simpl; by rewrite lookup_insert_ne). by rewrite store_page_eq by (simpl; by rewrite lookup_insert_ne, Hl2).
Qed.
Lemma dir_ok_copy m m' pd pd' T : dir_ok kd m pd T -> m' !! pd' = m !! pd -> m' !! pd_virtual pd' = m !! pd_virtual pd -> dir_ok kd m' pd' T.
Proof using.
  intros [H1 H2 H3 H4 H5] E1 E2. assert (F1 : forall i, entry m' pd' i = entry m pd i) by (intros i; unfold entry; by rewrite E1).
  assert (F2 : forall i, entry m' (pd_virtual pd') i = entry m (pd_virtual pd) i) by (intros i; unfold entry; by rewrite E2).
  split; [unfold whole; by rewrite E1|unfold whole; by rewrite E2| |intros i Hi; rewrite F1; by apply H4|done].
  intros i Hi. specialize (H3 i Hi). unfold slot_ok in *. by rewrite F1, F2.
Qed.

Lemma pt_create_ok s lent rest V : paging_ok s lent rest V ->
  runs (pt_create_pagedir junk) s (fun r s' => current_pagedir s' = current_pagedir s /\ template_pagedir s' = template_pagedir s /\
    match r with
    | None => paging_ok s' lent rest V /\ pt_mem s' = pt_mem s
    | Some pd => V !! pd = None /\ exists lent', paging_ok s' lent' rest (<[pd := ∅]> V) /\ forall pd' T va, V !! pd' = Some T -> mapped (pt_mem s') T va = mapped (pt_mem s) T va
    end).
Proof using lent_ram.
  intros I. pose proof (po_mem _ _ _ _ I) as M. unfold pt_create_pagedir. change (page_alloc_n junk 2) with (page_alloc_n junk (2 ^ 1)).
  eapply runs_step; [by apply (alloc_ok s lent rest V 1)|]. intros r s1 (C1 & T1 & F1 & HQ). destruct r as [b|]; [|destruct HQ as (? & ? & _); go; by split_and!].
  destruct HQ as (Hlb & Hb & Hab & I1 & Hw & Hsame). change (2 ^ 1) with 2 in *. rewrite block_2 in *. pose proof (po_mem _ _ _ _ I1) as M1. pose proof (virtual_other b) as Hbv.
  assert (Hvb : V !! b = None) by (destruct (V !! b) eqn:HVb; [|done]; pose proof (lent_dir _ _ _ M _ _ HVb); congruence).
  pose proof (po_template _ _ _ _ I1) as Ht. set (t := template_pagedir s1) in *. pose proof (mo_dir _ _ _ _ _ _ _ _ M1 _ _ Ht) as HDt.
  destruct (do_phys _ _ _ _ HDt) as (lp & Elp & Llp). destruct (do_virt _ _ _ _ HDt) as (lv & Elv & Llv). pose proof (virtual_other t) as Htv.
  assert (Htb : b <> t) by congruence. assert (Hdt : t <> pd_virtual b /\ pd_virtual t <> b /\ pd_virtual t <> pd_virtual b).
  { pose proof (lent_dir _ _ _ M1 _ _ Ht) as Hlt. assert (Hl1 : <[b := 2]> lent !! b = Some 2) by apply lookup_insert_eq.
    split_and!; (eapply (lent_pages _ _ _ M1 t 2 b 2); try done; unfold pd_virtual, PAGE_SIZE; lia). }
  destruct Hdt as (Hd1 & Hd2 & Hd3). apply runs_bind, runs_get. fold t.
  eapply runs_done_bind; [eapply copy_eq; [exact Elp|exact Elv|done|apply Hw; set_solver|apply Hw; set_solver]|]. apply runs_ret. split; [done|]. split; [done|]. split; [done|].
  set (m2 := <[pd_virtual b := lv]> (<[b := lp]> (pt_mem s1))). assert (Hm2 : forall p, p <> b -> p <> pd_virtual b -> m2 !! p = pt_mem s1 !! p) by (intros p H1 H2; unfold m2; by rewrite !lookup_insert_ne).
  assert (M2 : mem_ok kd ram_lo ram_end m2 (final_page s1) (<[b := 2]> lent) (fun c k => rest c k \/ (c = b /\ k = 2)) V).
  { eapply mem_ok_unowned; [exact M1|right; by split|]. intros p Hp. apply Hm2; intros ->; apply Hp; unfold pd_virtual, PAGE_SIZE; lia. }
  exists (<[b := 2]> lent). split.
  - change (paging_ok (with_mem m2 s1) (<[b := 2]> lent) rest (<[b := ∅]> V)). rewrite <- (with_pages_same s1). eapply (paging_mem s1); [exact I1|apply I1| | | |].
    + eapply mem_ok_rest; [|apply mem_ok_create; [exact M2|done|right; by split|]].
      * intros c k. simpl. split; [intros [[?|[-> ->]] ?]; done|]. intros Hc. split; [by left|]. intros ->. assert (lent !! b = Some k) by (apply (mo_lent _ _ _ _ _ _ _ _ M); by right). congruence.
      * assert (E1 : m2 !! b = pt_mem s1 !! t) by (unfold m2; rewrite lookup_insert_ne, lookup_insert_eq by done; by rewrite Elp).
        assert (E2 : m2 !! pd_virtual b = pt_mem s1 !! pd_virtual t) by (unfold m2; by rewrite lookup_insert_eq, Elv).
        by eapply dir_ok_copy.
    + by rewrite lookup_insert_ne.
    + intros Hc. rewrite lookup_insert_is_Some. destruct (decide (b = current_pagedir s1)); [by left|by right].
    + intros q Hq _. apply Hm2; unfold pd_virtual, PAGE_SIZE; lia.
  - intros pd' T va HV'. change (mapped m2 T va = mapped (pt_mem s) T va). apply mapped_same. intros w Hw'. pose proof (lent_table _ _ _ M _ _ _ _ HV' Hw') as Hlw. assert (b <> w) by congruence.
    assert (pd_virtual b <> w).
    { eapply (lent_pages _ _ _ M1 b 2 w 1); [apply lookup_insert_eq|by rewrite lookup_insert_ne|unfold pd_virtual, PAGE_SIZE; lia|unfold PAGE_SIZE; lia|done]. }
    rewrite Hm2 by done. apply Hsame. set_solver.
Qed.

(** While a directory is destroyed: the blocks of others, its two pages, and its page tables from an entry on *)
Definition rest_from (rest : Z -> Z -> Prop) (pd : Z) (T : tables) (i c k : Z) : Prop :=
  rest c k \/ (c = pd /\ k = 2) \/ (k = 1 /\ exists j, i <= j /\ T !! j = Some c).

Lemma destroy_loop_ok n s lent rest V pd T i : paging_ok s lent (rest_from rest pd T i) V -> dir_ok kd (pt_mem s) pd T ->
  (forall j j' v, T !! j = Some v -> T !! j' = Some v -> j = j') -> (forall j v k, T !! j = Some v -> ~ rest v k) -> 1 <= i -> i + Z.of_nat n = 768 ->
  runs (destroy_loop n pd i) s (fun _ s' => current_pagedir s' = current_pagedir s /\ template_pagedir s' = template_pagedir s /\
    exists lent', paging_ok s' lent' (rest_from rest pd T 768) V /\ forall pd' T' va, V !! pd' = Some T' -> mapped (pt_mem s') T' va = mapped (pt_mem s) T' va).
Proof using lent_ram.
  revert s lent i. induction n as [|n IH]; intros s lent i I HD Hinj Hrest Hi Hn; cbn [destroy_loop].
  { apply runs_ret. split_and!; try done. exists lent. by replace i with 768 in * by lia. }
  pose proof (po_mem _ _ _ _ I) as M. pose proof (do_user _ _ _ _ HD i ltac:(lia)) as HS. unfold slot_ok in HS. destruct (T !! i) as [v|] eqn:HT.
  - destruct HS as (Ev & e & Ee & He & _). eapply runs_done_bind; [by apply load_eq; [exact Ee|lia]|]. rewrite He.
    assert (Hrv : rest_from rest pd T i v 1) by (right; right; split; [done|by exists i]). assert (Hrp : rest_from rest pd T i pd 2) by (right; by left).
    assert (Hlv : lent !! v = Some 1) by (apply (mo_lent _ _ _ _ _ _ _ _ M); by right). assert (Hlp : lent !! pd = Some 2) by (apply (mo_lent _ _ _ _ _ _ _ _ M); by right).
    assert (Hvp : v <> pd) by congruence.
    eapply runs_step; [eapply runs_done_bind; [by apply load_eq; [exact Ev|lia]|]; change (page_free_n v 1) with (page_free_n v (2 ^ 0)); by apply (free_ok s lent (rest_from rest pd T i) V v 0)|].
    intros [] s1 (C1 & T1 & F1 & I1 & Hm1). change (2 ^ 0 * PAGE_SIZE) with PAGE_SIZE in Hm1.
    assert (Hm : forall b k p, lent !! b = Some k -> b <> v -> b <= p < b + k * PAGE_SIZE -> pt_mem s1 !! p = pt_mem s !! p).
    { intros b k p Hb Hne Hp. apply Hm1. intros Hpv. eapply (lent_pages _ _ _ M b k v 1 p p); done || lia. }
    eapply runs_mono; [apply (IH s1 (delete v lent) (i + 1)); try done; [| |lia|lia]|].
    + pose proof I1 as [J1 J2 J3 J4]. split; try done. eapply mem_ok_rest; [|exact J2]. intros c k. unfold rest_from. simpl. split.
      * intros [[?|[?|(-> & j & Hj & HTj)]] Hne]; [by left|right; by left|]. right. right. split; [done|]. exists j. split; [|done]. destruct (decide (j = i)) as [->|]; [congruence|lia].
      * intros Hc. split; [destruct Hc as [?|[?|(-> & j & Hj & HTj)]]; [by left|right; by left|right; right; split; [done|exists j; split; [lia|done]]]|].
        intros ->. destruct Hc as [Hc|[[? _]|(-> & j & Hj & HTj)]]; [by eapply Hrest|done|]. pose proof (Hinj _ _ _ HT HTj). lia.
    + apply (dir_ok_same _ (pt_mem s)); [| |done]; eapply Hm; try done; unfold pd_virtual, PAGE_SIZE; lia.
    + intros [] s2 (C2 & T2 & lent' & I2 & Hs2). split_and!; [congruence|congruence|]. exists lent'. split; [done|]. intros pd' T' va HV'. rewrite (Hs2 pd') by done.
      apply mapped_same. intros w Hw. pose proof (lent_table _ _ _ M _ _ _ _ HV' Hw) as Hlw. eapply (Hm w 1); [done| |unfold PAGE_SIZE; lia].
      intros ->. eapply (mo_disj _ _ _ _ _ _ _ _ M v 1 1); [right; split; [done|by exists pd', T', (pdi va)]|done].
  - destruct HS as (e & Ee & He). eapply runs_done_bind; [by apply load_eq; [exact Ee|lia]|]. rewrite He. apply runs_bind, runs_ret. eapply (IH s lent (i + 1)); try done; [|lia|lia].
    pose proof I as [J1 J2 J3 J4]. split; try done. eapply mem_ok_rest; [|exact J2]. intros c k. unfold rest_from. split.
    + intros [?|[?|(-> & j & Hj & HTj)]]; [by left|right; by left|]. right. right. split; [done|]. exists j. split; [|done]. destruct (decide (j = i)) as [->|]; [congruence|lia].
    + intros [?|[?|(-> & j & Hj & HTj)]]; [by left|right; by left|]. right. right. split; [done|]. exists j. split; [lia|done].
Qed.

Lemma pt_destroy_ok s lent rest V pd T : paging_ok s lent rest V -> V !! pd = Some T -> pd <> template_pagedir s -> pd <> current_pagedir s ->
  runs (pt_destroy_pagedir pd) s (fun _ s' => current_pagedir s' = current_pagedir s /\ template_pagedir s' = template_pagedir s /\
    exists lent', paging_ok s' lent' rest (delete pd V) /\ others V pd (pt_mem s) (pt_mem s')).
Proof using lent_ram.
  intros I HV Ht Hc. pose proof (po_mem _ _ _ _ I) as M. pose proof (mo_dir _ _ _ _ _ _ _ _ M _ _ HV) as HD. destruct (dir_range _ _ _ M _ _ HV) as (Hal & _ & _). unfold pt_destroy_pagedir.
  apply runs_bind, runs_assert; [by apply aligned_PAGE|]. apply runs_bind, runs_assert; [done|]. change (USER_MEM_LOW / PT_VADDR_SIZE) with 1. change ((USER_MEM_HIGH - 1) / PT_VADDR_SIZE) with 767.
  assert (I0 : paging_ok s lent (rest_from rest pd T 1) (delete pd V)).
  { pose proof I as [J1 J2 J3 J4]. split; [done| |by rewrite lookup_delete_ne|by rewrite lookup_delete_ne]. eapply mem_ok_rest; [|eapply mem_ok_forget; [exact J2|exact HV]]. intros c k. unfold rest_from, owner. split.
    - intros [?|[[-> [? [<- _]%lookup_singleton_Some]]|(-> & pd' & T' & j & [<- <-]%lookup_singleton_Some & HT')]]; [by left|right; by left|]. right. right. split; [done|]. exists j. split; [|done].
      by apply (do_dom _ _ _ _ HD) in HT' as [? _].
    - intros [?|[[-> ->]|(-> & j & _ & HT')]]; [by left|right; left; by rewrite lookup_singleton_eq|]. right. right. split; [done|]. exists pd, T, j. by rewrite lookup_singleton_eq. }
  eapply runs_step; [apply (destroy_loop_ok (Z.to_nat (767 - 1 + 1)) s lent rest (delete pd V) pd T 1); try done|].
  { intros j j' v H1 H2. by destruct (mo_inj _ _ _ _ _ _ _ _ M _ _ _ _ _ _ _ HV H1 HV H2). }
  { intros j v k H1 H2. eapply (mo_disj _ _ _ _ _ _ _ _ M v 1 k); [right; split; [done|by exists pd, T, j]|done]. }
  intros [] s1 (C1 & T1 & lent1 & I1 & Hs1). pose proof (po_mem _ _ _ _ I1) as M1. change (page_free_n pd 2) with (page_free_n (P := P) pd (2 ^ 1)). eapply runs_mono; [apply (free_ok s1 lent1 _ _ pd 1 I1); [right; by left|lia]|].
  intros [] s2 (C2 & T2 & F2 & I2 & Hm2). split_and!; [congruence|congruence|]. exists (delete pd lent1). split.
  - pose proof I2 as [J1 J2 J3 J4]. split; try done. eapply mem_ok_rest; [|exact J2]. intros c k. unfold rest_from. simpl. split.
    + intros [[?|[[? _]|(_ & j & Hj & HTj)]] Hne]; [done|done|]. apply (do_dom _ _ _ _ HD) in HTj. lia.
    + intros Hr. split; [by left|]. intros ->. eapply (mo_disj _ _ _ _ _ _ _ _ M pd 2 k); [left; by rewrite HV|done].
  - intros pd' T' va Hne HV'. assert (HV1 : delete pd V !! pd' = Some T') by (by rewrite lookup_delete_ne). rewrite <- (Hs1 pd' T' va HV1). apply mapped_same. intros w Hw. apply Hm2. intros Hp.
    pose proof (lent_table _ _ _ M1 _ _ _ _ HV1 Hw) as Hlw. assert (Hlp : lent1 !! pd = Some 2) by (apply (mo_lent _ _ _ _ _ _ _ _ M1); right; right; by left).
    eapply (lent_pages _ _ _ M1 w 1 pd 2 w w); try done; [unfold PAGE_SIZE; lia|congruence].
Qed.

Lemma pt_set_ok s lent rest V pd T : paging_ok s lent rest V -> V !! pd = Some T ->
  runs (pt_set pd) s (fun _ s' => current_pagedir s' = pd /\ template_pagedir s' = template_pagedir s /\ cr3 s' = to_phys pd /\ paging_ok s' lent rest V
    /\ forall pd' T' va, V !! pd' = Some T' -> mapped (pt_mem s') T' va = mapped (pt_mem s) T' va).
Proof using.
  intros I HV. pose proof (po_mem _ _ _ _ I) as M. destruct (dir_range _ _ _ M _ _ HV) as (Hal & H1 & H2). destruct (mo_final _ _ _ _ _ _ _ _ M) as [_ Hf].
  destruct (virt_to_phys_eq s lent rest V pd I Hal) as (w & E & I'); [unfold pd_virtual, PAGE_SIZE in *; lia|]. unfold pt_set. eapply runs_done_bind; [exact E|]. apply runs_modify.
  split_and!; try done. { pose proof I' as [J1 J2 J3 J4]. split; try done. left. simpl. by rewrite HV. }
  intros pd' T' va HV'. simpl. apply mapped_same. intros v Hv. apply put_other. destruct (table_range _ _ _ M _ _ _ _ HV' Hv) as (_ & ? & _). lia.
Qed.

(** ** What the processor finds before and after *)

Lemma walk_after s s' lent lent' rest V pd T' va (f : option Z -> option Z) : paging_ok s lent rest V -> paging_ok s' lent' rest (<[pd := T']> V) -> others V pd (pt_mem s) (pt_mem s') ->
  user_page va -> (forall T, V !! pd = Some T -> mapped (pt_mem s') T' va = f (mapped (pt_mem s) T va)) ->
  forall pd', is_Some (V !! pd') -> walk (pt_mem s') pd' va = if decide (pd' = pd) then f (walk (pt_mem s) pd' va) else walk (pt_mem s) pd' va.
Proof using.
  intros I I' Ho [_ Hva] Hf pd' [T HT]. rewrite (walk_mapped _ _ _ (po_mem _ _ _ _ I) pd' T va HT Hva). destruct (decide (pd' = pd)) as [->|Hne].
  - rewrite (walk_mapped _ _ _ (po_mem _ _ _ _ I') pd T' va (lookup_insert_eq _ _ _) Hva). by apply Hf.
  - rewrite (walk_mapped _ _ _ (po_mem _ _ _ _ I') pd' T va) by (done || by rewrite lookup_insert_ne). by apply (Ho pd').
Qed.

(** C18: [pt_map] gives exactly the page asked for the translation asked for, as the processor finds it by way of the
    physical addresses in the directory, and changes the translation of no other page of any directory; it returns 0 unless
    the directory has no page table for the address and the page allocator has no page for one: then it returns [-ENOMEM]
    and changes no translation. *)
Theorem pt_map_spec s lent rest V pd va pa pdflags ptflags : paging_ok s lent rest V -> is_Some (V !! pd) -> pd <> template_pagedir s -> user_page va -> aligned pa ->
  0 <= pdflags < 2 ^ 12 -> present pdflags = true -> 0 <= ptflags < 2 ^ 12 -> present ptflags = true ->
  runs (pt_map junk pd va pa pdflags ptflags) s (fun r s' =>
    (exists lent' V', paging_ok s' lent' rest V' /\ dom V' = dom V)
    /\ (r = 0 \/ (r = - ENOMEM /\ (exists e, entry (pt_mem s) pd (vaddr_to_pdindex va) = Some e /\ present e = false) /\ exists p, Slab.pg_alloc 1 (pt_pages s) = Done None p)) /\
    forall pd' va', is_Some (V !! pd') -> user_page va' ->
      walk (pt_mem s') pd' va' = if decide (r = 0 /\ pd' = pd /\ va' = va) then Some (Z.lor pa ptflags) else walk (pt_mem s) pd' va').
Proof using lent_ram.
  intros I [T HT] Ht Hva Hpa H1 H2 H3 H4. eapply runs_mono; [by apply (pt_map_ok s lent rest V pd T va pa pdflags ptflags)|].
  intros r s' (_ & _ & [(-> & I' & Em & HTn & Hno)|(-> & lent' & T' & I' & Ho & Hm)]).
  - split_and!; [by exists lent, V| |].
    + right. split; [done|]. split; [|done]. pose proof (do_user _ _ _ _ (mo_dir _ _ _ _ _ _ _ _ (po_mem _ _ _ _ I) _ _ HT) _ (user_slot va (proj2 Hva))) as HS.
      rewrite pdindex_eq by (by apply user_range, Hva). unfold slot_ok in HS. by rewrite HTn in HS.
    + intros pd' va' _ _. rewrite Em. by rewrite decide_False by (by intros [[=] _]).
  - split_and!; [|by left|].
    + exists lent', (<[pd := T']> V). split; [done|]. rewrite dom_insert_L. apply elem_of_dom_2 in HT. set_solver.
    + intros pd' va' Hpd' Hva'. rewrite (walk_after s s' lent lent' rest V pd T' va' (fun o => if decide (va' = va) then Some (Z.lor pa ptflags) else o) I I' Ho Hva') by (done || (intros T0 HT0; assert (T0 = T) as -> by congruence; by apply Hm)).
      clear. repeat case_decide; naive_solver.
Qed.

(** The pages lent after some page tables were given back *)
Lemma lent_without s s' lent lent' rest V pd T T' (gone : Z -> Prop) `{forall j, Decision (gone j)} : paging_ok s lent rest V -> paging_ok s' lent' rest (<[pd := T']> V) -> V !! pd = Some T ->
  (forall j, T' !! j = if decide (gone j) then None else T !! j) -> forall b n, lent' !! b = Some n <-> lent !! b = Some n /\ ~ exists i, T !! i = Some b /\ gone i.
Proof using.
  intros I I' HV HT b n. pose proof (po_mem _ _ _ _ I) as M. pose proof (po_mem _ _ _ _ I') as M'.
  rewrite (mo_lent _ _ _ _ _ _ _ _ M'), (mo_lent _ _ _ _ _ _ _ _ M). split.
  - intros Hb. assert (Hb' : (owner V b n \/ rest b n) /\ forall i, T !! i = Some b -> T' !! i = Some b).
    { destruct Hb as [[[-> Hd]|(-> & pd' & T1 & j & HV' & Hj)]|Hr].
      - rewrite lookup_insert_is_Some' in Hd. assert (Hd' : is_Some (V !! b)) by (destruct Hd as [<-|]; [by rewrite HV|done]). split; [left; by left|].
        intros i Hi. exfalso. destruct Hd' as [Tb HVb]. pose proof (lent_dir _ _ _ M _ _ HVb). pose proof (lent_table _ _ _ M _ _ _ _ HV Hi). congruence.
      - apply lookup_insert_Some in HV' as [[<- <-]|[Hne HV']].
        + assert (HTj : T !! j = Some b) by (rewrite HT in Hj; by destruct (decide (gone j))). split; [left; right; split; [done|by exists pd, T, j]|].
          intros i Hi. destruct (mo_inj _ _ _ _ _ _ _ _ M _ _ _ _ _ _ _ HV Hi HV HTj) as [_ ->]. done.
        + split; [left; right; split; [done|by exists pd', T1, j]|]. intros i Hi. by destruct (mo_inj _ _ _ _ _ _ _ _ M _ _ _ _ _ _ _ HV Hi HV' Hj) as [? _].
      - split; [by right|]. intros i Hi. exfalso. eapply (mo_disj _ _ _ _ _ _ _ _ M b 1 n); [right; split; [done|by exists pd, T, i]|done]. }
    destruct Hb' as [Hb1 Hb2]. split; [done|]. intros (i & Hi & Hg). specialize (Hb2 i Hi). rewrite HT, decide_True in Hb2 by done. done.
  - intros [[[[-> Hd]|(-> & pd' & T1 & j & HV' & Hj)]|Hr] Hn]; [left; left|left; right|by right].
    + split; [done|]. rewrite lookup_insert_is_Some'. by right.
    + split; [done|]. destruct (decide (pd' = pd)) as [->|Hne]; [|exists pd', T1, j; by rewrite lookup_insert_ne]. assert (T1 = T) as -> by congruence.
      exists pd, T', j. rewrite lookup_insert_eq. split; [done|]. rewrite HT, decide_False; [done|]. intros Hg. apply Hn. by exists j.
Qed.

(** C19: [pt_unmap_range] removes the translations of exactly the pages of the range from exactly the directory given,
    and gives back exactly the directory's page tables whose 4 MB lie in the range, provided that the range begins with a
    page table or goes on behind the first one. *)
Theorem pt_unmap_range_spec s lent rest V pd T lo hi : paging_ok s lent rest V -> V !! pd = Some T -> pd <> template_pagedir s ->
  aligned lo -> aligned hi -> USER_MEM_LOW <= lo -> lo < hi -> hi <= USER_MEM_HIGH -> lo mod PT_VADDR_SIZE = 0 \/ lo / PT_VADDR_SIZE < hi / PT_VADDR_SIZE ->
  runs (pt_unmap_range pd lo hi) s (fun _ s' => (exists lent' V', paging_ok s' lent' rest V' /\ dom V' = dom V
      /\ forall b n, lent' !! b = Some n <-> lent !! b = Some n /\ ~ exists i, T !! i = Some b /\ lo <= i * PT_VADDR_SIZE /\ (i + 1) * PT_VADDR_SIZE <= hi) /\
    forall pd' va, is_Some (V !! pd') -> user_page va -> walk (pt_mem s') pd' va = if decide (pd' = pd /\ lo <= va < hi) then None else walk (pt_mem s) pd' va).
Proof using lent_ram.
  intros I HT Ht Hl Hh H1 H2 H3 Hr. change PT_VADDR_SIZE with (2 ^ 22) in *. assert (Hr' : pti lo = 0 \/ pdi lo < pdi hi).
  { destruct Hr as [Hr|Hr]; [left|by right]. pose proof (page_split lo Hl) as E. pose proof (pti_range lo). unfold pdi in E. pose proof (Z.div_mod lo (2 ^ 22)). lia. }
  eapply runs_mono; [by apply (pt_unmap_range_ok s lent rest V pd T lo hi)|]. intros [] s' (_ & _ & lent' & T' & I' & Ho & Hd & Hm). split.
  - exists lent', (<[pd := T']> V). split; [done|]. split; [rewrite dom_insert_L; apply elem_of_dom_2 in HT; set_solver|]. by apply (lent_without s s' lent lent' rest V pd T T' (fun i => lo <= i * 2 ^ 22 /\ (i + 1) * 2 ^ 22 <= hi)).
  - intros pd' va Hpd' Hva. rewrite (walk_after s s' lent lent' rest V pd T' va (fun o => if decide (lo <= va < hi) then None else o) I I' Ho Hva) by (done || (intros T0 HT0; assert (T0 = T) as -> by congruence; by apply Hm)).
    clear. repeat case_decide; naive_solver.
Qed.

(** C20: [pt_destroy_pagedir] gives back exactly the two pages of the directory and its page tables, each once, and
    leaves the other directories as they are. *)
Theorem pt_destroy_spec s lent rest V pd T : paging_ok s lent rest V -> V !! pd = Some T -> pd <> template_pagedir s -> pd <> current_pagedir s ->
  runs (pt_destroy_pagedir pd) s (fun _ s' => exists lent', paging_ok s' lent' rest (delete pd V)
    /\ (forall b n, lent' !! b = Some n <-> lent !! b = Some n /\ ~ owner {[pd := T]} b n)
    /\ forall pd' va, is_Some (V !! pd') -> pd' <> pd -> user_page va -> walk (pt_mem s') pd' va = walk (pt_mem s) pd' va).
Proof using lent_ram.
  intros I HV Ht Hc. eapply runs_mono; [by apply (pt_destroy_ok s lent rest V pd T)|]. intros [] s' (_ & _ & lent' & I' & Ho). exists lent'. split; [done|].
  pose proof (po_mem _ _ _ _ I) as M. pose proof (po_mem _ _ _ _ I') as M'. split.
  - pose proof (mem_ok_forget _ _ _ _ _ _ _ _ _ _ M HV) as Mf. intros b n. rewrite (mo_lent _ _ _ _ _ _ _ _ M'), (mo_lent _ _ _ _ _ _ _ _ Mf). split.
    + intros Hb. split; [tauto|]. intros Ho'. destruct Hb as [Hb|Hb]; [eapply (mo_disj _ _ _ _ _ _ _ _ Mf); [exact Hb|by right]|].
      eapply (mo_disj _ _ _ _ _ _ _ _ M b n n); [|exact Hb]. destruct Ho' as [[-> [? [<- _]%lookup_singleton_Some]]|(-> & pd' & T' & j & [<- <-]%lookup_singleton_Some & HT')]; [left; by rewrite HV|].
      right. split; [done|by exists pd, T, j].
    + tauto.
  - intros pd' va [T' HT'] Hne [_ Hva]. rewrite (walk_mapped _ _ _ M pd' T' va HT' Hva). rewrite (walk_mapped _ _ _ M' pd' T' va) by (done || by rewrite lookup_delete_ne). by apply (Ho pd').
Qed.

End Spec.

End PageTableSpec.
