(* ===== verification/PageInit.v ===== *)
(** * Setting up paging ([pt_init] of [mm/pagetable.c], [mm/phys.c])

    The kernel starts in a directory of the boot loader's, which maps the first 4 MB of physical memory where they are
    and the kernel at [kernel_start].  [pt_init] builds its own from the pages behind the kernel, maps all memory there
    is and gives what is left to the page allocator.

    The register [cr3] holds a physical address.  Where the code follows it, it relies on the first 4 MB of memory being
    mapped where they are, so that the page is the physical page, which the model finds at [to_virt]. *)

From S2P Require Import Prelude.
From S2P Require Import Slab PageTable.

Module PageInit.
Import Slab PageTable.

Local Open Scope Z_scope.
Local Open Scope kernel_scope.

(** ** [mm/phys.c] *)

Record mmap_entry : Type := mk_mmap_entry {
  me_baselo : Z;
  me_basehi : Z;
  me_lenlo : Z;
  me_lenhi : Z;
  me_type : Z;
  me_reserved : Z
}.

(** The end of the usable range of memory the kernel is in; [None] if the assertion behind the loop fails *)
Fixpoint phys_detect_highmem (md_ents : list mmap_entry) : option Z :=
  match md_ents with
  | [] => None
  | e :: md_ents =>
      let base := me_baselo e in
      let length := me_lenlo e in
      let type := me_type e in
      if (type =? 1) && (base <=? KERNEL_PHYS_BASE) && (KERNEL_PHYS_BASE <? u32 (base + length)) then Some (u32 (base + length))
      else phys_detect_highmem md_ents
  end.

Section Init.
Context {P : Type} (page_add_range : Z -> Z -> kernel P unit).
(** [&kernel_end], and the memory map the boot loader left *)
Context (kernel_end : Z) (mmap : list mmap_entry).

Definition PD_PRESENT : Z := 0x001.
Definition PD_WRITE : Z := 0x002.
Definition low_bits (f : Z) : Z := Z.land f (u32 (Z.lnot PAGE_MASK)).

Definition with_final (p : Z) (s : paging P) : paging P :=
  mk_paging (pt_pages s) (pt_mem s) (current_pagedir s) (template_pagedir s) p (phys_map_count s) (cr3 s).

(** ** [_pt_fill_page] *)

Fixpoint fill_loop (n : nat) (pt ptflags pstart i : Z) : kernel (paging P) unit :=
  match n with
  | O => kret tt
  | S n =>
      store pt i (Z.land (u32 (i * PAGE_SIZE + pstart)) PAGE_MASK) ;;;
      e <- load pt i ;;
      store pt i (Z.lor e (low_bits ptflags)) ;;;
      fill_loop n pt ptflags pstart (i + 1)
  end.

Definition pt_fill_page (pd pt pdflags ptflags vstart pstart : Z) : kernel (paging P) unit :=
  kassert (negb (pd =? NULL) && negb (pt =? NULL)) ;;;
  kassert (vstart mod PT_VADDR_SIZE =? 0) ;;;
  clear pt 0 PT_ENTRY_COUNT ;;;
  fill_loop (Z.to_nat PT_ENTRY_COUNT) pt ptflags pstart 0 ;;;
  let base := vaddr_to_pdindex vstart in
  let table := vaddr_to_pdindex pt in
  let entry := vaddr_to_ptindex pt in
  s <- kget ;;
  pde <- load (to_virt (cr3 s)) table ;;
  pt_phys_tmp_map (Z.land pde PAGE_MASK) ;;;
  pte <- load_tmp entry ;;
  let page := Z.land pte PAGE_MASK in
  store pd base (Z.lor page (low_bits pdflags)) ;;;
  store (pd_virtual pd) base pt.

(** ** [pt_init] *)

(** The loop that maps the rest of memory; the last page table it fills *)
Fixpoint init_loop (fuel : nat) (pagedir pagetable vaddr paddr physmax : Z) : kernel (paging P) Z :=
  match fuel with
  | O => fun _ => NoFuel
  | S fuel =>
      let pagetable := pagetable + PAGE_SIZE in
      let vaddr := u32 (vaddr + PT_VADDR_SIZE) in
      let paddr := u32 (paddr + PT_VADDR_SIZE) in
      pt_fill_page pagedir pagetable (Z.lor PD_PRESENT PD_WRITE) (Z.lor PT_PRESENT PT_WRITE) vaddr paddr ;;;
      if paddr <? physmax then init_loop fuel pagedir pagetable vaddr paddr physmax else kret pagetable
  end.

(** Its own directory, the page table for temporary mappings and those for the first 4 MB and the kernel; the page table of the kernel *)
Definition init_pagedir : kernel (paging P) Z :=
  s <- kget ;;
  let temppdir := to_virt (cr3 s) in
  let pagedir := kernel_end in
  kassert (PAGE_ALIGNED pagedir) ;;;
  clear pagedir 0 PT_ENTRY_COUNT ;;;
  clear (pd_virtual pagedir) 0 PT_ENTRY_COUNT ;;;
  let final := pagedir + 2 * PAGE_SIZE in
  kmodify (with_final final) ;;;
  kassert (PAGE_ALIGNED final) ;;;
  clear final 0 PT_ENTRY_COUNT ;;;
  store temppdir (PT_ENTRY_COUNT - 1) (Z.lor (Z.lor (u32 (final - kernel_start + KERNEL_PHYS_BASE)) PT_PRESENT) PT_WRITE) ;;;
  e <- load temppdir (PT_ENTRY_COUNT - 1) ;;
  store pagedir (PT_ENTRY_COUNT - 1) e ;;;
  store (pd_virtual pagedir) (PT_ENTRY_COUNT - 1) final ;;;
  let pagetable := final + PAGE_SIZE in
  pt_fill_page pagedir pagetable (Z.lor PD_PRESENT PD_WRITE) (Z.lor PT_PRESENT PT_WRITE) 0 0 ;;;
  let pagetable := pagetable + PAGE_SIZE in
  pt_fill_page pagedir pagetable (Z.lor PD_PRESENT PD_WRITE) (Z.lor PT_PRESENT PT_WRITE) kernel_start KERNEL_PHYS_BASE ;;;
  kret pagetable.

Definition pt_init : kernel (paging P) unit :=
  let pagedir := kernel_end in
  pagetable <- init_pagedir ;;
  kmodify (fun s => with_current pagedir (cr3 s) s) ;;;
  pt_set pagedir ;;;
  physmax <- kderef (phys_detect_highmem mmap) ;;
  pagetable <- init_loop (Z.to_nat PT_ENTRY_COUNT) pagedir pagetable kernel_start KERNEL_PHYS_BASE physmax ;;
  on_pages (page_add_range (u32 (pagetable + PT_ENTRY_COUNT)) (u32 (physmax + kernel_start - KERNEL_PHYS_BASE))).

End Init.

End PageInit.
