(* ===== verification/PageInitSpec.v ===== *)
(** * What [pt_init] and [pt_template_init] set up

    [pt_init] leaves a directory that maps the kernel's memory one to one, and [pt_template_init] the template that the
    invariant of page tables, [paging_ok], starts from. *)

From S2P Require Import Prelude.
From S2P Require Import SlabInv PageTable PageTableInv PageTableSpec PageInit.

Module PageInitSpec.
Import SlabInv PageTable PageTableInv PageTableSpec PageInit.

Local Open Scope Z_scope.
Local Open Scope kernel_scope.

Abbreviation RW := 3.

Section Fill.
Context {P : Type}.
Implicit Types s : paging P.

Lemma mask_idem a : aligned a -> 0 <= a < 2 ^ 32 -> Z.land a PAGE_MASK = a.
Proof using. intros Ha Hr. rewrite <- (Z.lor_0_r a) at 1. by apply mask_flags. Qed.
Lemma page_aligned i q : aligned q -> aligned (u32 (i * PAGE_SIZE + q)).
Proof using.
  unfold aligned, u32. intros Ha. change (2 ^ 32) with (2 ^ 12 * 2 ^ 20). rewrite Z.rem_mul_r by lia. rewrite (Z.mul_comm (2 ^ 12)), Z.mod_add, Z.mod_mod by lia.
  change PAGE_SIZE with (2 ^ 12). by rewrite Z.add_comm, Z.mod_add by lia.
Qed.

Definition linear (q : Z) (i : Z) : Z := Z.lor (u32 (i * PAGE_SIZE + q)) RW.

Lemma fill_loop_ok n : forall s pt q i, aligned q -> whole (pt_mem s) pt -> 0 <= i -> i + Z.of_nat n = 1024 ->
  runs (fill_loop n pt RW q i) s (fun _ s' => exists m', s' = with_mem m' s /\ (forall p, p <> pt -> m' !! p = pt_mem s !! p) /\ whole m' pt /\
    forall j, 0 <= j < 1024 -> entry m' pt j = if decide (i <= j) then Some (linear q j) else entry (pt_mem s) pt j).
Proof using.
  induction n as [|n IH]; intros s pt q i Hq Hw Hi Hn; cbn [fill_loop].
  { apply runs_ret. exists (pt_mem s). split; [by destruct s|]. split_and!; try done. intros j Hj. by rewrite decide_False by lia. }
  set (a := Z.land (u32 (i * PAGE_SIZE + q)) PAGE_MASK). assert (Ea : a = u32 (i * PAGE_SIZE + q)) by (apply mask_idem; [by apply page_aligned|apply u32_range]).
  eapply runs_done_bind; [apply store_eq; [done|lia]|]. set (m1 := put _ _ _ _).
  eapply runs_done_bind; [apply load_eq; [simpl; unfold m1; rewrite entry_put, decide_True by (done || lia); done|done]|].
  eapply runs_done_bind; [apply store_eq; [simpl; by apply put_whole|lia]|]. simpl. set (m2 := put m1 _ _ _).
  assert (W2 : whole m2 pt) by (by apply put_whole, put_whole).
  eapply runs_mono; [apply (IH (with_mem m2 (with_mem m1 s)) pt q (i + 1)); simpl; [done|done|lia|lia]|]. intros _ s' (m' & -> & Ho & W' & He). simpl in *.
  exists m'. split; [done|]. split_and!; [|done|].
  - intros p Hp. rewrite Ho by done. unfold m2, m1. by rewrite !put_other by done.
  - intros j Hj. rewrite He by done. destruct (decide (i + 1 <= j)); [by rewrite decide_True by lia|]. unfold m2. rewrite entry_put by (by apply put_whole || lia).
    destruct (decide (pt = pt /\ j = i)) as [[_ ->]|Hne]; [rewrite decide_True by lia; unfold linear; by rewrite <- Ea|].
    assert (j <> i) by (intros ->; by apply Hne). unfold m1. rewrite entry_put, !decide_False by (done || lia). done.
Qed.

(** The page the directory [d] maps [v] to *)
Definition found (m : gmap Z (list Z)) (d fp v : Z) : Prop := exists e e', let t := to_virt (Z.land e PAGE_MASK) in
  entry m d (pdi v) = Some e /\ entry m t (pti v) = Some e' /\ Z.land e' PAGE_MASK = to_phys v /\ t <> fp /\ t <> v /\ d <> v /\ d <> fp.

(** What [_pt_fill_page] does to the memory *)
Record filled (m m' : gmap Z (list Z)) (pd pt fp i q : Z) : Prop := {
  fl_other : forall p, p <> pd -> p <> pd_virtual pd -> p <> pt -> p <> fp -> m' !! p = m !! p;
  fl_whole : forall p, whole m p -> whole m' p;
  fl_table : forall j, 0 <= j < 1024 -> entry m' pt j = Some (linear q j);
  fl_phys : forall j, 0 <= j -> entry m' pd j = if decide (j = i) then Some (Z.lor (to_phys pt) RW) else entry m pd j;
  fl_virt : forall j, 0 <= j -> entry m' (pd_virtual pd) j = if decide (j = i) then Some pt else entry m (pd_virtual pd) j
}.

Lemma fill_page_ok s pd pt v q : let m := pt_mem s in let fp := final_page s in
  pd <> 0 -> aligned v -> v mod 2 ^ 22 = 0 -> 0 <= v < 2 ^ 32 -> aligned q -> kernel_start <= pt < 2 ^ 32 -> whole m pd -> whole m (pd_virtual pd) -> whole m pt -> whole m fp ->
  pd <> pt -> pd <> fp -> pd_virtual pd <> pt -> pd_virtual pd <> fp -> pt <> fp -> found m (to_virt (cr3 s)) fp pt ->
  runs (pt_fill_page pd pt RW RW v q) s (fun _ s' => exists m', s' = with_mem m' s /\ filled m m' pd pt fp (pdi v) q).
Proof using.
  intros m fp Hpd Hva Hv Hvr Hq Hpt W1 W2 W3 W4 D1 D2 D3 D4 D5 (e & e' & He & He' & Hm & F1 & F2 & F3 & F4). unfold kernel_start in Hpt.
  pose proof (virtual_other pd) as D6. pose proof (pti_range pt). assert (0 <= pdi pt) by (apply Z.div_pos; lia).
  assert (Hi : 0 <= pdi v < 1024) by (unfold pdi; split; [apply Z.div_pos; lia|apply Z.div_lt_upper_bound; lia]).
  unfold pt_fill_page. apply runs_bind, runs_assert; [unfold Slab.NULL; rewrite andb_true_iff, !negb_true_iff, !Z.eqb_neq; lia|].
  apply runs_bind, runs_assert; [by apply Z.eqb_eq|]. eapply runs_done_bind; [apply clear_eq; [done|lia|done|unfold PT_ENTRY_COUNT; lia]|]. fold m. set (m1 := fill m pt 0 PT_ENTRY_COUNT).
  assert (WA : forall p, whole m p -> whole m1 p) by (intros p; apply fill_whole; [lia|done|unfold PT_ENTRY_COUNT; lia]).
  eapply runs_step; [apply (fill_loop_ok (Z.to_nat PT_ENTRY_COUNT) (with_mem m1 s) pt q 0); simpl; [done|by apply WA|lia|done]|].
  intros _ s2 (m2 & -> & O2 & WT & E2). simpl in O2, E2. change (with_mem m2 (with_mem m1 s)) with (with_mem m2 s).
  assert (S2 : forall p, p <> pt -> m2 !! p = m !! p) by (intros p Hp; rewrite O2 by done; by apply fill_other).
  assert (WB : forall p, whole m p -> whole m2 p) by (intros p Hp; destruct (decide (p = pt)) as [->|]; [done|by apply (whole_same m); [apply S2|]]).
  apply runs_bind, runs_get. cbn [cr3]. rewrite !pdindex_eq, ptindex_eq by lia. set (s2 := with_mem m2 s).
  eapply runs_done_bind; [apply (load_eq s2 _ _ e); [simpl; rewrite (entry_same m) by (by apply S2); exact He|lia]|].
  pose proof (mask_aligned e). pose proof (mask_range e). eapply runs_done_bind; [apply (tmp_map_eq s2); [done|by apply WB]|].
  eapply runs_done_bind; [apply (load_tmp_eq s2 _ _ e'); [done|done|by apply WB|done|lia|simpl; rewrite (entry_same m) by (by apply S2); exact He']|].
  rewrite Hm. change (low_bits RW) with RW. simpl. fold fp. set (m3 := put m2 fp 1023 _). assert (WC : forall p, whole m p -> whole m3 p) by (intros p Hp; by apply put_whole, WB).
  eapply runs_done_bind; [apply store_eq; [simpl; by apply WC|lia]|]. simpl. set (m4 := put m3 pd _ _). eapply runs_done; [apply store_eq; [simpl; by apply put_whole, WC|lia]|]. simpl.
  eexists. split; [reflexivity|]. split.
  - intros p ? ? ? ?. unfold m4, m3. rewrite !put_other by congruence. by apply S2.
  - intros p Hp. by apply put_whole, put_whole, WC.
  - intros j Hj. rewrite (entry_same m2) by (unfold m4, m3; by rewrite !put_other by congruence). rewrite E2 by done. by rewrite decide_True by lia.
  - intros j Hj. rewrite (entry_same m4) by (by rewrite put_other by congruence). unfold m4. rewrite entry_put by (by apply WC || lia).
    destruct (decide (j = pdi v)) as [->|Hne]; [by rewrite decide_True|rewrite decide_False by tauto]. apply entry_same. unfold m3. rewrite put_other by congruence. by apply S2.
  - intros j Hj. rewrite entry_put by ((by apply put_whole, WC) || lia). destruct (decide (j = pdi v)) as [->|Hne]; [by rewrite decide_True|rewrite decide_False by tauto].
    apply entry_same. unfold m4, m3. rewrite !put_other by congruence. by apply S2.
Qed.

End Fill.

(** ** The pages behind the kernel *)

Section Boot.
Context {P : Type} (ke : Z) (n : Z).
Implicit Types s : paging P.

(** Two for the directory, one for temporary mappings, one for the first 4 MB, then those for the kernel's memory *)
Definition page (i : Z) : Z := ke + i * PAGE_SIZE.
Definition pde (K i : Z) : Z :=
  if i =? 0 then Z.lor (to_phys (page 3)) RW
  else if i =? 1023 then Z.lor (to_phys (page 2)) RW
  else if (768 <=? i) && (i <? 768 + K) then Z.lor (to_phys (page (4 + (i - 768)))) RW
  else 0.

(** The directory the boot loader left, and [n] pages of memory behind the kernel that it maps *)
Record loader_ok (m : gmap Z (list Z)) (tp e : Z) : Prop := {
  ld_dir : whole m tp /\ tp < kernel_start /\ entry m tp 768 = Some e;
  ld_table : let t := to_virt (Z.land e PAGE_MASK) in t < kernel_start /\ t <> tp
    /\ forall v, aligned v -> pdi v = 768 -> exists e', entry m t (pti v) = Some e' /\ Z.land e' PAGE_MASK = to_phys v;
  ld_pages : forall i, 0 <= i < n -> whole m (page i)
}.
(** The kernel and the pages lie in 4 MB. *)
Context (ke_aligned : aligned ke) (ke_low : kernel_start <= ke) (ke_high : page n <= kernel_start + 2 ^ 22) (n_low : 5 < n).

(** After [K] page tables for the kernel's memory *)
Record stage (m : gmap Z (list Z)) (K : Z) : Prop := {
  st_pages : forall i, 0 <= i < n -> whole m (page i);
  st_dir : forall i, 0 <= i < 1024 -> entry m ke i = Some (pde K i);
  st_first : entry m (pd_virtual ke) 0 = Some (page 3);
  st_table : forall j i, 0 <= j < K -> 0 <= i < 1024 -> entry m (page (4 + j)) i = Some (linear (KERNEL_PHYS_BASE + j * 2 ^ 22) i)
}.

Lemma page_0 : page 0 = ke.
Proof using. unfold page. lia. Qed.
Lemma page_1 : page 1 = pd_virtual ke.
Proof using. unfold page, pd_virtual. lia. Qed.
Lemma page_ne i j : i <> j -> page i <> page j.
Proof using. unfold page, PAGE_SIZE. lia. Qed.
Lemma page_in i : 0 <= i < n -> kernel_start <= page i < kernel_start + 2 ^ 22 /\ aligned (page i) /\ pdi (page i) = 768.
Proof using ke_aligned ke_low ke_high.
  intros Hi. assert (Hr : kernel_start <= page i < kernel_start + 2 ^ 22) by (unfold page, PAGE_SIZE in *; lia). split; [done|]. split.
  - unfold aligned, page in *. change PAGE_SIZE with (2 ^ 12). by rewrite Z.mod_add by lia.
  - unfold pdi, kernel_start in *. symmetry. apply (Z.div_unique _ _ 768 (page i - 0xc0000000)); lia.
Qed.
Lemma phys_aligned v : aligned v -> aligned (to_phys v).
Proof using. unfold aligned, to_phys. intros H. replace (v - kernel_start + KERNEL_PHYS_BASE) with (v + (- 0xbff00) * 2 ^ 12) by (unfold kernel_start, KERNEL_PHYS_BASE; lia). by rewrite Z.mod_add by lia. Qed.
Lemma phys_mask v : aligned v -> kernel_start <= v < 2 ^ 32 -> Z.land (Z.lor (to_phys v) RW) PAGE_MASK = to_phys v.
Proof using. intros Ha Hv. apply mask_flags; [by apply phys_aligned|unfold to_phys, kernel_start, KERNEL_PHYS_BASE in *; lia|done]. Qed.

(** The page tables for the kernel's memory map it one to one. *)
Lemma linear_mask v j : aligned v -> kernel_start <= v < 2 ^ 32 - 2 ^ 22 -> pdi v = 768 + j -> Z.land (linear (KERNEL_PHYS_BASE + j * 2 ^ 22) (pti v)) PAGE_MASK = to_phys v.
Proof using.
  intros Ha Hv Hj. pose proof (page_split v Ha) as E. unfold linear. assert (Ep : pti v * PAGE_SIZE + (KERNEL_PHYS_BASE + j * 2 ^ 22) = to_phys v).
  { unfold to_phys, kernel_start, KERNEL_PHYS_BASE, PAGE_SIZE. lia. }
  rewrite Ep, u32_small by (unfold to_phys, kernel_start, KERNEL_PHYS_BASE in *; lia). apply phys_mask; [done|lia].
Qed.

Lemma pde_table K j : 0 <= j < K -> K <= 255 -> pde K (768 + j) = Z.lor (to_phys (page (4 + j))) RW.
Proof using. intros Hj HK. unfold pde. rewrite !(proj2 (Z.eqb_neq _ _)) by lia. replace (_ && _) with true by (symmetry; apply andb_true_iff; lia). do 3 f_equal. lia. Qed.
Lemma pde_step K i : 0 <= K < 255 -> pde (K + 1) i = if decide (i = 768 + K) then Z.lor (to_phys (page (4 + K))) RW else pde K i.
Proof using.
  intros HK. destruct (decide (i = 768 + K)) as [->|Hne]; [by apply pde_table; lia|]. unfold pde. destruct (i =? 0), (i =? 1023); try done.
  replace (i <? 768 + (K + 1)) with (i <? 768 + K); [done|]. destruct (Z.ltb_spec i (768 + K)), (Z.ltb_spec i (768 + (K + 1))); try done; lia.
Qed.

Lemma stage_found m K v : stage m K -> 1 <= K <= 255 -> aligned v -> pdi v = 768 -> kernel_start <= v < kernel_start + 2 ^ 22 -> page 4 <> v -> ke <> v -> found m ke (page 2) v.
Proof using ke_aligned ke_low ke_high n_low.
  intros S HK Ha Hd Hv H4 Hk. pose proof (pti_range v). destruct (page_in 4 ltac:(lia)) as (R4 & A4 & _). unfold kernel_start in Hv. exists (pde K 768), (linear KERNEL_PHYS_BASE (pti v)).
  assert (Ep : pde K 768 = Z.lor (to_phys (page 4)) RW) by (apply (pde_table K 0); lia). rewrite Ep. rewrite phys_mask by (done || unfold kernel_start in *; lia). rewrite to_virt_phys by (unfold kernel_start in *; lia).
  split_and!; try done.
  - rewrite Hd, (st_dir _ _ S) by lia. by rewrite Ep.
  - apply (st_table _ _ S 0); lia.
  - apply (linear_mask v 0); [done|unfold kernel_start; lia|done].
  - by apply page_ne.
  - rewrite <- page_0 at 1. by apply page_ne.
Qed.

Lemma stage_fill m m' K : stage m K -> 0 <= K < 255 -> filled m m' ke (page (4 + K)) (page 2) (768 + K) (KERNEL_PHYS_BASE + K * 2 ^ 22) -> 4 + K < n -> stage m' (K + 1).
Proof using.
  intros S HK [F1 F2 F3 F4 F5] Hn. split.
  - intros i Hi. by apply F2, (st_pages _ _ S).
  - intros i Hi. rewrite F4, pde_step by lia. destruct (decide _); [done|]. by apply (st_dir _ _ S).
  - rewrite F5, decide_False by lia. apply S.
  - intros j i Hj Hi. destruct (decide (j = K)) as [->|Hne]; [by apply F3|]. rewrite (entry_same m); [by apply (st_table _ _ S); lia|].
    apply F1; rewrite <- ?page_0, <- ?page_1; first [apply page_ne; lia|rewrite page_0; rewrite <- page_1; apply page_ne; lia].
Qed.

(** The page table for the next 4 MB of the kernel's memory *)
Lemma fill_next s K : final_page s = page 2 -> stage (pt_mem s) K -> 0 <= K < 255 -> 4 + K < n -> found (pt_mem s) (to_virt (cr3 s)) (page 2) (page (4 + K)) ->
  runs (pt_fill_page ke (page (4 + K)) RW RW (kernel_start + K * 2 ^ 22) (KERNEL_PHYS_BASE + K * 2 ^ 22)) s (fun _ s' => exists m', s' = with_mem m' s /\ stage m' (K + 1)).
Proof using ke_aligned ke_low ke_high n_low.
  intros Hf S HK Hn Hp. destruct (page_in (4 + K) ltac:(lia)) as (R & A & _). unfold kernel_start in R, ke_low. assert (Ev : kernel_start + K * 2 ^ 22 = (768 + K) * 2 ^ 22) by (unfold kernel_start; lia).
  assert (Eq : KERNEL_PHYS_BASE + K * 2 ^ 22 = (256 + K * 1024) * 2 ^ 12) by (unfold KERNEL_PHYS_BASE; lia).
  eapply runs_mono; [apply fill_page_ok; rewrite ?Hf, <- ?page_1|].
  - lia.
  - rewrite Ev. unfold aligned. replace ((768 + K) * 2 ^ 22) with ((768 + K) * 2 ^ 10 * 2 ^ 12) by lia. by apply Z.mod_mul.
  - rewrite Ev. by apply Z.mod_mul.
  - rewrite Ev. lia.
  - rewrite Eq. by apply Z.mod_mul.
  - unfold kernel_start. lia.
  - rewrite <- page_0. apply S. lia.
  - apply S. lia.
  - apply S. lia.
  - apply S. lia.
  - rewrite <- page_0 at 1. apply page_ne. lia.
  - rewrite <- page_0 at 1. by apply page_ne.
  - apply page_ne. lia.
  - by apply page_ne.
  - apply page_ne. lia.
  - done.
  - intros _ s' (m' & -> & F). exists m'. split; [done|]. rewrite Hf, Ev in F. unfold pdi in F. rewrite Z.div_mul in F by lia. by eapply stage_fill.
Qed.

(** [K] page tables behind the first are enough for the memory there is. *)
Definition enough (K physmax : Z) : Prop := (forall k, 1 <= k < K -> KERNEL_PHYS_BASE + k * 2 ^ 22 < physmax) /\ physmax <= KERNEL_PHYS_BASE + K * 2 ^ 22.

Lemma init_loop_ok fuel : forall s K k physmax, final_page s = page 2 -> cr3 s = to_phys ke -> stage (pt_mem s) (k + 1) -> 0 <= k < K -> K < 255 -> 4 + K < n -> enough K physmax -> K - k <= Z.of_nat fuel ->
  runs (init_loop fuel ke (page (4 + k)) (kernel_start + k * 2 ^ 22) (KERNEL_PHYS_BASE + k * 2 ^ 22) physmax) s
    (fun r s' => r = page (4 + K) /\ exists m', s' = with_mem m' s /\ stage m' (K + 1)).
Proof using ke_aligned ke_low ke_high n_low.
  induction fuel as [|fuel IH]; intros s K k physmax Hf Hc S Hk HK Hn [E1 E2] Hfu; [lia|]. cbn [init_loop].
  replace (page (4 + k) + PAGE_SIZE) with (page (4 + (k + 1))) by (unfold page; lia). change PT_VADDR_SIZE with (2 ^ 22). unfold kernel_start in ke_low.
  replace (u32 (kernel_start + k * 2 ^ 22 + 2 ^ 22)) with (kernel_start + (k + 1) * 2 ^ 22) by (rewrite u32_small; unfold kernel_start; lia).
  replace (u32 (KERNEL_PHYS_BASE + k * 2 ^ 22 + 2 ^ 22)) with (KERNEL_PHYS_BASE + (k + 1) * 2 ^ 22) by (rewrite u32_small; unfold KERNEL_PHYS_BASE; lia).
  destruct (page_in (4 + (k + 1)) ltac:(lia)) as (R & A & D). destruct (page_in 0 ltac:(lia)) as (R0 & _ & _). rewrite page_0 in R0. unfold kernel_start in R0.
  eapply runs_step; [apply (fill_next s (k + 1)); try done; try lia|].
  { rewrite Hc, to_virt_phys by lia. eapply stage_found; [exact S|lia|done|done|done|apply page_ne; lia|rewrite <- page_0 at 1; apply page_ne; lia]. }
  intros _ s' (m' & -> & S'). destruct (Z.ltb_spec (KERNEL_PHYS_BASE + (k + 1) * 2 ^ 22) physmax) as [Hlt|Hge].
  - assert (k + 1 <> K) by (intros <-; lia). eapply runs_mono; [apply (IH (with_mem m' s) K (k + 1)); try done; lia|].
    intros r s' (-> & m2 & -> & S2). split; [done|]. by exists m2.
  - assert (k + 1 = K) as <-. { destruct (decide (k + 1 < K)) as [Hlt|]; [|lia]. specialize (E1 (k + 1) ltac:(lia)). lia. }
    apply runs_ret. split; [done|]. by exists m'.
Qed.

(** Before the page tables are filled: what [init_pagedir] writes into the directories itself *)
Lemma loader_found m m' tp e v : loader_ok m tp e -> entry m' tp 768 = Some e -> m' !! to_virt (Z.land e PAGE_MASK) = m !! to_virt (Z.land e PAGE_MASK) ->
  aligned v -> pdi v = 768 -> kernel_start <= v -> found m' tp (page 2) v.
Proof using ke_aligned ke_low ke_high n_low.
  intros [(_ & Htp & _) (Ht & _ & Hlin) _] He Hm Ha Hd Hv. destruct (Hlin v Ha Hd) as (e' & He' & Hm'). destruct (page_in 2 ltac:(lia)) as (R & _ & _).
  exists e, e'. rewrite Hd. split_and!; try done; try lia. by rewrite (entry_same m).
Qed.

Record cleared (m m' : gmap Z (list Z)) (tp : Z) : Prop := {
  cl_other : forall p, p < kernel_start -> p <> tp -> m' !! p = m !! p;
  cl_tmp : forall i, 0 <= i < 1023 -> entry m' tp i = entry m tp i;
  cl_whole : forall p, whole m p -> whole m' p;
  cl_dir : forall i, 0 <= i < 1024 -> entry m' ke i = Some (if i =? 1023 then Z.lor (to_phys (page 2)) RW else 0)
}.

Definition clear_final (tp : Z) (m : gmap Z (list Z)) : gmap Z (list Z) :=
  let w := Z.lor (Z.lor (u32 (page 2 - kernel_start + KERNEL_PHYS_BASE)) PT_PRESENT) PT_WRITE in
  put (put (put (fill (fill (fill m ke 0 1024) (pd_virtual ke) 0 1024) (page 2) 0 1024) tp 1023 w) ke 1023 w) (pd_virtual ke) 1023 (page 2).
Lemma clear_final_ok m tp e : loader_ok m tp e -> cleared m (clear_final tp m) tp.
Proof using ke_aligned ke_low ke_high n_low.
  intros [(Wt & Htp & _) _ Hpg]. pose proof (page_in 2 ltac:(lia)) as (R & _ & _). pose proof (virtual_other ke) as Hv. assert (Hvl : ke < pd_virtual ke) by (unfold pd_virtual, PAGE_SIZE; lia).
  assert (H2 : ke <> page 2) by (rewrite <- page_0 at 1; by apply page_ne). assert (H12 : pd_virtual ke <> page 2) by (rewrite <- page_1; by apply page_ne).
  assert (Wk : whole m ke) by (rewrite <- page_0; apply Hpg; lia). assert (Wv : whole m (pd_virtual ke)) by (rewrite <- page_1; apply Hpg; lia).
  assert (FW : forall m p q, whole m q -> whole (fill m p 0 1024) q) by (intros; apply fill_whole; lia || done).
  unfold clear_final. set (w := Z.lor (Z.lor _ _) _). set (m1 := fill (fill (fill m ke 0 1024) _ _ _) _ _ _).
  assert (W1 : forall q, whole m q -> whole m1 q) by (intros q Hq; by do 3 apply FW). split.
  - intros p Hp Hne. rewrite !put_other by lia. unfold m1. by rewrite !fill_other by lia.
  - intros i Hi. rewrite (entry_same (put m1 tp 1023 w)) by (by rewrite !put_other by lia). rewrite entry_put, decide_False by (by apply W1 || lia). apply entry_same. unfold m1. by rewrite !fill_other by lia.
  - intros p Hp. by apply put_whole, put_whole, put_whole, W1.
  - intros i Hi. rewrite (entry_same (put (put m1 tp 1023 w) ke 1023 w)) by (by rewrite put_other by congruence). rewrite entry_put by ((by apply put_whole, W1) || lia).
    destruct (Z.eqb_spec i 1023) as [->|Hne].
    + rewrite decide_True by done. f_equal. unfold w. rewrite <- Z.lor_assoc. unfold to_phys. rewrite u32_small; [done|]. unfold kernel_start, KERNEL_PHYS_BASE in *. lia.
    + rewrite decide_False by tauto. rewrite (entry_same (fill m ke 0 1024)) by (rewrite put_other by lia; unfold m1; by rewrite !fill_other by congruence).
      rewrite entry_fill, decide_True by (done || lia). done.
Qed.

Lemma init_pagedir_ok s e : loader_ok (pt_mem s) (to_virt (cr3 s)) e ->
  runs (init_pagedir ke) s (fun r s' => r = page 4 /\ exists m', s' = with_mem m' (with_final (page 2) s) /\ stage m' 1).
Proof using ke_aligned ke_low ke_high n_low.
  intros L. set (m := pt_mem s) in *. set (tp := to_virt (cr3 s)) in *. pose proof (clear_final_ok m tp e L) as [C1 C2 C3 C4]. pose proof L as [(Wt & Htp & He) (Ht & Htt & Hlin) Hpg].
  set (m1 := clear_final tp m) in *. set (s1 := with_mem m1 (with_final (page 2) s)).
  assert (Wk : whole m ke) by (rewrite <- page_0; apply Hpg; lia). assert (Wv : whole m (pd_virtual ke)) by (rewrite <- page_1; apply Hpg; lia).
  assert (Hfound : forall m' v, m' !! tp = m1 !! tp -> m' !! to_virt (Z.land e PAGE_MASK) = m1 !! to_virt (Z.land e PAGE_MASK) -> aligned v -> pdi v = 768 -> kernel_start <= v -> found m' tp (page 2) v).
  { intros m' v Et Em Ha Hd Hv. apply (loader_found m m' tp e v L); try done; [rewrite (entry_same m1) by done; by rewrite C2 by lia|]. rewrite Em. by apply C1. }
  assert (FW : forall m p q, whole m q -> whole (fill m p 0 1024) q) by (intros; apply fill_whole; lia || done).
  unfold init_pagedir. apply runs_bind, runs_get. apply runs_bind, runs_assert; [by apply aligned_PAGE|].
  eapply runs_done_bind; [by apply clear_eq; [|lia|done|done]|]. eapply runs_done_bind; [apply clear_eq; [simpl; by apply FW|lia|done|done]|].
  change (ke + 2 * PAGE_SIZE) with (page 2). apply runs_bind, runs_modify. apply runs_bind, runs_assert; [apply aligned_PAGE, page_in; lia|].
  eapply runs_done_bind; [apply clear_eq; [simpl; apply FW, FW, Hpg; lia|lia|done|done]|]. fold tp. change (PT_ENTRY_COUNT - 1) with 1023.
  eapply runs_done_bind; [apply store_eq; [simpl; by do 3 apply FW|lia]|]. eapply runs_done_bind; [apply load_eq; [simpl; rewrite entry_put, decide_True by (done || lia || by do 3 apply FW); reflexivity|lia]|].
  eapply runs_done_bind; [apply store_eq; [simpl; by apply put_whole; do 3 apply FW|lia]|]. eapply runs_done_bind; [apply store_eq; [simpl; by apply put_whole, put_whole; do 3 apply FW|lia]|].
  match goal with |- runs _ ?x _ => change x with s1 end. replace (page 2 + PAGE_SIZE) with (page 3) by (unfold page; lia). replace (page 3 + PAGE_SIZE) with (page (4 + 0)) by (unfold page; lia).
  destruct (page_in 3 ltac:(lia)) as (R3 & A3 & D3). destruct (page_in 2 ltac:(lia)) as (R2 & _ & _). destruct (page_in 4 ltac:(lia)) as (R4 & A4 & D4). unfold kernel_start in ke_low, R3.
  eapply runs_step; [apply (fill_page_ok s1 ke (page 3) 0 0); simpl; rewrite <- ?page_1|].
  - lia.
  - done.
  - done.
  - lia.
  - done.
  - unfold kernel_start. lia.
  - by apply C3.
  - rewrite page_1. by apply C3.
  - apply C3, Hpg. lia.
  - apply C3, Hpg. lia.
  - rewrite <- page_0 at 1. by apply page_ne.
  - rewrite <- page_0 at 1. by apply page_ne.
  - by apply page_ne.
  - by apply page_ne.
  - by apply page_ne.
  - apply Hfound; try done. unfold kernel_start. lia.
  - intros _ s2 (m2 & -> & F). simpl in F. pose proof F as [F1 F2 F3 F4 F5].
    assert (S0 : stage m2 0).
    { split; [intros i Hi; by apply F2, C3, Hpg| | |lia].
      - intros i Hi. rewrite F4 by lia. unfold pde. change (pdi 0) with 0. destruct (decide (i = 0)) as [->|Hne]; [done|]. rewrite C4, (proj2 (Z.eqb_neq i 0) Hne) by lia.
        destruct (i =? 1023); [done|]. replace ((768 <=? i) && (i <? 768 + 0)) with false by (symmetry; apply andb_false_iff; lia). done.
      - by rewrite F5 by lia. }
    eapply runs_step; [apply (fill_next (with_mem m2 s1) 0); [done|done|lia|lia|]|].
    + simpl. assert (Hlow : forall p, p < kernel_start -> m2 !! p = m1 !! p).
      { intros p Hp. pose proof (page_in 1 ltac:(lia)) as (R1 & _ & _). rewrite page_1 in R1. apply F1; unfold kernel_start in *; lia. }
      apply Hfound; [by apply Hlow|by apply Hlow|done|done|apply R4].
    + intros _ s3 (m3 & -> & S1). apply runs_ret. split; [done|]. by exists m3.
Qed.

Lemma stage_final m K i w : stage m K -> stage (put m (page 2) i w) K.
Proof using.
  intros [S1 S2 S3 S4]. split; [intros j Hj; by apply put_whole, S1| | |].
  - intros j Hj. rewrite (entry_same m); [by apply S2|]. apply put_other. rewrite <- page_0. by apply page_ne.
  - rewrite (entry_same m); [done|]. apply put_other. rewrite <- page_1. by apply page_ne.
  - intros j k Hj Hk. rewrite (entry_same m); [by apply S4|]. apply put_other, page_ne. lia.
Qed.

(** The new directory is loaded. *)
Lemma boot_set_ok s K : current_pagedir s = ke -> final_page s = page 2 -> stage (pt_mem s) K -> 1 <= K <= 255 ->
  runs (pt_set ke) s (fun _ s' => exists m', s' = with_current ke (to_phys ke) (with_mem m' s) /\ stage m' K).
Proof using ke_aligned ke_low ke_high n_low.
  intros Hc Hf S HK. destruct (page_in 0 ltac:(lia)) as (R & _ & D). destruct (page_in 4 ltac:(lia)) as (R4 & A4 & _). rewrite page_0 in R, D. unfold kernel_start in R, R4. pose proof (pti_range ke).
  assert (Ep : pde K 768 = Z.lor (to_phys (page 4)) RW) by (apply (pde_table K 0); lia). assert (Em : Z.land (pde K 768) PAGE_MASK = to_phys (page 4)) by (rewrite Ep; apply phys_mask; [done|unfold kernel_start; lia]).
  assert (Et : to_virt (Z.land (pde K 768) PAGE_MASK) = page 4) by (rewrite Em; apply to_virt_phys; lia).
  unfold pt_set. eapply runs_done_bind; [apply (virt_to_phys_via s ke (pde K 768) (linear KERNEL_PHYS_BASE (pti ke)))|].
  - done.
  - unfold kernel_start. lia.
  - rewrite Hf. apply S. lia.
  - rewrite Hc, D. apply (st_dir _ _ S). lia.
  - rewrite Et. apply (st_table _ _ S 0); lia.
  - rewrite Et, Hf. by apply page_ne.
  - apply (linear_mask ke 0); [done|unfold kernel_start; lia|done].
  - apply runs_modify. eexists. split; [done|]. rewrite Hf. by apply stage_final.
Qed.

End Boot.

(** ** The state between [pt_init] and [pt_template_init] *)

Section Template.
Context {P : Type} `{PageLaws P} (junk : Z) (kd : Z -> Z) (ram_lo ram_end : Z).
Implicit Types s : paging P.

(** No directory but the first, whose page table for the first 4 MB is not one of those for the kernel's memory *)
Record boot_ok s (lent : gmap Z Z) (rest : Z -> Z -> Prop) : Prop := {
  bo_pages : pages_ok (pt_pages s) lent;
  bo_mem : mem_ok kd ram_lo ram_end (pt_mem s) (final_page s) lent rest ∅;
  bo_dir : dir_ok kd (pt_mem s) (current_pagedir s) ∅;
  bo_low : pd_virtual (current_pagedir s) < ram_lo /\ current_pagedir s <> final_page s;
  bo_first : exists pt, entry (pt_mem s) (pd_virtual (current_pagedir s)) 0 = Some pt /\ whole (pt_mem s) pt /\ pt < ram_lo
    /\ pt <> current_pagedir s /\ pt <> pd_virtual (current_pagedir s) /\ pt <> final_page s
    /\ forall va, ram_lo <= va < ram_end -> to_virt (Z.land (kd (pdi va)) PAGE_MASK) <> pt
}.

Lemma pt_init_boot s ke n K m : 1 <= K < 255 -> n = 5 + K -> aligned ke -> kernel_start <= ke -> page ke n <= kernel_start + 2 ^ 22 ->
  pages_ok (pt_pages s) ∅ -> current_pagedir s = ke -> final_page s = page ke 2 -> pt_mem s = m -> stage ke n m (K + 1) ->
  (forall i, kd i = pde ke (K + 1) i) -> ram_lo = page ke (4 + K) -> ram_end <= kernel_start + K * 2 ^ 22 -> boot_ok s ∅ (fun _ _ => False).
Proof.
  intros HK -> Ha Hlow Hhigh Hp Hc Hf Hm S Hkd Er Hend. pose proof (page_ne ke) as Hne. rewrite <- Hm in S.
  assert (Hin : forall i, 0 <= i < 5 + K -> kernel_start <= page ke i < kernel_start + 2 ^ 22 /\ aligned (page ke i) /\ pdi (page ke i) = 768) by (apply page_in; done).
  assert (Hlt : forall i j, i < j -> page ke i < page ke j) by (unfold page, PAGE_SIZE; lia).
  assert (Hkern : forall va, ram_lo <= va < ram_end -> exists j, 0 <= j < K /\ pdi va = 768 + j /\ to_virt (Z.land (kd (pdi va)) PAGE_MASK) = page ke (4 + j)).
  { intros va Hv. rewrite Er in Hv. destruct (Hin (4 + K) ltac:(lia)) as (R & _ & _). unfold kernel_start in *.
    assert (Hd : 768 <= pdi va < 768 + K) by (unfold pdi; split; [apply Z.div_le_lower_bound; lia|apply Z.div_lt_upper_bound; lia]).
    exists (pdi va - 768). split; [lia|]. split; [lia|]. set (j := pdi va - 768). replace (pdi va) with (768 + j) by lia. rewrite Hkd, pde_table by lia. destruct (Hin (4 + j) ltac:(lia)) as (Rj & Aj & _).
    rewrite phys_mask, to_virt_phys; [done|lia|done|unfold kernel_start; lia]. }
  assert (D : dir_ok kd (pt_mem s) (current_pagedir s) ∅).
  { rewrite Hc. split; [rewrite <- (page_0 ke); apply S; lia|rewrite <- page_1; apply S; lia| | |done].
    - intros i Hi. unfold slot_ok. rewrite lookup_empty. exists 0. rewrite (st_dir _ _ _ _ S) by lia. unfold pde. rewrite !(proj2 (Z.eqb_neq _ _)) by lia.
      replace (768 <=? i) with false by (symmetry; apply Z.leb_gt; lia). done.
    - intros i Hi. rewrite (st_dir _ _ _ _ S) by lia. by rewrite Hkd. }
  split; [done| |done| |].
  - rewrite Hf. split; try done.
    + intros b k. rewrite lookup_empty. split; [done|]. intros [[[_ [? E]]|(_ & pd & T & i & E & _)]|[]]; by rewrite lookup_empty in E.
    + split; [apply S; lia|rewrite Er; apply Hlt; lia].
    + rewrite Er. unfold kernel_start in *. destruct (Hin (4 + K) ltac:(lia)) as (R & _ & _). lia.
    + intros va Hva Hv. destruct (Hkern va Hv) as (j & Hj & Hd & ->). rewrite Er in *. split; [apply Hlt; lia|]. split; [apply Hne; lia|]. eexists. split; [apply (st_table _ _ _ _ S); [lia|apply pti_range]|].
      apply linear_mask; [done| |done]. destruct (Hin (4 + K) ltac:(lia)) as (R & _ & _). unfold kernel_start in *. lia.
  - rewrite Er, Hc, Hf, <- page_1. split; [apply Hlt; lia|]. rewrite <- (page_0 ke) at 1. by apply Hne.
  - exists (page ke 3). rewrite Hc, Hf. split; [apply S|]. split; [apply S; lia|]. split; [rewrite Er; apply Hlt; lia|]. rewrite <- page_1. rewrite <- (page_0 ke) at 2. split_and!; try (by apply Hne).
    intros va Hv. destruct (Hkern va Hv) as (j & Hj & _ & ->). apply Hne. lia.
Qed.

(** The pages lent lie in the memory the kernel gave to the allocator. *)
Context (lent_ram : forall p lent b n, pages_ok p lent -> lent !! b = Some n -> ram_lo <= b /\ b + n * PAGE_SIZE <= ram_end /\ aligned b).

(** The page table for the first 4 MB is cleared. *)
Lemma boot_clear s lent rest pt : boot_ok s lent rest -> whole (pt_mem s) pt -> pt < ram_lo -> pt <> final_page s ->
  (forall va, ram_lo <= va < ram_end -> to_virt (Z.land (kd (pdi va)) PAGE_MASK) <> pt) -> mem_ok kd ram_lo ram_end (fill (pt_mem s) pt 0 1024) (final_page s) lent rest ∅.
Proof using.
  intros [_ [Hr Ha Hl Hd HD HT HI [Hf Hf'] Hk Hkern] _ _ _] Hw Hlow Hfp Hne. split; try done.
  - split; [by apply fill_whole; [lia..|]|done].
  - intros va Hva Hv. destruct (Hkern va Hva Hv) as (H1 & H2 & e & H3 & H4). split_and!; try done. exists e. split; [|done]. rewrite (entry_same (pt_mem s)); [done|]. apply fill_other. apply not_eq_sym, Hne, Hv.
Qed.

Lemma pt_template_ok s lent rest : boot_ok s lent rest -> (exists b p, Slab.pg_alloc 2 (pt_pages s) = Done (Some b) p) ->
  runs (pt_template_init junk) s (fun _ s' => current_pagedir s' = current_pagedir s /\ exists t, lent !! t = None /\ paging_ok kd ram_lo ram_end s' (<[t := 2]> lent) rest {[t := ∅]}).
Proof using lent_ram.
  intros B (b & p & Eb). pose proof B as [Bp Bm Bd [Blow Bfp] (pt & Ept & Wpt & Lpt & P1 & P2 & P3 & P4)]. set (c := current_pagedir s) in *. set (fp := final_page s) in *.
  pose proof (boot_clear s lent rest pt B Wpt Lpt P3 P4) as M1. set (m1 := fill (pt_mem s) pt 0 1024) in *.
  unfold pt_template_init. apply runs_bind, runs_get. eapply runs_done_bind; [apply load_eq; [exact Ept|lia]|]. eapply runs_done_bind; [by apply clear_eq; [|lia|done|done]|]. fold m1.
  destruct (pg_alloc_ok (pt_pages s) lent 1 Bp) as (r & p' & E & HQ); [unfold Slab.PAGE_NSIZES; lia|]. change (2 ^ 1) with 2 in E, HQ. rewrite Eb in E. injection E as <- <-. destruct HQ as [Hb Hp].
  destruct (lent_ram p _ b 2 Hp (lookup_insert_eq _ _ _)) as (Rb & Re & Ab). pose proof (virtual_other b) as Hbv.
  assert (Ea : page_alloc_n junk 2 (with_mem m1 s) = Done (Some b) (with_mem (foldr (fun p m => <[p := junk_page junk]> m) m1 (block b 2)) (with_pages p s))).
  { unfold page_alloc_n, kbind, on_pages. simpl. by rewrite Eb. }
  eapply runs_done_bind; [exact Ea|]. rewrite block_2. cbn [foldr]. set (jp := junk_page junk). set (m2 := <[b := jp]> (<[pd_virtual b := jp]> m1)).
  assert (M2 : mem_ok kd ram_lo ram_end m2 fp (<[b := 2]> lent) (fun c k => rest c k \/ (c = b /\ k = 2)) ∅).
  { eapply mem_ok_alloc; [exact M1|done|done|intros; by eapply lent_ram|intros; by eapply lent_apart|]. intros q Hq. unfold m2. unfold pd_virtual, PAGE_SIZE in *. by rewrite !lookup_insert_ne by lia. }
  assert (Hlow : forall q, q < ram_lo -> q <> pt -> m2 !! q = pt_mem s !! q).
  { intros q Hq Hne. unfold m2. rewrite !lookup_insert_ne by (unfold pd_virtual, PAGE_SIZE; lia). by apply fill_other. }
  assert (Hcl : c < ram_lo) by (unfold pd_virtual, PAGE_SIZE in Blow; lia). destruct (do_phys _ _ _ _ Bd) as (lp & Elp & Llp). destruct (do_virt _ _ _ _ Bd) as (lv & Elv & Llv).
  assert (Wj : length jp = 1024%nat) by (unfold jp, junk_page; by rewrite length_replicate). apply runs_bind, runs_modify. apply runs_bind, runs_get. cbn [current_pagedir with_template with_mem with_pages]. fold c.
  eapply runs_done; [eapply copy_eq; simpl|].
  - rewrite Hlow by (done || congruence). exact Elp.
  - rewrite Hlow by (done || congruence). exact Elv.
  - lia.
  - exists jp. unfold m2. by rewrite lookup_insert_eq.
  - exists jp. unfold m2. by rewrite lookup_insert_ne, lookup_insert_eq.
  - simpl. fold m2. set (m3 := <[pd_virtual b := lv]> (<[b := lp]> m2)). assert (Hm3 : forall q, q <> b -> q <> pd_virtual b -> m3 !! q = m2 !! q) by (intros; unfold m3; by rewrite !lookup_insert_ne).
    split; [done|]. exists b. split; [done|]. split; simpl; [done| |by rewrite lookup_singleton_eq|].
    + fold fp. change ({[b := ∅]} : gmap Z tables) with (<[b := ∅]> ∅ : gmap Z tables). eapply mem_ok_rest; [|apply mem_ok_create; [eapply mem_ok_unowned; [exact M2|right; by split|]|done|right; by split|]].
      * intros x k. simpl. split; [intros [[?|[-> ->]] ?]; done|]. intros Hx. split; [by left|]. intros ->. assert (lent !! b = Some k) by (apply (mo_lent _ _ _ _ _ _ _ _ M1); by right). congruence.
      * intros q Hq. apply Hm3; intros ->; apply Hq; unfold pd_virtual, PAGE_SIZE; lia.
      * eapply dir_ok_copy; [exact Bd| |]; unfold m3; [by rewrite lookup_insert_ne, lookup_insert_eq|by rewrite lookup_insert_eq].
    + right. fold c fp. split; [done|]. split; [done|]. intros i Hi. rewrite (entry_same (pt_mem s)); [by apply Bd|]. rewrite Hm3 by (unfold pd_virtual, PAGE_SIZE; lia). apply Hlow; [done|congruence].
Qed.

End Template.

(** The directory's own page tables map the kernel's memory. *)
Lemma stage_walk ke n m K va : stage ke n m (K + 1) -> 0 <= K < 255 -> aligned ke -> kernel_start <= ke -> page ke n <= kernel_start + 2 ^ 22 -> 4 + K < n -> aligned va ->
  kernel_start <= va < kernel_start + K * 2 ^ 22 -> walk m ke va = Some (Z.lor (to_phys va) RW).
Proof.
  intros S HK Ha Hlow Hhigh Hn Hva Hv. pose proof (pti_range va). unfold kernel_start in Hv. assert (Hd : 768 <= pdi va < 768 + K) by (unfold pdi; split; [apply Z.div_le_lower_bound; lia|apply Z.div_lt_upper_bound; lia]).
  set (j := pdi va - 768). assert (Ej : pdi va = 768 + j) by lia. destruct (page_in ke n Ha Hlow Hhigh (4 + j) ltac:(lia)) as (Rj & Aj & _). unfold kernel_start in Rj.
  unfold walk. rewrite Ej, (st_dir _ _ _ _ S), pde_table by lia. simpl. rewrite present_flag by done. rewrite phys_mask by (done || unfold kernel_start; lia). rewrite to_virt_phys by lia.
  rewrite (st_table _ _ _ _ S) by lia. simpl. unfold linear. rewrite present_flag by done. do 2 f_equal. rewrite u32_small; [|unfold KERNEL_PHYS_BASE, PAGE_SIZE; lia].
  pose proof (page_split va Hva). unfold to_phys, kernel_start, KERNEL_PHYS_BASE, PAGE_SIZE. lia.
Qed.

Lemma pt_init_ok {P : Type} (add_range : Z -> Z -> kernel P unit) (ke K e physmax : Z) (mmap : list mmap_entry) (s : paging P) (Q : P -> Prop) :
  phys_detect_highmem mmap = Some physmax -> enough K physmax -> 1 <= K < 255 -> aligned ke -> kernel_start <= ke -> page ke (5 + K) <= kernel_start + 2 ^ 22 ->
  loader_ok ke (5 + K) (pt_mem s) (to_virt (cr3 s)) e ->
  runs (add_range (u32 (page ke (4 + K) + PT_ENTRY_COUNT)) (u32 (physmax + kernel_start - KERNEL_PHYS_BASE))) (pt_pages s) (fun _ p => Q p) ->
  runs (pt_init add_range ke mmap) s (fun _ s' => current_pagedir s' = ke /\ cr3 s' = to_phys ke /\ final_page s' = page ke 2 /\ Q (pt_pages s') /\ stage ke (5 + K) (pt_mem s') (K + 1)).
Proof.
  intros Hx HE HK Ha Hlow Hhigh L (u & p & Ea & Hp). unfold pt_init. eapply runs_step; [eapply (init_pagedir_ok ke (5 + K)); try done; lia|]. intros r s1 (-> & m1 & -> & S1).
  apply runs_bind, runs_modify. eapply runs_step; [apply (boot_set_ok ke (5 + K)) with (K := 1); try done; lia|]. intros [] s2 (m2 & -> & S2).
  apply runs_bind. eapply runs_deref; [done|]. change (page ke 4) with (page ke (4 + 0)). replace kernel_start with (kernel_start + 0 * 2 ^ 22) at 1 by lia. replace KERNEL_PHYS_BASE with (KERNEL_PHYS_BASE + 0 * 2 ^ 22) at 1 by lia.
  eapply runs_step; [eapply (init_loop_ok ke (5 + K)) with (K := K); try done; unfold PT_ENTRY_COUNT; lia|]. intros r s3 (-> & m3 & -> & S3).
  eapply runs_done; [unfold on_pages; simpl; by rewrite Ea|]. done.
Qed.

(** C21: [pt_init], started in the directory the boot loader left, returns in a directory of its own in which all memory
    there is from the kernel's on is mapped one to one, builds it in the pages behind the kernel and leaves the state that
    page tables start from; [K] page tables for the memory behind the first 4 MB must be enough and fit there, and leave
    the last entry of the directory to temporary mappings. *)
Theorem pt_init_spec {P : Type} `{PageLaws P} (add_range : Z -> Z -> kernel P unit) (ke K e physmax : Z) (mmap : list mmap_entry) (s : paging P) :
  phys_detect_highmem mmap = Some physmax -> enough K physmax -> 1 <= K < 255 -> aligned ke -> kernel_start <= ke -> page ke (5 + K) <= kernel_start + 2 ^ 22 ->
  loader_ok ke (5 + K) (pt_mem s) (to_virt (cr3 s)) e ->
  runs (add_range (u32 (page ke (4 + K) + PT_ENTRY_COUNT)) (u32 (physmax + kernel_start - KERNEL_PHYS_BASE))) (pt_pages s) (fun _ p => pages_ok p ∅) ->
  runs (pt_init add_range ke mmap) s (fun _ s' => current_pagedir s' = ke /\ cr3 s' = to_phys ke
    /\ boot_ok (pde ke (K + 1)) (page ke (4 + K)) (physmax - KERNEL_PHYS_BASE + kernel_start) s' ∅ (fun _ _ => False)
    /\ forall va, aligned va -> kernel_start <= va < physmax - KERNEL_PHYS_BASE + kernel_start -> walk (pt_mem s') ke va = Some (Z.lor (to_phys va) (Z.lor PT_PRESENT PT_WRITE))).
Proof.
  intros Hx HE HK Ha Hlow Hhigh L Hr. eapply runs_mono; [eapply (pt_init_ok add_range ke K e physmax mmap s (fun p => pages_ok p ∅)); done|]. intros [] s' (Hc & H3 & Hf & Hp & S). destruct HE as [_ HE]. split; [done|]. split; [done|]. split.
  - eapply (pt_init_boot _ _ _ s' ke (5 + K) K); try done; lia.
  - intros va Hva Hv. apply (stage_walk ke (5 + K) _ K); try done; lia.
Qed.

End PageInitSpec.
