(* ===== verification/PageTableRam.v ===== *)
(** * Page tables over the page allocator

    The page allocator of [PageAlloc] obeys the laws page tables rely on, and a machine with a small memory is started
    with [pt_init] and [pt_template_init] and runs the operations on page tables. *)

From S2P Require Import Prelude.
From S2P Require Import PageAlloc SlabInv SlabPages PageTable PageTableInv PageTableSpec PageInit PageInitSpec.

Module PageTableRam.
Import PageAlloc SlabInv SlabPages PageTable PageTableInv PageTableSpec PageInit PageInitSpec.

Local Open Scope Z_scope.
Local Open Scope kernel_scope.

(** ** Memory given to the allocator *)

Definition in_ram (lo hi : Z) (p : PageAlloc.pages) : Prop := forall g, g ∈ pagegroup_list p -> lo <= pg_baseaddr g /\ pg_endaddr g <= hi /\ aligned (pg_baseaddr g).

Lemma in_ram_kept lo hi p p' : ranges p' = ranges p -> in_ram lo hi p -> in_ram lo hi p'.
Proof.
  intros E Hr g (i & Hi)%list_elem_of_lookup. destruct (same_ranges p' p i g ltac:(done) Hi) as (g' & Hi' & <- & <-). apply Hr, list_elem_of_lookup. by exists i.
Qed.

#[refine] Instance ram_laws (lo hi : Z) : PageLaws PageAlloc.pages := { pages_ok p lent := lending p lent /\ in_ram lo hi p }.
Proof.
  - intros p lent b n [Ln _]. by apply (lent_range p lent b n).
  - intros p lent b n c m [Ln _]. by apply (lent_apart p lent b n c m).
  - intros p lent o [Ln Hr] Ho. destruct (lending_alloc p lent o Ln Ho) as (r & p' & E & HQ). exists r, p'. split; [done|].
    assert (Hr' : in_ram lo hi p') by (rewrite alloc_n_pow in E by done; eapply in_ram_kept; [by eapply ranges_alloc|done]). by destruct r; [destruct HQ|].
  - intros p lent b o [Ln Hr] Ho Hb. destruct (lending_free p lent b o Ln Ho Hb) as ([] & p' & E & HQ). exists tt, p'. split; [done|]. split; [done|].
    rewrite free_n_pow in E by done. eapply in_ram_kept; [by eapply ranges_free|done].
Defined.

Lemma ram_lent lo hi p lent b n : @SlabInv.pages_ok PageAlloc.pages _ (ram_laws lo hi) p lent -> lent !! b = Some n -> lo <= b /\ b + n * Slab.PAGE_SIZE <= hi /\ aligned b.
Proof.
  intros [Ln Hr] Hb. destruct (ln_block _ _ Ln b n Hb) as (o & i & g & j & -> & Ho & Hi & Eb & H1 & H2 & _).
  destruct (Hr g) as (R1 & R2 & R3); [apply list_elem_of_lookup; by eexists|]. rewrite pow_page in H2 by lia. unfold PageAlloc.PAGE_SIZE, Slab.PAGE_SIZE in *. split_and!; [lia|lia|].
  unfold aligned in *. rewrite Eb. unfold blk. rewrite Z.pow_add_r, Z.mul_assoc, Z.mod_add by lia. done.
Qed.

(** ** A group of pages somewhere else *)

Definition move (d : Z) (g : pagegroup) : pagegroup := mk_group ((fun l : list Z => (fun a => a + d) <$> l) <$> pg_freelist g) (pg_map g) (pg_baseaddr g + d) (pg_endaddr g + d).
Lemma flist_move d g o : flist (move d g) o = (fun a => a + d) <$> flist g o.
Proof. unfold flist, move. simpl. rewrite lookup_fmap. by destruct (pg_freelist g !! o). Qed.
Lemma move_ok d g : group_ok g -> d mod 4096 = 0 -> 0 <= pg_baseaddr g + d -> pg_endaddr g + d <= 2 ^ 32 - 1 -> group_ok (move d g).
Proof.
  intros (T & F & B & [[S1 S2 S3 S4] R2 R3 R4 R5 R6] & G) Hd Hlo Hhi. exists T, F, B. split; [|done]. split; try done.
  - split; simpl; [|done|lia|lia]. split; [lia|]. destruct S1 as [_ S1]. by rewrite Zplus_mod, S1, Hd.
  - intros o a Ho. rewrite flist_move, list_elem_of_fmap. unfold blk. simpl. split.
    + intros (x & -> & (j & -> & Hj)%R2); [|done]. exists j. split; [unfold blk; lia|done].
    + intros (j & -> & Hj). exists (blk g o j). split; [unfold blk; lia|]. apply R2; [done|by exists j].
  - intros o. rewrite flist_move. apply NoDup_fmap_2; [intros x y ?; lia|done].
  - intros o l. simpl. rewrite lookup_fmap. destruct (pg_freelist g !! o) as [l0|] eqn:E; [|done]. intros _. by apply (R4 o l0).
Qed.

(** ** A machine

    It has 1604 kilobytes of memory, and a kernel of 44 kilobytes; the boot loader's directory is at [0x1000]. *)

Definition kernel_end : Z := 0xc000b000.
Definition memory_map : list mmap_entry := [mk_mmap_entry 0 0 0x9fc00 0 1 0; mk_mmap_entry 0x100000 0 0x91000 0 1 0].
Definition ram_lo : Z := 0xc0010000.
Definition ram_end : Z := 0xc0091000.

Definition loader_dir : list Z := replicate 768 0 ++ [0x2003] ++ replicate 255 0.
Definition loader_table : list Z := linear KERNEL_PHYS_BASE <$> seqZ 0 1024.
Definition loader_mem : gmap Z (list Z) :=
  <[0xbff01000 := loader_dir]> (<[0xbff02000 := loader_table]> (foldr (fun p m => <[p := junk_page 7]> m) ∅ (block kernel_end 6))).
Definition loader : paging PageAlloc.pages := mk_paging (mk_pages [] 0) loader_mem 0 0 0 1 0x1000.

Definition boot_pages : PageAlloc.pages := mk_pages [move (ram_lo - 0x100000) demo_group] 128.
Lemma boot_pages_added : page_add_range 0xc0010400 ram_end (mk_pages [] 0) = Done tt boot_pages.
Proof. vm_compute. reflexivity. Qed.
Lemma boot_pages_ok : @SlabInv.pages_ok PageAlloc.pages _ (ram_laws ram_lo ram_end) boot_pages ∅.
Proof.
  assert (Hg : group_ok (move (ram_lo - 0x100000) demo_group)) by (apply move_ok; [apply demo_group_ok|done..]). split.
  - split; [split|..].
    + by apply Forall_singleton.
    + by intros [|i] [|j] gi gj Hi Hj Hne.
    + vm_compute. reflexivity.
    + by intros g ->%list_elem_of_singleton.
    + intros b n. by rewrite lookup_empty.
    + intros b n c m. by rewrite lookup_empty.
  - by intros g ->%list_elem_of_singleton.
Qed.

Lemma loader_mem_ok : loader_ok kernel_end 6 (pt_mem loader) (to_virt (cr3 loader)) 0x2003.
Proof.
  split.
  - split; [|done]. exists loader_dir. split; [vm_compute; reflexivity|done].
  - change (to_virt (Z.land 0x2003 PAGE_MASK)) with 0xbff02000. split; [done|]. split; [done|]. intros v Ha Hd. pose proof (pti_range v). exists (linear KERNEL_PHYS_BASE (pti v)). split.
    + unfold entry. change (pt_mem loader !! 0xbff02000) with (Some loader_table). cbn [mbind option_bind]. unfold loader_table. rewrite list_lookup_fmap. rewrite lookup_seqZ_lt by lia. simpl. do 2 f_equal. lia.
    + apply (linear_mask v 0); [done| |lia]. pose proof (page_split v Ha). unfold kernel_start. lia.
  - intros i Hi. exists (junk_page 7). assert (i = 0 \/ i = 1 \/ i = 2 \/ i = 3 \/ i = 4 \/ i = 5) as E by lia. by repeat destruct E as [->|E]; [..|subst].
Qed.

Lemma memory_enough : enough 1 0x191000.
Proof. split; [lia|done]. Qed.

Lemma pt_init_spec_witness : runs (pt_init page_add_range kernel_end memory_map) loader (fun _ s' => current_pagedir s' = kernel_end /\ cr3 s' = to_phys kernel_end
    /\ @boot_ok _ _ (ram_laws ram_lo ram_end) (pde kernel_end 2) ram_lo ram_end s' ∅ (fun _ _ => False)
    /\ forall va, aligned va -> kernel_start <= va < ram_end -> walk (pt_mem s') kernel_end va = Some (Z.lor (to_phys va) (Z.lor PT_PRESENT PT_WRITE))).
Proof.
  apply (pt_init_spec (H0 := ram_laws ram_lo ram_end) page_add_range kernel_end 1 0x2003 0x191000 memory_map loader); [reflexivity|apply memory_enough|lia|reflexivity|done|done|apply loader_mem_ok|].
  exists tt, boot_pages. split; [apply boot_pages_added|apply boot_pages_ok].
Defined.

(** The machine after it has started and made a directory *)
Definition started : kernel (paging PageAlloc.pages) (option Z) := pt_init page_add_range kernel_end memory_map ;;; pt_template_init 7 ;;; pt_create_pagedir 7.
Abbreviation machine_ok := (@paging_ok PageAlloc.pages _ (ram_laws ram_lo ram_end) (pde kernel_end 2) ram_lo ram_end).
Abbreviation nobody := (fun _ _ : Z => False).
Definition demo_pd : Z := 0xc008c000.

Lemma runs_answer {S A} (m : kernel S A) s a (Q : A -> S -> Prop) : answer (m s) = Some a -> runs m s Q -> exists s', m s = Done a s' /\ Q a s'.
Proof. intros Ea (a' & s' & E & HQ). rewrite E in Ea. injection Ea as ->. by exists s'. Qed.

Lemma booted : runs (pt_init page_add_range kernel_end memory_map ;;; pt_template_init 7) loader (fun _ s => current_pagedir s = kernel_end /\ exists t, machine_ok s {[t := 2]} nobody {[t := ∅]}).
Proof.
  eapply runs_step; [apply (pt_init_ok page_add_range kernel_end 1 0x2003 0x191000 memory_map loader (fun p => p = boot_pages)); [reflexivity|apply memory_enough|lia|reflexivity|done|done|apply loader_mem_ok|]|].
  { exists tt, boot_pages. by split; [apply boot_pages_added|]. }
  intros [] s (Hc & H3 & Hf & Hp & S). eapply runs_mono; [apply (pt_template_ok (H0 := ram_laws ram_lo ram_end) 7 (pde kernel_end 2) ram_lo ram_end (ram_lent ram_lo ram_end) s ∅ nobody)|].
  - eapply (pt_init_boot _ _ _ s kernel_end 6 1); try done. rewrite Hp. apply boot_pages_ok.
  - rewrite Hp. do 2 eexists. vm_compute. reflexivity.
  - intros [] s' (Hc' & t & _ & I). split; [congruence|]. exists t. by rewrite insert_empty in I.
Qed.

(** The directory made first, when the machine has started and run some program *)
Definition in_use (s : paging PageAlloc.pages) (lent : gmap Z Z) (V : gmap Z (gmap Z Z)) : Prop :=
  machine_ok s lent nobody V /\ is_Some (V !! demo_pd) /\ demo_pd <> template_pagedir s /\ demo_pd <> current_pagedir s.

Lemma started_answer : answer (started loader) = Some (Some demo_pd).
Proof. vm_compute. reflexivity. Qed.
Lemma machine_started : runs started loader (fun r s => r = Some demo_pd -> exists lent V, in_use s lent V).
Proof.
  unfold started. eapply runs_regroup; [apply booted|]. intros [] s (Hc & t & I). assert (Ht : template_pagedir s = t) by (pose proof (po_template _ _ _ _ _ _ _ I) as [? _]%lookup_singleton_Some; congruence).
  eapply runs_mono; [by apply (pt_create_ok 7 _ _ _ (ram_lent ram_lo ram_end) s _ _ _ I)|].
  intros r s' (Hc' & Ht' & Hr) ->. destruct Hr as (HV & lent' & I' & _). exists lent', (<[demo_pd := ∅]> {[t := ∅]}). split; [done|]. split; [by rewrite lookup_insert_eq|]. split.
  - rewrite Ht', Ht. intros <-. by rewrite lookup_singleton_eq in HV.
  - rewrite Hc', Hc. done.
Qed.

Lemma demo_vaddr : user_page 0x08048000.
Proof. split; [reflexivity|unfold USER_MEM_LOW, USER_MEM_HIGH; lia]. Qed.

Lemma pt_map_spec_witness : exists s lent V, started loader = Done (Some demo_pd) s /\ in_use s lent V /\
  runs (pt_map 7 demo_pd 0x08048000 0x180000 7 7) s (fun r s' =>
    (exists lent' V', machine_ok s' lent' nobody V' /\ dom V' = dom V) 
    /\ (r = 0 \/ (r = - ENOMEM /\ (exists e, entry (pt_mem s) demo_pd (vaddr_to_pdindex 0x08048000) = Some e /\ present e = false) /\ exists p, Slab.pg_alloc 1 (pt_pages s) = Done None p)) /\
    forall pd' va', is_Some (V !! pd') -> user_page va' ->
      walk (pt_mem s') pd' va' = if decide (r = 0 /\ pd' = demo_pd /\ va' = 0x08048000) then Some (Z.lor 0x180000 7) else walk (pt_mem s) pd' va').
Proof.
  destruct (runs_answer _ _ _ _ started_answer machine_started) as (s & E & HQ). destruct (HQ eq_refl) as (lent & V & U). exists s, lent, V. split; [exact E|]. split; [exact U|].
  destruct U as (I & HV & Ht & Hc). apply (pt_map_spec 7 _ _ _ (ram_lent ram_lo ram_end) s lent nobody V demo_pd 0x08048000 0x180000 7 7); [exact I|exact HV|exact Ht|apply demo_vaddr|reflexivity|lia|reflexivity|lia|reflexivity].
Defined.

(** A page is mapped in the directory. *)
Definition used : kernel (paging PageAlloc.pages) Z := r <- started ;; pd <- kderef r ;; pt_map 7 pd 0x08048000 0x180000 7 7.
Lemma used_answer : answer (used loader) = Some 0.
Proof. vm_compute. reflexivity. Qed.
Lemma used_ok : runs used loader (fun r s => r = 0 -> exists lent V, in_use s lent V).
Proof.
  destruct (runs_answer _ _ _ _ started_answer machine_started) as (s & E & HQ). destruct (HQ eq_refl) as (lent & V & I & [T HV] & Ht & Hc). unfold used. eapply runs_done_bind; [exact E|].
  apply runs_bind. eapply runs_deref; [done|]. eapply runs_mono; [apply (pt_map_ok 7 (pde kernel_end 2) ram_lo ram_end (ram_lent ram_lo ram_end) s lent nobody V demo_pd T 0x08048000 0x180000 7 7); [exact I|exact HV|exact Ht|apply demo_vaddr|reflexivity|lia|reflexivity|lia|reflexivity]|].
  intros r s' (Hc' & Ht' & [(-> & _)|(-> & lent' & T' & I' & _)]); [done|]. intros _. exists lent', (<[demo_pd := T']> V). split; [exact I'|]. rewrite Hc', Ht'. split; [rewrite lookup_insert_eq; by eexists|]. by split.
Qed.

Lemma pt_unmap_range_spec_witness : exists s lent V T, used loader = Done 0 s /\ in_use s lent V /\ V !! demo_pd = Some T /\
  runs (pt_unmap_range demo_pd 0x08048000 0x08c01000) s (fun _ s' => (exists lent' V', machine_ok s' lent' nobody V' /\ dom V' = dom V
      /\ forall b n, lent' !! b = Some n <-> lent !! b = Some n /\ ~ exists i, T !! i = Some b /\ 0x08048000 <= i * PT_VADDR_SIZE /\ (i + 1) * PT_VADDR_SIZE <= 0x08c01000) /\
    forall pd' va, is_Some (V !! pd') -> user_page va ->
      walk (pt_mem s') pd' va = if decide (pd' = demo_pd /\ 0x08048000 <= va < 0x08c01000) then None else walk (pt_mem s) pd' va).
Proof.
  destruct (runs_answer _ _ _ _ used_answer used_ok) as (s & E & HQ). destruct (HQ eq_refl) as (lent & V & U). pose proof U as (I & [T HV] & Ht & Hc). exists s, lent, V, T. split; [exact E|]. split; [exact U|].
  split; [exact HV|]. apply (pt_unmap_range_spec _ _ _ (ram_lent ram_lo ram_end) s lent nobody V demo_pd T 0x08048000 0x08c01000);
    [exact I|exact HV|exact Ht|reflexivity|reflexivity|unfold USER_MEM_LOW; lia|lia|unfold USER_MEM_HIGH; lia|right; reflexivity].
Defined.

Lemma pt_destroy_spec_witness : exists s lent V T, used loader = Done 0 s /\ in_use s lent V /\ V !! demo_pd = Some T /\
  runs (pt_destroy_pagedir demo_pd) s (fun _ s' => exists lent', machine_ok s' lent' nobody (delete demo_pd V)
    /\ (forall b n, lent' !! b = Some n <-> lent !! b = Some n /\ ~ owner {[demo_pd := T]} b n)
    /\ forall pd' va, is_Some (V !! pd') -> pd' <> demo_pd -> user_page va -> walk (pt_mem s') pd' va = walk (pt_mem s) pd' va).
Proof.
  destruct (runs_answer _ _ _ _ used_answer used_ok) as (s & E & HQ). destruct (HQ eq_refl) as (lent & V & U). pose proof U as (I & [T HV] & Ht & Hc). exists s, lent, V, T. split; [exact E|]. split; [exact U|].
  split; [exact HV|]. apply (pt_destroy_spec _ _ _ (ram_lent ram_lo ram_end) s lent nobody V demo_pd T); [exact I|exact HV|exact Ht|exact Hc].
Defined.

(** ** A range inside one page table

    [pt_unmap_range] of one page takes the translation of another page of the same page table along. *)
Example unmap_range_inside : match (used ;;; pt_map 7 demo_pd 0x08100000 0x181000 7 7) loader with
  | Done _ s => walk (pt_mem s) demo_pd 0x08100000 = Some 0x181007
      /\ match pt_unmap_range demo_pd 0x08048000 0x08049000 s with Done _ s' => walk (pt_mem s') demo_pd 0x08100000 = None | _ => False end
  | _ => False
  end.
Proof. vm_compute. by split. Qed.

End PageTableRam.
