(* ===== verification/VirtTerm.v ===== *)
(** * Virtual terminals, screen and keyboard
    ([drivers/tty/virtterm.c], [drivers/tty/screen.c], [drivers/tty/keyboard.c])

    Each terminal keeps its output in a circular buffer of five screens; the current
    terminal is shown in video memory.  The keyboard interrupt handler turns scan codes
    into characters, which go to the callback of the current terminal, and into switching
    and scrolling.  Video memory is the list of its 16-bit cells, the controller's cursor
    is its two registers, and the calls of a terminal's callback, a function of the device
    on top that is not implemented, are recorded in [calls]. *)

From S2P Require Import Prelude.

Module VirtTerm.

Local Open Scope Z_scope.
Local Open Scope kernel_scope.

Definition NTERMS : Z := 3.
Definition DISPLAY_WIDTH : Z := 80.
Definition DISPLAY_HEIGHT : Z := 25.
Definition DISPLAY_SIZE : Z := 2000.
Definition SCROLL_BUFSIZE : Z := 10000.
Definition DEFAULT_ATTRIB : Z := 0x0F.
Definition INTR_KEYBOARD : Z := 0xe0.
Definition NULL : Z := 0.

(** ** Data *)

Record tty_driver : Type := mk_driver {
  ttd_ops : bool;               (** set by [vt_init] *)
  ttd_callback : Z;
  ttd_callback_arg : Z
}.

Record virtterm : Type := mk_vt {
  vt_head : Z;
  vt_tail : Z;
  vt_top : Z;
  vt_cursor : Z;
  vt_buf : list Z;
  vt_tempbuf : list Z;
  vt_driver : tty_driver
}.

Record terminals : Type := mk_terms {
  vt_terms : list virtterm;
  vt_curterm : option nat;      (** [NULL] before [vt_init] *)
  videoram : list Z;
  crt_cursor : Z * Z;           (** the registers [CURSOR_HIGH] and [CURSOR_LOW] *)
  ipl : Z;
  curmask : Z;
  keyboard_handler : bool;      (** [vt_keyboard_handler] is registered *)
  calls : list (Z * Z * Z)      (** callback, argument, character; the last first *)
}.

Abbreviation M := (kernel terminals).

Definition set_terms (l : list virtterm) (s : terminals) : terminals :=
  mk_terms l (vt_curterm s) (videoram s) (crt_cursor s) (ipl s) (curmask s) (keyboard_handler s) (calls s).
Definition set_curterm (c : option nat) (s : terminals) : terminals :=
  mk_terms (vt_terms s) c (videoram s) (crt_cursor s) (ipl s) (curmask s) (keyboard_handler s) (calls s).
Definition set_video (v : list Z) (s : terminals) : terminals :=
  mk_terms (vt_terms s) (vt_curterm s) v (crt_cursor s) (ipl s) (curmask s) (keyboard_handler s) (calls s).
Definition set_crt (c : Z * Z) (s : terminals) : terminals :=
  mk_terms (vt_terms s) (vt_curterm s) (videoram s) c (ipl s) (curmask s) (keyboard_handler s) (calls s).
Definition set_ipl (n : Z) (s : terminals) : terminals :=
  mk_terms (vt_terms s) (vt_curterm s) (videoram s) (crt_cursor s) n (curmask s) (keyboard_handler s) (calls s).
Definition set_mask (n : Z) (s : terminals) : terminals :=
  mk_terms (vt_terms s) (vt_curterm s) (videoram s) (crt_cursor s) (ipl s) n (keyboard_handler s) (calls s).
Definition set_handler (b : bool) (s : terminals) : terminals :=
  mk_terms (vt_terms s) (vt_curterm s) (videoram s) (crt_cursor s) (ipl s) (curmask s) b (calls s).
Definition add_call (c : Z * Z * Z) (s : terminals) : terminals :=
  mk_terms (vt_terms s) (vt_curterm s) (videoram s) (crt_cursor s) (ipl s) (curmask s) (keyboard_handler s) (c :: calls s).

Definition with_top (n : Z) (v : virtterm) : virtterm :=
  mk_vt (vt_head v) (vt_tail v) n (vt_cursor v) (vt_buf v) (vt_tempbuf v) (vt_driver v).
Definition with_cursor (n : Z) (v : virtterm) : virtterm :=
  mk_vt (vt_head v) (vt_tail v) (vt_top v) n (vt_buf v) (vt_tempbuf v) (vt_driver v).
Definition with_buf (b : list Z) (v : virtterm) : virtterm :=
  mk_vt (vt_head v) (vt_tail v) (vt_top v) (vt_cursor v) b (vt_tempbuf v) (vt_driver v).
Definition with_tempbuf (b : list Z) (v : virtterm) : virtterm :=
  mk_vt (vt_head v) (vt_tail v) (vt_top v) (vt_cursor v) (vt_buf v) b (vt_driver v).
Definition with_driver (d : tty_driver) (v : virtterm) : virtterm :=
  mk_vt (vt_head v) (vt_tail v) (vt_top v) (vt_cursor v) (vt_buf v) (vt_tempbuf v) d.
Definition with_ends (head tail : Z) (b : list Z) (v : virtterm) : virtterm :=
  mk_vt head tail (vt_top v) (vt_cursor v) b (vt_tempbuf v) (vt_driver v).

Definition get_term (i : nat) : M virtterm := s <- kget ;; kderef (vt_terms s !! i).
Definition put_term (i : nat) (v : virtterm) : M unit := get_term i ;;; kmodify (fun s => set_terms (<[i := v]> (vt_terms s)) s).
Definition current : M nat := s <- kget ;; kderef (vt_curterm s).

(** ** Arrays of characters

    Writing outside an array has no value. *)

Definition memset_at (b : list Z) (off n v : Z) : option (list Z) :=
  if (0 <=? off) && (0 <=? n) && (off + n <=? Z.of_nat (length b)) then
    Some (take (Z.to_nat off) b ++ replicate (Z.to_nat n) v ++ drop (Z.to_nat (off + n)) b)
  else None.
Definition memcpy_at (dst : list Z) (doff : Z) (src : list Z) (soff n : Z) : option (list Z) :=
  if (0 <=? doff) && (0 <=? soff) && (0 <=? n) && (doff + n <=? Z.of_nat (length dst)) && (soff + n <=? Z.of_nat (length src)) then
    Some (take (Z.to_nat doff) dst ++ take (Z.to_nat n) (drop (Z.to_nat soff) src) ++ drop (Z.to_nat (doff + n)) dst)
  else None.
Definition store_at {A} (b : list A) (off : Z) (c : A) : option (list A) :=
  if (0 <=? off) && (off <? Z.of_nat (length b)) then Some (<[Z.to_nat off := c]> b) else None.

(** ** The screen *)

(** [char] is signed: a negative character fills the attributes with ones. *)
Definition glyph (c : Z) : Z := Z.lor (Z.shiftl DEFAULT_ATTRIB 8) c mod 2 ^ 16.

Definition screen_move_cursor (x y : Z) : M unit :=
  let x := x mod 2 ^ 8 in
  let y := y mod 2 ^ 8 in
  let pos := (y * DISPLAY_WIDTH + x) mod 2 ^ 16 in
  kmodify (set_crt (Z.shiftr pos 8, Z.land pos 0xff)).

Definition screen_putchar (c x y : Z) : M unit :=
  s <- kget ;;
  v <- kderef (store_at (videoram s) (y mod 2 ^ 8 * DISPLAY_WIDTH + x mod 2 ^ 8) (glyph c)) ;;
  kmodify (set_video v).

Definition screen_putbuf (buf : list Z) : M unit :=
  kassert (DISPLAY_SIZE <=? Z.of_nat (length buf)) ;;;
  kmodify (set_video (glyph <$> take (Z.to_nat DISPLAY_SIZE) buf)).

(** ** Positions in the circular buffer *)

Definition circ_dist (to from : Z) : Z := Z.rem (s32 (to - from + SCROLL_BUFSIZE)) SCROLL_BUFSIZE.
Definition next_row (i : Z) : Z := Z.rem (s32 ((Z.quot i DISPLAY_WIDTH + 1) * DISPLAY_WIDTH)) SCROLL_BUFSIZE.
Definition buf_add (ptr amt : Z) : Z := Z.rem (s32 (ptr + amt + SCROLL_BUFSIZE)) SCROLL_BUFSIZE.

(** ** Drawing *)

Definition vt_cursor_redraw : M unit :=
  i <- current ;;
  vt <- get_term i ;;
  let rel_cursor := circ_dist (vt_cursor vt) (vt_top vt) in
  screen_move_cursor (Z.rem rel_cursor DISPLAY_WIDTH) (Z.quot rel_cursor DISPLAY_WIDTH).

(** The temporary buffer [vt_redraw] fills *)
Definition fill_tempbuf (vt : virtterm) : option (list Z) :=
  tmp ← memset_at (vt_tempbuf vt) 0 DISPLAY_SIZE 0;
  if vt_top vt <=? vt_tail vt then
    if vt_tail vt - vt_top vt <=? DISPLAY_SIZE then memcpy_at tmp 0 (vt_buf vt) (vt_top vt) (vt_tail vt - vt_top vt)
    else memcpy_at tmp 0 (vt_buf vt) (vt_top vt) DISPLAY_SIZE
  else
    let first_part_size := SCROLL_BUFSIZE - vt_top vt in
    if first_part_size >=? DISPLAY_SIZE then memcpy_at tmp 0 (vt_buf vt) (vt_top vt) DISPLAY_SIZE
    else
      tmp ← memcpy_at tmp 0 (vt_buf vt) (vt_top vt) first_part_size;
      if first_part_size + vt_tail vt <=? DISPLAY_SIZE then memcpy_at tmp first_part_size (vt_buf vt) 0 (vt_tail vt)
      else memcpy_at tmp first_part_size (vt_buf vt) 0 (DISPLAY_SIZE - first_part_size).

Definition vt_redraw : M unit :=
  i <- current ;;
  vt <- get_term i ;;
  tmp <- kderef (fill_tempbuf vt) ;;
  put_term i (with_tempbuf tmp vt) ;;;
  screen_putbuf tmp ;;;
  vt_cursor_redraw.

(** ** Output *)

(** [handle_tail:] of [vt_handle_char] *)
Definition handle_tail (vt : virtterm) (new_cursor : Z) : option virtterm :=
  if circ_dist new_cursor (vt_cursor vt) >=? circ_dist (vt_tail vt) (vt_cursor vt) then
    let new_tail := next_row new_cursor in
    let head := if circ_dist (vt_tail vt) (vt_head vt) >=? circ_dist (vt_tail vt) new_tail then next_row new_tail else vt_head vt in
    buf ← (if vt_tail vt <=? new_tail then memset_at (vt_buf vt) (vt_tail vt) (new_tail - vt_tail vt) 0
           else b ← memset_at (vt_buf vt) (vt_tail vt) (SCROLL_BUFSIZE - vt_tail vt) 0; memset_at b 0 new_tail 0);
    Some (with_ends head new_tail buf vt)
  else Some vt.

(** The terminal after the character, and whether it can be echoed *)
Definition vt_handle_char (vt : virtterm) (c : Z) : option (virtterm * bool) :=
  let cursor := vt_cursor vt in
  if c =? 8 then
    Some (with_cursor (if negb (cursor =? vt_head vt) then buf_add cursor (-1) else cursor) vt, false)
  else if c =? 13 then Some (with_cursor (Z.quot cursor DISPLAY_WIDTH * DISPLAY_WIDTH) vt, false)
  else if c =? 10 then
    let new_cursor := next_row cursor in
    vt' ← handle_tail vt new_cursor;
    Some (with_cursor new_cursor vt', false)
  else
    buf ← store_at (vt_buf vt) cursor c;
    let new_cursor := buf_add cursor 1 in
    vt' ← handle_tail (with_buf buf vt) new_cursor;
    Some (with_cursor new_cursor vt', true).

(** Moving the top of the screen when the cursor is not on it *)
Definition show_cursor (vt : virtterm) : virtterm :=
  if circ_dist (vt_cursor vt) (vt_top vt) >=? DISPLAY_SIZE then
    with_top (buf_add (next_row (vt_cursor vt)) (- DISPLAY_SIZE)) vt
  else vt.

Definition vt_provide_char (i : nat) (c : Z) : M unit :=
  vt <- get_term i ;;
  let old_cursor := vt_cursor vt in
  let old_top := vt_top vt in
  r <- kderef (vt_handle_char (show_cursor vt) c) ;;
  put_term i (fst r) ;;;
  s <- kget ;;
  if bool_decide (vt_curterm s = Some i) then
    if old_top =? vt_top (fst r) then
      (if snd r : bool then
         let rel_cursor := circ_dist old_cursor (vt_top (fst r)) in
         screen_putchar c (Z.rem rel_cursor DISPLAY_WIDTH) (Z.quot rel_cursor DISPLAY_WIDTH)
       else kret tt) ;;;
      vt_cursor_redraw
    else vt_redraw
  else kret tt.

(** A character several times, and the characters of a string *)
Fixpoint provide_all (i : nat) (cs : list Z) : M unit :=
  match cs with
  | [] => kret tt
  | c :: cs => vt_provide_char i c ;;; provide_all i cs
  end.

(** ["                   It is now safe to turn off your computer"] *)
Definition shutdown_str : list Z := replicate 19 32 ++
  [73; 116; 32; 105; 115; 32; 110; 111; 119; 32; 115; 97; 102; 101; 32; 116; 111; 32; 116; 117; 114; 110; 32; 111; 102; 102; 32;
   121; 111; 117; 114; 32; 99; 111; 109; 112; 117; 116; 101; 114].

Definition vt_print_shutdown : M unit :=
  s <- kget ;;
  match vt_curterm s with
  | None => kret tt
  | Some i =>
      vt <- get_term i ;;
      kassert (ttd_ops (vt_driver vt)) ;;;
      provide_all i (replicate 20 10) ;;;
      provide_all i shutdown_str ;;;
      provide_all i (replicate 14 10)
  end.

(** ** Control *)

Definition vt_init : M unit :=
  kmodify (fun s => set_terms ((fun vt => mk_vt 0 DISPLAY_WIDTH 0 0 (replicate (Z.to_nat SCROLL_BUFSIZE) 0) (vt_tempbuf vt)
    (mk_driver true NULL NULL)) <$> vt_terms s) s) ;;;
  kmodify (set_curterm (Some 0%nat)) ;;;
  vt_redraw ;;;
  kmodify (set_handler true).

Definition vt_num_terminals : Z := NTERMS.

(** The terminal of a driver; a negative number is a place before the array. *)
Definition vt_get_tty_driver (id : Z) : option Z := if id >=? NTERMS then None else Some id.

Definition vt_scroll (lines : Z) (scroll_up : bool) : M unit :=
  i <- current ;;
  vt <- get_term i ;;
  put_term i (with_top
    (if scroll_up then
       if circ_dist (vt_top vt) (vt_head vt) <? s32 (lines * DISPLAY_WIDTH) then vt_head vt
       else buf_add (vt_top vt) (s32 (- lines * DISPLAY_WIDTH))
     else
       if circ_dist (vt_tail vt) (vt_top vt) <? s32 (s32 (lines + 1) * DISPLAY_WIDTH) then buf_add (vt_tail vt) (- DISPLAY_WIDTH)
       else buf_add (vt_top vt) (s32 (lines * DISPLAY_WIDTH))) vt) ;;;
  vt_redraw.

Definition vt_switch (term : Z) : M Z :=
  if (term <? 0) || (term >=? NTERMS) then kret (-1)
  else
    kmodify (set_curterm (Some (Z.to_nat term))) ;;;
    vt_redraw ;;;
    kret 0.

Definition vt_register_callback_handler (i : nat) (callback arg : Z) : M Z :=
  vt <- get_term i ;;
  put_term i (with_driver (mk_driver (ttd_ops (vt_driver vt)) callback arg) vt) ;;;
  kret (ttd_callback (vt_driver vt)).

Definition vt_unregister_callback_handler (i : nat) : M Z :=
  vt <- get_term i ;;
  put_term i (with_driver (mk_driver (ttd_ops (vt_driver vt)) NULL (ttd_callback_arg (vt_driver vt))) vt) ;;;
  kret (ttd_callback (vt_driver vt)).

Definition vt_block_io : M Z :=
  s <- kget ;;
  kmodify (set_ipl INTR_KEYBOARD) ;;;
  kret (ipl s).

Definition vt_unblock_io (data : Z) : M unit :=
  s <- kget ;;
  kassert (ipl s =? INTR_KEYBOARD) ;;;
  kmodify (set_ipl (data mod 2 ^ 8)).

Definition vt_keyboard_handler (c : Z) : M unit :=
  s <- kget ;;
  match vt_curterm s with
  | None => kret tt
  | Some i =>
      vt <- get_term i ;;
      if negb (ttd_callback (vt_driver vt) =? NULL) then
        kmodify (add_call (ttd_callback (vt_driver vt), ttd_callback_arg (vt_driver vt), c))
      else kret tt
  end.

(** ** The keyboard *)

Definition SHIFT_MASK : Z := 0x1.
Definition CTRL_MASK : Z := 0x2.
Definition ESC_MASK : Z := 0x4.
Definition LSHIFT : Z := 0x2a.
Definition RSHIFT : Z := 0x36.
Definition CTRL : Z := 0x1d.
Definition ESC0 : Z := 0xe0.
Definition ESC1 : Z := 0xe1.
Definition SCROLL_UP : Z := 0x0e.
Definition SCROLL_DOWN : Z := 0x1c.
Definition VT_KEY_LOW : Z := 0x3b.
Definition VT_KEY_HIGH : Z := 0x44.
Definition BREAK_MASK : Z := 0x80.
Definition NORMAL_KEY_HIGH : Z := 0x39.
Definition NO_CHAR : Z := 0xff.

Definition normal_scancodes : list Z :=
  [0; 27] ++ [49; 50; 51; 52; 53; 54; 55; 56; 57; 48; 45; 61] ++ [8]
  ++ [9; 113; 119; 101; 114; 116; 121; 117; 105; 111; 112; 91; 93; 10] ++ [0]
  ++ [97; 115; 100; 102; 103; 104; 106; 107; 108; 59; 39; 96] ++ [0; 92]
  ++ [122; 120; 99; 118; 98; 110; 109; 44; 46; 47] ++ [0; 0; 0; 32].
Definition shift_scancodes : list Z :=
  [0; 27] ++ [33; 64; 35; 36; 37; 94; 38; 42; 40; 41; 95; 43] ++ [8]
  ++ [9; 81; 87; 69; 82; 84; 89; 85; 73; 79; 80; 123; 125; 10] ++ [0]
  ++ [65; 83; 68; 70; 71; 72; 74; 75; 76; 58; 34; 126] ++ [0; 124]
  ++ [90; 88; 67; 86; 66; 78; 77; 60; 62; 63] ++ [0; 0; 0; 32].

Definition with_mask (f : Z -> Z) : M unit := kmodify (fun s => set_mask (f (curmask s)) s).
Definition clear_mask (m : Z) : M unit := with_mask (fun x => Z.land x (Z.lnot m)).
Definition held (m : Z) (s : terminals) : bool := negb (Z.land (curmask s) m =? 0).

(** [keyboard_intr_handler] with the byte read from the keyboard's port *)
Definition keyboard_intr_handler (byte : Z) : M unit :=
  let break_code := Z.land byte BREAK_MASK in
  let sc := Z.land byte (Z.lnot BREAK_MASK) in
  s <- kget ;;
  c <- (if negb (break_code =? 0) then
          (if (sc =? LSHIFT) || (sc =? RSHIFT) then clear_mask SHIFT_MASK
           else if sc =? CTRL then clear_mask CTRL_MASK
           else kret tt) ;;; kret NO_CHAR
        else if (sc =? LSHIFT) || (sc =? RSHIFT) then with_mask (fun x => Z.lor x SHIFT_MASK) ;;; kret NO_CHAR
        else if sc =? CTRL then with_mask (fun x => Z.lor x CTRL_MASK) ;;; kret NO_CHAR
        else if held ESC_MASK s then clear_mask ESC_MASK ;;; kret NO_CHAR
        else if (sc =? ESC0) || (sc =? ESC1) then with_mask (fun x => Z.lor x ESC_MASK) ;;; kret NO_CHAR
        else if (VT_KEY_LOW <=? sc) && (sc <=? VT_KEY_HIGH) then vt_switch (sc - VT_KEY_LOW) ;;; kret NO_CHAR
        else if held CTRL_MASK s && (sc =? SCROLL_DOWN) then vt_scroll DISPLAY_HEIGHT false ;;; kret NO_CHAR
        else if held CTRL_MASK s && (sc =? SCROLL_UP) then vt_scroll DISPLAY_HEIGHT true ;;; kret NO_CHAR
        else if NORMAL_KEY_HIGH <? sc then kret NO_CHAR
        else if held CTRL_MASK s then
          c <- kderef (shift_scancodes !! Z.to_nat sc) ;;
          kret (if (0x40 <=? c) && (c <? 0x60) then c - 0x40 else NO_CHAR)
        else if held SHIFT_MASK s then kderef (shift_scancodes !! Z.to_nat sc)
        else kderef (normal_scancodes !! Z.to_nat sc)) ;;
  s <- kget ;;
  if negb (c =? NO_CHAR) && keyboard_handler s then vt_keyboard_handler c else kret tt.

End VirtTerm.
