(* ===== verification/VirtTermSpec.v ===== *)
(** * What the virtual terminals guarantee

    The invariant of a terminal, the circular buffer as the sequence of the last rows
    written, and the video memory as the image of the current terminal. *)

From S2P Require Import Prelude.
From S2P Require Export VirtTerm.

Module VirtTermSpec.
Export VirtTerm.

Local Open Scope Z_scope.
Local Open Scope kernel_scope.

(** Case analysis on the comparisons in the goal, the inner ones first *)
Ltac zcases := repeat match goal with |- context [?a <? ?b] =>
  lazymatch a with context [_ <? _] => fail | _ => lazymatch b with context [_ <? _] => fail | _ => destruct (Z.ltb_spec a b) end end end.

(** ** Positions *)

Definition inr (x : Z) : Prop := 0 <= x < 10000.
Definition wrap (x : Z) : Z := if x <? 10000 then x else x - 10000.

Lemma rem_small x : 0 <= x < 20000 -> Z.rem (s32 x) SCROLL_BUFSIZE = wrap x.
Proof.
  intros Hx. rewrite s32_small by lia. unfold SCROLL_BUFSIZE, wrap. rewrite Z.rem_mod_nonneg by lia. destruct (Z.ltb_spec x 10000).
  - by rewrite Z.mod_small by lia.
  - replace x with (x - 10000 + 1 * 10000) at 1 by lia. by rewrite Z_mod_plus_full, Z.mod_small by lia.
Qed.

Lemma circ_dist_eq a b : inr a -> inr b -> circ_dist a b = if a <? b then a - b + 10000 else a - b.
Proof.
  intros Ha Hb. unfold circ_dist, inr in *. rewrite rem_small by (unfold SCROLL_BUFSIZE; lia). unfold wrap, SCROLL_BUFSIZE.
  destruct (Z.ltb_spec a b), (Z.ltb_spec (a - b + 10000) 10000); lia.
Qed.
Lemma buf_add_eq p d : 0 <= p + d + 10000 < 20000 -> buf_add p d = wrap (p + d + 10000).
Proof. intros Hp. unfold buf_add. by apply rem_small. Qed.
Lemma buf_inc_eq p : inr p -> buf_add p 1 = wrap (p + 1).
Proof.
  unfold inr. intros Hp. destruct (decide (p = 9999)) as [->|Hne]; [done|]. rewrite buf_add_eq by lia. unfold wrap. zcases; lia.
Qed.
Lemma next_row_eq i q r : i = q * 80 + r -> 0 <= r < 80 -> 0 <= q < 125 -> next_row i = wrap ((q + 1) * 80).
Proof.
  intros -> Hr Hq. unfold next_row, DISPLAY_WIDTH. rewrite Z.quot_div_nonneg by lia.
  replace ((q * 80 + r) / 80) with q by (apply (Z.div_unique _ _ _ r); lia). apply rem_small. lia.
Qed.
Lemma row_of i : inr i -> exists q r, i = q * 80 + r /\ 0 <= r < 80 /\ 0 <= q < 125.
Proof.
  unfold inr. intros Hi. exists (i / 80), (i mod 80). pose proof (Z.div_mod i 80 ltac:(lia)). pose proof (Z.mod_pos_bound i 80 ltac:(lia)). lia.
Qed.

(** A position at the beginning of a row *)
Definition row_start (x : Z) : Prop := exists q, x = q * 80 /\ 0 <= q < 125.

(** ** The invariant of a terminal *)

Record term_ok (v : virtterm) : Prop := {
  to_buf : length (vt_buf v) = Z.to_nat SCROLL_BUFSIZE;
  to_temp : length (vt_tempbuf v) = Z.to_nat DISPLAY_SIZE;
  to_head : row_start (vt_head v);
  to_tail : row_start (vt_tail v);
  to_top : row_start (vt_top v);
  to_cursor : inr (vt_cursor v);
  to_within : circ_dist (vt_cursor v) (vt_head v) < circ_dist (vt_tail v) (vt_head v)
}.

Lemma to_buf_length v : term_ok v -> Z.of_nat (length (vt_buf v)) = 10000.
Proof. intros V. rewrite (to_buf v V). by apply Z2Nat.id. Qed.
Lemma to_temp_length v : term_ok v -> Z.of_nat (length (vt_tempbuf v)) = 2000.
Proof. intros V. rewrite (to_temp v V). by apply Z2Nat.id. Qed.

Lemma row_inr x : row_start x -> inr x.
Proof. intros (q & -> & Hq). unfold inr. lia. Qed.

(** ** Pieces of the circular buffer *)

Definition char_at (b : list Z) (x : Z) : Z := default 0 (b !! Z.to_nat x).
Definition slice (b : list Z) (from n : Z) : list Z := (fun k => char_at b (wrap (from + k))) <$> seqZ 0 n.

Lemma slice_length b x n : length (slice b x n) = Z.to_nat n.
Proof. unfold slice. by rewrite length_fmap, length_seqZ. Qed.

Lemma slice_ext b b' x n : (forall k, 0 <= k < n -> char_at b' (wrap (x + k)) = char_at b (wrap (x + k))) -> slice b' x n = slice b x n.
Proof. intros E. unfold slice. apply list_fmap_ext. intros i k Hk. apply lookup_seqZ in Hk as [-> Hk]. apply E. lia. Qed.

Lemma slice_app b x n m : inr x -> 0 <= n -> 0 <= m -> n + m <= 10000 -> slice b x (n + m) = slice b x n ++ slice b (wrap (x + n)) m.
Proof.
  intros Hx Hn Hm Hs. unfold inr in Hx. unfold slice. rewrite seqZ_app, fmap_app by lia. f_equal.
  replace (0 + n) with (n + 0) by lia. rewrite <- fmap_add_seqZ, <- list_fmap_compose. apply list_fmap_ext.
  intros i k Hk. apply lookup_seqZ in Hk as [-> Hk]. simpl. f_equal. replace (x + (n + (0 + Z.of_nat i))) with (x + n + Z.of_nat i) by lia.
  unfold wrap. destruct (Z.ltb_spec (x + n) 10000); zcases; lia.
Qed.

Lemma slice_const b x n v : (forall k, 0 <= k < n -> char_at b (wrap (x + k)) = v) -> slice b x n = replicate (Z.to_nat n) v.
Proof.
  intros E. apply (list_eq_same_length _ _ (Z.to_nat n)); [by rewrite length_replicate|by rewrite slice_length|].
  intros i y z Hi Hy Hz. apply lookup_replicate in Hz as [-> _]. unfold slice in Hy.
  apply list_lookup_fmap_Some in Hy as (k & -> & Hk). apply lookup_seqZ in Hk as [-> Hk]. apply E. lia.
Qed.

Lemma slice_insert b x n i c : inr x -> 0 <= i < n -> n <= 10000 -> length b = Z.to_nat SCROLL_BUFSIZE ->
  slice (<[Z.to_nat (wrap (x + i)) := c]> b) x n = <[Z.to_nat i := c]> (slice b x n).
Proof.
  intros Hx Hi Hn Hb. unfold inr in Hx. unfold SCROLL_BUFSIZE in Hb.
  apply (list_eq_same_length _ _ (Z.to_nat n)); [by rewrite length_insert, slice_length|by rewrite slice_length|].
  intros j y z Hj Hy Hz. unfold slice in Hy. apply list_lookup_fmap_Some in Hy as (k & -> & Hk). apply lookup_seqZ in Hk as [-> Hk]. rewrite Z.add_0_l in *.
  assert (Hw : 0 <= wrap (x + i) < 10000 /\ 0 <= wrap (x + Z.of_nat j) < 10000 /\ (wrap (x + i) = wrap (x + Z.of_nat j) -> Z.of_nat j = i)).
  { unfold wrap. zcases; lia. }
  destruct (decide (j = Z.to_nat i)) as [->|Hne].
  - rewrite list_lookup_insert_eq in Hz by (rewrite slice_length; lia). injection Hz as <-. rewrite Z2Nat.id by lia.
    unfold char_at. rewrite list_lookup_insert_eq by lia. done.
  - rewrite list_lookup_insert_ne in Hz by lia. unfold slice in Hz. rewrite list_lookup_fmap, (proj2 (lookup_seqZ 0 n j (Z.of_nat j))) in Hz by lia.
    injection Hz as <-. unfold char_at. rewrite list_lookup_insert_ne; [done|]. intros E. apply Hne. lia.
Qed.

(** ** Clearing *)

Lemma memset_lookup b off n v b' x : memset_at b off n v = Some b' -> 0 <= x ->
  char_at b' x = if (off <=? x) && (x <? off + n) then v else char_at b x.
Proof.
  unfold memset_at. destruct ((0 <=? off) && (0 <=? n) && (off + n <=? Z.of_nat (length b))) eqn:E; [|done]. intros [= <-] Hx. unfold char_at.
  assert (Hl : length (take (Z.to_nat off) b) = Z.to_nat off) by (rewrite length_take; lia).
  destruct ((off <=? x) && (x <? off + n)) eqn:Ex.
  - rewrite lookup_app_r, lookup_app_l, lookup_replicate_2; [done|rewrite Hl; lia|rewrite length_replicate, Hl; lia|rewrite Hl; lia].
  - destruct (decide (x < off)) as [Hlt|Hge].
    + rewrite lookup_app_l by (rewrite Hl; lia). by rewrite lookup_take_lt by lia.
    + rewrite lookup_app_r, lookup_app_r by (rewrite ?length_replicate, Hl; lia). rewrite lookup_drop, length_replicate, Hl. do 2 f_equal. lia.
Qed.
Lemma memset_Some b off n v : 0 <= off -> 0 <= n -> off + n <= Z.of_nat (length b) -> exists b', memset_at b off n v = Some b' /\ length b' = length b.
Proof.
  intros. unfold memset_at. replace ((0 <=? off) && (0 <=? n) && (off + n <=? Z.of_nat (length b))) with true by lia. eexists. split; [done|].
  rewrite !length_app, length_take, length_replicate, length_drop. lia.
Qed.

(** ** The rows of a terminal *)

(** The characters between head and tail, and the place of the cursor among them *)
Record text : Type := mk_text { chars : list Z; pos : Z }.

Definition blank_row : list Z := replicate 80 0.
(** Behind the last row a new one begins; of more than 124 rows the first is dropped. *)
Definition grow (t : text) : text :=
  if pos t <? Z.of_nat (length (chars t)) then t
  else if Z.of_nat (length (chars t)) + 80 <=? 124 * 80 then mk_text (chars t ++ blank_row) (pos t)
  else mk_text (drop 80 (chars t ++ blank_row)) (pos t - 80).
Definition put_text (t : text) (c : Z) : text :=
  if c =? 8 then mk_text (chars t) (Z.max 0 (pos t - 1))
  else if c =? 13 then mk_text (chars t) (pos t / 80 * 80)
  else if c =? 10 then grow (mk_text (chars t) ((pos t / 80 + 1) * 80))
  else grow (mk_text (<[Z.to_nat (pos t) := c]> (chars t)) (pos t + 1)).

Definition rows (v : virtterm) : Z := circ_dist (vt_tail v) (vt_head v).
Definition text_of (v : virtterm) : text := mk_text (slice (vt_buf v) (vt_head v) (rows v)) (circ_dist (vt_cursor v) (vt_head v)).

(** The row after the tail is cleared and added. *)
Record row_added (v v' : virtterm) : Prop := {
  ra_tail : vt_tail v' = wrap (vt_tail v + 80);
  ra_head : vt_head v' = if rows v =? 9920 then wrap (vt_head v + 80) else vt_head v;
  ra_buf : forall x, 0 <= x -> char_at (vt_buf v') x = if (vt_tail v <=? x) && (x <? vt_tail v + 80) then 0 else char_at (vt_buf v) x
}.

Lemma wrap_row x : row_start x -> row_start (wrap (x + 80)).
Proof. intros (q & -> & Hq). unfold wrap. zcases; [exists (q + 1)|exists (q - 124)]; lia. Qed.

Lemma rows_range v : term_ok v -> 80 <= rows v <= 9920 /\ exists q, rows v = q * 80.
Proof.
  intros [_ _ (qh & Eh & Hqh) (qt & Et & Hqt) _ Hc Hw]. unfold rows, inr in *.
  rewrite !circ_dist_eq in Hw by (unfold inr; lia). rewrite circ_dist_eq by (unfold inr; lia). rewrite Eh, Et in *.
  destruct (Z.ltb_spec (qt * 80) (qh * 80)), (Z.ltb_spec (vt_cursor v) (qh * 80));
    (split; [lia|]); [exists (qt - qh + 125)..|exists (qt - qh)|exists (qt - qh)]; lia.
Qed.

Lemma handle_tail_spec v d : term_ok v -> 1 <= d <= 80 -> d <= circ_dist (vt_tail v) (vt_cursor v) ->
  exists v', handle_tail v (wrap (vt_cursor v + d)) = Some v' /\ vt_top v' = vt_top v /\ vt_tempbuf v' = vt_tempbuf v
    /\ vt_cursor v' = vt_cursor v /\ vt_driver v' = vt_driver v /\ length (vt_buf v') = length (vt_buf v)
    /\ if d <? circ_dist (vt_tail v) (vt_cursor v) then v' = v else row_added v v'.
Proof.
  intros V Hd Hdt. pose proof (rows_range v V) as [Hr _]. destruct V as [Hb _ Hh Ht _ Hc _]. unfold inr in Hc.
  destruct Ht as (qt & Et & Hqt). unfold handle_tail.
  assert (Hn : inr (wrap (vt_cursor v + d))) by (unfold inr, wrap; zcases; lia).
  assert (E1 : circ_dist (wrap (vt_cursor v + d)) (vt_cursor v) = d).
  { rewrite circ_dist_eq by done. unfold wrap. zcases; lia. }
  rewrite E1. rewrite Z.geb_leb. destruct (Z.ltb_spec d (circ_dist (vt_tail v) (vt_cursor v))) as [Hlt|Hge].
  { destruct (Z.leb_spec (circ_dist (vt_tail v) (vt_cursor v)) d); [lia|]. by exists v. }
  destruct (Z.leb_spec (circ_dist (vt_tail v) (vt_cursor v)) d); [|lia].
  assert (E2 : wrap (vt_cursor v + d) = vt_tail v).
  { rewrite circ_dist_eq in * by (unfold inr; lia). revert Hdt Hge. unfold wrap. zcases; lia. }
  assert (E3 : next_row (vt_tail v) = wrap (vt_tail v + 80)) by (rewrite (next_row_eq _ qt 0) by lia; f_equal; lia).
  assert (Hnt : row_start (wrap (vt_tail v + 80))) by (apply wrap_row; by exists qt).
  assert (E4 : circ_dist (vt_tail v) (wrap (vt_tail v + 80)) = 9920).
  { rewrite circ_dist_eq by (unfold inr, wrap; zcases; lia). unfold wrap. zcases; lia. }
  assert (E5 : next_row (wrap (vt_tail v + 80)) = wrap (wrap (vt_tail v + 80) + 80)).
  { destruct Hnt as (q & -> & Hq). rewrite (next_row_eq _ q 0) by lia. f_equal. lia. }
  rewrite E2, E3, E4, E5. fold (rows v).
  assert (Ehd : (if rows v >=? 9920 then wrap (wrap (vt_tail v + 80) + 80) else vt_head v) = if rows v =? 9920 then wrap (vt_head v + 80) else vt_head v).
  { rewrite Z.geb_leb. destruct (Z.leb_spec 9920 (rows v)), (Z.eqb_spec (rows v) 9920); try lia. f_equal.
    destruct Hh as (qh & Eh & Hqh). unfold rows in *. rewrite circ_dist_eq in * by (unfold inr; lia).
    match goal with H : context [if ?x then _ else _] |- _ => revert H end. unfold wrap. zcases; lia. }
  rewrite Ehd. unfold SCROLL_BUFSIZE in Hb. destruct (Z.leb_spec (vt_tail v) (wrap (vt_tail v + 80))) as [Hle|Hgt].
  - assert (Ew : wrap (vt_tail v + 80) = vt_tail v + 80) by (revert Hle; unfold wrap; zcases; lia). rewrite Ew.
    destruct (memset_Some (vt_buf v) (vt_tail v) 80 0) as (b' & Eb & Hl); [lia..|]. replace (vt_tail v + 80 - vt_tail v) with 80 by lia. rewrite Eb. simpl.
    eexists. split; [done|]. simpl. split_and!; try done. split; simpl; [done..|]. intros x Hx. by apply (memset_lookup _ _ _ _ _ _ Eb).
  - assert (Ew : vt_tail v + 80 = 10000 /\ wrap (vt_tail v + 80) = 0) by (revert Hgt; unfold wrap; zcases; lia). destruct Ew as [Ew Ew'].
    destruct (memset_Some (vt_buf v) (vt_tail v) 80 0) as (b' & Eb & Hl); [lia..|].
    replace (SCROLL_BUFSIZE - vt_tail v) with 80 by (unfold SCROLL_BUFSIZE; lia). rewrite Eb. simpl. rewrite Ew'.
    destruct (memset_Some b' 0 0 0) as (b2 & Eb2 & Hl2); [lia..|]. rewrite Eb2. simpl. eexists. split; [done|]. simpl. split_and!; try done; [congruence|].
    split; simpl; [by rewrite Ew'|done|]. intros x Hx. rewrite (memset_lookup _ _ _ _ _ _ Eb2) by done.
    replace ((0 <=? x) && (x <? 0 + 0)) with false by lia. by apply (memset_lookup _ _ _ _ _ _ Eb).
Qed.

(** Where the cursor and the tail are, counted from the head *)
Lemma cursor_place v : term_ok v -> exists p, circ_dist (vt_cursor v) (vt_head v) = p /\ 0 <= p < rows v
  /\ vt_cursor v = wrap (vt_head v + p) /\ circ_dist (vt_tail v) (vt_cursor v) = rows v - p /\ vt_tail v = wrap (vt_head v + rows v).
Proof.
  intros [_ _ Hh%row_inr Ht%row_inr _ Hc Hw]. unfold rows, inr in *. eexists. split; [done|].
  rewrite !circ_dist_eq in * by done. revert Hw. unfold wrap. zcases; lia.
Qed.

(** The cursor in its row and from the head *)
Lemma cursor_row v : term_ok v -> exists q r, vt_cursor v = q * 80 + r /\ 0 <= r < 80 /\ 0 <= q < 125
  /\ exists n, circ_dist (vt_cursor v) (vt_head v) = n * 80 + r /\ 0 <= n.
Proof.
  intros [_ _ (qh & Eh & Hqh) _ _ Hc _]. destruct (row_of _ Hc) as (q & r & E & Hr & Hq). exists q, r. split_and!; try lia.
  rewrite circ_dist_eq by (unfold inr; lia). rewrite E, Eh. destruct (Z.ltb_spec (q * 80 + r) (qh * 80)); [exists (q - qh + 125)|exists (q - qh)]; lia.
Qed.

Lemma slice_kept v v' : term_ok v -> row_added v v' -> slice (vt_buf v') (vt_head v) (rows v + 80) = slice (vt_buf v) (vt_head v) (rows v) ++ blank_row.
Proof.
  intros V [_ _ Hb]. destruct (rows_range v V) as [Hr _]. destruct (cursor_place v V) as (p & _ & _ & _ & _ & Et).
  pose proof (row_inr _ (to_head _ V)) as Hh. pose proof (to_tail _ V) as (qt & Eqt & Hqt). rewrite slice_app by (done || lia). rewrite <- Et. f_equal.
  - apply slice_ext. intros k Hk. unfold inr in Hh. rewrite Hb by (unfold wrap; zcases; lia).
    replace ((vt_tail v <=? wrap (vt_head v + k)) && (wrap (vt_head v + k) <? vt_tail v + 80)) with false; [done|].
    symmetry. apply andb_false_iff. rewrite Et. unfold wrap. zcases; lia.
  - apply slice_const. intros k Hk. rewrite Hb by (unfold wrap; zcases; lia).
    replace ((vt_tail v <=? wrap (vt_tail v + k)) && (wrap (vt_tail v + k) <? vt_tail v + 80)) with true; [done|].
    symmetry. apply andb_true_iff. unfold wrap. zcases; lia.
Qed.

(** Moving the cursor forward *)
Lemma advance v d p : term_ok v -> circ_dist (vt_cursor v) (vt_head v) = p -> 1 <= d <= 80 -> d <= rows v - p ->
  exists v1, handle_tail v (wrap (vt_cursor v + d)) = Some v1 /\ vt_top v1 = vt_top v /\ vt_driver v1 = vt_driver v
    /\ let v' := with_cursor (wrap (vt_cursor v + d)) v1 in
       term_ok v' /\ text_of v' = grow (mk_text (slice (vt_buf v) (vt_head v) (rows v)) (p + d)).
Proof.
  intros V Ep Hd Hdp. destruct (cursor_place v V) as (p' & Ep' & Hp & Ec & Ed & Et). rewrite Ep in Ep'. subst p'.
  destruct (rows_range v V) as [Hr _]. destruct (handle_tail_spec v d V Hd ltac:(lia)) as (v1 & E & E1 & E2 & E3 & E4 & E5 & Hc).
  exists v1. split_and!; try done. rewrite Ed in Hc. pose proof V as [Hb Htmp Hh Ht Htop Hcu Hw]. pose proof (row_inr _ Hh) as Hhi. pose proof (row_inr _ Ht) as Hti.
  unfold inr in *. unfold grow. cbn [chars pos]. rewrite slice_length, Z2Nat.id by lia.
  assert (Hn : inr (wrap (vt_cursor v + d))) by (unfold inr, wrap; zcases; lia).
  destruct (Z.ltb_spec d (rows v - p)) as [Hlt|Hge].
  - subst v1. assert (Ecd : circ_dist (wrap (vt_cursor v + d)) (vt_head v) = p + d).
    { rewrite circ_dist_eq by done. rewrite Ec. unfold wrap. zcases; lia. }
    destruct (Z.ltb_spec (p + d) (rows v)); [|lia]. split; [|unfold text_of; simpl; by rewrite Ecd].
    split; simpl; try done. rewrite Ecd. unfold rows in *. lia.
  - assert (d = rows v - p) as -> by lia. destruct (Z.ltb_spec (p + (rows v - p)) (rows v)); [lia|].
    assert (Ecu : wrap (vt_cursor v + (rows v - p)) = vt_tail v) by (rewrite Ec, Et; unfold wrap; zcases; lia). rewrite Ecu.
    pose proof (slice_kept v v1 V Hc) as Hsl. destruct Hc as [Rt Rh _].
    assert (Ht' : row_start (wrap (vt_tail v + 80))) by (by apply wrap_row).
    destruct (Z.eqb_spec (rows v) 9920) as [Er|Er].
    + assert (Hh' : row_start (wrap (vt_head v + 80))) by (by apply wrap_row).
      assert (C1 : circ_dist (vt_tail v) (wrap (vt_head v + 80)) = 9840).
      { rewrite circ_dist_eq by (unfold inr, wrap; zcases; lia). rewrite Et, Er. unfold wrap. zcases; lia. }
      assert (C2 : circ_dist (wrap (vt_tail v + 80)) (wrap (vt_head v + 80)) = 9920).
      { rewrite circ_dist_eq by (unfold inr, wrap; zcases; lia). rewrite Et, Er. unfold wrap. zcases; lia. }
      destruct (Z.leb_spec (rows v + 80) (124 * 80)); [lia|]. split.
      * split; simpl; rewrite ?Rt, ?Rh, ?E1, ?E2, ?E5; try done. rewrite C1, C2. lia.
      * unfold text_of. unfold rows at 1. simpl. rewrite Rt, Rh, C1, C2. f_equal; [|lia]. rewrite <- Hsl, Er.
        replace (9920 + 80) with (80 + 9920) by lia. rewrite slice_app by (done || lia).
        symmetry. apply drop_app_length'. by rewrite slice_length.
    + destruct (rows_range v V) as [_ [q Eq]].
      assert (C1 : circ_dist (vt_tail v) (vt_head v) = rows v) by done.
      assert (C2 : circ_dist (wrap (vt_tail v + 80)) (vt_head v) = rows v + 80).
      { rewrite circ_dist_eq by (unfold inr, wrap; zcases; lia). rewrite Et. unfold wrap. zcases; lia. }
      destruct (Z.leb_spec (rows v + 80) (124 * 80)); [|lia]. split.
      * split; simpl; rewrite ?Rt, ?Rh, ?E1, ?E2, ?E5; try done. rewrite C1, C2. lia.
      * unfold text_of. unfold rows at 1. simpl. rewrite Rt, Rh, C1, C2, Hsl. f_equal. lia.
Qed.

(** ** A character *)

Definition control (c : Z) : bool := (c =? 8) || (c =? 13) || (c =? 10).

Lemma handle_char_ok v c : term_ok v -> exists v', vt_handle_char v c = Some (v', negb (control c))
  /\ term_ok v' /\ text_of v' = put_text (text_of v) c /\ vt_top v' = vt_top v /\ vt_driver v' = vt_driver v.
Proof.
  intros V. destruct (cursor_place v V) as (p & Ep & Hp & Ec & Ed & Et). destruct (cursor_row v V) as (q & r & Eq & Hr & Hq & n & En & Hn).
  destruct (rows_range v V) as [Hrows [qr Eqr]]. pose proof V as [Hb Htmp Hh Ht Htop Hc Hw]. pose proof (row_inr _ Hh) as Hhi. pose proof (row_inr _ Ht) as Hti.
  unfold vt_handle_char, put_text, control, text_of. cbn [chars pos]. rewrite Ep in *. unfold inr in *.
  destruct (Z.eqb_spec c 8) as [->|H8]; simpl.
  { eexists. split; [done|]. destruct (Z.eqb_spec (vt_cursor v) (vt_head v)) as [E|E]; simpl.
    - assert (p = 0) as -> by (rewrite <- Ep, E, circ_dist_eq by (unfold inr; lia); zcases; lia).
      split_and!; [split; simpl; try done; by rewrite Ep|unfold text_of; simpl; by rewrite Ep|done..].
    - rewrite buf_add_eq by lia. set (nc := wrap _). assert (Hnc : inr nc) by (unfold nc, inr, wrap; zcases; lia).
      assert (Ecd : circ_dist nc (vt_head v) = p - 1).
      { rewrite <- Ep, !circ_dist_eq by (done || unfold inr; lia). unfold nc, wrap. rewrite circ_dist_eq in Ep by (unfold inr; lia). revert Ep. zcases; lia. }
      assert (1 <= p) by (rewrite circ_dist_eq in Ep by (unfold inr; lia); revert Ep; zcases; lia).
      split_and!; try done; [|unfold text_of; simpl; rewrite Ecd; f_equal; lia]. split; simpl; try done. rewrite Ecd. unfold rows in *. lia. }
  destruct (Z.eqb_spec c 13) as [->|H13]; simpl.
  { eexists. split; [done|]. unfold DISPLAY_WIDTH. rewrite Z.quot_div_nonneg by lia.
    replace (vt_cursor v / 80) with q by (apply (Z.div_unique _ _ _ r); lia). replace (p / 80) with n by (apply (Z.div_unique _ _ _ r); lia).
    assert (Ecd : circ_dist (q * 80) (vt_head v) = n * 80).
    { destruct Hh as (qh & Eh & Hqh). rewrite circ_dist_eq in Ep |- * by (unfold inr; lia). rewrite Eh, Eq in Ep. rewrite Eh. revert Ep. zcases; lia. }
    split_and!; try done; [|unfold text_of; simpl; by rewrite Ecd]. split; simpl; try done; [unfold inr; lia|]. rewrite Ecd. unfold rows in *. lia. }
  destruct (Z.eqb_spec c 10) as [->|H10]; simpl.
  { assert (En' : next_row (vt_cursor v) = wrap (vt_cursor v + (80 - r))) by (rewrite (next_row_eq _ q r) by lia; f_equal; lia). rewrite En'.
    destruct (advance v (80 - r) p V Ep ltac:(lia) ltac:(nia)) as (v1 & E & E1 & E2 & V' & T). rewrite E. simpl. eexists. split; [done|].
    split_and!; try done. etransitivity; [exact T|]. do 2 f_equal. replace (p / 80) with n by (apply (Z.div_unique _ _ _ r); lia). lia. }
  unfold store_at. rewrite Hb, Z2Nat.id by done. unfold SCROLL_BUFSIZE.
  replace ((0 <=? vt_cursor v) && (vt_cursor v <? 10000)) with true by (symmetry; apply andb_true_iff; lia). simpl.
  set (v0 := with_buf _ v). assert (V0 : term_ok v0) by (split; simpl; try done; [by rewrite length_insert|by rewrite Ep]).
  assert (Ea : buf_add (vt_cursor v) 1 = wrap (vt_cursor v0 + 1)) by (by apply buf_inc_eq).
  rewrite Ea. destruct (advance v0 1 p V0 Ep ltac:(lia)) as (v1 & E & E1 & E2 & V' & T); [change (rows v0) with (rows v); lia|].
  rewrite E. simpl. eexists. split; [done|]. split_and!; try done. etransitivity; [exact T|]. change (rows v0) with (rows v). do 2 f_equal.
  unfold v0. simpl. rewrite Ec. by rewrite slice_insert by (done || lia).
Qed.

(** ** The screen *)

(** What [vt_redraw] shows: the buffer from the top of the screen on, blank behind the tail *)
Definition shown_at (v : virtterm) (i : Z) : Z := if i <? circ_dist (vt_tail v) (vt_top v) then char_at (vt_buf v) (wrap (vt_top v + i)) else 0.
Definition shown (v : virtterm) : list Z := shown_at v <$> seqZ 0 2000.

Lemma list_char_eq (l l' : list Z) : length l = length l' -> (forall x, 0 <= x < Z.of_nat (length l) -> char_at l x = char_at l' x) -> l = l'.
Proof.
  intros Hl E. apply (list_eq_same_length l l' (length l)); [done..|]. intros i y z Hi Hy Hz. specialize (E (Z.of_nat i) ltac:(lia)).
  unfold char_at in E. rewrite Nat2Z.id, Hy, Hz in E. done.
Qed.

Lemma memcpy_Some dst doff src soff n : 0 <= doff -> 0 <= soff -> 0 <= n -> doff + n <= Z.of_nat (length dst) -> soff + n <= Z.of_nat (length src) ->
  exists b, memcpy_at dst doff src soff n = Some b /\ length b = length dst
    /\ forall x, 0 <= x -> char_at b x = if (doff <=? x) && (x <? doff + n) then char_at src (soff + (x - doff)) else char_at dst x.
Proof.
  intros. unfold memcpy_at. replace (_ && _ && _ && _ && _) with true by lia. eexists. split; [done|].
  assert (Hl : length (take (Z.to_nat doff) dst) = Z.to_nat doff) by (rewrite length_take; lia).
  assert (Hm : length (take (Z.to_nat n) (drop (Z.to_nat soff) src)) = Z.to_nat n) by (rewrite length_take, length_drop; lia).
  split; [rewrite !length_app, Hl, Hm, length_drop; lia|]. intros x Hx. unfold char_at.
  destruct ((doff <=? x) && (x <? doff + n)) eqn:Ex.
  - rewrite lookup_app_r, lookup_app_l, lookup_take_lt, lookup_drop, Hl by (rewrite ?Hl, ?Hm; lia). do 2 f_equal. lia.
  - destruct (decide (x < doff)) as [Hlt|Hge].
    + rewrite lookup_app_l by (rewrite Hl; lia). by rewrite lookup_take_lt by lia.
    + rewrite lookup_app_r, lookup_app_r by (rewrite ?Hm, Hl; lia). rewrite lookup_drop, Hm, Hl. do 2 f_equal. lia.
Qed.

Lemma shown_char v x : 0 <= x < 2000 -> char_at (shown v) x = shown_at v x.
Proof.
  intros Hx. unfold char_at, shown. rewrite list_lookup_fmap, (proj2 (lookup_seqZ 0 2000 (Z.to_nat x) x)) by lia. done.
Qed.
Lemma shown_length v : length (shown v) = 2000%nat.
Proof. unfold shown. by rewrite length_fmap, length_seqZ. Qed.

Lemma fill_shown v b n : length b = 2000%nat -> (forall x, 0 <= x < 2000 -> char_at b x = if x <? n then char_at (vt_buf v) (wrap (vt_top v + x)) else 0) ->
  Z.min n 2000 = Z.min (circ_dist (vt_tail v) (vt_top v)) 2000 -> b = shown v.
Proof.
  intros Hl Hc Hn. apply list_char_eq; [by rewrite shown_length|]. rewrite Hl. intros x Hx. rewrite Hc, shown_char by lia. unfold shown_at.
  destruct (Z.ltb_spec x n), (Z.ltb_spec x (circ_dist (vt_tail v) (vt_top v))); lia || done.
Qed.

Lemma fill_tempbuf_shown v : term_ok v -> fill_tempbuf v = Some (shown v).
Proof.
  intros V. pose proof (to_buf_length v V) as Hb. pose proof (to_temp_length v V) as Htmp. destruct V as [_ _ _ Ht%row_inr Htop%row_inr _ _].
  unfold inr in *. unfold fill_tempbuf.
  destruct (memset_Some (vt_tempbuf v) 0 DISPLAY_SIZE 0) as (tmp & Em & Hm); [unfold DISPLAY_SIZE; lia..|]. rewrite Em. simpl.
  assert (Hz : forall x, 0 <= x < 2000 -> char_at tmp x = 0).
  { intros x Hx. rewrite (memset_lookup _ _ _ _ _ _ Em) by lia. by replace ((0 <=? x) && (x <? 0 + DISPLAY_SIZE)) with true by (unfold DISPLAY_SIZE; lia). }
  unfold DISPLAY_SIZE, SCROLL_BUFSIZE. rewrite Z.geb_leb.
  assert (Hone : forall n, 0 <= n <= 2000 -> vt_top v + n <= 10000 -> Z.min n 2000 = Z.min (circ_dist (vt_tail v) (vt_top v)) 2000 ->
    memcpy_at tmp 0 (vt_buf v) (vt_top v) n = Some (shown v)).
  { intros n Hn Hn' Hmin. destruct (memcpy_Some tmp 0 (vt_buf v) (vt_top v) n) as (b & Eb & Hl & Hc); [lia..|]. rewrite Eb. f_equal.
    apply (fill_shown v b n); [lia| |done]. intros x Hx. rewrite Hc by lia. rewrite Z.sub_0_r. destruct (Z.ltb_spec x n).
    - replace ((0 <=? x) && (x <? 0 + n)) with true by lia. f_equal. unfold wrap. zcases; lia.
    - replace ((0 <=? x) && (x <? 0 + n)) with false by lia. by apply Hz. }
  pose proof (circ_dist_eq (vt_tail v) (vt_top v) Ht Htop) as Ecd.
  destruct (Z.leb_spec (vt_top v) (vt_tail v)) as [Hle|Hgt].
  { destruct (Z.ltb_spec (vt_tail v) (vt_top v)); [lia|]. destruct (Z.leb_spec (vt_tail v - vt_top v) 2000); apply Hone; lia. }
  destruct (Z.ltb_spec (vt_tail v) (vt_top v)); [|lia]. destruct (Z.leb_spec 2000 (10000 - vt_top v)); [apply Hone; lia|].
  destruct (memcpy_Some tmp 0 (vt_buf v) (vt_top v) (10000 - vt_top v)) as (b & Eb & Hl & Hc); [lia..|]. rewrite Eb. simpl.
  assert (Htwo : forall n, 0 <= n -> 10000 - vt_top v + n <= 2000 -> Z.min (10000 - vt_top v + n) 2000 = Z.min (circ_dist (vt_tail v) (vt_top v)) 2000 ->
    memcpy_at b (10000 - vt_top v) (vt_buf v) 0 n = Some (shown v)).
  { intros n Hn Hn' Hmin. destruct (memcpy_Some b (10000 - vt_top v) (vt_buf v) 0 n) as (b2 & Eb2 & Hl2 & Hc2); [lia..|]. rewrite Eb2. f_equal.
    apply (fill_shown v b2 (10000 - vt_top v + n)); [lia| |done]. intros x Hx. rewrite Hc2, Hc by lia. rewrite Z.sub_0_r, !Z.add_0_l.
    unfold wrap. zcases; destruct (Z.leb_spec (10000 - vt_top v) x), (Z.leb_spec 0 x); simpl; try lia; (by apply Hz) || (f_equal; lia). }
  destruct (Z.leb_spec (10000 - vt_top v + vt_tail v) 2000); apply Htwo; lia.
Qed.

(** *** A character put where the cursor was *)

(** The cursor is shown, and it is shown before the tail. *)
Definition visible (v : virtterm) : Prop :=
  circ_dist (vt_cursor v) (vt_top v) < DISPLAY_SIZE /\ circ_dist (vt_cursor v) (vt_top v) < circ_dist (vt_tail v) (vt_top v).

Lemma shown_ext v v' : (forall i, 0 <= i < 2000 -> shown_at v' i = shown_at v i) -> shown v' = shown v.
Proof. intros E. apply list_char_eq; [by rewrite !shown_length|]. rewrite shown_length. intros x Hx. rewrite !shown_char by lia. apply E. lia. Qed.

Lemma shown_tail v d v' : term_ok v -> visible v -> 1 <= d <= 80 -> d <= circ_dist (vt_tail v) (vt_cursor v) ->
  handle_tail v (wrap (vt_cursor v + d)) = Some v' -> shown v' = shown v.
Proof.
  intros V [Hv1 Hv2] Hd Hdt E. destruct (handle_tail_spec v d V Hd Hdt) as (v1 & E1 & Etop & _ & _ & _ & _ & Hc). rewrite E in E1. injection E1 as <-.
  destruct (Z.ltb_spec d (circ_dist (vt_tail v) (vt_cursor v))) as [|Hge]; [by subst|]. destruct Hc as [Rt _ Rb].
  destruct V as [_ _ _ Ht Htop%row_inr Hcu _]. pose proof (wrap_row _ Ht) as Ht'%row_inr. destruct Ht as (qt & Eqt & Hqt). unfold inr, DISPLAY_SIZE in *.
  rewrite circ_dist_eq in Hv1 by (unfold inr; lia). rewrite !circ_dist_eq in Hv2 by (unfold inr; lia).
  rewrite circ_dist_eq in Hge by (unfold inr; lia). rewrite circ_dist_eq in Hdt by (unfold inr; lia).
  apply shown_ext. intros i Hi. unfold shown_at. rewrite Rt, Etop. rewrite Rb by (unfold wrap; zcases; lia).
  rewrite !circ_dist_eq by (unfold inr; lia). revert Hv1 Hv2 Hge Hdt.
  destruct (Z.ltb_spec (vt_tail v) (vt_top v)), (Z.ltb_spec (vt_cursor v) (vt_top v)), (Z.ltb_spec (vt_tail v) (vt_cursor v)); intros; try lia;
    unfold wrap; zcases; try lia; repeat match goal with |- context [?a <=? ?b] => destruct (Z.leb_spec a b) end; simpl; lia || done.
Qed.

Lemma newline_step v : term_ok v -> exists d, next_row (vt_cursor v) = wrap (vt_cursor v + d) /\ 1 <= d <= 80 /\ d <= circ_dist (vt_tail v) (vt_cursor v).
Proof.
  intros V. destruct (cursor_place v V) as (p & Ep & Hp & _ & Ed & _). destruct (cursor_row v V) as (q & r & Eq & Hr & Hq & n & En & Hn).
  destruct (rows_range v V) as [_ [qr Eqr]]. exists (80 - r). split_and!; [|lia..|nia]. rewrite (next_row_eq _ q r) by lia. f_equal. lia.
Qed.

Lemma shown_insert v c : term_ok v -> visible v ->
  shown (with_buf (<[Z.to_nat (vt_cursor v) := c]> (vt_buf v)) v) = <[Z.to_nat (circ_dist (vt_cursor v) (vt_top v)) := c]> (shown v).
Proof.
  intros V [Hv1 Hv2]. pose proof (to_buf_length v V) as Hb. destruct V as [_ _ _ Ht%row_inr Htop%row_inr Hc _]. unfold DISPLAY_SIZE in *.
  assert (Hrel : 0 <= circ_dist (vt_cursor v) (vt_top v)) by (rewrite circ_dist_eq by done; unfold inr in *; zcases; lia).
  apply list_char_eq; [by rewrite length_insert, !shown_length|]. rewrite shown_length. intros x Hx. rewrite shown_char by lia. unfold shown_at. simpl.
  assert (Hw : 0 <= wrap (vt_top v + x) < 10000 /\ (wrap (vt_top v + x) = vt_cursor v <-> x = circ_dist (vt_cursor v) (vt_top v))).
  { rewrite circ_dist_eq by done. unfold inr in *. unfold wrap. zcases; lia. }
  destruct Hw as [Hw1 Hw2]. unfold inr in Hc. destruct (decide (x = circ_dist (vt_cursor v) (vt_top v))) as [Ex|Hne].
  - rewrite <- Ex. unfold char_at at 2. rewrite list_lookup_insert_eq by (rewrite shown_length; lia). simpl.
    destruct (Z.ltb_spec x (circ_dist (vt_tail v) (vt_top v))); [|lia]. rewrite (proj2 Hw2 Ex). unfold char_at. by rewrite list_lookup_insert_eq by lia.
  - unfold char_at at 2. rewrite list_lookup_insert_ne by lia. fold (char_at (shown v) x). rewrite shown_char by lia. unfold shown_at.
    destruct (x <? _); [|done]. unfold char_at. by rewrite list_lookup_insert_ne by lia.
Qed.

Lemma handle_char_shown v c v' r : term_ok v -> visible v -> vt_handle_char v c = Some (v', r) ->
  shown v' = if r then <[Z.to_nat (circ_dist (vt_cursor v) (vt_top v)) := c]> (shown v) else shown v.
Proof.
  intros V Hv. unfold vt_handle_char. destruct (c =? 8); [by intros [= <- <-]|]. destruct (c =? 13); [by intros [= <- <-]|]. destruct (c =? 10).
  { destruct (newline_step v V) as (d & -> & Hd & Hdt). destruct (handle_tail v (wrap (vt_cursor v + d))) as [v1|] eqn:E; simpl; [|done]. intros [= <- <-].
    by apply (shown_tail v d v1). }
  pose proof (to_buf_length v V) as Hb. pose proof (to_cursor v V) as Hc. unfold store_at. destruct ((0 <=? _) && _); simpl; [|done].
  set (v0 := with_buf _ v). rewrite buf_inc_eq by done.
  assert (V0 : term_ok v0) by (destruct V; split; try done; simpl; by rewrite length_insert).
  destruct (handle_tail v0 (wrap (vt_cursor v + 1))) as [v1|] eqn:E; simpl; [|done]. intros [= <- <-].
  transitivity (shown v0); [|by apply shown_insert]. apply (shown_tail v0 1 v1); try done.
  destruct (cursor_place v V) as (p & _ & Hp & _ & Ed & _). change (1 <= circ_dist (vt_tail v) (vt_cursor v)). lia.
Qed.

#[local] Opaque shown.

(** ** The terminals *)

Record vt_ok (s : terminals) : Prop := {
  vo_count : Z.of_nat (length (vt_terms s)) = NTERMS;
  vo_terms : forall i v, vt_terms s !! i = Some v -> term_ok v;
  vo_current : exists i v, vt_curterm s = Some i /\ vt_terms s !! i = Some v;
  vo_video : length (videoram s) = Z.to_nat DISPLAY_SIZE;
  vo_ops : forall i v, vt_terms s !! i = Some v -> ttd_ops (vt_driver v) = true
}.

(** Video memory shows the current terminal, with the cursor in its place. *)
Definition crt_of (n : Z) : Z * Z := (Z.shiftr n 8, Z.land n 0xff).
Definition on_screen (s : terminals) : Prop := forall i v, vt_curterm s = Some i -> vt_terms s !! i = Some v ->
  videoram s = glyph <$> shown v /\ crt_cursor s = crt_of (circ_dist (vt_cursor v) (vt_top v)).

Lemma runs_get_term s i v (Q : virtterm -> terminals -> Prop) : vt_terms s !! i = Some v -> Q v s -> runs (get_term i) s Q.
Proof. intros E HQ. unfold get_term. by go. Qed.
Lemma runs_put_term s i v v' (Q : unit -> terminals -> Prop) : vt_terms s !! i = Some v -> Q tt (set_terms (<[i := v']> (vt_terms s)) s) ->
  runs (put_term i v') s Q.
Proof. intros E HQ. unfold put_term. go. eapply runs_get_term; [done|]. by go. Qed.

Lemma run_cursor_redraw s i v (Q : unit -> terminals -> Prop) : vt_curterm s = Some i -> vt_terms s !! i = Some v -> term_ok v ->
  Q tt (set_crt (crt_of (circ_dist (vt_cursor v) (vt_top v))) s) -> runs vt_cursor_redraw s Q.
Proof.
  intros Ei Ev V HQ. unfold vt_cursor_redraw, current. go. eapply runs_get_term; [done|]. unfold screen_move_cursor. go.
  assert (Hr : 0 <= circ_dist (vt_cursor v) (vt_top v) < 10000).
  { destruct V as [_ _ _ _ Htop%row_inr Hc _]. rewrite circ_dist_eq by done. unfold inr in *. zcases; lia. }
  set (n := circ_dist _ _) in *. unfold DISPLAY_WIDTH. rewrite Z.rem_mod_nonneg, Z.quot_div_nonneg by lia.
  pose proof (Z.div_mod n 80 ltac:(lia)). pose proof (Z.mod_pos_bound n 80 ltac:(lia)).
  rewrite (Z.mod_small (n mod 80)), (Z.mod_small (n / 80)) by lia. replace (n / 80 * 80 + n mod 80) with n by lia.
  rewrite Z.mod_small by lia. done.
Qed.

Lemma drawn_ok v : term_ok v -> term_ok (with_tempbuf (shown v) v).
Proof. intros V. split; [apply V|cbn [vt_tempbuf with_tempbuf]; by rewrite shown_length|apply V..]. Qed.

Lemma run_redraw s i v (Q : unit -> terminals -> Prop) : vt_curterm s = Some i -> vt_terms s !! i = Some v -> term_ok v ->
  Q tt (set_crt (crt_of (circ_dist (vt_cursor v) (vt_top v))) (set_video (glyph <$> shown v)
         (set_terms (<[i := with_tempbuf (shown v) v]> (vt_terms s)) s))) -> runs vt_redraw s Q.
Proof.
  intros Ei Ev V HQ. unfold vt_redraw, current. go. eapply runs_get_term; [done|]. go. rewrite (fill_tempbuf_shown v V). go.
  eapply runs_put_term; [done|]. unfold screen_putbuf. apply runs_bind, runs_bind.
  apply runs_assert; [by rewrite shown_length|]. go. rewrite take_ge by (rewrite shown_length; unfold DISPLAY_SIZE; lia).
  eapply (run_cursor_redraw _ i (with_tempbuf (shown v) v)); try done.
  - simpl. apply list_lookup_insert_eq. by eapply lookup_lt_Some.
  - by apply drawn_ok.
Qed.

Lemma glyph_insert l k c : glyph <$> (<[k := c]> l : list Z) = <[k := glyph c]> (glyph <$> l).
Proof. apply list_fmap_insert. Qed.

(** ** The operations keep the invariant *)

(** One terminal is replaced. *)
Lemma vt_ok_insert s i v v' : vt_ok s -> vt_terms s !! i = Some v -> term_ok v' -> ttd_ops (vt_driver v') = ttd_ops (vt_driver v) ->
  vt_ok (set_terms (<[i := v']> (vt_terms s)) s).
Proof.
  intros [H1 H2 (j & w & Ej & Ew) H4 H5] Hi V' Ho. pose proof (lookup_lt_Some _ _ _ Hi) as Hlt. split; simpl; try done.
  - by rewrite length_insert.
  - intros k u Hk. destruct (decide (k = i)) as [->|Hne].
    + rewrite list_lookup_insert_eq in Hk by done. by injection Hk as <-.
    + rewrite list_lookup_insert_ne in Hk by done. by apply (H2 k).
  - exists j. destruct (decide (j = i)) as [->|Hne]; [exists v'|exists w]; (split; [done|]); [by apply list_lookup_insert_eq|by rewrite list_lookup_insert_ne].
  - intros k u Hk. destruct (decide (k = i)) as [->|Hne].
    + rewrite list_lookup_insert_eq in Hk by done. injection Hk as <-. rewrite Ho. by apply (H5 i).
    + rewrite list_lookup_insert_ne in Hk by done. by apply (H5 k).
Qed.

(** A redraw changes the screen and the temporary buffer of the current terminal only. *)
Record redrawn (s s' : terminals) : Prop := {
  rd_current : vt_curterm s' = vt_curterm s;
  rd_mask : curmask s' = curmask s;
  rd_ipl : ipl s' = ipl s;
  rd_handler : keyboard_handler s' = keyboard_handler s;
  rd_calls : calls s' = calls s;
  rd_term : forall i v, vt_curterm s = Some i -> vt_terms s !! i = Some v -> exists t, vt_terms s' !! i = Some (with_tempbuf t v);
  rd_others : forall i v, vt_curterm s <> Some i -> vt_terms s !! i = Some v -> vt_terms s' !! i = Some v
}.

Lemma run_redraw_ok s (Q : unit -> terminals -> Prop) : vt_ok s ->
  (forall s', vt_ok s' -> on_screen s' -> redrawn s s' -> Q tt s') -> runs vt_redraw s Q.
Proof.
  intros S HQ. pose proof S as [H1 H2 (i & v & Ei & Ev) H4]. pose proof (H2 i v Ev) as V. pose proof (lookup_lt_Some _ _ _ Ev) as Hlt.
  eapply run_redraw; [done..|]. apply HQ.
  - assert (S' : vt_ok (set_terms (<[i := with_tempbuf (shown v) v]> (vt_terms s)) s)).
    { apply (vt_ok_insert s i v); [done..|by apply drawn_ok|done]. }
    destruct S' as [A1 A2 A3 A4 A5]. split; [exact A1|exact A2|exact A3| |exact A5]. cbn [videoram set_crt set_video]. by rewrite length_fmap, shown_length.
  - intros j w Ej Ew. simpl in *. assert (j = i) as -> by congruence. rewrite list_lookup_insert_eq in Ew by done. by injection Ew as <-.
  - split; try done; intros j w Ej Ew; simpl.
    + assert (j = i) as -> by congruence. assert (w = v) as -> by congruence. exists (shown v). by apply list_lookup_insert_eq.
    + rewrite list_lookup_insert_ne; [done|]. intros ->. by apply Ej.
Qed.

Lemma show_cursor_ok v : term_ok v -> term_ok (show_cursor v) /\ text_of (show_cursor v) = text_of v
  /\ (vt_top (show_cursor v) = vt_top v -> show_cursor v = v /\ circ_dist (vt_cursor v) (vt_top v) < DISPLAY_SIZE).
Proof.
  intros V. unfold show_cursor. rewrite Z.geb_leb. destruct (Z.leb_spec DISPLAY_SIZE (circ_dist (vt_cursor v) (vt_top v))) as [Hge|Hlt]; [|done].
  destruct (cursor_row v V) as (q & r & Eq & Hr & Hq & _). pose proof V as [Hb Htmp Hh Ht Htop Hc Hw]. pose proof (row_inr _ Htop) as Hti. unfold inr in *.
  assert (En : next_row (vt_cursor v) = wrap ((q + 1) * 80)) by (apply (next_row_eq _ q r); lia).
  assert (Hn : 0 <= next_row (vt_cursor v) < 10000) by (rewrite En; unfold wrap; zcases; lia).
  unfold DISPLAY_SIZE in *. rewrite buf_add_eq by lia.
  assert (Hnew : row_start (wrap (next_row (vt_cursor v) + -2000 + 10000))).
  { rewrite En. unfold wrap. zcases; [exists (q + 1 + 100)|exists (q - 24)|exists (q - 24)|exists (q - 124 + 100)]; lia. }
  split_and!; [split; try done; apply V|done|]. simpl. intros E. exfalso. rewrite circ_dist_eq in Hge by (unfold inr; lia). revert Hge. rewrite <- E, En, Eq.
  unfold wrap. zcases; lia.
Qed.

(** The current terminal, if it is [i], shows its cursor before its tail or not at all.  The distances are taken
    around the buffer, so that this fails when the top of the screen is more than 100 rows below the cursor:
    [vt_provide_char] does not look for that, and the keyboard can bring it about ([VirtTermSafe.char_behind_tail]). *)
Definition in_order (s : terminals) (i : nat) (v : virtterm) : Prop :=
  vt_curterm s = Some i -> circ_dist (vt_cursor v) (vt_top v) < DISPLAY_SIZE -> circ_dist (vt_cursor v) (vt_top v) < circ_dist (vt_tail v) (vt_top v).

(** The terminals other than [i] *)
Definition others_same (s s' : terminals) (i : nat) : Prop := forall j w, j <> i -> vt_terms s !! j = Some w -> vt_terms s' !! j = Some w.

Lemma run_putchar s c n (Q : unit -> terminals -> Prop) : length (videoram s) = Z.to_nat DISPLAY_SIZE -> 0 <= n < DISPLAY_SIZE ->
  Q tt (set_video (<[Z.to_nat n := glyph c]> (videoram s)) s) ->
  runs (screen_putchar c (Z.rem n DISPLAY_WIDTH) (Z.quot n DISPLAY_WIDTH)) s Q.
Proof.
  intros Hl Hn HQ. unfold DISPLAY_SIZE, DISPLAY_WIDTH in *. unfold screen_putchar. go. rewrite Z.rem_mod_nonneg, Z.quot_div_nonneg by lia.
  pose proof (Z.div_mod n 80 ltac:(lia)). pose proof (Z.mod_pos_bound n 80 ltac:(lia)).
  rewrite (Z.mod_small (n mod 80)), (Z.mod_small (n / 80)) by lia. unfold DISPLAY_WIDTH. replace (n / 80 * 80 + n mod 80) with n by lia.
  unfold store_at. rewrite Hl, Z2Nat.id by lia. replace ((0 <=? n) && (n <? 2000)) with true by (symmetry; apply andb_true_iff; lia). by go.
Qed.

Lemma run_provide s i v c : vt_ok s -> vt_terms s !! i = Some v ->
  runs (vt_provide_char i c) s (fun _ s' => vt_ok s' /\ others_same s s' i /\ vt_curterm s' = vt_curterm s
    /\ curmask s' = curmask s /\ keyboard_handler s' = keyboard_handler s
    /\ (exists v', vt_terms s' !! i = Some v' /\ text_of v' = put_text (text_of v) c /\ vt_driver v' = vt_driver v)
    /\ (on_screen s -> in_order s i v -> on_screen s')).
Proof.
  intros S Hi. pose proof S as [H1 H2 (j & w & Ej & Ew) H4]. pose proof (H2 i v Hi) as V. pose proof (lookup_lt_Some _ _ _ Hi) as Hlt.
  destruct (show_cursor_ok v V) as (V1 & T1 & Htop). destruct (handle_char_ok (show_cursor v) c V1) as (v' & Eh & V' & T' & Etop & Edr).
  unfold vt_provide_char. go. eapply runs_get_term; [done|]. cbv zeta. rewrite Eh. go. eapply runs_put_term; [done|]. go. cbn [fst snd].
  set (s1 := set_terms _ s). assert (Edv : vt_driver v' = vt_driver v) by (rewrite Edr; unfold show_cursor; by destruct (_ >=? _)).
  pose proof (vt_ok_insert s i v v' S Hi V' ltac:(by rewrite Edv)) as S1. fold s1 in S1.
  assert (Hi1 : vt_terms s1 !! i = Some v') by (by apply list_lookup_insert_eq).
  assert (Ho1 : others_same s s1 i) by (intros k u Hk Hu; simpl; by rewrite list_lookup_insert_ne).
  assert (Ht : text_of v' = put_text (text_of v) c) by (by rewrite T', T1).
  destruct (bool_decide_reflect (vt_curterm s1 = Some i)) as [Ec|Ec].
  2: { go. split_and!; try done; [by exists v'|]. intros Hsc _ k u Hk Hu. simpl in Hk. apply (Hsc k u Hk). simpl in Hu.
       rewrite list_lookup_insert_ne in Hu; [done|]. intros ->. by apply Ec. }
  rewrite Etop. destruct (Z.eqb_spec (vt_top v) (vt_top (show_cursor v))) as [Eq|Hne].
  - destruct (Htop ltac:(done)) as [Esc Hvis]. rewrite Esc in *.
    assert (Hrel : 0 <= circ_dist (vt_cursor v) (vt_top v)).
    { destruct V as [_ _ _ _ Ht0%row_inr Hc _]. rewrite circ_dist_eq by done. unfold inr in *. zcases; lia. }
    assert (Hfin : forall s2, vt_ok s2 -> vt_terms s2 = vt_terms s1 -> vt_curterm s2 = vt_curterm s1 -> curmask s2 = curmask s1 -> keyboard_handler s2 = keyboard_handler s1 ->
      (on_screen s -> in_order s i v -> videoram s2 = glyph <$> shown v') ->
      runs vt_cursor_redraw s2 (fun _ s' => vt_ok s' /\ others_same s s' i /\ vt_curterm s' = vt_curterm s
        /\ curmask s' = curmask s /\ keyboard_handler s' = keyboard_handler s
        /\ (exists v', vt_terms s' !! i = Some v' /\ text_of v' = put_text (text_of v) c /\ vt_driver v' = vt_driver v) /\ (on_screen s -> in_order s i v -> on_screen s'))).
    { intros s2 S2 Et2 Ec2 Em2 Eh2 Hv2. eapply (run_cursor_redraw s2 i v'); [congruence|congruence|done|]. split_and!.
      - destruct S2. by split.
      - intros k u Hk Hu. simpl. rewrite Et2. by apply Ho1.
      - simpl. by rewrite Ec2.
      - simpl. by rewrite Em2.
      - simpl. by rewrite Eh2.
      - exists v'. simpl. by rewrite Et2.
      - intros Hsc Hord k u Hk Hu. simpl in *. assert (k = i) as -> by congruence. assert (u = v') as -> by congruence. split; [by apply Hv2|done]. }
    apply runs_bind. destruct (control c) eqn:Ectl; simpl.
    + go. apply Hfin; try done. intros Hsc Hord. simpl. destruct (Hsc i v Ec Hi) as [-> _].
      by rewrite (handle_char_shown v c v' false V (conj Hvis (Hord Ec Hvis)) Eh).
    + apply run_putchar; [done|lia|]. apply Hfin; try done.
      * destruct S1. split; try done. simpl. by rewrite length_insert.
      * intros Hsc Hord. simpl. destruct (Hsc i v Ec Hi) as [-> _]. rewrite (handle_char_shown v c v' true V (conj Hvis (Hord Ec Hvis)) Eh).
        by rewrite glyph_insert.
  - apply run_redraw_ok; [done|]. intros s2 S2 Hsc2 R. split_and!; try done; [|apply R|apply R|apply R|].
    + intros k u Hk Hu. apply (rd_others _ _ R); [rewrite Ec; congruence|by apply Ho1].
    + destruct (rd_term _ _ R i v' Ec Hi1) as (t & Et). by exists (with_tempbuf t v').
Qed.

End VirtTermSpec.
