(* ===== verification/VirtTermOps.v ===== *)
(** * Scrolling, switching and typing

    What the operations on the terminals and the keyboard's interrupt handler guarantee,
    on top of the invariant and of the image of a terminal of [VirtTermSpec]. *)

From S2P Require Import Prelude.
From S2P Require Export VirtTermSpec.

Module VirtTermOps.
Export VirtTermSpec.

Local Open Scope Z_scope.
Local Open Scope kernel_scope.

(** [shown] and the blank buffers are long lists: nothing below computes them. *)
#[local] Opaque shown blank_row.

(** ** Scrolling *)

(** The new top of the screen *)
Definition scrolled_top (v : virtterm) (lines : Z) (up : bool) : Z :=
  if up then
    if circ_dist (vt_top v) (vt_head v) <? s32 (lines * DISPLAY_WIDTH) then vt_head v else buf_add (vt_top v) (s32 (- lines * DISPLAY_WIDTH))
  else
    if circ_dist (vt_tail v) (vt_top v) <? s32 (s32 (lines + 1) * DISPLAY_WIDTH) then buf_add (vt_tail v) (- DISPLAY_WIDTH)
    else buf_add (vt_top v) (s32 (lines * DISPLAY_WIDTH)).

Lemma row_add_eq x n : row_start x -> -125 <= n < 125 ->
  buf_add x (n * 80) = if x + n * 80 <? 0 then x + n * 80 + 10000 else if x + n * 80 <? 10000 then x + n * 80 else x + n * 80 - 10000.
Proof.
  intros (q & -> & Hq) Hn. unfold buf_add, SCROLL_BUFSIZE. rewrite s32_small by lia. rewrite Z.rem_mod_nonneg by lia. zcases.
  - by rewrite Z.mod_small by lia.
  - replace (q * 80 + n * 80 + 10000) with (q * 80 + n * 80 + 1 * 10000) by lia. by rewrite Z_mod_plus_full, Z.mod_small by lia.
  - replace (q * 80 + n * 80 + 10000) with (q * 80 + n * 80 - 10000 + 2 * 10000) by lia. by rewrite Z_mod_plus_full, Z.mod_small by lia.
Qed.
Lemma row_add_start x n : row_start x -> -125 <= n < 125 -> row_start (buf_add x (n * 80)).
Proof.
  intros Hx Hn. rewrite row_add_eq by done. destruct Hx as (q & -> & Hq). zcases; [exists (q + n + 125)|exists (q + n)|exists (q + n - 125)]; lia.
Qed.

Lemma scrolled_top_eq v lines up : 0 <= lines <= 124 -> scrolled_top v lines up =
  if up then if circ_dist (vt_top v) (vt_head v) <? lines * 80 then vt_head v else buf_add (vt_top v) (- lines * 80)
  else if circ_dist (vt_tail v) (vt_top v) <? (lines + 1) * 80 then buf_add (vt_tail v) (-1 * 80) else buf_add (vt_top v) (lines * 80).
Proof. intros Hl. unfold scrolled_top, DISPLAY_WIDTH. by rewrite !s32_small by (rewrite ?s32_small; lia). Qed.

Lemma scrolled_top_row v lines up : term_ok v -> 0 <= lines <= 124 -> row_start (scrolled_top v lines up).
Proof.
  intros V Hl. rewrite scrolled_top_eq by done. destruct up.
  - destruct (_ <? _); [apply V|]. apply row_add_start; [apply V|lia].
  - destruct (_ <? _); apply row_add_start; [apply V|lia|apply V|lia].
Qed.

(** From a top between head and tail, the screen moves by the lines asked for, but not past the first or the last row. *)
Lemma scrolled_top_place v lines up : term_ok v -> 0 <= lines <= 124 -> circ_dist (vt_top v) (vt_head v) < rows v ->
  circ_dist (scrolled_top v lines up) (vt_head v) =
    if up then Z.max 0 (circ_dist (vt_top v) (vt_head v) - lines * 80) else Z.min (rows v - 80) (circ_dist (vt_top v) (vt_head v) + lines * 80).
Proof.
  intros V Hl Hin. rewrite scrolled_top_eq by done. pose proof (rows_range v V) as [Hrow _]. destruct V as [_ _ Hh Ht Htop _ _]. unfold rows in *.
  pose proof (row_inr _ Hh) as Hhi. pose proof (row_inr _ Ht) as Hti. pose proof (row_inr _ Htop) as Htoi.
  rewrite !circ_dist_eq in Hin by done. rewrite circ_dist_eq in Hrow by done. rewrite !row_add_eq by (done || lia).
  rewrite (circ_dist_eq (vt_top v) (vt_head v)), (circ_dist_eq (vt_tail v) (vt_top v)), (circ_dist_eq (vt_tail v) (vt_head v)) by done.
  unfold inr in *. revert Hin Hrow. destruct up; zcases; intros; try lia; rewrite circ_dist_eq by (unfold inr; lia); zcases; lia.
Qed.

Lemma top_ok v n : term_ok v -> row_start n -> term_ok (with_top n v).
Proof. intros V Hn. split; [apply V|apply V|apply V|apply V|done|apply V|apply V]. Qed.

Lemma current_term s : vt_ok s -> exists i v, vt_curterm s = Some i /\ vt_terms s !! i = Some v /\ term_ok v.
Proof. intros [_ H (i & v & Ei & Ev) _]. exists i, v. split_and!; try done. by apply (H i). Qed.

(** What a terminal keeps when it is drawn or scrolled *)
Record same_text (v v' : virtterm) : Prop := {
  st_text : text_of v' = text_of v;
  st_head : vt_head v' = vt_head v;
  st_tail : vt_tail v' = vt_tail v;
  st_driver : vt_driver v' = vt_driver v
}.

Lemma run_scroll s i v lines up : vt_ok s -> vt_curterm s = Some i -> vt_terms s !! i = Some v -> 0 <= lines <= 124 ->
  runs (vt_scroll lines up) s (fun _ s' => vt_ok s' /\ on_screen s' /\ vt_curterm s' = Some i /\ others_same s s' i /\ curmask s' = curmask s
    /\ keyboard_handler s' = keyboard_handler s
    /\ exists v', vt_terms s' !! i = Some v' /\ same_text v v' /\ vt_top v' = scrolled_top v lines up).
Proof.
  intros S Ei Ev Hl. pose proof (vo_terms _ S i v Ev) as V. unfold vt_scroll, current. go. eapply runs_get_term; [done|]. go.
  fold (scrolled_top v lines up). eapply runs_put_term; [done|]. pose proof (top_ok v _ V (scrolled_top_row v lines up V Hl)) as V'.
  apply run_redraw_ok; [by apply (vt_ok_insert s i v)|]. intros s' S' Hsc R. split_and!; try done; [by rewrite (rd_current _ _ R)| |apply R|apply R|].
  - intros j w Hj Hw. apply (rd_others _ _ R); simpl; [congruence|]. by rewrite list_lookup_insert_ne.
  - destruct (rd_term _ _ R i (with_top (scrolled_top v lines up) v)) as (t & Et); [done|apply list_lookup_insert_eq; by eapply lookup_lt_Some|].
    eexists. by split_and!.
Qed.

(** ** Switching *)

Lemma vt_ok_current s i v : vt_ok s -> vt_terms s !! i = Some v -> vt_ok (set_curterm (Some i) s).
Proof. intros [H1 H2 _ H4] Hv. split; try done. by exists i, v. Qed.

Lemma run_vt_switch s t : vt_ok s -> runs (vt_switch t) s (fun r s' => vt_ok s' /\ curmask s' = curmask s /\ keyboard_handler s' = keyboard_handler s
  /\ if decide (0 <= t < NTERMS) then r = 0 /\ vt_curterm s' = Some (Z.to_nat t) /\ on_screen s' else r = -1 /\ s' = s).
Proof.
  intros S. unfold vt_switch. destruct (decide (0 <= t < NTERMS)) as [Ht|Ht].
  - replace ((t <? 0) || (t >=? NTERMS)) with false by lia. destruct (lookup_lt_is_Some_2 (vt_terms s) (Z.to_nat t)) as [v Ev].
    { pose proof (vo_count _ S). lia. }
    go. apply run_redraw_ok; [by apply (vt_ok_current s _ v)|]. intros s' S' Hsc R. go. split_and!; try done; apply R.
  - replace ((t <? 0) || (t >=? NTERMS)) with true by lia. by go.
Qed.

(** ** The keyboard *)

Definition is_shift (sc : Z) : bool := (sc =? LSHIFT) || (sc =? RSHIFT).
Definition is_ctrl (sc : Z) : bool := sc =? CTRL.
Definition mask_of (shift ctrl : bool) : Z := (if shift then 1 else 0) + (if ctrl then 2 else 0).
(** A key that was down or not, after a byte: its code is a press, its code with the top bit set a release. *)
Definition after_byte (key : Z -> bool) (b : Z) (down : bool) : bool := if key b then true else if key (b - 128) then false else down.

Lemma every_byte (P : Z -> bool) b : forallb P (seqZ 0 256) = true -> 0 <= b < 256 -> P b = true.
Proof. rewrite forallb_forall. intros H Hb. apply H, list_elem_of_In, elem_of_seqZ. lia. Qed.

Lemma byte_parts b : 0 <= b < 256 -> Z.land b BREAK_MASK = (if b <? 128 then 0 else 128) /\ Z.land b (Z.lnot BREAK_MASK) = (if b <? 128 then b else b - 128).
Proof.
  intros Hb. pose proof (every_byte (fun b => (Z.land b BREAK_MASK =? (if b <? 128 then 0 else 128)) && (Z.land b (Z.lnot BREAK_MASK) =? (if b <? 128 then b else b - 128))) b
    ltac:(by vm_compute) Hb) as [?%Z.eqb_eq ?%Z.eqb_eq]%andb_true_iff. done.
Qed.

Lemma mask_facts s sh ct : curmask s = mask_of sh ct -> held ESC_MASK s = false /\ held CTRL_MASK s = ct /\ held SHIFT_MASK s = sh.
Proof. intros E. unfold held. rewrite E. by destruct sh, ct. Qed.

(** The state but for the mask *)
Lemma vt_ok_mask s n : vt_ok s -> vt_ok (set_mask n s).
Proof. intros [H1 H2 H3 H4]. by split. Qed.

Lemma run_scroll_ok s up : vt_ok s -> runs (vt_scroll DISPLAY_HEIGHT up) s (fun _ s' => vt_ok s' /\ on_screen s' /\ curmask s' = curmask s
  /\ keyboard_handler s' = keyboard_handler s).
Proof.
  intros S. destruct (current_term s S) as (i & v & Ei & Ev & _). eapply runs_mono; [apply (run_scroll s i v); done|]. by intros _ s' (? & ? & _ & _ & ? & ? & _).
Qed.

Lemma run_deliver s i v c : vt_curterm s = Some i -> vt_terms s !! i = Some v -> runs (vt_keyboard_handler c) s (fun _ s' =>
  s' = if ttd_callback (vt_driver v) =? NULL then s else add_call (ttd_callback (vt_driver v), ttd_callback_arg (vt_driver v), c) s).
Proof.
  intros Ei Ev. unfold vt_keyboard_handler. go. rewrite Ei. go. eapply runs_get_term; [done|]. by destruct (_ =? NULL); simpl; go.
Qed.

(** Tables of the normal keys *)
Lemma scancode_tables sc : 0 <= sc <= NORMAL_KEY_HIGH ->
  exists n m, normal_scancodes !! Z.to_nat sc = Some n /\ shift_scancodes !! Z.to_nat sc = Some m.
Proof.
  unfold NORMAL_KEY_HIGH. intros Hsc. destruct (lookup_lt_is_Some_2 normal_scancodes (Z.to_nat sc)) as [n En]; [simpl; lia|].
  destruct (lookup_lt_is_Some_2 shift_scancodes (Z.to_nat sc)) as [m Em]; [simpl; lia|]. by exists n, m.
Qed.

(** The handler keeps the invariant and follows the keys for shift and control. *)
Lemma run_key s b sh ct : vt_ok s -> 0 <= b < 256 -> curmask s = mask_of sh ct ->
  runs (keyboard_intr_handler b) s (fun _ s' => vt_ok s' /\ keyboard_handler s' = keyboard_handler s /\ (on_screen s -> on_screen s')
    /\ curmask s' = mask_of (after_byte is_shift b sh) (after_byte is_ctrl b ct)).
Proof.
  intros S Hb Em. destruct (mask_facts s sh ct Em) as (Hesc & Hct & Hsh). destruct (byte_parts b Hb) as [E1 E2].
  unfold keyboard_intr_handler. cbv zeta. rewrite E1, E2. apply runs_bind, runs_get. rewrite Hesc, Hct, Hsh.
  set (R := fun (c : Z) (s' : terminals) => vt_ok s' /\ keyboard_handler s' = keyboard_handler s /\ (on_screen s -> on_screen s')
    /\ curmask s' = mask_of (after_byte is_shift b sh) (after_byte is_ctrl b ct)).
  eapply (runs_step _ _ _ _ R).
  2: { intros c s' (S' & Hh & Ho & Hm). go. destruct (negb (c =? NO_CHAR) && keyboard_handler s'); [|by go].
       destruct (current_term s' S') as (i & v & Ei & Ev & _). eapply runs_mono; [by apply (run_deliver s' i v)|]. intros _ s2 ->.
       destruct (_ =? NULL); [done|]. split_and!; try done. by destruct S'. }
  unfold R. clear R. unfold after_byte, is_shift, is_ctrl, LSHIFT, RSHIFT, CTRL, ESC0, ESC1, VT_KEY_LOW, VT_KEY_HIGH, SCROLL_DOWN, SCROLL_UP, NORMAL_KEY_HIGH.
  destruct (Z.ltb_spec b 128) as [Hlt|Hge]; cbn [negb Z.eqb].
  - rewrite !(proj2 (Z.eqb_neq (b - 128) _)) by lia. cbn [orb].
    destruct ((b =? 42) || (b =? 54)) eqn:Es.
    { unfold with_mask. go. split_and!; try done; [by apply vt_ok_mask|]. replace (b =? 29) with false by lia. simpl. rewrite Em. by destruct sh, ct. }
    destruct (b =? 29) eqn:Ec.
    { unfold with_mask. go. split_and!; try done; [by apply vt_ok_mask|]. simpl. rewrite Em. by destruct sh, ct. }
    replace ((b =? 224) || (b =? 225)) with false by lia. destruct ((59 <=? b) && (b <=? 68)).
    { eapply runs_step; [by apply run_vt_switch|]. intros r s' (S' & Hm & Hh & Hr). go. split_and!; try done; [|congruence]. intros Hsc.
      destruct (decide (0 <= b - 59 < NTERMS)); [by destruct Hr as (_ & _ & ?)|by destruct Hr as [_ ->]]. }
    destruct (ct && (b =? 28)).
    { eapply runs_step; [by apply run_scroll_ok|]. intros _ s' (S' & Hsc & Hm & Hh). go. split_and!; try done; congruence. }
    destruct (ct && (b =? 14)).
    { eapply runs_step; [by apply run_scroll_ok|]. intros _ s' (S' & Hsc & Hm & Hh). go. split_and!; try done; congruence. }
    destruct (Z.ltb_spec 57 b); [by go|]. destruct (scancode_tables b) as (n & m & En & Em'); [unfold NORMAL_KEY_HIGH; lia|]. rewrite En, Em'.
    destruct ct; [by go|]. by destruct sh; go.
  - rewrite !(proj2 (Z.eqb_neq b _)) by lia. cbn [orb].
    destruct ((b - 128 =? 42) || (b - 128 =? 54)) eqn:Es.
    { unfold clear_mask, with_mask. go. split_and!; try done; [by apply vt_ok_mask|]. replace (b - 128 =? 29) with false by lia. simpl. rewrite Em. by destruct sh, ct. }
    destruct (b - 128 =? 29) eqn:Ec; unfold clear_mask, with_mask; go; split_and!; try done; [by apply vt_ok_mask|]. simpl. rewrite Em. by destruct sh, ct.
Qed.

(** Bytes one after the other *)
Fixpoint keys (bs : list Z) : M unit :=
  match bs with
  | [] => kret tt
  | b :: bs => keyboard_intr_handler b ;;; keys bs
  end.

Lemma run_keys bs s sh ct : vt_ok s -> Forall (fun b => 0 <= b < 256) bs -> curmask s = mask_of sh ct ->
  runs (keys bs) s (fun _ s' => vt_ok s' /\ keyboard_handler s' = keyboard_handler s /\ (on_screen s -> on_screen s')
    /\ curmask s' = mask_of (foldl (fun d b => after_byte is_shift b d) sh bs) (foldl (fun d b => after_byte is_ctrl b d) ct bs)).
Proof.
  intros S Hbs. revert s sh ct S. induction Hbs as [|b bs Hb Hbs IH]; intros s sh ct S Em; simpl; [by go|].
  eapply runs_step; [by apply (run_key s b sh ct)|]. intros _ s1 (S1 & Hh & Ho & Hm).
  eapply runs_mono; [by apply (IH s1 _ _ S1 Hm)|]. intros _ s2 (S2 & Hh2 & Ho2 & Hm2). split_and!; [done|congruence|auto|done].
Qed.

(** A key was pressed and since then not released. *)
Definition pressed (key : Z -> bool) (bs : list Z) : Prop :=
  exists p b q, bs = p ++ b :: q /\ key b = true /\ Forall (fun x => key (x - 128) = false) q.

Lemma pressed_snoc key bs b : pressed key (bs ++ [b]) <-> key b = true \/ (key (b - 128) = false /\ pressed key bs).
Proof.
  split.
  - intros (p & x & q & E & Hx & Hq). destruct q as [|y q _] using rev_ind.
    + apply app_inj_tail in E as [_ ->]. by left.
    + rewrite app_comm_cons, app_assoc in E. apply app_inj_tail in E as [-> ->]. apply Forall_app in Hq as [Hq Hy]. apply Forall_cons in Hy as [Hy _].
      right. split; [done|]. by exists p, x, q.
  - intros [Hb|[Hb (p & x & q & -> & Hx & Hq)]].
    + exists bs, b, []. by split_and!.
    + exists p, x, (q ++ [b]). split_and!; [by rewrite <- app_assoc|done|]. apply Forall_app. split; [done|]. by apply Forall_singleton.
Qed.

Lemma foldl_pressed key bs : foldl (fun d b => after_byte key b d) false bs = true <-> pressed key bs.
Proof.
  induction bs as [|b bs IH] using rev_ind; [split; [done|]; intros (p & x & q & E & _); by destruct p|].
  rewrite foldl_snoc, pressed_snoc, <- IH. unfold after_byte at 1. destruct (key b), (key (b - 128)); intuition congruence.
Qed.

(** ** Typing a character *)

(** A key of the tables that is no modifier *)
Definition plain (sc : Z) : bool := (0 <=? sc) && (sc <=? NORMAL_KEY_HIGH) && negb (is_shift sc) && negb (is_ctrl sc).

Lemma run_plain s i v b sh c : vt_curterm s = Some i -> vt_terms s !! i = Some v -> curmask s = mask_of sh false -> plain b = true -> keyboard_handler s = true ->
  (if sh then shift_scancodes else normal_scancodes) !! Z.to_nat b = Some c -> c <> NO_CHAR -> ttd_callback (vt_driver v) <> NULL ->
  runs (keyboard_intr_handler b) s (fun _ s' => s' = add_call (ttd_callback (vt_driver v), ttd_callback_arg (vt_driver v), c) s).
Proof.
  intros Ei Ev Em Hp Hh Ht Hc Hcb. unfold plain, is_shift, is_ctrl, NORMAL_KEY_HIGH, LSHIFT, RSHIFT, CTRL in Hp.
  destruct (mask_facts s sh false Em) as (Hesc & Hct & Hsh). destruct (byte_parts b ltac:(lia)) as [E1 E2].
  unfold keyboard_intr_handler. cbv zeta. rewrite E1, E2. destruct (Z.ltb_spec b 128); [|lia]. cbn [negb Z.eqb]. apply runs_bind, runs_get. rewrite Hesc, Hct, Hsh.
  unfold LSHIFT, RSHIFT, CTRL, ESC0, ESC1, VT_KEY_LOW, VT_KEY_HIGH, NORMAL_KEY_HIGH.
  rewrite !(proj2 (Z.eqb_neq b _)) by lia. replace ((59 <=? b) && (b <=? 68)) with false by lia. cbn [orb andb]. destruct (Z.ltb_spec 57 b); [lia|].
  eapply (runs_step _ _ _ _ (fun r s' => r = c /\ s' = s)); [destruct sh; rewrite Ht; by go|]. intros r s' [-> ->]. go.
  rewrite Hh, (proj2 (Z.eqb_neq c NO_CHAR)) by done. cbn [negb andb]. eapply runs_mono; [by apply (run_deliver s i v)|]. intros _ s' ->.
  by rewrite (proj2 (Z.eqb_neq _ NULL)).
Qed.

Lemma run_shift s b : (b = LSHIFT \/ b = LSHIFT + 128) -> runs (keyboard_intr_handler b) s (fun _ s' =>
  s' = set_mask (if b =? LSHIFT then Z.lor (curmask s) SHIFT_MASK else Z.land (curmask s) (Z.lnot SHIFT_MASK)) s).
Proof. intros [->| ->]; by eexists _, _. Qed.

(** The bytes that type a character: its key, with the left shift key if it must be. *)
Definition type_keys (c : Z) : list Z :=
  match list_find (eq c) normal_scancodes with
  | Some (k, _) => [Z.of_nat k]
  | None =>
      match list_find (eq c) shift_scancodes with
      | Some (k, _) => [LSHIFT; Z.of_nat k; LSHIFT + 128]
      | None => []
      end
  end.
(** Printable characters, backspace, tab, newline and escape *)
Definition typable (c : Z) : bool := ((32 <=? c) && (c <? 127)) || (c =? 8) || (c =? 9) || (c =? 10) || (c =? 27).

Definition typed_ok (c : Z) : bool :=
  match type_keys c with
  | [k] => plain k && bool_decide (normal_scancodes !! Z.to_nat k = Some c)
  | [a; k; z] => (a =? LSHIFT) && (z =? LSHIFT + 128) && plain k && bool_decide (shift_scancodes !! Z.to_nat k = Some c)
  | _ => false
  end.
Lemma typable_typed c : typable c = true -> typed_ok c = true /\ c <> NO_CHAR.
Proof.
  intros Hc. unfold typable, NO_CHAR in *. split; [|lia]. pose proof (every_byte (fun c => negb (typable c) || typed_ok c) c ltac:(by vm_compute) ltac:(lia)) as H.
  cbv beta in H. unfold typable in H. by rewrite Hc in H.
Qed.

Lemma run_typed s i v c : vt_curterm s = Some i -> vt_terms s !! i = Some v -> curmask s = 0 -> keyboard_handler s = true ->
  ttd_callback (vt_driver v) <> NULL -> typable c = true ->
  runs (keys (type_keys c)) s (fun _ s' => s' = add_call (ttd_callback (vt_driver v), ttd_callback_arg (vt_driver v), c) s).
Proof.
  intros Ei Ev Em Hh Hcb [Hc Hn]%typable_typed. unfold typed_ok in Hc. destruct (type_keys c) as [|k [|k2 [|k3 [|]]]]; try done; cbn [keys].
  - apply andb_true_iff in Hc as [Hp Ht%bool_decide_eq_true]. eapply runs_step; [by apply (run_plain s i v k false c)|]. intros _ s' ->. by go.
  - apply andb_true_iff in Hc as [[[->%Z.eqb_eq ->%Z.eqb_eq]%andb_true_iff Hp]%andb_true_iff Ht%bool_decide_eq_true].
    eapply runs_step; [apply run_shift; by left|]. intros _ s1 ->. rewrite Em.
    eapply runs_step; [by apply (run_plain _ i v k2 true c)|]. intros _ s2 ->.
    eapply runs_step; [apply run_shift; by right|]. intros _ s3 ->. go. destruct s. simpl in *. by subst.
Qed.

(** ** Strings and starting up *)

Lemma run_provide_all cs s i v : vt_ok s -> vt_terms s !! i = Some v ->
  runs (provide_all i cs) s (fun _ s' => vt_ok s' /\ others_same s s' i /\ vt_curterm s' = vt_curterm s /\ curmask s' = curmask s
    /\ exists v', vt_terms s' !! i = Some v' /\ text_of v' = foldl put_text (text_of v) cs).
Proof.
  revert s v. induction cs as [|c cs IH]; intros s v S Ev; cbn [provide_all foldl]; [go; split_and!; [done|by intros ?|done..|by exists v]|].
  eapply runs_step; [by apply (run_provide s i v c)|]. intros _ s1 (S1 & Ho1 & Ec1 & Em1 & _ & (v1 & Ev1 & Et1 & _) & _).
  eapply runs_mono; [by apply (IH s1 v1)|]. intros _ s2 (S2 & Ho2 & Ec2 & Em2 & v2 & Ev2 & Et2). split_and!; [done| |congruence..|].
  - intros j w Hj Hw. by apply Ho2, Ho1.
  - exists v2. by rewrite <- Et1.
Qed.

(** The memory before [vt_init]: zeroed terminals, and the cells of the screen *)
Record raw (s : terminals) : Prop := {
  rw_count : Z.of_nat (length (vt_terms s)) = NTERMS;
  rw_temp : forall i v, vt_terms s !! i = Some v -> length (vt_tempbuf v) = Z.to_nat DISPLAY_SIZE;
  rw_video : length (videoram s) = Z.to_nat DISPLAY_SIZE
}.
Definition blank_term (tmp : list Z) (d : tty_driver) : virtterm := mk_vt 0 DISPLAY_WIDTH 0 0 (replicate (Z.to_nat SCROLL_BUFSIZE) 0) tmp d.

Lemma blank_term_ok tmp d : length tmp = Z.to_nat DISPLAY_SIZE -> term_ok (blank_term tmp d).
Proof.
  intros Hl. assert (H0 : row_start 0) by (exists 0; lia). split; [apply length_replicate|done|done| |done|by split|done]. exists 1. by split.
Qed.

#[local] Opaque blank_term.

Lemma run_init s : raw s -> runs vt_init s (fun _ s' => vt_ok s' /\ on_screen s' /\ keyboard_handler s' = true /\ curmask s' = curmask s /\ vt_curterm s' = Some 0%nat
  /\ forall i v, vt_terms s' !! i = Some v -> exists tmp, with_tempbuf tmp v = blank_term tmp (mk_driver true NULL NULL)).
Proof.
  intros [H1 H2 H3]. unfold vt_init. go. set (f := fun vt => mk_vt _ _ _ _ _ (vt_tempbuf vt) _).
  assert (Hf : forall v, f v = blank_term (vt_tempbuf v) (mk_driver true NULL NULL)) by done.
  set (s1 := set_curterm _ _). assert (Hl : forall i v, vt_terms s1 !! i = Some v -> exists w, vt_terms s !! i = Some w /\ v = f w).
  { intros i v Hv. simpl in Hv. apply list_lookup_fmap_Some in Hv as (w & -> & Hw). by exists w. }
  assert (S1 : vt_ok s1).
  { destruct (lookup_lt_is_Some_2 (vt_terms s) 0) as [v0 Ev0]; [unfold NTERMS in H1; lia|]. split.
    - simpl. by rewrite length_fmap.
    - intros i v (w & Hw & ->)%Hl. rewrite Hf. apply blank_term_ok. by apply (H2 i).
    - exists 0%nat, (f v0). split; [done|]. simpl. by rewrite list_lookup_fmap, Ev0.
    - done.
    - by intros i v (w & Hw & ->)%Hl. }
  apply run_redraw_ok; [done|]. intros s2 S2 Hsc R. go. split_and!; try done; [by destruct S2|apply R|apply R|].
  intros i v Hv. simpl in Hv. pose proof (lookup_lt_Some _ _ _ Hv) as Hlt.
  destruct (lookup_lt_is_Some_2 (vt_terms s1) i) as [v1 Hv1]; [pose proof (vo_count _ S1); pose proof (vo_count _ S2); lia|].
  destruct (Hl i v1 Hv1) as (w & Hw & ->). exists (vt_tempbuf w). rewrite <- Hf. destruct (decide (vt_curterm s1 = Some i)) as [Ec|Ec].
  - destruct (rd_term _ _ R i _ Ec Hv1) as (t & Et). assert (v = with_tempbuf t (f w)) as -> by congruence. done.
  - rewrite (rd_others _ _ R i _ Ec Hv1) in Hv. injection Hv as <-. done.
Qed.

Lemma blank_text tmp d : text_of (blank_term tmp d) = mk_text blank_row 0.
Proof. reflexivity. Qed.

End VirtTermOps.
