(* ===== verification/VirtTermSafe.v ===== *)
(** * The terminals' theorems

    Sequences of operations from start-up on, the theorems about output, the screen,
    scrolling and the keyboard, and a started system they are applied to. *)

From S2P Require Import Prelude.
From S2P Require Export VirtTermOps.

Module VirtTermSafe.
Export VirtTermOps.

Local Open Scope Z_scope.
Local Open Scope kernel_scope.

#[local] Opaque shown blank_row blank_term.

(** ** Sequences of operations *)

Inductive vt_op : Type :=
| Provide (i : nat) (c : Z)
| Key (b : Z)
| Scroll (lines : Z) (up : bool)
| Switch (t : Z)
| Register (i : nat) (callback arg : Z)
| Unregister (i : nat)
| Shutdown.

(** A terminal there is, a byte, and fewer lines than the buffer has *)
Definition op_ok (o : vt_op) : bool :=
  match o with
  | Provide i _ | Register i _ _ | Unregister i => Z.of_nat i <? NTERMS
  | Key b => (0 <=? b) && (b <? 256)
  | Scroll lines _ => (0 <=? lines) && (lines <? 125)
  | Switch _ | Shutdown => true
  end.
Definition perform (o : vt_op) : M unit :=
  match o with
  | Provide i c => vt_provide_char i c
  | Key b => keyboard_intr_handler b
  | Scroll lines up => vt_scroll lines up
  | Switch t => vt_switch t ;;; kret tt
  | Register i callback arg => vt_register_callback_handler i callback arg ;;; kret tt
  | Unregister i => vt_unregister_callback_handler i ;;; kret tt
  | Shutdown => vt_print_shutdown
  end.
Fixpoint perform_all (os : list vt_op) : M unit :=
  match os with
  | [] => kret tt
  | o :: os => perform o ;;; perform_all os
  end.

(** The terminals are in order and no escape prefix is pending. *)
Definition live (s : terminals) : Prop := vt_ok s /\ exists sh ct, curmask s = mask_of sh ct.

Lemma driver_ok v d : term_ok v -> term_ok (with_driver d v).
Proof. intros V. split; apply V. Qed.

Lemma run_print_shutdown s : vt_ok s -> runs vt_print_shutdown s (fun _ s' => vt_ok s' /\ curmask s' = curmask s
  /\ forall i v, vt_curterm s = Some i -> vt_terms s !! i = Some v -> exists v', vt_terms s' !! i = Some v'
       /\ text_of v' = foldl put_text (text_of v) (replicate 20 10 ++ shutdown_str ++ replicate 14 10)).
Proof.
  intros S. destruct (current_term s S) as (i & v & Ei & Ev & _). unfold vt_print_shutdown. go. rewrite Ei. go. eapply runs_get_term; [done|].
  apply runs_bind, runs_assert; [by apply (vo_ops _ S i)|].
  eapply runs_step; [by apply (run_provide_all _ s i v)|]. intros _ s1 (S1 & _ & _ & M1 & v1 & Ev1 & T1).
  eapply runs_step; [by apply (run_provide_all _ s1 i v1)|]. intros _ s2 (S2 & _ & _ & M2 & v2 & Ev2 & T2).
  eapply runs_mono; [by apply (run_provide_all _ s2 i v2)|]. intros _ s3 (S3 & _ & _ & M3 & v3 & Ev3 & T3). split_and!; [done|congruence|].
  intros j w Hj Hw. assert (j = i) as -> by congruence. assert (w = v) as -> by congruence. exists v3. split; [done|]. by rewrite !foldl_app, <- T1, <- T2.
Qed.

Lemma run_vt_op s o : live s -> op_ok o = true -> runs (perform o) s (fun _ s' => live s').
Proof.
  intros [S (sh & ct & Em)] Ho.
  assert (Hi : forall i, (Z.of_nat i <? NTERMS) = true -> exists v, vt_terms s !! i = Some v).
  { intros i Hi. apply lookup_lt_is_Some_2. pose proof (vo_count _ S). lia. }
  destruct o as [i c|b|lines up|t|i callback arg|i| ]; cbn [perform op_ok] in *.
  - destruct (Hi i Ho) as [v Ev]. eapply runs_mono; [by apply (run_provide s i v c)|]. intros _ s' (S' & _ & _ & M' & _). split; [done|]. exists sh, ct. congruence.
  - eapply runs_mono; [apply (run_key s b sh ct); [done|lia|done]|]. intros _ s' (S' & _ & _ & M'). split; [done|]. by eexists _, _.
  - destruct (current_term s S) as (i & v & Ei & Ev & _).
    eapply runs_mono; [apply (run_scroll s i v lines up); (done || lia)|]. intros _ s' (S' & _ & _ & _ & M' & _). split; [done|]. exists sh, ct. congruence.
  - eapply runs_step; [by apply run_vt_switch|]. intros r s' (S' & M' & _). go. split; [done|]. exists sh, ct. congruence.
  - destruct (Hi i Ho) as [v Ev]. unfold vt_register_callback_handler. go. eapply runs_get_term; [done|]. go. eapply runs_put_term; [done|]. go.
    split; [|by exists sh, ct]. apply (vt_ok_insert s i v); try done. apply driver_ok. by apply (vo_terms _ S i).
  - destruct (Hi i Ho) as [v Ev]. unfold vt_unregister_callback_handler. go. eapply runs_get_term; [done|]. go. eapply runs_put_term; [done|]. go.
    split; [|by exists sh, ct]. apply (vt_ok_insert s i v); try done. apply driver_ok. by apply (vo_terms _ S i).
  - eapply runs_mono; [by apply run_print_shutdown|]. intros _ s' (S' & M' & _). split; [done|]. exists sh, ct. congruence.
Qed.

Lemma run_vt_ops os s : live s -> forallb op_ok os = true -> runs (perform_all os) s (fun _ s' => live s').
Proof.
  revert s. induction os as [|o os IH]; intros s L Ho; cbn [perform_all]; [by go|]. apply andb_true_iff in Ho as [H1 H2].
  eapply runs_step; [by apply run_vt_op|]. intros ? s' L'. by apply IH.
Qed.

(** Blocking the terminals' interrupts and letting them through again restores the level. *)
Lemma vt_block_unblock s : 0 <= ipl s < 256 -> runs (data <- vt_block_io ;; vt_unblock_io data) s (fun _ s' => s' = s).
Proof.
  intros Hi. unfold vt_block_io, vt_unblock_io. go. rewrite Z.mod_small by lia. by destruct s.
Qed.

(** ** The theorems *)

(** C24: from start-up on, whatever characters are written, keys are pressed, lines are scrolled, terminals are
    switched and callbacks are registered, the terminals never write outside their buffers or the video memory
    and never fail an assertion, and their invariant holds: head, tail and top are at the beginning of a row and
    the cursor is between head and tail. *)
Theorem vt_never_panics s os : raw s -> curmask s = 0 -> forallb op_ok os = true ->
  runs (vt_init ;;; perform_all os) s (fun _ s' => vt_ok s' /\ 0 <= curmask s' < 4).
Proof.
  intros Hr Hm Ho. eapply runs_step; [by apply run_init|]. intros _ s1 (S1 & _ & _ & M1 & _).
  eapply runs_mono; [apply run_vt_ops; [split; [done|]|done]|].
  - exists false, false. by rewrite M1.
  - intros _ s2 [S2 (sh & ct & ->)]. split; [done|]. by destruct sh, ct.
Qed.

(** C22: writing a character to a terminal appends to the rows it keeps: between head and tail of the circular
    buffer is the text of a terminal of at most 124 rows whose first row is dropped when one more is needed;
    backspace, carriage return and newline move the cursor in it. The other terminals are as they were. *)
Theorem vt_provide_char_spec s i v c : vt_ok s -> vt_terms s !! i = Some v ->
  runs (vt_provide_char i c) s (fun _ s' => vt_ok s' /\ others_same s s' i /\ vt_curterm s' = vt_curterm s
    /\ exists v', vt_terms s' !! i = Some v' /\ text_of v' = put_text (text_of v) c /\ vt_driver v' = vt_driver v).
Proof.
  intros S Ev. eapply runs_mono; [by apply run_provide|]. intros _ s' (S' & Ho & Ec & _ & _ & Hv & _). by split_and!.
Qed.

(** C23: the screen after a character, for which only one cell and the cursor may have been drawn, is the one a
    redraw of all of it shows, when it was before and, on the current terminal, the cursor is not taken to be on
    the screen while it is behind the tail.  The condition is needed: it fails when the top of the screen has
    been scrolled more than 100 rows below the cursor, and then the code draws the character into a row that
    shows no text ([char_behind_tail]). *)
Theorem vt_provide_char_screen s i v c : vt_ok s -> vt_terms s !! i = Some v -> on_screen s -> in_order s i v ->
  runs (vt_provide_char i c) s (fun _ s' => runs vt_redraw s' (fun _ s'' => videoram s'' = videoram s' /\ crt_cursor s'' = crt_cursor s')).
Proof.
  intros S Ev Hsc Hio. eapply runs_mono; [by apply run_provide|]. intros _ s' (S' & _ & _ & _ & _ & _ & Hs'). specialize (Hs' Hsc Hio).
  destruct (current_term s' S') as (j & w & Ej & Ew & W). destruct (Hs' j w Ej Ew) as [-> ->]. by apply (run_redraw s' j w).
Qed.

(** scrolling moves the top of the screen by the lines asked for and not past the first or the last row; the
    screen shows the terminal from there, and its text and the other terminals are as they were. *)
Theorem vt_scroll_spec s i v lines up : vt_ok s -> vt_curterm s = Some i -> vt_terms s !! i = Some v -> 0 <= lines <= 124 ->
  circ_dist (vt_top v) (vt_head v) < rows v ->
  runs (vt_scroll lines up) s (fun _ s' => vt_ok s' /\ on_screen s' /\ others_same s s' i
    /\ exists v', vt_terms s' !! i = Some v' /\ same_text v v'
       /\ circ_dist (vt_top v') (vt_head v') = if up then Z.max 0 (circ_dist (vt_top v) (vt_head v) - lines * 80)
            else Z.min (rows v - 80) (circ_dist (vt_top v) (vt_head v) + lines * 80)).
Proof.
  intros S Ei Ev Hl Hin. eapply runs_mono; [by apply (run_scroll s i v)|]. intros _ s' (S' & Hsc & _ & Ho & _ & _ & v' & Ev' & Hst & Et).
  split_and!; try done. exists v'. split_and!; try done. rewrite Et, (st_head _ _ Hst). apply scrolled_top_place; try done. by apply (vo_terms _ S i).
Qed.

(** after any bytes from the keyboard the handler takes shift and control for held exactly when one of their
    keys was pressed and none of that kind has been released since; the mask for an escape prefix is never set. *)
Theorem keyboard_modifiers s bs : vt_ok s -> curmask s = 0 -> Forall (fun b => 0 <= b < 256) bs ->
  runs (keys bs) s (fun _ s' => vt_ok s' /\ (on_screen s -> on_screen s') /\ held ESC_MASK s' = false
    /\ (held SHIFT_MASK s' = true <-> pressed is_shift bs) /\ (held CTRL_MASK s' = true <-> pressed is_ctrl bs)).
Proof.
  intros S Em Hbs. eapply runs_mono; [by apply (run_keys bs s false false)|]. intros _ s' (S' & _ & Hsc & Hm).
  destruct (mask_facts s' _ _ Hm) as (-> & -> & ->). split_and!; try done; apply foldl_pressed.
Qed.

(** every printable character, backspace, tab, newline and escape can be typed: the bytes of its key, with the
    left shift key around it if it must be, give the current terminal's callback that one character and change
    nothing else. *)
Theorem keyboard_types s i v c : vt_curterm s = Some i -> vt_terms s !! i = Some v -> curmask s = 0 -> keyboard_handler s = true ->
  ttd_callback (vt_driver v) <> NULL -> typable c = true ->
  runs (keys (type_keys c)) s (fun _ s' => s' = add_call (ttd_callback (vt_driver v), ttd_callback_arg (vt_driver v), c) s).
Proof. apply run_typed. Qed.

(** ** A system that was just started *)

Definition zeroed : list Z := replicate (Z.to_nat DISPLAY_SIZE) 0.
Definition powered_on : terminals :=
  mk_terms (replicate 3 (mk_vt 0 0 0 0 [] zeroed (mk_driver false NULL NULL))) None zeroed (0, 0) 0 0 false [].

(** After [vt_init] and the registration of a callback for each terminal *)
Definition idle_term : virtterm := blank_term zeroed (mk_driver true 1 2).
Definition started : terminals := mk_terms (replicate 3 idle_term) (Some 0%nat) (glyph <$> shown idle_term) (0, 0) 0 0 true [].

Lemma zeroed_length : length zeroed = Z.to_nat DISPLAY_SIZE.
Proof. apply length_replicate. Qed.
#[local] Opaque zeroed.

Lemma idle_ok : term_ok idle_term.
Proof. apply blank_term_ok, zeroed_length. Qed.
#[local] Opaque idle_term.

Lemma powered_on_raw : raw powered_on.
Proof. split; [done| |apply zeroed_length]. intros i v [-> _]%lookup_replicate. apply zeroed_length. Qed.
Lemma started_term i v : vt_terms started !! i = Some v -> v = idle_term.
Proof. by intros [-> _]%lookup_replicate. Qed.
Lemma started_ok : vt_ok started.
Proof.
  split; [done| | | |].
  - intros i v ->%started_term. apply idle_ok.
  - by exists 0%nat, idle_term.
  - cbn [videoram started]. by rewrite length_fmap, shown_length.
  - by intros i v ->%started_term.
Qed.
Lemma started_on_screen : on_screen started.
Proof. intros i v _ ->%started_term. by split. Qed.

(** ** The theorems on it *)

Lemma vt_never_panics_witness : runs (vt_init ;;; perform_all [Key 0x1e; Provide 1 65; Scroll 25 true; Key 0x3c; Shutdown]) powered_on
  (fun _ s' => vt_ok s' /\ 0 <= curmask s' < 4).
Proof. apply (vt_never_panics powered_on); [exact powered_on_raw|reflexivity|reflexivity]. Defined.

Lemma vt_provide_char_spec_witness : runs (vt_provide_char 0 10) started (fun _ s' => vt_ok s' /\ others_same started s' 0 /\ vt_curterm s' = vt_curterm started
  /\ exists v', vt_terms s' !! 0%nat = Some v' /\ text_of v' = put_text (text_of idle_term) 10 /\ vt_driver v' = vt_driver idle_term).
Proof. apply (vt_provide_char_spec started 0 idle_term 10); [exact started_ok|reflexivity]. Defined.

Lemma vt_provide_char_screen_witness : runs (vt_provide_char 0 65) started (fun _ s' => runs vt_redraw s' (fun _ s'' =>
  videoram s'' = videoram s' /\ crt_cursor s'' = crt_cursor s')).
Proof.
  apply (vt_provide_char_screen started 0 idle_term 65); [exact started_ok|reflexivity|exact started_on_screen|].
  intros _ _. reflexivity.
Defined.

Lemma vt_scroll_spec_witness : runs (vt_scroll 25 true) started (fun _ s' => vt_ok s' /\ on_screen s' /\ others_same started s' 0
  /\ exists v', vt_terms s' !! 0%nat = Some v' /\ same_text idle_term v' /\ circ_dist (vt_top v') (vt_head v') = 0).
Proof. apply (vt_scroll_spec started 0 idle_term 25 true); [exact started_ok|reflexivity|reflexivity|lia|reflexivity]. Defined.

Lemma keyboard_modifiers_witness : runs (keys [0x2a; 0x1d; 0x1e; 0xaa]) started (fun _ s' => vt_ok s' /\ (on_screen started -> on_screen s') /\ held ESC_MASK s' = false
  /\ (held SHIFT_MASK s' = true <-> pressed is_shift [0x2a; 0x1d; 0x1e; 0xaa]) /\ (held CTRL_MASK s' = true <-> pressed is_ctrl [0x2a; 0x1d; 0x1e; 0xaa])).
Proof. apply (keyboard_modifiers started); [exact started_ok|reflexivity|repeat constructor; lia]. Defined.

Lemma keyboard_types_witness : runs (keys [0x2a; 0x1e; 0xaa]) started (fun _ s' => s' = add_call (1, 2, 65) started).
Proof. apply (keyboard_types started 0 idle_term 65); [reflexivity..|discriminate|reflexivity]. Defined.

(** 130 newlines fill the buffer, 9920 backspaces take the cursor back to its first row, and scrolling down five times takes
    the screen to its last one: the distance of the cursor from the top of the screen, which is computed around the
    buffer, is then 160 cells.  A character that is written now is stored in the first row of the text, where it belongs,
    but drawn in cell 160, in a row below the text, which a redraw leaves blank. *)
Definition far_below : M unit :=
  (provide_all 0 (replicate 130 10 ++ replicate (Z.to_nat 9920) 8) ;;; keys (CTRL :: replicate 5 SCROLL_DOWN) ;;; vt_provide_char 0 65)%kernel.
Definition cell_of (n : nat) (r : outcome terminals unit) : option Z :=
  match r with Done _ s => videoram s !! n | _ => None end.
Example char_behind_tail :
  cell_of 160 (far_below started) = Some (glyph 65) /\ cell_of 160 ((far_below ;;; vt_redraw)%kernel started) = Some (glyph 0).
Proof. split; vm_compute; reflexivity. Qed.

(** The escape prefixes 0xe0 and 0xe1 are taken for releases: the arrow key "up" (0xe0 0x48) acts as the key 0x48 of the number pad, and a right
    control key (0xe0 0x1d) as the left one. *)
Example escape_prefix_ignored : held ESC_MASK started = false /\ keyboard_intr_handler 0xe0 started = Done tt started.
Proof. split; reflexivity. Qed.

End VirtTermSafe.
