(* ===== verification/KString.v ===== *)
(** * C strings and memory blocks ([util/string.c])

    A character array is the list of its elements; a [char *] is the part of
    the array from the character it points to up to the end of the array, or an
    offset into the array where the function writes through it.  Characters are
    values of a signed [char].  Every function returns an [option]: [None] when
    it runs off the end of the array before it meets the terminator. *)

From S2P Require Import Prelude.

Module KString.

Local Open Scope Z_scope.

Definition NUL : Z := 0.
Definition SLASH : Z := 47.
Definition DOT : Z := 46.

(** A value stored in a [signed char]. *)
Definition schar (x : Z) : Z := (x + 128) mod 256 - 128.
Definition is_char (c : Z) : Prop := -128 <= c < 128.

(** ** Memory blocks *)

(** [repe cmpsb]: the flags after the last pair of bytes that was compared. *)
Fixpoint cmpsb (cs ct : list Z) (count : nat) (zf sf : bool) : option (bool * bool) :=
  match count with
  | O => Some (zf, sf)
  | S count =>
      match cs, ct with
      | c :: cs, d :: ct =>
          let diff := schar (c - d) in
          if diff =? 0 then cmpsb cs ct count true false else Some (false, diff <? 0)
      | _, _ => None
      end
  end.

Definition memcmp (cs ct : list Z) (count : nat) : option Z :=
  match cmpsb cs ct count true false with
  | Some (zf, sf) => Some (if zf then 0 else if sf then -1 else 1)
  | None => None
  end.

(** [memcpy(dest + off, src, count)]; [dest] afterwards. *)
Definition memcpy (dest : list Z) (off : Z) (src : list Z) (count : Z) : option (list Z) :=
  let n := Z.to_nat (u32 count) in
  let o := Z.to_nat off in
  if (0 <=? off) && (o + n <=? length dest)%nat && (n <=? length src)%nat
  then Some (take o dest ++ take n src ++ drop (o + n) dest)
  else None.

Definition memset (s : list Z) (c : Z) (count : nat) : option (list Z) :=
  if (count <=? length s)%nat then Some (repeat (schar c) count ++ drop count s) else None.

(** ** Strings *)

Fixpoint strncmp (cs ct : list Z) (count : nat) : option Z :=
  match count with
  | O => Some 0
  | S count =>
      match cs, ct with
      | c :: cs, d :: ct =>
          let res := schar (c - d) in
          if negb (res =? 0) || (c =? NUL) then Some res else strncmp cs ct count
      | _, _ => None
      end
  end.

Fixpoint strcmp (cs ct : list Z) : option Z :=
  match cs, ct with
  | c :: cs, d :: ct =>
      let res := schar (c - d) in
      if negb (res =? 0) || (c =? NUL) then Some res else strcmp cs ct
  | _, _ => None
  end.

(** [dest] afterwards. *)
Fixpoint strcpy (dest src : list Z) : option (list Z) :=
  match dest, src with
  | _ :: dest, c :: src => if c =? NUL then Some (c :: dest) else cons c <$> strcpy dest src
  | _, _ => None
  end.

Fixpoint strncpy (dest src : list Z) (count : nat) : option (list Z) :=
  match count with
  | O => Some dest
  | S count =>
      match dest, src with
      | _ :: dest, c :: src => if c =? NUL then Some (c :: dest) else cons c <$> strncpy dest src count
      | _, _ => None
      end
  end.

Fixpoint strnlen (s : list Z) (count : nat) : option Z :=
  match count with
  | O => Some 0
  | S count =>
      match s with
      | [] => None
      | c :: s => if c =? NUL then Some 0 else Z.succ <$> strnlen s count
      end
  end.

Fixpoint strlen (s : list Z) : option Z :=
  match s with
  | [] => None
  | c :: s => if c =? NUL then Some 0 else Z.succ <$> strlen s
  end.

Fixpoint strcat (dest src : list Z) : option (list Z) :=
  match dest with
  | [] => None
  | c :: rest => if c =? NUL then strcpy dest src else cons c <$> strcat rest src
  end.

(** Offset of the first [c]; [Some None] is the null pointer. *)
Fixpoint strchr (s : list Z) (c : Z) : option (option nat) :=
  match s with
  | [] => None
  | x :: s =>
      if x =? schar c then Some (Some O)
      else if x =? NUL then Some None
      else option_map S <$> strchr s c
  end.

Fixpoint strrchr_from (s : list Z) (c : Z) (i : nat) (r : option nat) : option (option nat) :=
  match s with
  | [] => None
  | x :: s =>
      if x =? NUL then Some r
      else strrchr_from s c (S i) (if x =? schar c then Some i else r)
  end.
Definition strrchr (s : list Z) (c : Z) : option (option nat) := strrchr_from s c O None.

(** The loop of [strstr]; [n] is the value of [l1 - l2 + 1]. *)
Fixpoint strstr_loop (n : nat) (s1 s2 : list Z) (l2 : nat) (i : nat) : option (option nat) :=
  match n with
  | O => Some None
  | S n =>
      match memcmp s1 s2 l2 with
      | None => None
      | Some 0 => Some (Some i)
      | Some _ => strstr_loop n (tail s1) s2 l2 (S i)
      end
  end.
Definition strstr (s1 s2 : list Z) : option (option nat) :=
  match strlen s2 with
  | None => None
  | Some l2 =>
      if l2 =? 0 then Some (Some O)
      else match strlen s1 with
           | None => None
           | Some l1 => strstr_loop (Z.to_nat (l1 - l2 + 1)) s1 s2 (Z.to_nat l2) O
           end
  end.

(** The inner loops of [strpbrk] and [strspn]: whether [c] is in [set]. *)
Fixpoint in_set (c : Z) (set : list Z) : option bool :=
  match set with
  | [] => None
  | p :: set => if p =? NUL then Some false else if p =? c then Some true else in_set c set
  end.

Fixpoint strpbrk (string brkset : list Z) : option (option nat) :=
  match string with
  | [] => None
  | c :: rest =>
      match in_set c brkset with
      | None => None
      | Some true => Some (Some O)
      | Some false => if c =? NUL then Some None else option_map S <$> strpbrk rest brkset
      end
  end.

Fixpoint strspn (string charset : list Z) : option nat :=
  match string with
  | [] => None
  | c :: rest =>
      if c =? NUL then Some O
      else match in_set c charset with
           | None => None
           | Some true => S <$> strspn rest charset
           | Some false => Some O
           end
  end.

(** [strtok(string, sepset)] on the array [buf]; [string] and the static
    [savept] are offsets into it.  The token's offset, the array and [savept]
    afterwards. *)
Definition strtok (buf : list Z) (string savept : option nat) (sepset : list Z)
  : option (option nat * list Z * option nat) :=
  match (match string with None => savept | Some _ => string end) with
  | None => Some (None, buf, savept)
  | Some p =>
      skip ← strspn (drop p buf) sepset;
      let q := (p + skip)%nat in
      c ← buf !! q;
      if c =? NUL then Some (None, buf, savept)
      else
        r ← strpbrk (drop q buf) sepset;
        match r with
        | None => Some (Some q, buf, None)
        | Some r => Some (Some q, <[(q + r)%nat := NUL]> buf, Some (S (q + r)))
        end
  end.

(** ** The string an array holds *)

(** The characters before the terminator. *)
Fixpoint cstr (s : list Z) : list Z :=
  match s with
  | [] => []
  | c :: s => if c =? NUL then [] else c :: cstr s
  end.

(** [is_str s t]: the array [s] starts with the string [t] and its terminator. *)
Definition is_str (s t : list Z) : Prop := (exists rest, s = t ++ NUL :: rest) /\ NUL ∉ t.

Lemma is_str_cons c s t : is_str (c :: s) (c :: t) <-> c <> NUL /\ is_str s t.
Proof.
  unfold is_str. split.
  - intros ((rest & E) & Hn). injection E as E. set_solver.
  - intros (Hc & (rest & ->) & Hn). split; [by exists rest|set_solver].
Qed.

Lemma is_str_nil s : is_str (NUL :: s) [].
Proof. split; [by exists s|set_solver]. Qed.

Lemma is_str_app t rest : NUL ∉ t -> is_str (t ++ NUL :: rest) t.
Proof. intros. split; [by exists rest|done]. Qed.

(** Case analysis on an array that holds a string. *)
Lemma is_str_inv s t : is_str s t ->
  (t = [] /\ exists s', s = NUL :: s')
  \/ exists c t' s', t = c :: t' /\ s = c :: s' /\ c <> NUL /\ is_str s' t'.
Proof.
  intros ((rest & ->) & Hn). destruct t as [|c t]; [left; eauto|right].
  exists c, t, (t ++ NUL :: rest). repeat split; [set_solver|by exists rest|set_solver].
Qed.

Lemma is_str_inv_nil s : is_str s [] -> exists s', s = NUL :: s'.
Proof. by intros [(_ & ?)|(? & ? & ? & ? & _)]%is_str_inv. Qed.
Lemma is_str_inv_cons s c t : is_str s (c :: t) -> exists s', s = c :: s' /\ c <> NUL /\ is_str s' t.
Proof. intros [(? & _)|(? & ? & s' & E & -> & ? & ?)]%is_str_inv; [done|]. injection E as -> ->. eauto. Qed.
Ltac str_inv H := first
  [ apply is_str_inv_nil in H as (? & ->)
  | apply is_str_inv_cons in H as (? & -> & ? & ?) ].

Lemma cstr_is_str s t : is_str s t -> cstr s = t.
Proof.
  revert s. induction t as [|c t IH]; intros s Hs; str_inv Hs; [done|]. cbn.
  rewrite (proj2 (Z.eqb_neq c NUL)) by done. f_equal. by apply IH.
Qed.

Lemma is_str_unique s t t' : is_str s t -> is_str s t' -> t = t'.
Proof. intros <-%cstr_is_str <-%cstr_is_str. done. Qed.

Lemma strlen_spec s t : is_str s t -> strlen s = Some (Z.of_nat (length t)).
Proof.
  revert s. induction t as [|c t IH]; intros s Hs; str_inv Hs; [done|]. cbn [strlen length].
  rewrite (proj2 (Z.eqb_neq c NUL)), IH by done. cbn. f_equal. lia.
Qed.

(** [strlen] returns only on an array that holds a string. *)
Lemma strlen_Some s n : strlen s = Some n -> exists t, is_str s t /\ n = Z.of_nat (length t).
Proof.
  revert n. induction s as [|c s IH]; intros n Hs; [done|]. cbn in Hs. destruct (Z.eqb_spec c NUL) as [->|Hc].
  - injection Hs as <-. exists []. split; [apply is_str_nil|done].
  - destruct (strlen s) as [k|] eqn:E; [|done]. injection Hs as <-. destruct (IH k eq_refl) as (t & Ht & ->).
    exists (c :: t). split; [by apply is_str_cons|]. cbn [length]. lia.
Qed.

Lemma schar_diff c d : is_char c -> is_char d -> schar (c - d) = 0 <-> c = d.
Proof.
  unfold is_char, schar. intros Hc Hd. split; [|intros ->; by rewrite Z.sub_diag].
  intros E. assert (Hm : (c - d + 128) mod 256 = 128) by lia.
  pose proof (Z.div_mod (c - d + 128) 256 ltac:(lia)) as D. rewrite Hm in D. lia.
Qed.

(** [strcmp] is zero exactly on equal strings. *)
Lemma strcmp_zero s t s' t' :
  is_str s t -> is_str s' t' -> Forall is_char t -> Forall is_char t' ->
  exists r, strcmp s s' = Some r /\ (r = 0 <-> t = t').
Proof.
  intros Hs Hs' Ht Ht'. revert s s' t' Hs Hs' Ht'.
  induction Ht as [|c t Hc Ht IH]; intros s s' [|d x] Hs Hs' Ht';
    [apply is_str_inv_nil in Hs as (u & ->)|apply is_str_inv_nil in Hs as (u & ->)
    |apply is_str_inv_cons in Hs as (u & -> & Hc0 & Hu)|apply is_str_inv_cons in Hs as (u & -> & Hc0 & Hu)];
    [apply is_str_inv_nil in Hs' as (u' & ->)|apply is_str_inv_cons in Hs' as (u' & -> & Hd0 & Hu')
    |apply is_str_inv_nil in Hs' as (u' & ->)|apply is_str_inv_cons in Hs' as (u' & -> & Hd0 & Hu')].
  - by exists 0.
  - apply Forall_cons in Ht' as [Hd _]. exists (schar (NUL - d)). cbn [strcmp]. rewrite orb_true_r.
    split; [done|]. rewrite schar_diff by (done || (unfold is_char, NUL; lia)). naive_solver.
  - exists (schar (c - NUL)). cbn [strcmp]. destruct (Z.eqb_spec (schar (c - NUL)) 0) as [E|E].
    + exfalso. apply Hc0, schar_diff; [done|unfold is_char, NUL; lia|done].
    + cbn. split; [done|]. naive_solver.
  - apply Forall_cons in Ht' as [Hd Ht'']. cbn [strcmp]. destruct (Z.eqb_spec (schar (c - d)) 0) as [E|E]; cbn.
    + apply schar_diff in E as ->; [|done|done]. rewrite (proj2 (Z.eqb_neq d NUL) Hd0).
      destruct (IH u u' x Hu Hu' Ht'') as (r & -> & Hr). exists r. split; [done|]. rewrite Hr. split; congruence.
    + exists (schar (c - d)). split; [done|]. split; [done|]. intros [= -> ->]. by rewrite Z.sub_diag in E.
Qed.

(** [strncmp] over [n] characters compares the first [n] characters of a string
    with those of an array that is at least as long. *)
Lemma strncmp_prefix s t (name : list Z) :
  is_str s t -> Forall is_char t -> Forall is_char name -> (length t <= length name)%nat ->
  exists r, strncmp s name (length t) = Some r /\ (r = 0 <-> t = take (length t) name).
Proof.
  intros Hs Ht. revert s name Hs. induction Ht as [|c t Hc Ht IH]; intros s name Hs Hn Hl.
  { exists 0. destruct s, name; done. }
  apply is_str_inv_cons in Hs as (u & -> & Hc0 & Hu).
  destruct name as [|d name]; [cbn in Hl; lia|]. apply Forall_cons in Hn as [Hd Hn].
  cbn [strncmp length take] in *. destruct (Z.eqb_spec (schar (c - d)) 0) as [E|E]; cbn.
  - apply schar_diff in E as ->; [|done|done]. rewrite (proj2 (Z.eqb_neq d NUL) Hc0).
    destruct (IH u name Hu Hn ltac:(lia)) as (r & -> & Hr). exists r. split; [done|]. rewrite Hr. split; congruence.
  - exists (schar (c - d)). split; [done|]. split; [done|]. intros [= -> _]. by rewrite Z.sub_diag in E.
Qed.

Lemma strchr_spec s t rest c :
  schar c = c -> s = t ++ c :: rest -> c ∉ t -> NUL ∉ t -> strchr s c = Some (Some (length t)).
Proof.
  intros Hc ->. induction t as [|x t IH]; intros Hn Hz; cbn; rewrite Hc.
  - by rewrite Z.eqb_refl.
  - rewrite (proj2 (Z.eqb_neq x c)) by set_solver. rewrite (proj2 (Z.eqb_neq x NUL)) by set_solver.
    rewrite IH by set_solver. done.
Qed.

Lemma strchr_none s t c : schar c = c -> is_str s t -> c <> NUL -> c ∉ t -> strchr s c = Some None.
Proof.
  intros Hc Hs Hcz. revert s Hs. induction t as [|x t IH]; intros s Hs Hn; str_inv Hs; cbn [strchr]; rewrite Hc.
  - by rewrite (proj2 (Z.eqb_neq NUL c)) by done.
  - rewrite (proj2 (Z.eqb_neq x c)) by set_solver. rewrite (proj2 (Z.eqb_neq x NUL)) by done.
    rewrite IH by set_solver. done.
Qed.

(** [strncpy] stops at the end of the string or after [count] characters and,
    unlike the C library's, does not pad. *)
Lemma strncpy_take dest src n :
  NUL ∉ take n src -> (n <= length dest)%nat -> (n <= length src)%nat ->
  strncpy dest src n = Some (take n src ++ drop n dest).
Proof.
  revert dest src. induction n as [|n IH]; intros dest src Hn Hd Hs; [by rewrite take_0, drop_0; destruct dest, src|].
  destruct dest as [|x dest]; [cbn in Hd; lia|]. destruct src as [|c src]; [cbn in Hs; lia|].
  cbn [strncpy take drop app] in *. rewrite (proj2 (Z.eqb_neq c NUL)) by set_solver.
  rewrite IH; [done|set_solver|cbn in Hd; lia|cbn in Hs; lia].
Qed.

Lemma strcpy_spec dest src t : is_str src t -> (length t < length dest)%nat ->
  strcpy dest src = Some (t ++ NUL :: drop (S (length t)) dest).
Proof.
  revert dest src. induction t as [|c t IH]; intros dest src Hs Hl; str_inv Hs;
    (destruct dest as [|y dest]; [cbn in Hl; lia|]); cbn.
  - by rewrite drop_0.
  - rewrite (proj2 (Z.eqb_neq c NUL)) by done. cbn in Hl. rewrite IH by (done || lia). done.
Qed.

Lemma memcmp_zero cs ct n :
  Forall is_char cs -> Forall is_char ct -> (n <= length cs)%nat -> (n <= length ct)%nat ->
  exists r, memcmp cs ct n = Some r /\ (r = 0 <-> take n cs = take n ct).
Proof.
  intros Hcs Hct Hl Hl'. unfold memcmp.
  assert (G : forall zf sf, zf = true -> exists zf' sf', cmpsb cs ct n zf sf = Some (zf', sf')
              /\ (zf' = true <-> take n cs = take n ct)).
  { revert cs ct Hcs Hct Hl Hl'. induction n as [|n IH]; intros cs ct Hcs Hct Hl Hl' zf sf ->.
    { exists true, sf. rewrite !take_0. by destruct cs, ct. }
    destruct cs as [|c cs]; [cbn in Hl; lia|]. destruct ct as [|d ct]; [cbn in Hl'; lia|].
    apply Forall_cons in Hcs as [Hc Hcs], Hct as [Hd Hct]. cbn [cmpsb take length] in *.
    destruct (Z.eqb_spec (schar (c - d)) 0) as [E|E].
    - apply schar_diff in E as ->; [|done|done].
      destruct (IH cs ct Hcs Hct ltac:(lia) ltac:(lia) true false eq_refl) as (z & f & -> & Hz).
      exists z, f. split; [done|]. rewrite Hz. split; congruence.
    - exists false, (schar (c - d) <? 0). split; [done|]. split; [done|]. intros [= -> _]. by rewrite Z.sub_diag in E. }
  destruct (G true false eq_refl) as (z & f & -> & Hz). destruct z, f; eexists; (split; [done|]); naive_solver.
Qed.

(** ** Tokenising *)

(** The pieces of [s] between separators. *)
Fixpoint pieces (sep : list Z) (s : list Z) : list (list Z) :=
  match s with
  | [] => [[]]
  | c :: s =>
      if bool_decide (c ∈ sep) then [] :: pieces sep s
      else match pieces sep s with p :: ps => (c :: p) :: ps | [] => [[c]] end
  end.
Definition tokens (sep s : list Z) : list (list Z) := filter (fun p => p <> []) (pieces sep s).

(** [for (t = strtok(s, sep); t; t = strtok(NULL, sep))]: the tokens as they are
    when they are returned. *)
Fixpoint strtok_all (fuel : nat) (buf : list Z) (string savept : option nat) (sepset : list Z)
  : option (list (list Z)) :=
  match fuel with
  | O => None
  | S fuel =>
      '(t, buf, savept) ← strtok buf string savept sepset;
      match t with
      | None => Some []
      | Some q => cons (cstr (drop q buf)) <$> strtok_all fuel buf None savept sepset
      end
  end.

Section tokenising.
Context (sepset sep : list Z) (Hsep : is_str sepset sep).

Lemma in_set_spec c : in_set c sepset = Some (bool_decide (c ∈ sep)).
Proof.
  clear -Hsep. revert sepset Hsep. induction sep as [|p l IH]; intros s Hs; str_inv Hs; [done|].
  cbn. rewrite (proj2 (Z.eqb_neq p NUL)) by done. destruct (Z.eqb_spec p c) as [->|Hpc].
  - by rewrite bool_decide_eq_true_2 by set_solver.
  - rewrite IH by done. f_equal. apply bool_decide_ext. set_solver.
Qed.

Lemma nul_not_sep : NUL ∉ sep.
Proof. by destruct Hsep. Qed.

Lemma strspn_spec seps s :
  Forall (fun c => c ∈ sep) seps -> (forall c, head s = Some c -> c ∉ sep) -> s <> [] ->
  strspn (seps ++ s) sepset = Some (length seps).
Proof.
  intros Hseps Hh Hs. induction Hseps as [|c seps Hc _ IH]; cbn.
  - destruct s as [|c s]; [done|]. cbn. destruct (c =? NUL); [done|].
    by rewrite in_set_spec, bool_decide_eq_false_2 by (by apply Hh).
  - rewrite (proj2 (Z.eqb_neq c NUL)) by (intros ->; by apply nul_not_sep).
    rewrite in_set_spec, bool_decide_eq_true_2 by done. by rewrite IH.
Qed.

Lemma strpbrk_spec tok s :
  Forall (fun c => c ∉ sep /\ c <> NUL) tok ->
  match s with
  | c :: _ => c ∈ sep -> strpbrk (tok ++ s) sepset = Some (Some (length tok))
  | [] => True
  end /\ (head s = Some NUL -> strpbrk (tok ++ s) sepset = Some None).
Proof.
  intros Htok. induction Htok as [|c tok [Hc Hz] _ IH].
  - cbn [app]. destruct s as [|c s]; [done|]. cbn [strpbrk length head]. split; intros H.
    + by rewrite in_set_spec, bool_decide_eq_true_2 by done.
    + injection H as ->. by rewrite in_set_spec, bool_decide_eq_false_2 by apply nul_not_sep.
  - cbn [app strpbrk length]. rewrite in_set_spec, bool_decide_eq_false_2 by done.
    rewrite (proj2 (Z.eqb_neq c NUL) Hz). destruct IH as [I1 I2]. split.
    + destruct s as [|d s]; [done|]. intros Hd. by rewrite (I1 Hd).
    + intros H. by rewrite (I2 H).
Qed.

End tokenising.

(** What is left of a string: separators, then nothing or a token that ends at
    the end of the string or at a separator. *)
Lemma token_cases (sep s : list Z) : exists seps rest, s = seps ++ rest /\ Forall (fun c => c ∈ sep) seps
  /\ (rest = [] \/ exists tok rest', rest = tok ++ rest' /\ tok <> [] /\ Forall (fun c => c ∉ sep) tok
        /\ (rest' = [] \/ exists c r, rest' = c :: r /\ c ∈ sep)).
Proof.
  induction s as [|c s (seps & rest & -> & Hseps & IH)].
  { exists [], []. eauto. }
  destruct (decide (c ∈ sep)) as [Hc|Hc].
  { exists (c :: seps), rest. split; [done|]. split; [by constructor|done]. }
  exists [], (c :: seps ++ rest). split; [done|]. split; [done|]. right.
  destruct seps as [|d seps].
  - destruct IH as [->|(tok & rest' & -> & Htok & Hno & Hend)].
    + exists [c], []. rewrite !app_nil_r. repeat split; [done|by repeat constructor|by left].
    + exists (c :: tok), rest'. repeat split; [done|by constructor|done].
  - apply Forall_cons in Hseps as [Hd Hseps]. exists [c], (d :: seps ++ rest). repeat split;
      [done|by repeat constructor|]. right. eauto.
Qed.

Lemma tokens_seps (sep seps s : list Z) : Forall (fun c => c ∈ sep) seps -> tokens sep (seps ++ s) = tokens sep s.
Proof.
  unfold tokens. induction 1 as [|c seps Hc _ IH]; [done|]. cbn. rewrite bool_decide_eq_true_2 by done.
  rewrite filter_cons, decide_False by naive_solver. done.
Qed.

Lemma pieces_tok (sep tok s : list Z) : Forall (fun c => c ∉ sep) tok ->
  pieces sep (tok ++ s) = match pieces sep s with p :: ps => (tok ++ p) :: ps | [] => [tok] end.
Proof.
  assert (G : forall s, exists p ps, pieces sep s = p :: ps).
  { induction s0 as [|c s0 (p & ps & E)]; cbn; [eauto|]. rewrite E. destruct (bool_decide _); eauto. }
  induction 1 as [|c tok Hc _ IH]; cbn; destruct (G s) as (p & ps & E); [by rewrite E|].
  rewrite bool_decide_eq_false_2 by done. rewrite IH, E. done.
Qed.

Lemma tokens_tok_end (sep tok : list Z) : Forall (fun c => c ∉ sep) tok -> tok <> [] -> tokens sep tok = [tok].
Proof.
  intros Ht Hne. unfold tokens. rewrite <- (app_nil_r tok) at 1. rewrite pieces_tok by done. cbn [pieces].
  rewrite app_nil_r, filter_cons, decide_True by done. done.
Qed.

Lemma tokens_tok_sep (sep tok : list Z) c s : Forall (fun c => c ∉ sep) tok -> tok <> [] -> c ∈ sep ->
  tokens sep (tok ++ c :: s) = tok :: tokens sep s.
Proof.
  intros Ht Hne Hc. unfold tokens. rewrite pieces_tok by done. cbn [pieces].
  rewrite bool_decide_eq_true_2 by done. rewrite app_nil_r, filter_cons, decide_True by done. done.
Qed.

(** One call, from the offset where the rest of the string starts. *)
Section strtok.
Context (sepset sep : list Z) (Hsep : is_str sepset sep).

Lemma strtok_call buf string savept p s :
  match string with None => savept | Some _ => string end = Some p -> is_str (drop p buf) s ->
  match tokens sep s with
  | [] => strtok buf string savept sepset = Some (None, buf, savept)
  | tok :: toks => exists q buf' sv, strtok buf string savept sepset = Some (Some q, buf', sv)
      /\ cstr (drop q buf') = tok
      /\ match sv with
         | None => toks = []
         | Some p' => exists s', is_str (drop p' buf') s' /\ tokens sep s' = toks /\ (length s' < length s)%nat
         end
  end.
Proof.
  intros Hp ((post & Hbuf) & Hz).
  destruct (token_cases sep s) as (seps & rest & -> & Hseps & Hrest).
  rewrite tokens_seps by done. unfold strtok. rewrite Hp. rewrite <- app_assoc in Hbuf.
  assert (Hq : drop (p + length seps) buf = rest ++ NUL :: post).
  { rewrite <- drop_drop, Hbuf, drop_app_length. done. }
  assert (Hhead : buf !! (p + length seps)%nat = head (rest ++ NUL :: post)).
  { rewrite <- (Nat.add_0_r (p + length seps)), <- lookup_drop, Hq. by destruct rest. }
  rewrite Hbuf, (strspn_spec sepset sep Hsep); [|done| |by destruct rest].
  2:{ intros c Hc. destruct Hrest as [->|(tok & rest' & -> & Hne & Htok & _)].
      - injection Hc as <-. by destruct Hsep.
      - destruct tok as [|d tok]; [done|]. injection Hc as <-. by apply Forall_cons in Htok as [? _]. }
  cbn [mbind option_bind]. rewrite Hhead.
  destruct Hrest as [->|(tok & rest' & -> & Hne & Htok & Hend)]; [done|].
  assert (Htok' : Forall (fun c => c ∉ sep /\ c <> NUL) tok).
  { apply Forall_forall. intros c Hc. split; [by eapply Forall_forall in Htok|]. intros ->. set_solver. }
  assert (Hc : exists c tl, tok ++ rest' ++ NUL :: post = c :: tl /\ c <> NUL).
  { destruct tok as [|c tok]; [done|]. apply Forall_cons in Htok' as [[_ ?] _]. eexists c, _. by split. }
  rewrite <- app_assoc in Hq |- *. destruct Hc as (c & tl & Ec & Hc). rewrite Ec. cbn [head mbind option_bind].
  rewrite (proj2 (Z.eqb_neq c NUL) Hc), Hq. clear c tl Ec Hc Hhead.
  destruct Hend as [->|(c & r & -> & Hc)].
  - rewrite app_nil_r, tokens_tok_end by done.
    rewrite (proj2 (strpbrk_spec sepset sep Hsep tok ([] ++ NUL :: post) Htok')) by done.
    cbn [mbind option_bind]. eexists _, _, _. split; [done|]. split; [|done]. rewrite Hq. cbn [app].
    apply cstr_is_str, is_str_app. set_solver.
  - rewrite tokens_tok_sep by done. cbn [app] in *.
    rewrite (proj1 (strpbrk_spec sepset sep Hsep tok (c :: r ++ NUL :: post) Htok')) by done.
    cbn [mbind option_bind]. set (q := (p + length seps)%nat) in *. eexists _, _, _. split; [done|].
    assert (E : drop q (<[(q + length tok)%nat:=NUL]> buf) = tok ++ NUL :: r ++ NUL :: post).
    { rewrite drop_insert_ge, Hq by lia. replace (q + length tok - q)%nat with (length tok + 0)%nat by lia.
      by rewrite insert_app_r. }
    split; [rewrite E; apply cstr_is_str, is_str_app; set_solver|].
    exists r. split; [|split; [done|rewrite !length_app; cbn; lia]].
    replace (S (q + length tok)) with (q + (length tok + 1))%nat by lia.
    rewrite <- drop_drop, E, <- drop_drop, drop_app_length. cbn. apply is_str_app. set_solver.
Qed.

(** Repeated calls go through all the tokens. *)
Lemma strtok_all_from fuel : forall buf string savept p s,
  match string with None => savept | Some _ => string end = Some p -> is_str (drop p buf) s ->
  (length s < fuel)%nat -> strtok_all fuel buf string savept sepset = Some (tokens sep s).
Proof.
  induction fuel as [|fuel IH]; intros buf string savept p s Hp Hs Hf; [lia|]. cbn [strtok_all].
  pose proof (strtok_call buf string savept p s Hp Hs) as H. destruct (tokens sep s) as [|tok toks] eqn:E.
  { by rewrite H. }
  destruct H as (q & buf' & sv & -> & Ht & Hsv). cbn [mbind option_bind]. rewrite Ht.
  destruct sv as [p'|]; [|subst toks].
  - destruct Hsv as (s' & Hs' & <- & Hl). by rewrite (IH buf' None (Some p') p' s' eq_refl Hs') by lia.
  - destruct fuel as [|fuel]; [|done]. exfalso. destruct s; [|cbn in Hf; lia].
    discriminate E.
Qed.

End strtok.

(** the loop [for (t = strtok(s, sep); t != NULL; t = strtok(NULL, sep))] ends
    and visits exactly the maximal runs of non-separators of [s], in order,
    whatever an earlier use of [strtok] left in its static pointer. *)
Theorem strtok_all_tokens buf s sepset sep p savept :
  is_str (drop p buf) s -> is_str sepset sep ->
  strtok_all (S (length s)) buf (Some p) savept sepset = Some (tokens sep s).
Proof. intros Hs Hsep. eapply (strtok_all_from sepset sep Hsep _ buf (Some p)); [done|done|lia]. Qed.

Lemma strtok_all_tokens_witness :
  tokens [32] [32; 97; 98; 32; 32; 99] = [[97; 98]; [99]]
  /\ strtok_all 7 [32; 97; 98; 32; 32; 99; 0] (Some 0%nat) (Some 3%nat) [32; 0] = Some [[97; 98]; [99]].
Proof.
  split; [reflexivity|].
  apply (strtok_all_tokens [32; 97; 98; 32; 32; 99; 0] [32; 97; 98; 32; 32; 99] [32; 0] [32] 0 (Some 3%nat));
    [apply (is_str_app [32; 97; 98; 32; 32; 99] []); set_solver | apply (is_str_app [32] []); set_solver].
Defined.

End KString.
