(* ===== verification/InitCalls.v ===== *)
(** * Initialisation functions ([util/init.c], [include/util/init.h])

    Every part of the kernel puts its initialisation function, and the names of those it
    depends on, into a section of the kernel's image; [init_call_all] reads the section
    and calls each function after the ones it depends on.  The section is an array of
    characters followed by what comes after it in memory; a name is the part of the
    array from its first character on; the structures are in the list [funcs], a pointer
    to one is its place in the list; memory is the number of objects [kmalloc] can still
    give, and the functions called are recorded in [called], the last first. *)

From S2P Require Import Prelude.
From S2P Require Import KString.

Module InitCalls.

Local Open Scope Z_scope.
Local Open Scope kernel_scope.

Import KString.

(** ** Data *)

Record init_function : Type := mk_if {
  if_func : Z;
  if_name : list Z;
  if_search : Z;
  if_called : bool;
  if_deps : list (list Z)
}.

Record inits : Type := mk_inits {
  funcs : list init_function;
  init_search_count : Z;
  kmem : nat;
  called : list nat
}.

Abbreviation M := (kernel inits).

Definition with_search (n : Z) (f : init_function) : init_function := mk_if (if_func f) (if_name f) n (if_called f) (if_deps f).
Definition with_called (f : init_function) : init_function := mk_if (if_func f) (if_name f) (if_search f) true (if_deps f).

Definition set_funcs (l : list init_function) (s : inits) : inits := mk_inits l (init_search_count s) (kmem s) (called s).
Definition set_count (n : Z) (s : inits) : inits := mk_inits (funcs s) n (kmem s) (called s).
Definition set_kmem (n : nat) (s : inits) : inits := mk_inits (funcs s) (init_search_count s) n (called s).
Definition add_called (i : nat) (s : inits) : inits := mk_inits (funcs s) (init_search_count s) (kmem s) (i :: called s).

Definition get_func (i : nat) : M init_function := s <- kget ;; kderef (funcs s !! i).
Definition upd_func (i : nat) (g : init_function -> init_function) : M unit :=
  get_func i ;;; kmodify (fun s => set_funcs (alter g i (funcs s)) s).

(** [kmalloc] and the assertion that it succeeded *)
Definition kmalloc_one : M unit :=
  s <- kget ;;
  match kmem s with
  | O => kpanic
  | S n => kmodify (set_kmem n)
  end.
Definition kfree_one : M unit := kmodify (fun s => set_kmem (S (kmem s)) s).

(** ** Calling *)

(** The first function with a name; [None] if a name runs off the section. *)
Fixpoint find_func (name : list Z) (names : list (list Z)) : option (option nat) :=
  match names with
  | [] => Some None
  | f :: names =>
      r ← strcmp name f;
      if r =? 0 then Some (Some 0%nat) else fmap (M := option) S <$> find_func name names
  end.

(** The loop of [_init_call] over the dependencies; [rec] is [_init_call]. *)
Fixpoint call_deps (rec : nat -> M unit) (func : nat) (deps : list (list Z)) : M unit :=
  match deps with
  | [] => kret tt
  | dep :: deps =>
      s <- kget ;;
      found <- kderef (find_func dep (if_name <$> funcs s)) ;;
      match found with
      | None => kpanic
      | Some f =>
          fn <- get_func func ;;
          ff <- get_func f ;;
          kassert (negb (if_search fn =? if_search ff)) ;;;
          (if negb (if_called ff) then
             upd_func f (with_search (if_search fn)) ;;;
             rec f
           else kret tt) ;;;
          call_deps rec func deps
      end
  end.

Definition out_of_fuel : M unit := fun _ => NoFuel.

Fixpoint init_call (fuel : nat) (func : nat) : M unit :=
  match fuel with
  | O => out_of_fuel
  | S fuel =>
      fn <- get_func func ;;
      call_deps (init_call fuel) func (if_deps fn) ;;;
      fn <- get_func func ;;
      kassert (negb (if_called fn)) ;;;
      kmodify (add_called func) ;;;
      upd_func func with_called
  end.

(** ** Reading the section *)

Definition sizeof_func : Z := 4.

Definition byte (c : Z) : Z := c mod 256.
(** [*(uintptr_t * )buf] *)
Definition word_at (m : list Z) (buf : Z) : option Z :=
  match drop (Z.to_nat buf) m with
  | a :: b :: c :: d :: _ => Some (byte a + 256 * (byte b + 256 * (byte c + 256 * byte d)))
  | _ => None
  end.
Definition string_at (m : list Z) (buf : Z) : list Z := drop (Z.to_nat buf) m.

Fixpoint dep_loop (fuel : nat) (m : list Z) (end_ buf : Z) (deps : list (list Z)) : M (Z * list (list Z)) :=
  match fuel with
  | O => fun _ => NoFuel
  | S fuel =>
      w <- kderef (word_at m buf) ;;
      if (w =? 0) && (buf <? end_) then
        kmalloc_one ;;;
        n <- kderef (strlen (string_at m (buf + sizeof_func))) ;;
        dep_loop fuel m end_ (buf + (sizeof_func + n + 1)) (deps ++ [string_at m (buf + sizeof_func)])
      else kret (buf, deps)
  end.

Fixpoint func_loop (fuel : nat) (m : list Z) (end_ buf : Z) : M Z :=
  match fuel with
  | O => fun _ => NoFuel
  | S fuel =>
      if buf <? end_ then
        kmalloc_one ;;;
        w <- kderef (word_at m buf) ;;
        kassert (negb (w =? 0)) ;;;
        n <- kderef (strlen (string_at m (buf + sizeof_func))) ;;
        r <- dep_loop (S (length m)) m end_ (buf + (sizeof_func + n + 1)) [] ;;
        kmodify (fun s => set_funcs (funcs s ++ [mk_if w (string_at m (buf + sizeof_func)) 0 false (snd r)]) s) ;;;
        func_loop fuel m end_ (fst r)
      else kret buf
  end.

(** ** All of them *)

Fixpoint call_loop (l : list nat) : M unit :=
  match l with
  | [] => kret tt
  | i :: l =>
      fn <- get_func i ;;
      (if negb (if_called fn) then
         s <- kget ;;
         kmodify (set_count (s32 (init_search_count s + 1))) ;;;
         upd_func i (with_search (s32 (init_search_count s + 1))) ;;;
         init_call (S (length (funcs s))) i
       else kret tt) ;;;
      call_loop l
  end.

Fixpoint free_deps (deps : list (list Z)) : M unit :=
  match deps with
  | [] => kret tt
  | _ :: deps => kfree_one ;;; free_deps deps
  end.
Fixpoint free_loop (fs : list init_function) : M unit :=
  match fs with
  | [] => kret tt
  | f :: fs => free_deps (if_deps f) ;;; kfree_one ;;; free_loop fs
  end.

(** [init_call_all], with the memory from [kernel_start_init] on and the length of the section *)
Definition init_call_all (m : list Z) (end_ : Z) : M unit :=
  kmodify (set_funcs []) ;;;
  buf <- func_loop (S (length m)) m end_ 0 ;;
  kassert (buf =? end_) ;;;
  s <- kget ;;
  call_loop (seq 0 (length (funcs s))) ;;;
  s <- kget ;;
  free_loop (funcs s) ;;;
  kmodify (set_funcs []).

End InitCalls.
