(* ===== verification/InitSpec.v ===== *)
(** * The order of initialisation

    Whatever the section holds, [init_call_all] stops; if it does not panic it has called
    every function once, after the functions it depends on.  It does return if no two
    chains of dependencies lead from a function to the same function. *)

From S2P Require Import Prelude.
From S2P Require Import KString.
From S2P Require Export InitCalls.

Module InitSpec.
Import KString.
Export InitCalls.

Local Open Scope Z_scope.
Local Open Scope kernel_scope.

(** ** Operations that return or panic

    [settles pan m s Q]: [m] stops; if it panics [pan] holds, if it returns [Q] does. *)
Definition settles {S A} (pan : Prop) (m : kernel S A) (s : S) (Q : A -> S -> Prop) : Prop :=
  match m s with
  | Done a s' => Q a s'
  | Panic => pan
  | NoFuel | Env _ _ _ => False
  end.

Lemma settles_bind {S A B} pan (m : kernel S A) (f : A -> kernel S B) s Q :
  settles pan m s (fun a s' => settles pan (f a) s' Q) -> settles pan (kbind m f) s Q.
Proof. unfold settles, kbind. by destruct (m s). Qed.
Lemma settles_mono {S A} pan (m : kernel S A) s (Q R : A -> S -> Prop) :
  settles pan m s Q -> (forall a s', Q a s' -> R a s') -> settles pan m s R.
Proof. unfold settles. destruct (m s); auto. Qed.
Lemma settles_step {S A B} pan (m : kernel S A) (f : A -> kernel S B) s Q (R : A -> S -> Prop) :
  settles pan m s R -> (forall a s', R a s' -> settles pan (f a) s' Q) -> settles pan (kbind m f) s Q.
Proof. intros Hm Hf. apply settles_bind. by eapply settles_mono. Qed.
Lemma settles_assert {S} pan (b : bool) (s : S) (Q : unit -> S -> Prop) : (b = false -> pan) -> (b = true -> Q tt s) -> settles pan (kassert b) s Q.
Proof. unfold settles, kassert. destruct b; auto. Qed.
Lemma settles_deref {S A} pan (o : option A) (s : S) (Q : A -> S -> Prop) : (o = None -> pan) -> (forall a, o = Some a -> Q a s) -> settles pan (kderef o) s Q.
Proof. unfold settles, kderef. destruct o; auto. Qed.
Lemma settles_get {S} pan (s : S) (Q : S -> S -> Prop) : Q s s -> settles pan kget s Q.
Proof. done. Qed.
Lemma settles_modify {S} pan (g : S -> S) (s : S) (Q : unit -> S -> Prop) : Q tt (g s) -> settles pan (kmodify g) s Q.
Proof. done. Qed.
(** With nothing that may panic the operation returns. *)
Lemma settles_runs {S A} (m : kernel S A) s (Q : A -> S -> Prop) : settles False m s Q -> runs m s Q.
Proof. unfold settles. destruct (m s) eqn:E; try done. intros HQ. by exists a, s0. Qed.

(** ** Dependencies *)

(** For each function, what its dependencies resolve to *)
Definition row_of (names : list (list Z)) (f : init_function) : list (option (option nat)) := (fun d => find_func d names) <$> if_deps f.
Definition table_of (fs : list init_function) : list (list (option (option nat))) := row_of (if_name <$> fs) <$> fs.

Section Order.
Context (T : list (list (option (option nat)))).

(** The functions, the last first, each after those it depends on *)
Inductive ordered : list nat -> Prop :=
| ordered_nil : ordered []
| ordered_cons i row l : T !! i = Some row -> i ∉ l -> (forall x, x ∈ row -> exists j, x = Some (Some j) /\ j ∈ l) -> ordered l -> ordered (i :: l).

(** The functions [i] leads to, once for every chain of dependencies *)
Inductive below : nat -> list nat -> Prop :=
| below_intro i row l : T !! i = Some row -> below_row row l -> below i l
with below_row : list (option (option nat)) -> list nat -> Prop :=
| below_nil : below_row [] []
| below_cons j row l l' : below j l -> below_row row l' -> below_row (Some (Some j) :: row) (j :: l ++ l').

Lemma below_inv i l : below i l -> exists row, T !! i = Some row /\ below_row row l.
Proof. intros H. inversion H; subst. by eexists. Qed.

Lemma ordered_nodup l : ordered l -> NoDup l.
Proof. induction 1; by constructor. Qed.

Record ready (s : inits) : Prop := {
  rd_table : table_of (funcs s) = T;
  rd_called : forall i f, funcs s !! i = Some f -> if_called f = true <-> i ∈ called s;
  rd_ordered : ordered (called s)
}.

(** Functions a search has not come to *)
Fixpoint unmarked (sc : Z) (fs : list init_function) : nat :=
  match fs with
  | [] => 0
  | f :: fs => (if if_search f =? sc then 0 else 1) + unmarked sc fs
  end.

Lemma unmarked_length sc fs : (unmarked sc fs <= length fs)%nat.
Proof. induction fs as [|f fs IH]; simpl; [done|]. destruct (_ =? _); lia. Qed.
Lemma unmarked_mark sc fs j f : fs !! j = Some f -> if_search f <> sc -> (unmarked sc (alter (with_search sc) j fs) < unmarked sc fs)%nat.
Proof.
  revert j. induction fs as [|g fs IH]; intros [|j] Hj Hne; simplify_eq/=.
  - rewrite Z.eqb_refl, (proj2 (Z.eqb_neq _ _) Hne). lia.
  - specialize (IH j Hj Hne). change (list_alter (with_search sc) j fs) with (alter (with_search sc) j fs). destruct (_ =? _); lia.
Qed.

(** What a search with number [sc] leaves of a function *)
Record kept (sc : Z) (f f' : init_function) : Prop := {
  kp_search : if_search f' = if_search f \/ if_search f' = sc;
  kp_func : if_func f' = if_func f;
  kp_name : if_name f' = if_name f;
  kp_deps : if_deps f' = if_deps f
}.
Lemma kept_one sc f : kept sc f f.
Proof. split; [by left|done..]. Qed.
Lemma kept_trans sc f g h : kept sc f g -> kept sc g h -> kept sc f h.
Proof. intros [[|] ? ? ?] [[|] ? ? ?]; split; intuition congruence. Qed.
Lemma kept_refl sc fs : Forall2 (kept sc) fs fs.
Proof. induction fs; constructor; [apply kept_one|done]. Qed.
Lemma kept_all_trans sc fs gs hs : Forall2 (kept sc) fs gs -> Forall2 (kept sc) gs hs -> Forall2 (kept sc) fs hs.
Proof.
  intros H. revert hs. induction H as [|f g fs gs Hk _ IH]; intros hs H'; inversion H'; subst; constructor; [by eapply kept_trans|by apply IH].
Qed.
Lemma kept_alter sc g fs i : (forall f, fs !! i = Some f -> kept sc f (g f)) -> Forall2 (kept sc) fs (alter g i fs).
Proof.
  revert i. induction fs as [|f fs IH]; intros [|i] H; simpl; constructor; try apply kept_one; [by apply H|apply kept_refl|]. by apply IH.
Qed.

Lemma unmarked_kept sc fs fs' : Forall2 (kept sc) fs fs' -> (unmarked sc fs' <= unmarked sc fs)%nat.
Proof.
  induction 1 as [|f f' fs fs' [[E|E] _ _ _] _ IH]; simpl; [done| |].
  - rewrite E. lia.
  - rewrite E, Z.eqb_refl. lia.
Qed.
Lemma names_kept sc fs fs' : Forall2 (kept sc) fs fs' -> if_name <$> fs' = if_name <$> fs.
Proof. induction 1 as [|f f' fs fs' [_ _ E _] _ IH]; [done|]. by rewrite !fmap_cons, E, IH. Qed.
Lemma table_kept sc fs fs' : Forall2 (kept sc) fs fs' -> table_of fs' = table_of fs.
Proof.
  intros H. unfold table_of. rewrite (names_kept _ _ _ H). generalize (if_name <$> fs). intros ns.
  induction H as [|f f' fs fs' [_ _ _ E] _ IH]; [done|]. rewrite !fmap_cons, IH. unfold row_of. by rewrite E.
Qed.
Lemma kept_lookup sc fs fs' i f : Forall2 (kept sc) fs fs' -> fs !! i = Some f -> exists f', fs' !! i = Some f' /\ kept sc f f'.
Proof. intros H Hi. by eapply Forall2_lookup_l in H as (f' & ? & ?); [exists f'|]. Qed.
Lemma kept_lookup_r sc fs fs' i f' : Forall2 (kept sc) fs fs' -> fs' !! i = Some f' -> exists f, fs !! i = Some f /\ kept sc f f'.
Proof. intros H Hi. by eapply Forall2_lookup_r in H as (f & ? & ?); [exists f|]. Qed.

(** ** One search *)

Context (pan : Prop).

(** From [s] to [s'] the search with number [sc] has marked and called functions of [L] only, unless it may panic. *)
Record moved (sc : Z) (L : list nat) (s s' : inits) : Prop := {
  mv_ready : ready s';
  mv_kept : Forall2 (kept sc) (funcs s) (funcs s');
  mv_marks : pan \/ forall k f f', funcs s !! k = Some f -> funcs s' !! k = Some f' -> if_search f' = sc -> if_search f = sc \/ k ∈ L;
  mv_called : exists new, called s' = new ++ called s /\ (pan \/ forall k, k ∈ new -> k ∈ L);
  mv_mem : kmem s' = kmem s;
  mv_count : init_search_count s' = init_search_count s
}.

Lemma moved_refl sc s : ready s -> moved sc [] s s.
Proof.
  intros R. split; try done; [apply kept_refl| |].
  - right. intros k f f' Hf Hf' E. left. congruence.
  - exists []. split; [done|]. right. intros k Hk. by apply elem_of_nil in Hk.
Qed.
Lemma moved_trans sc L L' s s1 s2 : moved sc L s s1 -> moved sc L' s1 s2 -> moved sc (L ++ L') s s2.
Proof.
  intros [_ K M (n & E & C) A B] [R' K' M' (n' & E' & C') A' B']. split; [done|by eapply kept_all_trans| | |congruence..].
  - destruct M as [|M]; [by left|]. destruct M' as [|M']; [by left|]. right. intros k f f' Hf Hf' Es.
    destruct (kept_lookup _ _ _ _ _ K Hf) as (g & Hg & _). rewrite elem_of_app. destruct (M' k g f' Hg Hf' Es) as [Eg|]; [|by right; right].
    destruct (M k f g Hf Hg Eg); [by left|by right; left].
  - exists (n' ++ n). rewrite E', E, app_assoc. split; [done|]. destruct C as [|C]; [by left|]. destruct C' as [|C']; [by left|].
    right. intros k. rewrite !elem_of_app. intros [Hk|Hk]; auto.
Qed.
Lemma moved_weaken sc L L' s s' : moved sc L s s' -> L ⊆ L' -> moved sc L' s s'.
Proof.
  intros [R K M (n & E & C) A B] HL. split; try done.
  - destruct M as [|M]; [by left|]. right. intros k f f' Hf Hf' Es. destruct (M k f f' Hf Hf' Es); [by left|right; by apply HL].
  - exists n. split; [done|]. destruct C as [|C]; [by left|]. right. intros k Hk. by apply HL, C.
Qed.
Lemma moved_called sc L s s' k : moved sc L s s' -> k ∈ called s -> k ∈ called s'.
Proof. intros [_ _ _ (n & -> & _) _ _] Hk. apply elem_of_app. by right. Qed.

Lemma settles_get_func s i f (Q : init_function -> inits -> Prop) : funcs s !! i = Some f -> Q f s -> settles pan (get_func i) s Q.
Proof. intros E HQ. unfold settles, get_func, kbind, kget, kderef. simpl. by rewrite E. Qed.
Lemma settles_upd_func s i f g (Q : unit -> inits -> Prop) : funcs s !! i = Some f -> Q tt (set_funcs (alter g i (funcs s)) s) -> settles pan (upd_func i g) s Q.
Proof. intros E HQ. unfold settles, upd_func, get_func, kbind, kget, kderef. simpl. by rewrite E. Qed.

(** Marking a function *)
Lemma moved_mark sc s j f : ready s -> funcs s !! j = Some f -> moved sc [j] s (set_funcs (alter (with_search sc) j (funcs s)) s).
Proof.
  intros [R1 R2 R3] Hj. assert (K : Forall2 (kept sc) (funcs s) (alter (with_search sc) j (funcs s))) by (apply kept_alter; intros g Hg; split; [by right|done..]).
  split; try done; simpl.
  - split; simpl; [by rewrite (table_kept _ _ _ K)| |done]. intros i g Hg. destruct (decide (i = j)) as [->|Hne].
    + rewrite list_lookup_alter_eq, Hj in Hg. injection Hg as <-. by apply (R2 j f).
    + rewrite list_lookup_alter_ne in Hg by done. by apply R2.
  - right. intros k g g' Hg Hg' Es. destruct (decide (k = j)) as [->|Hne]; [right; by apply list_elem_of_singleton|].
    rewrite list_lookup_alter_ne in Hg' by done. left. congruence.
  - exists []. split; [done|]. right. intros k Hk. by apply elem_of_nil in Hk.
Qed.

(** The dependencies lead to functions that no chain reaches twice and the search has not come to. *)
Definition fits (sc : Z) (row : list (option (option nat))) (l : list nat) (s : inits) : Prop :=
  below_row row l /\ NoDup l /\ forall k g, k ∈ l -> funcs s !! k = Some g -> if_search g <> sc.

Definition call_spec (fuel : nat) (rec : nat -> M unit) : Prop := forall i s sc f l,
  ready s -> funcs s !! i = Some f -> if_search f = sc -> (unmarked sc (funcs s) < fuel)%nat ->
  (pan \/ ((~ pan) /\ if_called f = false /\ i ∉ l /\ fits sc (row_of (if_name <$> funcs s) f) l s)) ->
  settles pan (rec i) s (fun _ s' => moved sc (i :: l) s s' /\ i ∈ called s').

Lemma fits_tail sc x row l s : fits sc (x :: row) l s -> exists j l1 l2, x = Some (Some j) /\ l = j :: l1 ++ l2 /\ below j l1 /\ fits sc row l2 s
  /\ NoDup (j :: l1) /\ (forall k, k ∈ j :: l1 -> k ∈ l2 -> False) /\ forall k g, k ∈ j :: l1 -> funcs s !! k = Some g -> if_search g <> sc.
Proof.
  intros (Hb & Hn & Hs). inversion Hb as [|j row' l1 l2 B1 B2]; subst. exists j, l1, l2. change (j :: l1 ++ l2) with ((j :: l1) ++ l2) in Hn, Hs.
  apply NoDup_app in Hn as (N1 & N2 & N3). split_and!; try done.
  - split_and!; try done. intros k g Hk. apply Hs, elem_of_app. by right.
  - intros k g Hk. apply Hs, elem_of_app. by left.
Qed.
Lemma fits_moved sc row l L s s' : fits sc row l s -> moved sc L s s' -> (~ pan) -> (forall k, k ∈ L -> k ∈ l -> False) -> fits sc row l s'.
Proof.
  intros (Hb & Hn & Hs) Mv Hp Hd. split_and!; try done. intros k g Hk Hg Es. destruct (kept_lookup_r _ _ _ _ _ (mv_kept _ _ _ _ Mv) Hg) as (f & Hf & _).
  destruct (mv_marks _ _ _ _ Mv) as [|M]; [done|]. destruct (M k f g Hf Hg Es); [by apply (Hs k f)|by apply (Hd k)].
Qed.

Lemma moved_any sc L L' s s' : pan -> moved sc L s s' -> moved sc L' s s'.
Proof. intros Hp [R K M (n & E & C) A B]. split; try done; [by left|]. exists n. split; [done|by left]. Qed.

Lemma find_func_lt d ns j : find_func d ns = Some (Some j) -> (j < length ns)%nat.
Proof.
  revert j. induction ns as [|n ns IH]; intros j; simpl; [done|]. destruct (strcmp d n) as [r|]; simpl; [|done]. destruct (r =? 0); [intros [= <-]; lia|].
  destruct (find_func d ns) as [[k|]|]; simpl; try done. intros [= <-]. specialize (IH k eq_refl). lia.
Qed.
Lemma row_lookup s j g : ready s -> funcs s !! j = Some g -> T !! j = Some (row_of (if_name <$> funcs s) g).
Proof. intros R Hj. rewrite <- (rd_table _ R). unfold table_of. by rewrite list_lookup_fmap, Hj. Qed.

Lemma call_deps_settles fuel rec i ds sc : call_spec fuel rec -> forall s f l,
  ready s -> funcs s !! i = Some f -> if_search f = sc -> (unmarked sc (funcs s) <= fuel)%nat ->
  let row := (fun d => find_func d (if_name <$> funcs s)) <$> ds in
  (pan \/ ((~ pan) /\ fits sc row l s)) ->
  settles pan (call_deps rec i ds) s (fun _ s' => moved sc l s s' /\ forall x, x ∈ row -> exists j, x = Some (Some j) /\ j ∈ called s').
Proof.
  intros Hrec. induction ds as [|d ds IH]; intros s f l R Hi Es Hu row Hfit; cbn [call_deps].
  { unfold settles, kret. split; [apply (moved_weaken sc []); [by apply moved_refl|apply list_subseteq_nil]|]. intros x Hx. by apply elem_of_nil in Hx. }
  apply settles_bind, settles_get, settles_bind, settles_deref.
  { intros E. destruct Hfit as [|[_ F]]; [done|]. destruct (fits_tail _ _ _ _ _ F) as (j & l1 & l2 & Ex & _). congruence. }
  intros [j|] Ef; [|destruct Hfit as [|[_ F]]; [done|]; destruct (fits_tail _ _ _ _ _ F) as (j & l1 & l2 & Ex & _); congruence].
  assert (Hsplit : exists l1 l2, pan \/ ((~ pan) /\ l = (j :: l1) ++ l2 /\ below j l1 /\ fits sc ((fun d => find_func d (if_name <$> funcs s)) <$> ds) l2 s
    /\ NoDup (j :: l1) /\ (forall k, k ∈ j :: l1 -> k ∈ l2 -> False) /\ forall k g, k ∈ j :: l1 -> funcs s !! k = Some g -> if_search g <> sc)).
  { destruct Hfit as [|[Hp F]]; [exists [], []; by left|]. destruct (fits_tail _ _ _ _ _ F) as (j' & l1 & l2 & Ex & F'). exists l1, l2. right.
    assert (j' = j) as -> by congruence. by split. }
  clear Hfit. destruct Hsplit as (l1 & l2 & Hfit).
  destruct (lookup_lt_is_Some_2 (funcs s) j) as [g Hj]; [apply find_func_lt in Ef; by rewrite length_fmap in Ef|].
  apply settles_bind. eapply settles_get_func; [done|]. apply settles_bind. eapply settles_get_func; [done|]. rewrite Es.
  apply settles_bind, settles_assert.
  { intros E. destruct Hfit as [|(_ & _ & _ & _ & _ & _ & Hm)]; [done|]. exfalso. apply (Hm j g); [by left|done|lia]. }
  intros Hne. assert (Hne' : if_search g <> sc) by lia.
  eapply (settles_step _ _ _ _ _ (fun _ s1 => moved sc (j :: l1) s s1 /\ j ∈ called s1)).
  - destruct (if_called g) eqn:Ec; cbn [negb].
    + unfold settles, kret. split; [|by apply (rd_called _ R j g)]. apply (moved_weaken sc []); [by apply moved_refl|apply list_subseteq_nil].
    + apply settles_bind. eapply settles_upd_func; [done|]. pose proof (moved_mark sc s j g R Hj) as Mk. set (sm := set_funcs _ s) in *.
      assert (Hjm : funcs sm !! j = Some (with_search sc g)) by (simpl; by rewrite list_lookup_alter_eq, Hj).
      eapply settles_mono; [apply (Hrec j sm sc (with_search sc g) l1); try done|].
      * apply Mk.
      * pose proof (unmarked_mark sc (funcs s) j g Hj Hne'). simpl. lia.
      * destruct Hfit as [|(Hp & _ & Hb & _ & Hn & _ & Hm)]; [by left|]. right. apply NoDup_cons in Hn as [Hn1 Hn2]. split_and!; try done. split_and!; [|done|].
        -- destruct (below_inv _ _ Hb) as (row' & Hr & Hbr). rewrite (row_lookup sm j (with_search sc g)) in Hr by (done || apply Mk). apply (inj Some) in Hr as <-. exact Hbr.
        -- intros k h Hk Hh. simpl in Hh. rewrite list_lookup_alter_ne in Hh by (intros ->; done). apply (Hm k); [by right|done].
      * intros _ s1 [M1 H1]. split; [|done]. apply (moved_weaken sc ([j] ++ j :: l1)); [by eapply moved_trans|]. intros k. rewrite elem_of_app, list_elem_of_singleton, elem_of_cons. tauto.
  - intros _ s1 [M1 H1]. destruct (kept_lookup _ _ _ _ _ (mv_kept _ _ _ _ M1) Hi) as (f1 & Hi1 & Kf).
    pose proof (names_kept _ _ _ (mv_kept _ _ _ _ M1)) as En.
    eapply settles_mono; [apply (IH s1 f1 l2); try done|].
    + apply M1.
    + destruct (kp_search _ _ _ Kf); congruence.
    + pose proof (unmarked_kept _ _ _ (mv_kept _ _ _ _ M1)). lia.
    + destruct Hfit as [|(Hp & _ & _ & Hf & _ & Hd & _)]; [by left|]. right. split; [done|]. rewrite En. by apply (fits_moved sc _ l2 (j :: l1) s).
    + rewrite En. intros _ s2 [M2 H2]. split.
      * destruct Hfit as [Hp|(_ & -> & _)]; [apply (moved_any sc ((j :: l1) ++ l2)); [done|]|]; by eapply moved_trans.
      * intros x Hx. unfold row in Hx. rewrite fmap_cons in Hx. apply elem_of_cons in Hx as [->|Hx]; [|by apply H2]. exists j. split; [done|]. by eapply moved_called.
Qed.

Lemma call_ready s i f : ready s -> funcs s !! i = Some f -> if_called f = false ->
  (forall x, x ∈ row_of (if_name <$> funcs s) f -> exists j, x = Some (Some j) /\ j ∈ called s) ->
  ready (set_funcs (alter with_called i (funcs s)) (add_called i s)).
Proof.
  intros R Hi Hc Hd. pose proof (row_lookup s i f R Hi) as Ht. destruct R as [R1 R2 R3].
  assert (Hn : i ∉ called s) by (intros Hin%(R2 i f Hi); congruence). split; simpl.
  - rewrite <- R1. apply (table_kept 0). apply kept_alter. intros g _. split; [by left|done..].
  - intros k g Hg. rewrite elem_of_cons. destruct (decide (k = i)) as [->|Hne].
    + rewrite list_lookup_alter_eq, Hi in Hg. injection Hg as <-. split; [by left|done].
    + rewrite list_lookup_alter_ne in Hg by done. rewrite (R2 k g Hg). intuition congruence.
  - by eapply ordered_cons.
Qed.

Lemma init_call_settles fuel : call_spec fuel (init_call fuel).
Proof.
  induction fuel as [|fuel IH]; intros i s sc f l R Hi Es Hu Hfit; [lia|]. cbn [init_call].
  apply settles_bind. eapply settles_get_func; [done|]. eapply settles_step.
  { apply (call_deps_settles fuel _ i (if_deps f) sc IH s f l); try done; [lia|]. destruct Hfit as [|(Hp & _ & _ & F)]; [by left|by right]. }
  cbn beta. intros _ s1 [M1 H1]. fold (row_of (if_name <$> funcs s) f) in H1.
  destruct (kept_lookup _ _ _ _ _ (mv_kept _ _ _ _ M1) Hi) as (f1 & Hi1 & Kf). pose proof (names_kept _ _ _ (mv_kept _ _ _ _ M1)) as En.
  apply settles_bind. eapply settles_get_func; [done|]. apply settles_bind, settles_assert.
  { intros E. destruct Hfit as [|(Hp & Hc & Hl & _)]; [done|]. exfalso.
    assert (Hin : i ∈ called s1) by (apply (rd_called _ (mv_ready _ _ _ _ M1) i f1 Hi1); by destruct (if_called f1)).
    destruct (mv_called _ _ _ _ M1) as (n & E1 & [|Hn]); [done|]. rewrite E1 in Hin. apply elem_of_app in Hin as [Hin|Hin]; [by apply Hl, Hn|].
    apply (rd_called _ R i f Hi) in Hin. congruence. }
  intros Hc. apply negb_true_iff in Hc. apply settles_bind. change (settles pan (upd_func i with_called) (add_called i s1) (fun _ s' => moved sc (i :: l) s s' /\ i ∈ called s')).
  eapply settles_upd_func; [exact Hi1|]. split; [|by left].
  assert (R2 : ready (set_funcs (alter with_called i (funcs s1)) (add_called i s1))).
  { apply (call_ready s1 i f1); [apply M1|done|done|]. unfold row_of. rewrite (kp_deps _ _ _ Kf), En. exact H1. }
  apply (moved_weaken sc (l ++ [i])); [|intros k; rewrite elem_of_app, list_elem_of_singleton, elem_of_cons; tauto].
  apply (moved_trans sc l [i] s s1); [done|]. split; try done; simpl.
  - apply kept_alter. intros g _. split; [by left|done..].
  - right. intros k g g' Hg Hg' Eg. left. destruct (decide (k = i)) as [->|Hne].
    + rewrite list_lookup_alter_eq, Hg in Hg'. by injection Hg' as <-.
    + rewrite list_lookup_alter_ne in Hg' by done. congruence.
  - exists [i]. split; [done|]. by right.
Qed.

(** ** All the searches *)

Record searched (s s' : inits) : Prop := {
  sd_ready : ready s';
  sd_deps : if_deps <$> funcs s' = if_deps <$> funcs s;
  sd_called : forall k, k ∈ called s -> k ∈ called s';
  sd_mem : kmem s' = kmem s
}.

(** The numbers of the searches so far, and room for more *)
Definition numbered (n : nat) (s : inits) : Prop :=
  0 <= init_search_count s /\ init_search_count s + Z.of_nat n < 2 ^ 31 /\ forall k g, funcs s !! k = Some g -> 0 <= if_search g <= init_search_count s.

Lemma deps_kept sc fs fs' : Forall2 (kept sc) fs fs' -> if_deps <$> fs' = if_deps <$> fs.
Proof. induction 1 as [|f f' fs fs' [_ _ _ E] _ IH]; [done|]. by rewrite !fmap_cons, E, IH. Qed.

Lemma ready_count s n : ready s -> ready (set_count n s).
Proof. intros [H1 H2 H3]. by split. Qed.

Lemma call_loop_settles l s : ready s -> (forall i, i ∈ l -> is_Some (funcs s !! i)) ->
  (pan \/ ((~ pan) /\ numbered (length l) s /\ forall i, i ∈ l -> exists b, below i b /\ NoDup (i :: b))) ->
  settles pan (call_loop l) s (fun _ s' => searched s s' /\ forall i, i ∈ l -> i ∈ called s').
Proof.
  revert s. induction l as [|i l IH]; intros s R Hl Hok; cbn [call_loop].
  { unfold settles, kret. split; [by split|]. intros i Hi. by apply elem_of_nil in Hi. }
  destruct (Hl i ltac:(by left)) as [f Hi]. apply settles_bind. eapply settles_get_func; [done|].
  set (R1 := fun (_ : unit) s1 => searched s s1 /\ i ∈ called s1 /\ (forall k, is_Some (funcs s !! k) -> is_Some (funcs s1 !! k))
    /\ (pan \/ numbered (length l) s1)).
  eapply (settles_step _ _ _ _ _ R1).
  2: { intros [] s1 (D1 & Hc1 & Hk1 & Hn1). eapply settles_mono; [apply (IH s1); [apply D1| |]|].
       - intros k Hk. apply Hk1, Hl. by right.
       - destruct Hok as [|(Hp & _ & Hb)]; [by left|]. destruct Hn1 as [|Hn1]; [done|]. right. split_and!; try done. intros k Hk. apply Hb. by right.
       - intros _ s2 [D2 Hc2]. split.
         + split; [apply D2|by rewrite (sd_deps _ _ D2), (sd_deps _ _ D1)|intros k Hk; by apply D2, D1|by rewrite (sd_mem _ _ D2), (sd_mem _ _ D1)].
         + intros k [->|Hk]%elem_of_cons; [by apply D2|by apply Hc2]. }
  unfold R1. clear R1 IH. destruct (if_called f) eqn:Ec; cbn [negb].
  { unfold settles, kret. split_and!; [by split|by apply (rd_called _ R i f)|done|]. destruct Hok as [|(Hp & (N1 & N2 & N3) & _)]; [by left|]. right.
    split_and!; try done. rewrite length_cons in N2. lia. }
  apply settles_bind, settles_get, settles_bind. set (sc := s32 (init_search_count s + 1)). set (s1 := set_count sc s).
  change (settles pan (upd_func i (with_search sc) ;;; init_call (S (length (funcs s))) i) s1 (fun _ s2 => searched s s2 /\ i ∈ called s2
    /\ (forall k, is_Some (funcs s !! k) -> is_Some (funcs s2 !! k)) /\ (pan \/ numbered (length l) s2))).
  apply settles_bind. eapply settles_upd_func; [exact Hi|]. pose proof (moved_mark sc s1 i f (ready_count s sc R) Hi) as Mk. set (sm := set_funcs _ s1) in *.
  assert (Him : funcs sm !! i = Some (with_search sc f)) by (simpl; by rewrite list_lookup_alter_eq, Hi).
  assert (Hb : exists b, pan \/ ((~ pan) /\ if_called (with_search sc f) = false /\ i ∉ b /\ fits sc (row_of (if_name <$> funcs sm) (with_search sc f)) b sm)).
  { destruct Hok as [|(Hp & (N1 & N2 & N3) & Hb)]; [exists []; by left|]. destruct (Hb i ltac:(by left)) as (b & Hbi & [Hn1 Hn2]%NoDup_cons).
    destruct (below_inv _ _ Hbi) as (row & Hr & Hbr). exists b. right. split_and!; try done. split_and!; [|done|].
    - rewrite (row_lookup sm i (with_search sc f)) in Hr by (done || apply Mk). apply (inj Some) in Hr as <-. exact Hbr.
    - intros k g Hk Hg. simpl in Hg. rewrite list_lookup_alter_ne in Hg by (intros ->; done). specialize (N3 k g Hg).
      unfold sc. rewrite s32_small by (rewrite length_cons in N2; lia). lia. }
  destruct Hb as (b & Hb). eapply settles_mono; [apply (init_call_settles _ i sm sc (with_search sc f) b); try done; [apply Mk|]|].
  { pose proof (unmarked_length sc (funcs sm)). assert (length (funcs sm) = length (funcs s)) by (simpl; by rewrite length_alter). lia. }
  intros _ s2 [M2 H2]. pose proof (moved_trans _ _ _ _ _ _ Mk M2) as M. split_and!; try done.
  - split; [apply M|apply (deps_kept sc); apply M| |exact (mv_mem _ _ _ _ M)]. intros k Hk. by apply (moved_called _ _ _ _ k M).
  - intros k [g Hg]. destruct (kept_lookup _ _ _ _ _ (mv_kept _ _ _ _ M) Hg) as (g' & ? & _). by exists g'.
  - destruct Hok as [|(Hp & (N1 & N2 & N3) & _)]; [by left|]. right. rewrite length_cons in N2. pose proof (mv_count _ _ _ _ M) as Ec2.
    change (init_search_count s1) with sc in Ec2. unfold sc in Ec2. rewrite s32_small in Ec2 by lia. split_and!; [lia|lia|].
    intros k g' Hg'. destruct (kept_lookup_r _ _ _ _ _ (mv_kept _ _ _ _ M) Hg') as (g & Hg & [[E|E] _ _ _]); rewrite E, Ec2.
    + specialize (N3 k g Hg). lia.
    + unfold sc. rewrite s32_small by lia. lia.
Qed.

End Order.

(** ** Memory *)

(** The objects allocated for the functions *)
Definition cost (deps : list (list (list Z))) : nat := foldr (fun ds n => (1 + length ds + n)%nat) 0%nat deps.

Lemma cost_cons ds l : cost (ds :: l) = S (length ds + cost l).
Proof. done. Qed.
#[local] Arguments cost : simpl never.

Lemma run_free_deps ds s : runs (free_deps ds) s (fun _ s' => s' = set_kmem (length ds + kmem s) s).
Proof.
  revert s. induction ds as [|d ds IH]; intros s; cbn [free_deps]; [go; by destruct s|]. unfold kfree_one. go.
  eapply runs_mono; [apply IH|]. intros _ s' ->. destruct s. unfold set_kmem. simpl. f_equal. lia.
Qed.
Lemma run_free_loop fs s : runs (free_loop fs) s (fun _ s' => s' = set_kmem (cost (if_deps <$> fs) + kmem s) s).
Proof.
  revert s. induction fs as [|f fs IH]; intros s; cbn [free_loop]; [go; by destruct s|].
  eapply runs_step; [apply run_free_deps|]. intros _ s1 ->. unfold kfree_one. go.
  eapply runs_mono; [apply IH|]. intros _ s' ->. rewrite fmap_cons, cost_cons. destruct s. unfold set_kmem. simpl. f_equal. lia.
Qed.

(** ** Reading, whatever the section holds *)

Lemma word_in m buf w : word_at m buf = Some w -> 0 <= buf -> buf + 4 <= Z.of_nat (length m).
Proof.
  unfold word_at. intros H Hb. destruct (drop (Z.to_nat buf) m) as [|a [|b [|c [|d l]]]] eqn:E; try done.
  pose proof (f_equal length E) as Hl. rewrite length_drop in Hl. simpl in Hl. lia.
Qed.
Lemma strlen_nonneg s n : strlen s = Some n -> 0 <= n.
Proof. intros (t & _ & ->)%strlen_Some. lia. Qed.

(** The state but for the memory *)
Definition took (n : nat) (s s' : inits) : Prop := funcs s' = funcs s /\ called s' = called s /\ init_search_count s' = init_search_count s /\ (kmem s' + n)%nat = kmem s.

Lemma settles_kmalloc pan s (Q : unit -> inits -> Prop) : (kmem s = 0%nat -> pan) -> (forall s', took 1 s s' -> Q tt s') -> settles pan kmalloc_one s Q.
Proof.
  intros Hp HQ. unfold kmalloc_one. apply settles_bind, settles_get. destruct (kmem s) as [|n] eqn:E; [by apply Hp|]. apply HQ. split_and!; try done. simpl. lia.
Qed.

Lemma dep_loop_settles fuel m e buf deps s : 0 <= buf -> Z.max 0 (Z.of_nat (length m) - buf) < Z.of_nat fuel ->
  settles True (dep_loop fuel m e buf deps) s (fun r s' => buf <= fst r /\ exists ds, snd r = deps ++ ds /\ took (length ds) s s').
Proof.
  revert buf deps s. induction fuel as [|fuel IH]; intros buf deps s Hb Hf; [lia|]. cbn [dep_loop].
  apply settles_bind, settles_deref; [done|]. intros w Hw%word_in; [|done]. destruct ((w =? 0) && (buf <? e)).
  - apply settles_bind, settles_kmalloc; [done|]. intros s1 (A1 & A2 & A3 & A4). apply settles_bind, settles_deref; [done|]. intros n Hn%strlen_nonneg.
    eapply settles_mono; [apply IH; unfold sizeof_func; lia|]. unfold sizeof_func. intros r s2 (Hr & ds & Er & B1 & B2 & B3 & B4). split; [lia|].
    exists (string_at m (buf + 4) :: ds). split; [by rewrite Er, <- app_assoc|]. split_and!; try congruence. rewrite length_cons. lia.
  - unfold settles, kret. split; [simpl; lia|]. exists []. split; [by rewrite app_nil_r|]. split_and!; first [done|simpl; lia].
Qed.

(** As they are before the first search *)
Definition unsearched (f : init_function) : Prop := if_search f = 0 /\ if_called f = false.

Lemma func_loop_settles fuel m e buf s : 0 <= buf -> Z.max 0 (Z.of_nat (length m) - buf) < Z.of_nat fuel ->
  settles True (func_loop fuel m e buf) s (fun _ s' => called s' = called s /\ init_search_count s' = init_search_count s
    /\ exists fs, funcs s' = funcs s ++ fs /\ Forall unsearched fs /\ (kmem s' + cost (if_deps <$> fs))%nat = kmem s).
Proof.
  revert buf s. induction fuel as [|fuel IH]; intros buf s Hb Hf; [lia|]. cbn [func_loop]. destruct (buf <? e).
  - apply settles_bind, settles_kmalloc; [done|]. intros s1 (A1 & A2 & A3 & A4). apply settles_bind, settles_deref; [done|]. intros w Hw%word_in; [|done].
    apply settles_bind, settles_assert; [done|]. intros _. apply settles_bind, settles_deref; [done|]. intros n Hn%strlen_nonneg.
    eapply settles_step; [apply dep_loop_settles; unfold sizeof_func; lia|]. cbn beta. unfold sizeof_func. intros r s2 (Hr & ds & Er & B1 & B2 & B3 & B4).
    apply settles_bind, settles_modify. set (f := mk_if _ _ _ _ _). eapply settles_mono; [apply IH; lia|]. cbn beta.
    intros _ s3 (C1 & C2 & fs & C3 & C4 & C5). simpl in C1, C2, C3, C5. split_and!; [congruence..|]. exists (f :: fs).
    split_and!; [rewrite C3, B1, A1, <- app_assoc; done|by constructor|]. rewrite fmap_cons, cost_cons. simpl. rewrite Er. simpl. lia.
  - unfold settles, kret. split_and!; try done. exists []. rewrite app_nil_r. split_and!; [done|constructor|]. apply Nat.add_0_r.
Qed.

(** ** The section the build makes *)

Record entry : Type := mk_entry { e_func : Z; e_name : list Z; e_deps : list (list Z) }.

(** [init_func] and [init_depends]: a word and a string *)
Definition le32 (w : Z) : list Z := [w mod 256; w / 256 mod 256; w / 65536 mod 256; w / 16777216 mod 256].
Definition item (w : Z) (name : list Z) : list Z := le32 w ++ name ++ [NUL].
Definition dep_items (ds : list (list Z)) : list Z := concat (item 0 <$> ds).
Definition encode (e : entry) : list Z := item (e_func e) (e_name e) ++ dep_items (e_deps e).
Definition section (es : list entry) : list Z := concat (encode <$> es).

Definition name_ok (t : list Z) : Prop := NUL ∉ t /\ Forall is_char t.
Record entry_ok (e : entry) : Prop := {
  eo_func : 0 < e_func e < 2 ^ 32;
  eo_name : name_ok (e_name e);
  eo_deps : Forall name_ok (e_deps e)
}.

(** A structure read from an entry *)
Record reads (f : init_function) (e : entry) : Prop := {
  rs_func : if_func f = e_func e;
  rs_name : is_str (if_name f) (e_name e);
  rs_deps : Forall2 is_str (if_deps f) (e_deps e);
  rs_fresh : unsearched f
}.

Lemma byte_digits w : 0 <= w < 2 ^ 32 ->
  byte (w mod 256) + 256 * (byte (w / 256 mod 256) + 256 * (byte (w / 65536 mod 256) + 256 * byte (w / 16777216 mod 256))) = w.
Proof.
  intros Hw. unfold byte. rewrite !Z.mod_mod by lia.
  assert (E1 : w / 65536 = w / 256 / 256) by (by rewrite Z.div_div by lia). assert (E2 : w / 16777216 = w / 256 / 256 / 256) by (by rewrite !Z.div_div by lia).
  rewrite E1, E2. pose proof (Z.div_mod w 256 ltac:(lia)). pose proof (Z.div_mod (w / 256) 256 ltac:(lia)). pose proof (Z.div_mod (w / 256 / 256) 256 ltac:(lia)).
  rewrite (Z.mod_small (w / 256 / 256 / 256)); [lia|]. rewrite <- E2. split; [apply Z.div_pos; lia|]. apply Z.div_lt_upper_bound; lia.
Qed.

Section At.
Context (pre : list Z) (buf : Z) (Hbuf : buf = Z.of_nat (length pre)).

Lemma word_item w name rest : 0 <= w < 2 ^ 32 -> word_at (pre ++ item w name ++ rest) buf = Some w.
Proof. intros Hw. unfold word_at. rewrite Hbuf, Nat2Z.id, drop_app_length. simpl. by rewrite byte_digits. Qed.
Lemma word_any rest : (4 <= length rest)%nat -> exists w, word_at (pre ++ rest) buf = Some w.
Proof. intros Hl. unfold word_at. rewrite Hbuf, Nat2Z.id, drop_app_length. destruct rest as [|a [|b [|c [|d l]]]]; simpl in Hl; try lia. by eexists. Qed.
Lemma string_item w name rest : NUL ∉ name -> is_str (string_at (pre ++ item w name ++ rest) (buf + sizeof_func)) name.
Proof.
  intros Hn. unfold string_at, item. replace (pre ++ (le32 w ++ name ++ [NUL]) ++ rest) with ((pre ++ le32 w) ++ name ++ NUL :: rest) by (by rewrite <- !app_assoc).
  rewrite drop_app_length'; [by apply is_str_app|]. rewrite length_app, Hbuf. unfold sizeof_func. simpl. lia.
Qed.
Lemma item_end w name : buf + (sizeof_func + Z.of_nat (length name) + 1) = Z.of_nat (length (pre ++ item w name)).
Proof. unfold item, sizeof_func. rewrite !length_app, Hbuf. simpl. lia. Qed.
End At.

Lemma run_kmalloc s n (Q : unit -> inits -> Prop) : kmem s = S n -> (forall s', took 1 s s' -> Q tt s') -> runs kmalloc_one s Q.
Proof. intros E HQ. unfold kmalloc_one. go. rewrite E. go. apply HQ. split_and!; try done. simpl. lia. Qed.

(** The dependencies of a function end at the end of the section or with the next function. *)
Definition dep_stop (m : list Z) (e buf : Z) : Prop := exists w, word_at m buf = Some w /\ (w =? 0) && (buf <? e) = false.

Lemma run_dep_loop ds fuel m e pre rest acc s : (length ds < fuel)%nat -> m = pre ++ dep_items ds ++ rest -> Forall name_ok ds -> (length ds <= kmem s)%nat ->
  Z.of_nat (length (pre ++ dep_items ds)) <= e -> dep_stop m e (Z.of_nat (length (pre ++ dep_items ds))) ->
  runs (dep_loop fuel m e (Z.of_nat (length pre)) acc) s (fun r s' => fst r = Z.of_nat (length (pre ++ dep_items ds)) /\ took (length ds) s s'
    /\ exists ps, snd r = acc ++ ps /\ Forall2 is_str ps ds).
Proof.
  revert fuel pre acc s. induction ds as [|d ds IH]; intros [|fuel] pre acc s Hf Hm Hn Hk He Hstop; try (simpl in Hf; lia); cbn [dep_loop].
  - destruct Hstop as (w & Hw & Hend). change (dep_items []) with (@nil Z) in *. rewrite app_nil_r in *. rewrite Hw. go. rewrite Hend. go.
    split_and!; try done. exists []. split; [by rewrite app_nil_r|constructor].
  - apply Forall_cons in Hn as [[Hd1 Hd2] Hn]. change (dep_items (d :: ds)) with (item 0 d ++ dep_items ds) in *. rewrite <- app_assoc in Hm.
    rewrite app_assoc in He, Hstop. assert (Hlt : Z.of_nat (length pre) < e) by (rewrite !length_app in He; simpl in He; lia).
    rewrite Hm at 1. rewrite (word_item pre) by done. go. replace ((0 =? 0) && _) with true by lia. go.
    destruct (kmem s) as [|n] eqn:Ek; [simpl in Hk; lia|]. eapply run_kmalloc; [done|]. intros s1 (A1 & A2 & A3 & A4). go.
    pose proof (string_item pre _ eq_refl 0 d (dep_items ds ++ rest) Hd1) as Hstr. rewrite <- Hm in Hstr. rewrite (strlen_spec _ _ Hstr). go.
    rewrite (item_end pre _ eq_refl 0 d). eapply runs_mono; [apply (IH fuel (pre ++ item 0 d)); try done|].
    + simpl in Hf. lia.
    + by rewrite Hm, <- !app_assoc.
    + simpl in Hk. lia.
    + cbn beta. intros r s2 (B1 & (C1 & C2 & C3 & C4) & ps & B2 & B3). split_and!; [by rewrite B1, <- app_assoc|split_and!; try congruence; rewrite length_cons; lia|].
      exists (string_at m (Z.of_nat (length pre) + sizeof_func) :: ps). split; [by rewrite B2, <- app_assoc|by constructor].
Qed.

Lemma section_stop es after pre m : (4 <= length after)%nat -> Forall entry_ok es -> m = pre ++ section es ++ after ->
  dep_stop m (Z.of_nat (length (pre ++ section es))) (Z.of_nat (length pre)).
Proof.
  intros Ha Hes ->. destruct es as [|e es]; unfold dep_stop.
  - change (section []) with (@nil Z). rewrite app_nil_r. destruct (word_any pre _ eq_refl ([] ++ after)) as [w Hw]; [done|]. exists w. split; [done|].
    rewrite Z.ltb_irrefl. apply andb_false_r.
  - apply Forall_cons in Hes as [[Hf _ _] _]. exists (e_func e). split; [|by replace (e_func e =? 0) with false by lia].
    change (section (e :: es)) with (encode e ++ section es). unfold encode. rewrite <- !app_assoc. apply word_item; [done|lia].
Qed.

Lemma run_func_loop es fuel m pre after s : (length es < fuel)%nat -> (length m < fuel + length pre)%nat -> m = pre ++ section es ++ after -> (4 <= length after)%nat ->
  Forall entry_ok es -> (cost (e_deps <$> es) <= kmem s)%nat -> let e := Z.of_nat (length (pre ++ section es)) in
  runs (func_loop fuel m e (Z.of_nat (length pre))) s (fun r s' => r = e /\ called s' = called s /\ init_search_count s' = init_search_count s
    /\ exists fs, funcs s' = funcs s ++ fs /\ Forall2 reads fs es /\ (kmem s' + cost (e_deps <$> es))%nat = kmem s).
Proof.
  revert fuel pre s. induction es as [|x es IH]; intros [|fuel] pre s Hf Hf' Hm Ha Hes Hk e; try (simpl in Hf; lia); cbn [func_loop].
  - unfold e. change (section []) with (@nil Z). rewrite app_nil_r, Z.ltb_irrefl. go. split_and!; try done. exists []. rewrite app_nil_r.
    split_and!; [done|constructor|apply Nat.add_0_r].
  - rewrite fmap_cons, cost_cons in Hk |- *. pose proof Hes as [[Hfn [Hn1 Hn2] Hd] Hes']%Forall_cons.
    assert (Ee : pre ++ section (x :: es) = (pre ++ item (e_func x) (e_name x)) ++ dep_items (e_deps x) ++ section es).
    { change (section (x :: es)) with (encode x ++ section es). unfold encode. by rewrite <- !app_assoc. }
    assert (Em : m = pre ++ item (e_func x) (e_name x) ++ dep_items (e_deps x) ++ section es ++ after).
    { rewrite Hm. change (section (x :: es)) with (encode x ++ section es). unfold encode. by rewrite <- !app_assoc. }
    assert (Hlt : Z.of_nat (length pre) < e) by (unfold e; rewrite Ee, !length_app; simpl; lia).
    rewrite (proj2 (Z.ltb_lt _ _) Hlt). destruct (kmem s) as [|n] eqn:Ek; [lia|]. go. eapply run_kmalloc; [done|]. intros s1 (A1 & A2 & A3 & A4). go.
    rewrite Em at 1. rewrite (word_item pre) by (done || lia). go. apply runs_assert; [by replace (e_func x =? 0) with false by lia|]. go.
    pose proof (string_item pre _ eq_refl (e_func x) (e_name x) (dep_items (e_deps x) ++ section es ++ after) Hn1) as Hstr. rewrite <- Em in Hstr.
    rewrite (strlen_spec _ _ Hstr). go. rewrite (item_end pre _ eq_refl (e_func x) (e_name x)).
    assert (Hlen : (length (e_deps x) <= length (dep_items (e_deps x)))%nat).
    { clear. induction (e_deps x) as [|d ds IH]; [done|]. change (dep_items (d :: ds)) with (item 0 d ++ dep_items ds). rewrite length_app. simpl. lia. }
    assert (Hml : length m = length (((pre ++ item (e_func x) (e_name x)) ++ dep_items (e_deps x)) ++ section es ++ after)) by (by rewrite Em, <- !app_assoc).
    rewrite !length_app in Hml. assert (Hi : (5 <= length (item (e_func x) (e_name x)))%nat) by (unfold item; rewrite !length_app; simpl; lia).
    eapply runs_mono; [apply (run_dep_loop (e_deps x) _ m e (pre ++ item (e_func x) (e_name x)) (section es ++ after) [] s1); try done|].
    + lia.
    + by rewrite Em, <- !app_assoc.
    + lia.
    + unfold e. rewrite Ee, !length_app. lia.
    + unfold e. rewrite Ee, app_assoc. apply section_stop with (after := after); try done. by rewrite Em, <- !app_assoc.
    + cbn beta. intros r s2 (B1 & (C1 & C2 & C3 & C4) & ps & B2 & B3). go. set (f := mk_if _ _ _ _ _). set (s3 := set_funcs _ s2). rewrite B1.
      unfold e. rewrite Ee, app_assoc. eapply runs_mono; [apply (IH fuel _ s3); try done|].
      * simpl in Hf. lia.
      * rewrite !length_app. lia.
      * by rewrite Em, <- !app_assoc.
      * simpl. lia.
      * cbn beta. intros r' s4 (D1 & D2 & D3 & fs & D4 & D5 & D6). simpl in D2, D3, D4, D6. split_and!; [done|congruence|congruence|]. exists (f :: fs).
        split_and!; [rewrite D4, C1, A1, <- app_assoc; done| |lia]. constructor; [|done]. split; try done. simpl. rewrite B2. done.
Qed.

Lemma section_length es : (length es <= length (section es))%nat.
Proof.
  induction es as [|e es IH]; [done|]. change (section (e :: es)) with (encode e ++ section es). unfold encode, item. rewrite !length_app. simpl. lia.
Qed.
Lemma reads_unsearched fs es : Forall2 reads fs es -> Forall unsearched fs.
Proof. induction 1 as [|f e fs es [_ _ _ H] _ IH]; by constructor. Qed.
Lemma reads_cost fs es : Forall2 reads fs es -> cost (if_deps <$> fs) = cost (e_deps <$> es).
Proof. induction 1 as [|f e fs es [_ _ H _] _ IH]; [done|]. rewrite !fmap_cons, !cost_cons, IH. by rewrite (Forall2_length _ _ _ H). Qed.

(** ** Names *)

(** The first entry with a name, and for each entry what its dependencies are *)
Definition resolve (es : list entry) (d : list Z) : option nat := fst <$> list_find (fun e => e_name e = d) es.
Definition deps_table (es : list entry) : list (list (option (option nat))) := (fun e => (fun d => Some (resolve es d)) <$> e_deps e) <$> es.

Lemma find_func_resolve d t fs es : is_str d t -> Forall is_char t -> Forall2 reads fs es -> Forall entry_ok es ->
  find_func d (if_name <$> fs) = Some (resolve es t).
Proof.
  intros Hd Ht H. induction H as [|f e fs es [_ Hn _ _] _ IH]; intros Ho; [done|]. apply Forall_cons in Ho as [[_ [_ Hc] _] Ho].
  rewrite fmap_cons. cbn [find_func]. destruct (strcmp_zero d t (if_name f) (e_name e) Hd Hn Ht Hc) as (r & -> & Hr). cbn [mbind option_bind].
  unfold resolve. cbn [list_find]. destruct (decide (e_name e = t)) as [E|E].
  - replace (r =? 0) with true by (symmetry; apply Z.eqb_eq, Hr; done). done.
  - replace (r =? 0) with false by (symmetry; apply Z.eqb_neq; intros E0; apply E; symmetry; by apply Hr). rewrite (IH Ho). unfold resolve.
    destruct (list_find _ es) as [[k x]|]; done.
Qed.

Lemma table_resolve fs es : Forall2 reads fs es -> Forall entry_ok es -> table_of fs = deps_table es.
Proof.
  intros H Ho. unfold table_of, deps_table. assert (Hg : forall d t, is_str d t -> name_ok t -> find_func d (if_name <$> fs) = Some (resolve es t)).
  { intros d t Hd [_ Ht]. by apply find_func_resolve. }
  generalize dependent (resolve es). generalize (if_name <$> fs). intros ns rs Hg.
  induction H as [|f e fs es [_ _ Hd _] _ IH]; [done|]. apply Forall_cons in Ho as [[_ _ Hds] Ho]. rewrite !fmap_cons, (IH Ho). f_equal. unfold row_of. clear IH.
  induction Hd as [|d t ds ts Hdt _ IH]; [done|]. apply Forall_cons in Hds as [Ht Hds]. by rewrite !fmap_cons, (Hg d t Hdt Ht), (IH Hds).
Qed.

Lemma ready_start T s : called s = [] -> Forall unsearched (funcs s) -> table_of (funcs s) = T -> ready T s.
Proof.
  intros Hc Hu <-. split; [done| |rewrite Hc; constructor]. intros i f Hi. rewrite Hc. rewrite Forall_lookup in Hu. destruct (Hu i f Hi) as [_ ->].
  split; [done|]. by intros []%elem_of_nil.
Qed.

Lemma all_called T l n : ordered T l -> length T = n -> (forall i, (i < n)%nat -> i ∈ l) -> l ≡ₚ seq 0 n.
Proof.
  intros Ho Hn Hall. apply NoDup_Permutation; [by eapply ordered_nodup|apply NoDup_seq|]. intros i. rewrite elem_of_seq. split; [|intros [_ Hi]; by apply Hall].
  intros Hi. split; [lia|]. clear Hall. induction Ho as [|k row l Hk _ _ _ IH]; [by apply elem_of_nil in Hi|]. apply elem_of_cons in Hi as [->|Hi]; [|by apply IH].
  apply lookup_lt_Some in Hk. lia.
Qed.

(** The searches and giving the memory back *)
Lemma call_and_free pan T s : ready T s -> (pan \/ ((~ pan) /\ numbered (length (funcs s)) s /\ forall i, (i < length (funcs s))%nat -> exists b, below T i b /\ NoDup (i :: b))) ->
  settles pan (s <- kget ;; call_loop (seq 0 (length (funcs s))) ;;; s <- kget ;; free_loop (funcs s) ;;; kmodify (set_funcs [])) s
    (fun _ s' => called s' ≡ₚ seq 0 (length (funcs s)) /\ ordered T (called s') /\ kmem s' = (kmem s + cost (if_deps <$> funcs s))%nat).
Proof.
  intros R Hok. apply settles_bind, settles_get. eapply settles_step; [apply (call_loop_settles T pan); [done| |]|].
  - intros i [_ Hi]%elem_of_seq. by apply lookup_lt_is_Some_2.
  - destruct Hok as [|(Hp & Hn & Hb)]; [by left|]. right. rewrite length_seq. split_and!; try done. intros i [_ Hi]%elem_of_seq. by apply Hb.
  - cbn beta. intros _ s1 [[R1 D1 _ K1] Hc]. apply settles_bind, settles_get.
    destruct (run_free_loop (funcs s1) s1) as ([] & s2 & E & ->). unfold settles, kbind at 1. rewrite E. simpl.
    split_and!; [|apply R1|by rewrite D1, K1, Nat.add_comm]. eapply all_called; [apply R1| |].
    + rewrite <- (rd_table _ _ R). unfold table_of. by rewrite length_fmap.
    + intros i Hi. apply Hc, elem_of_seq. lia.
Qed.

Lemma settles_eq {S A} pan (m : kernel S A) s (Q : A -> S -> Prop) : settles pan m s Q -> settles pan m s (fun a s' => Q a s' /\ m s = Done a s').
Proof. unfold settles. by destruct (m s). Qed.

(** ** The theorems *)

(** C26: whatever memory holds, [init_call_all] stops: it panics, or it returns, has called every function it read
    from the section exactly once, each after all the functions it names as its dependencies, and has given back
    all the memory it took. *)
Theorem init_call_all_order m e s : called s = [] ->
  settles True (init_call_all m e) s (fun _ s' => kmem s' = kmem s
    /\ exists buf s1, func_loop (S (length m)) m e 0 (set_funcs [] s) = Done buf s1
       /\ called s' ≡ₚ seq 0 (length (funcs s1)) /\ ordered (table_of (funcs s1)) (called s')).
Proof.
  intros Hc. unfold init_call_all. apply settles_bind, settles_modify. eapply settles_step; [apply settles_eq, func_loop_settles; lia|]. cbn beta.
  intros buf s1 [(E1 & _ & fs & E2 & E3 & E4) E]. simpl in E1, E2, E4. apply settles_bind, settles_assert; [done|]. intros _.
  eapply settles_mono; [apply (call_and_free True (table_of (funcs s1))); [apply ready_start; [congruence|by rewrite E2|done]|by left]|].
  cbn beta. intros _ s' (H1 & H2 & H3). split; [rewrite H3, E2; lia|]. by exists buf, s1.
Qed.

(** reading the section that [init_func] and [init_depends] make of the entries gives the entries back: every
    function with its name and its dependencies, in order, up to the end of the section. *)
Theorem init_section_roundtrip es after s : Forall entry_ok es -> (4 <= length after)%nat -> (cost (e_deps <$> es) <= kmem s)%nat ->
  runs (func_loop (S (length (section es ++ after))) (section es ++ after) (Z.of_nat (length (section es))) 0) (set_funcs [] s)
    (fun r s' => r = Z.of_nat (length (section es)) /\ Forall2 reads (funcs s') es).
Proof.
  intros Ho Ha Hk. assert (Hl : (length es <= length (section es))%nat) by apply section_length.
  eapply runs_mono; [apply (run_func_loop es _ (section es ++ after) [] after (set_funcs [] s)); try done; rewrite ?length_app; simpl; lia|].
  cbn beta. intros r s' (-> & _ & _ & fs & -> & H & _). by split.
Qed.

(** C27: if no two chains of dependencies lead from a function to the same function, and memory suffices,
    [init_call_all] returns and has called every function exactly once and after its dependencies. *)
Theorem init_call_all_returns es after s : Forall entry_ok es -> (4 <= length after)%nat -> (cost (e_deps <$> es) <= kmem s)%nat ->
  called s = [] -> init_search_count s = 0 -> Z.of_nat (length es) < 2 ^ 31 ->
  (forall i, (i < length es)%nat -> exists b, below (deps_table es) i b /\ NoDup (i :: b)) ->
  runs (init_call_all (section es ++ after) (Z.of_nat (length (section es)))) s (fun _ s' =>
    called s' ≡ₚ seq 0 (length es) /\ ordered (deps_table es) (called s') /\ kmem s' = kmem s).
Proof.
  intros Ho Ha Hk Hc Hn He Hb. unfold init_call_all. go. assert (Hl : (length es <= length (section es))%nat) by apply section_length.
  eapply runs_mono; [apply (run_func_loop es _ (section es ++ after) [] after (set_funcs [] s)); try done; rewrite ?length_app; simpl; lia|].
  cbn beta. intros r s1 (-> & E1 & E2 & fs & E3 & E4 & E5). simpl in E1, E2, E3, E5. apply runs_bind, runs_assert; [apply Z.eqb_refl|].
  apply settles_runs. pose proof (Forall2_length _ _ _ E4) as Hlen. pose proof (reads_unsearched _ _ E4) as Hu.
  eapply settles_mono; [apply (call_and_free False (deps_table es)); [apply ready_start; [congruence|by rewrite E3|rewrite E3; by apply table_resolve]|]|].
  - right. unfold numbered. rewrite E3, Hlen, E2, Hn. split_and!; [tauto|lia|lia| |done]. intros k g Hg. rewrite Forall_lookup in Hu. destruct (Hu k g Hg) as [-> _]. lia.
  - cbn beta. rewrite E3, Hlen. intros _ s' (H1 & H2 & H3). split_and!; try done. rewrite H3, (reads_cost _ _ E4). lia.
Qed.

(** ** Some functions of the kernel *)

Definition sched_init_name : list Z := [115; 99; 104; 101; 100; 95; 105; 110; 105; 116].
Definition vnode_init_name : list Z := [118; 110; 111; 100; 101; 95; 105; 110; 105; 116].
Definition file_init_name : list Z := [102; 105; 108; 101; 95; 105; 110; 105; 116].
Definition vfs_init_name : list Z := [118; 102; 115; 95; 105; 110; 105; 116].
Definition pageoutd_init_name : list Z := [112; 97; 103; 101; 111; 117; 116; 100; 95; 105; 110; 105; 116].
Definition boot_entries : list entry :=
  [mk_entry 0xc0101000 vfs_init_name [vnode_init_name; file_init_name]; mk_entry 0xc0102000 vnode_init_name []; mk_entry 0xc0103000 file_init_name [];
   mk_entry 0xc0104000 pageoutd_init_name [sched_init_name]; mk_entry 0xc0105000 sched_init_name []].
Definition boot_after : list Z := [0; 0; 0; 0].
Definition boot_state : inits := mk_inits [] 0 100 [].

Definition name_okb (t : list Z) : bool := forallb (fun c => negb (c =? 0) && (-128 <=? c) && (c <? 128)) t.
Lemma name_okb_ok t : name_okb t = true -> name_ok t.
Proof.
  unfold name_okb. rewrite forallb_forall. intros H. split.
  - intros Hin%list_elem_of_In%H. done.
  - apply Forall_forall. intros c Hc%list_elem_of_In%H. unfold is_char. lia.
Qed.
Definition entry_okb (e : entry) : bool := (0 <? e_func e) && (e_func e <? 2 ^ 32) && name_okb (e_name e) && forallb name_okb (e_deps e).
Lemma entries_okb es : forallb entry_okb es = true -> Forall entry_ok es.
Proof.
  rewrite forallb_forall. intros H. apply Forall_forall. intros e He%list_elem_of_In%H.
  apply andb_true_iff in He as [[He Hn]%andb_true_iff Hd]. split; [lia|by apply name_okb_ok|].
  rewrite forallb_forall in Hd. apply Forall_forall. intros d Hin%list_elem_of_In%Hd. by apply name_okb_ok.
Qed.

Lemma boot_chains i : (i < 5)%nat -> exists b, below (deps_table boot_entries) i b /\ NoDup (i :: b).
Proof.
  assert (H1 : below (deps_table boot_entries) 1 []) by (eapply below_intro; [reflexivity|constructor]).
  assert (H2 : below (deps_table boot_entries) 2 []) by (eapply below_intro; [reflexivity|constructor]).
  assert (H4 : below (deps_table boot_entries) 4 []) by (eapply below_intro; [reflexivity|constructor]).
  intros Hi. destruct i as [|[|[|[|[|i]]]]]; [| | | | |lia].
  - exists [1; 2]%nat. split; [|by apply (bool_decide_unpack _)]. eapply below_intro; [reflexivity|]. apply (below_cons _ 1 _ [] [2%nat]); [done|]. apply (below_cons _ 2 _ [] []); [done|constructor].
  - exists []. split; [done|apply NoDup_singleton].
  - exists []. split; [done|apply NoDup_singleton].
  - exists [4]%nat. split; [|by apply (bool_decide_unpack _)]. eapply below_intro; [reflexivity|]. apply (below_cons _ 4 _ [] []); [done|constructor].
  - exists []. split; [done|apply NoDup_singleton].
Qed.

Lemma init_call_all_order_witness : settles True (init_call_all (section boot_entries ++ boot_after) (Z.of_nat (length (section boot_entries)))) boot_state
  (fun _ s' => kmem s' = kmem boot_state /\ exists buf s1, func_loop (S (length (section boot_entries ++ boot_after))) (section boot_entries ++ boot_after)
       (Z.of_nat (length (section boot_entries))) 0 (set_funcs [] boot_state) = Done buf s1
     /\ called s' ≡ₚ seq 0 (length (funcs s1)) /\ ordered (table_of (funcs s1)) (called s')).
Proof. apply init_call_all_order. reflexivity. Defined.

Lemma init_section_roundtrip_witness : runs (func_loop (S (length (section boot_entries ++ boot_after))) (section boot_entries ++ boot_after)
    (Z.of_nat (length (section boot_entries))) 0) (set_funcs [] boot_state)
  (fun r s' => r = Z.of_nat (length (section boot_entries)) /\ Forall2 reads (funcs s') boot_entries).
Proof. apply init_section_roundtrip; [apply entries_okb; reflexivity|simpl; lia|vm_compute; lia]. Defined.

Lemma init_call_all_returns_witness : runs (init_call_all (section boot_entries ++ boot_after) (Z.of_nat (length (section boot_entries)))) boot_state
  (fun _ s' => called s' ≡ₚ seq 0 5 /\ ordered (deps_table boot_entries) (called s') /\ kmem s' = 100%nat).
Proof.
  apply (init_call_all_returns boot_entries boot_after boot_state);
    [apply entries_okb; reflexivity|simpl; lia|vm_compute; lia|reflexivity|reflexivity|reflexivity|exact boot_chains].
Defined.

(** The functions of the section of that start-up, in the order they are called *)
Example boot_order : match init_call_all (section boot_entries ++ boot_after) (Z.of_nat (length (section boot_entries))) boot_state with
  | Done _ s' => rev (called s') = [1; 2; 0; 4; 3]%nat
  | _ => False
  end.
Proof. vm_compute. reflexivity. Qed.

(** *** Two chains to the same function

    A function that two functions depend on, of which one depends on the other, is no circle; but when the search
    comes to it the second time it has the number of the search and is taken for one.  Whether the kernel starts
    then depends on the order of the section. *)
Definition diamond (order : list nat) : list entry :=
  let all := [mk_entry 1 [97] [[98]; [99]]; mk_entry 2 [98] []; mk_entry 3 [99] [[98]]] in omap (fun i => all !! i) order.

Example diamond_panics : init_call_all (section (diamond [0; 1; 2]%nat) ++ boot_after) (Z.of_nat (length (section (diamond [0; 1; 2]%nat)))) boot_state = Panic.
Proof. vm_compute. reflexivity. Qed.
Example diamond_returns : match init_call_all (section (diamond [1; 2; 0]%nat) ++ boot_after) (Z.of_nat (length (section (diamond [1; 2; 0]%nat)))) boot_state with
  | Done _ s' => rev (called s') = [0; 1; 2]%nat
  | _ => False
  end.
Proof. vm_compute. reflexivity. Qed.

End InitSpec.
