(* ===== verification/Printf.v ===== *)
(** * Formatted output and input ([util/printf.c], [include/ctype.h])

    Characters are values of a signed [char]; a string is the part of an array from the
    character pointed to on, as in [KString].  The buffer written to is at an address in
    memory, a finite map from the addresses that may be written to their bytes; writing
    elsewhere has no value.  [va_list] is the list of the 32-bit words of the arguments;
    a pointer to a string designates an array in [arrays], which are not written; what is
    stored through the pointers of [%n] and of [vsscanf] is returned. *)

From S2P Require Import Prelude KString.

Module Printf.
Import KString.

Local Open Scope Z_scope.

(** ** Character classes *)

Definition _U : Z := 0x01.
Definition _L : Z := 0x02.
Definition _D : Z := 0x04.
Definition _C : Z := 0x08.
Definition _P : Z := 0x10.
Definition _S : Z := 0x20.
Definition _X : Z := 0x40.
Definition _SP : Z := 0x80.

Definition _ctype : list Z :=
  replicate 9 _C ++ replicate 5 (Z.lor _C _S) ++ replicate 18 _C
  ++ [Z.lor _S _SP] ++ replicate 15 _P ++ replicate 10 _D ++ replicate 7 _P
  ++ replicate 6 (Z.lor _U _X) ++ replicate 20 _U ++ replicate 6 _P
  ++ replicate 6 (Z.lor _L _X) ++ replicate 20 _L ++ replicate 4 _P ++ [_C]
  ++ replicate 32 0 ++ [Z.lor _S _SP] ++ replicate 31 _P
  ++ replicate 23 _U ++ [_P] ++ replicate 7 _U ++ replicate 24 _L ++ [_P] ++ replicate 8 _L.

Definition ismask (c : Z) : Z := default 0 (_ctype !! Z.to_nat (c mod 2 ^ 8)).
Definition has_class (c m : Z) : bool := negb (Z.land (ismask c) m =? 0).
Definition isdigit (c : Z) : bool := has_class c _D.
Definition islower (c : Z) : bool := has_class c _L.
Definition isspace (c : Z) : bool := has_class c _S.
Definition isxdigit (c : Z) : bool := has_class c (Z.lor _D _X).
Definition toupper (c : Z) : Z := let c := c mod 2 ^ 8 in if islower c then (c - 32) mod 2 ^ 8 else c.

(** ** Reading numbers *)

Definition digit_value (c : Z) : Z := if isdigit c then c - 48 else toupper c - 65 + 10.

(** The loop of [simple_strtoul], with numbers of [w] bits: the result and [*endp] *)
Fixpoint strtoul_loop (w base : Z) (cp : list Z) (result : Z) : option (Z * list Z) :=
  match cp with
  | [] => None
  | c :: cp' =>
      if isxdigit c && (digit_value c <? base) then strtoul_loop w base cp' ((result * base + digit_value c) mod 2 ^ w)
      else Some (result, cp)
  end.

(** The base of a number whose base is not given, and where its digits begin *)
Definition detect_base (cp : list Z) : option (Z * list Z) :=
  match cp with
  | [] => None
  | c :: cp1 =>
      if c =? 48 then
        match cp1 with
        | [] => None
        | x :: cp2 =>
            if x =? 120 then
              match cp2 with
              | [] => None
              | d :: _ => if isxdigit d then Some (16, cp2) else Some (8, cp1)
              end
            else Some (8, cp1)
        end
      else Some (10, cp)
  end.
Definition strto (w : Z) (cp : list Z) (base : Z) : option (Z * list Z) :=
  '(base, cp) ← (if base =? 0 then detect_base cp else Some (base, cp));
  strtoul_loop w base cp 0.

Definition simple_strtoul (cp : list Z) (base : Z) : option (Z * list Z) := strto 32 cp base.
Definition simple_strtol (cp : list Z) (base : Z) : option (Z * list Z) :=
  match cp with
  | [] => None
  | c :: cp' => if c =? 45 then '(r, e) ← simple_strtoul cp' base; Some (s32 (- r), e) else '(r, e) ← simple_strtoul cp base; Some (s32 r, e)
  end.
Definition simple_strtoull (cp : list Z) (base : Z) : option (Z * list Z) := strto 64 cp base.
Definition simple_strtoll (cp : list Z) (base : Z) : option (Z * list Z) :=
  match cp with
  | [] => None
  | c :: cp' => if c =? 45 then '(r, e) ← simple_strtoull cp' base; Some (s64 (- r), e) else '(r, e) ← simple_strtoull cp base; Some (s64 r, e)
  end.

Fixpoint skip_atoi (s : list Z) (i : Z) : option (Z * list Z) :=
  match s with
  | [] => None
  | c :: s' => if isdigit c then skip_atoi s' (s32 (i * 10 + c - 48)) else Some (i, s)
  end.

(** ** Writing *)

Record out : Type := mk_out {
  o_str : Z;                    (** [str], or [buf] in [number] *)
  o_mem : gmap Z Z
}.

Definition store (m : gmap Z Z) (a c : Z) : option (gmap Z Z) := if decide (is_Some (m !! a)) then Some (<[a := c]> m) else None.

(** [if (str <= end) *str = c; ++str;] *)
Definition put (end_ c : Z) (o : out) : option out :=
  m ← (if o_str o <=? end_ then store (o_mem o) (o_str o) c else Some (o_mem o));
  Some (mk_out (u32 (o_str o + 1)) m).
Fixpoint put_n (end_ c : Z) (n : nat) (o : out) : option out :=
  match n with
  | O => Some o
  | S n => o ← put end_ c o; put_n end_ c n o
  end.
Fixpoint put_all (end_ : Z) (cs : list Z) (o : out) : option out :=
  match cs with
  | [] => Some o
  | c :: cs => o ← put end_ c o; put_all end_ cs o
  end.

(** [while (n-- > 0)]: what the loop leaves in [n] *)
Definition run_down (n : Z) : Z := if 0 <? n then -1 else s32 (n - 1).

(** ** Numbers *)

Definition ZEROPAD : Z := 1.
Definition SIGN : Z := 2.
Definition PLUS : Z := 4.
Definition SPACE : Z := 8.
Definition LEFT : Z := 16.
Definition SPECIAL : Z := 32.
Definition LARGE : Z := 64.
Definition flag (type f : Z) : bool := negb (Z.land type f =? 0).

Definition small_digits : list Z := seqZ 48 10 ++ seqZ 97 26.
Definition large_digits : list Z := seqZ 48 10 ++ seqZ 65 26.
Definition digit_at (digits : list Z) (i : Z) : Z := default 0 (digits !! Z.to_nat i).
Definition sizeof_tmp : nat := 66.

(** The digits of a number, the lowest first; [tmp] has room for [sizeof_tmp]. *)
Fixpoint digit_loop (fuel : nat) (digits : list Z) (base num2 : Z) (tmp : list Z) : option (list Z) :=
  match fuel with
  | O => None
  | S fuel =>
      if num2 =? 0 then Some tmp
      else if decide (length tmp < sizeof_tmp)%nat then digit_loop fuel digits base (num2 / base) (tmp ++ [digit_at digits (num2 mod base)])
      else None
  end.

(** The character for the sign (0 for none), the number without it, and the room left *)
Definition sign_of (type num size : Z) : Z * Z * Z :=
  if flag type SIGN then
    if num <? 0 then (45, s64 (- num), s32 (size - 1))
    else if flag type PLUS then (43, num, s32 (size - 1))
    else if flag type SPACE then (32, num, s32 (size - 1))
    else (0, num, size)
  else (0, num, size).

Definition put_prefix (end_ base type : Z) (digits : list Z) (o : out) : option out :=
  if flag type SPECIAL then
    if base =? 8 then put end_ 48 o
    else if base =? 16 then o ← put end_ 48 o; put end_ (digit_at digits 33) o
    else Some o
  else Some o.

Definition number (o : out) (end_ num base size precision type : Z) : option out :=
  let digits := if flag type LARGE then large_digits else small_digits in
  let type := if flag type LEFT then Z.land type (Z.lnot ZEROPAD) else type in
  if (base <? 2) || (36 <? base) then Some o
  else
    let c := if flag type ZEROPAD then 48 else 32 in
    let '(sign, num, size) := sign_of type num size in
    let size := if flag type SPECIAL then if base =? 16 then s32 (size - 2) else if base =? 8 then s32 (size - 1) else size else size in
    tmp ← (if num =? 0 then Some [48] else digit_loop (S sizeof_tmp) digits base (num mod 2 ^ 64) []);
    let i := Z.of_nat (length tmp) in
    let precision := if precision <? i then i else precision in
    let size := s32 (size - precision) in
    let pad_left := negb (flag type (ZEROPAD + LEFT)) in
    o ← (if pad_left then put_n end_ 32 (Z.to_nat size) o else Some o);
    let size := if pad_left then run_down size else size in
    o ← (if sign =? 0 then Some o else put end_ sign o);
    o ← put_prefix end_ base type digits o;
    o ← (if negb (flag type LEFT) then put_n end_ c (Z.to_nat size) o else Some o);
    let size := if negb (flag type LEFT) then run_down size else size in
    o ← put_n end_ 48 (Z.to_nat (precision - i)) o;
    o ← put_all end_ (rev tmp) o;
    put_n end_ 32 (Z.to_nat size) o.

(** ** Conversions *)

Definition va_int (args : list Z) : option (Z * list Z) := match args with w :: args => Some (s32 w, args) | [] => None end.
Definition va_uint (args : list Z) : option (Z * list Z) := match args with w :: args => Some (u32 w, args) | [] => None end.
Definition va_llong (args : list Z) : option (Z * list Z) :=
  match args with lo :: hi :: args => Some (s64 (u32 lo + 2 ^ 32 * u32 hi), args) | _ => None end.

Record directive : Type := mk_dir {
  d_flags : Z;
  d_width : Z;
  d_precision : Z;
  d_qualifier : Z               (** a character, or -1 *)
}.

(** From [repeat:] on *)
Fixpoint flag_loop (fmt : list Z) (flags : Z) : option (Z * list Z) :=
  match fmt with
  | [] => None
  | c :: fmt' =>
      if c =? 45 then flag_loop fmt' (Z.lor flags LEFT)
      else if c =? 43 then flag_loop fmt' (Z.lor flags PLUS)
      else if c =? 32 then flag_loop fmt' (Z.lor flags SPACE)
      else if c =? 35 then flag_loop fmt' (Z.lor flags SPECIAL)
      else if c =? 48 then flag_loop fmt' (Z.lor flags ZEROPAD)
      else Some (flags, fmt)
  end.

(** The flags with what a negative width adds, the width, the rest of the format and of the arguments *)
Definition get_width (fmt : list Z) (flags : Z) (args : list Z) : option (Z * Z * list Z * list Z) :=
  match fmt with
  | [] => None
  | c :: fmt' =>
      if isdigit c then '(n, fmt) ← skip_atoi fmt 0; Some (flags, n, fmt, args)
      else if c =? 42 then
        '(n, args) ← va_int args;
        if n <? 0 then Some (Z.lor flags LEFT, s32 (- n), fmt', args) else Some (flags, n, fmt', args)
      else Some (flags, -1, fmt, args)
  end.

Definition get_precision (fmt : list Z) (args : list Z) : option (Z * list Z * list Z) :=
  match fmt with
  | [] => None
  | c :: fmt' =>
      if c =? 46 then
        match fmt' with
        | [] => None
        | d :: fmt2 =>
            '(n, fmt, args) ← (if isdigit d then '(n, fmt) ← skip_atoi fmt' 0; Some (n, fmt, args)
                               else if d =? 42 then '(n, args) ← va_int args; Some (n, fmt2, args)
                               else Some (-1, fmt', args));
            Some (if n <? 0 then 0 else n, fmt, args)
        end
      else Some (-1, fmt, args)
  end.

Definition get_qualifier (fmt : list Z) : option (Z * list Z) :=
  match fmt with
  | [] => None
  | c :: fmt' =>
      '(q, fmt) ← (if (c =? 104) || (c =? 108) || (c =? 76) || (c =? 90) then
                     match fmt' with
                     | [] => None
                     | d :: fmt2 => if (c =? 108) && (d =? 108) then Some (76, fmt2) else Some (c, fmt')
                     end
                   else Some (-1, fmt));
      match fmt with
      | [] => None
      | d :: fmt' => if d =? 113 then Some (76, fmt') else Some (q, fmt)
      end
  end.

(** What stands between a percent sign and its conversion character *)
Definition get_directive (fmt args : list Z) : option (directive * list Z * list Z) :=
  '(flags, fmt) ← flag_loop fmt 0;
  '(flags, width, fmt, args) ← get_width fmt flags args;
  '(precision, fmt, args) ← get_precision fmt args;
  '(qualifier, fmt) ← get_qualifier fmt;
  Some (mk_dir flags width precision qualifier, fmt, args).

(** [while (--n > 0)] and [while (len < n--)]: how often, and what is left in [n] *)
Definition pre_count (n : Z) : nat := Z.to_nat (s32 (n - 1)).
Definition pre_down (n : Z) : Z := if 0 <? s32 (n - 1) then 0 else s32 (n - 1).
Definition over_count (len n : Z) : nat := Z.to_nat (n - len).
Definition over_down (len n : Z) : Z := s32 ((if len <? n then len else n) - 1).

(** [strnlen] with a limit of [size_t]: it is never larger than the array. *)
Definition strnlen_sz (s : list Z) (n : Z) : option Z := strnlen s (Z.to_nat (Z.min (u32 n) (Z.of_nat (S (length s))))).

Definition put_char (end_ c : Z) (d : directive) (o : out) : option out :=
  let left := flag (d_flags d) LEFT in
  let width := d_width d in
  o ← (if negb left then put_n end_ 32 (pre_count width) o else Some o);
  let width := if negb left then pre_down width else width in
  o ← put end_ c o;
  put_n end_ 32 (pre_count width) o.

Definition put_string (end_ : Z) (s : list Z) (d : directive) (o : out) : option out :=
  len ← strnlen_sz s (d_precision d);
  let left := flag (d_flags d) LEFT in
  let width := d_width d in
  o ← (if negb left then put_n end_ 32 (over_count len width) o else Some o);
  let width := if negb left then over_down len width else width in
  o ← put_all end_ (take (Z.to_nat len) s) o;
  put_n end_ 32 (over_count len width) o.

(** ["<NULL>"] *)
Definition null_string : list Z := [60; 78; 85; 76; 76; 62; NUL].

(** The argument of an integer conversion, as the code keeps it in [num] *)
Definition get_num (d : directive) (args : list Z) : option (Z * list Z) :=
  let sign := flag (d_flags d) SIGN in
  if d_qualifier d =? 76 then '(n, args) ← va_llong args; Some (n mod 2 ^ 64, args)
  else if d_qualifier d =? 108 then '(n, args) ← va_uint args; Some ((if sign then s32 n else n) mod 2 ^ 64, args)
  else if d_qualifier d =? 90 then va_uint args
  else if d_qualifier d =? 104 then
    '(n, args) ← va_int args;
    let n := n mod 2 ^ 16 in
    Some ((if sign then (n + 2 ^ 15) mod 2 ^ 16 - 2 ^ 15 else n) mod 2 ^ 64, args)
  else '(n, args) ← va_uint args; Some ((if sign then s32 n else n) mod 2 ^ 64, args).

Definition add_flag (f : Z) (d : directive) : directive := mk_dir (Z.lor (d_flags d) f) (d_width d) (d_precision d) (d_qualifier d).
Definition put_number (end_ base : Z) (d : directive) (args : list Z) (o : out) : option (out * list Z) :=
  '(num, args) ← get_num d args;
  o ← number o end_ (s64 num) base (d_width d) (d_precision d) (d_flags d);
  Some (o, args).

Record progress : Type := mk_prog {
  pr_out : out;
  pr_args : list Z;
  pr_stores : list (Z * Z)      (** the pointers of [%n] and what is stored there, the last first *)
}.

Section Arrays.
Context (arrays : gmap Z (list Z)).

Definition string_arg (args : list Z) : option (list Z * list Z) :=
  '(a, args) ← va_uint args;
  s ← (if a =? 0 then Some null_string else arrays !! a);
  Some (s, args).

(** One conversion, with [fmt] at its character; the progress and the format after it *)
Definition convert (buf end_ : Z) (d : directive) (fmt : list Z) (p : progress) : option (progress * list Z) :=
  let o := pr_out p in
  let num base d := '(o, args) ← put_number end_ base d (pr_args p) o; Some (mk_prog o args (pr_stores p)) in
  match fmt with
  | [] => None
  | c :: fmt' =>
      if c =? 99 then
        '(w, args) ← va_int (pr_args p);
        o ← put_char end_ (schar (w mod 2 ^ 8)) d o;
        Some (mk_prog o args (pr_stores p), fmt')
      else if c =? 115 then
        '(s, args) ← string_arg (pr_args p);
        o ← put_string end_ s d o;
        Some (mk_prog o args (pr_stores p), fmt')
      else if c =? 112 then
        let d := if d_width d =? -1 then mk_dir (Z.lor (d_flags d) ZEROPAD) 8 (d_precision d) (d_qualifier d) else d in
        '(a, args) ← va_uint (pr_args p);
        o ← number o end_ a 16 (d_width d) (d_precision d) (d_flags d);
        Some (mk_prog o args (pr_stores p), fmt')
      else if c =? 110 then
        '(ip, args) ← va_uint (pr_args p);
        Some (mk_prog o args ((ip, u32 (o_str o - buf)) :: pr_stores p), fmt')
      else if c =? 37 then o ← put end_ 37 o; Some (mk_prog o (pr_args p) (pr_stores p), fmt')
      else if c =? 111 then p ← num 8 d; Some (p, fmt')
      else if c =? 88 then p ← num 16 (add_flag LARGE d); Some (p, fmt')
      else if c =? 120 then p ← num 16 d; Some (p, fmt')
      else if (c =? 100) || (c =? 105) then p ← num 10 (add_flag SIGN d); Some (p, fmt')
      else if c =? 117 then p ← num 10 d; Some (p, fmt')
      else
        o ← put end_ 37 o;
        if negb (c =? NUL) then o ← put end_ c o; Some (mk_prog o (pr_args p) (pr_stores p), fmt')
        else Some (mk_prog o (pr_args p) (pr_stores p), fmt)
  end.

Fixpoint format_loop (fuel : nat) (buf end_ : Z) (fmt : list Z) (p : progress) : option progress :=
  match fuel with
  | O => None
  | S fuel =>
      match fmt with
      | [] => None
      | c :: fmt' =>
          if c =? NUL then Some p
          else if negb (c =? 37) then o ← put end_ c (pr_out p); format_loop fuel buf end_ fmt' (mk_prog o (pr_args p) (pr_stores p))
          else
            '(d, fmt, args) ← get_directive fmt' (pr_args p);
            '(p, fmt) ← convert buf end_ d fmt (mk_prog (pr_out p) args (pr_stores p));
            format_loop fuel buf end_ fmt p
      end
  end.

(** The result, memory, and what was stored for [%n] *)
Definition vsnprintf (m : gmap Z Z) (buf size : Z) (fmt args : list Z) : option (Z * gmap Z Z * list (Z * Z)) :=
  let end_ := u32 (buf + size - 1) in
  let '(end_, size) := if end_ <? u32 (buf - 1) then (2 ^ 32 - 1, u32 (2 ^ 32 - 1 - buf + 1)) else (end_, size) in
  p ← format_loop (S (length fmt)) buf end_ fmt (mk_prog (mk_out buf m) args []);
  let o := pr_out p in
  m ← (if o_str o <=? end_ then store (o_mem o) (o_str o) NUL
       else if 0 <? size then store (o_mem o) end_ NUL
       else Some (o_mem o));
  Some (s32 (o_str o - buf), m, pr_stores p).

Definition snprintf := vsnprintf.
Definition vsprintf (m : gmap Z Z) (buf : Z) (fmt args : list Z) := vsnprintf m buf 0xFFFFFFFF fmt args.
Definition sprintf := vsprintf.

(** [iprintf]: the result, [*str], [*size], memory and the stores *)
Definition iprintf (m : gmap Z Z) (str size : Z) (fmt args : list Z) : option (Z * Z * Z * gmap Z Z * list (Z * Z)) :=
  '(len, m, st) ← vsnprintf m str size fmt args;
  if len <? 0 then None
  else
    let len := Z.min len (s32 (size - 1)) in
    let size := u32 (size - len) in
    Some (u32 (size - 1), u32 (str + len), size, m, st).

End Arrays.

End Printf.
