(* ===== verification/PrintfSpec.v ===== *)
(** * What formatted output guarantees

    A reference that renders a format and its arguments to the whole text, without a buffer
    and with unbounded integers; and that [vsnprintf] writes the part of it that fits. *)

From S2P Require Import Prelude KString.
From S2P Require Export Printf.

Module PrintfSpec.
Import KString.
Export Printf.

Local Open Scope Z_scope.

(** ** Writing characters to memory *)

Fixpoint write (a : Z) (l : list Z) (m : gmap Z Z) : gmap Z Z :=
  match l with
  | [] => m
  | c :: l => write (a + 1) l (<[a := c]> m)
  end.
(** What [put] does with characters when there is no more than the address space for them *)
Definition after (end_ : Z) (l : list Z) (o : out) : out :=
  mk_out (o_str o + Z.of_nat (length l)) (write (o_str o) (take (Z.to_nat (end_ + 1 - o_str o)) l) (o_mem o)).
Definition room (end_ : Z) (l : list Z) (o : out) : Prop :=
  0 <= o_str o /\ o_str o + Z.of_nat (length l) < 2 ^ 32 /\
  forall a, o_str o <= a <= end_ -> a < o_str o + Z.of_nat (length l) -> is_Some (o_mem o !! a).

Lemma write_app a l l' m : write a (l ++ l') m = write (a + Z.of_nat (length l)) l' (write a l m).
Proof.
  revert a m. induction l as [|c l IH]; intros a m; simpl; [by rewrite Z.add_0_r|]. rewrite IH. f_equal. lia.
Qed.
Lemma write_lookup a l m b : write a l m !! b = if decide (a <= b < a + Z.of_nat (length l)) then l !! Z.to_nat (b - a) else m !! b.
Proof.
  revert a m. induction l as [|c l IH]; intros a m; cbn [write].
  - destruct (decide _) as [H|]; [simpl in H; lia|done].
  - rewrite IH. rewrite length_cons. destruct (decide (a = b)) as [->|Hne].
    + rewrite decide_False by lia. rewrite decide_True by lia. rewrite Z.sub_diag, lookup_insert. by rewrite decide_True.
    + destruct (decide (a + 1 <= b < a + 1 + Z.of_nat (length l))).
      * rewrite decide_True by lia. replace (Z.to_nat (b - a)) with (S (Z.to_nat (b - (a + 1)))) by lia. done.
      * rewrite decide_False by lia. by rewrite lookup_insert_ne.
Qed.
Lemma write_is_Some a l m b : is_Some (m !! b) -> is_Some (write a l m !! b).
Proof. intros H. rewrite write_lookup. destruct (decide _); [|done]. apply lookup_lt_is_Some_2. lia. Qed.

Lemma after_app end_ l l' o : after end_ (l ++ l') o = after end_ l' (after end_ l o).
Proof.
  unfold after. simpl. rewrite length_app. f_equal; [lia|]. rewrite take_app, write_app.
  destruct (decide (Z.to_nat (end_ + 1 - o_str o) <= length l)%nat) as [Hle|Hgt].
  - replace (Z.to_nat (end_ + 1 - o_str o) - length l)%nat with 0%nat by lia.
    replace (Z.to_nat (end_ + 1 - (o_str o + Z.of_nat (length l)))) with 0%nat by lia. done.
  - rewrite length_take. replace (Z.of_nat (Z.to_nat (end_ + 1 - o_str o) `min` length l)%nat) with (Z.of_nat (length l)) by lia.
    do 2 f_equal. lia.
Qed.
Lemma room_app end_ l l' o : room end_ (l ++ l') o -> room end_ l o /\ room end_ l' (after end_ l o).
Proof.
  unfold room, after. simpl. rewrite length_app. intros (H1 & H2 & H3). split_and!; try lia.
  - intros a Ha Hb. apply H3; lia.
  - intros a Ha Hb. apply write_is_Some, H3; lia.
Qed.

Lemma put_after end_ c o : room end_ [c] o -> put end_ c o = Some (after end_ [c] o).
Proof.
  intros (H1 & H2 & H3). simpl in *. unfold put, after, store. simpl. destruct (Z.leb_spec (o_str o) end_) as [Hle|Hgt].
  - rewrite decide_True by (apply H3; lia). simpl. rewrite u32_small by lia. rewrite firstn_all2 by (simpl; lia). done.
  - simpl. rewrite u32_small by lia. replace (Z.to_nat (end_ + 1 - o_str o)) with 0%nat by lia. done.
Qed.
Lemma put_all_after end_ l o : room end_ l o -> put_all end_ l o = Some (after end_ l o).
Proof.
  revert o. induction l as [|c l IH]; intros o H; cbn [put_all].
  - unfold after. destruct o as [s m]. simpl. by rewrite Z.add_0_r, take_nil.
  - apply (room_app end_ [c] l) in H as [H1 H2]. rewrite (put_after _ _ _ H1). simpl. rewrite IH by done. by rewrite <- (after_app end_ [c] l).
Qed.
Lemma put_n_all end_ c n o : put_n end_ c n o = put_all end_ (replicate n c) o.
Proof. revert o. induction n as [|n IH]; intros o; simpl; [done|]. destruct (put end_ c o); simpl; [by rewrite IH|done]. Qed.
Lemma put_one end_ c o : put end_ c o = put_all end_ [c] o.
Proof. simpl. by destruct (put end_ c o). Qed.
Lemma put_all_app end_ l l' o : put_all end_ (l ++ l') o = (o ← put_all end_ l o; put_all end_ l' o).
Proof. revert o. induction l as [|c l IH]; intros o; simpl; [done|]. destruct (put end_ c o); simpl; [by rewrite IH|done]. Qed.

(** ** Numbers *)

(** The digits of [n] in a base, the highest first *)
Fixpoint to_base (fuel : nat) (base n : Z) : list Z :=
  match fuel with
  | O => []
  | S fuel => if n <? base then [n] else to_base fuel base (n / base) ++ [n mod base]
  end.

Definition number_digits (type base num : Z) : list Z :=
  digit_at (if flag type LARGE then large_digits else small_digits) <$> to_base 64 base (if flag type SIGN then Z.abs num else num mod 2 ^ 64).
Definition number_sign (type num : Z) : list Z :=
  if flag type SIGN then if num <? 0 then [45] else if flag type PLUS then [43] else if flag type SPACE then [32] else [] else [].
Definition number_prefix (type base : Z) : list Z :=
  if flag type SPECIAL then if base =? 8 then [48] else if base =? 16 then [48; if flag type LARGE then 88 else 120] else [] else [].
Definition spaces (n : Z) : list Z := replicate (Z.to_nat n) 32.
Definition zeros (n : Z) : list Z := replicate (Z.to_nat n) 48.

(** A number in a field: its sign and prefix, at least [precision] digits, filled to [size] characters *)
Definition number_text (type base num size precision : Z) : list Z :=
  let digs := number_digits type base num in
  let front := number_sign type num ++ number_prefix type base in
  let body := zeros (precision - Z.of_nat (length digs)) ++ digs in
  let gap := size - Z.of_nat (length (front ++ body)) in
  if flag type LEFT then front ++ body ++ spaces gap
  else if flag type ZEROPAD then front ++ zeros gap ++ body
  else spaces gap ++ front ++ body.

Lemma digit_loop_spec fuel digits base n tmp : 2 <= base -> 0 < n < 2 ^ Z.of_nat fuel -> (length tmp + fuel <= sizeof_tmp)%nat ->
  digit_loop (S fuel) digits base n tmp = Some (tmp ++ rev (digit_at digits <$> to_base fuel base n)).
Proof.
  intros Hb. revert n tmp. induction fuel as [|fuel IH]; intros n tmp Hn Ht; [change (2 ^ Z.of_nat 0) with 1 in Hn; lia|].
  cbn [digit_loop to_base]. replace (n =? 0) with false by lia. rewrite decide_True by (unfold sizeof_tmp in *; lia).
  rewrite Nat2Z.inj_succ, Z.pow_succ_r in Hn by lia. pose proof (Z.div_mod n base ltac:(lia)) as Hdm. pose proof (Z.mod_pos_bound n base ltac:(lia)).
  destruct (Z.ltb_spec n base) as [Hlt|Hge].
  - rewrite (Z.div_small n base), (Z.mod_small n base) by lia. destruct fuel; done.
  - assert (0 < n / base) by (apply Z.div_str_pos; lia). assert (n / base < 2 ^ Z.of_nat fuel) by nia.
    change (digit_loop (S fuel) digits base (n / base) (tmp ++ [digit_at digits (n mod base)]) = Some (tmp ++ rev (digit_at digits <$> to_base fuel base (n / base) ++ [n mod base]))).
    rewrite IH; [|lia|rewrite length_app; simpl; lia]. rewrite <- app_assoc. f_equal. f_equal. by rewrite fmap_app, rev_app_distr.
Qed.

Lemma digit_loop_more fuel fuel' digits base n tmp l : (fuel <= fuel')%nat -> digit_loop fuel digits base n tmp = Some l -> digit_loop fuel' digits base n tmp = Some l.
Proof.
  revert fuel' n tmp. induction fuel as [|fuel IH]; intros [|fuel'] n tmp Hf; try done; [lia|]. cbn [digit_loop]. destruct (n =? 0); [done|].
  destruct (decide _); [|done]. apply IH. lia.
Qed.
Lemma to_base_length fuel base n : (length (to_base fuel base n) <= fuel)%nat.
Proof. revert n. induction fuel as [|fuel IH]; intros n; simpl; [done|]. destruct (n <? base); simpl; [lia|]. rewrite length_app. specialize (IH (n / base)). simpl. lia. Qed.
Lemma number_digits_length type base num : (length (number_digits type base num) <= 64)%nat.
Proof. unfold number_digits. rewrite length_fmap. apply to_base_length. Qed.

(** *** Flags *)

Lemma flag_unpad type f : Z.land (Z.lnot ZEROPAD) f = f -> flag (if flag type LEFT then Z.land type (Z.lnot ZEROPAD) else type) f = flag type f.
Proof. intros Hf. destruct (flag type LEFT); [|done]. unfold flag. by rewrite <- Z.land_assoc, Hf. Qed.
Lemma flag_zeropad type : flag (if flag type LEFT then Z.land type (Z.lnot ZEROPAD) else type) ZEROPAD = flag type ZEROPAD && negb (flag type LEFT).
Proof.
  destruct (flag type LEFT) eqn:E; [|by rewrite andb_true_r]. rewrite andb_false_r. unfold flag. rewrite <- Z.land_assoc.
  change (Z.land (Z.lnot ZEROPAD) ZEROPAD) with 0. by rewrite Z.land_0_r.
Qed.
Lemma flag_either type a b : flag type (Z.lor a b) = flag type a || flag type b.
Proof.
  unfold flag. rewrite Z.land_lor_distr_r. destruct (Z.eqb_spec (Z.lor (Z.land type a) (Z.land type b)) 0) as [E|E].
  - apply Z.lor_eq_0_iff in E as [-> ->]. done.
  - destruct (Z.eqb_spec (Z.land type a) 0), (Z.eqb_spec (Z.land type b) 0); try done. exfalso. apply E, Z.lor_eq_0_iff. done.
Qed.


Lemma sign_of_spec type num size : - 2 ^ 63 <= num < 2 ^ 63 -> - 2 ^ 30 <= size <= 2 ^ 30 ->
  exists sc num', sign_of type num size = (sc, num', size - Z.of_nat (length (number_sign type num))) /\ (if sc =? 0 then [] else [sc]) = number_sign type num
    /\ num' mod 2 ^ 64 = (if flag type SIGN then Z.abs num else num mod 2 ^ 64) /\ (num' = 0 <-> num = 0).
Proof.
  intros Hn Hs. unfold sign_of, number_sign. destruct (flag type SIGN).
  2: { exists 0, num. rewrite Z.sub_0_r. done. }
  destruct (Z.ltb_spec num 0) as [Hneg|Hpos].
  { exists 45, (s64 (- num)). rewrite s32_small by lia. simpl. split_and!; try done.
    - destruct (decide (num = - 2 ^ 63)) as [->|Hne]; [done|]. rewrite s64_small by lia. rewrite Z.mod_small by lia. lia.
    - destruct (decide (num = - 2 ^ 63)) as [->|Hne]; [done|]. rewrite s64_small by lia. lia. }
  assert (Hm : num mod 2 ^ 64 = Z.abs num) by (rewrite Z.mod_small; lia). rewrite s32_small by lia.
  destruct (flag type PLUS); [by exists 43, num|]. destruct (flag type SPACE); [by exists 32, num|]. exists 0, num. rewrite Z.sub_0_r. done.
Qed.

Lemma tmp_spec type base num num' : 2 <= base <= 36 -> num' mod 2 ^ 64 = (if flag type SIGN then Z.abs num else num mod 2 ^ 64) -> (num' = 0 <-> num = 0) ->
  - 2 ^ 63 <= num < 2 ^ 63 ->
  (if num' =? 0 then Some [48] else digit_loop (S sizeof_tmp) (if flag type LARGE then large_digits else small_digits) base (num' mod 2 ^ 64) [])
    = Some (rev (number_digits type base num)).
Proof.
  intros Hb Hm Hz Hn. unfold number_digits. rewrite <- Hm. destruct (Z.eqb_spec num' 0) as [->|Hne].
  - cbn [to_base]. replace (0 mod 2 ^ 64) with 0 by done. replace (0 <? base) with true by lia. by destruct (flag type LARGE).
  - assert (Hr : 0 <= num' mod 2 ^ 64 < 2 ^ 64) by (apply Z.mod_pos_bound; lia). assert (Hnz : num' mod 2 ^ 64 <> 0).
    { rewrite Hm. intros E. apply Hne, Hz. destruct (flag type SIGN); [lia|]. destruct (decide (0 <= num)); [rewrite Z.mod_small in E; lia|].
      rewrite <- (Z_mod_plus_full num 1), Z.mod_small in E; lia. }
    apply (digit_loop_more 65); [unfold sizeof_tmp; lia|]. apply (digit_loop_spec 64); unfold sizeof_tmp; simpl; lia.
Qed.

(** *** [number] puts the text of the number *)

(** A function that puts characters, whatever there is room for *)
Definition emits (end_ : Z) (f : out -> option out) (l : list Z) : Prop := forall o, f o = put_all end_ l o.

Lemma emits_bind end_ f k l l' : emits end_ f l -> emits end_ k l' -> emits end_ (fun o => o ← f o; k o) (l ++ l').
Proof. intros Hf Hk o. rewrite Hf, put_all_app. destruct (put_all end_ l o); simpl; [apply Hk|done]. Qed.
Lemma emits_n end_ c n : emits end_ (put_n end_ c n) (replicate n c).
Proof. intros o. apply put_n_all. Qed.
Lemma emits_if end_ (b : bool) f g l l' : emits end_ f l -> emits end_ g l' -> emits end_ (fun o => if b then f o else g o) (if b then l else l').
Proof. by destruct b. Qed.
Lemma emits_none end_ : emits end_ Some [].
Proof. done. Qed.
Lemma emits_one end_ c : emits end_ (put end_ c) [c].
Proof. intros o. apply put_one. Qed.
Lemma emits_all end_ l : emits end_ (put_all end_ l) l.
Proof. done. Qed.

Lemma emits_prefix end_ base type type' : (forall f, Z.land (Z.lnot ZEROPAD) f = f -> flag type' f = flag type f) ->
  emits end_ (put_prefix end_ base type' (if flag type LARGE then large_digits else small_digits)) (number_prefix type base).
Proof.
  intros Ht o. unfold put_prefix, number_prefix. rewrite Ht by done. destruct (flag type SPECIAL); [|done]. destruct (base =? 8); [apply put_one|].
  destruct (base =? 16); [|done]. cbn [put_all]. destruct (put end_ 48 o) as [o'|]; [|done]. cbn [mbind option_bind].
  assert (E : digit_at (if flag type LARGE then large_digits else small_digits) 33 = if flag type LARGE then 88 else 120) by (destruct (flag type LARGE); reflexivity).
  rewrite E. apply put_one.
Qed.

Definition small (n : Z) : Prop := - 2 ^ 29 <= n <= 2 ^ 29.

Lemma number_emits end_ num base size precision type : 2 <= base <= 36 -> - 2 ^ 63 <= num < 2 ^ 63 -> small size -> small precision ->
  emits end_ (fun o => number o end_ num base size precision type) (number_text type base num size precision).
Proof.
  intros Hb Hn Hs Hp o. unfold small in *. unfold number. set (digits := if flag type LARGE then large_digits else small_digits).
  set (type' := if flag type LEFT then Z.land type (Z.lnot ZEROPAD) else type).
  assert (Ht : forall f, Z.land (Z.lnot ZEROPAD) f = f -> flag type' f = flag type f) by (intros f; apply flag_unpad).
  replace ((base <? 2) || (36 <? base)) with false by lia.
  assert (Hsg : sign_of type' num size = sign_of type num size) by (unfold sign_of; by rewrite !Ht). rewrite Hsg.
  destruct (sign_of_spec type num size Hn ltac:(lia)) as (sc & num' & -> & Hsc & Hm & Hz). cbv beta iota zeta.
  unfold digits. rewrite (tmp_spec type base num num' Hb Hm Hz Hn). cbn [mbind option_bind]. fold digits.
  pose proof (number_digits_length type base num) as Hdl. set (digs := number_digits type base num) in *. rewrite length_rev, rev_involutive.
  assert (Hsl : (length (number_sign type num) <= 1)%nat) by (unfold number_sign; destruct (flag type SIGN), (num <? 0), (flag type PLUS), (flag type SPACE); simpl; lia).
  set (sl := Z.of_nat (length (number_sign type num))) in *. rewrite (Ht SPECIAL) by done.
  replace (if flag type SPECIAL then if base =? 16 then s32 (size - sl - 2) else if base =? 8 then s32 (size - sl - 1) else size - sl else size - sl)
    with (size - sl - Z.of_nat (length (number_prefix type base))).
  2: { unfold number_prefix. destruct (flag type SPECIAL); [|simpl; lia]. destruct (Z.eqb_spec base 16) as [->|]; [simpl; rewrite s32_small; lia|].
       destruct (base =? 8); [simpl; rewrite s32_small; lia|simpl; lia]. }
  assert (Hpl : (length (number_prefix type base) <= 2)%nat).
  { unfold number_prefix. destruct (flag type SPECIAL), (base =? 8), (base =? 16); simpl; lia. }
  set (n := Z.of_nat (length digs)). set (prec := if precision <? n then n else precision).
  set (gap := size - sl - Z.of_nat (length (number_prefix type base)) - prec). assert (Hprec : n <= prec /\ prec <= 2 ^ 29) by (unfold prec; destruct (Z.ltb_spec precision n); lia).
  assert (Hslz : 0 <= sl <= 1) by (unfold sl; lia). rewrite (s32_small gap) by (unfold gap; lia). change (ZEROPAD + LEFT) with (Z.lor ZEROPAD LEFT). rewrite flag_either, (Ht LEFT) by done.
  assert (Hzp : flag type' ZEROPAD = flag type ZEROPAD && negb (flag type LEFT)) by apply flag_zeropad. rewrite Hzp.
  assert (Hz0 : zeros (precision - n) = zeros (prec - n)) by (unfold zeros, prec; f_equal; destruct (Z.ltb_spec precision n); lia).
  assert (Hgap : size - Z.of_nat (length ((number_sign type num ++ number_prefix type base) ++ zeros (prec - n) ++ digs)) = gap).
  { rewrite !length_app. unfold zeros. rewrite length_replicate. unfold gap, sl, n. lia. }
  set (left := flag type LEFT) in *. set (zp := flag type ZEROPAD) in *.
  transitivity (put_all end_ ((if negb (zp && negb left || left) then spaces gap else []) ++ number_sign type num ++ number_prefix type base
    ++ (if negb left then replicate (Z.to_nat (if negb (zp && negb left || left) then run_down gap else gap)) (if zp && negb left then 48 else 32) else [])
    ++ zeros (prec - n) ++ digs ++ spaces (if negb left then run_down (if negb (zp && negb left || left) then run_down gap else gap)
                                            else if negb (zp && negb left || left) then run_down gap else gap)) o).
  - revert o. apply emits_bind; [apply emits_if; [apply emits_n|apply emits_none]|]. apply emits_bind.
    { rewrite <- Hsc. apply emits_if; [apply emits_none|apply emits_one]. }
    apply emits_bind; [by apply emits_prefix|]. apply emits_bind; [apply emits_if; [apply emits_n|apply emits_none]|].
    apply emits_bind; [apply emits_n|]. apply emits_bind; [apply emits_all|apply emits_n].
  - f_equal. unfold number_text. fold digs n left zp. rewrite Hz0, Hgap. unfold run_down, spaces, zeros.
    destruct left, zp; simpl; rewrite ?app_nil_r, <- ?app_assoc; try done;
      destruct (Z.ltb_spec 0 gap); rewrite ?s32_small by lia; cbn [Z.ltb Z.compare];
      try replace (0 <? gap - 1) with false by lia; try replace (Z.to_nat (gap - 1)) with 0%nat by lia; try replace (Z.to_nat (gap - 1 - 1)) with 0%nat by lia;
      simpl; rewrite ?app_nil_r; try done.
Qed.

(** ** Characters and strings in a field *)

Definition in_field (d : directive) (l : list Z) : list Z :=
  let gap := spaces (d_width d - Z.of_nat (length l)) in if flag (d_flags d) LEFT then l ++ gap else gap ++ l.

Lemma put_char_emits end_ c d : small (d_width d) -> emits end_ (put_char end_ c d) (in_field d [c]).
Proof.
  intros Hw o. unfold small in Hw. unfold put_char. set (w := d_width d) in *.
  transitivity (put_all end_ ((if negb (flag (d_flags d) LEFT) then replicate (pre_count w) 32 else []) ++ [c]
    ++ replicate (pre_count (if negb (flag (d_flags d) LEFT) then pre_down w else w)) 32) o).
  - revert o. apply emits_bind; [apply emits_if; [apply emits_n|apply emits_none]|]. apply emits_bind; [apply emits_one|apply emits_n].
  - f_equal. unfold in_field, spaces, pre_count, pre_down. fold w. change (Z.of_nat (length [c])) with 1. rewrite (s32_small (w - 1)) by lia.
    destruct (flag (d_flags d) LEFT); cbn [negb app]; [by rewrite s32_small by lia|]. f_equal. destruct (Z.ltb_spec 0 (w - 1)); [done|]. rewrite s32_small by lia.
    by replace (Z.to_nat (w - 1 - 1)) with 0%nat by lia.
Qed.

Lemma strnlen_le s n len : strnlen s n = Some len -> 0 <= len <= Z.of_nat (length s).
Proof.
  revert n len. induction s as [|c s IH]; intros [|n] len; simpl; try done; try (intros [= <-]; lia). destruct (c =? NUL); [intros [= <-]; lia|].
  destruct (strnlen s n) as [k|] eqn:E; simpl; [|done]. intros [= <-]. specialize (IH n k E). lia.
Qed.

Lemma put_string_emits end_ s d len : strnlen_sz s (d_precision d) = Some len -> small (d_width d) -> small len ->
  emits end_ (put_string end_ s d) (in_field d (take (Z.to_nat len) s)).
Proof.
  intros El Hw Hl o. unfold small in *. unfold put_string. rewrite El. cbn [mbind option_bind]. set (w := d_width d) in *.
  pose proof (strnlen_le _ _ _ El) as Hle.
  transitivity (put_all end_ ((if negb (flag (d_flags d) LEFT) then replicate (over_count len w) 32 else []) ++ take (Z.to_nat len) s
    ++ replicate (over_count len (if negb (flag (d_flags d) LEFT) then over_down len w else w)) 32) o).
  - revert o. apply emits_bind; [apply emits_if; [apply emits_n|apply emits_none]|]. apply emits_bind; [apply emits_all|apply emits_n].
  - f_equal. unfold in_field, spaces, over_count, over_down. fold w. rewrite length_take. replace (Z.of_nat (Z.to_nat len `min` length s)) with len by lia.
    destruct (flag (d_flags d) LEFT); simpl; [done|]. f_equal. rewrite s32_small by (destruct (len <? w); lia).
    replace (Z.to_nat ((if len <? w then len else w) - 1 - len)) with 0%nat by (destruct (Z.ltb_spec len w); lia). by rewrite app_nil_r.
Qed.

(** ** The whole text *)

Definition small_b (n : Z) : bool := (- 2 ^ 29 <=? n) && (n <=? 2 ^ 29).
Lemma small_b_ok n : small_b n = true -> small n.
Proof. unfold small_b, small. lia. Qed.


Section Render.
Context (arrays : gmap Z (list Z)).

Definition num_text (base : Z) (d : directive) (args : list Z) : option (list Z * list Z) :=
  '(num, args) ← get_num d args;
  Some (number_text (d_flags d) base (s64 num) (d_width d) (d_precision d), args).

(** The text of a conversion, the arguments that are left, what [%n] stores, and the format behind it; the text before it has [pos] characters *)
Definition render_conv (d : directive) (fmt args : list Z) (pos : Z) : option (list Z * list Z * list (Z * Z) * list Z) :=
  let num base d fmt' := '(l, args) ← num_text base d args; Some (l, args, [], fmt') in
  if negb (small_b (d_width d) && small_b (d_precision d)) then None
  else
    match fmt with
    | [] => None
    | c :: fmt' =>
        if c =? 99 then '(w, args) ← va_int args; Some (in_field d [schar (w mod 2 ^ 8)], args, [], fmt')
        else if c =? 115 then
          '(s, args) ← string_arg arrays args;
          len ← strnlen_sz s (d_precision d);
          if small_b len then Some (in_field d (take (Z.to_nat len) s), args, [], fmt') else None
        else if c =? 112 then
          '(a, args) ← va_uint args;
          Some (if d_width d =? -1 then number_text (Z.lor (d_flags d) ZEROPAD) 16 a 8 (d_precision d)
                else number_text (d_flags d) 16 a (d_width d) (d_precision d), args, [], fmt')
        else if c =? 110 then '(ip, args) ← va_uint args; Some ([], args, [(ip, u32 pos)], fmt')
        else if c =? 37 then Some ([37], args, [], fmt')
        else if c =? 111 then num 8 d fmt'
        else if c =? 88 then num 16 (add_flag LARGE d) fmt'
        else if c =? 120 then num 16 d fmt'
        else if (c =? 100) || (c =? 105) then num 10 (add_flag SIGN d) fmt'
        else if c =? 117 then num 10 d fmt'
        else if negb (c =? NUL) then Some ([37; c], args, [], fmt')
        else Some ([37], args, [], fmt)
    end.

Fixpoint render_loop (fuel : nat) (fmt args : list Z) (pos : Z) : option (list Z * list (Z * Z)) :=
  match fuel with
  | O => None
  | S fuel =>
      match fmt with
      | [] => None
      | c :: fmt' =>
          if c =? NUL then Some ([], [])
          else if negb (c =? 37) then '(l, st) ← render_loop fuel fmt' args (pos + 1); Some (c :: l, st)
          else
            '(d, fmt, args) ← get_directive fmt' args;
            '(l, args, st, fmt) ← render_conv d fmt args pos;
            '(l', st') ← render_loop fuel fmt args (pos + Z.of_nat (length l));
            Some (l ++ l', st' ++ st)
      end
  end.

(** The text of a format with its arguments, and what is stored for [%n], the last first *)
Definition render (fmt args : list Z) : option (list Z * list (Z * Z)) := render_loop (S (length fmt)) fmt args 0.

Lemma put_number_emits end_ base d args l args' o : num_text base d args = Some (l, args') -> 2 <= base <= 36 -> small (d_width d) -> small (d_precision d) ->
  put_number end_ base d args o = (o ← put_all end_ l o; Some (o, args')).
Proof.
  unfold num_text, put_number. intros E Hb Hw Hp. destruct (get_num d args) as [[num a]|]; simpl in *; [|done]. injection E as <- <-.
  rewrite (number_emits end_ (s64 num) base (d_width d) (d_precision d) (d_flags d) Hb (s64_range num) Hw Hp o). done.
Qed.

Lemma va_uint_range args a args' : va_uint args = Some (a, args') -> 0 <= a < 2 ^ 32.
Proof. destruct args as [|w args]; simpl; [done|]. intros [= <- _]. apply u32_range. Qed.

Lemma convert_render buf end_ d fmt args pos l args' st' fmt' o st : render_conv d fmt args pos = Some (l, args', st', fmt') -> o_str o - buf = pos ->
  convert arrays buf end_ d fmt (mk_prog o args st) = (o ← put_all end_ l o; Some (mk_prog o args' (st' ++ st), fmt')).
Proof.
  unfold render_conv, convert. intros H Ho. cbn [pr_out pr_args pr_stores].
  destruct (negb (small_b (d_width d) && small_b (d_precision d))) eqn:Es; [done|]. apply negb_false_iff, andb_true_iff in Es as [Hw%small_b_ok Hp%small_b_ok].
  destruct fmt as [|c fmt1]; [done|]. cbv zeta in *.
  assert (Hnum : forall base d', d_width d' = d_width d -> d_precision d' = d_precision d -> 2 <= base <= 36 ->
    ('(l, args) ← num_text base d' args; Some (l, args, [], fmt1)) = Some (l, args', st', fmt') ->
    (p ← ('(o, args) ← put_number end_ base d' args o; Some (mk_prog o args st)); Some (p, fmt1)) = (o ← put_all end_ l o; Some (mk_prog o args' (st' ++ st), fmt'))).
  { intros base d' E1 E2 Hb E. destruct (num_text base d' args) as [[l1 a1]|] eqn:En; simpl in E; [|done]. injection E as <- <- <- <-.
    rewrite (put_number_emits end_ base d' args l1 a1 o En Hb) by congruence. destruct (put_all end_ l1 o); done. }
  destruct (c =? 99).
  { destruct (va_int args) as [[w a]|]; simpl in H |- *; [|done]. injection H as <- <- <- <-. by rewrite put_char_emits. }
  destruct (c =? 115).
  { destruct (string_arg arrays args) as [[s a]|]; simpl in H |- *; [|done]. destruct (strnlen_sz s (d_precision d)) as [len|] eqn:El; simpl in H; [|done].
    destruct (small_b len) eqn:Esl; [|done]. apply small_b_ok in Esl. injection H as <- <- <- <-. by rewrite (put_string_emits end_ s d len). }
  destruct (c =? 112).
  { destruct (va_uint args) as [[a ar]|] eqn:Ea; simpl in H |- *; [|done]. apply va_uint_range in Ea. injection H as <- <- <- <-.
    destruct (d_width d =? -1); cbn [d_width d_precision d_flags]; rewrite number_emits by (done || lia || (unfold small; lia)); done. }
  destruct (c =? 110).
  { destruct (va_uint args) as [[a ar]|]; simpl in H |- *; [|done]. injection H as <- <- <- <-. by rewrite Ho. }
  destruct (c =? 37).
  { injection H as <- <- <- <-. rewrite put_one. done. }
  destruct (c =? 111); [by apply Hnum|]. destruct (c =? 88); [by apply Hnum|]. destruct (c =? 120); [by apply Hnum|].
  destruct ((c =? 100) || (c =? 105)); [by apply Hnum|]. destruct (c =? 117); [by apply Hnum|].
  destruct (negb (c =? NUL)); injection H as <- <- <- <-; cbn [put_all]; destruct (put end_ 37 o) as [o1|]; simpl; try done. by destruct (put end_ c o1).
Qed.

Lemma format_render fuel buf end_ fmt args pos l st' o st : render_loop fuel fmt args pos = Some (l, st') -> o_str o - buf = pos -> room end_ l o ->
  exists args', format_loop arrays fuel buf end_ fmt (mk_prog o args st) = Some (mk_prog (after end_ l o) args' (st' ++ st)).
Proof.
  revert fmt args pos l st' o st. induction fuel as [|fuel IH]; intros fmt args pos l st' o st H Ho Hr; [done|]. cbn [render_loop format_loop] in *.
  destruct fmt as [|c fmt1]; [done|]. cbn [pr_out pr_args pr_stores]. destruct (c =? NUL).
  { injection H as <- <-. exists args. do 2 f_equal. unfold after. destruct o. simpl. by rewrite Z.add_0_r, take_nil. }
  destruct (negb (c =? 37)).
  - destruct (render_loop fuel fmt1 args (pos + 1)) as [[l1 s1]|] eqn:E; simpl in H; [|done]. injection H as <- <-.
    apply (room_app end_ [c] l1) in Hr as [Hr1 Hr2]. rewrite (put_after _ _ _ Hr1). cbn [mbind option_bind].
    destruct (IH fmt1 args (pos + 1) l1 s1 (after end_ [c] o) st E) as (a' & Ea); [simpl; lia|done|]. exists a'. rewrite Ea. by rewrite <- (after_app end_ [c] l1).
  - destruct (get_directive fmt1 args) as [[[d fmt2] a2]|]; simpl in H |- *; [|done].
    destruct (render_conv d fmt2 a2 pos) as [[[[l1 a3] s1] fmt3]|] eqn:Ec; simpl in H; [|done].
    destruct (render_loop fuel fmt3 a3 (pos + Z.of_nat (length l1))) as [[l2 s2]|] eqn:E; simpl in H; [|done]. injection H as <- <-.
    apply room_app in Hr as [Hr1 Hr2]. rewrite (convert_render buf end_ d fmt2 a2 pos l1 a3 s1 fmt3 o st Ec Ho), (put_all_after _ _ _ Hr1). cbn [mbind option_bind].
    destruct (IH fmt3 a3 _ l2 s2 (after end_ l1 o) (s1 ++ st) E) as (a' & Ea); [simpl; lia|done|]. exists a'. rewrite Ea. by rewrite <- after_app, app_assoc.
Qed.


(** ** The buffer *)

Definition object (m : gmap Z Z) (buf size : Z) : Prop := forall a, buf <= a < buf + size -> is_Some (m !! a).
(** What fits, and the terminator *)
Definition truncated (text : list Z) (size : Z) : list Z := take (Z.to_nat (size - 1)) text ++ [NUL].

Lemma store_ok m a c : is_Some (m !! a) -> store m a c = Some (<[a := c]> m).
Proof. intros H. unfold store. by rewrite decide_True. Qed.

Lemma write_last l a n m : (n < length l)%nat -> <[a + Z.of_nat n := NUL]> (write a (take (S n) l) m) = write a (take n l ++ [NUL]) m.
Proof.
  intros Hn. destruct (lookup_lt_is_Some_2 l n Hn) as [x Hx]. rewrite (take_S_r _ _ _ Hx), !write_app, length_take. cbn [write].
  replace (Z.of_nat (n `min` length l)) with (Z.of_nat n) by lia. by rewrite insert_insert_eq.
Qed.

Lemma vsnprintf_text m buf size fmt args text st : 0 < buf -> 0 <= size -> buf + size <= 2 ^ 32 -> object m buf size ->
  render fmt args = Some (text, st) -> buf + Z.of_nat (length text) < 2 ^ 32 ->
  vsnprintf arrays m buf size fmt args = Some (s32 (Z.of_nat (length text)), if size =? 0 then m else write buf (truncated text size) m, st).
Proof.
  intros Hb Hs Hbs Hobj Hr Ht. unfold vsnprintf. rewrite (u32_small (buf + size - 1)), (u32_small (buf - 1)) by lia.
  replace (buf + size - 1 <? buf - 1) with false by lia. set (end_ := buf + size - 1).
  destruct (format_render _ buf end_ fmt args 0 text st (mk_out buf m) [] Hr) as (args' & ->); [simpl; lia| |].
  { split_and!; simpl; [lia|lia|]. intros a Ha _. apply Hobj. unfold end_ in Ha. lia. }
  cbn [mbind option_bind pr_out pr_stores after o_str o_mem]. rewrite app_nil_r. replace (buf + Z.of_nat (length text) - buf) with (Z.of_nat (length text)) by lia.
  replace (Z.to_nat (end_ + 1 - buf)) with (Z.to_nat size) by (unfold end_; lia). unfold truncated. unfold end_ at 1.
  destruct (Z.eqb_spec size 0) as [->|Hne].
  { replace (buf + Z.of_nat (length text) <=? buf + 0 - 1) with false by lia. done. }
  destruct (Z.leb_spec (buf + Z.of_nat (length text)) (buf + size - 1)) as [Hle|Hgt].
  - rewrite store_ok by (apply write_is_Some, Hobj; lia). cbn [mbind option_bind]. do 2 f_equal. rewrite !take_ge by lia. by rewrite write_app.
  - replace (0 <? size) with true by lia. rewrite store_ok by (apply write_is_Some, Hobj; unfold end_; lia). cbn [mbind option_bind]. do 3 f_equal.
    replace (Z.to_nat size) with (S (Z.to_nat (size - 1))) by lia. replace end_ with (buf + Z.of_nat (Z.to_nat (size - 1))) by (unfold end_; lia).
    apply write_last. lia.
Qed.

(** *** [iprintf], one call after the other *)

Fixpoint iprint_all (m : gmap Z Z) (str size : Z) (calls : list (list Z * list Z)) : option (Z * Z * gmap Z Z) :=
  match calls with
  | [] => Some (str, size, m)
  | (fmt, args) :: calls => '(_, str, size, m, _) ← iprintf arrays m str size fmt args; iprint_all m str size calls
  end.

Lemma iprintf_text m str size fmt args text st : 0 < str -> 0 < size -> str + size <= 2 ^ 32 -> size < 2 ^ 31 -> object m str size ->
  render fmt args = Some (text, st) -> str + Z.of_nat (length text) < 2 ^ 32 -> Z.of_nat (length text) < 2 ^ 31 ->
  let n := Z.min (Z.of_nat (length text)) (size - 1) in
  iprintf arrays m str size fmt args = Some (size - n - 1, str + n, size - n, write str (truncated text size) m, st).
Proof.
  intros Hs Hz Hsz Hm Ho Hr Ht1 Ht2 n. unfold iprintf. rewrite (vsnprintf_text m str size fmt args text st) by (done || lia).
  cbn [mbind option_bind]. rewrite s32_small by lia. replace (size =? 0) with false by lia. replace (Z.of_nat (length text) <? 0) with false by lia.
  rewrite (s32_small (size - 1)) by lia. fold n. rewrite !u32_small by (rewrite ?u32_small; unfold n; lia). done.
Qed.

Lemma write_over a l l' m : (length l <= length l')%nat -> write a l' (write a l m) = write a l' m.
Proof.
  intros Hl. apply map_eq. intros b. rewrite !write_lookup. destruct (decide (a <= b < a + Z.of_nat (length l'))); [done|]. by rewrite decide_False by lia.
Qed.

Lemma truncated_app a t1 t2 size m : 0 < size -> let k := Z.min (Z.of_nat (length t1)) (size - 1) in
  write (a + k) (truncated t2 (size - k)) (write a (truncated t1 size) m) = write a (truncated (t1 ++ t2) size) m.
Proof.
  intros Hs k. unfold truncated. rewrite (write_app a _ [NUL]), length_take. replace (Z.of_nat (Z.to_nat (size - 1) `min` length t1)) with k by lia.
  rewrite write_over by (rewrite length_app; simpl; lia). rewrite take_app, <- app_assoc, (write_app a), length_take.
  replace (Z.of_nat (Z.to_nat (size - 1) `min` length t1)) with k by lia. by replace (Z.to_nat (size - k - 1)) with (Z.to_nat (size - 1) - length t1)%nat by lia.
Qed.

Lemma iprint_all_text calls m str size texts : 0 < str -> 0 < size -> str + size <= 2 ^ 32 -> size < 2 ^ 31 -> object m str size ->
  Forall2 (fun call text => exists st, render (fst call) (snd call) = Some (text, st)) calls texts ->
  Forall (fun text => Z.of_nat (length text) < 2 ^ 31 /\ str + size + Z.of_nat (length text) < 2 ^ 32) texts -> calls <> [] ->
  let n := Z.min (Z.of_nat (length (concat texts))) (size - 1) in
  iprint_all m str size calls = Some (str + n, size - n, write str (truncated (concat texts) size) m).
Proof.
  intros Hs Hz Hsz Hm Ho Hc. revert m str size Hs Hz Hsz Hm Ho. induction Hc as [|[fmt args] text calls texts [st Hr] Hc IH]; intros m str size Hs Hz Hsz Hm Ho Hb Hne n; [done|].
  apply Forall_cons in Hb as [[Hb1 Hb2] Hb]. cbn [iprint_all concat fst snd] in *. rewrite (iprintf_text m str size fmt args text st) by (done || lia).
  cbn [mbind option_bind]. set (k := Z.min (Z.of_nat (length text)) (size - 1)). destruct (decide (calls = [])) as [->|Hne'].
  { inversion Hc; subst. cbn [iprint_all]. unfold n. simpl. rewrite app_nil_r. done. }
  rewrite IH; try lia; [| | |done].
  - unfold n. rewrite length_app. f_equal. f_equal; [f_equal; lia|]. by apply truncated_app.
  - intros a Ha. apply write_is_Some, Ho. lia.
  - eapply Forall_impl; [exact Hb|]. cbn beta. intros u Hu. lia.
Qed.

End Render.

End PrintfSpec.
