(* ===== verification/Scanf.v ===== *)
(** * Formatted input ([vsscanf] of [util/printf.c])

    The strings are the parts of their arrays from the characters pointed to on; the
    pointers given as arguments are words, and what is stored through them is recorded. *)

From S2P Require Import Prelude KString Printf.

Module Scanf.
Import KString Printf.

Local Open Scope Z_scope.

(** What is stored through a pointer: characters, or an integer of some bytes *)
Inductive scanned : Type :=
| Chars (cs : list Z)
| Int (bytes v : Z).

Fixpoint skip_space (s : list Z) : option (list Z) :=
  match s with
  | [] => None
  | c :: s' => if isspace c then skip_space s' else Some s
  end.
(** [while ( !isspace( *s) && *s) s++] *)
Fixpoint skip_word (s : list Z) : option (list Z) :=
  match s with
  | [] => None
  | c :: s' => if negb (isspace c) && negb (c =? NUL) then skip_word s' else Some s
  end.

(** [%c]: [do *s++ = *str++; while (--field_width > 0 && *str)] *)
Fixpoint scan_chars (str : list Z) (width : Z) (s : list Z) : option (list Z * list Z) :=
  match str with
  | [] => None
  | c :: str' =>
      if 0 <? s32 (width - 1) then
        match str' with
        | [] => None
        | d :: _ => if d =? NUL then Some (s ++ [c], str') else scan_chars str' (s32 (width - 1)) (s ++ [c])
        end
      else Some (s ++ [c], str')
  end.
(** [%s]: the loop that copies up to white space *)
Fixpoint scan_word (str : list Z) (width : Z) (s : list Z) : option (list Z * list Z) :=
  match str with
  | [] => None
  | c :: str' => if negb (c =? NUL) && negb (isspace c) && negb (width =? 0) then scan_word str' (s32 (width - 1)) (s ++ [c]) else Some (s, str)
  end.

Definition INT_MAX : Z := 2 ^ 31 - 1.

(** The qualifier of a conversion; twice [h] is [H], twice [l] is [L]. *)
Definition scan_qualifier (fmt : list Z) : option (Z * list Z) :=
  match fmt with
  | [] => None
  | c :: fmt' =>
      if (c =? 104) || (c =? 108) || (c =? 76) || (c =? 90) || (c =? 122) then
        match fmt' with
        | [] => None
        | d :: fmt2 =>
            if c =? d then if c =? 104 then Some (72, fmt2) else if c =? 108 then Some (76, fmt2) else Some (c, fmt') else Some (c, fmt')
        end
      else Some (-1, fmt)
  end.

(** The kind of an integer conversion: its base and whether it is signed *)
Definition int_conversion (c : Z) : option (Z * bool) :=
  if c =? 111 then Some (8, false)
  else if (c =? 120) || (c =? 88) then Some (16, false)
  else if c =? 105 then Some (0, true)
  else if c =? 100 then Some (10, true)
  else if c =? 117 then Some (10, false)
  else None.

(** The string does not go on with a number of that base. *)
Definition no_digit (base digit : Z) : bool :=
  (digit =? NUL) || ((base =? 16) && negb (isxdigit digit)) || ((base =? 10) && negb (isdigit digit))
  || ((base =? 8) && (negb (isdigit digit) || (55 <? digit))) || ((base =? 0) && negb (isdigit digit)).

Definition narrow (bits : Z) (sign : bool) (v : Z) : Z := if sign then (v + 2 ^ (bits - 1)) mod 2 ^ bits - 2 ^ (bits - 1) else v mod 2 ^ bits.

(** The number stored and [next] *)
Definition scan_int (qualifier : Z) (sign : bool) (base : Z) (str : list Z) : option (scanned * list Z) :=
  let long := if sign then simple_strtol str base else simple_strtoul str base in
  if qualifier =? 72 then '(v, next) ← long; Some (Int 1 (narrow 8 sign v), next)
  else if qualifier =? 104 then '(v, next) ← long; Some (Int 2 (narrow 16 sign v), next)
  else if qualifier =? 108 then '(v, next) ← long; Some (Int 4 v, next)
  else if qualifier =? 76 then '(v, next) ← (if sign then simple_strtoll str base else simple_strtoull str base); Some (Int 8 v, next)
  else if (qualifier =? 90) || (qualifier =? 122) then '(v, next) ← simple_strtoul str base; Some (Int 4 v, next)
  else '(v, next) ← long; Some (Int 4 (narrow 32 sign v), next).

(** A step of the loop: it goes on, or the function is left *)
Inductive scan_step : Type :=
| Go (fmt str args : list Z) (num : Z) (st : list (Z * scanned))
| Stop (num : Z) (st : list (Z * scanned)).

(** A conversion, with [fmt] behind the percent sign, its width and qualifier *)
Definition scan_conversion (len0 : nat) (fmt str args : list Z) (width qualifier num : Z) (st : list (Z * scanned)) : option scan_step :=
  match fmt, str with
  | c :: fmt', x :: str' =>
      if (c =? NUL) || (x =? NUL) then Some (Stop num st)
      else if c =? 99 then
        '(a, args) ← va_uint args;
        '(cs, str) ← scan_chars str (if width =? -1 then 1 else width) [];
        Some (Go fmt' str args (s32 (num + 1)) ((a, Chars cs) :: st))
      else if c =? 115 then
        '(a, args) ← va_uint args;
        str ← skip_space str;
        '(cs, str) ← scan_word str (if width =? -1 then INT_MAX else width) [];
        Some (Go fmt' str args (s32 (num + 1)) ((a, Chars (cs ++ [NUL])) :: st))
      else if c =? 110 then
        '(a, args) ← va_uint args;
        Some (Go fmt' str args num ((a, Int 4 (Z.of_nat (len0 - length str))) :: st))
      else if c =? 37 then if x =? 37 then Some (Go fmt' str' args num st) else Some (Stop num st)
      else
        match int_conversion c with
        | None => Some (Stop num st)
        | Some (base, sign) =>
            str ← skip_space str;
            match str with
            | [] => None
            | x :: str' =>
                digit ← (if sign && (x =? 45) then head str' else Some x);
                if no_digit base digit then Some (Stop num st)
                else
                  '(a, args) ← va_uint args;
                  '(v, next) ← scan_int qualifier sign base str;
                  Some (Go fmt' next args (s32 (num + 1)) ((a, v) :: st))
            end
        end
  | _, _ => None
  end.

(** The body of the loop, when neither string is at its end *)
Definition scan_once (len0 : nat) (fmt str args : list Z) (num : Z) (st : list (Z * scanned)) : option scan_step :=
  c ← head fmt;
  '(fmt, str) ← (if isspace c then f ← skip_space fmt; s ← skip_space str; Some (f, s) else Some (fmt, str));
  match fmt, str with
  | c :: fmt', x :: str' =>
      if negb (c =? 37) && negb (c =? NUL) then
        if negb (c =? x) then Some (Stop num st) else Some (Go fmt' str' args num st)
      else if c =? NUL then Some (Stop num st)
      else
        d ← head fmt';
        if d =? 42 then
          f ← skip_word fmt';
          s ← skip_word str;
          Some (Go f s args num st)
        else
          '(width, fmt) ← (if isdigit d then skip_atoi fmt' 0 else Some (-1, fmt'));
          '(qualifier, fmt) ← scan_qualifier fmt;
          scan_conversion len0 fmt str args width qualifier num st
  | _, _ => None
  end.

Fixpoint scan_loop (fuel : nat) (len0 : nat) (fmt str args : list Z) (num : Z) (st : list (Z * scanned)) : option (Z * list (Z * scanned)) :=
  match fuel with
  | O => None
  | S fuel =>
      c ← head fmt;
      x ← (if c =? NUL then Some 1 else head str);
      if (c =? NUL) || (x =? NUL) then Some (num, st)
      else
        r ← scan_once len0 fmt str args num st;
        match r with
        | Go fmt str args num st => scan_loop fuel len0 fmt str args num st
        | Stop num st => Some (num, st)
        end
  end.

(** The number of conversions, and what was stored, the last first *)
Definition vsscanf (buf fmt args : list Z) : option (Z * list (Z * scanned)) :=
  scan_loop (S (length fmt)) (length buf) fmt buf args 0 [].
Definition sscanf := vsscanf.

End Scanf.
