(* ===== verification/ScanfSpec.v ===== *)
(** * Printed numbers are read back

    The digits [number] prints have the value of the number; [simple_strtoul] reads them;
    and [vsscanf] reads what [vsnprintf] wrote. *)

From S2P Require Import Prelude KString.
From S2P Require Export PrintfSpec Scanf.

Module ScanfSpec.
Import KString.
Export PrintfSpec Scanf.

Local Open Scope Z_scope.

(** ** Digits *)

(** The value of digits, the highest first *)
Definition value (base : Z) (ds : list Z) : Z := foldl (fun a d => a * base + d) 0 ds.

Lemma to_base_value fuel base n : 2 <= base -> 0 <= n < 2 ^ Z.of_nat fuel -> (0 < fuel)%nat ->
  value base (to_base fuel base n) = n /\ Forall (fun d => 0 <= d < base) (to_base fuel base n) /\ to_base fuel base n <> [].
Proof.
  intros Hb. revert n. induction fuel as [|fuel IH]; intros n Hn Hf; [lia|]. cbn [to_base]. destruct (Z.ltb_spec n base) as [Hlt|Hge].
  - split_and!; [unfold value; simpl; lia|apply Forall_singleton; lia|done].
  - rewrite Nat2Z.inj_succ, Z.pow_succ_r in Hn by lia. pose proof (Z.div_mod n base ltac:(lia)) as Hdm. pose proof (Z.mod_pos_bound n base ltac:(lia)).
    assert (0 < n / base) by (apply Z.div_str_pos; lia). assert (n / base < 2 ^ Z.of_nat fuel) by nia.
    destruct fuel as [|fuel]; [change (2 ^ Z.of_nat 0) with 1 in *; lia|].
    destruct (IH (n / base) ltac:(lia) ltac:(lia)) as (E & Ha & _). split_and!.
    + unfold value in *. rewrite foldl_snoc, E. lia.
    + apply Forall_app. split; [done|]. by apply Forall_singleton.
    + by destruct (to_base (S fuel) base (n / base)).
Qed.

Definition hex_char_ok (digits : list Z) (d : Z) : bool :=
  let c := digit_at digits d in isxdigit c && (digit_value c =? d) && negb (isspace c) && negb (c =? NUL) && negb (c =? 45)
  && ((10 <=? d) || isdigit c) && ((8 <=? d) || (c <=? 55)).
Lemma hex_chars (large : bool) d : 0 <= d < 16 -> hex_char_ok (if large then large_digits else small_digits) d = true.
Proof.
  intros Hd. assert (H : forallb (hex_char_ok (if large then large_digits else small_digits)) (seqZ 0 16) = true) by (destruct large; reflexivity).
  rewrite forallb_forall in H. apply H, list_elem_of_In, elem_of_seqZ. lia.
Qed.

(** The string goes on with no digit of the base. *)
Definition ends_number (base : Z) (rest : list Z) : Prop := exists c l, rest = c :: l /\ isxdigit c && (digit_value c <? base) = false.

Section Digits.
Context (large : bool) (base : Z) (Hbase : 2 <= base <= 16).

Definition digit_char (d : Z) : Z := digit_at (if large then large_digits else small_digits) d.

Lemma digit_char_facts d : 0 <= d < 16 -> isxdigit (digit_char d) = true /\ digit_value (digit_char d) = d /\ isspace (digit_char d) = false
  /\ digit_char d <> NUL /\ digit_char d <> 45 /\ (d < 10 -> isdigit (digit_char d) = true) /\ (d < 8 -> digit_char d <= 55).
Proof.
  intros Hd. pose proof (hex_chars large d Hd) as H. unfold hex_char_ok in H. fold (digit_char d) in H. unfold NUL in *.
  repeat (apply andb_true_iff in H as [H ?]). split_and!; [done|lia|by apply negb_true_iff|lia|lia| |lia]. intros Hlt. apply orb_true_iff in H1 as [?|?]; [lia|done].
Qed.

Lemma strtoul_digits w ds rest r : 0 < w -> Forall (fun d => 0 <= d < base) ds -> ends_number base rest ->
  strtoul_loop w base ((digit_char <$> ds) ++ rest) r = Some (foldl (fun a d => (a * base + d) mod 2 ^ w) r ds, rest).
Proof.
  intros Hw Hds (c & l & -> & Hc). revert r. induction Hds as [|d ds Hd _ IH]; intros r.
  - cbn [fmap list_fmap app strtoul_loop foldl]. by rewrite Hc.
  - rewrite fmap_cons. cbn [app strtoul_loop foldl]. destruct (digit_char_facts d ltac:(lia)) as (E1 & E2 & _). rewrite E1, E2.
    replace (d <? base) with true by lia. cbn [andb]. apply IH.
Qed.

Lemma value_mod w ds r : 0 < w -> Forall (fun d => 0 <= d < base) ds -> 0 <= r ->
  foldl (fun a d => a * base + d) r ds < 2 ^ w -> foldl (fun a d => (a * base + d) mod 2 ^ w) r ds = foldl (fun a d => a * base + d) r ds.
Proof.
  intros Hw Hds. revert r. induction Hds as [|d ds Hd Hds IH]; intros r Hr Hv; [done|]. cbn [foldl] in *.
  assert (Hge : forall r', 0 <= r' -> r' <= foldl (fun a d => a * base + d) r' ds).
  { clear - Hds Hbase. induction Hds as [|e ds He _ IH]; intros r' Hr'; simpl; [lia|]. transitivity (r' * base + e); [nia|]. apply IH. nia. }
  specialize (Hge (r * base + d) ltac:(nia)). rewrite Z.mod_small by nia. apply IH; [nia|done].
Qed.

(** Digits as [number] prints them are read as the number. *)
Lemma strtoul_number w n rest : 0 < w <= 64 -> 0 <= n < 2 ^ w -> ends_number base rest ->
  strto w ((digit_char <$> to_base 64 base n) ++ rest) base = Some (n, rest).
Proof.
  intros Hw Hn Hr. assert (Hlt : 2 ^ w <= 2 ^ 64) by (apply Z.pow_le_mono_r; lia).
  destruct (to_base_value 64 base n) as (E & Ha & _); [lia|change (Z.of_nat 64) with 64; lia|lia|]. unfold strto. replace (base =? 0) with false by lia.
  cbn [mbind option_bind]. rewrite strtoul_digits by (done || lia). unfold value in E. rewrite value_mod by (done || lia). by rewrite E.
Qed.

End Digits.

(** ** What is printed is read back *)

(** A format of one conversion: [%d], [%u], [%x], [%X] or [%o] *)
Definition one_conv (c : Z) : list Z := [37; c; NUL].
Definition conv_base (c : Z) : Z := if c =? 111 then 8 else if (c =? 120) || (c =? 88) then 16 else 10.
Definition int_conv (c : Z) : bool := (c =? 100) || (c =? 117) || (c =? 120) || (c =? 88) || (c =? 111).
(** The number an argument is for the conversion *)
Definition conv_value (c w : Z) : Z := if c =? 100 then s32 w else u32 w.

Definition plain_text (c n : Z) : list Z :=
  (if n <? 0 then [45] else []) ++ (digit_char (c =? 88) <$> to_base 64 (conv_base c) (Z.abs n)).

Lemma s64_u32 x : s64 (u32 x mod 2 ^ 64) = u32 x.
Proof. pose proof (u32_range x). rewrite (Z.mod_small (u32 x)) by lia. apply s64_small. lia. Qed.
Lemma s64_s32 x : s64 (s32 x mod 2 ^ 64) = s32 x.
Proof.
  pose proof (s32_range x). unfold s64. rewrite Zplus_mod_idemp_l. rewrite Z.mod_small by lia. lia.
Qed.
Lemma s32_u32 x : s32 (u32 x) = s32 x.
Proof. unfold s32, u32. by rewrite Zplus_mod_idemp_l. Qed.

Lemma number_text_plain type base n : number_text type base n (-1) (-1) = (number_sign type n ++ number_prefix type base) ++ number_digits type base n.
Proof.
  assert (E : forall k c, replicate (Z.to_nat (-1 - Z.of_nat k)) c = @nil Z) by (intros k c; by replace (Z.to_nat (-1 - Z.of_nat k)) with 0%nat by lia).
  unfold number_text, zeros, spaces. rewrite !E. simpl. rewrite !app_nil_r. by destruct (flag type LEFT), (flag type ZEROPAD).
Qed.

Lemma render_one arrays c w : int_conv c = true -> render arrays (one_conv c) [w] = Some (plain_text c (conv_value c w), []).
Proof.
  intros Hc. unfold int_conv in Hc. pose proof (u32_range w) as Hu.
  assert (Hr : forall type n, num_text (conv_base c) (mk_dir type (-1) (-1) (-1)) [w] = Some (number_text type (conv_base c) n (-1) (-1), []) ->
    render_conv arrays (mk_dir 0 (-1) (-1) (-1)) [c; NUL] [w] 0
      = ('(l, args) ← num_text (conv_base c) (mk_dir type (-1) (-1) (-1)) [w]; Some (l, args, [], [NUL])) ->
    (number_sign type n ++ number_prefix type (conv_base c)) ++ number_digits type (conv_base c) n = plain_text c (conv_value c w) ->
    get_directive [c; NUL] [w] = Some (mk_dir 0 (-1) (-1) (-1), [c; NUL], [w]) ->
    render arrays (one_conv c) [w] = Some (plain_text c (conv_value c w), [])).
  { intros type n E1 E2 E3 E4. unfold render, one_conv. change (length [37; c; NUL]) with 3%nat. cbn [render_loop]. change (37 =? NUL) with false. change (negb (37 =? 37)) with false.
    cbv iota. rewrite E4. cbn [mbind option_bind]. rewrite E2, E1. cbn [mbind option_bind]. change (NUL =? NUL) with true. cbv iota. cbn [mbind option_bind].
    by rewrite number_text_plain, E3, app_nil_r. }
  assert (Hget : forall base type, flag type SIGN = false -> num_text base (mk_dir type (-1) (-1) (-1)) [w] = Some (number_text type base (u32 w) (-1) (-1), [])).
  { intros base type Ht. unfold num_text, get_num. simpl. rewrite Ht. cbn [mbind option_bind]. by rewrite s64_u32. }
  assert (Hneg : (u32 w <? 0) = false) by lia. assert (Habs : u32 w mod 2 ^ 64 = Z.abs (u32 w)) by (rewrite Z.mod_small; lia).
  assert (H : c = 100 \/ c = 117 \/ c = 120 \/ c = 88 \/ c = 111) by lia. unfold conv_value, plain_text, number_digits, number_sign, conv_base in Hr.
  destruct H as [->|[->|[->|[->| ->]]]].
  - apply (Hr SIGN (s32 w)); [|reflexivity| |reflexivity].
    + unfold num_text. change (get_num _ [w]) with (Some (s32 (u32 w) mod 2 ^ 64, @nil Z)). cbn [mbind option_bind]. by rewrite s32_u32, s64_s32.
    + cbn -[s32 u32 to_base Z.modulo Z.pow]. destruct (s32 w <? 0); done.
  - apply (Hr 0 (u32 w)); [by apply Hget|reflexivity| |reflexivity]. cbn -[s32 u32 to_base Z.modulo Z.pow Z.abs Z.ltb]. by rewrite Hneg, Habs.
  - apply (Hr 0 (u32 w)); [by apply Hget|reflexivity| |reflexivity]. cbn -[s32 u32 to_base Z.modulo Z.pow Z.abs Z.ltb]. by rewrite Hneg, Habs.
  - apply (Hr LARGE (u32 w)); [by apply Hget|reflexivity| |reflexivity]. cbn -[s32 u32 to_base Z.modulo Z.pow Z.abs Z.ltb]. by rewrite Hneg, Habs.
  - apply (Hr 0 (u32 w)); [by apply Hget|reflexivity| |reflexivity]. cbn -[s32 u32 to_base Z.modulo Z.pow Z.abs Z.ltb]. by rewrite Hneg, Habs.
Qed.

(** *** Reading *)

Lemma ends_NUL base rest : ends_number base (NUL :: rest).
Proof. by exists NUL, rest. Qed.

(** One conversion of an integer at a string that begins with its digits *)
Lemma scan_conv len0 c base sign x str v p : int_conversion c = Some (base, sign) -> int_conv c = true -> isspace x = false -> x <> NUL ->
  (exists digit, (if sign && (x =? 45) then head str else Some x) = Some digit /\ no_digit base digit = false) ->
  (exists next, scan_int (-1) sign base (x :: str) = Some (Int 4 v, NUL :: next)) ->
  scan_loop 4 len0 (one_conv c) (x :: str) [p] 0 [] = Some (1, [(u32 p, Int 4 v)]).
Proof.
  intros Hi Hc Hx Hx0 (digit & Hd & Hnd) (next & Hs). unfold int_conv in Hc. unfold NUL in Hx0.
  assert (H : c = 100 \/ c = 117 \/ c = 120 \/ c = 88 \/ c = 111) by lia.
  assert (Hq : scan_once len0 (one_conv c) (x :: str) [p] 0 [] = scan_conversion len0 [c; NUL] (x :: str) [p] (-1) (-1) 0 []).
  { destruct H as [->|[->|[->|[->| ->]]]]; reflexivity. }
  assert (Hv : scan_conversion len0 [c; NUL] (x :: str) [p] (-1) (-1) 0 [] = Some (Go [NUL] (NUL :: next) [] 1 [(u32 p, Int 4 v)])).
  { unfold scan_conversion. replace ((c =? NUL) || (x =? NUL)) with false by (unfold NUL; lia). rewrite !(proj2 (Z.eqb_neq c _)) by lia. rewrite Hi.
    cbn [skip_space]. rewrite Hx. cbn [mbind option_bind]. rewrite Hd. cbn [mbind option_bind]. rewrite Hnd. cbn [va_uint mbind option_bind]. rewrite Hs. done. }
  cbn [scan_loop]. change (head (one_conv c)) with (Some 37). cbn [mbind option_bind]. change (37 =? NUL) with false. cbn [head mbind option_bind orb].
  rewrite (proj2 (Z.eqb_neq x NUL)) by done. rewrite Hq, Hv. done.
Qed.

Lemma no_digit_char large base d : 2 <= base <= 16 -> base = 8 \/ base = 10 \/ base = 16 -> 0 <= d < base -> no_digit base (digit_char large d) = false.
Proof.
  intros Hb Hb' Hd. destruct (digit_char_facts large d ltac:(lia)) as (E1 & _ & _ & E4 & _ & E6 & E7). unfold no_digit, NUL in *.
  rewrite E1. destruct Hb' as [->|[->| ->]]; cbn [Z.eqb Pos.eqb andb]; rewrite ?E6 by lia; lia.
Qed.

Lemma scan_plain c n rest p : int_conv c = true -> (if c =? 100 then - 2 ^ 31 <= n < 2 ^ 31 else 0 <= n < 2 ^ 32) ->
  vsscanf (plain_text c n ++ NUL :: rest) (one_conv c) [p] = Some (1, [(u32 p, Int 4 n)]).
Proof.
  intros Hc Hn. unfold vsscanf. set (len0 := length (plain_text c n ++ NUL :: rest)). change (S (length (one_conv c))) with 4%nat. clearbody len0. pose proof Hc as Hc'. unfold int_conv in Hc'.
  assert (Hb : 2 <= conv_base c <= 16 /\ (conv_base c = 8 \/ conv_base c = 10 \/ conv_base c = 16)).
  { unfold conv_base. destruct (c =? 111), ((c =? 120) || (c =? 88)); lia. }
  destruct Hb as [Hb Hb']. assert (Habs : 0 <= Z.abs n < 2 ^ 32) by (revert Hn; destruct (c =? 100); lia).
  destruct (to_base_value 64 (conv_base c) (Z.abs n)) as (_ & Ha & Hne); [lia|change (Z.of_nat 64) with 64; lia|lia|].
  pose proof (strtoul_number (c =? 88) (conv_base c) Hb 32 (Z.abs n) (NUL :: rest) ltac:(lia) Habs (ends_NUL _ _)) as Hstr.
  unfold plain_text. destruct (to_base 64 (conv_base c) (Z.abs n)) as [|d ds] eqn:Eds; [done|]. apply Forall_cons in Ha as [Hd _].
  destruct (digit_char_facts (c =? 88) d ltac:(lia)) as (_ & _ & Esp & Enul & Eminus & _).
  pose proof (no_digit_char (c =? 88) (conv_base c) d Hb Hb' Hd) as Hnd. rewrite fmap_cons in *. cbn [app] in Hstr |- *.
  destruct (Z.ltb_spec n 0) as [Hneg|Hpos]; cbn [app].
  - assert (c = 100) as -> by (destruct (Z.eqb_spec c 100); [done|lia]). change (- 2 ^ 31 <= n < 2 ^ 31) in Hn. apply (scan_conv len0 100 10 true); try done.
    + exists (digit_char false d). done.
    + exists rest. unfold scan_int. cbn -[simple_strtol]. unfold simple_strtol. change (45 =? 45) with true. cbv iota. unfold simple_strtoul.
      change (conv_base 100) with 10 in Hstr. change (100 =? 88) with false in Hstr. rewrite Hstr. cbn [mbind option_bind]. rewrite s32_small by lia.
      unfold narrow. replace ((- Z.abs n + 2 ^ (32 - 1)) mod 2 ^ 32) with (- Z.abs n + 2 ^ (32 - 1)) by (rewrite Z.mod_small; lia). do 3 f_equal. lia.
  - replace (Z.abs n) with n in Hstr by lia.
    assert (Hi : int_conversion c = Some (conv_base c, c =? 100)).
    { assert (H : c = 100 \/ c = 117 \/ c = 120 \/ c = 88 \/ c = 111) by lia. destruct H as [->|[->|[->|[->| ->]]]]; reflexivity. }
    apply (scan_conv len0 c (conv_base c) (c =? 100)); try done.
    + exists (digit_char (c =? 88) d). rewrite (proj2 (Z.eqb_neq _ 45)) by done. by rewrite andb_false_r.
    + exists rest. unfold scan_int. cbn -[simple_strtol simple_strtoul narrow]. unfold simple_strtol. rewrite (proj2 (Z.eqb_neq _ 45)) by done.
      unfold simple_strtoul. rewrite Hstr. revert Hn. destruct (c =? 100); intros Hn; cbn [mbind option_bind]; unfold narrow.
      * rewrite s32_small by lia. do 3 f_equal. rewrite Z.mod_small; lia.
      * do 3 f_equal. rewrite Z.mod_small; lia.
Qed.

(** ** [vsscanf] stays within its strings *)

(** [s'] is a part of [s] from some character on, and there is a terminator in it. *)
Definition tail_of (s s' : list Z) : Prop := NUL ∈ s' /\ (length s' <= length s)%nat.

Lemma tail_refl s : NUL ∈ s -> tail_of s s.
Proof. by split. Qed.
Lemma tail_trans s s' s'' : tail_of s s' -> tail_of s' s'' -> tail_of s s''.
Proof. intros [_ ?] [? ?]. split; [done|lia]. Qed.
Lemma tail_step c s : NUL ∈ c :: s -> c <> NUL -> NUL ∈ s.
Proof. intros [E|]%elem_of_cons; [congruence|done]. Qed.
Lemma tail_cons c s s' : tail_of s s' -> tail_of (c :: s) s'.
Proof. intros [? ?]. split; [done|simpl; lia]. Qed.
Lemma NUL_nonempty s : NUL ∈ s -> exists c s', s = c :: s'.
Proof. destruct s as [|c s]; [by intros []%elem_of_nil|]. by exists c, s. Qed.

Lemma class_NUL : isspace NUL = false /\ isdigit NUL = false /\ isxdigit NUL = false.
Proof. done. Qed.
Lemma space_not_NUL c : isspace c = true -> c <> NUL.
Proof. intros H ->. done. Qed.
Lemma digit_not_NUL c : isdigit c = true -> c <> NUL.
Proof. intros H ->. done. Qed.
Lemma xdigit_not_NUL c : isxdigit c = true -> c <> NUL.
Proof. intros H ->. done. Qed.

Lemma skip_space_total s : NUL ∈ s -> exists s', skip_space s = Some s' /\ tail_of s s'.
Proof.
  induction s as [|c s IH]; intros H; [by apply elem_of_nil in H|]. cbn [skip_space]. destruct (isspace c) eqn:E; [|eexists; split; [done|by apply tail_refl]].
  apply space_not_NUL in E. destruct (IH (tail_step _ _ H E)) as (s' & -> & Ht). eexists. split; [done|by apply tail_cons].
Qed.
Lemma skip_word_total s : NUL ∈ s -> exists s', skip_word s = Some s' /\ tail_of s s'.
Proof.
  induction s as [|c s IH]; intros H; [by apply elem_of_nil in H|]. cbn [skip_word]. destruct (negb (isspace c) && negb (c =? NUL)) eqn:E; [|eexists; split; [done|by apply tail_refl]].
  destruct (IH (tail_step c _ H ltac:(unfold NUL in *; lia))) as (s' & -> & Ht). eexists. split; [done|by apply tail_cons].
Qed.
Lemma skip_atoi_total s i : NUL ∈ s -> exists n s', skip_atoi s i = Some (n, s') /\ tail_of s s'.
Proof.
  revert i. induction s as [|c s IH]; intros i H; [by apply elem_of_nil in H|]. cbn [skip_atoi]. destruct (isdigit c) eqn:E; [|eexists _, _; split; [done|by apply tail_refl]].
  apply digit_not_NUL in E. destruct (IH (s32 (i * 10 + c - 48)) (tail_step _ _ H E)) as (n & s' & -> & Ht). eexists _, _. split; [done|by apply tail_cons].
Qed.
Lemma scan_chars_total s width l : NUL ∈ s -> head s <> Some NUL -> exists cs s', scan_chars s width l = Some (cs, s') /\ tail_of s s'.
Proof.
  revert width l. induction s as [|c s IH]; intros width l H Hh; [by apply elem_of_nil in H|]. cbn [scan_chars].
  assert (Hs : NUL ∈ s) by (apply (tail_step c); [done|]; intros ->; done).
  destruct (0 <? s32 (width - 1)); [|eexists _, _; split; [done|by apply tail_cons, tail_refl]].
  destruct (NUL_nonempty s Hs) as (d & s1 & ->). destruct (Z.eqb_spec d NUL) as [->|Hd]; [eexists _, _; split; [done|by apply tail_cons, tail_refl]|].
  destruct (IH (s32 (width - 1)) (l ++ [c]) Hs) as (cs & s' & -> & Ht); [intros [= ->]; done|]. eexists _, _. split; [done|by apply tail_cons].
Qed.
Lemma scan_word_total s width l : NUL ∈ s -> exists cs s', scan_word s width l = Some (cs, s') /\ tail_of s s'.
Proof.
  revert width l. induction s as [|c s IH]; intros width l H; [by apply elem_of_nil in H|]. cbn [scan_word].
  destruct (negb (c =? NUL) && negb (isspace c) && negb (width =? 0)) eqn:E; [|eexists _, _; split; [done|by apply tail_refl]].
  destruct (IH (s32 (width - 1)) (l ++ [c]) (tail_step c _ H ltac:(unfold NUL in *; lia))) as (cs & s' & -> & Ht). eexists _, _. split; [done|by apply tail_cons].
Qed.

Lemma strtoul_loop_total w base s r : NUL ∈ s -> exists v s', strtoul_loop w base s r = Some (v, s') /\ tail_of s s'.
Proof.
  revert r. induction s as [|c s IH]; intros r H; [by apply elem_of_nil in H|]. cbn [strtoul_loop].
  destruct (isxdigit c) eqn:E; [|eexists _, _; split; [done|by apply tail_refl]]. apply xdigit_not_NUL in E.
  destruct (digit_value c <? base); [|eexists _, _; split; [done|by apply tail_refl]].
  destruct (IH ((r * base + digit_value c) mod 2 ^ w) (tail_step _ _ H E)) as (v & s' & -> & Ht). eexists _, _. split; [done|by apply tail_cons].
Qed.
Lemma detect_base_total s : NUL ∈ s -> exists b s', detect_base s = Some (b, s') /\ tail_of s s'.
Proof.
  intros H. destruct (NUL_nonempty s H) as (c & s1 & ->). cbn [detect_base]. destruct (Z.eqb_spec c 48) as [->|]; [|eexists _, _; split; [done|by apply tail_refl]].
  apply tail_step in H; [|done]. destruct (NUL_nonempty s1 H) as (x & s2 & ->). destruct (Z.eqb_spec x 120) as [->|]; [|eexists _, _; split; [done|by apply tail_cons, tail_refl]].
  pose proof H as H2. apply tail_step in H2; [|done]. destruct (NUL_nonempty s2 H2) as (d & s3 & ->).
  destruct (isxdigit d); eexists _, _; (split; [done|]); [by apply tail_cons, tail_cons, tail_refl|by apply tail_cons, tail_refl].
Qed.
Lemma strto_total w s base : NUL ∈ s -> exists v s', strto w s base = Some (v, s') /\ tail_of s s'.
Proof.
  intros H. unfold strto. destruct (base =? 0); cbn [mbind option_bind]; [|by apply strtoul_loop_total].
  destruct (detect_base_total s H) as (b & s1 & -> & T1). cbn [mbind option_bind]. destruct (strtoul_loop_total w b s1 0 (proj1 T1)) as (v & s' & -> & T2).
  eexists _, _. split; [done|by eapply tail_trans].
Qed.
Lemma strtol_total s base : NUL ∈ s -> (exists v s', simple_strtol s base = Some (v, s') /\ tail_of s s') /\ (exists v s', simple_strtoll s base = Some (v, s') /\ tail_of s s').
Proof.
  intros H. destruct (NUL_nonempty s H) as (c & s1 & ->). unfold simple_strtol, simple_strtoll, simple_strtoul, simple_strtoull. destruct (Z.eqb_spec c 45) as [->|].
  - apply tail_step in H; [|done]. destruct (strto_total 32 s1 base H) as (v & s' & -> & T). destruct (strto_total 64 s1 base H) as (v' & s2 & -> & T').
    split; eexists _, _; (split; [done|by apply tail_cons]).
  - destruct (strto_total 32 _ base H) as (v & s' & -> & T). destruct (strto_total 64 _ base H) as (v' & s2 & -> & T'). split; eexists _, _; (split; [done|done]).
Qed.

Lemma scan_int_total q sign base s : NUL ∈ s -> exists v s', scan_int q sign base s = Some (v, s') /\ tail_of s s'.
Proof.
  intros H. destruct (strtol_total s base H) as [(v1 & s1 & E1 & T1) (v2 & s2 & E2 & T2)].
  destruct (strto_total 32 s base H) as (v3 & s3 & E3 & T3). destruct (strto_total 64 s base H) as (v4 & s4 & E4 & T4).
  unfold scan_int. unfold simple_strtoul at 1. unfold simple_strtoul, simple_strtoull. rewrite E1, E2, E3, E4.
  destruct sign; cbn [mbind option_bind]; repeat (match goal with |- context [if ?b then _ else _] => destruct b end; cbn [mbind option_bind]); by eexists _, _.
Qed.

Lemma scan_qualifier_total s : NUL ∈ s -> exists q s', scan_qualifier s = Some (q, s') /\ tail_of s s'.
Proof.
  intros H. destruct (NUL_nonempty s H) as (c & s1 & ->). cbn [scan_qualifier].
  destruct ((c =? 104) || (c =? 108) || (c =? 76) || (c =? 90) || (c =? 122)) eqn:E; [|eexists _, _; split; [done|by apply tail_refl]].
  assert (Hc : c <> NUL) by (unfold NUL; lia). pose proof (tail_step _ _ H Hc) as H1. destruct (NUL_nonempty s1 H1) as (d & s2 & ->).
  destruct (Z.eqb_spec c d) as [<-|]; [|eexists _, _; split; [done|by apply tail_cons, tail_refl]]. pose proof (tail_step _ _ H1 Hc) as H2.
  destruct (c =? 104); [|destruct (c =? 108)]; eexists _, _; (split; [done|]);
    [by apply tail_cons, tail_cons, tail_refl|by apply tail_cons, tail_cons, tail_refl|by apply tail_cons, tail_refl].
Qed.

(** What a step of the loop leaves *)
Definition step_ok (fmt args : list Z) (r : scan_step) : Prop :=
  match r with
  | Go f s a _ _ => NUL ∈ f /\ NUL ∈ s /\ (length f < length fmt)%nat /\ (length args <= S (length a))%nat
  | Stop _ _ => True
  end.

Lemma scan_conversion_total len0 fmt str args width q num st : NUL ∈ fmt -> NUL ∈ str -> args <> [] ->
  exists r, scan_conversion len0 fmt str args width q num st = Some r /\ step_ok fmt args r.
Proof.
  intros Hf Hs Ha. destruct (NUL_nonempty fmt Hf) as (c & f1 & ->). destruct (NUL_nonempty str Hs) as (x & s1 & ->). destruct args as [|a args]; [done|].
  unfold scan_conversion. cbn [va_uint mbind option_bind]. destruct ((c =? NUL) || (x =? NUL)) eqn:E; [by eexists|].
  assert (Hc : c <> NUL /\ x <> NUL) by (unfold NUL in *; lia). destruct Hc as [Hc Hx]. pose proof (tail_step _ _ Hf Hc) as Hf1. pose proof (tail_step _ _ Hs Hx) as Hs1.
  destruct (c =? 99).
  { destruct (scan_chars_total (x :: s1) (if width =? -1 then 1 else width) [] Hs) as (cs & s' & -> & T); [intros [= ->]; done|]. eexists. split; [done|].
    destruct T. simpl. split_and!; try done; lia. }
  destruct (c =? 115).
  { destruct (skip_space_total _ Hs) as (s2 & -> & T). cbn [mbind option_bind].
    destruct (scan_word_total s2 (if width =? -1 then INT_MAX else width) [] (proj1 T)) as (cs & s' & -> & T'). eexists. split; [done|]. destruct T'. simpl. split_and!; try done; lia. }
  destruct (c =? 110); [eexists; split; [done|]; simpl; split_and!; try done; lia|].
  destruct (c =? 37); [destruct (x =? 37); [eexists; split; [done|]; simpl; split_and!; try done; lia|by eexists]|].
  destruct (int_conversion c) as [[base sign]|]; [|by eexists]. destruct (skip_space_total _ Hs) as (s2 & -> & T). cbn [mbind option_bind].
  destruct (NUL_nonempty s2 (proj1 T)) as (y & s3 & ->).
  assert (Hd : exists digit, (if sign && (y =? 45) then head s3 else Some y) = Some digit).
  { destruct sign, (Z.eqb_spec y 45) as [->|]; simpl; try by eexists. destruct (NUL_nonempty s3 (tail_step _ _ (proj1 T) ltac:(done))) as (z & s4 & ->). by eexists. }
  destruct Hd as (digit & ->). cbn [mbind option_bind]. destruct (no_digit base digit); [by eexists|].
  destruct (scan_int_total q sign base _ (proj1 T)) as (v & s' & -> & T'). eexists. split; [done|]. destruct T'. simpl. split_and!; try done; lia.
Qed.

Lemma step_ok_longer fmt fmt' args r : step_ok fmt' args r -> (length fmt' <= length fmt)%nat -> step_ok fmt args r.
Proof. destruct r; simpl; [|done]. intros (? & ? & ? & ?) Hl. split_and!; try done. lia. Qed.

Lemma scan_once_total len0 fmt str args num st : NUL ∈ fmt -> NUL ∈ str -> args <> [] -> exists r, scan_once len0 fmt str args num st = Some r /\ step_ok fmt args r.
Proof.
  intros Hf Hs Ha. unfold scan_once. destruct (NUL_nonempty fmt Hf) as (c0 & f0 & ->). cbn [head mbind option_bind].
  assert (Hsp : exists f s, (if isspace c0 then f ← skip_space (c0 :: f0); s ← skip_space str; Some (f, s) else Some (c0 :: f0, str)) = Some (f, s)
    /\ tail_of (c0 :: f0) f /\ NUL ∈ s).
  { destruct (isspace c0); [|eexists _, _; split_and!; [done|by apply tail_refl|done]].
    destruct (skip_space_total _ Hf) as (f & -> & Tf). destruct (skip_space_total _ Hs) as (s & -> & Ts). eexists _, _. split_and!; [done|done|apply Ts]. }
  destruct Hsp as (f & s & -> & [Hf' Hl] & Hs'). cbn [mbind option_bind]. destruct (NUL_nonempty f Hf') as (c & f1 & ->). destruct (NUL_nonempty s Hs') as (x & s1 & ->).
  destruct (negb (c =? 37) && negb (c =? NUL)) eqn:E.
  { assert (Hc : c <> NUL) by (unfold NUL in *; lia). destruct (Z.eqb_spec c x) as [<-|]; simpl; [|by eexists]. eexists. split; [done|]. simpl in Hl.
    split_and!; [by apply (tail_step c)|by apply (tail_step c)|simpl; lia|lia]. }
  destruct (Z.eqb_spec c NUL) as [->|Hc]; [by eexists|]. pose proof (tail_step _ _ Hf' Hc) as Hf1. destruct (NUL_nonempty f1 Hf1) as (d & f2 & ->). cbn [head mbind option_bind].
  simpl in Hl. destruct (d =? 42).
  { destruct (skip_word_total _ Hf1) as (f3 & -> & [? T]). destruct (skip_word_total _ Hs') as (s3 & -> & [? _]). eexists. split; [done|]. simpl in T |- *. split_and!; try done; lia. }
  assert (Hw : exists w f3, (if isdigit d then skip_atoi (d :: f2) 0 else Some (-1, d :: f2)) = Some (w, f3) /\ tail_of (d :: f2) f3).
  { destruct (isdigit d); [by apply skip_atoi_total|]. eexists _, _. split; [done|by apply tail_refl]. }
  destruct Hw as (w & f3 & -> & T3). cbn [mbind option_bind]. destruct (scan_qualifier_total f3 (proj1 T3)) as (q & f4 & -> & T4). cbn [mbind option_bind].
  destruct (scan_conversion_total len0 f4 (x :: s1) args w q num st (proj1 T4) Hs' Ha) as (r & -> & Hr). eexists. split; [done|].
  eapply step_ok_longer; [done|]. destruct T3 as [_ T3], T4 as [_ T4]. simpl in *. lia.
Qed.

Lemma scan_loop_total fuel len0 fmt str args num st : NUL ∈ fmt -> NUL ∈ str -> (length fmt < fuel)%nat -> (length fmt <= length args)%nat ->
  exists r, scan_loop fuel len0 fmt str args num st = Some r.
Proof.
  revert fmt str args num st. induction fuel as [|fuel IH]; intros fmt str args num st Hf Hs Hl Ha; [lia|]. cbn [scan_loop].
  destruct (NUL_nonempty fmt Hf) as (c & f1 & ->). destruct (NUL_nonempty str Hs) as (x & s1 & ->). cbn [head mbind option_bind].
  destruct (Z.eqb_spec c NUL) as [->|Hc]; cbn [mbind option_bind orb]; [by eexists|]. destruct (x =? NUL); [by eexists|].
  destruct (scan_once_total len0 (c :: f1) (x :: s1) args num st Hf Hs) as (r & -> & Hr); [intros ->; simpl in Ha; lia|]. cbn [mbind option_bind].
  destruct r as [f s a n st'|n st']; [|by eexists]. destruct Hr as (H1 & H2 & H3 & H4). apply IH; try done; simpl in *; lia.
Qed.

(** ** The theorems *)

(** The array at an address *)
Definition read_array (m : gmap Z Z) (buf size : Z) : list Z := (fun a => default 0 (m !! a)) <$> seqZ buf size.

Lemma read_written m buf size text : Z.of_nat (length text) < size -> exists rest, read_array (write buf (truncated text size) m) buf size = text ++ NUL :: rest.
Proof.
  intros Hl. assert (Et : truncated text size = text ++ [NUL]) by (unfold truncated; by rewrite take_ge by lia). rewrite Et. set (n := Z.of_nat (length text)).
  exists ((fun a => default 0 (write buf (text ++ [NUL]) m !! a)) <$> seqZ (buf + (n + 1)) (size - (n + 1))). unfold read_array.
  replace size with (n + 1 + (size - (n + 1))) at 1 by lia. rewrite seqZ_app, fmap_app by lia.
  rewrite (cons_middle NUL text (_ <$> _)), app_assoc. f_equal.
  apply (list_eq_same_length _ _ (Z.to_nat (n + 1))); [rewrite length_app; simpl; lia|by rewrite length_fmap, length_seqZ|].
  intros i x y Hi Hx Hy. apply list_lookup_fmap_Some in Hx as (a & -> & Ha). apply lookup_seqZ in Ha as [-> _].
  rewrite write_lookup, decide_True by (rewrite length_app; simpl; lia). replace (Z.to_nat (buf + Z.of_nat i - buf)) with i by lia. by rewrite Hy.
Qed.

Lemma plain_text_length c n : (length (plain_text c n) <= 65)%nat.
Proof. unfold plain_text. rewrite length_app, length_fmap. pose proof (to_base_length 64 (conv_base c) (Z.abs n)) as Hl. generalize dependent (length (to_base 64 (conv_base c) (Z.abs n))). intros k Hl. destruct (n <? 0); cbn [length]; lia. Qed.

(** C29: [vsnprintf] writes to the bytes of its buffer only: the part of the whole text that fits and a terminator, and
    nothing when the size is zero; it returns the length of the whole text, which is the reference rendering of the
    format with unbounded integers and no buffer, and stores for [%n] what that says. *)
Theorem vsnprintf_spec arrays m buf size fmt args text st : 0 < buf -> 0 <= size -> buf + size <= 2 ^ 32 -> object m buf size ->
  render arrays fmt args = Some (text, st) -> buf + Z.of_nat (length text) < 2 ^ 32 ->
  vsnprintf arrays m buf size fmt args = Some (s32 (Z.of_nat (length text)), if size =? 0 then m else write buf (truncated text size) m, st).
Proof. apply vsnprintf_text. Qed.

(** calls of [iprintf] one after the other leave in the buffer the texts one after the other, cut off where the
    buffer ends, with one terminator at the end; the pointer and the size left stand at the terminator. *)
Theorem iprintf_appends arrays calls m str size texts : 0 < str -> 0 < size -> str + size <= 2 ^ 32 -> size < 2 ^ 31 -> object m str size ->
  Forall2 (fun call text => exists st, render arrays (fst call) (snd call) = Some (text, st)) calls texts ->
  Forall (fun text => Z.of_nat (length text) < 2 ^ 31 /\ str + size + Z.of_nat (length text) < 2 ^ 32) texts -> calls <> [] ->
  let n := Z.min (Z.of_nat (length (concat texts))) (size - 1) in
  iprint_all arrays m str size calls = Some (str + n, size - n, write str (truncated (concat texts) size) m).
Proof. apply iprint_all_text. Qed.

(** C30: a 32-bit number printed with one of the bare conversions [%d], [%u], [%x], [%X] and [%o], without flags,
    width, precision or size, into a buffer that is large enough is read back by [vsscanf] with the same conversion:
    as a signed number with [%d], as an unsigned one with the others.  With flags it need not be ([scanf_no_flags]). *)
Theorem printf_scanf arrays m buf size c w p : int_conv c = true -> 0 < buf -> 66 <= size -> buf + size < 2 ^ 32 -> object m buf size ->
  exists r m', vsnprintf arrays m buf size (one_conv c) [w] = Some (r, m', [])
    /\ vsscanf (read_array m' buf size) (one_conv c) [p] = Some (1, [(u32 p, Int 4 (conv_value c w))]).
Proof.
  intros Hc Hb Hs Hbs Ho. pose proof (plain_text_length c (conv_value c w)) as Hl. eexists _, _. split.
  - apply vsnprintf_text; [done|lia|lia|done|by apply render_one|lia].
  - replace (size =? 0) with false by lia. destruct (read_written m buf size (plain_text c (conv_value c w))) as (rest & ->); [lia|].
    apply scan_plain; [done|]. unfold conv_value. destruct (c =? 100); [apply s32_range|apply u32_range].
Qed.

(** C36: [vsscanf] on a format and a string that have terminators, with a pointer for every character of the format,
    returns: it reads neither behind a terminator nor for ever. *)
Theorem vsscanf_total buf fmt args : NUL ∈ buf -> NUL ∈ fmt -> (length fmt <= length args)%nat -> exists r, vsscanf buf fmt args = Some r.
Proof. intros Hb Hf Ha. apply scan_loop_total; try done. lia. Qed.

(** ** On a buffer *)

Definition page : gmap Z Z := write 4096 (replicate 80 0) ∅.
Definition names : gmap Z (list Z) := {[ 64 := [97; 98; NUL] ]}.
(** ["%5d|%-4x|%s%n"] *)
Definition a_format : list Z := [37; 53; 100; 124; 37; 45; 52; 120; 124; 37; 115; 37; 110; NUL].
(** ["  -42|ff  |ab"] *)
Definition a_text : list Z := [32; 32; 45; 52; 50; 124; 102; 102; 32; 32; 124; 97; 98].

Lemma page_object size : size <= 80 -> object page 4096 size.
Proof. intros Hs a Ha. unfold page. rewrite write_lookup, length_replicate, decide_True by lia. apply lookup_lt_is_Some_2. rewrite length_replicate. lia. Qed.

Lemma vsnprintf_spec_witness : vsnprintf names page 4096 10 a_format [-42; 255; 64; 8]
  = Some (13, write 4096 [32; 32; 45; 52; 50; 124; 102; 102; 32; NUL] page, [(8, 13)]).
Proof. apply (vsnprintf_spec names page 4096 10 a_format [-42; 255; 64; 8] a_text [(8, 13)]); [lia|lia|lia|by apply page_object|reflexivity|simpl; lia]. Defined.

Lemma iprintf_appends_witness : iprint_all names page 4096 8 [([37; 100; 44; NUL], [17]); ([37; 115; 33; NUL], [64]); ([37; 99; NUL], [65])]
  = Some (4096 + 7, 1, write 4096 [49; 55; 44; 97; 98; 33; 65; NUL] page).
Proof.
  apply (iprintf_appends names _ page 4096 8 [[49; 55; 44]; [97; 98; 33]; [65]]); [lia|lia|lia|lia|by apply page_object| | |discriminate].
  - repeat constructor; by exists [].
  - repeat constructor; simpl; lia.
Defined.

Lemma printf_scanf_witness : exists r m', vsnprintf names page 4096 66 (one_conv 100) [-2147483648] = Some (r, m', [])
  /\ vsscanf (read_array m' 4096 66) (one_conv 100) [12] = Some (1, [(12, Int 4 (-2147483648))]).
Proof. apply (printf_scanf names page 4096 66 100 (-2147483648) 12); [reflexivity|lia|lia|lia|by apply page_object]. Defined.

Lemma vsscanf_total_witness : exists r, vsscanf [32; 55; NUL] [37; 105; NUL] [12; 16; 20] = Some r.
Proof. apply vsscanf_total; [by repeat constructor|by repeat constructor|simpl; lia]. Defined.

(** [vsscanf] knows no flags: it takes [%#x] and [%+d], which [vsnprintf] accepts, for the end of what it can read. *)
Example scanf_no_flags : vsscanf [48; 120; 49; NUL] [37; 35; 120; NUL] [12] = Some (0, [])
  /\ vsscanf [43; 49; NUL] [37; 43; 100; NUL] [12] = Some (0, []).
Proof. split; reflexivity. Qed.

(** A size of zero: the pointer moves back before the buffer and the size grows. *)
Example iprintf_no_room : iprintf names page 4096 0 [NUL] [] = Some (0, 4095, 1, page, []).
Proof. reflexivity. Qed.

End ScanfSpec.
