(* ===== verification/Vnode.v ===== *)
(** * Vnodes ([fs/vnode.c])

    The table of in-core vnodes over a file system given by its [fs_ops]
    (a type class, with the file system's private data as a parameter).  The
    build mounts one file system only, so [vn_fs] is the same for every vnode and
    is left implicit. *)

From S2P Require Import Prelude KString.

Module Vnode.

Local Open Scope Z_scope.

Definition S_IFCHR : Z := 0x100.
Definition S_IFDIR : Z := 0x200.
Definition S_IFBLK : Z := 0x400.
Definition S_IFREG : Z := 0x800.
Definition S_TYPE (m : Z) : Z := Z.land m 0xff00.
Definition S_ISCHR (m : Z) : bool := S_TYPE m =? S_IFCHR.
Definition S_ISDIR (m : Z) : bool := S_TYPE m =? S_IFDIR.
Definition S_ISBLK (m : Z) : bool := S_TYPE m =? S_IFBLK.
Definition S_ISREG (m : Z) : bool := S_TYPE m =? S_IFREG.
Definition ENOTSUP : Z := 95.
Definition EBUSY : Z := 16.

(** The operation tables a vnode can point to: the file system's table for
    directories, its table for regular files, and the two tables of special files. *)
Inductive vnode_ops : Set := fs_dir_vops | fs_file_vops | bytedev_spec_vops | blockdev_spec_vops.

Record vnode : Type := mk_vnode {
  vn_ops : option vnode_ops;
  vn_vno : Z;
  vn_refcount : Z;
  vn_nrespages : Z;
  vn_respages : list Z;       (** [vn_mmobj.mmo_respages] *)
  vn_mode : Z;
  vn_len : Z;
  vn_i : option Z;            (** the file system's data about the file *)
  vn_devid : Z;
  vn_cdev : option Z;
  vn_bdev : option Z;
  vn_busy : bool;             (** [VN_BUSY & vn_flags] *)
  vn_waitq : list Z
}.

(** The state of the file systems; [fs_i] is the private data of the mounted one. *)
Record fsys (I : Type) : Type := mk_fsys {
  vnodes : gmap Z vnode;
  vnode_inuse_list : list Z;
  fs_i : I;
  fs_root : option Z;
  fs_next : Z;                (** the next address the allocators hand out *)
  fs_budget : nat;            (** how many more allocations succeed *)
  fs_curthr : Z;
  fs_runq : list Z            (** threads made runnable here *)
}.
Arguments mk_fsys {I}.
Arguments vnodes {I}.
Arguments vnode_inuse_list {I}.
Arguments fs_i {I}.
Arguments fs_root {I}.
Arguments fs_next {I}.
Arguments fs_budget {I}.
Arguments fs_curthr {I}.
Arguments fs_runq {I}.

Definition set_vnodes {I} (f : gmap Z vnode -> gmap Z vnode) (s : fsys I) : fsys I :=
  mk_fsys (f (vnodes s)) (vnode_inuse_list s) (fs_i s) (fs_root s) (fs_next s) (fs_budget s) (fs_curthr s) (fs_runq s).
Definition set_inuse {I} (f : list Z -> list Z) (s : fsys I) : fsys I :=
  mk_fsys (vnodes s) (f (vnode_inuse_list s)) (fs_i s) (fs_root s) (fs_next s) (fs_budget s) (fs_curthr s) (fs_runq s).
Definition set_fs_i {I} (f : I -> I) (s : fsys I) : fsys I :=
  mk_fsys (vnodes s) (vnode_inuse_list s) (f (fs_i s)) (fs_root s) (fs_next s) (fs_budget s) (fs_curthr s) (fs_runq s).
Definition set_root {I} (r : option Z) (s : fsys I) : fsys I :=
  mk_fsys (vnodes s) (vnode_inuse_list s) (fs_i s) r (fs_next s) (fs_budget s) (fs_curthr s) (fs_runq s).
Definition set_runq {I} (f : list Z -> list Z) (s : fsys I) : fsys I :=
  mk_fsys (vnodes s) (vnode_inuse_list s) (fs_i s) (fs_root s) (fs_next s) (fs_budget s) (fs_curthr s) (f (fs_runq s)).

Definition with_refcount (c : Z) (v : vnode) : vnode :=
  mk_vnode (vn_ops v) (vn_vno v) c (vn_nrespages v) (vn_respages v) (vn_mode v) (vn_len v) (vn_i v)
    (vn_devid v) (vn_cdev v) (vn_bdev v) (vn_busy v) (vn_waitq v).
Definition with_respages (n : Z) (l : list Z) (v : vnode) : vnode :=
  mk_vnode (vn_ops v) (vn_vno v) (vn_refcount v) n l (vn_mode v) (vn_len v) (vn_i v)
    (vn_devid v) (vn_cdev v) (vn_bdev v) (vn_busy v) (vn_waitq v).
Definition with_len (n : Z) (v : vnode) : vnode :=
  mk_vnode (vn_ops v) (vn_vno v) (vn_refcount v) (vn_nrespages v) (vn_respages v) (vn_mode v) n (vn_i v)
    (vn_devid v) (vn_cdev v) (vn_bdev v) (vn_busy v) (vn_waitq v).
Definition with_i (i : option Z) (v : vnode) : vnode :=
  mk_vnode (vn_ops v) (vn_vno v) (vn_refcount v) (vn_nrespages v) (vn_respages v) (vn_mode v) (vn_len v) i
    (vn_devid v) (vn_cdev v) (vn_bdev v) (vn_busy v) (vn_waitq v).
Definition with_kind (mode : Z) (ops : option vnode_ops) (devid : Z) (v : vnode) : vnode :=
  mk_vnode ops (vn_vno v) (vn_refcount v) (vn_nrespages v) (vn_respages v) mode (vn_len v) (vn_i v)
    devid (vn_cdev v) (vn_bdev v) (vn_busy v) (vn_waitq v).
Definition with_cdev (d : option Z) (v : vnode) : vnode :=
  mk_vnode (Some bytedev_spec_vops) (vn_vno v) (vn_refcount v) (vn_nrespages v) (vn_respages v) (vn_mode v)
    (vn_len v) (vn_i v) (vn_devid v) d (vn_bdev v) (vn_busy v) (vn_waitq v).
Definition with_bdev (d : option Z) (v : vnode) : vnode :=
  mk_vnode (Some blockdev_spec_vops) (vn_vno v) (vn_refcount v) (vn_nrespages v) (vn_respages v) (vn_mode v)
    (vn_len v) (vn_i v) (vn_devid v) (vn_cdev v) d (vn_busy v) (vn_waitq v).
Definition with_busy (b : bool) (v : vnode) : vnode :=
  mk_vnode (vn_ops v) (vn_vno v) (vn_refcount v) (vn_nrespages v) (vn_respages v) (vn_mode v) (vn_len v) (vn_i v)
    (vn_devid v) (vn_cdev v) (vn_bdev v) b (vn_waitq v).
Definition with_waitq (q : list Z) (v : vnode) : vnode :=
  mk_vnode (vn_ops v) (vn_vno v) (vn_refcount v) (vn_nrespages v) (vn_respages v) (vn_mode v) (vn_len v) (vn_i v)
    (vn_devid v) (vn_cdev v) (vn_bdev v) (vn_busy v) q.

Definition get_vnode {I} (vn : Z) : kernel (fsys I) vnode := s <- kget ;; kderef (vnodes s !! vn).
Definition upd_vnode {I} (vn : Z) (f : vnode -> vnode) : kernel (fsys I) unit :=
  get_vnode vn ;;; kmodify (set_vnodes (alter f vn)).

(** Updates of different parts of the state commute; the normal form has the
    vnodes outermost, then the list of vnodes in use, then the private data. *)
Section updates.
Context {I : Type} (s : fsys I).

Lemma set_vnodes_twice f g : set_vnodes f (set_vnodes g s) = set_vnodes (fun m => f (g m)) s.
Proof. done. Qed.
Lemma set_inuse_vnodes f g : set_inuse f (set_vnodes g s) = set_vnodes g (set_inuse f s).
Proof. done. Qed.
Lemma set_fs_i_vnodes f g : set_fs_i f (set_vnodes g s) = set_vnodes g (set_fs_i f s).
Proof. done. Qed.
Lemma set_fs_i_inuse f g : set_fs_i f (set_inuse g s) = set_inuse g (set_fs_i f s).
Proof. done. Qed.
Lemma set_fs_i_twice f g : set_fs_i f (set_fs_i g s) = set_fs_i (fun m => f (g m)) s.
Proof. done. Qed.
Lemma set_vnodes_insert_twice vn a b :
  set_vnodes (insert vn a) (set_vnodes (insert vn b) s) = set_vnodes (insert vn a) s.
Proof. rewrite set_vnodes_twice. unfold set_vnodes. by rewrite insert_insert_eq. Qed.
Lemma set_vnodes_delete_insert vn b :
  set_vnodes (delete vn) (set_vnodes (insert vn b) s) = set_vnodes (delete vn) s.
Proof. rewrite set_vnodes_twice. unfold set_vnodes. by rewrite delete_insert_eq. Qed.

End updates.

Create HintDb fsys discriminated.
#[export] Hint Rewrite @set_vnodes_insert_twice @set_vnodes_delete_insert @set_inuse_vnodes @set_fs_i_vnodes
  @set_fs_i_inuse : fsys.

(** [kmalloc], [slab_obj_alloc] and [page_alloc]: a fresh address, or none. *)
Definition mem_alloc {I} : kernel (fsys I) (option Z) :=
  s <- kget ;;
  match fs_budget s with
  | O => kret None
  | S b =>
      kput (mk_fsys (vnodes s) (vnode_inuse_list s) (fs_i s) (fs_root s) (fs_next s + 1) b (fs_curthr s) (fs_runq s)) ;;;
      kret (Some (fs_next s))
  end.

(** What a file system promises to the vnode layer ([fs_ops_t]). *)
Class FsOps (I : Type) : Type := {
  read_vnode : Z -> kernel (fsys I) unit;
  delete_vnode : Z -> kernel (fsys I) unit;
  query_vnode : Z -> kernel (fsys I) bool
}.

(** What the rest of the kernel provides: the device tables, the byte device
    operations, the page frame side of uncaching a page (waiting until it is not
    busy, and the parts of [pframe_free] that do not concern the vnode), and how
    often [vget] may be told to try again before the model gives up. *)
Class Platform (I : Type) : Type := {
  bytedev_lookup : Z -> option Z;
  blockdev_lookup : Z -> option Z;
  cd_read : Z -> Z -> Z -> kernel (fsys I) (Z * list Z);
  cd_write : Z -> Z -> list Z -> Z -> kernel (fsys I) Z;
  pframe_uncache : Z -> kernel (fsys I) unit;
  retries : nat
}.

Section vnodes.
Context {I : Type} `{FsOps I} `{Platform I}.
Abbreviation M := (kernel (fsys I)).

(** [sched_sleep_on(&vn->vn_waitq)] *)
Definition sleep_on_waitq (vn : Z) : M unit :=
  s <- kget ;;
  upd_vnode vn (fun v => with_waitq (vn_waitq v ++ [fs_curthr s]) v) ;;;
  kenv CtxSwitch.

(** [sched_broadcast_on(&vn->vn_waitq)] *)
Definition broadcast_on_waitq (vn : Z) : M unit :=
  v <- get_vnode vn ;;
  kmodify (set_runq (fun q => q ++ vn_waitq v)) ;;;
  upd_vnode vn (with_waitq []).

Definition vref (vn : Z) : M unit :=
  v <- get_vnode vn ;;
  kassert (0 <? vn_refcount v) ;;;
  upd_vnode vn (fun v => with_refcount (s32 (vn_refcount v + 1)) v).

Definition init_special_vnode (vn : Z) : M unit :=
  v <- get_vnode vn ;;
  if S_ISCHR (vn_mode v) then upd_vnode vn (with_cdev (bytedev_lookup (vn_devid v)))
  else
    kassert (S_ISBLK (vn_mode v)) ;;;
    upd_vnode vn (with_bdev (blockdev_lookup (vn_devid v))).

(** The search of [vget] through the vnodes in use. *)
Fixpoint find_vnode (l : list Z) (vno : Z) : M (option Z) :=
  match l with
  | [] => kret None
  | vn :: l => v <- get_vnode vn ;; if vn_vno v =? vno then kret (Some vn) else find_vnode l vno
  end.

(** Bringing a vnode in: the part of [vget] after the allocation. *)
Definition bring_in (vn vno : Z) : M unit :=
  kmodify (set_vnodes (insert vn (mk_vnode None vno 0 0 [] 0 0 None 0 None None false []))) ;;;
  upd_vnode vn (with_busy true) ;;;
  kmodify (set_inuse (cons vn)) ;;;
  read_vnode vn ;;;
  upd_vnode vn (with_busy false) ;;;
  v <- get_vnode vn ;;
  (if S_ISCHR (vn_mode v) || S_ISBLK (vn_mode v) then init_special_vnode vn else kret tt) ;;;
  upd_vnode vn (with_refcount 1).

Fixpoint vget_loop (fuel : nat) (vno : Z) : M Z :=
  match fuel with
  | O => fun _ => NoFuel
  | S fuel =>
      s <- kget ;;
      found <- find_vnode (vnode_inuse_list s) vno ;;
      match found with
      | Some vn =>
          v <- get_vnode vn ;;
          if vn_busy v then sleep_on_waitq vn ;;; vget_loop fuel vno
          else vref vn ;;; kret vn
      | None =>
          new <- mem_alloc ;;
          match new with
          | None =>
              kmodify (fun s => set_runq (fun q => q ++ [fs_curthr s]) s) ;;;
              kenv CtxSwitch ;;;
              vget_loop fuel vno
          | Some vn => bring_in vn vno ;;; kret vn
          end
      end
  end.
Definition vget (vno : Z) : M Z := vget_loop (S retries) vno.

(** [vput]; uncaching a page drops the reference the page holds, by [vput] again. *)
Fixpoint vput_loop (fuel : nat) (vn : Z) : M unit :=
  match fuel with
  | O => fun _ => NoFuel
  | S fuel =>
      v <- get_vnode vn ;;
      kassert (0 <=? vn_nrespages v) ;;;
      kassert (vn_nrespages v <? vn_refcount v) ;;;
      kassert (negb (vn_busy v)) ;;;
      linked <- (if vn_nrespages v =? vn_refcount v - 1 then query_vnode vn else kret true) ;;
      (if negb linked then
         (fix uncache (l : list Z) : M unit :=
            match l with
            | [] => kret tt
            | p :: l =>
                pframe_uncache p ;;;
                upd_vnode vn (fun v => with_respages (s32 (vn_nrespages v - 1)) (filter (fun x => x <> p) (vn_respages v)) v) ;;;
                vput_loop fuel vn ;;;
                uncache l
            end) (vn_respages v) ;;;
         v <- get_vnode vn ;;
         kassert (vn_nrespages v =? 0) ;;;
         kassert (vn_refcount v =? 1)
       else kret tt) ;;;
      upd_vnode vn (fun v => with_refcount (s32 (vn_refcount v - 1)) v) ;;;
      v <- get_vnode vn ;;
      if 0 <? vn_refcount v then kret tt
      else
        kassert (vn_refcount v =? 0) ;;;
        kassert (vn_nrespages v =? 0) ;;;
        upd_vnode vn (with_busy true) ;;;
        delete_vnode vn ;;;
        broadcast_on_waitq vn ;;;
        kmodify (set_inuse (filter (fun x => x <> vn))) ;;;
        kmodify (set_vnodes (delete vn))
  end.
Definition vput (vn : Z) : M unit :=
  s <- kget ;;
  let n := match vnodes s !! vn with Some v => length (vn_respages v) | None => O end in
  vput_loop (S (S n)) vn.

(** The loop of [vfs_is_in_use]. *)
Fixpoint in_use_loop (l : list Z) (ret : Z) : M Z :=
  match l with
  | [] => kret ret
  | vn :: l =>
      v <- get_vnode vn ;;
      s <- kget ;;
      kassert (vn_nrespages v <=? vn_refcount v) ;;;
      kassert (0 <=? vn_nrespages v) ;;;
      let refs := vn_refcount v - vn_nrespages v in
      let root := bool_decide (fs_root s = Some vn) in
      kassert (0 <=? refs) ;;;
      kassert ((root && (1 <=? refs)) || (negb root && (0 <=? refs))) ;;;
      in_use_loop l (if (root && (1 <? refs)) || (negb root && negb (refs =? 0)) then - EBUSY else ret)
  end.
Definition vfs_is_in_use : M Z := s <- kget ;; in_use_loop (vnode_inuse_list s) 0.

Definition vnode_inuse : M Z := s <- kget ;; kret (Z.of_nat (length (vnode_inuse_list s))).

(** The data a read returns comes with its result. *)
Definition special_file_read (file offset count : Z) : M (Z * list Z) :=
  v <- get_vnode file ;;
  kassert (S_ISCHR (vn_mode v) || S_ISBLK (vn_mode v)) ;;;
  if S_ISCHR (vn_mode v) then d <- kderef (vn_cdev v) ;; cd_read d offset count
  else kret (- ENOTSUP, []).

Definition special_file_write (file offset : Z) (buf : list Z) (count : Z) : M Z :=
  v <- get_vnode file ;;
  kassert (S_ISCHR (vn_mode v) || S_ISBLK (vn_mode v)) ;;;
  if S_ISCHR (vn_mode v) then d <- kderef (vn_cdev v) ;; cd_write d offset buf count
  else kret (- ENOTSUP).

End vnodes.

End Vnode.
