(* ===== verification/Ramfs.v ===== *)
(** * The RAM file system ([fs/ramfs/ramfs.c])

    An inode keeps one page of memory: the bytes of a regular file, the entries
    of a directory (the page seen as an array of [ramfs_dirent_t]), or, in place
    of a page, the device number of a special file.  Inodes live at addresses, in
    a heap of their own; [rfs_inodes] is the array of pointers to them. *)

From S2P Require Import Prelude KString Vnode.

Module Ramfs.
Import KString Vnode.

Local Open Scope Z_scope.

Definition PAGE_SIZE : Z := 4096.
Definition NAME_LEN : Z := 28.
Definition RAMFS_TYPE_DATA : Z := 0.
Definition RAMFS_TYPE_DIR : Z := 1.
Definition RAMFS_TYPE_CHR : Z := 2.
Definition RAMFS_TYPE_BLK : Z := 3.
Definition RAMFS_MAX_FILES : Z := 64.
Definition sizeof_dirent : Z := 32.
Definition RAMFS_MAX_DIRENT : Z := PAGE_SIZE / sizeof_dirent.

(** [ramfs_dirent_t]; [rd_name] has [NAME_LEN] characters. *)
Record dirent : Type := mk_dirent { rd_ino : Z; rd_name : list Z }.

Inductive memory : Type :=
| Page (bytes : list Z)
| Dents (entries : list dirent)
| Devid (devid : Z).

Record ramfs_inode : Type := mk_inode {
  rf_size : Z;
  rf_ino : Z;
  rf_mem : memory;
  rf_mode : Z;
  rf_linkcount : Z
}.

Record ramfs : Type := mk_ramfs {
  inodes : gmap Z ramfs_inode;
  rfs_inodes : gmap Z Z
}.

Definition with_size (n : Z) (nd : ramfs_inode) : ramfs_inode :=
  mk_inode n (rf_ino nd) (rf_mem nd) (rf_mode nd) (rf_linkcount nd).
Definition with_mem (m : memory) (nd : ramfs_inode) : ramfs_inode :=
  mk_inode (rf_size nd) (rf_ino nd) m (rf_mode nd) (rf_linkcount nd).
Definition with_links (c : Z) (nd : ramfs_inode) : ramfs_inode :=
  mk_inode (rf_size nd) (rf_ino nd) (rf_mem nd) (rf_mode nd) c.

Abbreviation M := (kernel (fsys ramfs)).

Definition set_inodes (f : gmap Z ramfs_inode -> gmap Z ramfs_inode) : fsys ramfs -> fsys ramfs :=
  set_fs_i (fun r => mk_ramfs (f (inodes r)) (rfs_inodes r)).
Definition set_slots (f : gmap Z Z -> gmap Z Z) : fsys ramfs -> fsys ramfs :=
  set_fs_i (fun r => mk_ramfs (inodes r) (f (rfs_inodes r))).

Definition get_inode (p : Z) : M ramfs_inode := s <- kget ;; kderef (inodes (fs_i s) !! p).
Definition upd_inode (p : Z) (f : ramfs_inode -> ramfs_inode) : M unit :=
  get_inode p ;;; kmodify (set_inodes (alter f p)).

(** [VNODE_TO_RAMFSINODE]: the address of the inode. *)
Definition vnode_inode (vn : Z) : M Z := v <- get_vnode vn ;; kderef (vn_i v).

(** [VNODE_TO_DIRENT]: the directory's entries. *)
Definition mem_dents (m : memory) : option (list dirent) :=
  match m with Dents l => Some l | _ => None end.
Definition mem_page (m : memory) : option (list Z) :=
  match m with Page b => Some b | _ => None end.
Definition get_dents (p : Z) : M (list dirent) := nd <- get_inode p ;; kderef (mem_dents (rf_mem nd)).
Definition set_dent (p : Z) (i : nat) (e : dirent) : M unit :=
  l <- get_dents p ;; upd_inode p (with_mem (Dents (<[i := e]> l))).

Definition empty_dirent : dirent := mk_dirent 0 (repeat 0 (Z.to_nat NAME_LEN)).

(** [name_match] of [fs/vfs.h] *)
Definition name_match (fname name : list Z) (namelen : Z) : option bool :=
  n ← strlen fname;
  if n =? namelen then r ← strncmp fname name (Z.to_nat namelen); Some (r =? 0) else Some false.

(** The loops over a directory's entries: the index of the first entry that
    satisfies a test; the test can fault. *)
Fixpoint find_entry (test : dirent -> option bool) (l : list dirent) : option (option nat) :=
  match l with
  | [] => Some None
  | e :: l => b ← test e; if b : bool then Some (Some O) else option_map S <$> find_entry test l
  end.
Definition entry_unused (e : dirent) : option bool := c ← rd_name e !! O; Some (c =? 0).
Definition entry_matches (name : list Z) (namelen : Z) (e : dirent) : option bool :=
  name_match (rd_name e) name namelen.

(** [entry->rd_ino = ino; strncpy(...); entry->rd_name[...] = 0] *)
Definition set_entry (ino : Z) (name : list Z) (name_len : Z) (e : dirent) : option dirent :=
  let n := Z.to_nat (Z.min name_len (NAME_LEN - 1)) in
  nm ← strncpy (rd_name e) name n;
  Some (mk_dirent ino (<[n := NUL]> nm)).

(** [entry->rd_ino = ino; strcpy(entry->rd_name, name)] *)
Definition set_dots (ino : Z) (name : list Z) (e : dirent) : option dirent :=
  nm ← strcpy (rd_name e) name; Some (mk_dirent ino nm).

Fixpoint free_slot (n : nat) (i : Z) (slots : gmap Z Z) : option Z :=
  match n with
  | O => None
  | S n => match slots !! i with None => Some i | Some _ => free_slot n (i + 1) slots end
  end.

Definition ramfs_alloc_inode (type devid : Z) : M Z :=
  kassert ((type =? RAMFS_TYPE_DATA) || (type =? RAMFS_TYPE_DIR) || (type =? RAMFS_TYPE_CHR)
           || (type =? RAMFS_TYPE_BLK)) ;;;
  s <- kget ;;
  match free_slot (Z.to_nat RAMFS_MAX_FILES) 0 (rfs_inodes (fs_i s)) with
  | None => kret (- ENOSPC)
  | Some i =>
      inode <- mem_alloc ;;
      match inode with
      | None => kret (- ENOSPC)
      | Some p =>
          mem <- (if (type =? RAMFS_TYPE_CHR) || (type =? RAMFS_TYPE_BLK) then kret (Some (Devid devid))
                  else
                    page <- mem_alloc ;;
                    kret (match page with
                          | None => None
                          | Some _ =>
                              if type =? RAMFS_TYPE_DIR
                              then Some (Dents (repeat empty_dirent (Z.to_nat RAMFS_MAX_DIRENT)))
                              else Some (Page (repeat 0 (Z.to_nat PAGE_SIZE)))
                          end)) ;;
          match mem with
          | None => kret (- ENOSPC)
          | Some m =>
              kmodify (set_inodes (insert p (mk_inode 0 i m type 1))) ;;;
              kmodify (set_slots (insert i p)) ;;;
              kret i
          end
      end
  end.

Definition ramfs_read_vnode (vn : Z) : M unit :=
  v <- get_vnode vn ;;
  s <- kget ;;
  p <- kderef (rfs_inodes (fs_i s) !! vn_vno v) ;;
  inode <- get_inode p ;;
  kassert (rf_ino inode =? vn_vno v) ;;;
  upd_inode p (fun nd => with_links (s32 (rf_linkcount nd + 1)) nd) ;;;
  upd_vnode vn (with_i (Some p)) ;;;
  upd_vnode vn (with_len (rf_size inode)) ;;;
  if rf_mode inode =? RAMFS_TYPE_DATA then
    upd_vnode vn (fun v => with_kind S_IFREG (Some fs_file_vops) (vn_devid v) v)
  else if rf_mode inode =? RAMFS_TYPE_DIR then
    upd_vnode vn (fun v => with_kind S_IFDIR (Some fs_dir_vops) (vn_devid v) v)
  else if rf_mode inode =? RAMFS_TYPE_CHR then
    d <- kderef (match rf_mem inode with Devid d => Some d | _ => None end) ;;
    upd_vnode vn (with_kind S_IFCHR None d)
  else if rf_mode inode =? RAMFS_TYPE_BLK then
    d <- kderef (match rf_mem inode with Devid d => Some d | _ => None end) ;;
    upd_vnode vn (with_kind S_IFBLK None d)
  else kpanic.

Definition ramfs_delete_vnode (vn : Z) : M unit :=
  v <- get_vnode vn ;;
  p <- vnode_inode vn ;;
  upd_inode p (fun nd => with_links (s32 (rf_linkcount nd - 1)) nd) ;;;
  inode <- get_inode p ;;
  if rf_linkcount inode =? 0 then
    s <- kget ;;
    kassert (bool_decide (rfs_inodes (fs_i s) !! vn_vno v = Some p)) ;;;
    kmodify (set_slots (delete (vn_vno v))) ;;;
    kmodify (set_inodes (delete p))
  else kret tt.

Definition ramfs_query_vnode (vn : Z) : M bool :=
  p <- vnode_inode vn ;; inode <- get_inode p ;; kret (rf_linkcount inode >? 1).

#[export] Instance ramfs_ops : FsOps ramfs := {
  read_vnode := ramfs_read_vnode;
  delete_vnode := ramfs_delete_vnode;
  query_vnode := ramfs_query_vnode
}.

Section operations.
Context `{Platform ramfs}.

Definition ramfs_mount : M Z :=
  rfs <- mem_alloc ;;
  match rfs with
  | None => kret (- ENOMEM)
  | Some _ =>
      kmodify (set_fs_i (fun r => mk_ramfs (inodes r) ∅)) ;;;
      root_ino <- ramfs_alloc_inode RAMFS_TYPE_DIR 0 ;;
      if root_ino <? 0 then kret root_ino
      else
        kassert (root_ino =? 0) ;;;
        s <- kget ;;
        root <- kderef (rfs_inodes (fs_i s) !! root_ino) ;;
        l <- get_dents root ;;
        e <- kderef (l !! 0%nat) ;;
        e <- kderef (set_dots 0 [DOT; NUL] e) ;;
        set_dent root 0 e ;;;
        e <- kderef (l !! 1%nat) ;;
        e <- kderef (set_dots 0 [DOT; DOT; NUL] e) ;;
        set_dent root 1 e ;;;
        upd_inode root (with_size (2 * sizeof_dirent)) ;;;
        kmodify (set_slots (insert 0 root)) ;;;
        vn <- vget 0 ;;
        kmodify (set_root (Some vn)) ;;;
        kret 0
  end.

(** The result and, when it is 0, the vnode. *)
Definition ramfs_lookup (dir : Z) (name : list Z) (namelen : Z) : M (Z * option Z) :=
  p <- vnode_inode dir ;;
  l <- get_dents p ;;
  found <- kderef (find_entry (entry_matches name namelen) l) ;;
  match found with
  | Some i => e <- kderef (l !! i) ;; vn <- vget (u32 (rd_ino e)) ;; kret (0, Some vn)
  | None => kret (- ENOENT, None)
  end.

(** The checks that [ramfs_create], [ramfs_mknod], [ramfs_link] and [ramfs_mkdir]
    start with: the name is new; the index of an unused entry. *)
Definition unused_entry (dir : Z) (name : list Z) (name_len : Z) : M (option nat) :=
  r <- ramfs_lookup dir name name_len ;;
  kassert (negb (fst r =? 0)) ;;;
  p <- vnode_inode dir ;;
  l <- get_dents p ;;
  kderef (find_entry entry_unused l).

(** What they end with: the entry is filled in and the directory grows. *)
Definition fill_entry (dir : Z) (i : nat) (ino : Z) (name : list Z) (name_len : Z) : M unit :=
  p <- vnode_inode dir ;;
  l <- get_dents p ;;
  e <- kderef (l !! i) ;;
  e <- kderef (set_entry ino name name_len e) ;;
  set_dent p i e ;;;
  upd_inode p (fun nd => with_size (s32 (rf_size nd + sizeof_dirent)) nd).

Definition ramfs_create (dir : Z) (name : list Z) (name_len : Z) : M (Z * option Z) :=
  i <- unused_entry dir name name_len ;;
  match i with
  | None => kret (- ENOSPC, None)
  | Some i =>
      ino <- ramfs_alloc_inode RAMFS_TYPE_DATA 0 ;;
      if ino <? 0 then kret (ino, None)
      else
        vn <- vget (u32 ino) ;;
        v <- get_vnode vn ;;
        fill_entry dir i (s32 (vn_vno v)) name name_len ;;;
        kret (0, Some vn)
  end.

Definition ramfs_mknod (dir : Z) (name : list Z) (name_len mode devid : Z) : M Z :=
  i <- unused_entry dir name name_len ;;
  match i with
  | None => kret (- ENOSPC)
  | Some i =>
      ino <- (if S_ISCHR mode then ramfs_alloc_inode RAMFS_TYPE_CHR devid
              else if S_ISBLK mode then ramfs_alloc_inode RAMFS_TYPE_BLK devid
              else kpanic) ;;
      if ino <? 0 then kret ino
      else fill_entry dir i ino name name_len ;;; kret 0
  end.

Definition ramfs_link (oldvnode dir : Z) (name : list Z) (name_len : Z) : M Z :=
  i <- unused_entry dir name name_len ;;
  match i with
  | None => kret (- ENOSPC)
  | Some i =>
      v <- get_vnode oldvnode ;;
      fill_entry dir i (s32 (vn_vno v)) name name_len ;;;
      p <- vnode_inode oldvnode ;;
      upd_inode p (fun nd => with_links (s32 (rf_linkcount nd + 1)) nd) ;;;
      kret 0
  end.

(** [entry->rd_name[0] = 0] for the entry with the given name, if any; the
    directory shrinks, the file loses a link and the vnode is put. *)
Definition drop_entry (dir vn : Z) (name : list Z) (namelen : Z) : M unit :=
  p <- vnode_inode dir ;;
  l <- get_dents p ;;
  found <- kderef (find_entry (entry_matches name namelen) l) ;;
  (match found with
   | Some i => e <- kderef (l !! i) ;; set_dent p i (mk_dirent (rd_ino e) (<[0%nat := NUL]> (rd_name e)))
   | None => kret tt
   end) ;;;
  upd_inode p (fun nd => with_size (s32 (rf_size nd - sizeof_dirent)) nd) ;;;
  q <- vnode_inode vn ;;
  upd_inode q (fun nd => with_links (s32 (rf_linkcount nd - 1)) nd) ;;;
  vput vn.

Definition ramfs_unlink (dir : Z) (name : list Z) (namelen : Z) : M Z :=
  r <- ramfs_lookup dir name namelen ;;
  kassert (fst r =? 0) ;;;
  vn <- kderef (snd r) ;;
  v <- get_vnode vn ;;
  kassert (negb (S_ISDIR (vn_mode v))) ;;;
  drop_entry dir vn name namelen ;;;
  kret 0.

Definition ramfs_mkdir (dir : Z) (name : list Z) (name_len : Z) : M Z :=
  i <- unused_entry dir name name_len ;;
  match i with
  | None => kret (- ENOSPC)
  | Some i =>
      ino <- ramfs_alloc_inode RAMFS_TYPE_DIR 0 ;;
      if ino <? 0 then kret ino
      else
        fill_entry dir i ino name name_len ;;;
        s <- kget ;;
        p <- kderef (rfs_inodes (fs_i s) !! ino) ;;
        l <- get_dents p ;;
        e <- kderef (l !! 0%nat) ;;
        e <- kderef (set_dots ino [DOT; NUL] e) ;;
        set_dent p 0 e ;;;
        v <- get_vnode dir ;;
        e <- kderef (l !! 1%nat) ;;
        e <- kderef (set_dots (s32 (vn_vno v)) [DOT; DOT; NUL] e) ;;
        set_dent p 1 e ;;;
        upd_inode p (with_size (2 * sizeof_dirent)) ;;;
        kret 0
  end.

(** The test of [ramfs_rmdir]: an entry other than "." and "..". *)
Definition entry_occupied (e : dirent) : option bool :=
  a ← strcmp (rd_name e) [DOT; NUL];
  if a =? 0 then Some false
  else
    b ← strcmp (rd_name e) [DOT; DOT; NUL];
    if b =? 0 then Some false else c ← rd_name e !! O; Some (negb (c =? 0)).

Definition ramfs_rmdir (dir : Z) (name : list Z) (name_len : Z) : M Z :=
  d1 <- kderef (name_match [DOT; NUL] name name_len) ;;
  d2 <- (if d1 : bool then kret false else kderef (name_match [DOT; DOT; NUL] name name_len)) ;;
  kassert (negb d1 && negb d2) ;;;
  r <- ramfs_lookup dir name name_len ;;
  match r with
  | (0, Some vn) =>
      v <- get_vnode vn ;;
      if negb (S_ISDIR (vn_mode v)) then vput vn ;;; kret (- ENOTDIR)
      else
        q <- vnode_inode vn ;;
        l <- get_dents q ;;
        occupied <- kderef (find_entry entry_occupied l) ;;
        match occupied with
        | Some _ => vput vn ;;; kret (- ENOTEMPTY)
        | None => drop_entry dir vn name name_len ;;; kret 0
        end
  | (ret, _) => kret ret
  end.

Definition ramfs_read (file offset count : Z) : M (Z * list Z) :=
  p <- vnode_inode file ;;
  inode <- get_inode p ;;
  v <- get_vnode file ;;
  kassert (negb (S_ISDIR (vn_mode v))) ;;;
  let ret := Z.max 0 (Z.min (s32 count) (s32 (rf_size inode - offset))) in
  bytes <- kderef (mem_page (rf_mem inode)) ;;
  if ret =? 0 then kret (0, [])
  else
    kassert ((0 <=? offset) && (offset + ret <=? PAGE_SIZE)) ;;;
    kret (ret, take (Z.to_nat ret) (drop (Z.to_nat offset) bytes)).

Definition ramfs_write (file offset : Z) (buf : list Z) (count : Z) : M Z :=
  p <- vnode_inode file ;;
  inode <- get_inode p ;;
  v <- get_vnode file ;;
  kassert (negb (S_ISDIR (vn_mode v))) ;;;
  let ret := Z.min (s32 count) (s32 (PAGE_SIZE - offset)) in
  bytes <- kderef (mem_page (rf_mem inode)) ;;
  bytes <- kderef (memcpy bytes offset buf ret) ;;
  upd_inode p (with_mem (Page bytes)) ;;;
  kassert (vn_len v =? rf_size inode) ;;;
  let len := Z.max (vn_len v) (s32 (offset + ret)) in
  upd_vnode file (with_len len) ;;;
  upd_inode p (with_size len) ;;;
  kret ret.

(** [struct dirent] as it is handed out: the inode number and the name. *)
Definition ramfs_readdir (dir offset : Z) : M (Z * option (Z * list Z)) :=
  v <- get_vnode dir ;;
  kassert (S_ISDIR (vn_mode v)) ;;;
  kassert (u32 offset mod sizeof_dirent =? 0) ;;;
  p <- vnode_inode dir ;;
  l <- get_dents p ;;
  if offset <? 0 then kpanic
  else
    let i := Z.to_nat (offset / sizeof_dirent) in
    found <- kderef (find_entry (fun e => c ← rd_name e !! O; Some (negb (c =? 0))) (drop i l)) ;;
    match found with
    | None => kret (0, None)
    | Some k =>
        e <- kderef (l !! (i + k)%nat) ;;
        kret (sizeof_dirent + Z.of_nat k * sizeof_dirent, Some (rd_ino e, cstr (take 27 (rd_name e))))
    end.

(** [struct stat]: mode, inode, rdev, nlink, size, blksize, blocks. *)
Record stat : Type := mk_stat {
  st_mode : Z; st_ino : Z; st_rdev : Z; st_nlink : Z; st_size : Z; st_blksize : Z; st_blocks : Z
}.
Definition ramfs_stat (file : Z) : M (Z * stat) :=
  p <- vnode_inode file ;;
  i <- get_inode p ;;
  v <- get_vnode file ;;
  rdev <- (if (vn_mode v =? S_IFCHR) || (vn_mode v =? S_IFBLK)
           then kderef (match rf_mem i with Devid d => Some (s32 d) | _ => None end) else kret 0) ;;
  kret (0, mk_stat (vn_mode v) (s32 (vn_vno v)) rdev (s32 (rf_linkcount i - 1)) (rf_size i) PAGE_SIZE 1).

(** The loop of [ramfs_umount] that frees the inodes. *)
Definition ramfs_umount : M Z :=
  s <- kget ;;
  root <- kderef (fs_root s) ;;
  vput root ;;;
  kmodify (fun s => set_inodes (filter (fun '(p, _) => p ∉ (map_to_list (rfs_inodes (fs_i s))).*2)) s) ;;;
  kret 0.

End operations.

End Ramfs.
