(* ===== verification/RamfsInv.v ===== *)
(** * The RAM file system keeps its link counts

    The invariant of the RAM file system together with the vnode table, and the
    specifications of the operations that rely on it and preserve it. *)

From S2P Require Import Prelude KString Vnode Ramfs.

Module RamfsInv.
Import KString Vnode Ramfs.

Local Open Scope Z_scope.

(** ** Directory entries *)

Definition ename (e : dirent) : list Z := cstr (rd_name e).
Definition named (e : dirent) : Prop := ename e <> [].
#[export] Instance named_dec e : Decision (named e).
Proof. unfold named. apply _. Defined.
Definition dots : list (list Z) := [[DOT]; [DOT; DOT]].

(** Entries that count as links: all but "." and "..". *)
Definition counted (i : Z) (e : dirent) : Prop := named e /\ ename e ∉ dots /\ rd_ino e = i.
#[export] Instance counted_dec i e : Decision (counted i e).
Proof. unfold counted. apply _. Defined.

Definition entry_ok (e : dirent) : Prop :=
  length (rd_name e) = 28%nat /\ is_str (rd_name e) (ename e) /\ Forall is_char (ename e) /\ 0 <= rd_ino e < 64.

Definition links_in (i : Z) (l : list dirent) : Z := Z.of_nat (length (filter (counted i) l)).
Definition refs (i : Z) (nd : ramfs_inode) : Z :=
  match rf_mem nd with Dents l => links_in i l | _ => 0 end.
Definition names (l : list dirent) : list (list Z) := ename <$> filter named l.

Record dir_ok (l : list dirent) : Prop := {
  dir_length : length l = 128%nat;
  dir_entries : Forall entry_ok l;
  dir_names : NoDup (names l)
}.

Definition inode_ok (nd : ramfs_inode) : Prop :=
  0 <= rf_ino nd < 64 /\
  match rf_mem nd with
  | Page b => rf_mode nd = RAMFS_TYPE_DATA /\ length b = 4096%nat /\ 0 <= rf_size nd <= 4096
  | Dents l => rf_mode nd = RAMFS_TYPE_DIR /\ dir_ok l /\ rf_size nd = 32 * Z.of_nat (length (names l))
  | Devid _ => rf_mode nd = RAMFS_TYPE_CHR \/ rf_mode nd = RAMFS_TYPE_BLK
  end.

(** ** Vnodes *)

Definition mode_of (nd : ramfs_inode) : Z :=
  match rf_mem nd with
  | Page _ => S_IFREG
  | Dents _ => S_IFDIR
  | Devid _ => if rf_mode nd =? RAMFS_TYPE_CHR then S_IFCHR else S_IFBLK
  end.
Definition ops_of (nd : ramfs_inode) : vnode_ops :=
  match rf_mem nd with
  | Page _ => fs_file_vops
  | Dents _ => fs_dir_vops
  | Devid _ => if rf_mode nd =? RAMFS_TYPE_CHR then bytedev_spec_vops else blockdev_spec_vops
  end.

Record vnode_ok (r : ramfs) (v : vnode) : Prop := {
  vok_busy : vn_busy v = false;
  vok_refs : 0 < vn_refcount v;
  vok_nres : vn_nrespages v = 0;
  vok_res : vn_respages v = [];
  vok_inode : exists p nd, vn_i v = Some p /\ inodes r !! p = Some nd /\ rf_ino nd = vn_vno v
    /\ vn_mode v = mode_of nd /\ vn_ops v = Some (ops_of nd)
    /\ match rf_mem nd with Page _ => vn_len v = rf_size nd | _ => True end
}.

Definition incore (i : Z) (v : vnode) : Z := if vn_vno v =? i then 1 else 0.

(** The links to inode [i]: directory entries, the mount of the root (together
    they attach it to the tree), and the in-core vnode. *)
Definition attached (m : gmap Z ramfs_inode) (i : Z) : Z := msum (refs i) m + (if i =? 0 then 1 else 0).
Definition nlinks (r : ramfs) (vs : gmap Z vnode) (i : Z) : Z :=
  attached (inodes r) i + msum (incore i) vs.

(** ** The invariant

    [X i] counts the links to inode [i] that an operation in progress has added
    to the count and not yet entered in a directory, or the other way round.
    [inv_orphan]: a directory that was removed from the tree is empty. *)
Record inv (X : Z -> Z) (s : fsys ramfs) : Prop := {
  inv_slot : forall i p, rfs_inodes (fs_i s) !! i = Some p <->
    exists nd, inodes (fs_i s) !! p = Some nd /\ rf_ino nd = i;
  inv_inode : forall p nd, inodes (fs_i s) !! p = Some nd -> inode_ok nd;
  inv_links : forall p nd, inodes (fs_i s) !! p = Some nd ->
    rf_linkcount nd = nlinks (fs_i s) (vnodes s) (rf_ino nd) + X (rf_ino nd) /\ 0 < rf_linkcount nd;
  inv_entry : forall p nd l e, inodes (fs_i s) !! p = Some nd -> rf_mem nd = Dents l -> e ∈ l ->
    counted (rd_ino e) e -> is_Some (rfs_inodes (fs_i s) !! rd_ino e);
  inv_vnode : forall vn v, vnodes s !! vn = Some v -> vnode_ok (fs_i s) v;
  inv_unique : forall vn vn' v v', vnodes s !! vn = Some v -> vnodes s !! vn' = Some v' ->
    vn_vno v = vn_vno v' -> vn = vn';
  inv_list : forall vn, vn ∈ vnode_inuse_list s <-> is_Some (vnodes s !! vn);
  inv_fresh : forall p, fs_next s <= p -> inodes (fs_i s) !! p = None /\ vnodes s !! p = None;
  inv_root : is_Some (rfs_inodes (fs_i s) !! 0);
  inv_orphan : forall p nd, inodes (fs_i s) !! p = Some nd -> attached (inodes (fs_i s)) (rf_ino nd) = 0 ->
    forall j, refs j nd = 0;
  inv_extra : forall i, 0 <= X i <= 2
}.

Definition none : Z -> Z := fun _ => 0.
Definition plus (X : Z -> Z) (i : Z) : Z -> Z := fun j => X j + (if j =? i then 1 else 0).

(** Reference counts are far from overflowing. *)
Definition calm (s : fsys ramfs) : Prop :=
  forall vn v, vnodes s !! vn = Some v -> vn_refcount v < 2 ^ 30.

(** ** Bounds on the counts *)

Lemma refs_range i nd : inode_ok nd -> 0 <= refs i nd <= 128.
Proof.
  intros (_ & Hm). unfold refs, links_in. destruct (rf_mem nd) as [|l|]; [lia| |lia].
  destruct Hm as (_ & Hd & _). pose proof (dir_length l Hd). pose proof (length_filter (counted i) l). lia.
Qed.

Lemma incore_range i v : 0 <= incore i v <= 1.
Proof. unfold incore. case_match; lia. Qed.

Lemma inodes_few X s : inv X s -> (size (inodes (fs_i s)) <= 64)%nat.
Proof.
  intros HI. set (m := inodes (fs_i s)).
  assert (Hin : forall p nd, (p, nd) ∈ map_to_list m -> rfs_inodes (fs_i s) !! rf_ino nd = Some p /\ 0 <= rf_ino nd < 64).
  { intros p nd Hp. apply elem_of_map_to_list in Hp. split; [apply (inv_slot X s HI); eauto|].
    by destruct (inv_inode X s HI p nd Hp). }
  assert (Hnd : NoDup ((fun x => rf_ino x.2) <$> map_to_list m)).
  { apply NoDup_fmap_2_strong; [|apply NoDup_map_to_list].
    intros [p a] [q b] Ha Hb E. cbn in E. pose proof (Hin _ _ Ha) as [H1 _]. pose proof (Hin _ _ Hb) as [H2 _].
    rewrite E in H1. rewrite H1 in H2. injection H2 as ->. apply elem_of_map_to_list in Ha, Hb. congruence. }
  rewrite <- length_map_to_list, <- (length_fmap (fun x => rf_ino x.2)).
  transitivity (length (seqZ 0 64)); [|done]. apply submseteq_length, NoDup_submseteq; [done|].
  intros i ([p nd] & -> & Hp)%list_elem_of_fmap. apply elem_of_seqZ. cbn. apply Hin in Hp. lia.
Qed.

(** Link counts are small, so that counting never overflows. *)
Lemma nlinks_range X s i : inv X s -> 0 <= msum (refs i) (inodes (fs_i s)) <= 8192
  /\ 0 <= msum (incore i) (vnodes s).
Proof.
  intros HI. split; [split|].
  - apply msum_nonneg. intros p nd Hp. apply refs_range. by apply (inv_inode X s HI p).
  - pose proof (inodes_few X s HI). transitivity (msum (fun _ : ramfs_inode => 128) (inodes (fs_i s))).
    + apply msum_le. intros p nd Hp. apply refs_range. by apply (inv_inode X s HI p).
    + rewrite msum_const. lia.
  - apply msum_nonneg. intros. apply incore_range.
Qed.

Lemma incore_sum_unique (vs : gmap Z vnode) i :
  (forall vn vn' v v', vs !! vn = Some v -> vs !! vn' = Some v' -> vn_vno v = vn_vno v' -> vn = vn') ->
  msum (incore i) vs <= 1.
Proof.
  induction vs as [|vn v vs Hvn IH] using map_ind; intros Hu; [rewrite msum_empty; lia|].
  rewrite msum_insert by done. unfold incore at 1. destruct (Z.eqb_spec (vn_vno v) i) as [E|E].
  - rewrite msum_zero; [lia|]. intros vn' v' Hv'. unfold incore. case_match eqn:E'; [|done].
    apply Z.eqb_eq in E'. exfalso. assert (vn = vn') as <-; [|by rewrite Hvn in Hv'].
    apply (Hu vn vn' v v'); [by rewrite lookup_insert_eq| |congruence].
    rewrite lookup_insert_ne; [done|]. by intros ->; rewrite Hvn in Hv'.
  - enough (msum (incore i) vs <= 1) by lia. apply IH. intros a b va vb Ha Hb Eab.
    apply (Hu a b va vb); [| |done]; (rewrite lookup_insert_ne; [done|]);
      [by intros ->; rewrite Hvn in Ha|by intros ->; rewrite Hvn in Hb].
Qed.

Lemma linkcount_range X s p nd : inv X s -> inodes (fs_i s) !! p = Some nd -> 0 < rf_linkcount nd <= 8196.
Proof.
  intros HI Hp. destruct (inv_links X s HI p nd Hp) as [E Hpos]. split; [done|].
  pose proof (nlinks_range X s (rf_ino nd) HI). pose proof (inv_extra X s HI (rf_ino nd)).
  pose proof (incore_sum_unique (vnodes s) (rf_ino nd) (inv_unique X s HI)).
  rewrite E. unfold nlinks, attached. case_match; lia.
Qed.

(** ** How the invariant changes with the state *)

Section changes.
Context (X : Z -> Z) (s : fsys ramfs) (HI : inv X s).

Lemma inode_unique p q a b :
  inodes (fs_i s) !! p = Some a -> inodes (fs_i s) !! q = Some b -> rf_ino a = rf_ino b -> p = q.
Proof.
  intros Ha Hb E. assert (H1 : rfs_inodes (fs_i s) !! rf_ino a = Some p) by (apply (inv_slot X s HI); eauto).
  assert (H2 : rfs_inodes (fs_i s) !! rf_ino b = Some q) by (apply (inv_slot X s HI); eauto). congruence.
Qed.

(** An inode is replaced by one with the same number and kind. *)
Lemma inv_replace X' p nd nd' :
  inodes (fs_i s) !! p = Some nd -> rf_ino nd' = rf_ino nd -> inode_ok nd' ->
  mode_of nd' = mode_of nd -> ops_of nd' = ops_of nd ->
  (forall b b', rf_mem nd = Page b -> rf_mem nd' = Page b' -> rf_size nd' = rf_size nd) ->
  (forall l e, rf_mem nd' = Dents l -> e ∈ l -> counted (rd_ino e) e -> is_Some (rfs_inodes (fs_i s) !! rd_ino e)) ->
  (forall i, refs i nd' + X' i = refs i nd + X i + (if i =? rf_ino nd then rf_linkcount nd' - rf_linkcount nd else 0)) ->
  0 < rf_linkcount nd' -> (forall i, 0 <= X' i <= 2) ->
  (forall q a, <[p := nd']> (inodes (fs_i s)) !! q = Some a -> attached (<[p := nd']> (inodes (fs_i s))) (rf_ino a) = 0 ->
     forall j, refs j a = 0) ->
  inv X' (set_inodes (insert p nd') s).
Proof.
  intros Hp Ei Hok Hm Ho Hsz Hent Hl Hpos HX Horph.
  assert (Hlk : forall q a, inodes (fs_i (set_inodes (insert p nd') s)) !! q = Some a ->
            (q = p /\ a = nd') \/ (q <> p /\ inodes (fs_i s) !! q = Some a)).
  { intros q a. cbn. intros Hq. destruct (decide (q = p)) as [->|Hne].
    - rewrite lookup_insert_eq in Hq. naive_solver.
    - rewrite lookup_insert_ne in Hq by done. naive_solver. }
  split; cbn.
  - intros i q. rewrite (inv_slot X s HI). split; intros (a & Ha & Ea).
    + destruct (decide (q = p)) as [->|Hne]; [|exists a; by rewrite lookup_insert_ne].
      exists nd'. rewrite lookup_insert_eq. split; [done|]. congruence.
    + destruct (Hlk q a Ha) as [[-> ->]|[_ Hq]]; [exists nd; split; [done|congruence]|eauto].
  - intros q a Hq. destruct (Hlk q a Hq) as [[-> ->]|[_ Hq']]; [done|by apply (inv_inode X s HI q)].
  - intros q a Hq. unfold nlinks, attached. cbn. rewrite (msum_replace _ _ _ _ _ Hp).
    destruct (Hlk q a Hq) as [[-> ->]|[Hne Hq']].
    + split; [|done]. destruct (inv_links X s HI p nd Hp) as [E _]. unfold nlinks, attached in E.
      specialize (Hl (rf_ino nd)). rewrite Z.eqb_refl in Hl. rewrite Ei. lia.
    + destruct (inv_links X s HI q a Hq') as [E Ha]. split; [|done]. unfold nlinks, attached in E.
      specialize (Hl (rf_ino a)). rewrite (proj2 (Z.eqb_neq (rf_ino a) (rf_ino nd))) in Hl; [lia|].
      intros E'. apply Hne. by apply (inode_unique q p a nd).
  - intros q a l e Hq Hmem He Hc. destruct (Hlk q a Hq) as [[-> ->]|[_ Hq']]; [by eapply Hent|by eapply (inv_entry X s HI q a)].
  - intros vn v Hv. destruct (inv_vnode X s HI vn v Hv) as [B R N P (q & a & Hi & Hq & Ea & Em & Eo & El)].
    split; try done. destruct (decide (q = p)) as [->|Hne].
    + assert (a = nd) as -> by congruence. exists p, nd'. cbn. rewrite lookup_insert_eq. repeat split; try congruence.
      destruct (rf_mem nd') eqn:E'; [|done|done]. destruct (rf_mem nd) eqn:E''.
      * rewrite El. symmetry. by eapply Hsz.
      * unfold mode_of in Hm. rewrite E', E'' in Hm. done.
      * unfold mode_of in Hm. rewrite E', E'' in Hm. destruct (rf_mode nd =? _); done.
    + exists q, a. cbn. by rewrite lookup_insert_ne.
  - apply (inv_unique X s HI).
  - apply (inv_list X s HI).
  - intros q Hq. destruct (inv_fresh X s HI q Hq) as [Hn Hv]. split; [|done].
    rewrite lookup_insert_ne; [done|]. intros ->. congruence.
  - apply (inv_root X s HI).
  - done.
  - done.
Qed.

(** A vnode is replaced by one for the same file. *)
Lemma inv_replace_vnode vn v v' :
  vnodes s !! vn = Some v -> vn_vno v' = vn_vno v -> vnode_ok (fs_i s) v' ->
  inv X (set_vnodes (insert vn v') s).
Proof.
  intros Hv En Hok.
  assert (Hlk : forall q a, <[vn := v']> (vnodes s) !! q = Some a ->
            (q = vn /\ a = v') \/ (q <> vn /\ vnodes s !! q = Some a)).
  { intros q a Hq. destruct (decide (q = vn)) as [->|Hne].
    - rewrite lookup_insert_eq in Hq. naive_solver.
    - rewrite lookup_insert_ne in Hq by done. naive_solver. }
  destruct HI as [I1 I2 I3 I4 I5 I6 I7 I8 I9 I10 I11]. split; cbn; try done.
  - intros p nd Hp. destruct (I3 p nd Hp) as [E Hpos]. split; [|done]. rewrite E. unfold nlinks.
    rewrite (msum_replace _ _ _ _ _ Hv). unfold incore at 3 4. rewrite En. lia.
  - intros q a Hq. destruct (Hlk q a Hq) as [[-> ->]|[_ Hq']]; [done|by eapply I5].
  - intros a b va vb Ha Hb E. destruct (Hlk a va Ha) as [[-> ->]|[_ Ha']], (Hlk b vb Hb) as [[-> ->]|[_ Hb']]; try done;
      [eapply (I6 vn b v vb)|eapply (I6 a vn va v)|eapply (I6 a b)]; try done; congruence.
  - intros q. rewrite I7. destruct (decide (q = vn)) as [->|Hne]; [rewrite lookup_insert_eq|by rewrite lookup_insert_ne].
    rewrite Hv. naive_solver.
  - intros q Hq. destruct (I8 q Hq) as [Hn Hvn]. split; [done|]. rewrite lookup_insert_ne; [done|]. intros ->. congruence.
Qed.

(** Directories only gain entries, and only while they are attached. *)
Lemma orphan_grow p nd nd' :
  inodes (fs_i s) !! p = Some nd -> rf_ino nd' = rf_ino nd -> (forall j, refs j nd <= refs j nd') ->
  (attached (inodes (fs_i s)) (rf_ino nd) = 0 -> forall j, refs j nd' = refs j nd) ->
  forall q a, <[p := nd']> (inodes (fs_i s)) !! q = Some a -> attached (<[p := nd']> (inodes (fs_i s))) (rf_ino a) = 0 ->
     forall j, refs j a = 0.
Proof.
  intros Hp Ei Hle Hat q a Hq Ha j.
  assert (Hold : attached (inodes (fs_i s)) (rf_ino a) = 0).
  { unfold attached in *. rewrite (msum_replace _ _ _ _ _ Hp) in Ha. specialize (Hle (rf_ino a)).
    pose proof (nlinks_range X s (rf_ino a) HI). case_match; lia. }
  destruct (decide (q = p)) as [->|Hne].
  - rewrite lookup_insert_eq in Hq. injection Hq as <-. rewrite Ei in Hold. rewrite (Hat Hold).
    by apply (inv_orphan X s HI p).
  - rewrite lookup_insert_ne in Hq by done. by apply (inv_orphan X s HI q).
Qed.

(** The allocators move on. *)
Definition bump (n : Z) (b : nat) (s : fsys ramfs) : fsys ramfs :=
  mk_fsys (vnodes s) (vnode_inuse_list s) (fs_i s) (fs_root s) (fs_next s + n) b (fs_curthr s) (fs_runq s).

Lemma inv_bump n b : 0 <= n -> inv X (bump n b s).
Proof.
  intros Hn. destruct HI as [I1 I2 I3 I4 I5 I6 I7 I8 I9 I10 I11]. split; cbn; try done. intros p Hp. apply I8. lia.
Qed.

(** A vnode comes in; its link was counted before. *)
Lemma inv_vnode_in Y i vn v :
  (forall j, X j = plus Y i j) -> (forall j, 0 <= Y j <= 2) ->
  vnodes s !! vn = None -> vn < fs_next s -> vn_vno v = i -> vnode_ok (fs_i s) v ->
  (forall vn' v', vnodes s !! vn' = Some v' -> vn_vno v' <> i) ->
  inv Y (set_vnodes (insert vn v) (set_inuse (cons vn) s)).
Proof.
  intros HXY HY Hnone Hnext Ei Hok Hno.
  destruct HI as [I1 I2 I3 I4 I5 I6 I7 I8 I9 I10 I11]. split; cbn; try done.
  - intros p nd Hp. destruct (I3 p nd Hp) as [E Hpos]. split; [|done]. rewrite E. unfold nlinks.
    rewrite msum_insert by done. unfold incore at 2. rewrite Ei, HXY. unfold plus.
    rewrite (Z.eqb_sym i (rf_ino nd)). lia.
  - intros q a Hq. destruct (decide (q = vn)) as [->|Hne]; [rewrite lookup_insert_eq in Hq|rewrite lookup_insert_ne in Hq by done].
    + by injection Hq as <-.
    + by eapply I5.
  - intros a b va vb Ha Hb E. destruct (decide (a = vn)) as [->|Hna], (decide (b = vn)) as [->|Hnb]; [done| | |].
    + rewrite lookup_insert_eq in Ha. rewrite lookup_insert_ne in Hb by done. injection Ha as <-.
      exfalso. apply (Hno b vb Hb). congruence.
    + rewrite lookup_insert_eq in Hb. rewrite lookup_insert_ne in Ha by done. injection Hb as <-.
      exfalso. apply (Hno a va Ha). congruence.
    + rewrite lookup_insert_ne in Ha, Hb by done. by eapply (I6 a b).
  - intros q. rewrite elem_of_cons, I7. destruct (decide (q = vn)) as [->|Hne].
    + rewrite lookup_insert_eq. naive_solver.
    + rewrite lookup_insert_ne by done. naive_solver.
  - intros q Hq. destruct (I8 q Hq) as [Hn Hv]. split; [done|]. rewrite lookup_insert_ne; [done|]. lia.
Qed.

(** A vnode goes away; its link is still counted. *)
Lemma inv_vnode_out vn v :
  vnodes s !! vn = Some v -> X (vn_vno v) <= 1 ->
  inv (plus X (vn_vno v)) (set_vnodes (delete vn) (set_inuse (filter (fun x => x <> vn)) s)).
Proof.
  intros Hv HX. destruct HI as [I1 I2 I3 I4 I5 I6 I7 I8 I9 I10 I11]. split; cbn; try done.
  - intros p nd Hp. destruct (I3 p nd Hp) as [E Hpos]. split; [|done]. rewrite E. unfold nlinks.
    rewrite (msum_delete _ _ _ _ Hv). unfold incore at 3, plus. rewrite (Z.eqb_sym (vn_vno v)). lia.
  - intros q a Hq. apply lookup_delete_Some in Hq as [_ Hq]. by eapply I5.
  - intros a b va vb Ha Hb E. apply lookup_delete_Some in Ha as [_ Ha], Hb as [_ Hb]. by eapply (I6 a b).
  - intros q. rewrite list_elem_of_filter, I7. rewrite <- !not_eq_None_Some, lookup_delete_None. 
    destruct (decide (vn = q)); naive_solver.
  - intros q Hq. destruct (I8 q Hq) as [Hn Hvn]. split; [done|]. apply lookup_delete_None. by right.
  - intros j. unfold plus. specialize (I11 j). destruct (Z.eqb_spec j (vn_vno v)) as [->|]; lia.
Qed.

(** An inode that nothing refers to is freed. *)
Lemma inv_free Y p nd :
  inodes (fs_i s) !! p = Some nd -> rf_linkcount nd = 1 -> (forall j, X j = plus Y (rf_ino nd) j) ->
  (forall j, 0 <= Y j <= 2) ->
  inv Y (set_inodes (delete p) (set_slots (delete (rf_ino nd)) s)).
Proof.
  intros Hp Hone HXY HY. set (i := rf_ino nd) in *.
  destruct (inv_links X s HI p nd Hp) as [E _]. fold i in E.
  pose proof (nlinks_range X s i HI) as [Hr1 Hr2].
  rewrite (HXY i), Hone in E. unfold plus, nlinks in E. rewrite Z.eqb_refl in E. pose proof (HY i).
  assert (Hat : attached (inodes (fs_i s)) i = 0 /\ msum (incore i) (vnodes s) = 0 /\ Y i = 0).
  { unfold attached in *. case_match; lia. }
  clear E. destruct Hat as (Hat & Hcore & HYi).
  assert (Hempty : forall j, refs j nd = 0) by (by apply (inv_orphan X s HI p nd Hp)).
  assert (Hi0 : i <> 0).
  { intros Hi0. unfold attached in Hat. rewrite Hi0 in Hat, Hr1. cbn in Hat. lia. }
  assert (Hother : forall q a, inodes (fs_i s) !! q = Some a -> q <> p -> rf_ino a <> i).
  { intros q a Hq Hne Ei. apply Hne. by apply (inode_unique q p a nd). }
  assert (Hatt : forall j, attached (delete p (inodes (fs_i s))) j = attached (inodes (fs_i s)) j).
  { intros j. unfold attached. rewrite (msum_delete _ _ _ _ Hp), Hempty. lia. }
  assert (Hnov : forall vn v, vnodes s !! vn = Some v -> vn_vno v <> i).
  { intros vn v Hv Ei. pose proof (msum_member (incore i) (vnodes s) vn v ltac:(intros; apply incore_range) Hv) as Hm.
    unfold incore in Hm at 1. rewrite Ei, Z.eqb_refl in Hm. lia. }
  assert (Hslot : forall j, j <> i -> delete i (rfs_inodes (fs_i s)) !! j = rfs_inodes (fs_i s) !! j)
    by (intros; by rewrite lookup_delete_ne).
  assert (Hent : forall q a l e, inodes (fs_i s) !! q = Some a -> rf_mem a = Dents l -> e ∈ l -> counted (rd_ino e) e ->
            rd_ino e <> i).
  { intros q a l e Hq Hm He Hc Ei. rewrite Ei in Hc.
    pose proof (msum_member (refs i) (inodes (fs_i s)) q a
                  ltac:(intros k x Hk; apply refs_range; by apply (inv_inode X s HI k)) Hq) as Hmem.
    unfold refs at 1 in Hmem. rewrite Hm in Hmem. unfold links_in in Hmem.
    assert (e ∈ filter (counted i) l) as Hin by (by apply list_elem_of_filter).
    apply list_elem_of_In, in_split in Hin as (l1 & l2 & El). rewrite El, length_app in Hmem. cbn in Hmem.
    unfold attached in Hat. case_match; lia. }
  destruct HI as [I1 I2 I3 I4 I5 I6 I7 I8 I9 I10 I11]. split; cbn.
  - intros j q. destruct (decide (j = i)) as [->|Hj].
    + rewrite lookup_delete_eq. split; [done|]. intros (a & Ha & Ea). apply lookup_delete_Some in Ha as [Hne Ha].
      exfalso. by apply (Hother q a Ha (not_eq_sym Hne)).
    + rewrite Hslot, I1 by done. split; intros (a & Ha & Ea).
      * exists a. rewrite lookup_delete_ne; [done|]. intros <-. apply Hj. unfold i. congruence.
      * apply lookup_delete_Some in Ha as [_ Ha]. eauto.
  - intros q a Hq. apply lookup_delete_Some in Hq as [_ Hq]. by eapply I2.
  - intros q a Hq. apply lookup_delete_Some in Hq as [Hne Hq]. destruct (I3 q a Hq) as [E Hpos]. split; [|done].
    rewrite E, HXY. unfold nlinks, plus. rewrite Hatt.
    rewrite (proj2 (Z.eqb_neq (rf_ino a) i)); [lia|by apply (Hother q)].
  - intros q a l e Hq Hm He Hc. apply lookup_delete_Some in Hq as [_ Hq].
    rewrite Hslot; [by eapply (I4 q a)|by eapply (Hent q a)].
  - intros vn v Hv. destruct (I5 vn v Hv) as [B R N P (q & a & Hi & Hq & Ea & Hrest)]. split; try done.
    exists q, a. cbn. rewrite lookup_delete_ne; [done|]. intros <-. apply (Hnov vn v Hv). unfold i; congruence.
  - done.
  - done.
  - intros q Hq. destruct (I8 q Hq) as [Hn Hv]. split; [|done]. apply lookup_delete_None. by right.
  - by rewrite Hslot.
  - intros q a Hq Ha. apply lookup_delete_Some in Hq as [_ Hq]. rewrite Hatt in Ha. by eapply I10.
  - done.
Qed.

(** A new inode, without its entry yet. *)
Lemma inv_alloc p nd :
  inodes (fs_i s) !! p = None -> p < fs_next s -> rfs_inodes (fs_i s) !! rf_ino nd = None -> inode_ok nd ->
  (forall j, refs j nd = 0) -> (forall l, rf_mem nd = Dents l -> forall e, e ∈ l -> ~ counted (rd_ino e) e) ->
  rf_linkcount nd = 1 -> X (rf_ino nd) = 0 ->
  inv (plus X (rf_ino nd)) (set_slots (insert (rf_ino nd) p) (set_inodes (insert p nd) s)).
Proof.
  intros Hp Hnext Hslot Hok Href Hnoent Hlk HX. set (i := rf_ino nd) in *.
  assert (Hother : forall q a, inodes (fs_i s) !! q = Some a -> rf_ino a <> i).
  { intros q a Hq Ei. assert (rfs_inodes (fs_i s) !! rf_ino a = Some q) by (apply (inv_slot X s HI); eauto). congruence. }
  assert (Hatt : forall j, attached (<[p := nd]> (inodes (fs_i s))) j = attached (inodes (fs_i s)) j).
  { intros j. unfold attached. rewrite msum_insert, Href by done. lia. }
  assert (Hcore : msum (incore i) (vnodes s) = 0).
  { apply msum_zero. intros vn v Hv. destruct (inv_vnode X s HI vn v Hv) as [_ _ _ _ (q & a & _ & Hq & Ea & _)].
    unfold incore. case_match eqn:E; [|done]. apply Z.eqb_eq in E. exfalso. apply (Hother q a Hq). congruence. }
  assert (Hat0 : attached (inodes (fs_i s)) i = 0).
  { unfold attached. rewrite msum_zero.
    - case_match eqn:E; [|done]. apply Z.eqb_eq in E. destruct (inv_root X s HI) as [? Hr]. congruence.
    - intros q a Hq. unfold refs. destruct (rf_mem a) as [|l|] eqn:Em; try done. unfold links_in.
      destruct (filter (counted i) l) as [|e l'] eqn:Ef; [done|].
      assert (He : e ∈ filter (counted i) l) by (rewrite Ef; set_solver). apply list_elem_of_filter in He as [Hc He].
      assert (Ei : rd_ino e = i) by apply Hc.
      destruct (inv_entry X s HI q a l e Hq Em He) as [? Hs]; [by rewrite Ei|]. congruence. }
  destruct HI as [I1 I2 I3 I4 I5 I6 I7 I8 I9 I10 I11]. split; cbn.
  - intros j q. destruct (decide (j = i)) as [->|Hj].
    + rewrite lookup_insert_eq. split.
      * intros [= <-]. exists nd. by rewrite lookup_insert_eq.
      * intros (a & Ha & Ea). destruct (decide (q = p)) as [->|Hne]; [done|].
        rewrite lookup_insert_ne in Ha by done. by destruct (Hother q a Ha).
    + rewrite lookup_insert_ne, I1 by done. split; intros (a & Ha & Ea).
      * exists a. rewrite lookup_insert_ne; [done|]. intros <-. congruence.
      * destruct (decide (q = p)) as [->|Hne]; [rewrite lookup_insert_eq in Ha; injection Ha as <-; by destruct Hj|].
        rewrite lookup_insert_ne in Ha by done. eauto.
  - intros q a Hq. destruct (decide (q = p)) as [->|Hne]; [rewrite lookup_insert_eq in Hq; by injection Hq as <-|].
    rewrite lookup_insert_ne in Hq by done. by eapply I2.
  - intros q a Hq. unfold nlinks, plus. cbn. rewrite Hatt. destruct (decide (q = p)) as [->|Hne].
    + rewrite lookup_insert_eq in Hq. injection Hq as <-. fold i. rewrite Hat0, Hcore, HX, Z.eqb_refl. lia.
    + rewrite lookup_insert_ne in Hq by done. destruct (I3 q a Hq) as [E Hpos]. split; [|done]. rewrite E. unfold nlinks.
      rewrite (proj2 (Z.eqb_neq (rf_ino a) i)); [lia|by apply (Hother q)].
  - intros q a l e Hq Hm He Hc. destruct (decide (q = p)) as [->|Hne].
    + rewrite lookup_insert_eq in Hq. injection Hq as <-. by destruct (Hnoent l Hm e He).
    + rewrite lookup_insert_ne in Hq by done. pose proof (I4 q a l e Hq Hm He Hc) as [x Hx].
      rewrite lookup_insert_ne; [by exists x|]. intros Ei. congruence.
  - intros vn v Hv. destruct (I5 vn v Hv) as [B R N P (q & a & Hi & Hq & Hrest)]. split; try done.
    exists q, a. cbn. rewrite lookup_insert_ne; [done|]. intros <-. congruence.
  - done.
  - done.
  - intros q Hq. destruct (I8 q Hq) as [Hn Hv]. split; [|done]. rewrite lookup_insert_ne; [done|]. lia.
  - destruct I9 as [x Hx]. exists x. rewrite lookup_insert_ne; [done|]. intros Ei. congruence.
  - intros q a Hq Ha. rewrite Hatt in Ha. destruct (decide (q = p)) as [->|Hne].
    + rewrite lookup_insert_eq in Hq. by injection Hq as <-.
    + rewrite lookup_insert_ne in Hq by done. by eapply I10.
  - intros j. unfold plus. specialize (I11 j). destruct (Z.eqb_spec j i) as [->|]; lia.
Qed.

End changes.

(** Normal forms of updated states. *)
Section updates.
Context (s : fsys ramfs).
Lemma set_inodes_vnodes f g : set_inodes f (set_vnodes g s) = set_vnodes g (set_inodes f s).
Proof. done. Qed.
Lemma set_inodes_inuse f g : set_inodes f (set_inuse g s) = set_inuse g (set_inodes f s).
Proof. done. Qed.
Lemma set_slots_vnodes f g : set_slots f (set_vnodes g s) = set_vnodes g (set_slots f s).
Proof. done. Qed.
Lemma set_slots_inuse f g : set_slots f (set_inuse g s) = set_inuse g (set_slots f s).
Proof. done. Qed.
Lemma set_inodes_slots f g : set_slots f (set_inodes g s) = set_inodes g (set_slots f s).
Proof. done. Qed.
Lemma set_runq_vnodes f g : set_runq f (set_vnodes g s) = set_vnodes g (set_runq f s).
Proof. done. Qed.
Lemma set_runq_inodes f g : set_runq f (set_inodes g s) = set_inodes g (set_runq f s).
Proof. done. Qed.
Lemma set_runq_slots f g : set_runq f (set_slots g s) = set_slots g (set_runq f s).
Proof. done. Qed.
Lemma set_inodes_insert_twice p a b :
  set_inodes (insert p a) (set_inodes (insert p b) s) = set_inodes (insert p a) s.
Proof. unfold set_inodes, set_fs_i. cbn. by rewrite insert_insert_eq. Qed.
Lemma set_inodes_delete_insert p b :
  set_inodes (delete p) (set_inodes (insert p b) s) = set_inodes (delete p) s.
Proof. unfold set_inodes, set_fs_i. cbn. by rewrite delete_insert_eq. Qed.
End updates.
#[export] Hint Rewrite set_inodes_vnodes set_inodes_inuse set_slots_vnodes set_slots_inuse set_inodes_slots
  set_runq_vnodes set_runq_inodes set_runq_slots set_inodes_insert_twice set_inodes_delete_insert : fsys.

(** ** Running the primitive operations *)

Lemma alter_as_insert {A} (m : gmap Z A) i x f : m !! i = Some x -> alter f i m = <[i := f x]> m.
Proof.
  intros Hi. apply map_eq. intros j. destruct (decide (j = i)) as [->|Hne].
  - by rewrite lookup_alter_eq, lookup_insert_eq, Hi.
  - by rewrite lookup_alter_ne, lookup_insert_ne.
Qed.

Lemma set_vnodes_ext {I} (f g : gmap Z vnode -> gmap Z vnode) (s : fsys I) :
  f (vnodes s) = g (vnodes s) -> set_vnodes f s = set_vnodes g s.
Proof. intros E. unfold set_vnodes. by rewrite E. Qed.

Lemma set_inodes_ext f g (s : fsys ramfs) :
  f (inodes (fs_i s)) = g (inodes (fs_i s)) -> set_inodes f s = set_inodes g s.
Proof. intros E. unfold set_inodes, set_fs_i. by rewrite E. Qed.

Lemma runs_get_vnode {I} vn v (s : fsys I) (Q : vnode -> fsys I -> Prop) :
  vnodes s !! vn = Some v -> Q v s -> runs (get_vnode vn) s Q.
Proof. intros Hv HQ. unfold get_vnode. by go. Qed.

Lemma runs_upd_vnode {I} vn v f (s : fsys I) (Q : unit -> fsys I -> Prop) :
  vnodes s !! vn = Some v -> Q tt (set_vnodes (insert vn (f v)) s) -> runs (upd_vnode vn f) s Q.
Proof.
  intros Hv HQ. unfold upd_vnode. apply runs_bind. apply (runs_get_vnode vn v); [done|]. go.
  erewrite set_vnodes_ext; [exact HQ|]. by apply alter_as_insert.
Qed.

Lemma runs_get_inode p nd (s : fsys ramfs) (Q : ramfs_inode -> fsys ramfs -> Prop) :
  inodes (fs_i s) !! p = Some nd -> Q nd s -> runs (get_inode p) s Q.
Proof. intros Hv HQ. unfold get_inode. by go. Qed.

Lemma runs_upd_inode p nd f (s : fsys ramfs) (Q : unit -> fsys ramfs -> Prop) :
  inodes (fs_i s) !! p = Some nd -> Q tt (set_inodes (insert p (f nd)) s) -> runs (upd_inode p f) s Q.
Proof.
  intros Hv HQ. unfold upd_inode. apply runs_bind. apply (runs_get_inode p nd); [done|]. go.
  erewrite set_inodes_ext; [exact HQ|]. by apply alter_as_insert.
Qed.

Lemma runs_vnode_inode vn v p (s : fsys ramfs) (Q : Z -> fsys ramfs -> Prop) :
  vnodes s !! vn = Some v -> vn_i v = Some p -> Q p s -> runs (vnode_inode vn) s Q.
Proof. intros Hv Hi HQ. unfold vnode_inode. apply runs_bind. apply (runs_get_vnode vn v); [done|]. by go. Qed.

Lemma runs_get_dents p nd l (s : fsys ramfs) (Q : list dirent -> fsys ramfs -> Prop) :
  inodes (fs_i s) !! p = Some nd -> rf_mem nd = Dents l -> Q l s -> runs (get_dents p) s Q.
Proof.
  intros Hp Hm HQ. unfold get_dents. apply runs_bind. apply (runs_get_inode p nd); [done|]. rewrite Hm. by go.
Qed.

Lemma runs_set_dent p nd l i e (s : fsys ramfs) (Q : unit -> fsys ramfs -> Prop) :
  inodes (fs_i s) !! p = Some nd -> rf_mem nd = Dents l ->
  Q tt (set_inodes (insert p (with_mem (Dents (<[i := e]> l)) nd)) s) -> runs (set_dent p i e) s Q.
Proof.
  intros Hp Hm HQ. unfold set_dent. apply runs_bind. apply (runs_get_dents p nd l); [done|done|].
  by apply (runs_upd_inode p nd).
Qed.

Lemma runs_mem_alloc (s : fsys ramfs) b (Q : option Z -> fsys ramfs -> Prop) :
  fs_budget s = S b -> Q (Some (fs_next s)) (bump 1 b s) -> runs mem_alloc s Q.
Proof. intros Hb HQ. unfold mem_alloc. go. rewrite Hb. by go. Qed.

(** Symbolic execution: every step either is pure or looks something up. *)
Ltac look := cbn; rewrite ?lookup_insert_eq, ?lookup_alter_eq; first [reflexivity | eassumption].
Ltac run1 := lazymatch goal with
  | |- runs (get_vnode _) _ _ => eapply runs_get_vnode; [look|]
  | |- runs (upd_vnode _ _) _ _ => eapply runs_upd_vnode; [look|]
  | |- runs (get_inode _) _ _ => eapply runs_get_inode; [look|]
  | |- runs (upd_inode _ _) _ _ => eapply runs_upd_inode; [look|]
  | |- runs (vnode_inode _) _ _ => eapply runs_vnode_inode; [look|look|]
  | |- runs (get_dents _) _ _ => eapply runs_get_dents; [look|look|]
  | |- runs (set_dent _ _ _) _ _ => eapply runs_set_dent; [look|look|]
  | |- runs (kderef _) _ _ => eapply runs_deref; [look|]
  | |- _ => go1
  end.
Ltac run := repeat (run1; cbv beta iota).
(** The same through tests that compute. *)
Ltac runc1 := lazymatch goal with
  | |- runs (if ?b then _ else _) _ _ =>
      let v := eval vm_compute in b in
      lazymatch v with true => change b with true | false => change b with false end
  | |- _ => run1
  end.
Ltac runc := repeat (runc1; cbv beta iota).

(** ** Getting and putting vnodes *)

Section vnode_layer.
Context `{Platform ramfs}.

Definition fresh_vnode (i p : Z) (nd : ramfs_inode) : vnode :=
  let d := match rf_mem nd with Devid d => d | _ => 0 end in
  mk_vnode (Some (ops_of nd)) i 1 0 [] (mode_of nd) (rf_size nd) (Some p) d
    (if S_ISCHR (mode_of nd) then bytedev_lookup d else None)
    (if S_ISBLK (mode_of nd) then blockdev_lookup d else None) false [].

Definition link_more (nd : ramfs_inode) : ramfs_inode := with_links (rf_linkcount nd + 1) nd.
Definition link_less (nd : ramfs_inode) : ramfs_inode := with_links (rf_linkcount nd - 1) nd.

(** The state with a vnode brought in. *)
Definition came_in (i p vn : Z) (nd : ramfs_inode) (b : nat) (s : fsys ramfs) : fsys ramfs :=
  set_vnodes (insert vn (fresh_vnode i p nd)) (set_inuse (cons vn) (set_inodes (insert p (link_more nd)) (bump 1 b s))).

Lemma run_bring_in X s i p nd b :
  inv X s -> rfs_inodes (fs_i s) !! i = Some p -> inodes (fs_i s) !! p = Some nd ->
  runs (bring_in (fs_next s) i) (bump 1 b s) (fun _ s' => s' = came_in i p (fs_next s) nd b s).
Proof.
  intros HI Hi Hp. pose proof (linkcount_range X s p nd HI Hp) as Hlc.
  assert (Ei : rf_ino nd = i). { apply (inv_slot X s HI) in Hi as (a & Ha & <-). congruence. }
  assert (Hok : inode_ok nd) by (by apply (inv_inode X s HI p)).
  assert (Hs : s32 (rf_linkcount nd + 1) = rf_linkcount nd + 1) by (apply s32_small; lia).
  unfold bring_in. run. cbn [read_vnode ramfs_ops]. unfold ramfs_read_vnode. run.
  apply runs_assert; [cbn; by rewrite Ei, Z.eqb_refl|]. run.
  destruct Hok as (_ & Hm). unfold came_in, fresh_vnode, link_more, mode_of, ops_of.
  destruct (rf_mem nd) as [bytes|l|d] eqn:Em; [destruct Hm as (Hm & _)|destruct Hm as (Hm & _)|destruct Hm as [Hm|Hm]];
    rewrite Hm; runc; unfold init_special_vnode; runc; autorewrite with fsys; by rewrite Hs.
Qed.

(** [vget] finds the vnode in core, or brings it in. *)
Definition got (i : Z) (s : fsys ramfs) (vn : Z) (s' : fsys ramfs) : Prop :=
  (exists v, vnodes s !! vn = Some v /\ vn_vno v = i
     /\ s' = set_vnodes (insert vn (with_refcount (vn_refcount v + 1) v)) s)
  \/ (exists p nd b, rfs_inodes (fs_i s) !! i = Some p /\ inodes (fs_i s) !! p = Some nd /\ vn = fs_next s
     /\ (forall vn' v', vnodes s !! vn' = Some v' -> vn_vno v' <> i)
     /\ fs_budget s = S b /\ s' = came_in i p vn nd b s).

Lemma run_find_vnode (s : fsys ramfs) i l :
  (forall vn, vn ∈ l -> is_Some (vnodes s !! vn)) ->
  runs (find_vnode l i) s (fun r s' => s' = s /\ match r with
    | Some vn => exists v, vnodes s !! vn = Some v /\ vn_vno v = i
    | None => forall vn v, vn ∈ l -> vnodes s !! vn = Some v -> vn_vno v <> i
    end).
Proof.
  induction l as [|vn l IH]; intros Hl; cbn [find_vnode]; [go; set_solver|].
  destruct (Hl vn ltac:(set_solver)) as [v Hv]. run. destruct (Z.eqb_spec (vn_vno v) i) as [E|E]; [go; eauto|].
  eapply runs_mono; [apply IH; set_solver|]. intros [vn'|] s' [-> Hr]; split; try done.
  intros vn' v' [->|Hin]%elem_of_cons Hv'; [congruence|by eapply Hr].
Qed.

Lemma run_vget X s i :
  inv X s -> is_Some (rfs_inodes (fs_i s) !! i) -> calm s -> (0 < fs_budget s)%nat ->
  runs (vget i) s (got i s).
Proof.
  intros HI [p Hi] Hcalm Hb. unfold vget. cbn [vget_loop]. run.
  eapply runs_mono; [apply run_find_vnode; intros vn; apply (inv_list X s HI)|].
  intros [vn|] s' [-> Hr]; cbv iota.
  - destruct Hr as (v & Hv & Ev). destruct (inv_vnode X s HI vn v Hv) as [B R _ _ _]. run.
    rewrite B. cbv iota. unfold vref. run. apply runs_assert; [apply Z.ltb_lt; lia|]. run.
    left. exists v. repeat split; try done. rewrite s32_small; [done|]. pose proof (Hcalm vn v Hv). lia.
  - destruct (fs_budget s) as [|b] eqn:Eb; [lia|]. apply runs_bind. apply (runs_mem_alloc s b _ Eb). cbv iota.
    assert (exists nd, inodes (fs_i s) !! p = Some nd) as [nd Hp].
    { apply (inv_slot X s HI) in Hi as (nd & Hp & _). eauto. }
    apply runs_bind. eapply runs_mono; [by apply (run_bring_in X s i p nd b)|]. intros _ s' ->. go.
    right. exists p, nd, b. repeat split; try done. intros vn' v' Hv'. apply (Hr vn' v'); [|done]. apply (inv_list X s HI). eauto.
Qed.

(** What every operation leaves alone: the table of inodes, the files up to their
    link counts, and the vnodes up to their reference counts. *)
Record keeps (s s' : fsys ramfs) : Prop := {
  keeps_slots : rfs_inodes (fs_i s') = rfs_inodes (fs_i s);
  keeps_inodes : forall p, with_links 0 <$> inodes (fs_i s') !! p = with_links 0 <$> inodes (fs_i s) !! p;
  keeps_vnodes : forall vn v, vnodes s !! vn = Some v ->
    exists c, vnodes s' !! vn = Some (with_refcount c v) /\ vn_refcount v <= c <= vn_refcount v + 1;
  keeps_root : fs_root s' = fs_root s;
  keeps_budget : (fs_budget s <= S (fs_budget s'))%nat
}.

Lemma with_refcount_id v : with_refcount (vn_refcount v) v = v.
Proof. by destruct v. Qed.
Lemma with_links_id nd : with_links (rf_linkcount nd) nd = nd.
Proof. by destruct nd. Qed.

Lemma got_keeps X i s vn s' : inv X s -> got i s vn s' -> keeps s s'.
Proof.
  intros HI [(v & Hv & _ & ->)|(p & nd & b & Hi & Hp & -> & Hno & Hb & ->)].
  - split; cbn; [done|done| |done|lia]. intros vn' v' Hv'. destruct (decide (vn' = vn)) as [->|Hne].
    + rewrite lookup_insert_eq. assert (v' = v) as -> by congruence. exists (vn_refcount v + 1). split; [done|lia].
    + rewrite lookup_insert_ne by done. exists (vn_refcount v'). rewrite with_refcount_id. split; [done|lia].
  - split; cbn; [done| | |done|lia].
    + intros q. destruct (decide (q = p)) as [->|Hne]; [by rewrite lookup_insert_eq, Hp|by rewrite lookup_insert_ne].
    + intros vn' v' Hv'. exists (vn_refcount v'). rewrite with_refcount_id, lookup_insert_ne; [split; [done|lia]|].
      intros <-. destruct (inv_fresh X s HI (fs_next s)) as [_ Hn]; [lia|]. congruence.
Qed.

(** The vnode that was obtained. *)
Lemma got_vnode X i s vn s' : inv X s -> got i s vn s' ->
  exists v p nd, vnodes s' !! vn = Some v /\ vn_vno v = i /\ vn_i v = Some p
    /\ inodes (fs_i s) !! p = Some nd /\ rf_ino nd = i /\ vn_mode v = mode_of nd /\ vn_ops v = Some (ops_of nd).
Proof.
  intros HI [(v & Hv & Ev & ->)|(p & nd & b & Hi & Hp & -> & Hno & Hb & ->)].
  - destruct (inv_vnode X s HI vn v Hv) as [_ _ _ _ (p & nd & Hi & Hp & Ei & Hm & Ho & _)].
    eexists _, p, nd. cbn. rewrite lookup_insert_eq. repeat split; try done. congruence.
  - assert (rf_ino nd = i) by (apply (inv_slot X s HI) in Hi as (a & Ha & <-); congruence).
    eexists _, p, nd. cbn. rewrite lookup_insert_eq. done.
Qed.

(** A link count changes, nothing else does. *)
Lemma refs_with_links j c nd : refs j (with_links c nd) = refs j nd.
Proof. done. Qed.
Lemma inode_ok_links c nd : inode_ok nd -> inode_ok (with_links c nd).
Proof. done. Qed.

Lemma inv_links_change X X' s p nd c :
  inv X s -> inodes (fs_i s) !! p = Some nd -> 0 < c ->
  (forall i, X' i = X i + (if i =? rf_ino nd then c - rf_linkcount nd else 0)) -> (forall i, 0 <= X' i <= 2) ->
  inv X' (set_inodes (insert p (with_links c nd)) s).
Proof.
  intros HI Hp Hc HX HX'. apply (inv_replace X s HI X' p nd); try done.
  - apply inode_ok_links. by apply (inv_inode X s HI p).
  - intros l e Hm He Hce. by apply (inv_entry X s HI p nd l e).
  - intros i. rewrite refs_with_links, HX. cbn. lia.
  - eapply (orphan_grow X s HI p nd); done.
Qed.

Lemma fresh_vnode_ok r i p nd c : inode_ok nd -> inodes r !! p = Some (with_links c nd) -> rf_ino nd = i ->
  vnode_ok r (fresh_vnode i p nd).
Proof.
  intros _ Hp <-. split; cbn; try done. exists p, (with_links c nd). repeat split; try done. cbn. by destruct (rf_mem nd).
Qed.

Lemma got_inv X i s vn s' : inv X s -> X i <= 1 -> got i s vn s' -> inv X s'.
Proof.
  intros HI HX [(v & Hv & Ev & ->)|(p & nd & b & Hi & Hp & -> & Hno & Hb & ->)].
  - apply (inv_replace_vnode X s HI vn v); [done|done|].
    destruct (inv_vnode X s HI vn v Hv) as [B R N P Q]. split; try done. cbn. lia.
  - assert (Ei : rf_ino nd = i) by (apply (inv_slot X s HI) in Hi as (a & Ha & <-); congruence).
    pose proof (inv_fresh X s HI (fs_next s) ltac:(lia)) as [_ Hfresh].
    pose proof (inv_extra X s HI) as HX0. pose proof (linkcount_range X s p nd HI Hp) as Hlc.
    apply (inv_vnode_in (plus X i)) with (i := i); try done.
    + apply (inv_links_change X); [by apply inv_bump|done|lia| |].
      * intros j. unfold plus. rewrite Ei. case_match; lia.
      * intros j. unfold plus. specialize (HX0 j). case_match eqn:E; [apply Z.eqb_eq in E as ->|]; lia.
    + cbn. lia.
    + apply (fresh_vnode_ok _ _ _ _ (rf_linkcount nd + 1)); [by apply (inv_inode X s HI p)| |done].
      cbn. by rewrite lookup_insert_eq.
Qed.

(** [vput]: one reference less, or the vnode goes, and with it the file that
    nothing else refers to. *)
Definition gone (vn : Z) (v : vnode) (p : Z) (nd : ramfs_inode) (s : fsys ramfs) : fsys ramfs :=
  set_vnodes (delete vn) (set_inuse (filter (fun x => x <> vn))
    (if rf_linkcount nd =? 1 then set_inodes (delete p) (set_slots (delete (vn_vno v)) (set_runq (fun q => q ++ vn_waitq v) s))
     else set_inodes (insert p (link_less nd)) (set_runq (fun q => q ++ vn_waitq v) s))).

Definition put (vn : Z) (s s' : fsys ramfs) : Prop :=
  exists v p nd, vnodes s !! vn = Some v /\ vn_i v = Some p /\ inodes (fs_i s) !! p = Some nd
    /\ s' = (if vn_refcount v =? 1 then gone vn v p nd s
             else set_vnodes (insert vn (with_refcount (vn_refcount v - 1) v)) s).

Lemma run_vput X s vn v :
  inv X s -> vnodes s !! vn = Some v -> vn_refcount v < 2 ^ 31 -> runs (vput vn) s (fun _ s' => put vn s s').
Proof.
  intros HI Hv Hbig. destruct (inv_vnode X s HI vn v Hv) as [B R N P (p & nd & Hi & Hp & Ei & _)].
  pose proof (linkcount_range X s p nd HI Hp) as Hlc.
  assert (Hslot : rfs_inodes (fs_i s) !! vn_vno v = Some p) by (apply (inv_slot X s HI); eauto).
  unfold vput. run. rewrite Hv, P. cbn [length vput_loop]. run.
  apply runs_assert; [rewrite N; done|]. apply runs_bind, runs_assert; [apply Z.ltb_lt; lia|]. rewrite B. run.
  rewrite N. apply (runs_mono _ _ (fun linked s' => s' = s /\ (vn_refcount v = 1 \/ linked = true))).
  { destruct (Z.eqb_spec 0 (vn_refcount v - 1)) as [E|E]; [|go; eauto].
    cbn [query_vnode ramfs_ops]. unfold ramfs_query_vnode. run. split; [done|]. left. lia. }
  intros linked s' [-> Hl]. rewrite P.
  apply runs_bind. apply (runs_mono _ _ (fun _ s' => s' = s)).
  { destruct linked; cbn [negb]; [by go|]. destruct Hl as [Hl|?]; [|done]. run.
    apply runs_assert; [by rewrite N|]. apply runs_bind || idtac. apply runs_assert; [by rewrite Hl|done]. }
  intros _ s' ->. run. cbn [vn_refcount with_refcount]. rewrite s32_small by lia.
  destruct (Z.ltb_spec 0 (vn_refcount v - 1)) as [Hgt|Hle].
  { go. exists v, p, nd. rewrite (proj2 (Z.eqb_neq _ _)) by lia. done. }
  assert (Hone : vn_refcount v = 1) by lia.
  apply runs_bind, runs_assert; [rewrite Hone; done|]. apply runs_bind, runs_assert; [cbn; by rewrite N|]. run.
  apply (runs_mono _ _ (fun _ s' => s' = set_vnodes (insert vn (with_busy true (with_refcount 0 v)))
    (if rf_linkcount nd =? 1 then set_inodes (delete p) (set_slots (delete (vn_vno v)) s)
     else set_inodes (insert p (link_less nd)) s))).
  { cbn [delete_vnode ramfs_ops]. unfold ramfs_delete_vnode. run. autorewrite with fsys. cbn [rf_linkcount with_links].
    rewrite s32_small by lia. rewrite Hone. change (1 - 1) with 0.
    destruct (Z.eqb_spec (rf_linkcount nd - 1) 0) as [E|E].
    - run. apply runs_assert; [by apply bool_decide_eq_true|]. run. autorewrite with fsys.
      rewrite (proj2 (Z.eqb_eq (rf_linkcount nd) 1)) by lia. done.
    - go. rewrite (proj2 (Z.eqb_neq (rf_linkcount nd) 1)) by lia. done. }
  intros _ s' ->. unfold broadcast_on_waitq. run. exists v, p, nd. repeat split; try done.
  rewrite Hone. cbn [Z.eqb Pos.eqb]. unfold gone. autorewrite with fsys. destruct (rf_linkcount nd =? 1); by autorewrite with fsys.
Qed.

Lemma inv_runq X s f : inv X s -> inv X (set_runq f s).
Proof. intros [I1 I2 I3 I4 I5 I6 I7 I8 I9 I10 I11]. by split. Qed.

Lemma inv_ext X Y s : inv X s -> (forall i, Y i = X i) -> inv Y s.
Proof.
  intros [I1 I2 I3 I4 I5 I6 I7 I8 I9 I10 I11] E. split; try done.
  - intros p nd Hp. rewrite E. by apply (I3 p nd).
  - intros i. rewrite E. apply I11.
Qed.

Lemma put_inv X s vn s' :
  inv X s -> put vn s s' -> (forall v, vnodes s !! vn = Some v -> X (vn_vno v) <= 1) -> inv X s'.
Proof.
  intros HI (v & p & nd & Hv & Hi & Hp & ->) HX. specialize (HX v Hv).
  destruct (inv_vnode X s HI vn v Hv) as [B R N P (p' & nd' & Hi' & Hp' & Ei & Hrest)].
  assert (p' = p) as -> by congruence. assert (nd' = nd) as -> by congruence.
  pose proof (linkcount_range X s p nd HI Hp) as Hlc. pose proof (inv_extra X s HI) as HX0.
  destruct (Z.eqb_spec (vn_refcount v) 1) as [E1|E1].
  - pose proof (inv_vnode_out X s HI vn v Hv HX) as HO. unfold gone. rewrite <- Ei in HO |- *.
    apply (inv_runq _ _ (fun q => q ++ vn_waitq v)) in HO.
    destruct (Z.eqb_spec (rf_linkcount nd) 1) as [E2|E2].
    + by apply (inv_free _ _ HO X p nd).
    + apply (inv_links_change _ X _ p nd (rf_linkcount nd - 1)) in HO; [done|done|lia| |done].
      intros j. unfold plus. destruct (j =? rf_ino nd); lia.
  - apply (inv_replace_vnode X s HI vn v); [done|done|]. split; try done; [cbn; lia|].
    exists p, nd. done.
Qed.


(** ** Reference counts

    [rc] is the reference count of a vnode, 0 when it is not in core. *)

Definition rc (t : fsys ramfs) (vn : Z) : Z := match vnodes t !! vn with Some v => vn_refcount v | None => 0 end.
Definition one (vn w : Z) : Z := if w =? vn then 1 else 0.

Lemma one_eq vn : one vn vn = 1.
Proof. unfold one. by rewrite Z.eqb_refl. Qed.
Lemma one_range vn w : 0 <= one vn w <= 1.
Proof. unfold one. case_match; lia. Qed.

Lemma rc_pos X t vn v : inv X t -> vnodes t !! vn = Some v -> rc t vn = vn_refcount v /\ 0 < rc t vn.
Proof. intros HI Hv. unfold rc. rewrite Hv. split; [done|]. apply (inv_vnode X t HI vn v Hv). Qed.

Lemma rc_nonneg X t vn : inv X t -> 0 <= rc t vn.
Proof. intros HI. unfold rc. destruct (vnodes t !! vn) as [v|] eqn:Hv; [|done]. destruct (inv_vnode X t HI vn v Hv). lia. Qed.

Lemma rc_vnode X t vn : inv X t -> 0 < rc t vn -> exists v, vnodes t !! vn = Some v /\ vn_refcount v = rc t vn.
Proof. intros _. unfold rc. destruct (vnodes t !! vn) as [v|]; [eauto|lia]. Qed.

Lemma got_rc X i t vn t' : inv X t -> got i t vn t' -> forall w, rc t' w = rc t w + one vn w.
Proof.
  intros HI Hg w. unfold rc, one.
  destruct Hg as [(v & Hv & Ev & ->)|(p & nd & b & Hi & Hp & -> & Hno & Hb & ->)]; cbn.
  - destruct (Z.eqb_spec w vn) as [->|Hne]; [by rewrite lookup_insert_eq, Hv|rewrite lookup_insert_ne by done; lia].
  - destruct (Z.eqb_spec w (fs_next t)) as [->|Hne]; [rewrite lookup_insert_eq|rewrite lookup_insert_ne by done; lia].
    destruct (inv_fresh X t HI (fs_next t)) as [_ Hn]; [lia|]. by rewrite Hn.
Qed.

Lemma put_rc X t vn t' : inv X t -> put vn t t' -> forall w, rc t' w = rc t w - one vn w.
Proof.
  intros HI (v & p & nd & Hv & Hi & Hp & ->) w. unfold rc, one.
  destruct (Z.eqb_spec (vn_refcount v) 1) as [E|E]; cbn.
  - unfold gone. cbn. destruct (rf_linkcount nd =? 1); cbn;
      (destruct (Z.eqb_spec w vn) as [->|Hne]; [rewrite lookup_delete_eq, Hv; lia|rewrite lookup_delete_ne by done; lia]).
  - destruct (Z.eqb_spec w vn) as [->|Hne]; [by rewrite lookup_insert_eq, Hv|rewrite lookup_insert_ne by done; lia].
Qed.

Lemma got_next i t vn t' : got i t vn t' -> fs_next t <= fs_next t'.
Proof. intros [(v & _ & _ & ->)|(p & nd & b & _ & _ & _ & _ & _ & ->)]; cbn; lia. Qed.

Lemma put_counters t vn t' : put vn t t' -> fs_next t' = fs_next t /\ fs_root t' = fs_root t /\ fs_budget t' = fs_budget t.
Proof.
  intros (v & p & nd & _ & _ & _ & ->). unfold gone. destruct (vn_refcount v =? 1); [|done]. by destruct (rf_linkcount nd =? 1).
Qed.

(** An operation that gives back every reference it took. *)
Record steady (s s' : fsys ramfs) : Prop := {
  steady_rc : forall w, rc s' w = rc s w;
  steady_root : fs_root s' = fs_root s;
  steady_next : fs_next s <= fs_next s'
}.

#[export] Instance steady_preorder : PreOrder steady.
Proof.
  split.
  - by intros s.
  - intros s1 s2 s3 [A1 A2 A3] [B1 B2 B3]. split; [intros w; by rewrite B1|congruence|lia].
Qed.

Lemma steady_vnodes s s' : vnodes s' = vnodes s -> fs_root s' = fs_root s -> fs_next s <= fs_next s' -> steady s s'.
Proof. intros E Er En. split; [|done|done]. intros w. unfold rc. by rewrite E. Qed.

(** A vnode is obtained and put back after changes that leave the counts alone. *)
Lemma got_put_steady X Y i s vn s1 s2 s' : inv X s -> inv Y s2 -> got i s vn s1 -> steady s1 s2 -> put vn s2 s' -> steady s s'.
Proof.
  intros HI HI2 Hg [S1 S2 S3] Hput. destruct (put_counters _ _ _ Hput) as (En & Er & _). pose proof (got_next _ _ _ _ Hg).
  split; [|rewrite Er, S2; by destruct (got_keeps X i s vn s1 HI Hg)|lia].
  intros w. rewrite (put_rc Y _ _ _ HI2 Hput), S1, (got_rc X i s vn s1 HI Hg). lia.
Qed.

End vnode_layer.

End RamfsInv.
