(* ===== verification/RamfsDir.v ===== *)
(** * Directories of the RAM file system

    The specifications of the operations that change a directory, against the
    partial map from names to inode numbers that a directory stands for. *)

From S2P Require Import Prelude KString Vnode Ramfs RamfsInv.

Module RamfsDir.
Import KString Vnode Ramfs RamfsInv.

Local Open Scope Z_scope.

(** ** Searching a directory *)

Lemma find_entry_spec (test : dirent -> option bool) (P : dirent -> Prop) `{forall e, Decision (P e)} l :
  Forall (fun e => test e = Some (bool_decide (P e))) l ->
  find_entry test l = Some (fst <$> list_find P l).
Proof.
  induction 1 as [|e l He _ IH]; [done|]. cbn [find_entry list_find]. rewrite He. cbn [mbind option_bind].
  destruct (decide (P e)) as [Hp|Hp].
  - by rewrite bool_decide_eq_true_2.
  - rewrite bool_decide_eq_false_2 by done. rewrite IH. cbn. by destruct (list_find P l) as [[i x]|].
Qed.

(** The array [name], of which the first [n] characters are the component [nm]. *)
Record is_name (name : list Z) (n : Z) (nm : list Z) : Prop := {
  name_prefix : take (length nm) name = nm;
  name_length : n = Z.of_nat (length nm);
  name_chars : Forall is_char name;
  name_nonul : NUL ∉ nm;
  name_nonempty : nm <> []
}.

Lemma name_long name n nm : is_name name n nm -> (length nm <= length name)%nat.
Proof. intros [H _ _ _ _]. rewrite <- H at 1. rewrite length_take. lia. Qed.

Lemma name_match_spec name n nm fname t : is_name name n nm -> is_str fname t -> Forall is_char t ->
  name_match fname name n = Some (bool_decide (t = nm)).
Proof.
  intros Hn Hs Hc. pose proof (name_long name n nm Hn) as Hlen. destruct Hn as [Hp -> Hch Hz _].
  unfold name_match. rewrite (strlen_spec _ _ Hs). cbn [mbind option_bind].
  destruct (Z.eqb_spec (Z.of_nat (length t)) (Z.of_nat (length nm))) as [E|E].
  - apply Nat2Z.inj in E. rewrite Nat2Z.id, <- E.
    destruct (strncmp_prefix fname t name Hs Hc Hch ltac:(lia)) as (r & -> & Hr). cbn. f_equal.
    rewrite E, Hp in Hr. destruct (Z.eqb_spec r 0); symmetry; [apply bool_decide_eq_true|apply bool_decide_eq_false]; naive_solver.
  - by rewrite bool_decide_eq_false_2 by congruence.
Qed.

Lemma matches_spec name n nm e : is_name name n nm -> entry_ok e ->
  entry_matches name n e = Some (bool_decide (ename e = nm)).
Proof. intros Hn (Hl & Hs & Hc & _). by apply name_match_spec. Qed.

Lemma unused_spec e : entry_ok e -> entry_unused e = Some (bool_decide (~ named e)).
Proof.
  intros (Hl & Hs & _). unfold entry_unused.
  apply is_str_inv in Hs as [(E & s' & ->)|(c & t & s' & E & -> & Hc & _)]; cbn.
  - rewrite bool_decide_eq_true_2; [done|]. unfold named. naive_solver.
  - rewrite (proj2 (Z.eqb_neq c 0) Hc), bool_decide_eq_false_2; [done|]. unfold named. rewrite E. naive_solver.
Qed.

Lemma find_match name n nm l : is_name name n nm -> Forall entry_ok l ->
  find_entry (entry_matches name n) l = Some (fst <$> list_find (fun e => ename e = nm) l).
Proof. intros Hn Hl. apply find_entry_spec. eapply Forall_impl; [exact Hl|]. intros e. by apply matches_spec. Qed.

Lemma find_unused l : Forall entry_ok l ->
  find_entry entry_unused l = Some (fst <$> list_find (fun e => ~ named e) l).
Proof. intros Hl. apply find_entry_spec. eapply Forall_impl; [exact Hl|]. apply unused_spec. Qed.

(** ** Changing one entry *)

Lemma split_at {A} (l : list A) i x : l !! i = Some x ->
  exists l1 l2, l = l1 ++ x :: l2 /\ forall y, <[i := y]> l = l1 ++ y :: l2.
Proof.
  intros Hi. exists (take i l), (drop (S i) l). split; [by rewrite take_drop_middle|].
  intros y. apply insert_take_drop. by eapply lookup_lt_Some.
Qed.

Definition count (P : Prop) `{Decision P} : Z := if decide P then 1 else 0.

Lemma length_filter_change {A} (P : A -> Prop) `{forall x, Decision (P x)} (l : list A) i x y : l !! i = Some x ->
  Z.of_nat (length (filter P (<[i := y]> l))) = Z.of_nat (length (filter P l)) - count (P x) + count (P y).
Proof.
  intros (l1 & l2 & -> & Hy)%split_at. rewrite Hy, !filter_app, !filter_cons, !length_app. unfold count.
  destruct (decide (P x)), (decide (P y)); cbn [length]; lia.
Qed.

(** The map from names to inode numbers. *)
Definition dir_find (l : list dirent) (nm : list Z) : option Z := (fun x => rd_ino x.2) <$> list_find (fun e => ename e = nm) l.

Lemma names_split l1 e l2 : names (l1 ++ e :: l2) = names l1 ++ (if decide (named e) then [ename e] else []) ++ names l2.
Proof.
  unfold names. rewrite filter_app, filter_cons, fmap_app. by destruct (decide (named e)).
Qed.

Lemma not_in_names l nm : nm <> [] -> nm ∉ names l <-> forall e, e ∈ l -> ename e <> nm.
Proof.
  intros Hne. unfold names. rewrite list_elem_of_fmap. split.
  - intros Hn e He E. apply Hn. exists e. split; [done|]. apply list_elem_of_filter. split; [|done]. unfold named. by rewrite E.
  - intros Hn (e & E & He). apply list_elem_of_filter in He as [_ He]. by apply (Hn e).
Qed.

Lemma dir_find_app l1 l2 nm : dir_find (l1 ++ l2) nm = match dir_find l1 nm with Some i => Some i | None => dir_find l2 nm end.
Proof.
  unfold dir_find. destruct (list_find (fun e => ename e = nm) l1) as [[i e]|] eqn:E.
  - by rewrite (list_find_app_l _ _ _ _ _ E).
  - rewrite list_find_app_r by done. cbn. by destruct (list_find _ l2) as [[]|].
Qed.

Lemma dir_find_cons e l nm : dir_find (e :: l) nm = if decide (ename e = nm) then Some (rd_ino e) else dir_find l nm.
Proof. unfold dir_find. cbn. destruct (decide (ename e = nm)); [done|]. by destruct (list_find _ l) as [[]|]. Qed.

Lemma dir_find_None l nm : nm <> [] -> dir_find l nm = None <-> nm ∉ names l.
Proof.
  intros Hne. rewrite (not_in_names l nm Hne). unfold dir_find. rewrite fmap_None, list_find_None, Forall_forall. done.
Qed.

(** An unused entry is given a name that is new in the directory. *)
Lemma dir_fill l i e e' : dir_ok l -> l !! i = Some e -> ~ named e -> entry_ok e' -> named e' -> ename e' ∉ names l ->
  dir_ok (<[i := e']> l)
  /\ length (names (<[i := e']> l)) = S (length (names l))
  /\ (forall nm, nm <> [] -> dir_find (<[i := e']> l) nm = if decide (nm = ename e') then Some (rd_ino e') else dir_find l nm).
Proof.
  intros [D1 D2 D3] Hi Hun Hok Hnm Hnew. destruct (split_at l i e Hi) as (l1 & l2 & -> & Hy). rewrite Hy.
  rewrite names_split, (decide_False (P := named e)) in D3, Hnew by done. cbn [app] in *.
  rewrite !names_split, decide_True, (decide_False (P := named e)) by done. cbn [app].
  split; [split|split].
  - rewrite <- D1, !length_app. done.
  - apply Forall_app in D2 as [F1 F2]. apply Forall_cons in F2 as [_ F2]. apply Forall_app. split; [done|by constructor].
  - rewrite names_split, decide_True by done. cbn [app]. rewrite <- Permutation_middle. by apply NoDup_cons.
  - rewrite !length_app. cbn. lia.
  - intros nm Hne. rewrite !dir_find_app, !dir_find_cons.
    assert (He : ename e <> nm) by (unfold named in Hun; destruct (decide (ename e = [])) as [->|]; [done|tauto]).
    rewrite (decide_False (P := ename e = nm)) by done. destruct (decide (nm = ename e')) as [->|Hnm'].
    + rewrite decide_True by done. apply not_elem_of_app in Hnew as [Hnew _].
      by rewrite (proj2 (dir_find_None l1 (ename e') Hne)).
    + by rewrite decide_False by congruence.
Qed.

(** A named entry is blanked. *)
Lemma dir_blank l i e e' : dir_ok l -> l !! i = Some e -> named e -> entry_ok e' -> ~ named e' ->
  dir_ok (<[i := e']> l)
  /\ S (length (names (<[i := e']> l))) = length (names l)
  /\ (forall nm, nm <> [] -> dir_find (<[i := e']> l) nm = if decide (nm = ename e) then None else dir_find l nm).
Proof.
  intros [D1 D2 D3] Hi Hnm Hok Hun. destruct (split_at l i e Hi) as (l1 & l2 & -> & Hy). rewrite Hy.
  rewrite names_split, (decide_True (P := named e)) in D3 by done. cbn [app] in *.
  rewrite !names_split, (decide_True (P := named e)), (decide_False (P := named e')) by done. cbn [app].
  rewrite <- Permutation_middle in D3. apply NoDup_cons in D3 as [N3 N4].
  split; [split|split].
  - rewrite <- D1, !length_app. done.
  - apply Forall_app in D2 as [F1 F2]. apply Forall_cons in F2 as [_ F2]. apply Forall_app. split; [done|by constructor].
  - by rewrite names_split, decide_False by done.
  - rewrite !length_app. cbn. lia.
  - intros nm Hne. rewrite !dir_find_app, !dir_find_cons.
    assert (He : ename e' <> nm) by (unfold named in Hun; destruct (decide (ename e' = [])) as [->|]; [done|tauto]).
    rewrite (decide_False (P := ename e' = nm)) by done. destruct (decide (nm = ename e)) as [->|Hnm'].
    + apply not_elem_of_app in N3 as [N3 N3']. rewrite (proj2 (dir_find_None l1 _ Hne)) by done. by apply dir_find_None.
    + by rewrite decide_False by congruence.
Qed.

(** ** Writing a name into an entry *)

Lemma set_entry_spec ino name n nm e : is_name name n nm -> (length nm <= 27)%nat -> entry_ok e -> 0 <= ino < 64 ->
  exists e', set_entry ino name n e = Some e' /\ entry_ok e' /\ ename e' = nm /\ rd_ino e' = ino.
Proof.
  intros Hn Hshort (Hl & _ & _ & _) Hino. pose proof (name_long name n nm Hn) as Hlen. destruct Hn as [Hp -> Hch Hz Hne].
  unfold set_entry, NAME_LEN. rewrite Z.min_l, Nat2Z.id by lia.
  rewrite strncpy_take by (rewrite ?Hp, ?Hl; (done || lia)). cbn [mbind option_bind]. rewrite Hp.
  eexists. split; [done|]. set (b := <[_ := _]> _).
  assert (Hb : b = nm ++ NUL :: drop (S (length nm)) (rd_name e)).
  { unfold b. destruct (drop (length nm) (rd_name e)) as [|x r] eqn:E.
    { apply (f_equal length) in E. rewrite length_drop, Hl in E. cbn in E. lia. }
    replace (drop (S (length nm)) (rd_name e)) with r.
    - replace (length nm) with (length nm + 0)%nat at 1 by lia. by rewrite insert_app_r.
    - change (S (length nm)) with (1 + length nm)%nat. rewrite Nat.add_comm, <- drop_drop, E. done. }
  assert (Hs : is_str b nm) by (rewrite Hb; by apply is_str_app).
  assert (He : cstr b = nm) by (by apply cstr_is_str).
  unfold entry_ok, ename. cbn. rewrite He. split; [split; [|split; [done|split; [|done]]]|done].
  - rewrite Hb, length_app. cbn [length]. rewrite length_drop, Hl. lia.
  - rewrite <- Hp. by apply Forall_take.
Qed.

Definition blank (e : dirent) : dirent := mk_dirent (rd_ino e) (<[0%nat := NUL]> (rd_name e)).
Lemma blank_ok e : entry_ok e -> entry_ok (blank e) /\ ~ named (blank e).
Proof.
  intros (Hl & Hs & Hc & Hi). destruct e as [ino b]. cbn in *. destruct b as [|c b]; [done|].
  assert (E : ename (blank (mk_dirent ino (c :: b))) = []) by done.
  split; [|unfold named; rewrite E; tauto]. unfold entry_ok. rewrite E.
  split; [done|]. split; [apply is_str_nil|]. split; [constructor|done].
Qed.

(** ** Running the operations *)

Section operations.
Context `{Platform ramfs}.

Record is_dir (s : fsys ramfs) (dir : Z) (dv : vnode) (p : Z) (nd : ramfs_inode) (l : list dirent) : Prop := {
  dir_vnode : vnodes s !! dir = Some dv;
  dir_i : vn_i dv = Some p;
  dir_inode : inodes (fs_i s) !! p = Some nd;
  dir_mem : rf_mem nd = Dents l
}.

Lemma is_dir_ok X s dir dv p nd l : inv X s -> is_dir s dir dv p nd l -> dir_ok l /\ rf_size nd = 32 * Z.of_nat (length (names l)).
Proof.
  intros HI [_ _ Hp Hm]. destruct (inv_inode X s HI p nd Hp) as (_ & Hok). rewrite Hm in Hok. tauto.
Qed.

Lemma names_few l : dir_ok l -> (length (names l) <= 128)%nat.
Proof. intros [D _ _]. unfold names. rewrite length_fmap, <- D. apply length_filter. Qed.

Lemma run_lookup_none X s dir dv p nd l name n nm :
  inv X s -> is_dir s dir dv p nd l -> is_name name n nm -> nm ∉ names l ->
  runs (ramfs_lookup dir name n) s (fun r s' => r = (- ENOENT, None) /\ s' = s).
Proof.
  intros HI HD Hn Hnew. destruct (is_dir_ok _ _ _ _ _ _ _ HI HD) as [[D1 D2 D3] _]. destruct HD as [H1 H2 H3 H4].
  unfold ramfs_lookup. run. rewrite (find_match name n nm) by done. run.
  destruct (list_find (fun e => ename e = nm) l) as [[i e]|] eqn:E; cbn [fmap option_fmap option_map]; [|by go].
  exfalso. apply list_find_Some in E as (Hi & Hm & _). 
  pose proof (proj1 (not_in_names l nm (name_nonempty _ _ _ Hn)) Hnew) as Hno. apply (Hno e); [by eapply list_elem_of_lookup_2|done].
Qed.

Lemma dir_find_entry l nm i : dir_find l nm = Some i -> exists k e, list_find (fun e => ename e = nm) l = Some (k, e) /\ rd_ino e = i
  /\ l !! k = Some e /\ ename e = nm.
Proof.
  unfold dir_find. intros ([k e] & E & ->)%fmap_Some. exists k, e. cbn. apply list_find_Some in E as HE. naive_solver.
Qed.

Lemma run_lookup_some X s dir dv p nd l name n nm i :
  inv X s -> is_dir s dir dv p nd l -> is_name name n nm -> dir_find l nm = Some i ->
  is_Some (rfs_inodes (fs_i s) !! i) -> calm s -> (0 < fs_budget s)%nat ->
  runs (ramfs_lookup dir name n) s (fun r s' => exists vn, r = (0, Some vn) /\ got i s vn s').
Proof.
  intros HI HD Hn Hfind Hi Hcalm Hb. destruct (is_dir_ok _ _ _ _ _ _ _ HI HD) as [[D1 D2 D3] _]. destruct HD as [H1 H2 H3 H4].
  apply dir_find_entry in Hfind as (k & e & E & <- & Hk & Hnm).
  unfold ramfs_lookup. run. rewrite (find_match name n nm), E by done. run.
  assert (Hr : 0 <= rd_ino e < 64).
  { rewrite Forall_forall in D2. apply (D2 e). by eapply list_elem_of_lookup_2. }
  rewrite u32_small by lia. apply (runs_mono _ _ (got (rd_ino e) s)); [by apply (run_vget X)|].
  intros vn s' Hg. go. eauto.
Qed.

Lemma run_unused_entry X s dir dv p nd l name n nm :
  inv X s -> is_dir s dir dv p nd l -> is_name name n nm -> nm ∉ names l ->
  runs (unused_entry dir name n) s (fun r s' => s' = s /\ r = fst <$> list_find (fun e => ~ named e) l).
Proof.
  intros HI HD Hn Hnew. unfold unused_entry. apply runs_bind.
  eapply runs_mono; [by eapply run_lookup_none|]. intros r s' [-> ->].
  destruct (is_dir_ok _ _ _ _ _ _ _ HI HD) as [[D1 D2 D3] _]. destruct HD as [H1 H2 H3 H4].
  run. rewrite find_unused by done. by go.
Qed.

(** The directory with one entry changed. *)
Definition changed (d : Z) (l : list dirent) (i : nat) (e : dirent) (nd : ramfs_inode) : ramfs_inode :=
  with_size (rf_size nd + d) (with_mem (Dents (<[i := e]> l)) nd).

Lemma run_fill_entry X s dir dv p nd l i e ino name n nm :
  inv X s -> is_dir s dir dv p nd l -> is_name name n nm -> (length nm <= 27)%nat -> 0 <= ino < 64 ->
  l !! i = Some e ->
  runs (fill_entry dir i ino name n) s (fun _ s' => exists e', entry_ok e' /\ ename e' = nm /\ rd_ino e' = ino
    /\ s' = set_inodes (insert p (changed 32 l i e' nd)) s).
Proof.
  intros HI HD Hn Hshort Hino He. destruct (is_dir_ok _ _ _ _ _ _ _ HI HD) as [Hok Hsz].
  pose proof (names_few l Hok) as Hfew. destruct Hok as [D1 D2 D3]. destruct HD as [H1 H2 H3 H4].
  assert (Heok : entry_ok e) by (rewrite Forall_forall in D2; apply D2; by eapply list_elem_of_lookup_2).
  destruct (set_entry_spec ino name n nm e Hn Hshort Heok Hino) as (e' & Hset & Hok' & Hnm & Hi').
  unfold fill_entry. run. exists e'. split; [done|]. split; [done|]. split; [done|].
  autorewrite with fsys. unfold changed. cbn [rf_size with_mem]. unfold sizeof_dirent. by rewrite s32_small by lia.
Qed.

(** ** The invariant through a change of a directory *)

Lemma refs_changed j d l i e e' nd : rf_mem nd = Dents l -> l !! i = Some e ->
  refs j (changed d l i e' nd) = refs j nd - count (counted j e) + count (counted j e').
Proof. intros Hm Hi. unfold refs. rewrite Hm. cbn. unfold links_in. by apply length_filter_change. Qed.

Lemma counted_unnamed j e : ~ named e -> count (counted j e) = 0.
Proof. intros Hn. unfold count. rewrite decide_False; [done|]. unfold counted. tauto. Qed.
Lemma counted_named j e : named e -> ename e ∉ dots -> count (counted j e) = if j =? rd_ino e then 1 else 0.
Proof.
  intros Hn Hd. unfold count, counted. destruct (Z.eqb_spec j (rd_ino e)) as [->|E]; [by rewrite decide_True|].
  rewrite decide_False; [done|]. naive_solver.
Qed.
Lemma count_range (P : Prop) `{Decision P} : 0 <= count P <= 1.
Proof. unfold count. case_match; lia. Qed.

Lemma inv_fill X Y s dir dv p nd l i e e' :
  inv X s -> is_dir s dir dv p nd l -> l !! i = Some e -> ~ named e ->
  entry_ok e' -> named e' -> ename e' ∉ dots -> ename e' ∉ names l ->
  (forall j, X j = plus Y (rd_ino e') j) -> (forall j, 0 <= Y j <= 2) ->
  is_Some (rfs_inodes (fs_i s) !! rd_ino e') -> attached (inodes (fs_i s)) (rf_ino nd) <> 0 ->
  inv Y (set_inodes (insert p (changed 32 l i e' nd)) s).
Proof.
  intros HI HD He Hun Hok Hnm Hdots Hnew HXY HY Hslot Hatt.
  destruct (is_dir_ok _ _ _ _ _ _ _ HI HD) as [Hdir Hsz]. destruct HD as [H1 H2 H3 H4].
  destruct (dir_fill l i e e' Hdir He Hun Hok Hnm Hnew) as (Hdir' & Hlen & _).
  destruct (inv_inode X s HI p nd H3) as (Hr & Hmem). rewrite H4 in Hmem. destruct Hmem as (Hmode & _).
  destruct (inv_links X s HI p nd H3) as [_ Hpos].
  apply (inv_replace X s HI Y p nd); try done.
  - split; [done|]. cbn. split; [done|]. split; [done|]. rewrite Hsz, Hlen. lia.
  - unfold mode_of. cbn. by rewrite H4.
  - unfold ops_of. cbn. by rewrite H4.
  - intros l' a [= <-] Ha Hc. destruct (split_at l i e He) as (l1 & l2 & -> & Hy). rewrite Hy in Ha.
    apply elem_of_app in Ha as [Ha|[->|Ha]%elem_of_cons]; [|done|];
      (eapply (inv_entry X s HI p nd _ a); [done|done|set_solver|done]).
  - intros j. rewrite (refs_changed j 32 l i e e' nd H4 He), HXY. unfold plus.
    rewrite (counted_unnamed j e Hun), (counted_named j e' Hnm Hdots). cbn. destruct (j =? rf_ino nd); lia.
  - apply (orphan_grow X s HI p nd); try done.
    intros j. rewrite (refs_changed j 32 l i e e' nd H4 He), (counted_unnamed j e Hun). pose proof (count_range (counted j e')). lia.
Qed.

(** The last entry for a file goes: the file is no directory or an empty one. *)
Lemma inv_blank X s dir dv p nd l i e :
  inv X s -> is_dir s dir dv p nd l -> l !! i = Some e -> named e -> ename e ∉ dots -> X (rd_ino e) <= 1 ->
  (forall q a, inodes (fs_i s) !! q = Some a -> rf_ino a = rd_ino e -> forall j, refs j a = 0) ->
  inv (plus X (rd_ino e)) (set_inodes (insert p (changed (-32) l i (blank e) nd)) s).
Proof.
  intros HI HD He Hnm Hdots HX Htarget.
  destruct (is_dir_ok _ _ _ _ _ _ _ HI HD) as [Hdir Hsz]. destruct HD as [H1 H2 H3 H4].
  assert (Heok : entry_ok e).
  { destruct Hdir as [_ D2 _]. rewrite Forall_forall in D2. apply D2. by eapply list_elem_of_lookup_2. }
  destruct (blank_ok e Heok) as [Hbok Hbun].
  destruct (dir_blank l i e (blank e) Hdir He Hnm Hbok Hbun) as (Hdir' & Hlen & _).
  destruct (inv_inode X s HI p nd H3) as (Hr & Hmem). rewrite H4 in Hmem. destruct Hmem as (Hmode & _).
  destruct (inv_links X s HI p nd H3) as [_ Hpos]. pose proof (inv_extra X s HI) as HX0.
  assert (Href : forall j, refs j (changed (-32) l i (blank e) nd) = refs j nd - (if j =? rd_ino e then 1 else 0)).
  { intros j. rewrite (refs_changed j (-32) l i e (blank e) nd H4 He), (counted_named j e Hnm Hdots), (counted_unnamed j _ Hbun). lia. }
  assert (Hself : rd_ino e <> rf_ino nd).
  { intros E. pose proof (Htarget p nd H3 (eq_sym E) (rd_ino e)) as Hz. specialize (Href (rd_ino e)). rewrite Z.eqb_refl in Href.
    assert (0 <= refs (rd_ino e) (changed (-32) l i (blank e) nd)); [|lia]. unfold refs. cbn. unfold links_in. lia. }
  apply (inv_replace X s HI _ p nd); try done.
  - split; [done|]. cbn. split; [done|]. split; [done|]. rewrite Hsz. lia.
  - unfold mode_of. cbn. by rewrite H4.
  - unfold ops_of. cbn. by rewrite H4.
  - intros l' a [= <-] Ha Hc. destruct (split_at l i e He) as (l1 & l2 & -> & Hy). rewrite Hy in Ha.
    apply elem_of_app in Ha as [Ha|[->|Ha]%elem_of_cons]; [| |];
      [|by destruct Hc|]; (eapply (inv_entry X s HI p nd _ a); [done|done|set_solver|done]).
  - intros j. rewrite Href. unfold plus. cbn. destruct (j =? rf_ino nd); lia.
  - intros j. unfold plus. specialize (HX0 j). destruct (Z.eqb_spec j (rd_ino e)) as [->|]; lia.
  - intros q a Hq Ha j. destruct (decide (rf_ino a = rd_ino e)) as [E|E].
    + destruct (decide (q = p)) as [->|Hne]; [rewrite lookup_insert_eq in Hq; injection Hq as <-; by destruct Hself|].
      rewrite lookup_insert_ne in Hq by done. by apply (Htarget q).
    + assert (Hold : attached (inodes (fs_i s)) (rf_ino a) = 0).
      { unfold attached in *. rewrite (msum_replace _ _ _ _ _ H3), Href in Ha.
        rewrite (proj2 (Z.eqb_neq (rf_ino a) (rd_ino e)) E) in Ha. lia. }
      destruct (decide (q = p)) as [->|Hne].
      * rewrite lookup_insert_eq in Hq. injection Hq as <-. rewrite Href. rewrite (inv_orphan X s HI p nd H3 Hold j).
        pose proof (inv_orphan X s HI p nd H3 Hold (rd_ino e)) as Hz. specialize (Href (rd_ino e)). rewrite Z.eqb_refl in Href.
        assert (0 <= refs (rd_ino e) (changed (-32) l i (blank e) nd)); [|lia]. unfold refs. cbn. unfold links_in. lia.
      * rewrite lookup_insert_ne in Hq by done. by apply (inv_orphan X s HI q).
Qed.

(** ** Allocating an inode *)

Lemma free_slot_Some n : forall i slots k, free_slot n i slots = Some k -> i <= k < i + Z.of_nat n /\ slots !! k = None.
Proof.
  induction n as [|n IH]; intros i slots k; [done|]. cbn. destruct (slots !! i) eqn:E.
  - intros Hk. apply IH in Hk. split; [lia|tauto].
  - intros [= <-]. split; [lia|done].
Qed.

Lemma free_slot_None n : forall i slots, free_slot n i slots = None -> forall k, i <= k < i + Z.of_nat n -> is_Some (slots !! k).
Proof.
  induction n as [|n IH]; intros i slots Hn k Hk; [lia|]. cbn in Hn. destruct (slots !! i) eqn:E; [|done].
  destruct (decide (k = i)) as [->|Hne]; [by eexists|]. apply (IH (i + 1)); [done|lia].
Qed.

Definition new_memory (type devid : Z) : memory :=
  if (type =? RAMFS_TYPE_CHR) || (type =? RAMFS_TYPE_BLK) then Devid devid
  else if type =? RAMFS_TYPE_DIR then Dents (repeat empty_dirent (Z.to_nat RAMFS_MAX_DIRENT))
  else Page (repeat 0 (Z.to_nat PAGE_SIZE)).
Definition new_inode (type devid i : Z) : ramfs_inode := mk_inode 0 i (new_memory type devid) type 1.

Definition with_new (type devid i : Z) (n : Z) (b : nat) (s : fsys ramfs) : fsys ramfs :=
  set_slots (insert i (fs_next s)) (set_inodes (insert (fs_next s) (new_inode type devid i)) (bump n b s)).

Lemma bump_bump m n a b s : bump m b (bump n a s) = bump (n + m) b s.
Proof. unfold bump. cbn. f_equal. lia. Qed.

Lemma run_alloc_inode s type devid :
  0 <= type < 4 -> (2 <= fs_budget s)%nat ->
  runs (ramfs_alloc_inode type devid) s (fun r s' =>
    (r = - ENOSPC /\ s' = s /\ forall k, 0 <= k < 64 -> is_Some (rfs_inodes (fs_i s) !! k))
    \/ exists i n b, r = i /\ 0 <= i < 64 /\ rfs_inodes (fs_i s) !! i = None /\ 1 <= n
       /\ (fs_budget s <= b + 2)%nat /\ (rfs_inodes (fs_i s) !! 0 = None -> i = 0) /\ s' = with_new type devid i n b s).
Proof.
  intros Ht Hb. unfold ramfs_alloc_inode.
  apply runs_bind, runs_assert.
  { assert (type = 0 \/ type = 1 \/ type = 2 \/ type = 3) as [->|[->|[->| ->]]] by lia; done. }
  run. destruct (free_slot (Z.to_nat RAMFS_MAX_FILES) 0 (rfs_inodes (fs_i s))) as [i|] eqn:E.
  2:{ go. left. repeat split; try done. intros k Hk. eapply free_slot_None; [done|]. unfold RAMFS_MAX_FILES; lia. }
  assert (Hfirst : rfs_inodes (fs_i s) !! 0 = None -> i = 0).
  { intros H0. change (Z.to_nat RAMFS_MAX_FILES) with 64%nat in E. cbn [free_slot] in E. rewrite H0 in E. congruence. }
  apply free_slot_Some in E as [Hi0 Hslot]. assert (Hi : 0 <= i < 64) by (unfold RAMFS_MAX_FILES in Hi0; lia).
  destruct (fs_budget s) as [|[|b]] eqn:Eb; [lia|lia|].
  apply runs_bind. apply (runs_mem_alloc s (S b) _ Eb). cbv iota. unfold with_new, new_inode, new_memory.
  destruct ((type =? RAMFS_TYPE_CHR) || (type =? RAMFS_TYPE_BLK)) eqn:Edev.
  - go. right. exists i, 1, (S b). repeat split; try done; lia.
  - apply runs_bind, runs_bind. apply (runs_mem_alloc (bump 1 (S b) s) b _ eq_refl). go.
    destruct (type =? RAMFS_TYPE_DIR); go; right; exists i, 2, b; rewrite bump_bump;
      repeat split; try done; lia.
Qed.

Lemma empty_dirent_ok : entry_ok empty_dirent /\ ~ named empty_dirent.
Proof.
  split; [|unfold named; cbn; tauto]. split; [done|]. split; [|split; [constructor|cbn; lia]].
  split; [by exists (repeat 0 27)|]. cbn. set_solver.
Qed.

Lemma filter_repeat_none {A} (P : A -> Prop) `{forall x, Decision (P x)} x n : ~ P x -> filter P (repeat x n) = [].
Proof. intros HP. induction n as [|n IH]; [done|]. cbn [repeat]. by rewrite filter_cons, decide_False. Qed.

Lemma empty_dir_ok : dir_ok (repeat empty_dirent 128) /\ names (repeat empty_dirent 128) = [].
Proof.
  destruct empty_dirent_ok as [Hok Hun]. assert (E : names (repeat empty_dirent 128) = []).
  { unfold names. by rewrite filter_repeat_none. }
  split; [|done]. split; [by rewrite repeat_length| |rewrite E; constructor].
  apply Forall_forall. intros e He. apply list_elem_of_In, repeat_spec in He as ->. done.
Qed.

Lemma new_inode_ok type devid i : 0 <= type < 4 -> 0 <= i < 64 ->
  inode_ok (new_inode type devid i) /\ (forall j, refs j (new_inode type devid i) = 0)
  /\ (forall l, rf_mem (new_inode type devid i) = Dents l -> forall e, e ∈ l -> ~ counted (rd_ino e) e).
Proof.
  intros Ht Hi. destruct empty_dir_ok as [Hd Hn]. destruct empty_dirent_ok as [Hok Hun].
  assert (type = 0 \/ type = 1 \/ type = 2 \/ type = 3) as [->|[->|[->| ->]]] by lia.
  - split; [|done]. split; [done|]. split; [done|]. split; [apply repeat_length|cbn; lia].
  - split; [|split].
    + split; [done|]. split; [done|]. split; [exact Hd|]. change (Z.to_nat RAMFS_MAX_DIRENT) with 128%nat. by rewrite Hn.
    + intros j. change (links_in j (repeat empty_dirent 128) = 0). unfold links_in.
      rewrite filter_repeat_none; [done|]. unfold counted. tauto.
    + intros l El e He. assert (Hl : l = repeat empty_dirent 128) by (injection El as <-; done).
      rewrite Hl in He. apply list_elem_of_In, repeat_spec in He as ->. unfold counted. tauto.
  - split; [|done]. split; [done|]. by left.
  - split; [|done]. split; [done|]. by right.
Qed.

Lemma inv_with_new s type devid i n b :
  inv none s -> 0 <= type < 4 -> 0 <= i < 64 -> rfs_inodes (fs_i s) !! i = None -> 1 <= n ->
  inv (plus none i) (with_new type devid i n b s).
Proof.
  intros HI Ht Hi Hslot Hn. destruct (new_inode_ok type devid i Ht Hi) as (H1 & H2 & H3).
  assert (HB : inv none (bump n b s)) by (apply inv_bump; [done|lia]).
  apply (inv_alloc none _ HB (fs_next s) (new_inode type devid i)); cbn; try done; try lia.
  apply (inv_fresh none s HI). lia.
Qed.

(** ** What the changes keep *)

Lemma is_dir_keeps s s' dir dv p nd l : is_dir s dir dv p nd l -> keeps s s' ->
  exists dv' nd', is_dir s' dir dv' p nd' l /\ rf_ino nd' = rf_ino nd /\ vn_vno dv' = vn_vno dv.
Proof.
  intros [H1 H2 H3 H4] [K1 K2 K3 K4 _]. destruct (K3 dir dv H1) as (c & Hc & _).
  specialize (K2 p). rewrite H3 in K2. destruct (inodes (fs_i s') !! p) as [nd'|] eqn:E; [|done].
  injection K2 as E1 E2 E3 E4. exists (with_refcount c dv), nd'. split; [split; try done; congruence|done].
Qed.

Lemma attached_keeps s s' i : keeps s s' -> attached (inodes (fs_i s')) i = attached (inodes (fs_i s)) i.
Proof.
  intros [_ K2 _ _ _]. unfold attached. f_equal. apply msum_ext. intros p. specialize (K2 p).
  destruct (inodes (fs_i s') !! p) as [a|], (inodes (fs_i s) !! p) as [b|]; try done.
  injection K2 as E1 E2 E3 E4. cbn. unfold refs. by rewrite E3.
Qed.

Lemma is_dir_new X s dir dv p nd l type devid i n b :
  inv X s -> is_dir s dir dv p nd l -> is_dir (with_new type devid i n b s) dir dv p nd l.
Proof.
  intros HI [H1 H2 H3 H4]. split; try done. cbn. rewrite lookup_insert_ne; [done|]. intros <-.
  destruct (inv_fresh X s HI (fs_next s)) as [Hn _]; [lia|]. congruence.
Qed.

Lemma attached_new X s type devid i n b j : inv X s -> 0 <= type < 4 -> 0 <= i < 64 ->
  attached (inodes (fs_i (with_new type devid i n b s))) j = attached (inodes (fs_i s)) j.
Proof.
  intros HI Ht Hi. unfold attached. cbn. destruct (inv_fresh X s HI (fs_next s)) as [Hn _]; [lia|].
  rewrite msum_insert by done. destruct (new_inode_ok type devid i Ht Hi) as (_ & Hr & _). by rewrite Hr.
Qed.

(** ** Creating *)

(** Files other than the one at [p] change at most in their link counts. *)
Definition others (p : Z) (s s' : fsys ramfs) : Prop :=
  forall q a, q <> p -> inodes (fs_i s) !! q = Some a -> exists c, inodes (fs_i s') !! q = Some (with_links c a).

Lemma others_trans p s1 s2 s3 : others p s1 s2 -> others p s2 s3 -> others p s1 s3.
Proof. intros H1 H2 q a Hq Ha. destruct (H1 q a Hq Ha) as [c Hc]. by apply (H2 q _ Hq) in Hc. Qed.

Lemma others_keeps p s s' : keeps s s' -> others p s s'.
Proof.
  intros [_ K _ _ _] q a _ Ha. specialize (K q). rewrite Ha in K. destruct (inodes (fs_i s') !! q) as [b|]; [|done].
  injection K as E1 E2 E3 E4. exists (rf_linkcount b). destruct a, b. cbn in *. by subst.
Qed.

Lemma others_new X p s type devid i n b : inv X s -> others p s (with_new type devid i n b s).
Proof.
  intros HI q a _ Ha. exists (rf_linkcount a). rewrite with_links_id. cbn. rewrite lookup_insert_ne; [done|].
  intros <-. destruct (inv_fresh X s HI (fs_next s)) as [Hn _]; [lia|]. congruence.
Qed.

Lemma others_change p nd s : others p s (set_inodes (insert p nd) s).
Proof. intros q a Hq Ha. exists (rf_linkcount a). rewrite with_links_id. cbn. by rewrite lookup_insert_ne. Qed.

(** The directory maps the new name to [ino] and every other name as before. *)
Definition entered (s' : fsys ramfs) (dir p : Z) (l : list dirent) (nm : list Z) (ino : Z) : Prop :=
  exists dv nd l', is_dir s' dir dv p nd l'
    /\ forall m, m <> [] -> dir_find l' m = if decide (m = nm) then Some ino else dir_find l m.

(** The component [nm] can be added to the directory. *)
Record can_add (s : fsys ramfs) (dir : Z) (dv : vnode) (p : Z) (nd : ramfs_inode) (l : list dirent)
    (name : list Z) (n : Z) (nm : list Z) : Prop := {
  add_dir : is_dir s dir dv p nd l;
  add_name : is_name name n nm;
  add_short : (length nm <= 27)%nat;
  add_dots : nm ∉ dots;
  add_new : nm ∉ names l;
  add_attached : attached (inodes (fs_i s)) (rf_ino nd) <> 0
}.

Lemma fill_step s dir dv p nd l name n nm i e ino :
  inv (plus none ino) s -> can_add s dir dv p nd l name n nm -> l !! i = Some e -> ~ named e -> 0 <= ino < 64 ->
  is_Some (rfs_inodes (fs_i s) !! ino) ->
  runs (fill_entry dir i ino name n) s (fun _ s' => inv none s' /\ entered s' dir p l nm ino /\ others p s s'
    /\ vnodes s' = vnodes s /\ rfs_inodes (fs_i s') = rfs_inodes (fs_i s) /\ steady s s').
Proof.
  intros HI [HD Hn Hshort Hdots Hnew Hatt] He Hun Hino Hslot.
  eapply runs_mono; [by eapply run_fill_entry|]. intros _ s' (e' & Hok & Hnm & Hi' & ->).
  assert (Hnamed : named e') by (unfold named; rewrite Hnm; by eapply name_nonempty).
  destruct (is_dir_ok _ _ _ _ _ _ _ HI HD) as [Hdir _].
  split; [|split; [|split; [apply others_change|done]]].
  - apply (inv_fill (plus none ino) none s dir dv p nd l i e e'); try done; rewrite ?Hnm, ?Hi'; done.
  - destruct HD as [H1 H2 H3 H4]. exists dv, (changed 32 l i e' nd), (<[i := e']> l). split.
    + split; try done. cbn. by rewrite lookup_insert_eq.
    + intros m Hm. destruct (dir_fill l i e e' Hdir He Hun Hok Hnamed ltac:(by rewrite Hnm)) as (_ & _ & Hf).
      rewrite (Hf m Hm), Hnm, Hi'. done.
Qed.

Lemma unused_found l : forall k e, list_find (fun e => ~ named e) l = Some (k, e) -> l !! k = Some e /\ ~ named e.
Proof. intros k e Hk. apply list_find_Some in Hk. tauto. Qed.

Definition dir_full (l : list dirent) : Prop := forall e, e ∈ l -> named e.
Lemma unused_none l : list_find (fun e => ~ named e) l = None -> dir_full l.
Proof.
  intros Hl e He. apply list_find_None in Hl. rewrite Forall_forall in Hl. destruct (decide (named e)); [done|].
  by destruct (Hl e He).
Qed.

Definition table_full (s : fsys ramfs) : Prop := forall k, 0 <= k < 64 -> is_Some (rfs_inodes (fs_i s) !! k).

(** A new file is allocated and not yet entered. *)
Lemma steady_new type devid i n b s : 0 <= n -> steady s (with_new type devid i n b s).
Proof. intros Hn. apply steady_vnodes; [done|done|cbn; lia]. Qed.

Lemma can_add_new X s dir dv p nd l name n nm type devid i k b :
  inv X s -> can_add s dir dv p nd l name n nm -> 0 <= type < 4 -> 0 <= i < 64 ->
  can_add (with_new type devid i k b s) dir dv p nd l name n nm.
Proof.
  intros HI [HD Hn Hshort Hdots Hnew Hatt] Ht Hi. split; try done.
  - by eapply is_dir_new.
  - by rewrite (attached_new X).
Qed.

Lemma can_add_keeps s s' dir dv p nd l name n nm :
  keeps s s' -> can_add s dir dv p nd l name n nm ->
  exists dv' nd', can_add s' dir dv' p nd' l name n nm.
Proof.
  intros HK [HD Hn Hshort Hdots Hnew Hatt]. destruct (is_dir_keeps _ _ _ _ _ _ _ HD HK) as (dv' & nd' & HD' & Ei & _).
  exists dv', nd'. split; try done. by rewrite Ei, (attached_keeps s s').
Qed.

Lemma run_create s dir dv p nd l name n nm :
  inv none s -> calm s -> (3 <= fs_budget s)%nat -> can_add s dir dv p nd l name n nm ->
  runs (ramfs_create dir name n) s (fun r s' => inv none s' /\ others p s s' /\
    ((exists vn v ino, r = (0, Some vn) /\ entered s' dir p l nm ino
        /\ vnodes s' !! vn = Some v /\ vn_vno v = ino /\ vn_mode v = S_IFREG
        /\ rfs_inodes (fs_i s) !! ino = None)
     \/ (r = (- ENOSPC, None) /\ s' = s /\ (dir_full l \/ table_full s)))).
Proof.
  intros HI Hcalm Hb HA. unfold ramfs_create. apply runs_bind.
  eapply runs_mono; [by eapply run_unused_entry; [|apply HA|apply HA|apply HA]|]. intros r s' [-> ->].
  destruct (list_find (fun e => ~ named e) l) as [[k e]|] eqn:Ek; cbn [fmap option_fmap option_map].
  2:{ go. split; [done|]. split; [by intros q a _ Ha; exists (rf_linkcount a); rewrite with_links_id|].
      right. split; [done|]. split; [done|]. left. by apply unused_none. }
  apply unused_found in Ek as [Hk Hun]. cbn [fst]. apply runs_bind.
  eapply runs_mono; [apply (run_alloc_inode s RAMFS_TYPE_DATA 0); [done|lia]|].
  intros r s1 [(-> & -> & Hfull)|(i & m & b & -> & Hi & Hslot & Hm & Hb' & _ & ->)].
  { runc. split; [done|].
    split; [by intros q a _ Ha; exists (rf_linkcount a); rewrite with_links_id|].
    right. split; [done|]. split; [done|]. by right. }
  rewrite (proj2 (Z.ltb_ge i 0)) by lia. set (s1 := with_new _ _ _ _ _ _).
  assert (H1 : inv (plus none i) s1) by (by apply inv_with_new).
  assert (HA1 : can_add s1 dir dv p nd l name n nm) by (by eapply can_add_new).
  assert (Hs1 : is_Some (rfs_inodes (fs_i s1) !! i)) by (cbn; by rewrite lookup_insert_eq).
  rewrite u32_small by lia. apply runs_bind.
  eapply runs_mono; [by apply (run_vget (plus none i) s1 i); [| | |cbn; lia]|]. intros vn s2 Hgot.
  assert (HK : keeps s1 s2) by (by eapply got_keeps).
  assert (H2 : inv (plus none i) s2) by (eapply got_inv; [done| |done]; unfold plus; rewrite Z.eqb_refl; done).
  destruct (got_vnode _ _ _ _ _ H1 Hgot) as (v & q & a & Hv & Ev & Hvi & Hq & Ea & Hvm & _).
  destruct (can_add_keeps _ _ _ _ _ _ _ _ _ _ HK HA1) as (dv2 & nd2 & HA2).
  run. rewrite s32_small, Ev by lia.
  eapply runs_mono; [by eapply (fill_step s2); [| | | |done|rewrite (keeps_slots _ _ HK)]|].
  intros _ s3 (H3 & Hent & Hoth & Hvs & _ & _). go. split; [done|].
  split; [eapply others_trans; [by apply (others_new none)|eapply others_trans; [by apply others_keeps|done]]|].
  left. exists vn, v, i. rewrite Hvs. repeat split; try done. rewrite Hvm.
  assert (a = new_inode RAMFS_TYPE_DATA 0 i) as ->; [|done].
  assert (Hqn : inodes (fs_i s1) !! fs_next s = Some (new_inode RAMFS_TYPE_DATA 0 i)) by (cbn; by rewrite lookup_insert_eq).
  assert (q = fs_next s) as -> by (eapply (inode_unique _ s1 H1); [done|exact Hqn|done]). congruence.
Qed.

Lemma others_refl p s : others p s s.
Proof. intros q a _ Ha. exists (rf_linkcount a). by rewrite with_links_id. Qed.

Lemma run_mknod s dir dv p nd l name n nm mode devid :
  inv none s -> (2 <= fs_budget s)%nat -> can_add s dir dv p nd l name n nm -> mode = S_IFCHR \/ mode = S_IFBLK ->
  runs (ramfs_mknod dir name n mode devid) s (fun r s' => inv none s' /\ others p s s' /\ steady s s' /\
    ((exists ino q, r = 0 /\ entered s' dir p l nm ino /\ rfs_inodes (fs_i s) !! ino = None
        /\ rfs_inodes (fs_i s') !! ino = Some q
        /\ rf_mem <$> inodes (fs_i s') !! q = Some (Devid devid))
     \/ (r = - ENOSPC /\ s' = s /\ (dir_full l \/ table_full s)))).
Proof.
  intros HI Hb HA Hmode. unfold ramfs_mknod. apply runs_bind.
  eapply runs_mono; [by eapply run_unused_entry; [|apply HA|apply HA|apply HA]|]. intros r s' [-> ->].
  destruct (list_find (fun e => ~ named e) l) as [[k e]|] eqn:Ek; cbn [fmap option_fmap option_map].
  2:{ go. split; [done|]. split; [apply others_refl|]. split; [done|].
      right. split; [done|]. split; [done|]. left. by apply unused_none. }
  apply unused_found in Ek as [Hk Hun]. cbn [fst]. apply runs_bind.
  set (type := if S_ISCHR mode then RAMFS_TYPE_CHR else RAMFS_TYPE_BLK).
  assert (Htype : 0 <= type < 4) by (by destruct Hmode as [-> | ->]).
  assert (Hmem : forall i, rf_mem (new_inode type devid i) = Devid devid) by (by destruct Hmode as [-> | ->]).
  replace (if S_ISCHR mode then ramfs_alloc_inode RAMFS_TYPE_CHR devid
           else if S_ISBLK mode then ramfs_alloc_inode RAMFS_TYPE_BLK devid else kpanic)
    with (ramfs_alloc_inode type devid) by (by destruct Hmode as [-> | ->]).
  eapply runs_mono; [by apply (run_alloc_inode s type devid)|].
  intros r s1 [(-> & -> & Hfull)|(i & m & b & -> & Hi & Hslot & Hm & Hb' & _ & ->)].
  { runc. split; [done|]. split; [apply others_refl|]. split; [done|]. right. split; [done|]. split; [done|]. by right. }
  rewrite (proj2 (Z.ltb_ge i 0)) by lia. set (s1 := with_new _ _ _ _ _ _).
  assert (H1 : inv (plus none i) s1) by (by apply inv_with_new).
  assert (HA1 : can_add s1 dir dv p nd l name n nm) by (by eapply can_add_new).
  apply runs_bind. eapply runs_mono; [eapply (fill_step s1); [done|done|done|done|done|cbn; by rewrite lookup_insert_eq]|].
  intros _ s3 (H3 & Hent & Hoth & _ & Hslots & Hst). go. split; [done|].
  split; [eapply others_trans; [by apply (others_new none)|done]|].
  split; [etrans; [apply steady_new|exact Hst]; lia|].
  left. exists i, (fs_next s). rewrite Hslots. repeat split; try done; [cbn; by rewrite lookup_insert_eq|].
  destruct (Hoth (fs_next s) (new_inode type devid i)) as [c ->].
  - intros <-. destruct HA as [[_ _ Hp _] _ _ _ _ _]. destruct (inv_fresh none s HI (fs_next s)) as [Hn _]; [lia|]. congruence.
  - cbn. by rewrite lookup_insert_eq.
  - change (Some (rf_mem (new_inode type devid i)) = Some (Devid devid)). by rewrite Hmem.
Qed.

(** ** Linking *)

Lemma changed_links d l i e c nd : changed d l i e (with_links c nd) = with_links c (changed d l i e nd).
Proof. done. Qed.

Lemma run_link s dir dv p nd l name n nm old ov q a :
  inv none s -> can_add s dir dv p nd l name n nm ->
  vnodes s !! old = Some ov -> vn_i ov = Some q -> inodes (fs_i s) !! q = Some a ->
  runs (ramfs_link old dir name n) s (fun r s' => inv none s' /\ others p s s' /\
    ((r = 0 /\ entered s' dir p l nm (vn_vno ov)
        /\ rf_linkcount <$> inodes (fs_i s') !! q = Some (rf_linkcount a + 1))
     \/ (r = - ENOSPC /\ s' = s /\ dir_full l))).
Proof.
  intros HI HA Hov Hoi Ha. pose proof (linkcount_range none s q a HI Ha) as Hlc.
  unfold ramfs_link. apply runs_bind.
  eapply runs_mono; [by eapply run_unused_entry; [|apply HA|apply HA|apply HA]|]. intros r s' [-> ->].
  destruct (list_find (fun e => ~ named e) l) as [[k e]|] eqn:Ek; cbn [fmap option_fmap option_map].
  2:{ go. split; [done|]. split; [apply others_refl|]. right. split; [done|]. split; [done|]. by apply unused_none. }
  apply unused_found in Ek as [Hk Hun]. cbn [fst]. run.
  destruct (inv_vnode none s HI old ov Hov) as [_ _ _ _ (q' & a' & Hq' & Ha' & Ei & _)].
  assert (q' = q) as -> by congruence. assert (a' = a) as -> by congruence. clear Hq' Ha'.
  destruct (inv_inode none s HI q a Ha) as (Hino & _). rewrite <- Ei, s32_small by lia.
  destruct HA as [HD Hn Hshort Hdots Hnew Hatt].
  eapply runs_mono; [by eapply (run_fill_entry none s dir dv p nd l k e (rf_ino a))|].
  intros _ s' (e' & Hok & Hnm & Hi' & ->).
  set (s1 := set_inodes (insert q (with_links (rf_linkcount a + 1) a)) s).
  set (nd1 := if decide (p = q) then with_links (rf_linkcount a + 1) nd else nd).
  assert (HI1 : inv (plus none (rf_ino a)) s1).
  { apply (inv_links_change none); [done|done|lia| |].
    - intros j. unfold plus. destruct (j =? rf_ino a); lia.
    - intros j. unfold plus, none. destruct (j =? rf_ino a); lia. }
  assert (HD1 : is_dir s1 dir dv p nd1 l).
  { destruct HD as [H1 H2 H3 H4]. unfold nd1, s1. split; try done; cbn.
    - destruct (decide (p = q)) as [->|Hpq]; [rewrite lookup_insert_eq; congruence|by rewrite lookup_insert_ne].
    - by destruct (decide (p = q)). }
  assert (Hatt1 : attached (inodes (fs_i s1)) (rf_ino nd1) <> 0).
  { replace (rf_ino nd1) with (rf_ino nd) by (unfold nd1; by destruct (decide (p = q))).
    unfold attached, s1. cbn. rewrite (msum_replace _ _ _ _ _ Ha), refs_with_links. unfold attached in Hatt. lia. }
  assert (Hnamed : named e') by (unfold named; rewrite Hnm; by eapply name_nonempty).
  assert (Hslot : is_Some (rfs_inodes (fs_i s1) !! rd_ino e')).
  { rewrite Hi'. exists q. apply (inv_slot none s HI). eauto. }
  assert (HI2 : inv none (set_inodes (insert p (changed 32 l k e' nd1)) s1)).
  { apply (inv_fill (plus none (rf_ino a)) none s1 dir dv p nd1 l k e e'); try done; rewrite ?Hnm, ?Hi'; done. }
  assert (Hq2 : exists a2, inodes (fs_i (set_inodes (insert p (changed 32 l k e' nd)) s)) !! q = Some a2
            /\ rf_linkcount a2 = rf_linkcount a
            /\ set_inodes (insert q (with_links (rf_linkcount a + 1) a2)) (set_inodes (insert p (changed 32 l k e' nd)) s)
               = set_inodes (insert p (changed 32 l k e' nd1)) s1).
  { cbn. unfold nd1, s1. destruct HD as [_ _ Hp _]. destruct (decide (p = q)) as [->|Hpq].
    - rewrite lookup_insert_eq. eexists. split; [done|]. assert (nd = a) as -> by congruence. split; [done|].
      by rewrite !set_inodes_insert_twice, changed_links.
    - rewrite lookup_insert_ne by done. exists a. split; [done|]. split; [done|].
      unfold set_inodes, set_fs_i. cbn. by rewrite insert_insert_ne. }
  destruct Hq2 as (a2 & Ha2 & Elc & Estate).
  apply runs_bind. eapply runs_vnode_inode; [done|done|].
  apply runs_bind. apply (runs_upd_inode q a2); [done|]. rewrite Elc, s32_small, Estate by lia. go.
  split; [done|]. split; [|left; split; [done|]].
  - eapply others_trans; [|apply others_change]. intros r b Hr Hb. unfold s1. cbn.
    destruct (decide (r = q)) as [->|Hrq]; [rewrite lookup_insert_eq|rewrite lookup_insert_ne by done].
    + exists (rf_linkcount a + 1). congruence.
    + exists (rf_linkcount b). by rewrite with_links_id.
  - split.
    + destruct HD1 as [H1 H2 H3 H4]. destruct (is_dir_ok _ _ _ _ _ _ _ HI HD) as [Hdir _].
      exists dv, (changed 32 l k e' nd1), (<[k := e']> l). split.
      * split; try done. cbn. by rewrite lookup_insert_eq.
      * intros m Hm. destruct (dir_fill l k e e' Hdir Hk Hun Hok Hnamed ltac:(by rewrite Hnm)) as (_ & _ & Hf).
        by rewrite (Hf m Hm), Hnm, Hi'.
    + rewrite <- Estate. cbn. by rewrite lookup_insert_eq.
Qed.

End operations.

End RamfsDir.
