(* ===== verification/RamfsOps.v ===== *)
(** * Making and removing directories, removing files

    The remaining operations of the RAM file system: those that take an entry
    out of a directory, and [ramfs_mkdir]. *)

From S2P Require Import Prelude KString Vnode Ramfs RamfsInv RamfsDir.

Module RamfsOps.
Import KString Vnode Ramfs RamfsInv RamfsDir.

Local Open Scope Z_scope.

Section operations.
Context `{Platform ramfs}.

(** ** Making a directory *)

Definition dot_entry (ino : Z) : dirent := mk_dirent ino (DOT :: NUL :: repeat 0 26).
Definition dotdot_entry (ino : Z) : dirent := mk_dirent ino (DOT :: DOT :: NUL :: repeat 0 25).

Lemma dot_entry_ok ino : 0 <= ino < 64 -> entry_ok (dot_entry ino) /\ ename (dot_entry ino) = [DOT].
Proof.
  intros Hi. split; [|done]. split; [done|]. split; [apply (is_str_app [DOT]); set_solver|].
  split; [repeat constructor; done|done].
Qed.
Lemma dotdot_entry_ok ino : 0 <= ino < 64 -> entry_ok (dotdot_entry ino) /\ ename (dotdot_entry ino) = [DOT; DOT].
Proof.
  intros Hi. split; [|done]. split; [done|]. split; [apply (is_str_app [DOT; DOT]); set_solver|].
  split; [repeat constructor; done|done].
Qed.

(** The entries of a new directory. *)
Definition fresh_dir (ino parent : Z) : list dirent :=
  dot_entry ino :: dotdot_entry parent :: repeat empty_dirent 126.

Lemma fresh_dir_names ino parent : names (fresh_dir ino parent) = [[DOT]; [DOT; DOT]].
Proof.
  unfold names, fresh_dir. rewrite !filter_cons. rewrite decide_True by (unfold named; done).
  rewrite decide_True by (unfold named; done). rewrite filter_repeat_none by apply empty_dirent_ok. done.
Qed.

Lemma fresh_dir_ok ino parent : 0 <= ino < 64 -> 0 <= parent < 64 -> dir_ok (fresh_dir ino parent).
Proof.
  intros Hi Hp. split; [done| |].
  - constructor; [by apply dot_entry_ok|]. constructor; [by apply dotdot_entry_ok|].
    apply Forall_forall. intros e He. apply list_elem_of_In, repeat_spec in He as ->. apply empty_dirent_ok.
  - rewrite fresh_dir_names. apply NoDup_cons. split; [set_solver|apply NoDup_singleton].
Qed.

Lemma fresh_dir_uncounted ino parent e j : e ∈ fresh_dir ino parent -> ~ counted j e.
Proof.
  intros [->|[->|He]%elem_of_cons]%elem_of_cons (Hn & Hd & _); [apply Hd; set_solver|apply Hd; set_solver|].
  apply list_elem_of_In, repeat_spec in He as ->. by apply empty_dirent_ok.
Qed.

Lemma fresh_dir_links ino parent j : links_in j (fresh_dir ino parent) = 0.
Proof.
  unfold links_in. destruct (filter (counted j) (fresh_dir ino parent)) as [|e l] eqn:E; [done|].
  assert (He : e ∈ filter (counted j) (fresh_dir ino parent)) by (rewrite E; set_solver).
  apply list_elem_of_filter in He as [Hc He]. by destruct (fresh_dir_uncounted ino parent e j He Hc).
Qed.

Definition made (c ino parent : Z) : ramfs_inode := mk_inode 64 ino (Dents (fresh_dir ino parent)) RAMFS_TYPE_DIR c.

Lemma run_mkdir s dir dv p nd l name n nm :
  inv none s -> (2 <= fs_budget s)%nat -> can_add s dir dv p nd l name n nm ->
  runs (ramfs_mkdir dir name n) s (fun r s' => inv none s' /\ others p s s' /\ steady s s' /\
    ((exists ino q c, r = 0 /\ entered s' dir p l nm ino /\ rfs_inodes (fs_i s) !! ino = None
        /\ rfs_inodes (fs_i s') !! ino = Some q /\ inodes (fs_i s') !! q = Some (made c ino (vn_vno dv)))
     \/ (r = - ENOSPC /\ s' = s /\ (dir_full l \/ table_full s)))).
Proof.
  intros HI Hb HA. unfold ramfs_mkdir. apply runs_bind.
  eapply runs_mono; [by eapply run_unused_entry; [|apply HA|apply HA|apply HA]|]. intros r s' [-> ->].
  destruct (list_find (fun e => ~ named e) l) as [[k e]|] eqn:Ek; cbn [fmap option_fmap option_map].
  2:{ go. split; [done|]. split; [apply others_refl|]. split; [done|].
      right. split; [done|]. split; [done|]. left. by apply unused_none. }
  apply unused_found in Ek as [Hk Hun]. cbn [fst]. apply runs_bind.
  eapply runs_mono; [by apply (run_alloc_inode s RAMFS_TYPE_DIR 0)|].
  intros r s1 [(-> & -> & Hfull)|(i & m & b & -> & Hi & Hslot & Hm & Hb' & _ & ->)].
  { runc. split; [done|]. split; [apply others_refl|]. split; [done|]. right. split; [done|]. split; [done|]. by right. }
  rewrite (proj2 (Z.ltb_ge i 0)) by lia. set (s1 := with_new _ _ _ _ _ _).
  assert (H1 : inv (plus none i) s1) by (by apply inv_with_new).
  assert (HA1 : can_add s1 dir dv p nd l name n nm) by (by eapply can_add_new).
  assert (Hpf : fs_next s <> p).
  { intros <-. destruct HA as [[_ _ Hp _] _ _ _ _ _]. destruct (inv_fresh none s HI (fs_next s)) as [Hn _]; [lia|]. congruence. }
  assert (Hdv : vnodes s !! dir = Some dv) by apply HA.
  apply runs_bind. eapply runs_mono; [eapply (fill_step s1); [done|done|done|done|done|cbn; by rewrite lookup_insert_eq]|].
  intros _ s3 (H3 & Hent & Hoth & Hvs & Hslots & Hst).
  destruct (Hoth (fs_next s) (new_inode RAMFS_TYPE_DIR 0 i) Hpf) as [c Hc]; [cbn; by rewrite lookup_insert_eq|].
  assert (Hs3 : rfs_inodes (fs_i s3) !! i = Some (fs_next s)) by (rewrite Hslots; cbn; by rewrite lookup_insert_eq).
  assert (Hv3 : vnodes s3 !! dir = Some dv) by (by rewrite Hvs).
  destruct (inv_vnode none s HI dir dv Hdv) as [_ _ _ _ (p' & a' & _ & Hp' & Ei & _)].
  destruct (inv_inode none s HI p' a' Hp') as (Hino & _). rewrite Ei in Hino.
  destruct (inv_links none s3 H3 _ _ Hc) as [_ Hpos]. cbn in Hpos.
  run. cbn [with_mem with_size rf_size rf_ino rf_mem rf_mode rf_linkcount with_links new_inode]. autorewrite with fsys.
  set (s4 := set_inodes _ s3).
  assert (Es4 : s4 = set_inodes (insert (fs_next s) (made c i (vn_vno dv))) s3).
  { unfold s4. rewrite s32_small by lia. reflexivity. }
  rewrite Es4. clear s4 Es4. go.
  assert (HI4 : inv none (set_inodes (insert (fs_next s) (made c i (vn_vno dv))) s3)).
  { assert (Hr0 : forall j, refs j (with_links c (new_inode RAMFS_TYPE_DIR 0 i)) = 0).
    { intros j. rewrite refs_with_links. by apply new_inode_ok. }
    apply (inv_replace none s3 H3 none (fs_next s) _ _ Hc); try done.
    - split; [done|]. cbn [rf_mem made rf_mode rf_size]. split; [done|]. split; [by apply fresh_dir_ok|]. by rewrite fresh_dir_names.
    - intros l' e' [= <-] He' Hce. by eapply fresh_dir_uncounted in Hce.
    - intros j. rewrite Hr0. unfold refs. cbn [rf_mem made]. rewrite fresh_dir_links.
      cbn [rf_ino rf_linkcount made with_links]. destruct (j =? _); lia.
    - apply (orphan_grow none s3 H3 _ _ _ Hc); try done; intros; rewrite Hr0; unfold refs; cbn [rf_mem made]; by rewrite fresh_dir_links. }
  split; [done|]. split.
  - intros q a Hq Ha. assert (Hqf : q <> fs_next s).
    { intros ->. destruct (inv_fresh none s HI (fs_next s)) as [Hn _]; [lia|]. congruence. }
    destruct (others_trans p s s1 s3 ltac:(by apply (others_new none)) Hoth q a Hq Ha) as [c' Hc'].
    exists c'. cbn. by rewrite lookup_insert_ne.
  - split; [transitivity s3; [transitivity s1; [apply steady_new; lia|exact Hst]|by apply steady_vnodes]|].
    left. exists i, (fs_next s), c. repeat split; try done; [|cbn; by rewrite lookup_insert_eq].
    destruct Hent as (dv' & nd' & l' & [D1 D2 D3 D4] & Hf). exists dv', nd', l'. split; [|done].
    split; try done. cbn. by rewrite lookup_insert_ne.
Qed.

(** ** Removing an entry *)

(** The directory no longer has the name; the other names are as before. *)
Definition removed (s' : fsys ramfs) (dir p : Z) (l : list dirent) (nm : list Z) : Prop :=
  exists dv nd l', is_dir s' dir dv p nd l'
    /\ forall m, m <> [] -> dir_find l' m = if decide (m = nm) then None else dir_find l m.

(** Files other than those at [p] and [q] do not change. *)
Definition untouched (p q : Z) (s s' : fsys ramfs) : Prop :=
  forall r b, r <> p -> r <> q -> inodes (fs_i s) !! r = Some b -> inodes (fs_i s') !! r = Some b.

(** An entry is a link. *)
Lemma refs_pos nd l k e : rf_mem nd = Dents l -> l !! k = Some e -> named e -> ename e ∉ dots -> 1 <= refs (rd_ino e) nd.
Proof.
  intros Hm He Hn Hd. unfold refs. rewrite Hm. unfold links_in. assert (Hin : e ∈ filter (counted (rd_ino e)) l).
  { apply list_elem_of_filter. split; [done|]. by eapply list_elem_of_lookup_2. }
  apply list_elem_of_In, in_split in Hin as (l1 & l2 & ->). rewrite length_app. cbn. lia.
Qed.

(** A file that has an entry and a vnode has two links at least. *)
Lemma held_twice s dir dv p nd l k e vn v q a :
  inv none s -> is_dir s dir dv p nd l -> l !! k = Some e -> named e -> ename e ∉ dots ->
  vnodes s !! vn = Some v -> vn_vno v = rd_ino e -> inodes (fs_i s) !! q = Some a -> rf_ino a = rd_ino e ->
  rf_linkcount a >= 2.
Proof.
  intros HI [_ _ Hp Hm] He Hn Hd Hv Ev Hq Ei.
  destruct (inv_links none s HI q a Hq) as [E _]. unfold nlinks, none, attached in E. rewrite Ei in E.
  pose proof (msum_member (incore (rd_ino e)) (vnodes s) vn v ltac:(intros; apply incore_range) Hv) as Hc.
  unfold incore in Hc at 1. rewrite Ev, Z.eqb_refl in Hc.
  pose proof (msum_member (refs (rd_ino e)) (inodes (fs_i s)) p nd
                ltac:(intros x y Hx; apply refs_range; by apply (inv_inode none s HI x)) Hp) as Hr.
  pose proof (refs_pos nd l k e Hm He Hn Hd). destruct (rd_ino e =? 0); lia.
Qed.

Lemma drop_run s dir dv p nd l name n nm k e vn v q a :
  inv none s -> is_dir s dir dv p nd l -> is_name name n nm -> nm ∉ dots ->
  list_find (fun e => ename e = nm) l = Some (k, e) ->
  vnodes s !! vn = Some v -> vn_vno v = rd_ino e -> vn_i v = Some q -> inodes (fs_i s) !! q = Some a ->
  (forall j, refs j a = 0) -> vn_refcount v < 2 ^ 31 ->
  runs (drop_entry dir vn name n) s (fun _ s' => inv none s' /\ (exists s2, inv none s2 /\ steady s s2 /\ put vn s2 s')
    /\ removed s' dir p l nm /\ untouched p q s s'
    /\ inodes (fs_i s') !! q = (if (vn_refcount v =? 1) && (rf_linkcount a =? 2) then None
                                else Some (with_links (rf_linkcount a - 1 - (if vn_refcount v =? 1 then 1 else 0)) a))).
Proof.
  intros HI HD Hn Hdots Hk Hv Ev Hvi Hq Hempty Hbig.
  destruct (is_dir_ok _ _ _ _ _ _ _ HI HD) as [Hdir Hsz]. pose proof (names_few l Hdir) as Hfew.
  pose proof Hdir as [_ D2 _]. pose proof Hk as Hke. apply list_find_Some in Hke as (He & Hnm & _).
  assert (Hnamed : named e) by (unfold named; rewrite Hnm; by eapply name_nonempty).
  assert (Hdots' : ename e ∉ dots) by (by rewrite Hnm).
  destruct (inv_vnode none s HI vn v Hv) as [B R N P (q' & a' & Hq' & Ha' & Ei & Hrest)].
  assert (q' = q) as -> by congruence. assert (a' = a) as -> by congruence. clear Hq' Ha'. rewrite Ev in Ei.
  assert (Hheld : rf_linkcount a >= 2) by (by eapply (held_twice s dir dv p nd l k e vn v q a)).
  pose proof (linkcount_range none s q a HI Hq) as Hlc.
  assert (Hpq : p <> q).
  { intros <-. destruct HD as [_ _ Hp Hm]. assert (a = nd) as -> by congruence.
    pose proof (refs_pos nd l k e Hm He Hnamed Hdots'). specialize (Hempty (rd_ino e)). lia. }
  assert (HB : inv (plus none (rd_ino e)) (set_inodes (insert p (changed (-32) l k (blank e) nd)) s)).
  { eapply (inv_blank none s dir dv p nd l k e); try done. intros r b Hr Er. assert (r = q) as -> by
      (eapply (inode_unique none s HI r q b a); [done|done|congruence]). assert (b = a) as -> by congruence. done. }
  assert (HC : inv none (set_inodes (insert q (with_links (rf_linkcount a - 1) a)) (set_inodes (insert p (changed (-32) l k (blank e) nd)) s))).
  { apply (inv_links_change (plus none (rd_ino e))); [done|cbn; by rewrite lookup_insert_ne|lia| |done].
    intros j. unfold plus, none. rewrite Ei. destruct (j =? rd_ino e); lia. }
  set (s2 := set_inodes (insert q _) _) in HC.
  assert (Hdv : dir <> vn).
  { intros <-. destruct HD as [H1 H2 _ _]. rewrite Hv in H1. injection H1 as ->. congruence. }
  unfold drop_entry. destruct HD as [H1 H2 H3 H4]. run. rewrite (find_match name n nm), Hk by done. run.
  unfold sizeof_dirent. cbn [rf_size with_mem]. rewrite s32_small by lia. autorewrite with fsys.
  change (with_size (rf_size nd - 32) _) with (changed (-32) l k (blank e) nd).
  apply (runs_upd_inode q a); [cbn; by rewrite lookup_insert_ne|]. rewrite s32_small by lia. fold s2.
  eapply runs_mono; [by apply (run_vput none s2 vn v)|]. intros [] s' Hput.
  assert (HI' : inv none s') by (eapply put_inv; [exact HC|exact Hput|done]).
  assert (Hvia : exists s2, inv none s2 /\ steady s s2 /\ put vn s2 s').
  { exists s2. split; [done|]. split; [by apply steady_vnodes|done]. }
  destruct Hput as (v' & q' & a' & Hv' & Hi' & Ha' & Es').
  assert (v' = v) as -> by (cbn in Hv'; congruence). assert (q' = q) as -> by congruence.
  assert (a' = with_links (rf_linkcount a - 1) a) as -> by (cbn in Ha'; rewrite lookup_insert_eq in Ha'; congruence).
  assert (Hfind : forall m, m <> [] -> dir_find (<[k := blank e]> l) m = if decide (m = nm) then None else dir_find l m).
  { rewrite <- Hnm. eapply dir_blank; try done; apply blank_ok; rewrite Forall_forall in D2; apply D2; by eapply list_elem_of_lookup_2. }
  split; [done|]. split; [done|]. rewrite Es'. cbn [rf_linkcount with_links].
  split; [|split].
  - exists dv, (changed (-32) l k (blank e) nd), (<[k := blank e]> l). split; [|done].
    destruct (vn_refcount v =? 1); [unfold gone; cbn [rf_linkcount with_links]; destruct (rf_linkcount a - 1 =? 1)|];
      split; try done; cbn; rewrite ?lookup_delete_ne, ?lookup_insert_ne by done; try done; by rewrite lookup_insert_eq.
  - intros r b Hr1 Hr2 Hb.
    destruct (vn_refcount v =? 1); [unfold gone; cbn [rf_linkcount with_links]; destruct (rf_linkcount a - 1 =? 1)|];
      cbn; by rewrite ?lookup_delete_ne, ?lookup_insert_ne by done.
  - destruct (vn_refcount v =? 1); cbn [andb].
    + unfold gone. cbn [rf_linkcount with_links]. destruct (Z.eqb_spec (rf_linkcount a) 2) as [E2|E2].
      * rewrite (proj2 (Z.eqb_eq (rf_linkcount a - 1) 1)) by lia. cbn. by rewrite lookup_delete_eq.
      * rewrite (proj2 (Z.eqb_neq (rf_linkcount a - 1) 1)) by lia. cbn. by rewrite lookup_insert_eq.
    + cbn. rewrite lookup_insert_eq. do 2 f_equal. lia.
Qed.

(** The vnode that a successful lookup of an entry obtains. *)
Record target (s s1 : fsys ramfs) (dir p : Z) (l : list dirent) (vn i q : Z) (a : ramfs_inode) (v : vnode) (c : Z) : Prop := {
  tgt_inv : inv none s1;
  tgt_dir : exists dv nd, is_dir s1 dir dv p nd l;
  tgt_vnode : vnodes s1 !! vn = Some v;
  tgt_vno : vn_vno v = i;
  tgt_i : vn_i v = Some q;
  tgt_mode : vn_mode v = mode_of a;
  tgt_inode : inodes (fs_i s1) !! q = Some (with_links c a);
  tgt_small : vn_refcount v < 2 ^ 31;
  tgt_count : (vn_refcount v = 1 /\ c = rf_linkcount a + 1)
              \/ (vn_refcount v <> 1 /\ c = rf_linkcount a /\ rf_linkcount a >= 2);
  tgt_others : untouched q q s s1
}.

Lemma got_target s dir dv p nd l k e vn s1 q a :
  inv none s -> calm s -> is_dir s dir dv p nd l -> l !! k = Some e -> named e -> ename e ∉ dots ->
  rfs_inodes (fs_i s) !! rd_ino e = Some q -> inodes (fs_i s) !! q = Some a -> got (rd_ino e) s vn s1 ->
  exists v c, target s s1 dir p l vn (rd_ino e) q a v c.
Proof.
  intros HI Hcalm HD He Hn Hd Hslot Hq Hgot.
  assert (HI1 : inv none s1) by (by eapply got_inv).
  destruct (is_dir_keeps _ _ _ _ _ _ _ HD (got_keeps _ _ _ _ _ HI Hgot)) as (dv1 & nd1 & HD1 & _).
  assert (Eai : rf_ino a = rd_ino e) by (apply (inv_slot none s HI) in Hslot as (x & Hx & Ex); congruence).
  destruct (got_vnode _ _ _ _ _ HI Hgot) as (v & q' & a' & Hv & Ev & Hvi & Ha' & Eai' & Hvm & _).
  assert (q' = q) as -> by (eapply (inode_unique none s HI); [done|exact Hq|congruence]).
  assert (a' = a) as -> by congruence.
  destruct Hgot as [(v0 & Hv0 & Ev0 & ->)|(q0 & a0 & b & Hi0 & Ha0 & -> & _ & _ & ->)];
    cbn in Hv; rewrite lookup_insert_eq in Hv; injection Hv as <-.
  - destruct (inv_vnode none s HI vn v0 Hv0) as [_ R0 _ _ _]. pose proof (Hcalm vn v0 Hv0).
    exists (with_refcount (vn_refcount v0 + 1) v0), (rf_linkcount a).
    split; try done; [by eexists _, _|cbn; by rewrite lookup_insert_eq|by rewrite with_links_id|cbn; lia| |by intros ? ? _ _].
    right. cbn. split; [lia|]. split; [done|]. by eapply (held_twice s dir dv p nd l k e vn v0 q a).
  - assert (q0 = q) as -> by congruence. assert (a0 = a) as -> by congruence.
    exists (fresh_vnode (rd_ino e) q a), (rf_linkcount a + 1).
    split; try done; [by eexists _, _|cbn; by rewrite lookup_insert_eq|cbn; by rewrite lookup_insert_eq|by left|].
    intros r b0 Hr _ Hb0. cbn. by rewrite lookup_insert_ne.
Qed.

(** Looking an entry up and dropping it: the file loses a link, and goes if that
    was its last link and nobody has it in core. *)
Lemma drop_target s s1 dir p l name n nm k e vn q a v c :
  target s s1 dir p l vn (rd_ino e) q a v c -> is_name name n nm -> nm ∉ dots ->
  list_find (fun e => ename e = nm) l = Some (k, e) -> (forall j, refs j a = 0) ->
  runs (drop_entry dir vn name n) s1 (fun _ s' => inv none s' /\ (exists s2, inv none s2 /\ steady s1 s2 /\ put vn s2 s')
    /\ removed s' dir p l nm /\ untouched p q s s'
    /\ inodes (fs_i s') !! q = (if rf_linkcount a =? 1 then None else Some (with_links (rf_linkcount a - 1) a))).
Proof.
  intros [HI1 (dv1 & nd1 & HD1) Hv Ev Hvi Hvm Hqa Hsmall Hcount Hunt] Hn Hd Hk Hempty.
  eapply runs_mono; [by eapply (drop_run s1 dir dv1 p nd1 l name n nm k e vn v q)|].
  intros [] s' (HI' & Hvia & Hrem & Hunt' & ->). split; [done|]. split; [done|]. split; [done|]. split.
  - intros r b Hr1 Hr2 Hb. apply Hunt'; [done|done|]. by apply Hunt.
  - cbn [rf_linkcount with_links]. destruct Hcount as [[-> ->]|(Hne & -> & Hge)].
    + cbn [Z.eqb Pos.eqb andb]. destruct (Z.eqb_spec (rf_linkcount a) 1) as [E|E].
      { by rewrite (proj2 (Z.eqb_eq (rf_linkcount a + 1) 2)) by lia. }
      rewrite (proj2 (Z.eqb_neq (rf_linkcount a + 1) 2)) by lia. unfold with_links. cbn. do 2 f_equal. lia.
    + rewrite (proj2 (Z.eqb_neq _ _) Hne). cbn [andb]. rewrite (proj2 (Z.eqb_neq (rf_linkcount a) 1)) by lia.
      unfold with_links. cbn. do 2 f_equal. lia.
Qed.

Definition dropped (q : Z) (a : ramfs_inode) (s' : fsys ramfs) : Prop :=
  inodes (fs_i s') !! q = if rf_linkcount a =? 1 then None else Some (with_links (rf_linkcount a - 1) a).

(** [ramfs_unlink] of a file that is not a directory. *)
Lemma run_unlink s dir dv p nd l name n nm i q a :
  inv none s -> calm s -> (0 < fs_budget s)%nat -> is_dir s dir dv p nd l -> is_name name n nm -> nm ∉ dots ->
  dir_find l nm = Some i -> rfs_inodes (fs_i s) !! i = Some q -> inodes (fs_i s) !! q = Some a ->
  S_ISDIR (mode_of a) = false ->
  runs (ramfs_unlink dir name n) s (fun r s' => r = 0 /\ inv none s' /\ steady s s' /\ removed s' dir p l nm /\ untouched p q s s'
    /\ dropped q a s').
Proof.
  intros HI Hcalm Hb HD Hn Hdots Hfind Hslot Hq Hfile. unfold ramfs_unlink. apply runs_bind.
  eapply runs_mono; [by eapply run_lookup_some|]. intros r s1 (vn & -> & Hgot).
  apply dir_find_entry in Hfind as (k & e & Hk & <- & He & Hnm).
  destruct (got_target s dir dv p nd l k e vn s1 q a) as (v & c & HT); try done.
  { unfold named. rewrite Hnm. by eapply name_nonempty. }
  { by rewrite Hnm. }
  apply runs_bind, runs_assert; [done|]. cbn [snd]. apply runs_bind, (runs_deref _ vn); [done|].
  apply runs_bind. apply (runs_get_vnode vn v); [by apply HT|].
  apply runs_bind, runs_assert; [by rewrite (tgt_mode _ _ _ _ _ _ _ _ _ _ _ HT), Hfile|].
  apply runs_bind. eapply runs_mono; [eapply drop_target; try done|].
  - intros j. unfold refs. destruct (rf_mem a) eqn:Em; try done. unfold mode_of in Hfile. by rewrite Em in Hfile.
  - intros [] s' (HI' & (s2 & HI2 & Hst & Hput) & Hrem & Hunt & Hqa). go. split; [done|]. split; [done|].
    split; [by eapply (got_put_steady none none)|done].
Qed.

(** ** Removing a directory *)

Lemma occupied_spec e : entry_ok e -> entry_occupied e = Some (bool_decide (counted (rd_ino e) e)).
Proof.
  intros (Hl & Hs & Hc & _). unfold entry_occupied.
  assert (H1 : is_str [DOT; NUL] [DOT]) by (apply (is_str_app [DOT] []); set_solver).
  assert (H2 : is_str [DOT; DOT; NUL] [DOT; DOT]) by (apply (is_str_app [DOT; DOT] []); set_solver).
  destruct (strcmp_zero _ _ _ _ Hs H1 Hc ltac:(repeat constructor; done)) as (r1 & -> & Hr1). cbn [mbind option_bind].
  destruct (Z.eqb_spec r1 0) as [E1|E1].
  { rewrite bool_decide_eq_false_2; [done|]. intros (_ & Hd & _). apply Hd. rewrite (proj1 Hr1 E1). set_solver. }
  destruct (strcmp_zero _ _ _ _ Hs H2 Hc ltac:(repeat constructor; done)) as (r2 & -> & Hr2). cbn [mbind option_bind].
  destruct (Z.eqb_spec r2 0) as [E2|E2].
  { rewrite bool_decide_eq_false_2; [done|]. intros (_ & Hd & _). apply Hd. rewrite (proj1 Hr2 E2). set_solver. }
  assert (Hdots : ename e ∉ dots).
  { unfold dots. intros [E|[E|E]%elem_of_cons]%elem_of_cons; [tauto|tauto|by apply not_elem_of_nil in E]. }
  destruct (is_str_inv _ _ Hs) as [(E & s' & ->)|(c & u & s' & E & -> & Hcn & _)]; cbn [lookup list_lookup mbind option_bind].
  - rewrite bool_decide_eq_false_2; [done|]. unfold counted, named. rewrite E. tauto.
  - rewrite (proj2 (Z.eqb_neq c 0) Hcn), bool_decide_eq_true_2; [done|]. unfold counted, named. rewrite E. split; [done|].
    split; [|done]. by rewrite <- E.
Qed.

(** Whether the directory holds anything but "." and "..". *)
Definition is_empty (l : list dirent) : Prop := forall e, e ∈ l -> ~ counted (rd_ino e) e.

Lemma is_empty_refs a l : rf_mem a = Dents l -> is_empty l -> forall j, refs j a = 0.
Proof.
  intros Hm Hl j. unfold refs. rewrite Hm. unfold links_in. destruct (filter (counted j) l) as [|e r] eqn:E; [done|].
  assert (He : e ∈ filter (counted j) l) by (rewrite E; set_solver). apply list_elem_of_filter in He as [Hc He].
  destruct (Hl e He). assert (rd_ino e = j) as -> by apply Hc. done.
Qed.

(** Putting back a vnode that was just obtained. *)
Lemma got_put_back X i s vn s1 s2 : inv X s -> calm s -> got i s vn s1 -> put vn s1 s2 ->
  fs_i s2 = fs_i s /\ vnodes s2 = vnodes s.
Proof.
  intros HI Hcalm Hgot (v & p & nd & Hv & Hi & Hp & ->).
  destruct Hgot as [(v0 & Hv0 & Ev0 & ->)|(p0 & nd0 & b & Hi0 & Hp0 & -> & _ & _ & ->)];
    cbn in Hv; rewrite lookup_insert_eq in Hv; injection Hv as <-.
  - cbn [vn_refcount with_refcount]. destruct (inv_vnode X s HI vn v0 Hv0) as [_ R _ _ _].
    rewrite (proj2 (Z.eqb_neq _ _)) by lia. cbn. split; [done|]. rewrite insert_insert_eq, insert_id; [done|].
    rewrite Hv0. f_equal. replace (vn_refcount v0 + 1 - 1) with (vn_refcount v0) by lia. by destruct v0.
  - injection Hi as <-. cbn in Hp. rewrite lookup_insert_eq in Hp. injection Hp as <-.
    pose proof (linkcount_range X s p0 nd0 HI Hp0). cbn. unfold gone. cbn [rf_linkcount link_more with_links].
    rewrite (proj2 (Z.eqb_neq _ _)) by lia. cbn. split.
    + rewrite insert_insert_eq, insert_id; [by destruct (fs_i s)|]. rewrite Hp0. f_equal. unfold link_less, link_more. cbn.
      replace (rf_linkcount nd0 + 1 - 1) with (rf_linkcount nd0) by lia. by destruct nd0.
    + apply delete_insert_id. apply (inv_fresh X s HI). lia.
Qed.

(** The two comparisons of [ramfs_rmdir] fail on a name that is neither "." nor "..". *)
Lemma run_rmdir_start s dir name n nm Q : is_name name n nm -> nm ∉ dots ->
  runs (r <- ramfs_lookup dir name n ;;
    match r with
    | (0, Some vn) =>
        v <- get_vnode vn ;;
        if negb (S_ISDIR (vn_mode v)) then vput vn ;;; kret (- ENOTDIR)
        else
          q <- vnode_inode vn ;;
          l <- get_dents q ;;
          occupied <- kderef (find_entry entry_occupied l) ;;
          match occupied with
          | Some _ => vput vn ;;; kret (- ENOTEMPTY)
          | None => drop_entry dir vn name n ;;; kret 0
          end
    | (ret, _) => kret ret
    end)%kernel s Q ->
  runs (ramfs_rmdir dir name n) s Q.
Proof.
  intros Hn Hdots HQ. unfold ramfs_rmdir.
  assert (H1 : is_str [DOT; NUL] [DOT]) by (apply (is_str_app [DOT] []); set_solver).
  assert (H2 : is_str [DOT; DOT; NUL] [DOT; DOT]) by (apply (is_str_app [DOT; DOT] []); set_solver).
  rewrite (name_match_spec name n nm _ _ Hn H1) by (repeat constructor; done).
  rewrite (name_match_spec name n nm _ _ Hn H2) by (repeat constructor; done).
  rewrite !bool_decide_eq_false_2 by (intros <-; apply Hdots; set_solver).
  apply runs_bind, (runs_deref _ false); [done|]. apply runs_bind. cbv iota. apply (runs_deref _ false); [done|].
  by apply runs_bind, runs_assert.
Qed.

Lemma run_rmdir s dir dv p nd l name n nm i q a l2 :
  inv none s -> calm s -> (0 < fs_budget s)%nat -> is_dir s dir dv p nd l -> is_name name n nm -> nm ∉ dots ->
  dir_find l nm = Some i -> rfs_inodes (fs_i s) !! i = Some q -> inodes (fs_i s) !! q = Some a -> rf_mem a = Dents l2 ->
  runs (ramfs_rmdir dir name n) s (fun r s' => inv none s' /\ steady s s' /\
    ((r = 0 /\ is_empty l2 /\ removed s' dir p l nm /\ untouched p q s s' /\ dropped q a s')
     \/ (r = - ENOTEMPTY /\ ~ is_empty l2 /\ fs_i s' = fs_i s /\ vnodes s' = vnodes s))).
Proof.
  intros HI Hcalm Hb HD Hn Hdots Hfind Hslot Hq Hm. apply (run_rmdir_start s dir name n nm); [done|done|]. apply runs_bind.
  eapply runs_mono; [by eapply run_lookup_some|]. intros r s1 (vn & -> & Hgot).
  apply dir_find_entry in Hfind as (k & e & Hk & <- & He & Hnm).
  destruct (got_target s dir dv p nd l k e vn s1 q a) as (v & c & HT); try done.
  { unfold named. rewrite Hnm. by eapply name_nonempty. }
  { by rewrite Hnm. }
  pose proof HT as [HI1 _ Hv _ Hvi Hvm Hqa Hsmall _ _].
  apply runs_bind. apply (runs_get_vnode vn v); [done|].
  assert (Hisdir : S_ISDIR (vn_mode v) = true) by (rewrite Hvm; unfold mode_of; by rewrite Hm). rewrite Hisdir. cbn [negb].
  apply runs_bind. apply (runs_vnode_inode vn v q); [done|done|].
  apply runs_bind. apply (runs_get_dents q (with_links c a) l2); [done|done|].
  destruct (inv_inode none s HI q a Hq) as (_ & Hok). rewrite Hm in Hok. destruct Hok as (_ & [D1 D2 D3] & _).
  rewrite (find_entry_spec entry_occupied (fun e => counted (rd_ino e) e)).
  2:{ eapply Forall_impl; [exact D2|]. apply occupied_spec. }
  apply runs_bind, runs_deref with (a := fst <$> list_find (fun e => counted (rd_ino e) e) l2); [done|].
  destruct (list_find (fun e => counted (rd_ino e) e) l2) as [[j x]|] eqn:Ej; cbn [fmap option_fmap option_map].
  - apply runs_bind. eapply runs_mono; [by apply (run_vput none s1 vn v)|]. intros [] s2 Hput. go.
    split; [eapply put_inv; [exact HI1|exact Hput|done]|]. split; [by eapply (got_put_steady none none _ s vn s1 s1)|].
    right. split; [done|].
    apply list_find_Some in Ej as (Hx & Hc & _). split; [intros Hempty; apply (Hempty x); [by eapply list_elem_of_lookup_2|done]|].
    by eapply (got_put_back none _ s vn s1 s2).
  - apply list_find_None in Ej. assert (Hempty : is_empty l2) by (by rewrite Forall_forall in Ej).
    apply runs_bind. eapply runs_mono; [eapply drop_target; try done; by eapply is_empty_refs|].
    intros [] s' (HI' & (s2 & HI2 & Hst & Hput) & Hrem & Hunt & Hqa'). go. split; [done|].
    split; [by eapply (got_put_steady none none)|by left].
Qed.

Lemma mode_cases a : (exists l, rf_mem a = Dents l) \/ S_ISDIR (mode_of a) = false.
Proof. unfold mode_of. destruct (rf_mem a) as [b|l|d]; [by right|left; by exists l|right; by destruct (rf_mode a =? RAMFS_TYPE_CHR)]. Qed.

(** [ramfs_rmdir] of a file that is not a directory. *)
Lemma run_rmdir_file s dir dv p nd l name n nm i q a :
  inv none s -> calm s -> (0 < fs_budget s)%nat -> is_dir s dir dv p nd l -> is_name name n nm -> nm ∉ dots ->
  dir_find l nm = Some i -> rfs_inodes (fs_i s) !! i = Some q -> inodes (fs_i s) !! q = Some a -> S_ISDIR (mode_of a) = false ->
  runs (ramfs_rmdir dir name n) s (fun r s' => r = - ENOTDIR /\ inv none s' /\ steady s s').
Proof.
  intros HI Hcalm Hb HD Hn Hdots Hfind Hslot Hq Hm. apply (run_rmdir_start s dir name n nm); [done|done|].
  apply runs_bind. eapply runs_mono; [by eapply run_lookup_some|]. intros r s1 (vn & -> & Hgot).
  destruct (got_vnode none _ _ _ _ HI Hgot) as (v & q' & a' & Hv & Ev & Hvi & Hq' & Ei & Hvm & _).
  assert (a' = a) as ->.
  { apply (inv_slot none s HI) in Hslot as (b & Hb' & Eb). assert (b = a) as -> by congruence.
    assert (q' = q) as -> by (eapply (inode_unique none s HI); [done|done|congruence]). congruence. }
  assert (HI1 : inv none s1) by (by eapply got_inv).
  apply runs_bind. apply (runs_get_vnode vn v); [done|]. rewrite Hvm, Hm. cbn [negb].
  apply runs_bind. eapply runs_mono; [apply (run_vput none s1 vn v HI1 Hv)|].
  - pose proof (got_rc none _ _ _ _ HI Hgot vn) as Hr. rewrite one_eq in Hr. unfold rc in Hr at 1. rewrite Hv in Hr.
    assert (rc s vn < 2 ^ 30) by (unfold rc; destruct (vnodes s !! vn) as [w|] eqn:Hw; [by apply (Hcalm vn w)|done]). lia.
  - intros [] s2 Hput. go. split; [done|]. split; [eapply put_inv; [exact HI1|exact Hput|done]|].
    by eapply (got_put_steady none none i s vn s1 s1).
Qed.

End operations.

End RamfsOps.
