(* ===== verification/RamfsFile.v ===== *)
(** * File data, directory listing, mounting, and the theorems of the RAM file system *)

From S2P Require Import Prelude KString Vnode Ramfs RamfsInv RamfsDir RamfsOps.

Module RamfsFile.
Import KString Vnode Ramfs RamfsInv RamfsDir RamfsOps.

Local Open Scope Z_scope.

(** ** Regular files *)

Record is_file (s : fsys ramfs) (vn : Z) (v : vnode) (p : Z) (nd : ramfs_inode) (b : list Z) : Prop := {
  file_vnode : vnodes s !! vn = Some v;
  file_i : vn_i v = Some p;
  file_inode : inodes (fs_i s) !! p = Some nd;
  file_mem : rf_mem nd = Page b
}.

Lemma is_file_ok s vn v p nd b : inv none s -> is_file s vn v p nd b ->
  length b = 4096%nat /\ 0 <= rf_size nd <= 4096 /\ vn_len v = rf_size nd /\ vn_mode v = S_IFREG.
Proof.
  intros HI [Hv Hi Hp Hm]. destruct (inv_inode none s HI p nd Hp) as (_ & Hok). rewrite Hm in Hok.
  destruct (inv_vnode none s HI vn v Hv) as [_ _ _ _ (p' & nd' & Hi' & Hp' & _ & Hmode & _ & Hlen)].
  assert (p' = p) as -> by congruence. assert (nd' = nd) as -> by congruence. rewrite Hm in Hlen.
  unfold mode_of in Hmode. rewrite Hm in Hmode. tauto.
Qed.

(** The contents of a file: the first [rf_size] bytes of its page. *)
Definition contents (nd : ramfs_inode) (b : list Z) : list Z := take (Z.to_nat (rf_size nd)) b.

(** The file after [len] bytes of [buf] were written at [offset]. *)
Definition written (offset : Z) (data : list Z) (nd : ramfs_inode) (b : list Z) : ramfs_inode :=
  with_size (Z.max (rf_size nd) (offset + Z.of_nat (length data)))
    (with_mem (Page (take (Z.to_nat offset) b ++ data ++ drop (Z.to_nat offset + length data) b)) nd).

Lemma inv_write s vn v p nd nd' :
  inv none s -> vnodes s !! vn = Some v -> vn_i v = Some p -> inodes (fs_i s) !! p = Some nd ->
  rf_ino nd' = rf_ino nd -> rf_linkcount nd' = rf_linkcount nd -> inode_ok nd' ->
  (exists b, rf_mem nd = Page b) -> (exists b', rf_mem nd' = Page b') ->
  inv none (set_vnodes (insert vn (with_len (rf_size nd') v)) (set_inodes (insert p nd') s)).
Proof.
  intros HI Hv Hi Hp Ei El Hok [b Hb] [b' Hb'].
  assert (Hmode : mode_of nd' = mode_of nd) by (unfold mode_of; by rewrite Hb, Hb').
  assert (Hops : ops_of nd' = ops_of nd) by (unfold ops_of; by rewrite Hb, Hb').
  assert (Href : forall j, refs j nd' = refs j nd) by (intros j; unfold refs; by rewrite Hb, Hb').
  assert (Hother : forall vn' w, vn' <> vn -> vnodes s !! vn' = Some w -> vn_i w <> Some p).
  { intros vn' w Hne Hw Hwi. destruct (inv_vnode none s HI vn' w Hw) as [_ _ _ _ (q & a & Hq & Ha & Eq & _)].
    destruct (inv_vnode none s HI vn v Hv) as [_ _ _ _ (q2 & a2 & Hq2 & Ha2 & Eq2 & _)].
    apply Hne. eapply (inv_unique none s HI); [done|done|]. congruence. }
  pose proof HI as [I1 I2 I3 I4 I5 I6 I7 I8 I9 I10 I11].
  assert (Hlk : forall q a, <[p := nd']> (inodes (fs_i s)) !! q = Some a -> (q = p /\ a = nd') \/ (q <> p /\ inodes (fs_i s) !! q = Some a)).
  { intros q a Hq. destruct (decide (q = p)) as [->|Hne]; [rewrite lookup_insert_eq in Hq|rewrite lookup_insert_ne in Hq by done]; naive_solver. }
  assert (Hat : forall j, attached (<[p := nd']> (inodes (fs_i s))) j = attached (inodes (fs_i s)) j).
  { intros j. unfold attached. rewrite (msum_replace _ _ _ _ _ Hp), Href. lia. }
  assert (Hin : forall j, msum (incore j) (<[vn := with_len (rf_size nd') v]> (vnodes s)) = msum (incore j) (vnodes s)).
  { intros j. rewrite (msum_replace _ _ _ _ _ Hv). unfold incore at 2 3. cbn. lia. }
  split; cbn.
  - intros i q. rewrite I1. split; intros (a & Ha & Ea).
    + destruct (decide (q = p)) as [->|Hne]; [|exists a; by rewrite lookup_insert_ne].
      exists nd'. rewrite lookup_insert_eq. split; [done|congruence].
    + destruct (Hlk q a Ha) as [[-> ->]|[_ Hq]]; [exists nd; split; [done|congruence]|eauto].
  - intros q a Hq. destruct (Hlk q a Hq) as [[-> ->]|[_ Hq']]; [done|by eapply I2].
  - intros q a Hq. unfold nlinks. cbn. rewrite Hat, Hin.
    destruct (Hlk q a Hq) as [[-> ->]|[_ Hq']]; [rewrite Ei, El; by apply (I3 p nd)|by apply (I3 q a)].
  - intros q a l e Hq Hm He Hc. destruct (Hlk q a Hq) as [[-> ->]|[_ Hq']]; [congruence|by eapply (I4 q a)].
  - intros w x Hw. destruct (decide (w = vn)) as [->|Hne].
    + rewrite lookup_insert_eq in Hw. injection Hw as <-. destruct (I5 vn v Hv) as [B R N P (q & a & Hqi & Hq & Eq & Em & Eo & _)].
      assert (q = p) as -> by congruence. assert (a = nd) as -> by congruence.
      split; try done. exists p, nd'. cbn. rewrite lookup_insert_eq, Hb'. repeat split; try done; congruence.
    + rewrite lookup_insert_ne in Hw by done. destruct (I5 w x Hw) as [B R N P (q & a & Hqi & Hq & Hrest)].
      split; try done. exists q, a. cbn. rewrite lookup_insert_ne; [done|]. intros <-. by apply (Hother w x Hne Hw).
  - intros a1 b1 va vb Ha Hb1. destruct (decide (a1 = vn)) as [->|Na], (decide (b1 = vn)) as [->|Nb]; [done| | |];
      rewrite ?lookup_insert_eq in Ha; rewrite ?lookup_insert_eq in Hb1;
      rewrite ?lookup_insert_ne in Ha by done; rewrite ?lookup_insert_ne in Hb1 by done; simplify_eq; cbn; intros E.
    + by eapply (I6 vn b1 v vb).
    + by eapply (I6 a1 vn va v).
    + by eapply (I6 a1 b1 va vb).
  - intros w. rewrite I7. destruct (decide (w = vn)) as [->|Hne]; [rewrite lookup_insert_eq, Hv; naive_solver|by rewrite lookup_insert_ne].
  - intros q Hq. destruct (I8 q Hq) as [Hn1 Hn2]. split; rewrite lookup_insert_ne; try done; intros ->; congruence.
  - done.
  - intros q a Hq Ha j. rewrite Hat in Ha. destruct (Hlk q a Hq) as [[-> ->]|[_ Hq']]; [|by eapply (I10 q a)].
    unfold refs. by rewrite Hb'.
  - done.
Qed.

Section operations.
Context `{Platform ramfs}.

Lemma run_write s vn v p nd b offset buf count :
  inv none s -> is_file s vn v p nd b -> 0 <= offset <= 4096 -> 0 <= count < 2 ^ 31 -> count <= Z.of_nat (length buf) ->
  let data := take (Z.to_nat (Z.min count (4096 - offset))) buf in
  runs (ramfs_write vn offset buf count) s (fun r s' => r = Z.of_nat (length data) /\ inv none s'
    /\ s' = set_vnodes (insert vn (with_len (rf_size (written offset data nd b)) v)) (set_inodes (insert p (written offset data nd b)) s)).
Proof.
  intros HI HF Hoff Hcount Hbuf data. destruct (is_file_ok _ _ _ _ _ _ HI HF) as (Hb & Hsz & Hlen & Hmode).
  pose proof HF as [Hv Hi Hp Hm]. set (k := Z.min count (4096 - offset)) in *.
  assert (Hk : 0 <= k <= 4096) by lia.
  assert (Hdata : length data = Z.to_nat k) by (unfold data; rewrite length_take; lia).
  assert (Hret : Z.min (s32 count) (s32 (PAGE_SIZE - offset)) = k).
  { unfold PAGE_SIZE. rewrite !s32_small by lia. done. }
  unfold ramfs_write. run. apply runs_assert; [by rewrite Hmode|]. rewrite Hret, Hm. run.
  assert (Hcpy : memcpy b offset buf k = Some (take (Z.to_nat offset) b ++ data ++ drop (Z.to_nat offset + length data) b)).
  { unfold memcpy. rewrite u32_small by lia.
    rewrite (proj2 (Z.leb_le 0 offset)) by lia. rewrite !(proj2 (Nat.leb_le _ _)) by lia. cbn [andb]. by rewrite Hdata. }
  rewrite Hcpy. run. apply runs_assert; [rewrite Hlen; by rewrite Z.eqb_refl|]. run. cbn [rf_size with_mem with_size].
  autorewrite with fsys. rewrite Hlen, s32_small by lia.
  assert (Ek : k = Z.of_nat (length data)) by lia. rewrite Ek. split; [done|].
  match goal with |- inv none ?a /\ ?a = ?b => assert (E : a = b) by reflexivity; rewrite E end.
  split; [|done]. destruct (inv_inode none s HI p nd Hp) as (Hino & Hok). rewrite Hm in Hok.
  eapply inv_write; try done; [|by eexists|by eexists].
  split; [done|]. cbn [rf_mem written with_size with_mem rf_mode rf_size]. split; [tauto|]. split; [|lia]. rewrite !length_app, length_take, length_drop. lia.
Qed.

Lemma run_read s vn v p nd b offset count :
  inv none s -> is_file s vn v p nd b -> 0 <= offset < 2 ^ 31 -> 0 <= count < 2 ^ 31 ->
  ramfs_read vn offset count s =
    Done (let r := take (Z.to_nat count) (drop (Z.to_nat offset) (contents nd b)) in (Z.of_nat (length r), r)) s.
Proof.
  intros HI HF Hoff Hcount. destruct (is_file_ok _ _ _ _ _ _ HI HF) as (Hb & Hsz & Hlen & Hmode).
  pose proof HF as [Hv Hi Hp Hm].
  assert (R : runs (ramfs_read vn offset count) s (fun r s' => s' = s /\
     r = let r := take (Z.to_nat count) (drop (Z.to_nat offset) (contents nd b)) in (Z.of_nat (length r), r))).
  { unfold ramfs_read. run. apply runs_assert; [by rewrite Hmode|]. rewrite Hm. run.
    unfold contents. rewrite !s32_small by lia.
    set (r := take (Z.to_nat count) _). assert (Hr : length r = Z.to_nat (Z.max 0 (Z.min count (rf_size nd - offset)))).
    { unfold r. rewrite length_take, length_drop, length_take. lia. }
    destruct (Z.eqb_spec (Z.max 0 (Z.min count (rf_size nd - offset))) 0) as [E|E].
    - go. split; [done|]. rewrite E in Hr. destruct r; done.
    - apply runs_bind, runs_assert; [apply andb_true_intro; split; apply Z.leb_le; unfold PAGE_SIZE; lia|]. go. split; [done|].
      f_equal; [lia|]. unfold r. rewrite skipn_firstn_comm, take_take. f_equal. lia. }
  destruct R as (r & s' & E & -> & ->). done.
Qed.

(** ** Listing a directory *)

(** Calls of [readdir] as [do_getdent] makes them, each at the offset where the
    last one stopped, until one returns 0. *)
Fixpoint readdir_all (fuel : nat) (dir offset : Z) : kernel (fsys ramfs) (list (Z * list Z)) :=
  match fuel with
  | O => fun _ => NoFuel
  | S fuel =>
      r <- ramfs_readdir dir offset ;;
      match r with
      | (n, Some d) => ds <- readdir_all fuel dir (offset + n) ;; kret (d :: ds)
      | (_, None) => kret []
      end
  end.

Definition listing (e : dirent) : Z * list Z := (rd_ino e, ename e).

Lemma cstr_take27 e : entry_ok e -> cstr (take 27 (rd_name e)) = ename e.
Proof.
  intros (Hl & Hs & _). destruct Hs as [(rest & E) Hz]. rewrite E, length_app in Hl. cbn in Hl.
  destruct (decide (length (ename e) = 27%nat)) as [E27|E27].
  - rewrite E, <- E27, take_app_length. clear -Hz. induction (ename e) as [|c t IH]; [done|].
    cbn. rewrite (proj2 (Z.eqb_neq c NUL)) by set_solver. f_equal. apply IH. set_solver.
  - apply cstr_is_str. rewrite E, take_app_ge by lia. destruct (27 - length (ename e))%nat as [|m] eqn:Em; [lia|].
    cbn [take]. by apply is_str_app.
Qed.

Lemma run_readdir X s dir dv p nd l i :
  inv X s -> is_dir s dir dv p nd l -> vn_mode dv = S_IFDIR -> (i <= 128)%nat ->
  ramfs_readdir dir (32 * Z.of_nat i) s =
    Done (match list_find named (drop i l) with
          | Some (k, e) => (32 * Z.of_nat (S k), Some (listing e))
          | None => (0, None)
          end) s.
Proof.
  intros HI HD Hmode Hi. destruct (is_dir_ok _ _ _ _ _ _ _ HI HD) as [[D1 D2 D3] _]. destruct HD as [H1 H2 H3 H4].
  assert (R : runs (ramfs_readdir dir (32 * Z.of_nat i)) s (fun r s' => s' = s /\
     r = match list_find named (drop i l) with
          | Some (k, e) => (32 * Z.of_nat (S k), Some (listing e))
          | None => (0, None)
          end)).
  { unfold ramfs_readdir, sizeof_dirent. run. apply runs_assert; [by rewrite Hmode|].
    apply runs_bind, runs_assert. { rewrite u32_small, Z.mul_comm, Z.mod_mul by lia. done. }
    run. rewrite (proj2 (Z.ltb_ge _ 0)) by lia. rewrite Z.mul_comm, Z.div_mul, Nat2Z.id by lia.
    assert (Hfind : find_entry (fun e => rd_name e !! 0%nat ≫= (fun c => Some (negb (c =? 0)))) (drop i l)
                    = Some (fst <$> list_find named (drop i l))).
    { apply find_entry_spec. apply Forall_drop. eapply Forall_impl; [exact D2|]. intros e (_ & Hs & _).
      apply is_str_inv in Hs as [(E & s' & ->)|(c & u & s' & E & -> & Hc & _)]; cbn.
      - rewrite bool_decide_eq_false_2; [done|]. unfold named. rewrite E. tauto.
      - rewrite (proj2 (Z.eqb_neq c 0) Hc), bool_decide_eq_true_2; [done|]. unfold named. by rewrite E. }
    rewrite Hfind. run. destruct (list_find named (drop i l)) as [[k e]|] eqn:E; cbn [fmap option_fmap option_map fst].
    - apply list_find_Some in E as (Hk & _ & _). rewrite lookup_drop in Hk.
      assert (He : entry_ok e) by (rewrite Forall_forall in D2; apply D2; by eapply list_elem_of_lookup_2).
      go. split; [done|]. unfold listing. rewrite (cstr_take27 e He). f_equal. lia.
    - by go. }
  destruct R as (r & s' & E & -> & ->). done.
Qed.

Lemma run_readdir_all X s dir dv p nd l fuel : forall i,
  inv X s -> is_dir s dir dv p nd l -> vn_mode dv = S_IFDIR -> (i <= 128)%nat -> (128 - i < fuel)%nat ->
  readdir_all fuel dir (32 * Z.of_nat i) s = Done (listing <$> filter named (drop i l)) s.
Proof.
  induction fuel as [|fuel IH]; intros i HI HD Hmode Hi Hf; [lia|]. cbn [readdir_all].
  rewrite (kbind_done _ _ _ _ _ (run_readdir X s dir dv p nd l i HI HD Hmode Hi)).
  destruct (is_dir_ok _ _ _ _ _ _ _ HI HD) as [[D1 _ _] _].
  destruct (list_find named (drop i l)) as [[k e]|] eqn:E.
  - apply list_find_Some in E as (Hk & Hn & Hbefore).
    pose proof (lookup_lt_Some _ _ _ Hk) as Hlt. rewrite length_drop in Hlt.
    replace (32 * Z.of_nat i + 32 * Z.of_nat (S k)) with (32 * Z.of_nat (i + S k)) by lia.
    rewrite (kbind_done _ _ _ _ _ (IH (i + S k)%nat HI HD Hmode ltac:(lia) ltac:(lia))). unfold kret. f_equal.
    rewrite <- (take_drop_middle (drop i l) k e Hk), filter_app, filter_cons, decide_True by done.
    rewrite (list_filter_none named (take k (drop i l))); [|].
    + cbn [app fmap list_fmap]. f_equal. rewrite drop_drop. do 3 f_equal.
    + intros x Hx. apply list_elem_of_lookup_1 in Hx as (j & Hj). apply lookup_take_Some in Hj as [Hj Hjk].
      by apply (Hbefore j x).
  - unfold kret. f_equal. apply list_find_None in E. rewrite list_filter_none; [done|]. by rewrite Forall_forall in E.
Qed.

(** ** Mounting *)

Record pristine (s : fsys ramfs) : Prop := {
  pris_vnodes : vnodes s = ∅;
  pris_inuse : vnode_inuse_list s = [];
  pris_inodes : inodes (fs_i s) = ∅;
  pris_budget : (4 <= fs_budget s)%nat
}.

(** The file system with nothing but its root directory. *)
Definition root_only (p : Z) (s : fsys ramfs) : fsys ramfs :=
  set_fs_i (fun _ => mk_ramfs {[ p := made 1 0 0 ]} {[ 0 := p ]}) s.

Lemma inv_root_only p s : vnodes s = ∅ -> vnode_inuse_list s = [] -> p < fs_next s -> inv none (root_only p s).
Proof.
  intros Hv Hl Hp.
  assert (Hlk : forall q a, ({[ p := made 1 0 0 ]} : gmap Z ramfs_inode) !! q = Some a -> q = p /\ a = made 1 0 0).
  { intros q a Hq. apply lookup_singleton_Some in Hq. naive_solver. }
  assert (Hat : forall j, attached {[ p := made 1 0 0 ]} j = if j =? 0 then 1 else 0).
  { intros j. unfold attached. rewrite <- insert_empty, msum_insert, msum_empty by done.
    unfold refs. cbn [rf_mem made]. rewrite fresh_dir_links. lia. }
  split; cbn [fs_i vnodes root_only set_fs_i inodes rfs_inodes vnode_inuse_list fs_next]; rewrite ?Hv, ?Hl.
  - intros i q. split.
    + intros Hq. apply lookup_singleton_Some in Hq as [<- <-]. exists (made 1 0 0). by rewrite lookup_singleton_eq.
    + intros (a & Ha & <-). apply Hlk in Ha as [-> ->]. by rewrite lookup_singleton_eq.
  - intros q a Hq. apply Hlk in Hq as [-> ->]. split; [done|]. cbn [rf_mem made rf_mode rf_size]. split; [done|].
    split; [by apply fresh_dir_ok|by rewrite fresh_dir_names].
  - intros q a Hq. apply Hlk in Hq as [-> ->]. unfold nlinks. cbn [inodes]. rewrite Hat, msum_empty. done.
  - intros q a l e Hq Hm He Hc. apply Hlk in Hq as [-> ->]. injection Hm as <-. by eapply fresh_dir_uncounted in Hc.
  - intros vn v Hvn. by rewrite lookup_empty in Hvn.
  - intros vn vn' v v' Hvn. by rewrite lookup_empty in Hvn.
  - intros vn. rewrite lookup_empty. split; [by intros ?%not_elem_of_nil|by intros []].
  - intros q Hq. split; [|done]. apply lookup_singleton_None. lia.
  - by rewrite lookup_singleton_eq.
  - intros q a Hq Ha j. apply Hlk in Hq as [-> ->]. unfold refs. cbn [rf_mem made]. apply fresh_dir_links.
  - intros i. unfold none. lia.
Qed.

Lemma run_mount s : pristine s ->
  runs ramfs_mount s (fun r s' => r = 0 /\ inv none s' /\ exists vn v p nd, fs_root s' = Some vn
    /\ is_dir s' vn v p nd (fresh_dir 0 0) /\ vn_vno v = 0 /\ vn_refcount v = 1 /\ vn_mode v = S_IFDIR
    /\ rf_linkcount nd = 2 /\ (fs_budget s <= fs_budget s' + 4)%nat /\ vnodes s' = {[ vn := v ]}).
Proof.
  intros [Hv Hl Hn Hb]. destruct (fs_budget s) as [|b] eqn:Eb; [lia|].
  unfold ramfs_mount. apply runs_bind, (runs_mem_alloc s b _ Eb). go.
  set (s0 := set_fs_i _ (bump 1 b s)).
  eapply runs_mono; [apply (run_alloc_inode s0 RAMFS_TYPE_DIR 0); [done|cbn; lia]|].
  intros r s1 [(_ & _ & Hfull)|(i & n & b1 & -> & Hi & Hslot & Hn1 & Hb1 & H0 & ->)].
  { destruct (Hfull 0 ltac:(lia)) as [? Hf]. cbn in Hf. by rewrite lookup_empty in Hf. }
  assert (i = 0) as -> by (by apply H0). clear H0. cbn in Hb1. runc. autorewrite with fsys.
  match goal with |- runs (vget 0) ?st _ => set (s2 := st) end.
  assert (E2 : s2 = root_only (fs_next s0) (bump n b1 s0)).
  { unfold s2, root_only, with_new, s0, bump, set_slots, set_inodes, set_fs_i.
    cbn [fs_i fs_root vnodes vnode_inuse_list fs_next fs_budget fs_curthr fs_runq inodes rfs_inodes].
    rewrite Hn, !insert_insert_eq. reflexivity. }
  rewrite E2. clear s2 E2. set (s2 := bump n b1 s0). set (p := fs_next s0).
  assert (HI : inv none (root_only p s2)) by (apply inv_root_only; [done|done|cbn; lia]).
  assert (Hslot0 : rfs_inodes (fs_i (root_only p s2)) !! 0 = Some p) by apply lookup_singleton_eq.
  assert (Hnode0 : inodes (fs_i (root_only p s2)) !! p = Some (made 1 0 0)) by apply lookup_singleton_eq.
  eapply runs_mono; [apply (run_vget none _ 0 HI); [by eexists|intros vn v; change (vnodes s !! vn = Some v -> vn_refcount v < 2 ^ 30); by rewrite Hv|unfold s2; cbn [fs_budget root_only set_fs_i bump]; lia]|].
  intros vn s3 Hgot. assert (HI3 : inv none s3) by (by eapply got_inv). go. split; [done|].
  split; [by destruct HI3; split|].
  destruct Hgot as [(v & Hv' & _)|(q & nd & b2 & Hi0 & Hp0 & -> & _ & Hb2 & ->)].
  { change (vnodes s !! vn = Some v) in Hv'. by rewrite Hv in Hv'. }
  rewrite Hslot0 in Hi0. injection Hi0 as <-. rewrite Hnode0 in Hp0. injection Hp0 as <-.
  eexists _, (fresh_vnode 0 _ (made 1 0 0)), _, (link_more (made 1 0 0)). split; [done|]. split.
  - split; [apply lookup_insert_eq|done|apply lookup_insert_eq|done].
  - split; [done|]. split; [done|]. split; [done|]. split; [done|].
    change (fs_budget (root_only p s2)) with b1 in Hb2. split.
    + cbn [fs_budget set_root came_in set_vnodes set_inuse set_inodes set_fs_i bump]. lia.
    + cbn [vnodes set_root came_in set_vnodes set_inuse set_inodes set_fs_i bump root_only s2 s0]. rewrite Hv. apply insert_empty.
Qed.

(** ** Everything the kernel does with the file system *)

Inductive fscall : Type :=
| Create (dir : Z) (name : list Z) (n : Z)
| Mknod (dir : Z) (name : list Z) (n mode devid : Z)
| Link (old dir : Z) (name : list Z) (n : Z)
| Unlink (dir : Z) (name : list Z) (n : Z)
| Mkdir (dir : Z) (name : list Z) (n : Z)
| Rmdir (dir : Z) (name : list Z) (n : Z)
| Lookup (dir : Z) (name : list Z) (n : Z)
| Write (file offset : Z) (buf : list Z) (count : Z)
| Ref (vn : Z)
| Put (vn : Z).

Definition perform (c : fscall) : kernel (fsys ramfs) Z :=
  match c with
  | Create dir name n => r <- ramfs_create dir name n ;; kret (fst r)
  | Mknod dir name n mode devid => ramfs_mknod dir name n mode devid
  | Link old dir name n => ramfs_link old dir name n
  | Unlink dir name n => ramfs_unlink dir name n
  | Mkdir dir name n => ramfs_mkdir dir name n
  | Rmdir dir name n => ramfs_rmdir dir name n
  | Lookup dir name n => r <- ramfs_lookup dir name n ;; kret (fst r)
  | Write file offset buf count => ramfs_write file offset buf count
  | Ref vn => vref vn ;;; kret 0
  | Put vn => vput vn ;;; kret 0
  end.

(** A name in a directory, for an operation on the file it names. *)
Definition names_file (s : fsys ramfs) (dir : Z) (name : list Z) (n : Z) (a : ramfs_inode) : Prop :=
  exists dv p nd l nm i q, is_dir s dir dv p nd l /\ is_name name n nm /\ nm ∉ dots /\ dir_find l nm = Some i
    /\ rfs_inodes (fs_i s) !! i = Some q /\ inodes (fs_i s) !! q = Some a.

(** The calls considered: on vnodes that are held, with names that are absent or
    present as the operation needs, none of them "." or "..", and with no entry made
    in a directory that has been removed.  The virtual file system checks for the
    presence of a name, and for no more than that: it passes on a look-up of "..", on which
    the file system can fail an assertion ([ramfs_dotdot_dangles]), and it makes
    entries in a working directory that was removed, whose files are then lost
    ([orphan_lost] of [VfsSpec]). *)
Definition allowed (s : fsys ramfs) (c : fscall) : Prop :=
  match c with
  | Create dir name n | Mkdir dir name n => exists dv p nd l nm, can_add s dir dv p nd l name n nm
  | Mknod dir name n mode _ =>
      (exists dv p nd l nm, can_add s dir dv p nd l name n nm) /\ (mode = S_IFCHR \/ mode = S_IFBLK)
  | Link old dir name n => (exists dv p nd l nm, can_add s dir dv p nd l name n nm) /\ is_Some (vnodes s !! old)
  | Unlink dir name n => exists a, names_file s dir name n a /\ S_ISDIR (mode_of a) = false
  | Rmdir dir name n => exists a, names_file s dir name n a
  | Lookup dir name n => exists dv p nd l nm, is_dir s dir dv p nd l /\ is_name name n nm /\ nm ∉ dots
  | Write file offset buf count => (exists v p nd b, is_file s file v p nd b) /\ 0 <= offset <= 4096
      /\ 0 <= count < 2 ^ 31 /\ count <= Z.of_nat (length buf)
  | Ref vn | Put vn => is_Some (vnodes s !! vn)
  end.

Lemma named_slot s dir dv p nd l nm i : inv none s -> is_dir s dir dv p nd l -> nm <> [] -> nm ∉ dots ->
  dir_find l nm = Some i -> is_Some (rfs_inodes (fs_i s) !! i).
Proof.
  intros HI [_ _ Hp Hm] Hne Hd Hf. apply dir_find_entry in Hf as (k & e & _ & <- & He & Hnm).
  eapply (inv_entry none s HI p nd l e); [done|done|by eapply list_elem_of_lookup_2|].
  split; [unfold named; by rewrite Hnm|]. split; [by rewrite Hnm|done].
Qed.

Lemma run_perform s c : inv none s -> calm s -> (3 <= fs_budget s)%nat -> allowed s c ->
  runs (perform c) s (fun _ s' => inv none s').
Proof.
  intros HI Hcalm Hb Hc. destruct c; cbn [perform allowed] in *.
  - destruct Hc as (dv & p & nd & l & nm & HA). apply runs_bind. eapply runs_mono; [by eapply run_create|].
    intros r s' [HI' _]. by go.
  - destruct Hc as [(dv & p & nd & l & nm & HA) Hm]. eapply runs_mono; [eapply run_mknod; try done; lia|]. by intros r s' [HI' _].
  - destruct Hc as [(dv & p & nd & l & nm & HA) [ov Hov]].
    destruct (inv_vnode none s HI old ov Hov) as [_ _ _ _ (q & a & Hq & Ha & _)].
    eapply runs_mono; [by eapply (run_link s dir dv p nd l name n nm old ov q a)|]. by intros r s' [HI' _].
  - destruct Hc as (a & (dv & p & nd & l & nm & i & q & HD & Hn & Hd & Hf & Hi & Hq) & Hm).
    eapply runs_mono; [eapply run_unlink; try done; lia|]. by intros r s' (_ & HI' & _).
  - destruct Hc as (dv & p & nd & l & nm & HA). eapply runs_mono; [eapply run_mkdir; try done; lia|]. by intros r s' [HI' _].
  - destruct Hc as (a & dv & p & nd & l & nm & i & q & HD & Hn & Hd & Hf & Hi & Hq).
    destruct (mode_cases a) as [[l2 Hm]|Hm].
    + eapply runs_mono; [eapply run_rmdir; try done; lia|]. by intros r s' (HI' & _).
    + eapply runs_mono; [eapply run_rmdir_file; try done; lia|]. by intros r s' (_ & HI' & _).
  - destruct Hc as (dv & p & nd & l & nm & HD & Hn & Hd). apply runs_bind. pose proof (name_nonempty _ _ _ Hn) as Hne.
    destruct (dir_find l nm) as [i|] eqn:Ef.
    + eapply runs_mono; [eapply run_lookup_some; try done; [by eapply named_slot|lia]|].
      intros r s' (vn & _ & Hg). go. by eapply got_inv.
    + eapply runs_mono; [eapply run_lookup_none; try done; by apply dir_find_None|]. intros r s' [_ ->]. by go.
  - destruct Hc as ((v & p & nd & b & HF) & Ho & Hct & Hbuf). eapply runs_mono; [by eapply run_write|]. by intros r s' (_ & HI' & _).
  - destruct Hc as [v Hv]. destruct (inv_vnode none s HI vn v Hv) as [B R N P Q]. unfold vref. run.
    apply runs_assert; [apply Z.ltb_lt; lia|]. run. pose proof (Hcalm vn v Hv). rewrite s32_small by lia.
    apply (inv_replace_vnode none s HI vn v); [done|done|]. split; try done. cbn. lia.
  - destruct Hc as [v Hv]. apply runs_bind. pose proof (Hcalm vn v Hv).
    eapply runs_mono; [apply (run_vput none s vn v); [done|done|lia]|]. intros [] s' Hput. go. by eapply put_inv.
Qed.

(** The states of a mounted file system. *)
Inductive reach : fsys ramfs -> Prop :=
| reach_mount s0 s : pristine s0 -> ramfs_mount s0 = Done 0 s -> reach s
| reach_call s c r s' : reach s -> calm s -> (3 <= fs_budget s)%nat -> allowed s c -> perform c s = Done r s' -> reach s'.

Lemma reach_inv s : reach s -> inv none s.
Proof.
  induction 1 as [s0 s Hp Hm|s c r s' _ IH Hcalm Hb Hc Hr].
  - destruct (run_mount s0 Hp) as (r & s' & E & _ & HI & _). congruence.
  - destruct (run_perform s c IH Hcalm Hb Hc) as (r' & s'' & E & HI). congruence.
Qed.

End operations.

(** ** A concrete machine, for the witnesses *)

#[export] Instance demo_platform : Platform ramfs := {
  bytedev_lookup := fun _ => None;
  blockdev_lookup := fun _ => None;
  cd_read := fun _ _ _ => kret (0, []);
  cd_write := fun _ _ _ _ => kret 0;
  pframe_uncache := fun _ => kret tt;
  retries := O
}.

Definition blank_state : fsys ramfs := mk_fsys ∅ [] (mk_ramfs ∅ ∅) None 1 1000 0 [].
Definition mounted : fsys ramfs := match ramfs_mount blank_state with Done _ s => s | _ => blank_state end.
Lemma mounted_eq : ramfs_mount blank_state = Done 0 mounted.
Proof. vm_compute. reflexivity. Qed.
Lemma blank_pristine : pristine blank_state.
Proof. split; try done. cbn. lia. Qed.
Lemma mounted_reach : reach mounted.
Proof. exact (reach_mount blank_state mounted blank_pristine mounted_eq). Qed.

Definition root_vnode : vnode := fresh_vnode 0 2 (made 1 0 0).
Definition root_inode : ramfs_inode := link_more (made 1 0 0).

Lemma mounted_vnodes : vnodes mounted = {[ 4 := root_vnode ]}.
Proof. vm_compute. reflexivity. Qed.
Lemma mounted_inodes : inodes (fs_i mounted) = {[ 2 := root_inode ]}.
Proof. vm_compute. reflexivity. Qed.
Lemma mounted_dir : is_dir mounted 4 root_vnode 2 root_inode (fresh_dir 0 0).
Proof. split; [by rewrite mounted_vnodes, lookup_singleton_eq|done|by rewrite mounted_inodes, lookup_singleton_eq|done]. Qed.
Lemma mounted_calm : calm mounted.
Proof. intros vn v. rewrite mounted_vnodes. intros [_ <-]%lookup_singleton_Some. done. Qed.
Lemma mounted_budget : (3 <= fs_budget mounted)%nat.
Proof. apply Nat.leb_le. vm_compute. reflexivity. Qed.

(** The component "a" of the path "a/". *)
Definition name_a : list Z := [97; SLASH; NUL].
Lemma is_name_a : is_name name_a 1 [97].
Proof. split; [done|done| |set_solver|done]. repeat constructor; done. Qed.
Lemma mounted_can_add : can_add mounted 4 root_vnode 2 root_inode (fresh_dir 0 0) name_a 1 [97].
Proof.
  split; [apply mounted_dir|apply is_name_a|cbn; lia|set_solver|rewrite fresh_dir_names; set_solver|].
  rewrite mounted_inodes. vm_compute. discriminate.
Qed.

(** The same file system with the file "a" in it. *)
Definition with_a : fsys ramfs := match perform (Create 4 name_a 1) mounted with Done _ s => s | _ => mounted end.
Lemma with_a_reach : reach with_a.
Proof.
  refine (reach_call mounted (Create 4 name_a 1) 0 with_a mounted_reach mounted_calm mounted_budget _ _).
  - cbn. eexists _, _, _, _, _. apply mounted_can_add.
  - vm_compute. reflexivity.
Qed.
Definition file_a : ramfs_inode := mk_inode 0 1 (Page (repeat 0 4096)) RAMFS_TYPE_DATA 2.
Definition vnode_a : vnode := fresh_vnode 1 5 (new_inode RAMFS_TYPE_DATA 0 1).
Lemma with_a_file : is_file with_a 7 vnode_a 5 file_a (repeat 0 4096).
Proof. split; vm_compute; reflexivity. Qed.

(** ** The theorems *)



(** C33: [ramfs_create] enters the new name in the directory, changes no other name
    of it and no other file, and returns the vnode of a new regular file; or it
    returns -ENOSPC and changes nothing, and then the directory or the table of
    inodes is full. *)
Theorem ramfs_create_spec `{Platform ramfs} s dir dv p nd l name n nm :
  reach s -> calm s -> (3 <= fs_budget s)%nat -> can_add s dir dv p nd l name n nm ->
  exists r res s', ramfs_create dir name n s = Done (r, res) s' /\ others p s s' /\
    ((exists vn v ino, r = 0 /\ res = Some vn /\ entered s' dir p l nm ino
        /\ vnodes s' !! vn = Some v /\ vn_vno v = ino /\ vn_mode v = S_IFREG /\ rfs_inodes (fs_i s) !! ino = None)
     \/ (r = - ENOSPC /\ res = None /\ s' = s /\ (dir_full l \/ table_full s))).
Proof.
  intros HR Hcalm Hb HA. destruct (run_create s dir dv p nd l name n nm (reach_inv s HR) Hcalm Hb HA)
    as ([r res] & s' & E & _ & Ho & Hcase). exists r, res, s'. split; [done|]. split; [done|].
  destruct Hcase as [(vn & v & ino & Er & Hrest)|(Er & Hrest)]; injection Er as -> ->; [left|right]; eauto 10.
Qed.

Lemma ramfs_create_spec_witness :
  exists r res s', ramfs_create 4 name_a 1 mounted = Done (r, res) s' /\ others 2 mounted s' /\
    ((exists vn v ino, r = 0 /\ res = Some vn /\ entered s' 4 2 (fresh_dir 0 0) [97] ino
        /\ vnodes s' !! vn = Some v /\ vn_vno v = ino /\ vn_mode v = S_IFREG /\ rfs_inodes (fs_i mounted) !! ino = None)
     \/ (r = - ENOSPC /\ res = None /\ s' = mounted /\ (dir_full (fresh_dir 0 0) \/ table_full mounted))).
Proof.
  exact (ramfs_create_spec mounted 4 root_vnode 2 root_inode (fresh_dir 0 0) name_a 1 [97]
           mounted_reach mounted_calm mounted_budget mounted_can_add).
Defined.

(** C34: [ramfs_unlink] of an entry that is not a directory removes that name and no
    other; the file loses one link, and its inode is freed exactly when that was
    its last link and no vnode for it is in core; no other file changes. *)
Theorem ramfs_unlink_spec `{Platform ramfs} s dir dv p nd l name n nm i q a :
  reach s -> calm s -> (0 < fs_budget s)%nat -> is_dir s dir dv p nd l -> is_name name n nm -> nm ∉ dots ->
  dir_find l nm = Some i -> rfs_inodes (fs_i s) !! i = Some q -> inodes (fs_i s) !! q = Some a ->
  S_ISDIR (mode_of a) = false ->
  exists s', ramfs_unlink dir name n s = Done 0 s' /\ removed s' dir p l nm /\ untouched p q s s'
    /\ inodes (fs_i s') !! q = (if rf_linkcount a =? 1 then None else Some (with_links (rf_linkcount a - 1) a)).
Proof.
  intros HR Hcalm Hb HD Hn Hd Hf Hi Hq Hm.
  destruct (run_unlink s dir dv p nd l name n nm i q a (reach_inv s HR) Hcalm Hb HD Hn Hd Hf Hi Hq Hm)
    as (r & s' & E & -> & _ & _ & Hrem & Hunt & Hdrop). by exists s'.
Qed.

Definition dir_with_a : list dirent := <[2%nat := mk_dirent 1 (97 :: repeat 0 27)]> (fresh_dir 0 0).
Definition root_with_a : ramfs_inode := mk_inode 96 0 (Dents dir_with_a) RAMFS_TYPE_DIR 2.

Lemma ramfs_unlink_spec_witness :
  exists s', ramfs_unlink 4 name_a 1 with_a = Done 0 s' /\ removed s' 4 2 dir_with_a [97] /\ untouched 2 5 with_a s'
    /\ inodes (fs_i s') !! 5 = Some (with_links 1 file_a).
Proof.
  refine (ramfs_unlink_spec with_a 4 root_vnode 2 root_with_a dir_with_a name_a 1 [97] 1 5 file_a with_a_reach _ _ _ _ _ _ _ _ _).
  - intros vn v Hv. assert (E : vnodes with_a = {[ 4 := root_vnode; 7 := vnode_a ]}) by (vm_compute; reflexivity).
    rewrite E in Hv. apply lookup_insert_Some in Hv as [[_ <-]|[_ Hv]]; [done|].
    apply lookup_singleton_Some in Hv as [_ <-]. done.
  - apply Nat.ltb_lt. vm_compute. reflexivity.
  - split; vm_compute; reflexivity.
  - apply is_name_a.
  - set_solver.
  - vm_compute. reflexivity.
  - vm_compute. reflexivity.
  - vm_compute. reflexivity.
  - reflexivity.
Defined.

Lemma written_take offset data nd b :
  0 <= offset -> (Z.to_nat offset + length data <= length b)%nat -> Z.of_nat (length b) <= 4096 ->
  take (length data) (drop (Z.to_nat offset) (take (Z.to_nat (rf_size (written offset data nd b)))
    (take (Z.to_nat offset) b ++ data ++ drop (Z.to_nat offset + length data) b))) = data.
Proof.
  intros Ho Hlen Hb. cbn [rf_size written with_size]. set (o := Z.to_nat offset) in *.
  rewrite skipn_firstn_comm, take_take, drop_app_length' by (rewrite length_take; lia).
  rewrite Nat.min_l by lia. by rewrite take_app_length.
Qed.

(** C35: what [ramfs_write] stores, [ramfs_read] returns: a write at an offset within
    the file's page stores as many bytes as fit in the page and returns their
    number, a read of that many bytes at the same offset returns them, the file's
    length is the larger of its old length and the end of the data, every byte
    before the offset and after the data is as it was, and no other file changes. *)
Theorem ramfs_write_read `{Platform ramfs} s vn v p nd b offset buf count :
  reach s -> is_file s vn v p nd b -> 0 <= offset <= 4096 -> 0 <= count < 2 ^ 31 -> count <= Z.of_nat (length buf) ->
  exists r s' b', ramfs_write vn offset buf count s = Done r s'
    /\ r = Z.min count (4096 - offset)
    /\ ramfs_read vn offset r s' = Done (r, take (Z.to_nat r) buf) s'
    /\ is_file s' vn (with_len (Z.max (rf_size nd) (offset + r)) v) p (with_size (Z.max (rf_size nd) (offset + r)) (with_mem (Page b') nd)) b'
    /\ (forall i, (i < Z.to_nat offset \/ Z.to_nat (offset + r) <= i)%nat -> b' !! i = b !! i)
    /\ (forall q, q <> p -> inodes (fs_i s') !! q = inodes (fs_i s) !! q).
Proof.
  intros HR HF Hoff Hcount Hbuf. pose proof (reach_inv s HR) as HI.
  destruct (is_file_ok _ _ _ _ _ _ HI HF) as (Hb & Hsz & Hlen & Hmode).
  destruct (run_write s vn v p nd b offset buf count HI HF Hoff Hcount Hbuf) as (r & s' & E & Hr & HI' & Hs').
  set (k := Z.min count (4096 - offset)) in *. set (data := take (Z.to_nat k) buf) in *.
  assert (Hdata : length data = Z.to_nat k) by (unfold data; rewrite length_take; lia).
  assert (r = k) as -> by lia. set (b' := take (Z.to_nat offset) b ++ data ++ drop (Z.to_nat offset + length data) b).
  assert (HF' : is_file s' vn (with_len (Z.max (rf_size nd) (offset + k)) v) p (written offset data nd b) b').
  { rewrite Hs'. split; cbn; rewrite ?lookup_insert_eq; try done; [|apply HF]. do 2 f_equal. lia. }
  exists k, s', b'. split; [done|]. split; [done|]. split; [|split; [|split]].
  - rewrite (run_read s' vn _ p _ b' offset k HI' HF') by lia. cbv zeta. unfold contents.
    assert (Et : take (Z.to_nat k) (drop (Z.to_nat offset) (take (Z.to_nat (rf_size (written offset data nd b))) b')) = data).
    { rewrite <- Hdata. apply written_take; lia. }
    rewrite Et, Hdata. do 2 f_equal. lia.
  - replace (with_size (Z.max (rf_size nd) (offset + k)) (with_mem (Page b') nd)) with (written offset data nd b); [done|].
    unfold written. f_equal. lia.
  - intros i [Hi|Hi]; unfold b'.
    + rewrite lookup_app_l by (rewrite length_take; lia). by apply lookup_take_lt.
    + rewrite lookup_app_r by (rewrite length_take; lia). rewrite lookup_app_r by (rewrite length_take; lia).
      rewrite lookup_drop, length_take. f_equal. lia.
  - intros q Hq. rewrite Hs'. cbn. by rewrite lookup_insert_ne.
Qed.

Lemma ramfs_write_read_witness :
  exists r s' b', ramfs_write 7 4095 [10; 11] 2 with_a = Done r s' /\ r = 1
    /\ ramfs_read 7 4095 r s' = Done (r, take (Z.to_nat r) [10; 11]) s'
    /\ is_file s' 7 (with_len 4096 vnode_a) 5 (with_size 4096 (with_mem (Page b') file_a)) b'.
Proof.
  destruct (ramfs_write_read with_a 7 vnode_a 5 file_a (repeat 0 4096) 4095 [10; 11] 2 with_a_reach with_a_file)
    as (r & s' & b' & E & -> & Hread & HF & _); [lia|lia|cbn; lia|].
  exists 1, s', b'. split; [exact E|]. split; [reflexivity|]. split; [exact Hread|exact HF].
Defined.

(** reading a directory from offset 0, each call at the offset where the one
    before it stopped, ends after at most 129 calls and yields exactly the
    directory's entries in their order, with their inode numbers and names. *)
Theorem ramfs_readdir_lists `{Platform ramfs} s dir dv p nd l :
  reach s -> is_dir s dir dv p nd l -> vn_mode dv = S_IFDIR ->
  readdir_all 129 dir 0 s = Done (listing <$> filter named l) s
  /\ ((fun d => d.2) <$> (listing <$> filter named l)) = names l.
Proof.
  intros HR HD Hm. split.
  - apply (run_readdir_all none s dir dv p nd l 129 0%nat); [by apply reach_inv|done|done|lia|lia].
  - rewrite <- list_fmap_compose. reflexivity.
Qed.

Lemma ramfs_readdir_lists_witness :
  readdir_all 129 4 0 with_a = Done [(0, [46]); (0, [46; 46]); (1, [97])] with_a.
Proof.
  refine (eq_trans (proj1 (ramfs_readdir_lists with_a 4 root_vnode 2 root_with_a dir_with_a with_a_reach _ _)) _).
  - split; vm_compute; reflexivity.
  - reflexivity.
  - assert (E : listing <$> filter named dir_with_a = [(0, [46]); (0, [46; 46]); (1, [97])]) by (vm_compute; reflexivity).
    rewrite E. reflexivity.
Defined.

(** ** Where the file system falls short *)

(** A name of 28 characters, the longest the layer above lets through. *)
Definition name28 : list Z := repeat 97 28 ++ [NUL].

(** a name of NAME_LEN = 28 characters can be created, but what is stored is its
    first 27 characters, so that looking the same name up right afterwards does not
    find it, while its first 27 characters are found. *)
Theorem ramfs_name_truncated :
  answer ((r <- ramfs_create 4 name28 28 ;; q <- ramfs_lookup 4 name28 28 ;; q' <- ramfs_lookup 4 name28 27 ;;
           kret (r, q, q'))%kernel mounted)
  = Some ((0, Some 7), (- ENOENT, None), (0, Some 7)).
Proof. vm_compute. reflexivity. Qed.

(** The directory "a" is made, then "a/b", whose vnode is kept; both directories
    are removed, and ".." is looked up in the removed "a/b". *)
Definition name_b : list Z := [98; NUL].
Definition name_dotdot : list Z := [46; 46; NUL].
Definition dangling : kernel (fsys ramfs) Z :=
  ramfs_mkdir 4 name_a 1 ;;;
  a <- ramfs_lookup 4 name_a 1 ;;
  match snd a with
  | Some va =>
      ramfs_mkdir va name_b 1 ;;;
      b <- ramfs_lookup va name_b 1 ;;
      match snd b with
      | Some vb =>
          ramfs_rmdir va name_b 1 ;;; vput va ;;; ramfs_rmdir 4 name_a 1 ;;;
          r <- ramfs_lookup vb name_dotdot 2 ;; kret (fst r)
      | None => kret 1
      end
  | None => kret 2
  end.

(** the ".." entry of a directory is not counted as a link of its parent, so that
    a removed directory that is still in use can outlive its parent's inode: looking
    ".." up in it follows a freed inode and panics. *)
Theorem ramfs_dotdot_dangles : dangling mounted = Panic.
Proof. vm_compute. reflexivity. Qed.

End RamfsFile.
