(* ===== verification/Vfs.v ===== *)
(** * The virtual file system: open files, path names and system calls

    [fs/file.c], [fs/open.c], [fs/namev.c], [fs/vfs_syscall.c] and the mounting and
    unmounting of the root file system in [fs/vfs.c], for one process ([curproc])
    over one mounted file system, which is reached through its operation tables. *)

From S2P Require Import Prelude KString Vnode Ramfs.

Module Vfs.
Import KString Vnode Ramfs.

Local Open Scope Z_scope.

Definition NFILES : Z := 32.
Definition MAXPATHLEN : Z := 1024.
Definition FMODE_READ : Z := 1.
Definition FMODE_WRITE : Z := 2.
Definition FMODE_APPEND : Z := 4.
Definition O_RDONLY : Z := 0.
Definition O_WRONLY : Z := 1.
Definition O_RDWR : Z := 2.
Definition O_CREAT : Z := 0x100.
Definition O_TRUNC : Z := 0x200.
Definition O_APPEND : Z := 0x400.
Definition SEEK_SET : Z := 0.
Definition SEEK_CUR : Z := 1.
Definition SEEK_END : Z := 2.
Definition ENXIO : Z := 6.
(** [sizeof(dirent_t)]: two words and [NAME_LEN + 1] characters, padded *)
Definition sizeof_dirent_t : Z := 40.

(** ** The state *)

Record file : Type := mk_file { f_pos : Z; f_mode : Z; f_refcount : Z; f_vnode : option Z }.
Definition with_pos (p : Z) (f : file) : file := mk_file p (f_mode f) (f_refcount f) (f_vnode f).
Definition with_fmode (m : Z) (f : file) : file := mk_file (f_pos f) m (f_refcount f) (f_vnode f).
Definition with_frefs (c : Z) (f : file) : file := mk_file (f_pos f) (f_mode f) c (f_vnode f).
Definition with_fvnode (v : option Z) (f : file) : file := mk_file (f_pos f) (f_mode f) (f_refcount f) v.

(** The file systems, the [file_t] objects, and what the current process has:
    its descriptor table of [NFILES] pointers and its working directory. *)
Record vfs (I : Type) : Type := mk_vfs {
  vfs_fs : fsys I;
  files : gmap Z file;
  p_files : list (option Z);
  p_cwd : option Z;
  vfs_root_vn : option Z
}.
Arguments mk_vfs {I}.
Arguments vfs_fs {I}.
Arguments files {I}.
Arguments p_files {I}.
Arguments p_cwd {I}.
Arguments vfs_root_vn {I}.

Definition set_fs {I} (t : fsys I) (s : vfs I) : vfs I := mk_vfs t (files s) (p_files s) (p_cwd s) (vfs_root_vn s).
Definition set_files {I} (g : gmap Z file -> gmap Z file) (s : vfs I) : vfs I :=
  mk_vfs (vfs_fs s) (g (files s)) (p_files s) (p_cwd s) (vfs_root_vn s).
Definition set_p_files {I} (g : list (option Z) -> list (option Z)) (s : vfs I) : vfs I :=
  mk_vfs (vfs_fs s) (files s) (g (p_files s)) (p_cwd s) (vfs_root_vn s).
Definition set_cwd {I} (d : option Z) (s : vfs I) : vfs I := mk_vfs (vfs_fs s) (files s) (p_files s) d (vfs_root_vn s).
Definition set_root_vn {I} (d : option Z) (s : vfs I) : vfs I := mk_vfs (vfs_fs s) (files s) (p_files s) (p_cwd s) d.

(** An operation of the layers below, run in the larger state. *)
Fixpoint lift_outcome {I A} (o : outcome (fsys I) A) (s : vfs I) : outcome (vfs I) A :=
  match o with
  | Done a t => Done a (set_fs t s)
  | Panic => Panic
  | NoFuel => NoFuel
  | Env e t k => Env e (set_fs t s) (fun s' => lift_outcome (k (vfs_fs s')) s')
  end.
Definition fs_op {I A} (m : kernel (fsys I) A) : kernel (vfs I) A := fun s => lift_outcome (m (vfs_fs s)) s.

(** ** The operation tables *)

(** What a mounted file system promises to this layer: its mount and unmount
    routines and the entries of its two [vnode_ops_t] tables that are not [NULL]
    ([ramfs_dir_vops], [ramfs_file_vops]). *)
Class VnodeOps (I : Type) : Type := {
  mountfunc : kernel (fsys I) Z;
  umount : kernel (fsys I) Z;
  dir_create : Z -> list Z -> Z -> kernel (fsys I) (Z * option Z);
  dir_mknod : Z -> list Z -> Z -> Z -> Z -> kernel (fsys I) Z;
  dir_lookup : Z -> list Z -> Z -> kernel (fsys I) (Z * option Z);
  dir_link : Z -> Z -> list Z -> Z -> kernel (fsys I) Z;
  dir_unlink : Z -> list Z -> Z -> kernel (fsys I) Z;
  dir_mkdir : Z -> list Z -> Z -> kernel (fsys I) Z;
  dir_rmdir : Z -> list Z -> Z -> kernel (fsys I) Z;
  dir_readdir : Z -> Z -> kernel (fsys I) (Z * option (Z * list Z));
  file_read : Z -> Z -> Z -> kernel (fsys I) (Z * list Z);
  file_write : Z -> Z -> list Z -> Z -> kernel (fsys I) Z;
  vnode_stat : Z -> kernel (fsys I) (Z * stat)
}.

#[export] Instance ramfs_vops `{Platform ramfs} : VnodeOps ramfs := {
  mountfunc := ramfs_mount;
  umount := ramfs_umount;
  dir_create := ramfs_create;
  dir_mknod := ramfs_mknod;
  dir_lookup := ramfs_lookup;
  dir_link := ramfs_link;
  dir_unlink := ramfs_unlink;
  dir_mkdir := ramfs_mkdir;
  dir_rmdir := ramfs_rmdir;
  dir_readdir := ramfs_readdir;
  file_read := ramfs_read;
  file_write := ramfs_write;
  vnode_stat := ramfs_stat
}.

(** A path name: a string in kernel memory at an address.  A pointer into it is an
    offset, and [at_ p k] is the string such a pointer designates. *)
Record path : Type := mk_path { pa_addr : Z; pa_str : list Z }.
Definition at_ (p : path) (k : nat) : list Z := drop k (pa_str p).

Section vfs.
Context {I : Type} `{FsOps I} `{Platform I} `{VnodeOps I}.
Abbreviation M := (kernel (vfs I)).

(** [vn->vn_ops], for a call through the table; a missing entry is a fault. *)
Definition ops_table (vn : Z) : M vnode_ops := v <- fs_op (get_vnode vn) ;; kderef (vn_ops v).
Definition via_dir {A} (vn : Z) (m : kernel (fsys I) A) : M A :=
  t <- ops_table vn ;; match t with fs_dir_vops => fs_op m | _ => kpanic end.
Definition vop_read (vn offset count : Z) : M (Z * list Z) :=
  t <- ops_table vn ;;
  match t with
  | fs_file_vops => fs_op (file_read vn offset count)
  | bytedev_spec_vops => fs_op (special_file_read vn offset count)
  | _ => kpanic
  end.
Definition vop_write (vn offset : Z) (buf : list Z) (count : Z) : M Z :=
  t <- ops_table vn ;;
  match t with
  | fs_file_vops => fs_op (file_write vn offset buf count)
  | bytedev_spec_vops => fs_op (special_file_write vn offset buf count)
  | _ => kpanic
  end.
Definition mode_of_vnode (vn : Z) : M Z := v <- fs_op (get_vnode vn) ;; kret (vn_mode v).

(** ** Open files ([fs/file.c]) *)

Definition get_file (f : Z) : M file := s <- kget ;; kderef (files s !! f).
Definition upd_file (f : Z) (g : file -> file) : M unit := get_file f ;;; kmodify (set_files (alter g f)).

Definition fref (f : Z) : M unit :=
  x <- get_file f ;;
  kassert ((0 <=? f_mode x) && (f_mode x <? 8)) ;;;
  kassert (-1 <=? f_pos x) ;;;
  kassert (0 <=? f_refcount x) ;;;
  kassert ((f_refcount x =? 0) || bool_decide (is_Some (f_vnode x))) ;;;
  upd_file f (fun x => with_frefs (s32 (f_refcount x + 1)) x).

(** [curproc->p_files[fd]] *)
Definition fd_file (s : vfs I) (fd : Z) : option Z := mjoin (p_files s !! Z.to_nat fd).

Definition fget (fd : Z) : M (option Z) :=
  if fd =? -1 then
    f <- fs_op mem_alloc ;;
    match f with
    | Some f => kmodify (set_files (insert f (mk_file 0 0 0 None))) ;;; fref f ;;; kret (Some f)
    | None => kret None
    end
  else if (fd <? 0) || (NFILES <=? fd) then kret None
  else
    s <- kget ;;
    match fd_file s fd with
    | Some f => fref f ;;; kret (Some f)
    | None => kret None
    end.

Definition fput (f : option Z) : M unit :=
  f <- kderef f ;;
  x <- get_file f ;;
  kassert ((0 <=? f_mode x) && (f_mode x <? 8)) ;;;
  kassert (-1 <=? f_pos x) ;;;
  kassert (0 <? f_refcount x) ;;;
  kassert ((f_refcount x =? 1) || bool_decide (is_Some (f_vnode x))) ;;;
  upd_file f (fun x => with_frefs (s32 (f_refcount x - 1)) x) ;;;
  x <- get_file f ;;
  if f_refcount x =? 0 then
    (match f_vnode x with Some vn => fs_op (vput vn) | None => kret tt end) ;;;
    kmodify (set_files (delete f))
  else kret tt.

(** ** Path names ([fs/namev.c])

    A variable that a callee may leave unset is an [option]: reading it before it
    is set is a fault. *)

Definition lookup (dir : Z) (name : list Z) (len : Z) (result : option Z) : M (Z * option Z) :=
  v <- fs_op (get_vnode dir) ;;
  if negb (vn_mode v =? S_IFDIR) then kret (- ENOTDIR, result)
  else
    t <- kderef (vn_ops v) ;;
    match t with
    | fs_dir_vops =>
        a <- kderef (strcmp name [DOT; NUL]) ;;
        if a =? 0 then kret (0, result)
        else
          b <- kderef (strcmp name [DOT; DOT; NUL]) ;;
          if b =? 0 then kret (0, result)
          else
            r <- fs_op (dir_lookup dir name len) ;;
            kret (fst r, match snd r with Some vn => Some vn | None => result end)
    | _ => kret (- ENOTDIR, result)
    end.

(** [while ( *child == '/') child++] *)
Fixpoint skip_slashes (s : list Z) : option nat :=
  match s with
  | [] => None
  | c :: s => if c =? SLASH then S <$> skip_slashes s else Some O
  end.

(** What [dir_namev] hands back: the directory, the name (an offset into the path)
    and its length. *)
Definition parent_dir : Type := Z * nat * Z.

(** The loop of [dir_namev], at the vnode [ptr] and the offset [parent]. *)
Fixpoint namev_loop (fuel : nat) (p : path) (ptr : Z) (parent : nat) (temp : option Z) : M (Z * option parent_dir) :=
  match fuel with
  | O => fun _ => NoFuel
  | S fuel =>
      mode <- mode_of_vnode ptr ;;
      if negb (S_ISDIR mode) then fs_op (vput ptr) ;;; kret (- ENOTDIR, None)
      else
        child <- kderef (strchr (at_ p parent) SLASH) ;;
        let len := match child with
                   | Some k => s32 (Z.of_nat k)
                   | None => s32 (0 - (pa_addr p + Z.of_nat parent))
                   end in
        if NAME_LEN <? len then fs_op (vput ptr) ;;; kret (- ENAMETOOLONG, None)
        else
          (* with child == NULL, *child is a fault *)
          k <- kderef child ;;
          j <- kderef (skip_slashes (at_ p (parent + k))) ;;
          let child := (parent + k + j)%nat in
          c <- kderef (pa_str p !! child) ;;
          if c =? NUL then kret (0, Some (ptr, parent, u32 len))
          else
            r <- lookup ptr (at_ p parent) (u32 len) temp ;;
            fs_op (vput ptr) ;;;
            if fst r =? 0 then ptr <- kderef (snd r) ;; namev_loop fuel p ptr child (snd r)
            else kret (fst r, None)
  end.

Definition dir_namev (pathname : option path) (base : option Z) : M (Z * option parent_dir) :=
  p <- kderef pathname ;;
  n <- kderef (strlen (pa_str p)) ;;
  if MAXPATHLEN <? n then kret (- ENAMETOOLONG, None)
  else if n =? 0 then kret (- EINVAL, None)
  else
    c <- kderef (pa_str p !! O) ;;
    s <- kget ;;
    let parent := if c =? SLASH then 1%nat else O in
    ptr <- kderef (if c =? SLASH then vfs_root_vn s
                   else match base with None => p_cwd s | Some b => Some b end) ;;
    fs_op (vref ptr) ;;;
    namev_loop (S (length (pa_str p))) p ptr parent None.

(** [open_namev]; [res_vnode] is the caller's variable.  When [dir_namev] fails,
    [name] and [namelen] are never set, so that the [lookup] that follows reads an
    uninitialised pointer. *)
Definition open_namev (pathname : option path) (flag : Z) (res_vnode base : option Z) : M (Z * option Z) :=
  r <- dir_namev pathname base ;;
  match r with
  | (0, Some (dir, _, _)) => kret (0, Some dir)
  | _ =>
      vn <- kderef res_vnode ;;
      mode <- mode_of_vnode vn ;;
      if negb (S_ISDIR mode) then fs_op (vput vn) ;;; kret (- ENOTDIR, res_vnode)
      else kpanic
  end.

(** ** Opening ([fs/open.c]) *)

Fixpoint empty_fd_from (l : list (option Z)) (fd : Z) : Z :=
  match l with
  | [] => - EMFILE
  | None :: _ => fd
  | Some _ :: l => empty_fd_from l (fd + 1)
  end.
Definition get_empty_fd : M Z := s <- kget ;; kret (empty_fd_from (p_files s) 0).

(** [curproc->p_files[fd] = f]; outside the array it overwrites other memory. *)
Definition set_fd (fd : Z) (f : option Z) : M unit :=
  if (fd <? 0) || (NFILES <=? fd) then kpanic else kmodify (set_p_files (insert (Z.to_nat fd) f)).

(** The [switch] of [do_open]. *)
Definition open_mode (oflags : Z) : option Z :=
  if (oflags =? O_RDONLY) || (oflags =? Z.lor O_RDONLY O_CREAT) || (oflags =? Z.lor O_RDONLY O_TRUNC) then Some FMODE_READ
  else if (oflags =? O_WRONLY) || (oflags =? Z.lor O_WRONLY O_TRUNC) || (oflags =? Z.lor O_WRONLY O_CREAT) then Some FMODE_WRITE
  else if (oflags =? O_RDWR) || (oflags =? Z.lor O_RDWR O_TRUNC) || (oflags =? Z.lor O_RDWR O_CREAT) then Some (Z.lor FMODE_WRITE FMODE_READ)
  else if oflags =? Z.lor O_RDONLY O_APPEND then Some (Z.lor FMODE_READ FMODE_APPEND)
  else if oflags =? Z.lor O_WRONLY O_APPEND then Some (Z.lor FMODE_WRITE FMODE_APPEND)
  else if oflags =? Z.lor O_RDWR O_APPEND then Some (Z.lor (Z.lor FMODE_WRITE FMODE_READ) FMODE_APPEND)
  else None.

Definition do_open (filename : option path) (oflags : Z) : M Z :=
  fd <- get_empty_fd ;;
  if fd =? - EMFILE then kret (- EMFILE)
  else
    fresh <- fget (-1) ;;
    match fresh with
    | None => fput None ;;; kret (- ENOMEM)
    | Some f =>
        p <- kderef filename ;;
        n <- kderef (strlen (pa_str p)) ;;
        if NAME_LEN <? n then fput fresh ;;; kret (- ENAMETOOLONG)
        else
          match open_mode oflags with
          | None => fput fresh ;;; kret (- EINVAL)
          | Some m =>
              upd_file f (with_fmode m) ;;;
              r <- open_namev filename oflags None None ;;
              if negb (fst r =? 0) then fput fresh ;;; kret (fst r)
              else
                vn <- kderef (snd r) ;;
                v <- fs_op (get_vnode vn) ;;
                if S_ISDIR (vn_mode v) && ((Z.land oflags 3 =? O_WRONLY) || (Z.land oflags 3 =? O_RDWR)) then
                  fput fresh ;;; fs_op (vput vn) ;;; kret (- EISDIR)
                else if (S_ISCHR (vn_mode v) && negb (bool_decide (is_Some (bytedev_lookup (vn_devid v)))))
                        || (S_ISBLK (vn_mode v) && negb (bool_decide (is_Some (blockdev_lookup (vn_devid v))))) then
                  fput fresh ;;; fs_op (vput vn) ;;; kret (- ENXIO)
                else
                  upd_file f (with_fvnode (Some vn)) ;;;
                  set_fd fd (Some f) ;;;
                  kret fd
          end
    end.

(** ** System calls on descriptors ([fs/vfs_syscall.c]) *)

(** [fd<0||fd>=NFILES||(curproc->p_files[fd]==NULL)] *)
Definition bad_fd (s : vfs I) (fd : Z) : bool :=
  (fd <? 0) || (NFILES <=? fd) || negb (bool_decide (is_Some (fd_file s fd))).

(** [fget] with the assertion every caller makes. *)
Definition fget_open (fd : Z) : M Z := f <- fget fd ;; kderef f.
Definition file_vnode (f : Z) : M Z := x <- get_file f ;; kderef (f_vnode x).

(** The data read comes with the result. *)
Definition do_read (fd nbytes : Z) : M (Z * list Z) :=
  s <- kget ;;
  if bad_fd s fd then kret (- EBADF, [])
  else
    f <- fget_open fd ;;
    x <- get_file f ;;
    if Z.land (f_mode x) FMODE_READ =? 0 then fput (Some f) ;;; kret (- EBADF, [])
    else
      vn <- file_vnode f ;;
      mode <- mode_of_vnode vn ;;
      if S_ISDIR mode then fput (Some f) ;;; kret (- EBADF, [])
      else
        r <- vop_read vn (f_pos x) nbytes ;;
        if fst r <? 0 then fput (Some f) ;;; kret (fst r, snd r)
        else
          upd_file f (fun x => with_pos (s32 (f_pos x + fst r)) x) ;;;
          fput (Some f) ;;;
          kret r.

Definition do_lseek (fd offset whence : Z) : M Z :=
  s <- kget ;;
  if bad_fd s fd then kret (- EBADF)
  else if negb ((whence =? SEEK_SET) || (whence =? SEEK_CUR) || (whence =? SEEK_END)) then kret (- EINVAL)
  else
    f <- fget_open fd ;;
    x <- get_file f ;;
    i <- (if whence =? SEEK_SET then kret offset
          else if whence =? SEEK_CUR then kret (s32 (f_pos x + offset))
          else
            vn <- file_vnode f ;;
            v <- fs_op (get_vnode vn) ;;
            kret (s32 (vn_len v + offset))) ;;
    if i <? 0 then fput (Some f) ;;; kret (- EINVAL)
    else
      upd_file f (with_pos i) ;;;
      fput (Some f) ;;;
      kret i.

Definition do_write (fd : Z) (buf : list Z) (nbytes : Z) : M Z :=
  s <- kget ;;
  if bad_fd s fd then kret (- EBADF)
  else
    f <- fget_open fd ;;
    x <- get_file f ;;
    if Z.land (f_mode x) FMODE_WRITE =? 0 then fput (Some f) ;;; kret (- EBADF)
    else
      j <- (if negb (Z.land (f_mode x) FMODE_APPEND =? 0) then do_lseek fd 0 SEEK_END else kret 0) ;;
      if j <? 0 then fput (Some f) ;;; kret j
      else
        vn <- file_vnode f ;;
        x <- get_file f ;;
        i <- vop_write vn (f_pos x) buf nbytes ;;
        if i <? 0 then fput (Some f) ;;; kret i
        else
          v <- fs_op (get_vnode vn) ;;
          kassert (S_ISCHR (vn_mode v) || S_ISBLK (vn_mode v) || (S_ISREG (vn_mode v) && (f_pos x <=? vn_len v))) ;;;
          upd_file f (fun x => with_pos (s32 (f_pos x + i)) x) ;;;
          fput (Some f) ;;;
          kret i.

Definition do_close (fd : Z) : M Z :=
  s <- kget ;;
  if bad_fd s fd then kret (- EBADF)
  else
    f <- fget_open fd ;;
    fput (Some f) ;;;
    set_fd fd None ;;;
    fput (Some f) ;;;
    kret 0.

Definition do_dup (fd : Z) : M Z :=
  s <- kget ;;
  if bad_fd s fd then kret (- EBADF)
  else
    f <- fget_open fd ;;
    dup_fd <- get_empty_fd ;;
    if dup_fd =? 0 then fput (Some f) ;;; kret (- EMFILE)
    else
      set_fd dup_fd (Some f) ;;;
      kret dup_fd.

Definition do_dup2 (ofd nfd : Z) : M Z :=
  s <- kget ;;
  if bad_fd s ofd then kret (- EBADF)
  else if (nfd <? 0) || (NFILES <=? nfd) then kret (- EBADF)
  else if ofd =? nfd then kret nfd
  else
    j <- (if bool_decide (is_Some (fd_file s nfd)) then do_close nfd else kret 0) ;;
    if j <? 0 then kret j
    else
      f <- fget_open ofd ;;
      set_fd nfd (Some f) ;;;
      kret nfd.

(** The directory entry handed out comes with the result. *)
Definition do_getdent (fd : Z) : M (Z * option (Z * list Z)) :=
  s <- kget ;;
  if bad_fd s fd then kret (- EBADF, None)
  else
    f <- fget_open fd ;;
    vn <- file_vnode f ;;
    mode <- mode_of_vnode vn ;;
    if negb (S_ISDIR mode) then fput (Some f) ;;; kret (- ENOTDIR, None)
    else
      x <- get_file f ;;
      r <- via_dir vn (dir_readdir vn (f_pos x)) ;;
      upd_file f (fun x => with_pos (s32 (f_pos x + fst r)) x) ;;;
      fput (Some f) ;;;
      kret (if fst r <=? 0 then fst r else sizeof_dirent_t, snd r).

(** ** System calls on path names ([fs/vfs_syscall.c])

    They measure the path before they test it for [NULL], so that a null path is a
    fault.  [parent_of] is the part that [do_mknod], [do_mkdir], [do_rmdir] and
    [do_stat] share: the parent directory, or the error to return. *)

Definition path_len (p : option path) : M Z := p <- kderef p ;; kderef (strlen (pa_str p)).

Definition parent_of (p : option path) : M (Z + parent_dir) :=
  r <- dir_namev p None ;;
  if fst r <? 0 then kret (inl (fst r))
  else
    d <- kderef (snd r) ;;
    let '(vn, k, len) := d in
    p <- kderef p ;;
    n <- kderef (strlen (at_ p k)) ;;
    if NAME_LEN <? n then fs_op (vput vn) ;;; kret (inl (- ENAMETOOLONG))
    else
      mode <- mode_of_vnode vn ;;
      if negb (S_ISDIR mode) then fs_op (vput vn) ;;; kret (inl (- ENOTDIR))
      else kret (inr d).

(** [lookup] of the last component, which must not exist: on success both vnodes
    are put.  ([mkdir], [mknod], [link]) *)
Definition name_at (p : option path) (k : nat) : M (list Z) := p <- kderef p ;; kret (at_ p k).

Definition do_mknod (p : option path) (mode devid : Z) : M Z :=
  n <- path_len p ;;
  if MAXPATHLEN <? n then kret (- ENAMETOOLONG)
  else if negb (mode =? S_IFCHR) && negb (mode =? S_IFBLK) then kret (- EINVAL)
  else
    d <- parent_of p ;;
    match d with
    | inl e => kret e
    | inr (vn, k, len) =>
        name <- name_at p k ;;
        r <- lookup vn name len None ;;
        if fst r =? 0 then
          fs_op (vput vn) ;;; result <- kderef (snd r) ;; fs_op (vput result) ;;; kret (- EEXIST)
        else
          fs_op (vput vn) ;;;
          via_dir vn (dir_mknod vn name len mode devid)
    end.

Definition do_mkdir (p : option path) : M Z :=
  n <- path_len p ;;
  if MAXPATHLEN <? n then kret (- ENAMETOOLONG)
  else
    d <- parent_of p ;;
    match d with
    | inl e => kret e
    | inr (vn, k, len) =>
        name <- name_at p k ;;
        r <- lookup vn name len None ;;
        if fst r =? 0 then
          fs_op (vput vn) ;;; result <- kderef (snd r) ;; fs_op (vput result) ;;; kret (- EEXIST)
        else
          i <- via_dir vn (dir_mkdir vn name len) ;;
          fs_op (vput vn) ;;;
          kret i
    end.

Definition do_rmdir (p : option path) : M Z :=
  n <- path_len p ;;
  if MAXPATHLEN <? n then kret (- ENAMETOOLONG)
  else
    d <- parent_of p ;;
    match d with
    | inl e => kret e
    | inr (vn, k, len) =>
        name <- name_at p k ;;
        a <- kderef (strcmp name [DOT; NUL]) ;;
        if a =? 0 then fs_op (vput vn) ;;; kret (- EINVAL)
        else
          b <- kderef (strcmp name [DOT; DOT; NUL]) ;;
          if b =? 0 then fs_op (vput vn) ;;; kret (- ENOTEMPTY)
          else
            r <- lookup vn name len None ;;
            if negb (fst r =? 0) then fs_op (vput vn) ;;; kret (fst r)
            else
              result <- kderef (snd r) ;;
              i <- via_dir vn (dir_rmdir vn name len) ;;
              fs_op (vput result) ;;;
              fs_op (vput vn) ;;;
              kret i
    end.

(** [do_unlink] tests the directory before the length of the name. *)
Definition do_unlink (p : option path) : M Z :=
  n <- path_len p ;;
  if MAXPATHLEN <? n then kret (- ENAMETOOLONG)
  else
    r <- dir_namev p None ;;
    if fst r <? 0 then kret (fst r)
    else
      d <- kderef (snd r) ;;
      let '(vn, k, len) := d in
      mode <- mode_of_vnode vn ;;
      if negb (S_ISDIR mode) then fs_op (vput vn) ;;; kret (- ENOTDIR)
      else
        name <- name_at p k ;;
        n <- kderef (strlen name) ;;
        if NAME_LEN <? n then fs_op (vput vn) ;;; kret (- ENAMETOOLONG)
        else
          r <- lookup vn name len None ;;
          if negb (fst r =? 0) then fs_op (vput vn) ;;; kret (fst r)
          else
            result <- kderef (snd r) ;;
            mode <- mode_of_vnode result ;;
            if S_ISDIR mode then fs_op (vput vn) ;;; fs_op (vput result) ;;; kret (- EISDIR)
            else
              i <- via_dir vn (dir_unlink vn name len) ;;
              fs_op (vput vn) ;;;
              fs_op (vput result) ;;;
              kret i.

(** [vput] of a variable that may not have been set. *)
Definition vput_var (v : option Z) : M unit := vn <- kderef v ;; fs_op (vput vn).

Definition do_link (from to : option path) : M Z :=
  a <- path_len from ;;
  b <- (if MAXPATHLEN <? a then kret 0 else path_len to) ;;
  if (MAXPATHLEN <? a) || (MAXPATHLEN <? b) then kret (- ENAMETOOLONG)
  else
    j <- open_namev from 0 None None ;;
    i <- dir_namev to None ;;
    if fst i <? 0 then
      (if 0 <? fst j then vput_var (snd j) else kret tt) ;;; kret (fst i)
    else if fst j <? 0 then
      (if 0 <? fst i then d <- kderef (snd i) ;; fs_op (vput d.1.1) else kret tt) ;;; kret (fst j)
    else
      d <- kderef (snd i) ;;
      let '(node2, k, len) := d in
      name <- name_at to k ;;
      n <- kderef (strlen name) ;;
      if NAME_LEN <? n then vput_var (snd j) ;;; fs_op (vput node2) ;;; kret (- ENAMETOOLONG)
      else
        node1 <- kderef (snd j) ;;
        mode <- mode_of_vnode node2 ;;
        if negb (S_ISDIR mode) then kret (- ENOTDIR)
        else
          r <- lookup node2 name len None ;;
          if fst r =? 0 then
            fs_op (vput node1) ;;; fs_op (vput node2) ;;; vput_var (snd r) ;;; kret (- EEXIST)
          else
            i <- via_dir node2 (dir_link node1 node2 name len) ;;
            fs_op (vput node1) ;;;
            fs_op (vput node2) ;;;
            kret i.

Definition do_rename (oldname newname : option path) : M Z :=
  match oldname, newname with
  | Some _, Some _ =>
      i <- do_link oldname newname ;;
      if i <? 0 then kret i
      else
        r <- dir_namev oldname None ;;
        if fst r <? 0 then vput_var None ;;; kret (fst r)
        else
          d <- kderef (snd r) ;;
          let '(node2, k, len) := d in
          name <- name_at oldname k ;;
          l <- lookup node2 name len None ;;
          j <- (if fst l =? 0 then
                  result <- kderef (snd l) ;;
                  fs_op (vput result) ;;;
                  mode <- mode_of_vnode result ;;
                  if negb (S_ISDIR mode) then do_unlink oldname else do_rmdir oldname
                else kret (fst l)) ;;
          fs_op (vput node2) ;;;
          kret j
  | _, _ => kret (- EINVAL)
  end.

Definition do_chdir (p : option path) : M Z :=
  n <- path_len p ;;
  if MAXPATHLEN <? n then kret (- ENAMETOOLONG)
  else
    r <- open_namev p 0 None None ;;
    if fst r <? 0 then kret (fst r)
    else
      vn <- kderef (snd r) ;;
      mode <- mode_of_vnode vn ;;
      if negb (S_ISDIR mode) then fs_op (vput vn) ;;; kret (- ENOTDIR)
      else
        s <- kget ;;
        vput_var (p_cwd s) ;;;
        kmodify (set_cwd (Some vn)) ;;;
        kret 0.

(** The [struct stat] filled in comes with the result; [buf] is not [NULL]. *)
Definition do_stat (p : option path) : M (Z * option stat) :=
  n <- path_len p ;;
  if MAXPATHLEN <? n then kret (- ENAMETOOLONG, None)
  else
    d <- parent_of p ;;
    match d with
    | inl e => kret (e, None)
    | inr (vn, k, len) =>
        name <- name_at p k ;;
        r <- lookup vn name len None ;;
        if negb (fst r =? 0) then fs_op (vput vn) ;;; kret (fst r, None)
        else
          result <- kderef (snd r) ;;
          i <- via_dir vn (vnode_stat result) ;;
          fs_op (vput vn) ;;;
          fs_op (vput result) ;;;
          kret (fst i, Some (snd i))
    end.

(** ** The process's side: starting and exiting *)

(** [curproc->p_cwd = vfs_root_vn; vref(vfs_root_vn)], in [kmain.c] *)
Definition enter_root : M unit :=
  s <- kget ;;
  kmodify (set_cwd (vfs_root_vn s)) ;;;
  r <- kderef (vfs_root_vn s) ;;
  fs_op (vref r).

(** The part of [proc_cleanup] that gives up the working directory and closes all
    files. *)
Fixpoint close_from (n : nat) (i : Z) : M unit :=
  match n with
  | O => kret tt
  | S n =>
      s <- kget ;;
      (if bool_decide (is_Some (fd_file s i)) then fd <- do_close i ;; kassert (negb (fd =? -1)) else kret tt) ;;;
      close_from n (i + 1)
  end.
Definition release_files : M unit :=
  s <- kget ;;
  (match p_cwd s with Some c => fs_op (vput c) | None => kret tt end) ;;;
  close_from (Z.to_nat NFILES) 0.

(** ** Mounting and unmounting the root ([fs/vfs.c]) *)

Definition vfs_init : M unit :=
  fs <- fs_op mem_alloc ;;
  kassert (bool_decide (is_Some fs)) ;;;
  err <- fs_op mountfunc ;;
  if err <? 0 then kpanic
  else s <- kget ;; kmodify (set_root_vn (fs_root (vfs_fs s))).

Definition vfs_shutdown : M Z :=
  s <- kget ;;
  kderef (vfs_root_vn s) ;;;
  used <- fs_op vfs_is_in_use ;;
  if used <? 0 then kpanic
  else
    ret <- fs_op umount ;;
    n <- fs_op vnode_inuse ;;
    kassert (n =? 0) ;;;
    kmodify (set_root_vn None) ;;;
    kret ret.

End vfs.

End Vfs.
