(* ===== verification/VfsName.v ===== *)
(** * Resolving path names ([fs/namev.c]) over the RAM file system

    References to vnodes are counted exactly: [rc] is the reference count of a vnode
    (0 when it is not in core), and the lemmas say by how much an operation changes
    it.  [same_tree] relates states with the same files and directories. *)

From S2P Require Import Prelude KString Vnode Ramfs RamfsInv RamfsDir RamfsOps Vfs.

Module VfsName.
Import KString Vnode Ramfs RamfsInv RamfsDir RamfsOps Vfs.

Local Open Scope Z_scope.

Section counts.
Context `{Platform ramfs}.

(** ** The same files and directories *)

Record same_tree (t t' : fsys ramfs) : Prop := {
  tree_slots : rfs_inodes (fs_i t') = rfs_inodes (fs_i t);
  tree_inodes : forall p, with_links 0 <$> inodes (fs_i t') !! p = with_links 0 <$> inodes (fs_i t) !! p;
  tree_root : fs_root t' = fs_root t
}.

#[export] Instance same_tree_equiv : Equivalence same_tree.
Proof.
  split.
  - intros t. by split.
  - intros t t' [A1 A2 A3]. by split.
  - intros t1 t2 t3 [A1 A2 A3] [B1 B2 B3]. split; congruence.
Qed.

(** A vnode that is still in core has changed its reference count at most. *)
Definition same_vnode (t t' : fsys ramfs) (w : Z) : Prop :=
  forall x, vnodes t !! w = Some x -> 0 < rc t' w -> exists c, vnodes t' !! w = Some (with_refcount c x).

(** Every vnode that was in core still is, with its reference count changed at most. *)
Definition keeps_core (t t' : fsys ramfs) : Prop :=
  forall w x, vnodes t !! w = Some x -> exists c, vnodes t' !! w = Some (with_refcount c x).

Lemma keeps_core_trans t1 t2 t3 : keeps_core t1 t2 -> (forall w, same_vnode t2 t3 w) -> (forall w, 0 < rc t1 w -> 0 < rc t3 w) -> inv none t1 ->
  keeps_core t1 t3.
Proof.
  intros K12 K23 Hr HI w x Hx. destruct (K12 w x Hx) as [c Hc]. destruct (K23 w _ Hc) as [c' Hc']; [|by exists c'].
  apply Hr. destruct (rc_pos none t1 w x HI Hx). lia.
Qed.

Lemma got_tree X i t vn t' : inv X t -> got i t vn t' -> same_tree t t' /\ (forall w, same_vnode t t' w).
Proof.
  intros HI Hg. pose proof (got_keeps X i t vn t' HI Hg) as [K1 K2 K3 K4 _]. split; [done|].
  intros w x Hx _. destruct (K3 w x Hx) as (c & Hc & _). by exists c.
Qed.

(** Putting a vnode that stays, or whose file has another link, changes no file. *)
Lemma put_tree X t vn t' v nd p : inv X t -> put vn t t' -> vnodes t !! vn = Some v -> vn_i v = Some p ->
  inodes (fs_i t) !! p = Some nd -> 1 < vn_refcount v \/ 1 < rf_linkcount nd -> same_tree t t'.
Proof.
  intros HI (v' & p' & nd' & Hv & Hi & Hp & ->) Hv0 Hi0 Hp0 Hstay.
  assert (v' = v) as -> by congruence. assert (p' = p) as -> by congruence. assert (nd' = nd) as -> by congruence.
  destruct (Z.eqb_spec (vn_refcount v) 1) as [E|E]; [|done].
  unfold gone. rewrite (proj2 (Z.eqb_neq (rf_linkcount nd) 1)) by lia. split; cbn; [done| |done].
  intros q. destruct (decide (q = p)) as [->|Hne]; [by rewrite lookup_insert_eq, Hp|by rewrite lookup_insert_ne].
Qed.

Lemma put_vnode t vn t' w : put vn t t' -> same_vnode t t' w.
Proof.
  intros (v & p & nd & Hv & Hi & Hp & ->) x Hx Hrc. unfold rc in Hrc.
  destruct (vn_refcount v =? 1); [unfold gone in *; destruct (rf_linkcount nd =? 1)|]; cbn in *;
    (destruct (decide (w = vn)) as [->|Hne];
      [try (rewrite lookup_delete_eq in Hrc; lia)|rewrite ?lookup_delete_ne, ?lookup_insert_ne by done]);
    try (exists (vn_refcount x); by rewrite with_refcount_id).
  eexists. rewrite lookup_insert_eq. by simplify_eq.
Qed.

(** A directory entry names inode [i]. *)
Definition linked (t : fsys ramfs) (i : Z) : Prop :=
  exists p nd l e, inodes (fs_i t) !! p = Some nd /\ rf_mem nd = Dents l /\ e ∈ l /\ counted i e.

Lemma tree_inode t t' p nd : same_tree t t' -> inodes (fs_i t) !! p = Some nd ->
  exists c, inodes (fs_i t') !! p = Some (with_links c nd).
Proof.
  intros [_ K _] Hp. specialize (K p). rewrite Hp in K. destruct (inodes (fs_i t') !! p) as [nd'|]; [|done].
  exists (rf_linkcount nd'). f_equal. injection K as E1 E2 E3 E4. destruct nd, nd'. cbn in *. by subst.
Qed.

Lemma linked_tree t t' i : same_tree t t' -> linked t i -> linked t' i.
Proof.
  intros HT (p & nd & l & e & Hp & Hm & He & Hc). destruct (tree_inode t t' p nd HT Hp) as [c Hp'].
  by exists p, (with_links c nd), l, e.
Qed.

Lemma linked_twice t i vn v q a : inv none t -> linked t i -> vnodes t !! vn = Some v -> vn_vno v = i ->
  inodes (fs_i t) !! q = Some a -> rf_ino a = i -> 1 < rf_linkcount a.
Proof.
  intros HI (p & nd & l & e & Hp & Hm & He & Hn & Hd & Ei) Hv Ev Hq Ea.
  destruct (inv_links none t HI q a Hq) as [E _]. unfold nlinks, none, attached in E.
  pose proof (msum_member (incore (rf_ino a)) (vnodes t) vn v ltac:(intros; apply incore_range) Hv) as Hc.
  unfold incore in Hc at 1. rewrite Ev, Ea, Z.eqb_refl in Hc.
  pose proof (msum_member (refs i) (inodes (fs_i t)) p nd
                ltac:(intros x y Hx; apply refs_range; by apply (inv_inode none t HI x)) Hp) as Hr.
  apply list_elem_of_lookup in He as [k He]. pose proof (refs_pos nd l k e Hm He Hn Hd) as Hr'. rewrite Ei in Hr'.
  rewrite Ea in E. destruct (i =? 0); lia.
Qed.

(** [vput] of a vnode that is held elsewhere or whose file is linked. *)
Lemma run_vput_tree t vn v : inv none t -> vnodes t !! vn = Some v -> calm t ->
  1 < vn_refcount v \/ linked t (vn_vno v) ->
  runs (vput vn) t (fun _ t' => inv none t' /\ same_tree t t' /\ (forall w, rc t' w = rc t w - one vn w)
    /\ (forall w, same_vnode t t' w) /\ fs_budget t' = fs_budget t /\ fs_next t' = fs_next t).
Proof.
  intros HI Hv Hcalm Hstay. pose proof (Hcalm vn v Hv).
  eapply runs_mono; [apply (run_vput none t vn v HI Hv); lia|]. intros [] t' Hput.
  destruct (inv_vnode none t HI vn v Hv) as [_ _ _ _ (p & nd & Hi & Hp & Ei & _)].
  split; [by eapply put_inv|]. split; [|split; [by eapply put_rc|split; [intros w; by eapply put_vnode|]]].
  - eapply put_tree; try done. destruct Hstay as [?|Hl]; [by left|right]. by eapply linked_twice.
  - destruct Hput as (v' & p' & nd' & _ & _ & _ & ->). unfold gone.
    destruct (vn_refcount v' =? 1); [|done]. by destruct (rf_linkcount nd' =? 1).
Qed.

Lemma run_vref t vn v : inv none t -> vnodes t !! vn = Some v -> vn_refcount v < 2 ^ 31 - 1 ->
  runs (vref vn) t (fun _ t' => inv none t' /\ same_tree t t' /\ (forall w, rc t' w = rc t w + one vn w)
    /\ (forall w, same_vnode t t' w) /\ fs_budget t' = fs_budget t /\ fs_next t' = fs_next t).
Proof.
  intros HI Hv Hsmall. destruct (inv_vnode none t HI vn v Hv) as [B R N P Q]. unfold vref. run.
  apply runs_assert; [apply Z.ltb_lt; lia|]. run. rewrite s32_small by lia.
  split; [apply (inv_replace_vnode none t HI vn v); [done|done|split; try done; cbn; lia]|]. split; [done|].
  split; [|split; [|done]].
  - intros w. unfold rc, one. cbn.
    destruct (Z.eqb_spec w vn) as [->|Hne]; [by rewrite lookup_insert_eq, Hv|rewrite lookup_insert_ne by done; lia].
  - intros w x Hx _. cbn. destruct (decide (w = vn)) as [->|Hne].
    + rewrite lookup_insert_eq. simplify_eq. by eexists.
    + rewrite lookup_insert_ne by done. exists (vn_refcount x). by rewrite with_refcount_id.
Qed.

(** ** Running the layers below in the larger state *)

(** Two operations whose joint specification is known, in front of others. *)
Lemma runs_then {S A B} (m : kernel S A) (n : A -> kernel S unit) (K : A -> kernel S B) s Q (R : A -> S -> Prop) :
  runs (r <- m ;; n r ;;; kret r)%kernel s R -> (forall r s', R r s' -> runs (K r) s' Q) ->
  runs (r <- m ;; n r ;;; K r)%kernel s Q.
Proof.
  intros (a & s' & E & HR) HK. unfold kbind in E. destruct (m s) as [r t| | |] eqn:Em; cbn in E; try done.
  destruct (n r t) as [u t'| | |] eqn:En; cbn in E; try done. injection E as <- <-.
  destruct (HK r t' HR) as (b & s2 & E2 & HQ). exists b, s2. unfold kbind. rewrite Em. cbn. by rewrite En.
Qed.

Lemma runs_fs {A} (m : kernel (fsys ramfs) A) s (Q : A -> vfs ramfs -> Prop) :
  runs m (vfs_fs s) (fun a t => Q a (set_fs t s)) -> runs (fs_op m) s Q.
Proof. intros (a & t & E & HQ). exists a, (set_fs t s). unfold fs_op. by rewrite E. Qed.

Lemma run_mode (s : vfs ramfs) vn v (Q : Z -> vfs ramfs -> Prop) : vnodes (vfs_fs s) !! vn = Some v -> Q (vn_mode v) s -> runs (mode_of_vnode vn) s Q.
Proof.
  intros Hv HQ. unfold mode_of_vnode. apply runs_bind, runs_fs, (runs_get_vnode vn v); [done|]. go. by destruct s.
Qed.

(** ** Directories *)

(** The entries of the directory with inode number [ino], if it is one. *)
Definition entries (r : ramfs) (ino : Z) : option (list dirent) :=
  p ← rfs_inodes r !! ino; nd ← inodes r !! p; mem_dents (rf_mem nd).

(** The reference resolution of a path prefix: the inode reached, or the error. *)
Fixpoint resolve (r : ramfs) (ino : Z) (cs : list (list Z)) : Z + Z :=
  match entries r ino with
  | None => inl (- ENOTDIR)
  | Some l =>
      match cs with
      | [] => inr ino
      | c :: cs => match dir_find l c with Some i => resolve r i cs | None => inl (- ENOENT) end
      end
  end.

Lemma resolve_error r cs : forall i e, resolve r i cs = inl e -> e < 0.
Proof.
  induction cs as [|c cs IH]; intros i e; cbn [resolve]; (destruct (entries r i) as [es|]; [|by intros [= <-]]); [done|].
  destruct (dir_find es c); [apply IH|by intros [= <-]].
Qed.

Lemma resolve_entries r cs : forall i ino, resolve r i cs = inr ino -> exists es, entries r ino = Some es.
Proof.
  induction cs as [|c cs IH]; intros i ino; cbn [resolve]; (destruct (entries r i) as [es|] eqn:He; [|done]).
  - intros [= <-]. eauto.
  - destruct (dir_find es c); [apply IH|done].
Qed.

Lemma entries_tree t t' ino : same_tree t t' -> entries (fs_i t') ino = entries (fs_i t) ino.
Proof.
  intros [K1 K2 _]. unfold entries. rewrite K1. destruct (rfs_inodes (fs_i t) !! ino) as [p|]; [|done]. cbn.
  specialize (K2 p). destruct (inodes (fs_i t') !! p) as [a|], (inodes (fs_i t) !! p) as [b|]; try done.
  injection K2 as E1 E2 E3 E4. cbn. by rewrite E3.
Qed.

(** A vnode in core: its mode and its directory entries agree. *)
Lemma vnode_entries X t vn v : inv X t -> vnodes t !! vn = Some v ->
  match entries (fs_i t) (vn_vno v) with
  | Some l => (exists p nd, is_dir t vn v p nd l) /\ vn_mode v = S_IFDIR /\ vn_ops v = Some fs_dir_vops
  | None => S_ISDIR (vn_mode v) = false
  end.
Proof.
  intros HI Hv. destruct (inv_vnode X t HI vn v Hv) as [_ _ _ _ (p & nd & Hi & Hp & Ei & Hm & Ho & _)].
  unfold entries. rewrite (proj2 (inv_slot X t HI (vn_vno v) p)) by eauto. cbn. rewrite Hp. cbn.
  unfold mode_of in Hm. unfold ops_of in Ho. destruct (rf_mem nd) as [b|l|d] eqn:E; cbn.
  - by rewrite Hm.
  - split; [|done]. exists p, nd. by split.
  - rewrite Hm. by destruct (rf_mode nd =? RAMFS_TYPE_CHR).
Qed.

Lemma dir_find_linked t ino l c i : entries (fs_i t) ino = Some l -> dir_find l c = Some i -> c <> [] -> c ∉ dots -> linked t i.
Proof.
  unfold entries. intros He Hf Hc Hd. destruct (rfs_inodes (fs_i t) !! ino) as [p|]; [|done]. cbn in He.
  destruct (inodes (fs_i t) !! p) as [nd|] eqn:Hp; [|done]. cbn in He. destruct (rf_mem nd) as [|l'|] eqn:Hm; try done.
  injection He as ->. apply dir_find_entry in Hf as (k & e & _ & Ei & Hk & Hn). exists p, nd, l, e.
  split; [done|]. split; [done|]. split; [by eapply list_elem_of_lookup_2|].
  split; [unfold named; by rewrite Hn|]. split; [by rewrite Hn|done].
Qed.

Lemma linked_slot X t i : inv X t -> linked t i -> is_Some (rfs_inodes (fs_i t) !! i).
Proof. intros HI (p & nd & l & e & Hp & Hm & He & Hc). pose proof Hc as (_ & _ & <-). by apply (inv_entry X t HI p nd l e). Qed.

(** [lookup] of a component that is not the whole rest of the path. *)
Lemma run_lookup (s : vfs ramfs) dir v name n nm l temp u :
  inv none (vfs_fs s) -> vnodes (vfs_fs s) !! dir = Some v -> entries (fs_i (vfs_fs s)) (vn_vno v) = Some l ->
  is_name name n nm -> nm ∉ dots -> is_str name u -> u ∉ dots -> calm (vfs_fs s) -> (0 < fs_budget (vfs_fs s))%nat ->
  runs (lookup dir name n temp) s (fun r s' =>
    match dir_find l nm with
    | Some i => exists vn t', r = (0, Some vn) /\ s' = set_fs t' s /\ got i (vfs_fs s) vn t'
    | None => r = (- ENOENT, temp) /\ s' = s
    end).
Proof.
  intros HI Hv He Hn Hd Hu Hud Hcalm Hb. pose proof (vnode_entries none _ _ _ HI Hv) as Hk. rewrite He in Hk.
  destruct Hk as ((p & nd & HD) & Hmode & Hops). pose proof (name_nonempty _ _ _ Hn) as Hne.
  unfold lookup. apply runs_bind, runs_fs, (runs_get_vnode dir v); [done|]. rewrite Hmode, Hops.
  change (negb (S_IFDIR =? S_IFDIR)) with false. cbv iota.
  replace (set_fs (vfs_fs s) s) with s by (by destruct s). apply runs_bind, (runs_deref _ fs_dir_vops); [done|]. cbv iota.
  assert (Hch : Forall is_char u).
  { destruct Hu as [(rest & E) _]. pose proof (name_chars _ _ _ Hn) as Hc. rewrite E in Hc. by apply Forall_app in Hc as [Hc _]. }
  assert (H1 : is_str [DOT; NUL] [DOT]) by (apply (is_str_app [DOT] []); set_solver).
  assert (H2 : is_str [DOT; DOT; NUL] [DOT; DOT]) by (apply (is_str_app [DOT; DOT] []); set_solver).
  destruct (strcmp_zero _ _ _ _ Hu H1 Hch ltac:(repeat constructor; done)) as (r1 & -> & Hr1).
  destruct (strcmp_zero _ _ _ _ Hu H2 Hch ltac:(repeat constructor; done)) as (r2 & -> & Hr2).
  apply runs_bind, (runs_deref _ r1); [done|]. rewrite (proj2 (Z.eqb_neq r1 0)).
  2:{ intros ->. apply Hud. rewrite (proj1 Hr1 eq_refl). set_solver. }
  apply runs_bind, (runs_deref _ r2); [done|]. rewrite (proj2 (Z.eqb_neq r2 0)).
  2:{ intros ->. apply Hud. rewrite (proj1 Hr2 eq_refl). set_solver. }
  apply runs_bind, runs_fs. cbn [dir_lookup ramfs_vops].
  destruct (dir_find l nm) as [i|] eqn:Ef.
  - eapply runs_mono; [eapply run_lookup_some; try done|].
    + eapply (linked_slot none); [done|]. by eapply dir_find_linked.
    + intros r t' (vn & -> & Hg). go. eauto.
  - eapply runs_mono; [eapply run_lookup_none; try done; by apply dir_find_None|]. intros r t' [-> ->]. go. by destruct s.
Qed.

End counts.

(** ** Paths *)

(** A component: not empty, no slash, at most [NAME_LEN] characters, not "." or "..". *)
Record component (c : list Z) : Prop := {
  comp_nonempty : c <> [];
  comp_slash : SLASH ∉ c;
  comp_nul : NUL ∉ c;
  comp_length : (length c <= 28)%nat;
  comp_dots : c ∉ dots
}.

(** Components, each followed by one slash and [k] more. *)
Fixpoint render (l : list (list Z * nat)) : list Z :=
  match l with
  | [] => []
  | (c, k) :: l => c ++ repeat SLASH (S k) ++ render l
  end.

Lemma skip_slashes_spec k s c rest : s = c :: rest -> c <> SLASH -> skip_slashes (repeat SLASH k ++ s) = Some k.
Proof.
  intros -> Hc. induction k as [|k IH]; cbn.
  - by rewrite (proj2 (Z.eqb_neq c SLASH)).
  - by rewrite IH.
Qed.

Lemma render_head l rest : Forall (fun x => component x.1) l ->
  exists c r, render l ++ NUL :: rest = c :: r /\ c <> SLASH /\ (c = NUL <-> l = []).
Proof.
  intros Hl. destruct l as [|[c k] l]; [by exists NUL, rest|]. apply Forall_cons in Hl as [[Hne Hs Hz _ _] _]. cbn in *.
  destruct c as [|x c]; [done|]. exists x, (c ++ repeat SLASH (S k) ++ render l ++ NUL :: rest).
  cbn. rewrite <- !app_assoc. cbn. rewrite <- !app_assoc. split; [done|]. split; [set_solver|]. split; [set_solver|done].
Qed.

Lemma render_nul l : Forall (fun x => component x.1) l -> NUL ∉ render l.
Proof.
  induction 1 as [|[c k] l [Hne Hs Hz _ _] _ IH]; cbn; [set_solver|]. cbn in Hz.
  assert (Hr : NUL ∉ repeat SLASH k). { intros Hin. by apply list_elem_of_In, repeat_spec in Hin. }
  rewrite elem_of_app, elem_of_cons, elem_of_app. naive_solver.
Qed.

Lemma dots_slash : Forall (fun d => SLASH ∉ d) dots.
Proof. apply (bool_decide_unpack _). vm_compute. exact I. Qed.

Lemma slash_not_dots u : SLASH ∈ u -> u ∉ dots.
Proof. intros Hin Hd. pose proof dots_slash as Hds. rewrite Forall_forall in Hds. by apply (Hds _ Hd). Qed.

(** The pointer [parent] is at a component that [k + 1] slashes follow, and then
    the character [x] at the pointer [child]; [u] is the string from [parent] on. *)
Record at_component (p : path) (parent : nat) (c : list Z) (k : nat) (x : Z) (r u : list Z) : Prop := {
  ac_at : at_ p parent = c ++ repeat SLASH (S k) ++ x :: r;
  ac_comp : component c;
  ac_next : x <> SLASH;
  ac_str : is_str (at_ p parent) u;
  ac_slash : SLASH ∈ u
}.

Lemma scan_component p parent c k x r u : Forall is_char (pa_str p) -> at_component p parent c k x r u ->
  strchr (at_ p parent) SLASH = Some (Some (length c))
  /\ skip_slashes (at_ p (parent + length c)) = Some (S k)
  /\ at_ p (parent + length c + S k) = x :: r
  /\ pa_str p !! (parent + length c + S k)%nat = Some x
  /\ is_name (at_ p parent) (Z.of_nat (length c)) c.
Proof.
  intros Hch [E [Hne Hs Hz Hlen Hd] Hx _ _].
  assert (Hdrop : forall n, at_ p (parent + n) = drop n (at_ p parent)) by (intros n; unfold at_; by rewrite drop_drop).
  assert (Hnext : at_ p (parent + length c + S k) = x :: r).
  { rewrite <- Nat.add_assoc, Hdrop, <- drop_drop, E, drop_app_length. by rewrite drop_app_length' by (by rewrite repeat_length). }
  split; [|split; [|split; [done|split]]].
  - rewrite E. by apply (strchr_spec _ c (repeat SLASH k ++ x :: r)).
  - rewrite Hdrop, E, drop_app_length. by eapply skip_slashes_spec.
  - replace (parent + length c + S k)%nat with (parent + length c + S k + 0)%nat by lia.
    rewrite <- lookup_drop. unfold at_ in Hnext. by rewrite Hnext.
  - split; try done; [by rewrite E, take_app_length|by apply Forall_drop].
Qed.

Lemma at_render p parent c k l rest x r : at_ p parent = render ((c, k) :: l) ++ NUL :: rest ->
  Forall (fun y => component y.1) ((c, k) :: l) -> render l ++ NUL :: rest = x :: r -> x <> SLASH ->
  at_component p parent c k x r (render ((c, k) :: l)).
Proof.
  intros Hat Hcomp Hx Hxs. pose proof (render_nul _ Hcomp) as Hnul. apply Forall_cons in Hcomp as [Hc Hl]. split; try done.
  - rewrite Hat, <- Hx. cbn. rewrite <- !app_assoc. cbn. by rewrite <- !app_assoc.
  - rewrite Hat. by apply is_str_app.
  - cbn. set_solver.
Qed.

(** What a successful [dir_namev] hands back: the directory [dir], held once more
    than before, and the last component; the vnodes in core remain. *)
Record found_parent (p : path) (t t' : fsys ramfs) (ino : Z) (last : list Z) (d : parent_dir) : Prop := {
  fp_dir : exists v, vnodes t' !! d.1.1 = Some v /\ vn_vno v = ino;
  fp_refs : forall w, rc t' w = rc t w + one d.1.1 w;
  fp_name : is_name (at_ p d.1.2) d.2 last;
  fp_rest : exists k rest, at_ p d.1.2 = last ++ repeat SLASH (S k) ++ NUL :: rest;
  fp_core : keeps_core t t'
}.

Definition namev_post (p : path) (s : vfs ramfs) (t : fsys ramfs) (ino : Z) (names : list (list Z)) (last : list Z)
    (n : nat) (r : Z * option parent_dir) (s' : vfs ramfs) : Prop :=
  exists t', s' = set_fs t' s /\ inv none t' /\ same_tree t t' /\ (fs_budget (vfs_fs s) <= fs_budget t' + n)%nat
    /\ fs_next (vfs_fs s) <= fs_next t'
    /\ match resolve (fs_i t) ino names with
       | inl e => r = (e, None) /\ forall w, rc t' w = rc t w
       | inr i => exists d, r = (0, Some d) /\ found_parent p t t' i last d
       end.

Section walk.
Context `{Platform ramfs} (p : path) (rest : list Z) (t0 : fsys ramfs).
Hypothesis Hchars : Forall is_char (pa_str p).
Hypothesis HI0 : inv none t0.
Hypothesis Hfew : forall w, rc t0 w < 2 ^ 29.

(** The vnode [ptr] of inode [ino] is held once more than in [t0]. *)
Record walking (s : vfs ramfs) (ptr ino : Z) : Prop := {
  wk_inv : inv none (vfs_fs s);
  wk_tree : same_tree t0 (vfs_fs s);
  wk_refs : forall w, rc (vfs_fs s) w = rc t0 w + one ptr w;
  wk_vnode : exists v, vnodes (vfs_fs s) !! ptr = Some v /\ vn_vno v = ino;
  wk_stays : 0 < rc t0 ptr \/ linked t0 ino;
  wk_core : keeps_core t0 (vfs_fs s)
}.

Lemma walking_calm s ptr ino : walking s ptr ino -> calm (vfs_fs s).
Proof.
  intros [_ _ Hr _ _ _] vn v Hv. specialize (Hr vn). unfold rc in Hr at 1. rewrite Hv in Hr.
  pose proof (Hfew vn). pose proof (one_range ptr vn). lia.
Qed.

(** Letting go of it. *)
Lemma walking_put s ptr ino n : walking s ptr ino ->
  runs (fs_op (vput ptr)) s (fun _ s' => exists t', s' = set_fs t' s /\ inv none t' /\ same_tree t0 t'
    /\ (fs_budget (vfs_fs s) <= fs_budget t' + n)%nat /\ fs_next (vfs_fs s) <= fs_next t' /\ forall w, rc t' w = rc t0 w).
Proof.
  intros HW. pose proof (walking_calm s ptr ino HW) as Hcalm. destruct HW as [HI HT Hr (v & Hv & Ev) Hst Hcore].
  apply runs_fs. eapply runs_mono; [apply (run_vput_tree _ ptr v); try done|].
  - destruct Hst as [Hst|Hst]; [left|right; rewrite Ev; by eapply linked_tree].
    specialize (Hr ptr). rewrite one_eq in Hr. unfold rc in Hr at 1. rewrite Hv in Hr. lia.
  - intros [] t' (HI' & HT' & Hr' & _ & Hb & Hn). exists t'. split; [done|]. split; [done|]. split; [by etrans|].
    split; [lia|]. split; [lia|]. intros w. rewrite Hr', Hr. lia.
Qed.

(** Going down to an entry of the directory. *)
Lemma walking_down s ptr ino l c i name n u temp :
  walking s ptr ino -> entries (fs_i t0) ino = Some l -> is_name name n c -> component c -> is_str name u -> u ∉ dots ->
  dir_find l c = Some i -> (0 < fs_budget (vfs_fs s))%nat ->
  runs (r <- lookup ptr name n temp ;; fs_op (vput ptr) ;;; kret r)%kernel s (fun r s' =>
    exists vn t', r = (0, Some vn) /\ s' = set_fs t' s /\ walking s' vn i
      /\ (fs_budget (vfs_fs s) <= S (fs_budget t'))%nat /\ fs_next (vfs_fs s) <= fs_next t').
Proof.
  intros HW He Hn [Hne _ _ _ Hd] Hu Hud Hf Hb. pose proof (walking_calm s ptr ino HW) as Hcalm.
  pose proof HW as [HI HT Hr (v & Hv & Ev) Hst Hcore].
  assert (He' : entries (fs_i (vfs_fs s)) (vn_vno v) = Some l) by (by rewrite Ev, (entries_tree t0)).
  assert (Hli : linked t0 i) by (by eapply dir_find_linked).
  apply runs_bind. eapply runs_mono; [by eapply run_lookup|]. rewrite Hf. intros r s1 (vn & t1 & -> & -> & Hg).
  destruct (got_tree none _ _ _ _ HI Hg) as [HT1 Hsame]. pose proof (got_rc none _ _ _ _ HI Hg) as Hr1.
  assert (HI1 : inv none t1) by (by eapply got_inv).
  destruct (got_vnode none _ _ _ _ HI Hg) as (v1 & _ & _ & Hv1 & Ev1 & _).
  pose proof (got_keeps none _ _ _ _ HI Hg) as [_ _ _ _ Hb1]. pose proof (got_next _ _ _ _ Hg) as Hn1.
  assert (Hp1 : exists c1, vnodes t1 !! ptr = Some (with_refcount c1 v)).
  { apply Hsame; [done|]. rewrite Hr1. destruct (rc_pos none _ ptr v HI Hv) as [_ Hpos]. pose proof (one_range vn ptr). lia. }
  destruct Hp1 as [c1 Hp1].
  assert (Hc1 : c1 = rc (vfs_fs s) ptr + one vn ptr) by (rewrite <- Hr1; unfold rc; by rewrite Hp1).
  apply runs_bind, runs_fs. cbn [vfs_fs set_fs]. eapply runs_mono; [apply (run_vput_tree t1 ptr _ HI1 Hp1)|].
  - intros w x Hw. assert (Hx : rc t1 w = vn_refcount x) by (unfold rc; by rewrite Hw). rewrite <- Hx, Hr1, Hr.
    pose proof (Hfew w). pose proof (one_range vn w). pose proof (one_range ptr w). lia.
  - cbn [vn_refcount vn_vno with_refcount]. destruct Hst as [Hst|Hst].
    + left. rewrite Hc1, Hr, one_eq. pose proof (one_range vn ptr). lia.
    + right. rewrite Ev. eapply linked_tree; [|done]. by etrans.
  - intros [] t2 (HI2 & HT2 & Hr2 & Hsame2 & Hb2 & Hn2). go. exists vn, t2. split; [done|]. split; [done|]. split.
    + split; cbn [vfs_fs set_fs]; [done|by do 2 (etrans; [done|])| | |by right|].
      * intros w. rewrite Hr2, Hr1, Hr. lia.
      * destruct (Hsame2 vn v1 Hv1) as [c2 Hc2]; [|by exists (with_refcount c2 v1)].
        rewrite Hr2, Hr1, Hr, one_eq. pose proof (one_range ptr vn). pose proof (rc_nonneg none t0 vn HI0). lia.
      * apply (keeps_core_trans t0 t1); [apply (keeps_core_trans t0 (vfs_fs s)); try done| |intros w; rewrite Hr2, Hr1, Hr; pose proof (one_range vn w); lia|done].
        -- intros w. rewrite Hr1, Hr. pose proof (one_range vn w). pose proof (one_range ptr w). lia.
        -- done.
    + lia.
Qed.

Lemma walking_miss s ptr ino l c name n u temp :
  walking s ptr ino -> entries (fs_i t0) ino = Some l -> is_name name n c -> component c -> is_str name u -> u ∉ dots ->
  dir_find l c = None -> (0 < fs_budget (vfs_fs s))%nat ->
  runs (r <- lookup ptr name n temp ;; fs_op (vput ptr) ;;; kret r)%kernel s (fun r s' =>
    exists t', r = (- ENOENT, temp) /\ s' = set_fs t' s /\ inv none t' /\ same_tree t0 t'
    /\ (fs_budget (vfs_fs s) <= fs_budget t')%nat /\ fs_next (vfs_fs s) <= fs_next t' /\ forall w, rc t' w = rc t0 w).
Proof.
  intros HW He Hn [Hne _ _ _ Hd] Hu Hud Hf Hb. pose proof (walking_calm s ptr ino HW) as Hcalm.
  pose proof HW as [HI HT Hr (v & Hv & Ev) Hst Hcore].
  assert (He' : entries (fs_i (vfs_fs s)) (vn_vno v) = Some l) by (by rewrite Ev, (entries_tree t0)).
  apply runs_bind. eapply runs_mono; [by eapply run_lookup|]. rewrite Hf. intros r s1 [-> ->].
  apply runs_bind. eapply runs_mono; [by apply (walking_put s ptr ino 0)|].
  intros [] s' (t' & -> & HI' & HT' & Hb' & Hn' & Hr'). go. exists t'.
  split; [done|]. split; [done|]. split; [done|]. split; [done|]. split; [lia|]. done.
Qed.

(** One turn of the loop, when it goes on: the outcomes of its three exits. *)
Lemma namev_step s ptr ino parent temp fuel c k x r u Q :
  walking s ptr ino -> at_component p parent c k x r u -> x <> NUL -> (0 < fs_budget (vfs_fs s))%nat ->
  (match entries (fs_i t0) ino with
   | None => forall t', inv none t' -> same_tree t0 t' -> (fs_budget (vfs_fs s) <= fs_budget t')%nat ->
       fs_next (vfs_fs s) <= fs_next t' -> (forall w, rc t' w = rc t0 w) -> Q (- ENOTDIR, None) (set_fs t' s)
   | Some es =>
       match dir_find es c with
       | None => forall t', inv none t' -> same_tree t0 t' -> (fs_budget (vfs_fs s) <= fs_budget t')%nat ->
           fs_next (vfs_fs s) <= fs_next t' -> (forall w, rc t' w = rc t0 w) -> Q (- ENOENT, None) (set_fs t' s)
       | Some i => forall vn t', walking (set_fs t' s) vn i -> (fs_budget (vfs_fs s) <= S (fs_budget t'))%nat ->
           fs_next (vfs_fs s) <= fs_next t' ->
           runs (namev_loop fuel p vn (parent + length c + S k) (Some vn)) (set_fs t' s) Q
       end
   end) ->
  runs (namev_loop (S fuel) p ptr parent temp) s Q.
Proof.
  intros HW Hac Hx Hb HQ. pose proof HW as [HI HT Hr (v & Hv & Ev) Hst Hcore]. cbn [namev_loop].
  destruct (scan_component _ _ _ _ _ _ _ Hchars Hac) as (Hchr & Hskip & Hnext & Hlook & Hname).
  pose proof Hac as [_ Hc _ Hstr Hsl]. pose proof Hc as [Hne _ _ Hlen _]. apply slash_not_dots in Hsl.
  pose proof (vnode_entries none _ _ _ HI Hv) as Hent. rewrite Ev, (entries_tree t0 _ ino HT) in Hent.
  apply runs_bind. eapply run_mode; [exact Hv|].
  destruct (entries (fs_i t0) ino) as [es|] eqn:He.
  2:{ rewrite Hent. cbn [negb]. apply runs_bind. eapply runs_mono; [by apply (walking_put s ptr ino 0)|].
      intros [] s' (t' & -> & HI' & HT' & Hb' & Hn' & Hr'). go. apply HQ; try done. lia. }
  destruct Hent as (_ & -> & _). change (negb (S_ISDIR S_IFDIR)) with false. cbv iota.
  rewrite Hchr. apply runs_bind, (runs_deref _ (Some (length c))); [done|]. cbv zeta. rewrite s32_small by lia.
  rewrite (proj2 (Z.ltb_ge NAME_LEN _)) by (unfold NAME_LEN; lia).
  apply runs_bind, (runs_deref _ (length c)); [done|]. rewrite Hskip. apply runs_bind, (runs_deref _ (S k)); [done|].
  rewrite Hlook. apply runs_bind, (runs_deref _ x); [done|]. rewrite u32_small by lia. rewrite (proj2 (Z.eqb_neq x NUL)) by done.
  destruct (dir_find es c) as [i|] eqn:Hf.
  - eapply runs_then; [by eapply walking_down|]. intros r' s' (vn & t' & -> & -> & HW' & Hb' & Hn').
    cbn [fst snd]. change (0 =? 0) with true. cbv iota. apply runs_bind, (runs_deref _ vn); [done|]. by apply HQ.
  - eapply runs_then; [by eapply walking_miss|]. intros r' s' (t' & -> & -> & HI' & HT' & Hb' & Hn' & Hr').
    cbn [fst snd]. change (- ENOENT =? 0) with false. cbv iota. go. by apply HQ.
Qed.

(** The last turn: nothing follows the slashes. *)
Lemma namev_last s ptr ino parent temp fuel c k r :
  walking s ptr ino -> at_component p parent c k NUL r (c ++ repeat SLASH (S k)) ->
  runs (namev_loop (S fuel) p ptr parent temp) s (namev_post p s t0 ino [] c 1).
Proof.
  intros HW Hac. pose proof HW as [HI HT Hr (v & Hv & Ev) Hst Hcore]. cbn [namev_loop].
  destruct (scan_component _ _ _ _ _ _ _ Hchars Hac) as (Hchr & Hskip & Hnext & Hlook & Hname).
  pose proof Hac as [Hat [Hne _ _ Hlen _] _ Hstr Hsl].
  pose proof (vnode_entries none _ _ _ HI Hv) as Hent. rewrite Ev, (entries_tree t0 _ ino HT) in Hent.
  apply runs_bind. eapply run_mode; [exact Hv|].
  destruct (entries (fs_i t0) ino) as [es|] eqn:He.
  2:{ rewrite Hent. cbn [negb]. apply runs_bind. eapply runs_mono; [by apply (walking_put s ptr ino 1)|].
      intros [] s' (t' & -> & HI' & HT' & Hb' & Hn' & Hr'). go. exists t'. do 5 (split; [done|]). cbn. by rewrite He. }
  destruct Hent as (_ & -> & _). change (negb (S_ISDIR S_IFDIR)) with false. cbv iota.
  rewrite Hchr. apply runs_bind, (runs_deref _ (Some (length c))); [done|]. cbv zeta. rewrite s32_small by lia.
  rewrite (proj2 (Z.ltb_ge NAME_LEN _)) by (unfold NAME_LEN; lia).
  apply runs_bind, (runs_deref _ (length c)); [done|]. rewrite Hskip. apply runs_bind, (runs_deref _ (S k)); [done|].
  rewrite Hlook. apply runs_bind, (runs_deref _ NUL); [done|]. rewrite u32_small by lia. rewrite Z.eqb_refl. go.
  exists (vfs_fs s). split; [by destruct s|]. split; [done|]. split; [done|]. split; [lia|]. split; [lia|].
  cbn. rewrite He. eexists. split; [done|]. split; cbn [fst snd]; [by exists v|done|done|by exists k, r|done].
Qed.

Lemma namev_loop_spec l : forall fuel s ptr ino parent temp,
  at_ p parent = render l ++ NUL :: rest -> l <> [] -> Forall (fun x => component x.1) l ->
  (length l <= fuel)%nat -> (length l <= fs_budget (vfs_fs s))%nat -> walking s ptr ino ->
  runs (namev_loop fuel p ptr parent temp) s
    (namev_post p s t0 ino (removelast (fst <$> l)) (List.last (fst <$> l) []) (length l)).
Proof.
  induction l as [|[c k] l IH]; intros fuel s ptr ino parent temp Hat Hl Hcomp Hfuel Hb HW; [done|].
  destruct fuel as [|fuel]; [cbn in Hfuel; lia|]. pose proof (Forall_inv_tail Hcomp) as Hcomp'.
  destruct (render_head l rest Hcomp') as (x & r & Hx & Hxs & Hxnul).
  pose proof (at_render p parent c k l rest x r Hat Hcomp Hx Hxs) as Hac.
  destruct (decide (l = [])) as [->|Hl'].
  { rewrite (proj2 Hxnul eq_refl) in Hac. apply (namev_last s ptr ino parent temp fuel c k r HW). cbn in Hac |- *. by rewrite app_nil_r in Hac. }
  assert (Hrm : removelast (fst <$> ((c, k) :: l)) = c :: removelast (fst <$> l)) by (by destruct l).
  assert (Hlast : List.last (fst <$> ((c, k) :: l)) [] = List.last (fst <$> l) []) by (by destruct l).
  rewrite Hrm, Hlast. cbn [length] in *. eapply namev_step; [done|exact Hac|tauto|lia|]. unfold namev_post. cbn [resolve].
  destruct (entries (fs_i t0) ino) as [es|] eqn:He; [destruct (dir_find es c) as [i|] eqn:Hf|].
  - intros vn t' HW' Hb' Hn'. destruct (scan_component _ _ _ _ _ _ _ Hchars Hac) as (_ & _ & Hnext & _).
    eapply runs_mono; [eapply (IH fuel _ vn i); [by rewrite Hnext, Hx|done|done|lia|cbn; lia|done]|].
    intros r2 s2 (t2 & -> & HI2 & HT2 & Hb2 & Hn2 & Hres). cbn [vfs_fs set_fs] in *. exists t2. do 3 (split; [done|]).
    split; [lia|]. split; [lia|done].
  - intros t' HI' HT' Hb' Hn' Hr'. exists t'. do 3 (split; [done|]). split; [lia|]. done.
  - intros t' HI' HT' Hb' Hn' Hr'. exists t'. do 3 (split; [done|]). split; [lia|]. done.
Qed.

(** Without a slash at the end the loop ends at the last component [e] with
    [child == NULL], whose distance from any kernel address is taken for a length. *)
Lemma namev_loop_no_slash e l : forall fuel s ptr ino parent temp,
  at_ p parent = render l ++ e ++ NUL :: rest -> Forall (fun x => component x.1) l -> component e ->
  2 ^ 31 < pa_addr p + Z.of_nat parent -> pa_addr p + Z.of_nat (length (pa_str p)) < 2 ^ 32 - 28 ->
  (length l < fuel)%nat -> (length l <= fs_budget (vfs_fs s))%nat -> walking s ptr ino ->
  runs (namev_loop fuel p ptr parent temp) s (fun r s' => exists t', s' = set_fs t' s /\ inv none t' /\ same_tree t0 t'
    /\ (forall w, rc t' w = rc t0 w)
    /\ r = (match resolve (fs_i t0) ino (fst <$> l) with inl err => err | inr _ => - ENAMETOOLONG end, None)).
Proof.
  induction l as [|[c k] l IH]; intros fuel s ptr ino parent temp Hat Hcomp He Haddr Hend Hfuel Hb HW;
    (destruct fuel as [|fuel]; [cbn in Hfuel; lia|]).
  - pose proof HW as [HI HT Hr (v & Hv & Ev) Hst Hcore]. cbn [namev_loop render app] in *.
    assert (Hlt : (parent < length (pa_str p))%nat).
    { destruct (decide (parent < length (pa_str p))%nat); [done|]. unfold at_ in Hat. rewrite drop_ge in Hat by lia.
      destruct e; done. }
    pose proof (vnode_entries none _ _ _ HI Hv) as Hent. rewrite Ev, (entries_tree t0 _ ino HT) in Hent.
    apply runs_bind. eapply run_mode; [exact Hv|]. cbn [resolve fmap list_fmap].
    destruct (entries (fs_i t0) ino) as [es|] eqn:Hes.
    + destruct Hent as (_ & -> & _). change (negb (S_ISDIR S_IFDIR)) with false. cbv iota.
      rewrite (strchr_none _ e SLASH); [|done|rewrite Hat; apply is_str_app; apply He|done|apply He].
      apply runs_bind, (runs_deref _ None); [done|]. cbv zeta.
      assert (Hs : s32 (0 - (pa_addr p + Z.of_nat parent)) = 2 ^ 32 - (pa_addr p + Z.of_nat parent)).
      { unfold s32. rewrite <- (Z_mod_plus_full _ 1). rewrite Z.mod_small by lia. lia. }
      rewrite Hs, (proj2 (Z.ltb_lt NAME_LEN _)) by (unfold NAME_LEN; lia).
      apply runs_bind. eapply runs_mono; [by apply (walking_put s ptr ino 0)|].
      intros [] s' (t' & -> & HI' & HT' & Hb' & Hn' & Hr'). go. by exists t'.
    + rewrite Hent. cbn [negb]. apply runs_bind. eapply runs_mono; [by apply (walking_put s ptr ino 0)|].
      intros [] s' (t' & -> & HI' & HT' & Hb' & Hn' & Hr'). go. by exists t'.
  - cbn [length] in *. assert (Hhead : exists x r, render l ++ e ++ NUL :: rest = x :: r /\ x <> SLASH /\ x <> NUL).
    { destruct l as [|[c' k'] l].
      - destruct e as [|x e]; [by destruct (comp_nonempty _ He)|]. exists x, (e ++ NUL :: rest). split; [done|].
        destruct He as [_ H1 H2 _ _]. set_solver.
      - destruct (render_head ((c', k') :: l) [] (Forall_inv_tail Hcomp)) as (x & r & Hx & Hxs & Hxn).
        destruct (render ((c', k') :: l)) as [|y m]; [naive_solver|]. injection Hx as -> _.
        exists x, (m ++ e ++ NUL :: rest). split; [done|]. naive_solver. }
    destruct Hhead as (x & r & Hx & Hxs & Hxn).
    assert (Hac : at_component p parent c k x r (render ((c, k) :: l) ++ e)).
    { split; [rewrite Hat, <- Hx; cbn; rewrite <- !app_assoc; cbn; by rewrite <- !app_assoc|by apply (Forall_inv Hcomp)|done| |cbn; set_solver].
      rewrite Hat, app_assoc. apply is_str_app. rewrite elem_of_app. intros [Hin|Hin]; [by apply (render_nul _ Hcomp)|by destruct He]. }
    eapply namev_step; [done|exact Hac|done|lia|]. cbn [resolve fmap list_fmap fst].
    destruct (entries (fs_i t0) ino) as [es|] eqn:Hes; [destruct (dir_find es c) as [i|] eqn:Hf|].
    + intros vn t' HW' Hb' Hn'. destruct (scan_component _ _ _ _ _ _ _ Hchars Hac) as (_ & _ & Hnext & _).
      eapply runs_mono; [eapply (IH fuel _ vn i); [by rewrite Hnext, Hx|by apply (Forall_inv_tail Hcomp)|done|lia|lia|lia|cbn; lia|done]|].
      intros r2 s2 (t2 & -> & HI2 & HT2 & Hr2 & Hres). by exists t2.
    + intros t' HI' HT' Hb' Hn' Hr'. by exists t'.
    + intros t' HI' HT' Hb' Hn' Hr'. by exists t'.
Qed.

End walk.

(** ** [dir_namev] *)

(** The string of a path: absolute or not, the components, and what follows the
    last slash. *)
Record is_path (p : path) (abs : bool) (l : list (list Z * nat)) (e : list Z) : Prop := {
  pa_string : exists rest, pa_str p = (if abs then [SLASH] else []) ++ render l ++ e ++ NUL :: rest;
  pa_chars : Forall is_char (pa_str p);
  pa_comps : Forall (fun x => component x.1) l;
  pa_end : if decide (e = []) then l <> [] else component e;
  pa_short : (length ((if abs then [SLASH] else []) ++ render l ++ e) <= 1024)%nat
}.

Lemma length_render l : Forall (fun x => component x.1) l -> (length l <= length (render l))%nat.
Proof.
  induction 1 as [|[c k] l _ _ IH]; [done|]. cbn. rewrite !length_app. cbn. rewrite length_app. lia.
Qed.

Lemma path_is_str p abs l e : is_path p abs l e -> is_str (pa_str p) ((if abs then [SLASH] else []) ++ render l ++ e).
Proof.
  intros [(rest & Es) _ Hcomp Hend _]. rewrite Es. rewrite (app_assoc (render l)), (app_assoc _ (render l ++ e)). apply is_str_app.
  rewrite !elem_of_app. intros [Hin|[Hin|Hin]].
  - destruct abs; [by apply elem_of_cons in Hin as [?|?%not_elem_of_nil]|by apply not_elem_of_nil in Hin].
  - by apply (render_nul l Hcomp).
  - case_decide as Hd; [subst e; by apply not_elem_of_nil in Hin|by destruct Hend].
Qed.

Section dir_namev.
Context `{Platform ramfs} (s : vfs ramfs) (p : path) (abs : bool) (l : list (list Z * nat)) (e : list Z) (start : Z) (v : vnode).
Hypothesis Hpath : is_path p abs l e.
Hypothesis HI : inv none (vfs_fs s).
Hypothesis Hfew : forall w, rc (vfs_fs s) w < 2 ^ 29.
Hypothesis Hstart : (if abs then vfs_root_vn s else p_cwd s) = Some start.
Hypothesis Hv : vnodes (vfs_fs s) !! start = Some v.

(** What comes before the loop. *)
Lemma run_namev_start Q :
  (forall t1, walking (vfs_fs s) (set_fs t1 s) start (vn_vno v) -> fs_budget t1 = fs_budget (vfs_fs s) ->
     fs_next t1 = fs_next (vfs_fs s) ->
     runs (namev_loop (S (length (pa_str p))) p start (if abs then 1 else 0)%nat None) (set_fs t1 s) Q) ->
  runs (dir_namev (Some p) None) s Q.
Proof.
  intros HQ. destruct Hpath as [(rest & Es) Hch Hcomp Hend Hshort]. set (pre := (if abs then [SLASH] else []) ++ render l ++ e) in *.
  assert (Estr : pa_str p = pre ++ NUL :: rest) by (unfold pre; by rewrite Es, <- !app_assoc).
  assert (Hhead : exists c r, pre = c :: r /\ (c =? SLASH) = abs).
  { unfold pre. destruct abs; [by eexists _, _|]. cbn [app]. destruct l as [|[c k] l'].
    - case_decide as Hd; [done|]. destruct e as [|x e']; [done|]. exists x, e'. split; [done|].
      apply Z.eqb_neq. intros ->. by apply (comp_slash _ Hend), elem_of_cons; left.
    - destruct (render_head ((c, k) :: l') [] Hcomp) as (x & r & Hx & Hxs & Hxn).
      destruct (render ((c, k) :: l')) as [|y m]; [naive_solver|]. injection Hx as -> _. exists x, (m ++ e). split; [done|].
      by apply Z.eqb_neq. }
  destruct Hhead as (c & r & Epre & Habs).
  unfold dir_namev. go. rewrite (strlen_spec (pa_str p) pre) by (by apply path_is_str).
  apply (runs_deref _ (Z.of_nat (length pre))); [done|].
  rewrite (proj2 (Z.ltb_ge MAXPATHLEN _)) by (unfold MAXPATHLEN; lia).
  rewrite (proj2 (Z.eqb_neq (Z.of_nat (length pre)) 0)) by (rewrite Epre; cbn; lia).
  rewrite Estr at 1. rewrite Epre at 1. go. rewrite Habs.
  apply (runs_deref _ start); [by destruct abs|]. go. apply runs_fs.
  destruct (rc_pos none _ _ _ HI Hv) as [Hrc Hpos]. pose proof (Hfew start).
  eapply runs_mono; [apply (run_vref _ start v HI Hv); lia|].
  intros [] t1 (HI1 & HT1 & Hr1 & Hsame & Hb1 & Hn1). apply HQ; [|done|done].
  split; cbn [vfs_fs set_fs]; [done|done|done| |by left|].
  2:{ intros w x Hx. apply (Hsame w x Hx). rewrite Hr1. destruct (rc_pos none _ w x HI Hx). pose proof (one_range start w). lia. }
  destruct (Hsame start v Hv) as [c1 Hc1]; [rewrite Hr1, one_eq; lia|]. by exists (with_refcount c1 v).
Qed.

Lemma at_start rest : pa_str p = (if abs then [SLASH] else []) ++ render l ++ e ++ NUL :: rest ->
  at_ p (if abs then 1 else 0)%nat = render l ++ e ++ NUL :: rest.
Proof. unfold at_. intros ->. by destruct abs. Qed.

Lemma fuel_enough : (length l < S (length (pa_str p)))%nat.
Proof.
  destruct Hpath as [(rest & Es) _ Hcomp _ _]. pose proof (length_render l Hcomp). rewrite Es, !length_app. lia.
Qed.

Lemma run_dir_namev : e = [] -> (length l <= fs_budget (vfs_fs s))%nat ->
  runs (dir_namev (Some p) None) s
    (namev_post p s (vfs_fs s) (vn_vno v) (removelast (fst <$> l)) (List.last (fst <$> l) []) (length l)).
Proof.
  intros He Hb. pose proof Hpath as [(rest & Es) Hch Hcomp Hend _]. rewrite decide_True in Hend by done.
  apply run_namev_start. intros t1 HW Eb En. pose proof (at_start rest Es) as Hat. rewrite He in Hat. cbn [app] in Hat.
  pose proof fuel_enough.
  eapply runs_mono; [eapply (namev_loop_spec p rest (vfs_fs s)); [done|done|done|exact Hat|done|done|lia|cbn; lia|done]|].
  intros r s2 (t2 & -> & HI2 & HT2 & Hb2 & Hn2 & Hres). cbn [vfs_fs set_fs] in *. exists t2. do 3 (split; [done|]).
  split; [lia|]. split; [lia|done].
Qed.

Lemma run_dir_namev_no_slash : e <> [] -> (length l <= fs_budget (vfs_fs s))%nat ->
  2 ^ 31 < pa_addr p -> pa_addr p + Z.of_nat (length (pa_str p)) < 2 ^ 32 - 28 ->
  runs (dir_namev (Some p) None) s (fun r s' => exists t', s' = set_fs t' s /\ inv none t' /\ same_tree (vfs_fs s) t'
    /\ (forall w, rc t' w = rc (vfs_fs s) w)
    /\ r = (match resolve (fs_i (vfs_fs s)) (vn_vno v) (fst <$> l) with inl err => err | inr _ => - ENAMETOOLONG end, None)).
Proof.
  intros He Hb Ha1 Ha2. pose proof Hpath as [(rest & Es) Hch Hcomp Hend _]. rewrite decide_False in Hend by done.
  apply run_namev_start. intros t1 HW Eb En. pose proof (at_start rest Es) as Hat. pose proof fuel_enough.
  eapply runs_mono; [eapply (namev_loop_no_slash p rest (vfs_fs s)); [done|done|done|exact Hat|done|done|lia|lia|lia|cbn; lia|done]|].
  intros r s2 (t2 & -> & Hres). by exists t2.
Qed.

End dir_namev.

End VfsName.
