(* ===== verification/VfsFiles.v ===== *)
(** * Open files: the invariant of the descriptor table, and the calls on descriptors

    [vinv] accounts for every reference: a [file_t] has as many references as there
    are descriptors that point to it, and a vnode has one reference for every
    [file_t] that is open on it, one if it is the working directory and one if it
    is the root. *)

From S2P Require Import Prelude KString Vnode Ramfs RamfsInv RamfsDir RamfsOps RamfsFile Vfs VfsName.

Module VfsFiles.
Import KString Vnode Ramfs RamfsInv RamfsDir RamfsOps RamfsFile Vfs VfsName.

Local Open Scope Z_scope.

(** ** The invariant *)

Definition fds (f : Z) (l : list (option Z)) : Z := Z.of_nat (length (filter (fun o => o = Some f) l)).
Definition nfds (l : list (option Z)) : Z := Z.of_nat (length (filter is_Some l)).
Definition opens (vn : Z) (x : file) : Z := if decide (f_vnode x = Some vn) then 1 else 0.
Definition points (o : option Z) (vn : Z) : Z := if decide (o = Some vn) then 1 else 0.
Definition owned (cw : option Z) (s : vfs ramfs) (vn : Z) : Z := msum (opens vn) (files s) + points cw vn + points (vfs_root_vn s) vn.

Record file_ok (x : file) : Prop := {
  fok_mode : 0 <= f_mode x < 8;
  fok_pos : 0 <= f_pos x < 2 ^ 31;
  fok_refs : 0 < f_refcount x;
  fok_vnode : is_Some (f_vnode x)
}.

(** [cw] is the working directory the process holds: [p_cwd], except while it exits. *)
Record vinv_at (cw : option Z) (s : vfs ramfs) : Prop := {
  vi_fs : inv none (vfs_fs s);
  vi_len : length (p_files s) = 32%nat;
  vi_file : forall f x, files s !! f = Some x -> file_ok x /\ f_refcount x = fds f (p_files s) /\ f < fs_next (vfs_fs s);
  vi_fd : forall f, Some f ∈ p_files s -> is_Some (files s !! f);
  vi_total : msum f_refcount (files s) = nfds (p_files s);
  vi_rc : forall vn, rc (vfs_fs s) vn = owned cw s vn;
  vi_root : vfs_root_vn s = fs_root (vfs_fs s)
}.
Arguments vi_fs {cw} s.
Arguments vi_len {cw} s.
Arguments vi_file {cw} s.
Arguments vi_fd {cw} s.
Arguments vi_total {cw} s.
Arguments vi_rc {cw} s.
Arguments vi_root {cw} s.
Abbreviation vinv s := (vinv_at (p_cwd s) s).

Definition has (o : option Z) : Z := match o with Some _ => 1 | None => 0 end.

Lemma opens_range vn x : 0 <= opens vn x <= 1.
Proof. unfold opens. case_decide; lia. Qed.
Lemma points_range o vn : 0 <= points o vn <= 1.
Proof. unfold points. case_decide; lia. Qed.
Lemma fds_le f l : 0 <= fds f l <= Z.of_nat (length l).
Proof. unfold fds. pose proof (length_filter (fun o => o = Some f) l). lia. Qed.
Lemma fds_pos f l i : l !! i = Some (Some f) -> 1 <= fds f l.
Proof.
  intros Hi. unfold fds. assert (Hin : Some f ∈ filter (fun o => o = Some f) l).
  { apply list_elem_of_filter. split; [done|]. by eapply list_elem_of_lookup_2. }
  destruct (filter _ l); [by apply not_elem_of_nil in Hin|cbn; lia].
Qed.
Lemma fds_insert f l i x y : l !! i = Some x ->
  fds f (<[i := y]> l) = fds f l - points x f + points y f.
Proof. intros Hi. unfold fds, points. by rewrite (length_filter_change _ l i x y Hi). Qed.
Lemma nfds_insert l i (x y : option Z) : l !! i = Some x ->
  nfds (<[i := y]> l) = nfds l - has x + has y.
Proof.
  intros Hi. unfold nfds. rewrite (length_filter_change _ l i x y Hi). unfold count.
  destruct x, y; rewrite ?decide_True, ?decide_False by (first [by eexists|by intros [? ?]]); done.
Qed.

Lemma elem_insert (l : list (option Z)) i y g : Some g ∈ <[i := y]> l -> y <> Some g -> Some g ∈ l.
Proof.
  intros Hg Hy. apply list_elem_of_lookup in Hg as [j Hj]. destruct (decide (j = i)) as [->|Hji].
  - destruct (decide (i < length l)%nat); [rewrite list_lookup_insert_eq in Hj by done; congruence|].
    rewrite list_insert_ge in Hj by lia. by eapply list_elem_of_lookup_2.
  - rewrite list_lookup_insert_ne in Hj by done. by eapply list_elem_of_lookup_2.
Qed.

Section invariant.
Context {cw : option Z} (s : vfs ramfs) (HV : vinv_at cw s).

(** No count can overflow. *)
Lemma vinv_few w : 0 <= rc (vfs_fs s) w <= 34.
Proof.
  destruct HV as [HI Hlen Hf _ Htot Hrc _]. split; [by eapply rc_nonneg|]. rewrite Hrc. unfold owned.
  pose proof (points_range cw w). pose proof (points_range (vfs_root_vn s) w).
  assert (msum (opens w) (files s) <= msum f_refcount (files s)).
  { apply msum_le. intros f x Hx. destruct (Hf f x Hx) as [[_ _ Hp _] _]. pose proof (opens_range w x). lia. }
  assert (nfds (p_files s) <= 32) by (unfold nfds; pose proof (length_filter is_Some (p_files s)); lia). lia.
Qed.

Lemma vinv_calm : calm (vfs_fs s).
Proof. intros vn v Hv. pose proof (vinv_few vn) as Hw. unfold rc in Hw. rewrite Hv in Hw. lia. Qed.

Lemma vinv_refs f x : files s !! f = Some x -> 0 < f_refcount x <= 32.
Proof.
  intros Hx. destruct (vi_file s HV f x Hx) as ([_ _ Hp _] & E & _). pose proof (fds_le f (p_files s)).
  pose proof (vi_len s HV). lia.
Qed.

Lemma vinv_vnode f x vn : files s !! f = Some x -> f_vnode x = Some vn -> exists v, vnodes (vfs_fs s) !! vn = Some v.
Proof.
  intros Hx Hvn. assert (Hpos : 0 < rc (vfs_fs s) vn).
  { rewrite (vi_rc s HV). unfold owned. pose proof (points_range cw vn). pose proof (points_range (vfs_root_vn s) vn).
    pose proof (msum_member (opens vn) (files s) f x ltac:(intros; apply opens_range) Hx) as Hm.
    unfold opens in Hm at 1. rewrite decide_True in Hm by done. lia. }
  destruct (rc_vnode none _ _ (vi_fs s HV) Hpos) as (v & Hv & _). eauto.
Qed.

Lemma vinv_cwd vn : cw = Some vn -> exists v, vnodes (vfs_fs s) !! vn = Some v.
Proof.
  intros Hc. assert (Hpos : 0 < rc (vfs_fs s) vn).
  { rewrite (vi_rc s HV). unfold owned. rewrite Hc. unfold points at 1. rewrite decide_True by done.
    pose proof (points_range (vfs_root_vn s) vn). pose proof (msum_nonneg (opens vn) (files s) ltac:(intros; apply opens_range)). lia. }
  destruct (rc_vnode none _ _ (vi_fs s HV) Hpos) as (v & Hv & _). eauto.
Qed.

Lemma vinv_root vn : vfs_root_vn s = Some vn -> exists v, vnodes (vfs_fs s) !! vn = Some v.
Proof.
  intros Hc. assert (Hpos : 0 < rc (vfs_fs s) vn).
  { rewrite (vi_rc s HV). unfold owned. rewrite Hc. unfold points at 2. rewrite decide_True by done.
    pose proof (points_range cw vn). pose proof (msum_nonneg (opens vn) (files s) ltac:(intros; apply opens_range)). lia. }
  destruct (rc_vnode none _ _ (vi_fs s HV) Hpos) as (v & Hv & _). eauto.
Qed.

(** ** How the state changes *)

(** The file systems below change, no reference does. *)
Lemma vinv_fs t : inv none t -> (forall w, rc t w = rc (vfs_fs s) w) -> fs_root t = fs_root (vfs_fs s) ->
  fs_next (vfs_fs s) <= fs_next t -> vinv_at cw (set_fs t s).
Proof.
  destruct HV as [HI Hlen Hf Hfd Htot Hrc Hroot]. intros Ht Hr Eroot Hn. split; cbn; try done; [|intros vn; by rewrite Hr|congruence].
  intros f x Hx. destruct (Hf f x Hx) as (A & B & C). repeat split; try apply A; try done. lia.
Qed.

(** A file's position and mode change. *)
Lemma vinv_pos f x i : files s !! f = Some x -> 0 <= i < 2 ^ 31 -> vinv_at cw (set_files (insert f (with_pos i x)) s).
Proof.
  destruct HV as [HI Hlen Hf Hfd Htot Hrc Hroot]. intros Hx Hi. split; cbn; try done.
  - intros g y Hy. destruct (decide (g = f)) as [->|Hne]; [rewrite lookup_insert_eq in Hy|rewrite lookup_insert_ne in Hy by done; by apply Hf].
    injection Hy as <-. destruct (Hf f x Hx) as ([A B C D] & E & F). split; [by split|done].
  - intros g Hg. destruct (decide (g = f)) as [->|Hne]; [rewrite lookup_insert_eq; by eexists|rewrite lookup_insert_ne by done; by apply Hfd].
  - rewrite (msum_replace _ _ _ _ _ Hx). cbn. lia.
  - intros vn. rewrite Hrc. unfold owned. cbn. rewrite (msum_replace _ _ _ _ _ Hx). unfold opens at 3 4. cbn. lia.
Qed.

(** A descriptor is added for a file that is open. *)
Lemma vinv_add_fd f x i : files s !! f = Some x -> p_files s !! i = Some None ->
  vinv_at cw (set_p_files (insert i (Some f)) (set_files (insert f (with_frefs (f_refcount x + 1) x)) s)).
Proof.
  destruct HV as [HI Hlen Hf Hfd Htot Hrc Hroot]. intros Hx Hi. split; cbn; try done.
  - by rewrite length_insert.
  - intros g y Hy. rewrite (fds_insert _ _ _ _ _ Hi). unfold points. rewrite (decide_False (P := None = Some g)) by done.
    destruct (decide (g = f)) as [->|Hne].
    + rewrite lookup_insert_eq in Hy. injection Hy as <-. rewrite decide_True by done.
      destruct (Hf f x Hx) as ([A B C D] & E & F). cbn. repeat split; try done; cbn; lia.
    + rewrite lookup_insert_ne in Hy by done. rewrite decide_False by congruence.
      destruct (Hf g y Hy) as (A & E & F). split; [done|]. split; [lia|done].
  - intros g Hg. destruct (decide (g = f)) as [->|Hne]; [rewrite lookup_insert_eq; by eexists|rewrite lookup_insert_ne by done].
    apply Hfd. eapply elem_insert; [done|congruence].
  - rewrite (msum_replace _ _ _ _ _ Hx), (nfds_insert _ _ _ _ Hi). cbn. lia.
  - intros vn. rewrite Hrc. unfold owned. cbn. rewrite (msum_replace _ _ _ _ _ Hx). unfold opens at 3 4. cbn. lia.
Qed.

(** A descriptor is taken away from a file that has others. *)
Lemma vinv_del_fd f x i : files s !! f = Some x -> p_files s !! i = Some (Some f) -> 1 < f_refcount x ->
  vinv_at cw (set_p_files (insert i None) (set_files (insert f (with_frefs (f_refcount x - 1) x)) s)).
Proof.
  destruct HV as [HI Hlen Hf Hfd Htot Hrc Hroot]. intros Hx Hi Hmany. split; cbn; try done.
  - by rewrite length_insert.
  - intros g y Hy. rewrite (fds_insert _ _ _ _ _ Hi). unfold points. rewrite (decide_False (P := None = Some g)) by done.
    destruct (decide (g = f)) as [->|Hne].
    + rewrite lookup_insert_eq in Hy. injection Hy as <-. rewrite decide_True by done.
      destruct (Hf f x Hx) as ([A B C D] & E & F). cbn. repeat split; try done; cbn; lia.
    + rewrite lookup_insert_ne in Hy by done. rewrite decide_False by congruence.
      destruct (Hf g y Hy) as (A & E & F). split; [done|]. split; [lia|done].
  - intros g Hg. destruct (decide (g = f)) as [->|Hne]; [rewrite lookup_insert_eq; by eexists|rewrite lookup_insert_ne by done].
    apply Hfd. eapply elem_insert; [done|congruence].
  - rewrite (msum_replace _ _ _ _ _ Hx), (nfds_insert _ _ _ _ Hi). cbn. lia.
  - intros vn. rewrite Hrc. unfold owned. cbn. rewrite (msum_replace _ _ _ _ _ Hx). unfold opens at 3 4. cbn. lia.
Qed.

(** The last descriptor of a file goes, and the file with it. *)
Lemma vinv_close f x i vn t : files s !! f = Some x -> p_files s !! i = Some (Some f) -> f_refcount x = 1 ->
  f_vnode x = Some vn -> inv none t -> (forall w, rc t w = rc (vfs_fs s) w - one vn w) ->
  fs_root t = fs_root (vfs_fs s) -> fs_next (vfs_fs s) <= fs_next t ->
  vinv_at cw (set_p_files (insert i None) (set_files (delete f) (set_fs t s))).
Proof.
  destruct HV as [HI Hlen Hf Hfd Htot Hrc Hroot]. intros Hx Hi Hone Hvn Ht Hr Er Hn.
  assert (Hothers : forall g, fds g (<[i := None]> (p_files s)) = fds g (p_files s) - points (Some f) g).
  { intros g. rewrite (fds_insert _ _ _ _ _ Hi). unfold points. rewrite (decide_False (P := None = Some g)) by done. lia. }
  split; cbn; try done.
  - by rewrite length_insert.
  - intros g y Hy. apply lookup_delete_Some in Hy as [Hne Hy]. destruct (Hf g y Hy) as (A & E & F). split; [done|].
    rewrite Hothers. unfold points. rewrite decide_False by congruence. split; [lia|lia].
  - intros g Hg. rewrite lookup_delete_ne.
    + apply Hfd. eapply elem_insert; [done|congruence].
    + intros <-. apply list_elem_of_lookup in Hg as [j Hj]. apply fds_pos in Hj. rewrite Hothers in Hj.
      destruct (Hf f x Hx) as (_ & E & _). unfold points in Hj. rewrite decide_True in Hj by done. lia.
  - rewrite (msum_delete _ _ _ _ Hx), (nfds_insert _ _ _ _ Hi). cbn. lia.
  - intros w. rewrite Hr, Hrc. unfold owned. cbn. rewrite (msum_delete _ _ _ _ Hx). unfold opens at 3. rewrite Hvn. unfold one.
    destruct (Z.eqb_spec w vn) as [->|Hne]; [rewrite decide_True by done; lia|rewrite decide_False by congruence; lia].
  - congruence.
Qed.

(** A new file is opened on a vnode that was obtained for it. *)
Lemma vinv_open f x i vn t : files s !! f = None -> p_files s !! i = Some None -> file_ok x -> f_refcount x = 1 ->
  f_vnode x = Some vn -> inv none t -> (forall w, rc t w = rc (vfs_fs s) w + one vn w) ->
  fs_root t = fs_root (vfs_fs s) -> fs_next (vfs_fs s) <= fs_next t -> f < fs_next t ->
  vinv_at cw (set_p_files (insert i (Some f)) (set_files (insert f x) (set_fs t s))).
Proof.
  destruct HV as [HI Hlen Hf Hfd Htot Hrc Hroot]. intros Hx Hi Hok Hone Hvn Ht Hr Er Hn Hfn.
  assert (Hnot : fds f (p_files s) = 0).
  { destruct (decide (1 <= fds f (p_files s))) as [Hge|]; [|pose proof (fds_le f (p_files s)); lia]. exfalso.
    unfold fds in Hge. destruct (filter (fun o => o = Some f) (p_files s)) as [|o l] eqn:E; [cbn in Hge; lia|].
    assert (Ho : o ∈ filter (fun o => o = Some f) (p_files s)) by (rewrite E; by apply elem_of_cons; left).
    apply list_elem_of_filter in Ho as [-> Ho]. destruct (Hfd f Ho) as [y Hy]. congruence. }
  split; cbn; try done.
  - by rewrite length_insert.
  - intros g y Hy. rewrite (fds_insert _ _ _ _ _ Hi). unfold points. rewrite (decide_False (P := None = Some g)) by done.
    destruct (decide (g = f)) as [->|Hne].
    + rewrite lookup_insert_eq in Hy. injection Hy as <-. rewrite decide_True by done. split; [done|]. split; [lia|done].
    + rewrite lookup_insert_ne in Hy by done. rewrite decide_False by congruence.
      destruct (Hf g y Hy) as (A & E & F). split; [done|]. split; lia.
  - intros g Hg. destruct (decide (g = f)) as [->|Hne]; [rewrite lookup_insert_eq; by eexists|rewrite lookup_insert_ne by done].
    apply Hfd. eapply elem_insert; [done|congruence].
  - rewrite msum_insert, (nfds_insert _ _ _ _ Hi) by done. cbn. lia.
  - intros w. rewrite Hr, Hrc. unfold owned. cbn. rewrite msum_insert by done. unfold opens at 2. rewrite Hvn. unfold one.
    destruct (Z.eqb_spec w vn) as [->|Hne]; [rewrite decide_True by done; lia|rewrite decide_False by congruence; lia].
  - congruence.
Qed.

End invariant.

(** ** Running the operations on files *)

Lemma set_files_twice f a b (s : vfs ramfs) : set_files (insert f a) (set_files (insert f b) s) = set_files (insert f a) s.
Proof. unfold set_files. cbn. by rewrite insert_insert_eq. Qed.
Lemma set_files_id f x (s : vfs ramfs) : files s !! f = Some x -> set_files (insert f x) s = s.
Proof. intros Hx. unfold set_files. rewrite insert_id by done. by destruct s. Qed.
Lemma set_files_fs g t (s : vfs ramfs) : set_fs t (set_files g s) = set_files g (set_fs t s).
Proof. done. Qed.
Lemma set_fs_id (s : vfs ramfs) : set_fs (vfs_fs s) s = s.
Proof. by destruct s. Qed.
Lemma with_frefs_id x : with_frefs (f_refcount x) x = x.
Proof. by destruct x. Qed.

Lemma runs_get_file (s : vfs ramfs) f x (Q : file -> vfs ramfs -> Prop) : files s !! f = Some x -> Q x s -> runs (get_file f) s Q.
Proof. intros Hx HQ. unfold get_file. by go. Qed.

Lemma runs_upd_file (s : vfs ramfs) f x g (Q : unit -> vfs ramfs -> Prop) : files s !! f = Some x -> Q tt (set_files (insert f (g x)) s) -> runs (upd_file f g) s Q.
Proof.
  intros Hx HQ. unfold upd_file. apply runs_bind, (runs_get_file _ _ x); [done|]. go.
  unfold set_files in *. by rewrite (alter_as_insert _ _ x).
Qed.

Section calls.
Context `{Platform ramfs}.

Lemma run_fref s f x (Q : unit -> vfs ramfs -> Prop) : files s !! f = Some x -> 0 <= f_mode x < 8 -> -1 <= f_pos x ->
  0 <= f_refcount x < 2 ^ 31 - 1 -> f_refcount x = 0 \/ is_Some (f_vnode x) ->
  Q tt (set_files (insert f (with_frefs (f_refcount x + 1) x)) s) -> runs (fref f) s Q.
Proof.
  intros Hx Hm Hp Hr Hv HQ. unfold fref. apply runs_bind, (runs_get_file _ _ x); [done|].
  apply runs_bind, runs_assert; [by apply andb_true_intro; split; [apply Z.leb_le|apply Z.ltb_lt]; lia|].
  apply runs_bind, runs_assert; [apply Z.leb_le; lia|]. apply runs_bind, runs_assert; [apply Z.leb_le; lia|].
  apply runs_bind, runs_assert; [apply orb_true_iff; destruct Hv; [left; by apply Z.eqb_eq|right; by apply bool_decide_eq_true]|].
  apply (runs_upd_file _ _ x); [done|]. by rewrite s32_small by lia.
Qed.

(** A file that keeps another reference. *)
Lemma run_fput_shared s f x (Q : unit -> vfs ramfs -> Prop) : files s !! f = Some x -> 0 <= f_mode x < 8 -> -1 <= f_pos x ->
  1 < f_refcount x < 2 ^ 31 -> is_Some (f_vnode x) ->
  Q tt (set_files (insert f (with_frefs (f_refcount x - 1) x)) s) -> runs (fput (Some f)) s Q.
Proof.
  intros Hx Hm Hp Hr Hv HQ. unfold fput. go. apply (runs_get_file _ _ x); [done|].
  apply runs_bind, runs_assert; [by apply andb_true_intro; split; [apply Z.leb_le|apply Z.ltb_lt]; lia|].
  apply runs_bind, runs_assert; [apply Z.leb_le; lia|]. apply runs_bind, runs_assert; [apply Z.ltb_lt; lia|].
  apply runs_bind, runs_assert; [apply orb_true_iff; right; by apply bool_decide_eq_true|].
  apply runs_bind, (runs_upd_file _ _ x); [done|]. rewrite s32_small by lia.
  apply runs_bind. eapply runs_get_file; [cbn; apply lookup_insert_eq|]. cbn [f_refcount with_frefs].
  rewrite (proj2 (Z.eqb_neq _ 0)) by lia. by go.
Qed.

(** The last reference: the vnode is put and the file is freed. *)
Lemma run_fput_last s f x (Q : unit -> vfs ramfs -> Prop) : files s !! f = Some x -> 0 <= f_mode x < 8 -> -1 <= f_pos x ->
  f_refcount x = 1 ->
  match f_vnode x with
  | Some vn => runs (vput vn) (vfs_fs s) (fun _ t => Q tt (set_files (delete f) (set_fs t s)))
  | None => Q tt (set_files (delete f) s)
  end -> runs (fput (Some f)) s Q.
Proof.
  intros Hx Hm Hp Hr HQ. unfold fput. go. apply (runs_get_file _ _ x); [done|].
  apply runs_bind, runs_assert; [by apply andb_true_intro; split; [apply Z.leb_le|apply Z.ltb_lt]; lia|].
  apply runs_bind, runs_assert; [apply Z.leb_le; lia|]. apply runs_bind, runs_assert; [apply Z.ltb_lt; lia|].
  apply runs_bind, runs_assert; [rewrite Hr; done|].
  apply runs_bind, (runs_upd_file _ _ x); [done|]. rewrite s32_small by lia.
  apply runs_bind. eapply runs_get_file; [cbn; apply lookup_insert_eq|]. cbn [f_refcount with_frefs f_vnode]. rewrite Hr.
  change (1 - 1 =? 0) with true. cbv iota.
  assert (Hdel : forall t y, set_files (delete f) (set_fs t (set_files (insert f y) s)) = set_files (delete f) (set_fs t s)).
  { intros t y. unfold set_files, set_fs. cbn. by rewrite delete_insert_eq. }
  destruct (f_vnode x) as [vn|].
  - apply runs_bind, runs_fs. eapply runs_mono; [exact HQ|]. intros [] t Ht. go. by rewrite Hdel.
  - go. specialize (Hdel (vfs_fs s) (with_frefs (1 - 1) x)). rewrite set_fs_id in Hdel.
    replace (set_fs (vfs_fs s) (set_files (insert f (with_frefs (1 - 1) x)) s)) with (set_files (insert f (with_frefs (1 - 1) x)) s) in Hdel by (by destruct s).
    by rewrite Hdel.
Qed.

(** The descriptor [fd] is open on the file [f]. *)
Record held (s : vfs ramfs) (fd f : Z) (x : file) : Prop := {
  held_fd : 0 <= fd < NFILES;
  held_slot : p_files s !! Z.to_nat fd = Some (Some f);
  held_file : files s !! f = Some x;
  held_ok : file_ok x;
  held_few : f_refcount x < 2 ^ 30
}.

Lemma held_good s fd f x : held s fd f x -> bad_fd s fd = false /\ fd_file s fd = Some f.
Proof.
  intros [Hfd Hs _ _ _]. unfold bad_fd, fd_file. rewrite Hs. cbn. rewrite (proj2 (Z.ltb_ge fd 0)), (proj2 (Z.leb_gt NFILES fd)) by lia.
  done.
Qed.

(** Every descriptor is either refused or open. *)
Lemma fd_cases cw s fd : vinv_at cw s -> bad_fd s fd = true \/ exists f x, held s fd f x.
Proof.
  intros HV. unfold bad_fd, fd_file. destruct (Z.ltb_spec fd 0); [by left|]. destruct (Z.leb_spec NFILES fd); [by left|]. cbn.
  destruct (p_files s !! Z.to_nat fd) as [[f|]|] eqn:E; cbn; [right|by left|by left].
  destruct (vi_fd s HV f) as [x Hx]; [by eapply list_elem_of_lookup_2|]. exists f, x.
  pose proof (vinv_refs s HV f x Hx). split; [lia|done|done|apply (vi_file s HV f x Hx)|lia].
Qed.

(** [fget] of an open descriptor. *)
Definition grabbed (f : Z) (x : file) (s : vfs ramfs) : vfs ramfs := set_files (insert f (with_frefs (f_refcount x + 1) x)) s.

Lemma run_fget_open s fd f x (Q : Z -> vfs ramfs -> Prop) : held s fd f x -> Q f (grabbed f x s) -> runs (fget_open fd) s Q.
Proof.
  intros Hh HQ. destruct (held_good _ _ _ _ Hh) as [_ Hf]. destruct Hh as [Hfd Hs Hx [Hm Hp Hr Hv] Hfew]. unfold fget_open, fget.
  rewrite (proj2 (Z.eqb_neq fd (-1))), (proj2 (Z.ltb_ge fd 0)), (proj2 (Z.leb_gt NFILES fd)) by lia. cbn [orb]. go. rewrite Hf.
  apply runs_bind, (run_fref s f x); [done|done|lia|lia|by right|]. by go.
Qed.

(** Giving it back, with a new position. *)
Lemma run_fput_grabbed s f x y (Q : unit -> vfs ramfs -> Prop) :
  file_ok y -> f_refcount y = f_refcount x -> f_refcount x < 2 ^ 30 ->
  Q tt (set_files (insert f y) s) -> runs (fput (Some f)) (set_files (insert f (with_frefs (f_refcount x + 1) y)) s) Q.
Proof.
  intros [Hm Hp Hr Hv] E Hb HQ.
  eapply run_fput_shared; [cbn; apply lookup_insert_eq|done|cbn; lia|cbn; lia|done|].
  rewrite set_files_twice. cbn. replace (f_refcount x + 1 - 1) with (f_refcount y) by lia.
  replace (with_frefs (f_refcount y) (with_frefs (f_refcount x + 1) y)) with y by (by destruct y). done.
Qed.

Lemma run_fput_back s fd f x (Q : unit -> vfs ramfs -> Prop) : held s fd f x -> Q tt s -> runs (fput (Some f)) (grabbed f x s) Q.
Proof.
  intros [_ _ Hx Hok Hfew] HQ.
  apply run_fput_grabbed; [done|done|lia|]. by rewrite set_files_id.
Qed.

(** [do_lseek]: where it goes. *)
Definition seek_to (x : file) (v : vnode) (offset whence : Z) : Z :=
  if whence =? SEEK_SET then offset else if whence =? SEEK_CUR then s32 (f_pos x + offset) else s32 (vn_len v + offset).

Lemma run_lseek s fd f x vn v offset whence :
  held s fd f x -> f_vnode x = Some vn -> vnodes (vfs_fs s) !! vn = Some v ->
  - 2 ^ 31 <= offset < 2 ^ 31 -> whence = SEEK_SET \/ whence = SEEK_CUR \/ whence = SEEK_END ->
  do_lseek fd offset whence s =
    (let i := seek_to x v offset whence in
     if i <? 0 then Done (- EINVAL) s else Done i (set_files (insert f (with_pos i x)) s)).
Proof.
  intros Hh Hvn Hv Hoff Hw. cbv zeta. set (i := seek_to x v offset whence).
  assert (Hi : - 2 ^ 31 <= i < 2 ^ 31).
  { unfold i, seek_to. destruct (whence =? SEEK_SET); [done|]. destruct (whence =? SEEK_CUR); apply s32_range. }
  assert (R : runs (do_lseek fd offset whence) s (fun r s' => Done r s' =
     if i <? 0 then Done (- EINVAL) s else Done i (set_files (insert f (with_pos i x)) s))).
  { destruct (held_good _ _ _ _ Hh) as [Hbad _]. unfold do_lseek. go. rewrite Hbad.
    replace (negb ((whence =? SEEK_SET) || (whence =? SEEK_CUR) || (whence =? SEEK_END))) with false by (by destruct Hw as [-> |[-> | ->]]).
    apply runs_bind, (run_fget_open s fd f x); [done|]. pose proof Hh as [Hfd Hs Hx [Hm Hp Hr Hvv] Hfew].
    apply runs_bind. eapply runs_get_file; [cbn; apply lookup_insert_eq|].
    apply runs_bind. apply (runs_mono _ _ (fun r s' => r = i /\ s' = grabbed f x s)).
    { unfold i, seek_to. destruct Hw as [-> |[-> | ->]]; cbn [Z.eqb SEEK_SET SEEK_CUR SEEK_END Pos.eqb]; [by go|by go|].
      apply runs_bind. unfold file_vnode. apply runs_bind. eapply runs_get_file; [cbn; apply lookup_insert_eq|].
      apply (runs_deref _ vn); [done|]. apply runs_bind, runs_fs. apply (runs_get_vnode vn v); [done|]. go. done. }
    intros r s' [-> ->]. destruct (Z.ltb_spec i 0).
    - apply runs_bind, (run_fput_back s fd f x); [done|]. by go.
    - apply runs_bind. eapply runs_upd_file; [cbn; apply lookup_insert_eq|]. unfold grabbed. rewrite set_files_twice.
      change (with_pos i (with_frefs (f_refcount x + 1) x)) with (with_frefs (f_refcount x + 1) (with_pos i x)).
      apply runs_bind, run_fput_grabbed; [split; try done; cbn; lia|done|lia|]. by go. }
  destruct R as (r & s' & -> & ->). done.
Qed.

(** ** Reading and writing *)

Lemma run_file_vnode s f x vn (Q : Z -> vfs ramfs -> Prop) : files s !! f = Some x -> f_vnode x = Some vn -> Q vn s -> runs (file_vnode f) s Q.
Proof. intros Hx Hvn HQ. unfold file_vnode. apply runs_bind, (runs_get_file _ _ x); [done|]. by apply (runs_deref _ vn). Qed.

(** A vnode of a regular file. *)
Lemma vnode_file t vn v : inv none t -> vnodes t !! vn = Some v -> S_ISREG (vn_mode v) = true ->
  vn_ops v = Some fs_file_vops /\ exists p nd b, is_file t vn v p nd b.
Proof.
  intros HI Hv Hreg. destruct (inv_vnode none t HI vn v Hv) as [_ _ _ _ (p & nd & Hi & Hp & Ei & Hm & Ho & _)].
  unfold mode_of in Hm. unfold ops_of in Ho. destruct (rf_mem nd) as [b|l|d] eqn:E.
  - split; [done|]. exists p, nd, b. by split.
  - by rewrite Hm in Hreg.
  - rewrite Hm in Hreg. by destruct (rf_mode nd =? RAMFS_TYPE_CHR).
Qed.

(** What [do_read] returns: the bytes of a regular file from the position on. *)
Definition read_result (x : file) (nd : ramfs_inode) (b : list Z) (nbytes : Z) : list Z :=
  take (Z.to_nat nbytes) (drop (Z.to_nat (f_pos x)) (contents nd b)).

Lemma length_read_result s vn v p nd b x n : inv none (vfs_fs s) -> is_file (vfs_fs s) vn v p nd b -> 0 <= f_pos x < 2 ^ 31 ->
  0 <= f_pos x + Z.of_nat (length (read_result x nd b n)) < 2 ^ 31.
Proof.
  intros HI HF Hx. destruct (is_file_ok _ _ _ _ _ _ HI HF) as (_ & Hsz & _).
  unfold read_result, contents. rewrite length_take, length_drop, length_take. lia.
Qed.

Lemma run_do_read s fd f x vn v p nd b nbytes :
  vinv s -> held s fd f x -> f_vnode x = Some vn -> is_file (vfs_fs s) vn v p nd b -> 0 <= nbytes < 2 ^ 31 ->
  do_read fd nbytes s =
    if Z.land (f_mode x) FMODE_READ =? 0 then Done (- EBADF, []) s
    else let r := read_result x nd b nbytes in
         Done (Z.of_nat (length r), r) (set_files (insert f (with_pos (f_pos x + Z.of_nat (length r)) x)) s).
Proof.
  intros HV Hh Hvn HF Hn. set (r := read_result x nd b nbytes).
  assert (R : runs (do_read fd nbytes) s (fun a s' => Done a s' =
    if Z.land (f_mode x) FMODE_READ =? 0 then Done (- EBADF, []) s
    else Done (Z.of_nat (length r), r) (set_files (insert f (with_pos (f_pos x + Z.of_nat (length r)) x)) s))).
  { destruct (held_good _ _ _ _ Hh) as [Hbad _]. unfold do_read. go. rewrite Hbad.
    apply runs_bind, (run_fget_open s fd f x); [done|]. pose proof Hh as [Hfd Hs Hx [Hm Hp Hr Hvv] Hfew].
    apply runs_bind. eapply runs_get_file; [cbn; apply lookup_insert_eq|]. cbn [f_mode with_frefs].
    destruct (Z.land (f_mode x) FMODE_READ =? 0).
    { apply runs_bind, (run_fput_back s fd f x); [done|]. by go. }
    destruct (is_file_ok _ _ _ _ _ _ (vi_fs s HV) HF) as (_ & Hsz & _ & Hmode). pose proof HF as [Hv _ _ _].
    destruct (vnode_file _ _ _ (vi_fs s HV) Hv) as (Hops & _); [by rewrite Hmode|].
    apply runs_bind. eapply run_file_vnode; [cbn; apply lookup_insert_eq|exact Hvn|].
    apply runs_bind, (run_mode _ vn v); [done|]. rewrite Hmode. change (S_ISDIR S_IFREG) with false. cbv iota.
    apply runs_bind. unfold vop_read, ops_table. apply runs_bind, runs_bind, runs_fs, (runs_get_vnode vn v); [done|].
    apply (runs_deref _ fs_file_vops); [done|]. cbv iota. apply runs_fs. cbn [vfs_fs set_fs grabbed set_files f_pos with_frefs].
    eapply runs_done; [cbn [file_read ramfs_vops]; eapply (run_read _ vn v p nd b); [apply HV|done|done|done]|]. cbv zeta.
    fold (read_result x nd b nbytes) r. cbn [fst snd]. rewrite (proj2 (Z.ltb_ge _ 0)) by lia.
    match goal with |- runs _ ?st _ => replace st with (grabbed f x s) by (by destruct s) end.
    apply runs_bind. eapply runs_upd_file; [cbn; apply lookup_insert_eq|]. unfold grabbed. rewrite set_files_twice. cbn [f_pos with_frefs].
    pose proof (length_read_result s vn v p nd b x nbytes (vi_fs s HV) HF Hp) as Hlen. fold r in Hlen.
    rewrite s32_small by lia.
    change (with_pos ?i (with_frefs ?c x)) with (with_frefs c (with_pos i x)).
    apply runs_bind, run_fput_grabbed; [by split|done|lia|]. by go. }
  destruct R as (a & s' & -> & ->). by destruct (Z.land (f_mode x) FMODE_READ =? 0).
Qed.

(** Reading a directory is refused. *)
Lemma run_do_read_dir s fd f x vn v nbytes :
  vinv s -> held s fd f x -> f_vnode x = Some vn -> vnodes (vfs_fs s) !! vn = Some v -> S_ISDIR (vn_mode v) = true ->
  do_read fd nbytes s = Done (- EBADF, []) s.
Proof.
  intros HV Hh Hvn Hv Hdir. assert (R : runs (do_read fd nbytes) s (fun a s' => a = (- EBADF, []) /\ s' = s)).
  { destruct (held_good _ _ _ _ Hh) as [Hbad _]. unfold do_read. go. rewrite Hbad.
    apply runs_bind, (run_fget_open s fd f x); [done|]. pose proof Hh as [Hfd Hs Hx [Hm Hp Hr Hvv] Hfew].
    apply runs_bind. eapply runs_get_file; [cbn; apply lookup_insert_eq|]. cbn [f_mode with_frefs].
    destruct (Z.land (f_mode x) FMODE_READ =? 0).
    { apply runs_bind, (run_fput_back s fd f x); [done|]. by go. }
    apply runs_bind. eapply run_file_vnode; [cbn; apply lookup_insert_eq|exact Hvn|].
    apply runs_bind, (run_mode _ vn v); [done|]. rewrite Hdir. apply runs_bind, (run_fput_back s fd f x); [done|]. by go. }
  by destruct R as (a & s' & -> & -> & ->).
Qed.

(** ** Closing and duplicating *)

Lemma run_set_fd s fd o (Q : unit -> vfs ramfs -> Prop) : 0 <= fd < NFILES -> Q tt (set_p_files (insert (Z.to_nat fd) o) s) -> runs (set_fd fd o) s Q.
Proof.
  intros Hfd HQ. unfold set_fd. rewrite (proj2 (Z.ltb_ge fd 0)), (proj2 (Z.leb_gt NFILES fd)) by lia. cbn [orb]. by go.
Qed.

(** The state after descriptor [fd] of file [f] is closed. *)
Definition closed (s : vfs ramfs) (fd f : Z) (x : file) (s' : vfs ramfs) : Prop :=
  if f_refcount x =? 1 then
    exists vn t, f_vnode x = Some vn /\ put vn (vfs_fs s) t
      /\ s' = set_p_files (insert (Z.to_nat fd) None) (set_files (delete f) (set_fs t s))
  else s' = set_p_files (insert (Z.to_nat fd) None) (set_files (insert f (with_frefs (f_refcount x - 1) x)) s).

Lemma run_close cw s fd f x : vinv_at cw s -> held s fd f x ->
  runs (do_close fd) s (fun r s' => r = 0 /\ closed s fd f x s' /\ vinv_at cw s').
Proof.
  intros HV Hh. destruct (held_good _ _ _ _ Hh) as [Hbad _]. unfold do_close. go. rewrite Hbad.
  apply runs_bind, (run_fget_open s fd f x); [done|]. pose proof Hh as [Hfd Hs Hx [Hm Hp Hr Hvv] Hfew].
  apply runs_bind, (run_fput_back s fd f x); [done|]. apply runs_bind, run_set_fd; [done|]. apply runs_bind.
  destruct Hvv as [vn Hvn].
  destruct (vinv_vnode s HV f x vn Hx Hvn) as [v Hv]. pose proof (vinv_calm s HV vn v Hv).
  unfold closed. destruct (Z.eqb_spec (f_refcount x) 1) as [E1|E1].
  - eapply run_fput_last; [done|done|cbn; lia|done|]. rewrite Hvn. cbn [vfs_fs set_p_files].
    eapply runs_mono; [apply (run_vput none _ vn v); [apply HV|done|lia]|]. intros [] t Hput. go. split; [done|].
    destruct (put_counters _ _ _ Hput) as (En & Er & _). split; [by exists vn, t|].
    change (vinv_at cw (set_p_files (insert (Z.to_nat fd) None) (set_files (delete f) (set_fs t s)))).
    apply (vinv_close s HV f x (Z.to_nat fd) vn t); try done; [|by eapply put_rc; [apply HV|]|lia].
    eapply put_inv; [apply HV|done|]. intros; done.
  - eapply run_fput_shared; [done|done|cbn; lia|lia|by eexists|]. go. split; [done|]. split; [done|].
    apply (vinv_del_fd s HV f x); [done|done|lia].
Qed.

(** The first free descriptor. *)
Lemma empty_fd_spec (l : list (option Z)) : forall k,
  match list_find (fun o => o = None) l with
  | Some (i, _) => empty_fd_from l k = k + Z.of_nat i
  | None => empty_fd_from l k = - EMFILE
  end.
Proof.
  induction l as [|[f|] l IH]; intros k; [done| |cbn [list_find empty_fd_from]; rewrite decide_True by done; lia]. cbn [list_find empty_fd_from]. rewrite decide_False by done.
  specialize (IH (k + 1)). destruct (list_find (fun o => o = None) l) as [[i ?]|]; cbn [fmap option_fmap option_map prod_map]; rewrite IH; [|done]. cbn [fst]. lia.
Qed.

Definition first_free (s : vfs ramfs) (i : Z) : Prop :=
  0 <= i < NFILES /\ p_files s !! Z.to_nat i = Some None /\ forall j, 0 <= j < i -> p_files s !! Z.to_nat j <> Some None.

Lemma run_get_empty_fd cw s (Q : Z -> vfs ramfs -> Prop) : vinv_at cw s ->
  (forall i, first_free s i -> Q i s) -> ((forall j, p_files s !! j <> Some None) -> Q (- EMFILE) s) ->
  runs get_empty_fd s Q.
Proof.
  intros HV H1 H2. unfold get_empty_fd. go. pose proof (empty_fd_spec (p_files s) 0) as E.
  destruct (list_find (fun o => o = None) (p_files s)) as [[i o]|] eqn:Hf; rewrite E.
  - apply list_find_Some in Hf as (Hi & -> & Hb). pose proof (lookup_lt_Some _ _ _ Hi). rewrite (vi_len s HV) in *.
    apply H1. unfold first_free, NFILES. split; [lia|]. rewrite Z.add_0_l, Nat2Z.id. split; [done|].
    intros j Hj Hj'. by apply (Hb _ _ Hj'); [lia|].
  - apply H2. intros j Hj. apply list_find_None in Hf. rewrite Forall_forall in Hf. apply (Hf None); [by eapply list_elem_of_lookup_2|done].
Qed.

(** Where [do_write] writes, what, and the file system afterwards. *)
Definition write_at (x : file) (v : vnode) : Z := if Z.land (f_mode x) FMODE_APPEND =? 0 then f_pos x else vn_len v.
Definition write_data (x : file) (v : vnode) (buf : list Z) (nbytes : Z) : list Z :=
  take (Z.to_nat (Z.min nbytes (4096 - write_at x v))) buf.
Definition write_fs (x : file) (vn : Z) (v : vnode) (p : Z) (nd : ramfs_inode) (b buf : list Z) (nbytes : Z) (t : fsys ramfs) : fsys ramfs :=
  let nd' := written (write_at x v) (write_data x v buf nbytes) nd b in
  set_vnodes (insert vn (with_len (rf_size nd') v)) (set_inodes (insert p nd') t).

Lemma held_grabbed s fd f x : held s fd f x -> f_refcount x + 1 < 2 ^ 30 -> held (grabbed f x s) fd f (with_frefs (f_refcount x + 1) x).
Proof.
  intros [Hfd Hs Hx [Hm Hp Hr Hv] Hfew] Hc. split; try done; [cbn; by rewrite lookup_insert_eq|split; try done; cbn; lia].
Qed.

(** The seek to the end that an append starts with. *)
Lemma run_append s fd f x vn v : held s fd f x -> f_refcount x + 1 < 2 ^ 30 -> f_vnode x = Some vn ->
  vnodes (vfs_fs s) !! vn = Some v -> 0 <= vn_len v < 2 ^ 31 ->
  runs (if negb (Z.land (f_mode x) FMODE_APPEND =? 0) then do_lseek fd 0 SEEK_END else kret 0) (grabbed f x s)
    (fun j s' => 0 <= j /\ s' = set_files (insert f (with_frefs (f_refcount x + 1) (with_pos (write_at x v) x))) s).
Proof.
  intros Hh Hc Hvn Hv Hlen. unfold write_at. destruct (Z.land (f_mode x) FMODE_APPEND =? 0); cbn [negb].
  - go. split; [lia|]. by destruct x.
  - pose proof (run_lseek (grabbed f x s) fd f _ vn v 0 SEEK_END (held_grabbed s fd f x Hh Hc) Hvn Hv ltac:(lia) ltac:(by right; right)) as E.
    cbv zeta in E. unfold seek_to in E. cbn [Z.eqb SEEK_END SEEK_SET SEEK_CUR Pos.eqb] in E. rewrite Z.add_0_r, s32_small in E by lia.
    rewrite (proj2 (Z.ltb_ge _ 0)) in E by lia. eapply runs_done; [exact E|]. split; [lia|]. unfold grabbed. by rewrite set_files_twice.
Qed.

(** A descriptor that is not open for writing. *)
Lemma run_do_write_ro s fd f x buf nbytes : held s fd f x -> Z.land (f_mode x) FMODE_WRITE = 0 -> do_write fd buf nbytes s = Done (- EBADF) s.
Proof.
  intros Hh Hro. assert (R : runs (do_write fd buf nbytes) s (fun a s' => a = - EBADF /\ s' = s)).
  { destruct (held_good _ _ _ _ Hh) as [Hbad _]. unfold do_write. go. rewrite Hbad. apply runs_bind, (run_fget_open s fd f x); [done|].
    apply runs_bind. eapply runs_get_file; [cbn; apply lookup_insert_eq|]. cbn [f_mode with_frefs]. rewrite Hro.
    apply runs_bind, (run_fput_back s fd f x); [done|]. by go. }
  by destruct R as (a & s' & -> & -> & ->).
Qed.

Lemma run_do_write s fd f x vn v p nd b buf nbytes :
  vinv s -> held s fd f x -> f_vnode x = Some vn -> is_file (vfs_fs s) vn v p nd b ->
  0 <= nbytes < 2 ^ 31 -> nbytes <= Z.of_nat (length buf) -> write_at x v <= 4096 ->
  runs (do_write fd buf nbytes) s (fun r s' =>
    if Z.land (f_mode x) FMODE_WRITE =? 0 then r = - EBADF /\ s' = s
    else let n := Z.of_nat (length (write_data x v buf nbytes)) in
         r = n /\ s' = set_files (insert f (with_pos (write_at x v + n) x)) (set_fs (write_fs x vn v p nd b buf nbytes (vfs_fs s)) s)
         /\ inv none (vfs_fs s')).
Proof.
  intros HV Hh Hvn HF Hn Hbuf Hat. destruct (held_good _ _ _ _ Hh) as [Hbad _]. unfold do_write. go. rewrite Hbad.
  apply runs_bind, (run_fget_open s fd f x); [done|]. pose proof Hh as [Hfd Hs Hx [Hm Hp Hr Hvv] Hfew].
  apply runs_bind. eapply runs_get_file; [cbn; apply lookup_insert_eq|]. cbn [f_mode with_frefs].
  destruct (Z.land (f_mode x) FMODE_WRITE =? 0).
  { apply runs_bind, (run_fput_back s fd f x); [done|]. by go. }
  pose proof (vi_fs s HV) as HI. destruct (is_file_ok _ _ _ _ _ _ HI HF) as (_ & Hsz & Hlen & Hmode). pose proof HF as [Hv _ _ _].
  pose proof (vinv_refs s HV f x Hx). destruct (vnode_file _ _ _ HI Hv) as (Hops & _); [by rewrite Hmode|].
  assert (Hat0 : 0 <= write_at x v) by (unfold write_at; case_match; lia).
  apply runs_bind. eapply runs_mono; [eapply (run_append s fd f x vn v); try done; lia|]. intros j s1 [Hj ->].
  rewrite (proj2 (Z.ltb_ge j 0)) by lia. set (y := with_pos (write_at x v) x).
  apply runs_bind. eapply run_file_vnode; [cbn; apply lookup_insert_eq|exact Hvn|].
  apply runs_bind. eapply runs_get_file; [cbn; apply lookup_insert_eq|].
  apply runs_bind. unfold vop_write, ops_table. apply runs_bind, runs_bind, runs_fs, (runs_get_vnode vn v); [done|].
  apply (runs_deref _ fs_file_vops); [done|]. cbv iota. apply runs_fs. cbn [vfs_fs set_fs set_files f_pos with_frefs with_pos y].
  eapply runs_mono; [cbn [file_write ramfs_vops]; apply (run_write _ vn v p nd b); try done|].
  intros r t' (Er & HI' & Et). fold (write_data x v buf nbytes) in Er, Et. fold (write_fs x vn v p nd b buf nbytes (vfs_fs s)) in Et. cbv zeta.
  set (n := Z.of_nat (length (write_data x v buf nbytes))) in *. rewrite Er.
  assert (Hn' : 0 <= n <= 4096 - write_at x v) by (unfold n, write_data; rewrite length_take; lia).
  rewrite (proj2 (Z.ltb_ge n 0)) by lia.
  match goal with |- runs _ ?st _ => replace st with (set_files (insert f (with_frefs (f_refcount x + 1) y)) (set_fs t' s)) by (by destruct s) end.
  apply runs_bind, runs_fs. eapply runs_get_vnode; [rewrite Et; cbn; apply lookup_insert_eq|]. cbv beta.
  apply runs_bind, runs_assert.
  { cbn [vn_mode with_len vn_len]. rewrite Hmode. change (S_ISREG S_IFREG) with true. rewrite !orb_true_iff, andb_true_iff. right. split; [done|].
    apply Z.leb_le. cbn [f_pos with_frefs y with_pos]. cbn [rf_size written with_size]. lia. }
  match goal with |- runs _ ?st _ => replace st with (set_files (insert f (with_frefs (f_refcount x + 1) y)) (set_fs t' s)) by (by destruct s) end.
  apply runs_bind. eapply runs_upd_file; [cbn; apply lookup_insert_eq|]. rewrite set_files_twice. cbn [f_pos with_frefs y with_pos].
  rewrite s32_small by lia.
  replace (with_pos (write_at x v + n) (with_frefs (f_refcount x + 1) y))
    with (with_frefs (f_refcount x + 1) (with_pos (write_at x v + n) x)) by done.
  apply runs_bind, run_fput_grabbed; [split; try done; cbn; lia|done|lia|]. go. split; [done|]. rewrite Et. split; [done|]. by rewrite <- Et.
Qed.

(** ** Directory entries *)

Lemma run_getdent s fd f x vn v p nd l i :
  vinv s -> held s fd f x -> f_vnode x = Some vn -> is_dir (vfs_fs s) vn v p nd l -> f_pos x = 32 * Z.of_nat i -> (i <= 128)%nat ->
  do_getdent fd s =
    match list_find named (drop i l) with
    | Some (k, e) => Done (sizeof_dirent_t, Some (listing e)) (set_files (insert f (with_pos (f_pos x + 32 * Z.of_nat (S k)) x)) s)
    | None => Done (0, None) s
    end.
Proof.
  intros HV Hh Hvn HD Hpos Hi.
  assert (R : runs (do_getdent fd) s (fun a s' => Done a s' =
    match list_find named (drop i l) with
    | Some (k, e) => Done (sizeof_dirent_t, Some (listing e)) (set_files (insert f (with_pos (f_pos x + 32 * Z.of_nat (S k)) x)) s)
    | None => Done (0, None) s
    end)).
  { destruct (held_good _ _ _ _ Hh) as [Hbad _]. unfold do_getdent. go. rewrite Hbad.
    apply runs_bind, (run_fget_open s fd f x); [done|]. pose proof Hh as [Hfd Hs Hx [Hm Hp Hr Hvv] Hfew].
    pose proof (vi_fs s HV) as HI. pose proof HD as [Hv _ _ _]. pose proof (vnode_entries none _ _ _ HI Hv) as Hent.
    assert (He : entries (fs_i (vfs_fs s)) (vn_vno v) = Some l).
    { destruct (inv_vnode none _ HI vn v Hv) as [_ _ _ _ (p' & nd' & Hi' & Hp' & Ei & _)]. destruct HD as [_ Hdi Hdp Hdm].
      assert (p' = p) as -> by congruence. assert (nd' = nd) as -> by congruence.
      unfold entries. rewrite (proj2 (inv_slot none _ HI (vn_vno v) p)) by eauto. cbn. by rewrite Hdp; cbn; rewrite Hdm. }
    rewrite He in Hent. destruct Hent as (_ & Hmode & Hops).
    apply runs_bind. eapply run_file_vnode; [cbn; apply lookup_insert_eq|exact Hvn|].
    apply runs_bind, (run_mode _ vn v); [done|]. rewrite Hmode. change (negb (S_ISDIR S_IFDIR)) with false. cbv iota.
    apply runs_bind. eapply runs_get_file; [cbn; apply lookup_insert_eq|].
    apply runs_bind. unfold via_dir, ops_table. apply runs_bind, runs_bind, runs_fs, (runs_get_vnode vn v); [done|].
    apply (runs_deref _ fs_dir_vops); [done|]. cbv iota. apply runs_fs. cbn [vfs_fs set_fs grabbed set_files f_pos with_frefs]. rewrite Hpos.
    eapply runs_done; [cbn [dir_readdir ramfs_vops]; by eapply (run_readdir none _ vn v p nd l i)|].
    match goal with |- runs _ ?st _ => replace st with (grabbed f x s) by (by destruct s) end.
    apply runs_bind. eapply runs_upd_file; [cbn; apply lookup_insert_eq|]. unfold grabbed. rewrite set_files_twice. cbn [f_pos with_frefs].
    assert (Hl : length l = 128%nat) by (by destruct (is_dir_ok _ _ _ _ _ _ _ HI HD) as [[D1 _ _] _]).
    destruct (list_find named (drop i l)) as [[k e]|] eqn:Ek; cbn [fst snd].
    - apply list_find_Some in Ek as (Hk & _). apply lookup_lt_Some in Hk. rewrite length_drop in Hk.
      rewrite s32_small, <- Hpos by lia.
      change (with_pos ?j (with_frefs ?c x)) with (with_frefs c (with_pos j x)).
      apply runs_bind, run_fput_grabbed; [split; try done; cbn; lia|done|lia|]. go.
      rewrite (proj2 (Z.leb_gt _ 0)) by lia. done.
    - rewrite Z.add_0_r, s32_small by lia.
      change (with_pos ?j (with_frefs ?c x)) with (with_frefs c (with_pos j x)).
      replace (with_pos (f_pos x) x) with x by (by destruct x).
      apply runs_bind, run_fput_grabbed; [done|done|lia|]. go. by rewrite set_files_id. }
  destruct R as (a & s' & -> & ->). by destruct (list_find named (drop i l)) as [[k e]|].
Qed.

End calls.

End VfsFiles.
