(* ===== verification/VfsCalls.v ===== *)
(** * System calls on open files: the reference counts of files and vnodes

    Duplicating, opening and changing directory, the invariant [vinv] over all
    calls, shutting the file system down, and the theorems of the virtual file
    system. *)

From S2P Require Import Prelude KString Vnode Ramfs RamfsInv RamfsDir RamfsOps RamfsFile Vfs VfsName VfsFiles.

Module VfsCalls.
Import KString Vnode Ramfs RamfsInv RamfsDir RamfsOps RamfsFile Vfs VfsName VfsFiles.

Local Open Scope Z_scope.

Section calls.
Context `{Platform ramfs}.

(** ** Duplicating *)

Lemma run_dup s fd f x i : vinv s -> held s fd f x -> first_free s i ->
  do_dup fd s = if i =? 0 then Done (- EMFILE) s else Done i (set_p_files (insert (Z.to_nat i) (Some f)) (grabbed f x s)).
Proof.
  intros HV Hh (Hi & Hfree & Hfirst). destruct (held_good _ _ _ _ Hh) as [Hbad _].
  assert (R : runs (do_dup fd) s (fun r s' => Done r s' =
    if i =? 0 then Done (- EMFILE) s else Done i (set_p_files (insert (Z.to_nat i) (Some f)) (grabbed f x s)))).
  { unfold do_dup. go. rewrite Hbad. apply runs_bind, (run_fget_open s fd f x); [done|].
    assert (E : runs get_empty_fd (grabbed f x s) (fun r s' => r = i /\ s' = grabbed f x s)).
    { destruct (run_get_empty_fd _ s (fun r s' => r = i /\ s' = s) HV) as (r & s' & E & -> & ->).
      - intros j (Hj & Hjf & Hj'). split; [|done]. destruct (Z.lt_trichotomy i j) as [Hlt|[->|Hlt]]; [|done|].
        + by destruct (Hj' i ltac:(lia)).
        + by destruct (Hfirst j ltac:(lia)).
      - intros Hno. by destruct (Hno (Z.to_nat i)).
      - injection E as E1. eapply runs_done; [reflexivity|]. done. }
    apply runs_bind. eapply runs_mono; [exact E|]. intros r s' [-> ->]. destruct (i =? 0).
    - apply runs_bind, (run_fput_back s fd f x); [done|]. by go.
    - apply runs_bind, run_set_fd; [done|]. by go. }
  destruct R as (r & s' & -> & ->). by destruct (i =? 0).
Qed.

Lemma held_vnode s fd f x : vinv s -> held s fd f x -> exists vn v, f_vnode x = Some vn /\ vnodes (vfs_fs s) !! vn = Some v.
Proof.
  intros HV [_ _ Hx [_ _ _ [vn Hvn]] _]. destruct (vinv_vnode s HV f x vn Hx Hvn) as [v Hv]. eauto.
Qed.

(** [do_dup2]: afterwards [nfd] is open on the file of [ofd] and the other
    descriptors are as they were. *)
Lemma run_dup2 s ofd nfd f x : vinv s -> held s ofd f x -> 0 <= nfd < NFILES -> ofd <> nfd ->
  runs (do_dup2 ofd nfd) s (fun r s' => r = nfd /\ vinv s' /\ p_files s' = <[Z.to_nat nfd := Some f]> (p_files s)
    /\ p_cwd s' = p_cwd s /\ vfs_root_vn s' = vfs_root_vn s).
Proof.
  intros HV Hh Hnfd Hne. destruct (held_good _ _ _ _ Hh) as [Hbad _].
  unfold do_dup2. go. rewrite Hbad, (proj2 (Z.ltb_ge nfd 0)), (proj2 (Z.leb_gt NFILES nfd)), (proj2 (Z.eqb_neq ofd nfd)) by lia. cbn [orb].
  apply runs_bind. apply (runs_mono _ _ (fun j s1 => j = 0 /\ vinv_at (p_cwd s) s1 /\ p_files s1 = <[Z.to_nat nfd := None]> (p_files s)
    /\ p_cwd s1 = p_cwd s /\ vfs_root_vn s1 = vfs_root_vn s)).
  { destruct (bool_decide (is_Some (fd_file s nfd))) eqn:Eo.
    - destruct (fd_cases _ s nfd HV) as [Hb|(g & y & Hg)].
      { exfalso. unfold bad_fd in Hb. rewrite Eo, (proj2 (Z.ltb_ge nfd 0)), (proj2 (Z.leb_gt NFILES nfd)) in Hb by lia. done. }
      eapply runs_mono; [by apply (run_close (p_cwd s) s nfd g y)|]. intros r s1 (-> & Hc & HV1). split; [done|]. split; [done|].
      unfold closed in Hc. destruct (f_refcount y =? 1); [destruct Hc as (vn & t & _ & _ & ->)|subst s1]; done.
    - go. split; [done|]. split; [done|]. split; [|done]. apply bool_decide_eq_false in Eo.
      rewrite list_insert_id; [done|]. unfold fd_file in Eo.
      destruct (p_files s !! Z.to_nat nfd) as [[g|]|] eqn:E; [by destruct Eo; eexists|done|].
      apply lookup_ge_None in E. rewrite (vi_len s HV) in E. unfold NFILES in Hnfd. lia. }
  intros j s1 (-> & HV1 & Hp & Hcwd & Hroot). rewrite <- Hcwd in HV1. change (0 <? 0) with false. cbv iota.
  destruct Hh as [Hofd Hs _ _ _]. assert (Hn : Z.to_nat nfd <> Z.to_nat ofd) by lia.
  destruct (fd_cases _ s1 ofd HV1) as [Hb|(f' & x1 & Hh1)].
  { exfalso. unfold bad_fd, fd_file in Hb. rewrite Hp, list_lookup_insert_ne, Hs in Hb by done. cbn in Hb.
    rewrite (proj2 (Z.ltb_ge ofd 0)), (proj2 (Z.leb_gt NFILES ofd)) in Hb by lia. done. }
  assert (f' = f) as ->. { pose proof (held_slot _ _ _ _ Hh1) as Hs1. rewrite Hp, list_lookup_insert_ne, Hs in Hs1 by done. congruence. }
  apply runs_bind, (run_fget_open s1 ofd f x1); [done|]. apply runs_bind, run_set_fd; [done|]. go. split; [done|].
  assert (Hlt : (Z.to_nat nfd < length (p_files s))%nat) by (rewrite (vi_len s HV); unfold NFILES in Hnfd; lia).
  split; [|split; [|done]].
  - apply (vinv_add_fd s1 HV1 f x1); [apply Hh1|]. by rewrite Hp, list_lookup_insert_eq.
  - cbn. rewrite Hp. by rewrite list_insert_insert_eq.
Qed.

(** ** Opening *)

Lemma inv_mem_alloc t b : inv none t -> fs_budget t = S b ->
  inv none (bump 1 b t) /\ (forall w, rc (bump 1 b t) w = rc t w).
Proof. intros HI _. split; [by apply inv_bump|done]. Qed.

(** [fget(-1)]: a new file with one reference and no vnode. *)
Definition fresh_file : file := mk_file 0 0 1 None.
Definition with_fresh (b : nat) (s : vfs ramfs) : vfs ramfs :=
  set_files (insert (fs_next (vfs_fs s)) fresh_file) (set_fs (bump 1 b (vfs_fs s)) s).

Lemma run_fget_new s b (Q : option Z -> vfs ramfs -> Prop) : fs_budget (vfs_fs s) = S b ->
  Q (Some (fs_next (vfs_fs s))) (with_fresh b s) -> runs (fget (-1)) s Q.
Proof.
  intros Hb HQ. unfold fget. change (-1 =? -1) with true. cbv iota. apply runs_bind, runs_fs. unfold mem_alloc. go. rewrite Hb. go.
  eapply run_fref; [cbn; apply lookup_insert_eq|done|cbn; lia|cbn; lia|by left|]. go. rewrite set_files_twice. done.
Qed.

(** [open_namev] returns the directory that holds the last component. *)
Lemma run_open_namev s p abs l start v flag res :
  is_path p abs l [] -> inv none (vfs_fs s) -> (forall w, rc (vfs_fs s) w < 2 ^ 29) ->
  (if abs then vfs_root_vn s else p_cwd s) = Some start -> vnodes (vfs_fs s) !! start = Some v ->
  (length l <= fs_budget (vfs_fs s))%nat ->
  match resolve (fs_i (vfs_fs s)) (vn_vno v) (removelast (fst <$> l)) with
  | inr ino => runs (open_namev (Some p) flag res None) s (fun r s' => exists vn v' t', r = (0, Some vn) /\ s' = set_fs t' s
      /\ inv none t' /\ same_tree (vfs_fs s) t' /\ fs_next (vfs_fs s) <= fs_next t'
      /\ (forall w, rc t' w = rc (vfs_fs s) w + one vn w)
      /\ vnodes t' !! vn = Some v' /\ vn_vno v' = ino /\ vn_mode v' = S_IFDIR)
  | inl _ => open_namev (Some p) flag None None s = Panic
  end.
Proof.
  intros Hp HI Hfew Hst Hv Hb. pose proof (run_dir_namev s p abs l [] start v Hp HI Hfew Hst Hv eq_refl Hb) as R.
  destruct (resolve (fs_i (vfs_fs s)) (vn_vno v) (removelast (fst <$> l))) as [e|ino] eqn:Er.
  - destruct R as (r & s' & E & t' & -> & _ & _ & _ & _ & Hres). rewrite Er in Hres. destruct Hres as [-> _].
    unfold open_namev. rewrite (kbind_done _ _ _ _ _ E). by destruct e.
  - unfold open_namev. apply runs_bind. eapply runs_mono; [exact R|]. intros r s' (t' & -> & HI' & HT & _ & Hn & Hres). rewrite Er in Hres.
    destruct Hres as ([[vn k] len] & -> & [(v' & Hv' & Ev') Hrc _ _ _]). cbn in Hv', Hrc. go. exists vn, v', t'.
    do 5 (split; [done|]). split; [done|]. split; [done|]. split; [done|].
    assert (He : exists es, entries (fs_i (vfs_fs s)) ino = Some es).
    { by eapply resolve_entries. }
    destruct He as [es He]. pose proof (vnode_entries none _ _ _ HI' Hv') as Hent.
    rewrite Ev', (entries_tree _ _ ino HT), He in Hent. tauto.
Qed.

Lemma path_strlen p abs l : is_path p abs l [] ->
  strlen (pa_str p) = Some (Z.of_nat (length ((if abs then [SLASH] else []) ++ render l))).
Proof. intros Hp. rewrite (strlen_spec _ _ (path_is_str p abs l [] Hp)). by rewrite app_nil_r. Qed.

Lemma open_mode_range oflags m : open_mode oflags = Some m -> 0 <= m < 8.
Proof. unfold open_mode. repeat case_match; intros [= <-]; vm_compute; (split; [discriminate|reflexivity]). Qed.

(** Opened for writing, by the test of [do_open] on directories. *)
Definition for_writing (oflags : Z) : bool := (Z.land oflags 3 =? O_WRONLY) || (Z.land oflags 3 =? O_RDWR).

(** The path names something in a directory that exists: its inode number. *)
Record names_in (s : vfs ramfs) (p : path) (abs : bool) (l : list (list Z * nat)) (ino : Z) : Prop := {
  ni_path : is_path p abs l [];
  ni_start : exists start v, (if abs then vfs_root_vn s else p_cwd s) = Some start /\ vnodes (vfs_fs s) !! start = Some v
    /\ resolve (fs_i (vfs_fs s)) (vn_vno v) (removelast (fst <$> l)) = inr ino
}.

Lemma run_open s p abs l ino oflags m i :
  vinv s -> names_in s p abs l ino -> first_free s i -> open_mode oflags = Some m ->
  (length ((if abs then [SLASH] else []) ++ render l) <= 28)%nat -> (length l < fs_budget (vfs_fs s))%nat ->
  runs (do_open (Some p) oflags) s (fun r s' => vinv s' /\ p_cwd s' = p_cwd s /\
    if for_writing oflags then r = - EISDIR /\ files s' = files s /\ p_files s' = p_files s
    else r = i /\ exists f vn v, files s !! f = None /\ files s' = <[f := mk_file 0 m 1 (Some vn)]> (files s)
       /\ p_files s' = <[Z.to_nat i := Some f]> (p_files s)
       /\ vnodes (vfs_fs s') !! vn = Some v /\ vn_vno v = ino /\ vn_mode v = S_IFDIR).
Proof.
  intros HV [Hp (start & v & Hst & Hv & Hres)] Hfree Hm Hshort Hb. pose proof (open_mode_range _ _ Hm) as Hmr.
  destruct (fs_budget (vfs_fs s)) as [|b] eqn:Eb; [lia|]. pose proof (vinv_few s HV) as Hfew.
  assert (Hnew : files s !! fs_next (vfs_fs s) = None).
  { destruct (files s !! fs_next (vfs_fs s)) as [x|] eqn:E; [|done]. destruct (vi_file s HV _ _ E) as (_ & _ & Hlt). lia. }
  unfold do_open. apply runs_bind. eapply run_get_empty_fd; [done| |].
  2:{ intros Hno. destruct Hfree as (_ & Hf & _). by destruct (Hno (Z.to_nat i)). }
  intros i' (Hi' & Hf' & Hfirst'). assert (i' = i) as ->.
  { destruct Hfree as (Hi & Hf & Hfirst). destruct (Z.lt_trichotomy i i') as [Hlt|[->|Hlt]]; [|done|].
    - by destruct (Hfirst' i ltac:(lia)).
    - by destruct (Hfirst i' ltac:(lia)). }
  rewrite (proj2 (Z.eqb_neq i (- EMFILE))) by (unfold EMFILE; lia).
  apply runs_bind. apply (run_fget_new s b); [done|]. go. rewrite (path_strlen p abs l Hp).
  apply (runs_deref _ (Z.of_nat (length ((if abs then [SLASH] else []) ++ render l)))); [done|].
  rewrite (proj2 (Z.ltb_ge NAME_LEN _)) by (unfold NAME_LEN; lia). rewrite Hm.
  apply runs_bind. eapply runs_upd_file; [cbn; apply lookup_insert_eq|]. unfold with_fresh. rewrite set_files_twice.
  set (f := fs_next (vfs_fs s)) in *. set (y := with_fmode m fresh_file). set (s1 := set_files (insert f y) (set_fs (bump 1 b (vfs_fs s)) s)).
  pose proof (run_open_namev s1 p abs l start v oflags None Hp) as Ho.
  change (fs_i (vfs_fs s1)) with (fs_i (vfs_fs s)) in Ho. rewrite Hres in Ho.
  apply runs_bind. eapply runs_mono.
  { apply Ho; [apply inv_bump; [apply HV|lia]|intros w; specialize (Hfew w); unfold rc in *; cbn; lia|by destruct abs|done|cbn; lia]. }
  intros r s2 (vn & v' & t' & -> & -> & HI' & HT & Hn & Hrc & Hv' & Ev' & Hmode). cbn [fst snd].
  change (negb (0 =? 0)) with false. cbv iota. apply runs_bind, (runs_deref _ vn); [done|].
  apply runs_bind, runs_fs, (runs_get_vnode vn v'); [done|].
  match goal with |- runs _ ?st _ => replace st with (set_fs t' s1) by done end.
  rewrite Hmode. change (S_ISDIR S_IFDIR) with true. change (S_ISCHR S_IFDIR) with false. change (S_ISBLK S_IFDIR) with false. cbn [andb orb].
  fold (for_writing oflags). cbn [vfs_fs set_fs s1 set_files bump fs_next] in Hn. destruct (for_writing oflags).
  - apply runs_bind. eapply run_fput_last; [cbn; apply lookup_insert_eq|cbn; lia|cbn; lia|done|]. cbn [f_vnode y with_fmode fresh_file].
    apply runs_bind, runs_fs. assert (Hsmall : vn_refcount v' < 2 ^ 31).
    { specialize (Hrc vn). rewrite one_eq in Hrc. unfold rc in Hrc at 1. rewrite Hv' in Hrc. specialize (Hfew vn). unfold rc in *. cbn in Hrc. lia. }
    eapply runs_mono; [apply (run_vput none t' vn v'); done|]. intros [] t2 Hput. go.
    destruct (put_counters _ _ _ Hput) as (En & Er & _).
    replace (set_fs t2 (set_files (delete f) (set_fs t' s1))) with (set_fs t2 s).
    2:{ unfold s1, set_fs, set_files. cbn. by rewrite delete_insert_id. }
    split; [|done]. apply vinv_fs; [done|eapply put_inv; [exact HI'|done|by intros]| | |lia].
    + intros w. rewrite (put_rc none _ _ _ HI' Hput), Hrc. unfold rc. cbn. lia.
    + rewrite Er. exact (tree_root _ _ HT).
  - apply runs_bind. eapply runs_upd_file; [cbn; apply lookup_insert_eq|]. apply runs_bind, run_set_fd; [done|]. go.
    cbn [y with_fmode with_fvnode fresh_file f_pos f_mode f_refcount].
    replace (set_files (insert f (mk_file 0 m 1 (Some vn))) (set_fs t' s1)) with (set_files (insert f (mk_file 0 m 1 (Some vn))) (set_fs t' s)).
    2:{ unfold s1, set_fs, set_files. cbn. by rewrite insert_insert_eq. }
    split; [|split; [done|split; [done|by exists f, vn, v']]].
    apply (vinv_open s HV f _ (Z.to_nat i) vn t'); try done; [exact (tree_root _ _ HT)|lia|lia].
Qed.

(** ** Changing directory *)

(** The working directory is replaced by another, or given up, or set first. *)
Lemma vinv_chdir s old new t : vinv_at old s -> inv none t -> (forall w, rc t w = rc (vfs_fs s) w + points new w - points old w) ->
  fs_root t = fs_root (vfs_fs s) -> fs_next (vfs_fs s) <= fs_next t -> vinv (set_cwd new (set_fs t s)).
Proof.
  intros [HI Hlen Hf Hfd Htot Hrc Hroot] Ht Hr Er Hn. split; cbn; try done.
  - intros f x Hx. destruct (Hf f x Hx) as (A & B & C). split; [done|]. split; [done|lia].
  - intros w. rewrite Hr, Hrc. unfold owned. cbn. lia.
  - congruence.
Qed.

Lemma points_one vn w : points (Some vn) w = one vn w.
Proof.
  unfold points, one. destruct (Z.eqb_spec w vn) as [->|Hne]; [by rewrite decide_True|by rewrite decide_False by congruence].
Qed.

Lemma run_chdir s p abs l ino c :
  vinv s -> names_in s p abs l ino -> p_cwd s = Some c -> (length l <= fs_budget (vfs_fs s))%nat ->
  runs (do_chdir (Some p)) s (fun r s' => r = 0 /\ vinv s' /\ files s' = files s /\ p_files s' = p_files s
    /\ exists vn v, p_cwd s' = Some vn /\ vnodes (vfs_fs s') !! vn = Some v /\ vn_vno v = ino).
Proof.
  intros HV [Hp (start & v & Hst & Hv & Hres)] Hc Hb. pose proof (vinv_few s HV) as Hfew.
  unfold do_chdir, path_len. go. rewrite (path_strlen p abs l Hp).
  apply (runs_deref _ (Z.of_nat (length ((if abs then [SLASH] else []) ++ render l)))); [done|].
  pose proof (pa_short _ _ _ _ Hp) as Hshort. rewrite app_nil_r in Hshort.
  rewrite (proj2 (Z.ltb_ge MAXPATHLEN _)) by (unfold MAXPATHLEN; lia).
  pose proof (run_open_namev s p abs l start v 0 None Hp) as Ho. rewrite Hres in Ho.
  apply runs_bind. eapply runs_mono; [apply Ho; [apply HV|intros w; specialize (Hfew w); lia|done|done|lia]|].
  intros r s2 (vn & v' & t' & -> & -> & HI' & HT & Hn & Hrc & Hv' & Ev' & Hmode). cbn [fst snd].
  change (0 <? 0) with false. cbv iota. apply runs_bind, (runs_deref _ vn); [done|].
  apply runs_bind, (run_mode _ vn v'); [done|]. rewrite Hmode. change (negb (S_ISDIR S_IFDIR)) with false. cbv iota. go.
  unfold vput_var. cbn [p_cwd set_fs]. rewrite Hc. apply runs_bind, (runs_deref _ c); [done|]. apply runs_fs. cbn [vfs_fs set_fs].
  assert (Hc0 : 0 < rc t' c).
  { rewrite Hrc. destruct (vinv_cwd s HV c Hc) as [cv Hcv]. destruct (rc_pos none _ _ _ (vi_fs s HV) Hcv). pose proof (one_range vn c). lia. }
  destruct (rc_vnode none t' c HI' Hc0) as (cv & Hcv & Ecv).
  assert (Hsmall : vn_refcount cv < 2 ^ 31). { rewrite Ecv, Hrc. specialize (Hfew c). pose proof (one_range vn c). lia. }
  eapply runs_mono; [apply (run_vput none t' c cv); done|]. intros [] t2 Hput. go.
  destruct (put_counters _ _ _ Hput) as (En & Er & _). pose proof (put_rc none _ _ _ HI' Hput) as Hrc2.
  split; [done|]. split; [|split; [done|split; [done|]]].
  - apply (vinv_chdir s (Some c) (Some vn) t2); [by rewrite <- Hc|eapply put_inv; [exact HI'|done|by intros]| |rewrite Er; exact (tree_root _ _ HT)|lia].
    intros w. rewrite Hrc2, Hrc, !points_one. lia.
  - exists vn. destruct (put_vnode _ _ _ vn Hput v' Hv') as [c' Hv2].
    + rewrite Hrc2, Hrc, one_eq. destruct (decide (vn = c)) as [->|Hne]; [|unfold one; rewrite (proj2 (Z.eqb_neq vn c)) by done; specialize (Hfew vn); lia].
      rewrite one_eq. destruct (vinv_cwd s HV c Hc) as [w Hw]. destruct (rc_pos none _ _ _ (vi_fs s HV) Hw). lia.
    + exists (with_refcount c' v'). done.
Qed.

(** ** Mounting and shutting down *)

Lemma run_vfs_init s : pristine (vfs_fs s) -> (5 <= fs_budget (vfs_fs s))%nat -> files s = ∅ -> p_files s = repeat None 32 -> p_cwd s = None ->
  runs vfs_init s (fun _ s' => vinv s' /\ is_Some (vfs_root_vn s') /\ p_cwd s' = None /\ p_files s' = repeat None 32).
Proof.
  intros [Hv Hl Hi _] Hb Hf Hp Hc. destruct (fs_budget (vfs_fs s)) as [|b] eqn:Eb; [lia|].
  unfold vfs_init. apply runs_bind, runs_fs. unfold mem_alloc. go. rewrite Eb. go.
  apply runs_fs. cbn [vfs_fs set_fs mountfunc ramfs_vops].
  eapply runs_mono; [apply run_mount; split; cbn; try done; lia|].
  intros r t (-> & HI & vn & v & p & nd & Hroot & HD & _ & Hrc & _ & _ & _ & Hvs). change (0 <? 0) with false. cbv iota. go.
  split; [|split; [cbn; rewrite Hroot; by eexists|done]]. split; cbn; rewrite ?Hf, ?Hp, ?Hc; try done.
  - intros f Hin. by apply list_elem_of_In, repeat_spec in Hin.
  - intros w. unfold owned. cbn. rewrite Hf, msum_empty, Hroot, points_one. unfold rc, one, points. rewrite Hvs.
    destruct (Z.eqb_spec w vn) as [->|Hne]; [by rewrite lookup_singleton_eq, Hrc|by rewrite lookup_singleton_ne].
Qed.

Lemma run_in_use (t : fsys ramfs) r v l :
  vnodes t !! r = Some v -> vn_refcount v = 1 -> vn_nrespages v = 0 -> fs_root t = Some r ->
  (forall vn, vn ∈ l -> vn = r) -> in_use_loop l 0 t = Done 0 t.
Proof.
  intros Hv Hr Hn Hroot. induction l as [|vn l IH]; intros Hl; [done|].
  assert (vn = r) as -> by (apply Hl; by apply elem_of_cons; left).
  assert (R : runs (in_use_loop (r :: l) 0) t (fun a t' => a = 0 /\ t' = t)).
  { cbn [in_use_loop]. run. apply runs_assert; [by rewrite Hn, Hr|]. apply runs_bind, runs_assert; [by rewrite Hn|].
    cbv zeta. rewrite Hn, Hr, Hroot. rewrite bool_decide_eq_true_2 by done.
    apply runs_bind, runs_assert; [done|]. apply runs_bind, runs_assert; [done|]. cbn [andb orb Z.sub Z.ltb negb]. 
    change (1 - 0) with 1. change (1 <? 1) with false. cbn [andb orb negb].
    eapply runs_done; [apply IH; intros x Hx; apply Hl; by apply elem_of_cons; right|done]. }
  by destruct R as (a & t' & -> & -> & ->).
Qed.

Lemma nothing_open s : vinv s -> p_files s = repeat None 32 -> files s = ∅.
Proof.
  intros HV Hp. apply map_eq. intros f. rewrite lookup_empty. destruct (files s !! f) as [x|] eqn:Hx; [|done].
  destruct (vi_file s HV f x Hx) as ([_ _ Hr _] & E & _). rewrite Hp in E.
  assert (fds f (repeat None 32) = 0) by done. lia.
Qed.

Lemma run_shutdown s r : vinv s -> p_files s = repeat None 32 -> p_cwd s = None -> vfs_root_vn s = Some r ->
  runs vfs_shutdown s (fun a s' => a = 0 /\ vnodes (vfs_fs s') = ∅ /\ vnode_inuse_list (vfs_fs s') = []).
Proof.
  intros HV Hp Hc Hr. pose proof (nothing_open s HV Hp) as Hf. pose proof (vi_fs s HV) as HI.
  assert (Hrc : forall w, rc (vfs_fs s) w = one r w).
  { intros w. rewrite (vi_rc s HV). unfold owned. rewrite Hf, Hc, Hr, msum_empty, points_one. done. }
  destruct (vinv_root s HV r Hr) as [v Hv]. assert (Hroot : fs_root (vfs_fs s) = Some r) by (by rewrite <- (vi_root s HV)).
  assert (Hone : vn_refcount v = 1) by (specialize (Hrc r); rewrite one_eq in Hrc; unfold rc in Hrc; by rewrite Hv in Hrc).
  assert (Honly : forall w, is_Some (vnodes (vfs_fs s) !! w) -> w = r).
  { intros w [x Hw]. destruct (rc_pos none _ _ _ HI Hw) as [_ Hpos]. rewrite Hrc in Hpos. unfold one in Hpos.
    by destruct (Z.eqb_spec w r). }
  unfold vfs_shutdown. go. apply runs_fs. destruct (inv_vnode none _ HI r v Hv) as [_ _ Hn _ _].
  eapply runs_done; [unfold vfs_is_in_use; rewrite (kbind_done kget _ _ _ _ eq_refl); apply (run_in_use _ r v);
    [done|done|done|done|intros w Hw; apply Honly; by apply (inv_list none _ HI)]|].
  change (0 <? 0) with false. cbv iota. apply runs_bind, runs_fs. cbn [umount ramfs_vops]. unfold ramfs_umount.
  rewrite set_fs_id. go.
  eapply runs_mono; [apply (run_vput none _ r v HI Hv); lia|]. intros [] t Hput. go.
  destruct Hput as (v' & p & nd & Hv' & _ & _ & Et). assert (v' = v) as -> by congruence. rewrite Hone in Et.
  change (1 =? 1) with true in Et. cbv iota in Et.
  assert (Hvs : vnodes t = ∅).
  { rewrite Et. unfold gone. destruct (rf_linkcount nd =? 1); cbn; apply map_eq; intros w; rewrite lookup_empty;
      (destruct (decide (w = r)) as [->|Hne]; [by rewrite lookup_delete_eq|rewrite lookup_delete_ne by done]);
      (destruct (vnodes (vfs_fs s) !! w) as [x|] eqn:Hw; [by destruct Hne; apply Honly; eexists|done]). }
  assert (Hlist : vnode_inuse_list t = []).
  { rewrite Et. unfold gone. destruct (rf_linkcount nd =? 1); cbn; apply list_filter_none; intros w Hw;
      (intros Hne; apply Hne, Honly; by apply (inv_list none _ HI)). }
  apply runs_fs. unfold vnode_inuse. go. cbn [vfs_fs set_fs]. cbn [vnode_inuse_list set_inodes set_fs_i]. rewrite Hlist.
  apply runs_assert; [done|]. go. split; [done|]. split; done.
Qed.

End calls.

End VfsCalls.
