(* ===== verification/VfsPaths.v ===== *)
(** * System calls on path names

    What [do_mkdir], [do_rmdir], [do_mknod], [do_unlink] and [do_stat] hold while they
    run, and that they give all of it back: the invariant [vinv] of the descriptor
    table and the reference counts holds again when they return. *)

From S2P Require Import Prelude KString Vnode Ramfs RamfsInv RamfsDir RamfsOps RamfsFile Vfs VfsName VfsFiles VfsCalls.

Module VfsPaths.
Import KString Vnode Ramfs RamfsInv RamfsDir RamfsOps RamfsFile Vfs VfsName VfsFiles VfsCalls.

Local Open Scope Z_scope.

(** ** References held by a call in progress *)

Definition times (X : list Z) (w : Z) : Z := foldr (fun vn n => one vn w + n) 0 X.

Lemma times_range X w : 0 <= times X w <= Z.of_nat (length X).
Proof. induction X as [|vn X IH]; cbn; [done|]. pose proof (one_range vn w). fold (times X w). lia. Qed.

(** The file system [t] is that of [s], but that each vnode of [X] is held once more
    for every time it is in [X]. *)
Record holds (s : vfs ramfs) (X : list Z) (t : fsys ramfs) : Prop := {
  hd_inv : inv none t;
  hd_rc : forall w, rc t w = rc (vfs_fs s) w + times X w;
  hd_root : fs_root t = fs_root (vfs_fs s);
  hd_next : fs_next (vfs_fs s) <= fs_next t
}.

Lemma holds_swap s a b t : holds s [a; b] t -> holds s [b; a] t.
Proof. intros [A1 A2 A3 A4]. split; [done| |done|done]. intros w. rewrite A2. cbn. lia. Qed.

(** A path with a slash at the end, from a directory in core, and memory for the
    vnodes and inodes that a call on it may need. *)
Record path_call (s : vfs ramfs) (p : path) (abs : bool) (l : list (list Z * nat)) (v : vnode) : Prop := {
  pc_path : is_path p abs l [];
  pc_start : exists start, (if abs then vfs_root_vn s else p_cwd s) = Some start /\ vnodes (vfs_fs s) !! start = Some v;
  pc_budget : (length l + 4 <= fs_budget (vfs_fs s))%nat
}.

(** The directory that holds the last component, and the last component. *)
Definition parent_ino (s : vfs ramfs) (l : list (list Z * nat)) (v : vnode) : Z + Z :=
  resolve (fs_i (vfs_fs s)) (vn_vno v) (removelast (fst <$> l)).
Definition last_name (l : list (list Z * nat)) : list Z := List.last (fst <$> l) [].

Section calls.
Context `{Platform ramfs} (s : vfs ramfs) (HV : vinv s).

Lemma holds_calm X t : holds s X t -> (length X <= 8)%nat -> calm t.
Proof.
  intros [_ Hr _ _] HX w v Hv. specialize (Hr w). unfold rc in Hr at 1. rewrite Hv in Hr.
  pose proof (vinv_few s HV w). pose proof (times_range X w). lia.
Qed.

Lemma holds_none t : holds s [] t -> vinv (set_fs t s).
Proof. intros [HI Hr Er En]. apply (vinv_fs s HV); [done| |done|done]. intros w. rewrite Hr. cbn. lia. Qed.

Lemma holds_steady X t t' : holds s X t -> inv none t' -> steady t t' -> holds s X t'.
Proof. intros [_ Hr Er En] HI [S1 S2 S3]. split; [done| |congruence|lia]. intros w. by rewrite S1. Qed.

Lemma holds_got X i t vn t' : holds s X t -> got i t vn t' -> holds s (vn :: X) t'.
Proof.
  intros [HI Hr Er En] Hg. pose proof (got_next _ _ _ _ Hg). destruct (got_keeps none _ _ _ _ HI Hg) as [_ _ _ Kr _].
  split; [by eapply got_inv| |congruence|lia]. intros w. rewrite (got_rc none _ _ _ _ HI Hg), Hr. cbn. fold (times X w). lia.
Qed.

Lemma holds_core vn X t : holds s (vn :: X) t -> exists v, vnodes t !! vn = Some v /\ vn_refcount v = rc t vn.
Proof.
  intros [HI Hr _ _]. apply (rc_vnode none); [done|]. rewrite Hr. cbn. fold (times X vn). rewrite one_eq.
  pose proof (vinv_few s HV vn). pose proof (times_range X vn). lia.
Qed.

Lemma holds_put vn X t : holds s (vn :: X) t -> (length X <= 7)%nat ->
  runs (fs_op (vput vn)) (set_fs t s) (fun _ s' => exists t', s' = set_fs t' s /\ holds s X t').
Proof.
  intros HH HX. destruct (holds_core vn X t HH) as (v & Hv & _). pose proof (holds_calm _ _ HH ltac:(cbn; lia) vn v Hv).
  destruct HH as [HI Hr Er En]. apply runs_fs. eapply runs_mono; [apply (run_vput none t vn v HI Hv); lia|].
  intros [] t' Hput. destruct (put_counters _ _ _ Hput) as (En' & Er' & _). exists t'. split; [done|].
  split; [eapply put_inv; [exact HI|exact Hput|done]| |congruence|lia].
  intros w. rewrite (put_rc none _ _ _ HI Hput), Hr. cbn. fold (times X w). lia.
Qed.

(** ** The parent directory *)

(** [d] is the directory with inode number [ino], in core with entries [es], and the
    name of the last component in it. *)
Record parent_at (p : path) (t : fsys ramfs) (ino : Z) (nm : list Z) (d : parent_dir) (es : list dirent) : Prop := {
  pt_vnode : exists v, vnodes t !! d.1.1 = Some v /\ vn_vno v = ino;
  pt_entries : entries (fs_i t) ino = Some es;
  pt_tree : same_tree (vfs_fs s) t;
  pt_name : is_name (at_ p d.1.2) d.2 nm;
  pt_dots : nm ∉ dots;
  pt_str : exists u, is_str (at_ p d.1.2) u /\ SLASH ∈ u /\ (length nm < length u)%nat;
  pt_core : keeps_core (vfs_fs s) t
}.

Lemma parent_dir_vnode p t ino nm d es : inv none t -> parent_at p t ino nm d es ->
  exists v q nd, vnodes t !! d.1.1 = Some v /\ vn_vno v = ino /\ vn_mode v = S_IFDIR /\ vn_ops v = Some fs_dir_vops
    /\ is_dir t d.1.1 v q nd es.
Proof.
  intros HI [(v & Hv & Ev) He _ _ _ _ _]. pose proof (vnode_entries none _ _ _ HI Hv) as Hk. rewrite Ev, He in Hk.
  destruct Hk as ((q & nd & HD) & Hm & Ho). by exists v, q, nd.
Qed.

Lemma last_component l : Forall (fun x => component x.1) l -> l <> [] -> component (last_name l).
Proof.
  intros Hl Hne. unfold last_name. rewrite Forall_forall in Hl. assert (Hin : List.last (fst <$> l) [] ∈ fst <$> l).
  { destruct l as [|x l] using rev_ind; [done|]. rewrite fmap_app. cbn. rewrite List.last_last. set_solver. }
  apply list_elem_of_fmap in Hin as (x & -> & Hx). by apply Hl.
Qed.

Lemma run_namev p abs l v : path_call s p abs l v ->
  runs (dir_namev (Some p) None) s (fun r s' => exists t, s' = set_fs t s /\ (4 <= fs_budget t)%nat /\
    match parent_ino s l v with
    | inl e => r = (e, None) /\ e < 0 /\ holds s [] t
    | inr ino => exists d es, r = (0, Some d) /\ holds s [d.1.1] t /\ parent_at p t ino (last_name l) d es
    end).
Proof.
  intros [Hp (start & Hst & Hv) Hb]. pose proof (vinv_few s HV) as Hfew.
  eapply runs_mono; [apply (run_dir_namev s p abs l [] start v Hp (vi_fs s HV)); try done; [intros w; specialize (Hfew w); lia|lia]|].
  intros r s' (t & -> & HI & HT & Hb' & Hn & Hres). exists t. split; [done|]. split; [lia|]. unfold parent_ino.
  destruct (resolve _ _ _) as [e|ino] eqn:Er.
  - destruct Hres as [-> Hrc]. split; [done|]. split; [by eapply resolve_error|]. split; [done| |exact (tree_root _ _ HT)|done].
    intros w. rewrite Hrc. cbn. lia.
  - destruct Hres as (d & -> & [Hvn Hrc Hname (k & rest & Hat) Hcore]). destruct (resolve_entries _ _ _ _ Er) as [es He].
    pose proof Hp as [_ _ Hcomp Hend _]. rewrite decide_True in Hend by done. pose proof (last_component l Hcomp Hend) as [C1 C2 C3 C4 C5].
    exists d, es. split; [done|]. split.
    + split; [done| |exact (tree_root _ _ HT)|done]. intros w. rewrite Hrc. cbn. lia.
    + split; try done; [by rewrite (entries_tree _ _ _ HT)|]. exists (last_name l ++ repeat SLASH (S k)). rewrite Hat, app_assoc. split.
      * apply is_str_app. rewrite elem_of_app. intros [Hin|Hin]; [done|]. by apply list_elem_of_In, repeat_spec in Hin.
      * split; [cbn; set_solver|]. rewrite length_app. cbn. lia.
Qed.

Lemma run_path_len p abs l v (Q : Z -> vfs ramfs -> Prop) : path_call s p abs l v ->
  (forall n, (MAXPATHLEN <? n) = false -> Q n s) -> runs (path_len (Some p)) s Q.
Proof.
  intros [Hp _ _] HQ. unfold path_len. go. rewrite (path_strlen p abs l Hp).
  apply (runs_deref _ (Z.of_nat (length ((if abs then [SLASH] else []) ++ render l)))); [done|]. apply HQ.
  pose proof (pa_short _ _ _ _ Hp) as Hshort. rewrite app_nil_r in Hshort. apply Z.ltb_ge. unfold MAXPATHLEN. lia.
Qed.

(** [parent_of]: an error with everything given back, or the directory, held, and a
    name that fits in an entry. *)
Lemma run_parent_of p abs l v : path_call s p abs l v ->
  runs (parent_of (Some p)) s (fun r s' => exists t, s' = set_fs t s /\
    ((exists e, r = inl e /\ holds s [] t)
     \/ exists ino d es, parent_ino s l v = inr ino /\ r = inr d /\ holds s [d.1.1] t
          /\ parent_at p t ino (last_name l) d es /\ (length (last_name l) <= 27)%nat /\ (4 <= fs_budget t)%nat)).
Proof.
  intros Hc. unfold parent_of. apply runs_bind. eapply runs_mono; [by apply (run_namev p abs l v)|].
  intros r s' (t & -> & Hb & Hres). destruct (parent_ino s l v) as [e|ino].
  - destruct Hres as (-> & He & HH). cbn [fst]. rewrite (proj2 (Z.ltb_lt e 0) He). go. exists t. split; [done|]. left. eauto.
  - destruct Hres as ([[vn k] len] & es & -> & HH & HP). cbn [fst snd] in *. change (0 <? 0) with false. cbv iota. go.
    pose proof HP as [_ _ _ _ _ (u & Hu & Hsl & Hlen) _]. cbn [fst snd] in *. rewrite (strlen_spec _ _ Hu).
    apply (runs_deref _ (Z.of_nat (length u))); [done|]. destruct (Z.ltb_spec NAME_LEN (Z.of_nat (length u))) as [Hlong|Hlong].
    + apply runs_bind. eapply runs_mono; [by apply (holds_put vn []); [|cbn; lia]|]. intros [] s' (t' & -> & HH'). go. exists t'. split; [done|]. left. eauto.
    + destruct (parent_dir_vnode _ _ _ _ _ _ (hd_inv _ _ _ HH) HP) as (w & q & nd & Hw & _ & Hm & _). cbn [fst] in Hw.
      apply runs_bind, (run_mode _ vn w); [done|]. rewrite Hm. change (negb (S_ISDIR S_IFDIR)) with false. cbv iota. go.
      exists t. split; [done|]. right. exists ino, (vn, k, len), es. unfold NAME_LEN in Hlong. split_and!; try done. lia.
Qed.

Lemma run_name_at p k t (Q : list Z -> vfs ramfs -> Prop) : Q (at_ p k) t -> runs (name_at (Some p) k) t Q.
Proof. intros HQ. unfold name_at. by go. Qed.

(** A call through the table of the directory. *)
Lemma run_via_dir {A} p t ino nm d es (m : kernel (fsys ramfs) A) Q : inv none t -> parent_at p t ino nm d es ->
  runs m t (fun a t' => Q a (set_fs t' s)) -> runs (via_dir d.1.1 m) (set_fs t s) Q.
Proof.
  intros HI HP HQ. destruct (parent_dir_vnode _ _ _ _ _ _ HI HP) as (v & q & nd & Hv & _ & _ & Ho & _).
  unfold via_dir, ops_table. apply runs_bind, runs_bind, runs_fs. apply (runs_get_vnode _ v); [done|]. rewrite Ho. go. by apply runs_fs.
Qed.

(** Looking the last component up: another vnode is held, or there is none. *)
Lemma run_lookup_at p t ino nm d es : holds s [d.1.1] t -> parent_at p t ino nm d es -> (0 < fs_budget t)%nat ->
  runs (lookup d.1.1 (at_ p d.1.2) d.2 None) (set_fs t s) (fun r s' =>
    match dir_find es nm with
    | Some i => exists vn t' v q a, r = (0, Some vn) /\ s' = set_fs t' s /\ holds s [vn; d.1.1] t' /\ parent_at p t' ino nm d es
        /\ (fs_budget t <= S (fs_budget t'))%nat /\ vnodes t' !! vn = Some v /\ vn_mode v = mode_of a /\ vn_i v = Some q
        /\ rfs_inodes (fs_i t') !! i = Some q /\ inodes (fs_i t') !! q = Some a
    | None => r = (- ENOENT, None) /\ s' = set_fs t s
    end).
Proof.
  intros HH HP Hb. pose proof (hd_inv _ _ _ HH) as HI. pose proof HP as [(v & Hv & Ev) He HT Hn Hd (u & Hu & Hsl & Hlen) Hcore].
  pose proof (holds_calm _ _ HH ltac:(cbn; lia)) as Hcalm.
  eapply runs_mono; [eapply (run_lookup (set_fs t s) d.1.1 v); try done; [by rewrite Ev|by apply slash_not_dots]|].
  intros r s'. destruct (dir_find es nm) as [i|] eqn:Ef; [|done]. intros (vn & t' & -> & -> & Hg).
  cbn [vfs_fs set_fs] in Hg. pose proof (holds_got _ _ _ _ _ HH Hg) as HH'. pose proof (hd_inv _ _ _ HH') as HI'.
  destruct (got_tree none _ _ _ _ HI Hg) as [HT' Hsame]. pose proof (got_keeps none _ _ _ _ HI Hg) as [_ _ _ _ Hb'].
  destruct (got_vnode none _ _ _ _ HI Hg) as (w & _ & _ & Hw & Ew & _).
  destruct (inv_vnode none _ HI' vn w Hw) as [_ _ _ _ (q & a & Hq & Ha & Ei & Hm & _)].
  exists vn, t', w, q, a. split_and!; try done.
  - split; try done; [|by rewrite (entries_tree _ _ _ HT')|by etrans|by exists u|].
    2:{ apply (keeps_core_trans _ t); [done|done| |apply HV]. intros y. rewrite (hd_rc _ _ _ HH'). pose proof (times_range [vn; d.1.1] y). lia. }
    destruct (Hsame d.1.1 v Hv) as [c Hc]; [|by exists (with_refcount c v)].
    destruct (holds_core _ _ _ (holds_swap _ _ _ _ HH')) as (x & Hx & Ex). rewrite <- Ex. by destruct (inv_vnode none _ HI' _ _ Hx).
  - rewrite <- Ew. apply (inv_slot none _ HI'). eauto.
Qed.

(** ** The ends of the calls *)

Lemma run_put_one {A} a t (r : A) : holds s [a] t -> runs (fs_op (vput a) ;;; kret r)%kernel (set_fs t s) (fun _ s' => vinv s').
Proof.
  intros HH. apply runs_bind. eapply runs_mono; [by apply (holds_put a []); [|cbn; lia]|]. intros [] s' (t' & -> & HH'). go. by apply holds_none.
Qed.

Lemma run_put_two {A} a b t (r : A) : holds s [a; b] t ->
  runs (fs_op (vput a) ;;; fs_op (vput b) ;;; kret r)%kernel (set_fs t s) (fun _ s' => vinv s').
Proof.
  intros HH. apply runs_bind. eapply runs_mono; [by apply (holds_put a [b]); [|cbn; lia]|]. intros [] s' (t' & -> & HH').
  by apply run_put_one.
Qed.

(** ** Making entries *)

(** The directory is the root or some directory has an entry for it: it has not
    been removed. *)
Definition in_tree (t : fsys ramfs) (ino : Z) : Prop := ino = 0 \/ linked t ino.

Lemma in_tree_attached t ino : inv none t -> in_tree t ino -> attached (inodes (fs_i t)) ino <> 0.
Proof.
  intros HI Hin. unfold attached. assert (Hrange : forall x y, inodes (fs_i t) !! x = Some y -> 0 <= refs ino y).
  { intros x y Hx. apply refs_range. by apply (inv_inode none t HI x). }
  pose proof (msum_nonneg (refs ino) (inodes (fs_i t)) Hrange).
  destruct Hin as [->|(p & nd & l & e & Hp & Hm & He & Hn & Hd & Ei)]; [change (0 =? 0) with true; lia|].
  pose proof (msum_member (refs ino) (inodes (fs_i t)) p nd Hrange Hp) as Hr.
  apply list_elem_of_lookup in He as [k He]. pose proof (refs_pos nd l k e Hm He Hn Hd) as Hr'. rewrite Ei in Hr'.
  destruct (ino =? 0); lia.
Qed.

Lemma parent_can_add p t ino nm d es : inv none t -> parent_at p t ino nm d es -> (length nm <= 27)%nat -> in_tree (vfs_fs s) ino ->
  dir_find es nm = None -> exists v q nd, can_add t d.1.1 v q nd es (at_ p d.1.2) d.2 nm.
Proof.
  intros HI HP Hlen Hin Hf. destruct (parent_dir_vnode _ _ _ _ _ _ HI HP) as (v & q & nd & Hv & Ev & _ & _ & HD).
  destruct HP as [_ _ HT Hn Hd _ _]. exists v, q, nd. split; try done; [by apply dir_find_None; [eapply name_nonempty|]|].
  destruct HD as [Hv' Hi Hp _]. destruct (inv_vnode none t HI _ _ Hv) as [_ _ _ _ (q' & nd' & Hi' & Hp' & Ei & _)].
  assert (q' = q) as -> by congruence. assert (nd' = nd) as -> by congruence. rewrite Ei, Ev. apply in_tree_attached; [done|].
  destruct Hin as [->|Hl]; [by left|right; by eapply linked_tree].
Qed.

Lemma run_do_mkdir p abs l v : path_call s p abs l v -> (forall ino, parent_ino s l v = inr ino -> in_tree (vfs_fs s) ino) ->
  runs (do_mkdir (Some p)) s (fun _ s' => vinv s').
Proof.
  intros Hc Hin. unfold do_mkdir. apply runs_bind. apply (run_path_len p abs l v); [done|]. intros n ->.
  apply runs_bind. eapply runs_mono; [by apply (run_parent_of p abs l v)|].
  intros r s' (t & -> & [(e & -> & HH)|(ino & d & es & Hp & -> & HH & HP & Hlen & Hb)]); [go; by apply holds_none|].
  destruct d as [[vn k] len]. apply runs_bind, run_name_at. apply runs_bind.
  eapply runs_mono; [by apply (run_lookup_at p t ino (last_name l) (vn, k, len) es); [..|lia]|]. intros r s'.
  destruct (dir_find es (last_name l)) as [i|] eqn:Ef.
  - intros (res & t' & w & q & a & -> & -> & HH' & _). cbn [fst snd]. change (0 =? 0) with true. cbv iota.
    apply holds_swap in HH'. apply runs_bind. eapply runs_mono; [by apply (holds_put vn [res]); [|cbn; lia]|]. intros [] s' (t2 & -> & HH2).
    apply runs_bind, (runs_deref _ res); [done|]. by apply run_put_one.
  - intros [-> ->]. cbn [fst snd]. change (- ENOENT =? 0) with false. cbv iota. pose proof (hd_inv _ _ _ HH) as HI.
    destruct (parent_can_add _ _ _ _ _ _ HI HP Hlen (Hin ino Hp) Ef) as (dv & q & nd & HA).
    apply runs_bind. eapply (run_via_dir p t ino _ (vn, k, len)); [done|done|]. cbn [dir_mkdir ramfs_vops].
    eapply runs_mono; [by eapply run_mkdir; [..|lia|]|]. intros r t' (HI' & _ & Hst & _). apply run_put_one. by eapply holds_steady.
Qed.

(** [do_mknod] puts the directory before it makes the entry, so that somebody else must
    hold it. *)
Lemma run_do_mknod p abs l v mode devid : path_call s p abs l v ->
  (forall ino, parent_ino s l v = inr ino -> in_tree (vfs_fs s) ino /\ exists vn w, vnodes (vfs_fs s) !! vn = Some w /\ vn_vno w = ino) ->
  runs (do_mknod (Some p) mode devid) s (fun _ s' => vinv s').
Proof.
  intros Hc Hin. unfold do_mknod. apply runs_bind. apply (run_path_len p abs l v); [done|]. intros n ->.
  destruct (negb (mode =? S_IFCHR) && negb (mode =? S_IFBLK)) eqn:Emode; [by go|].
  assert (Hmode : mode = S_IFCHR \/ mode = S_IFBLK).
  { apply andb_false_iff in Emode as [E|E]; apply negb_false_iff, Z.eqb_eq in E; [by left|by right]. }
  apply runs_bind. eapply runs_mono; [by apply (run_parent_of p abs l v)|].
  intros r s' (t & -> & [(e & -> & HH)|(ino & d & es & Hp & -> & HH & HP & Hlen & Hb)]); [go; by apply holds_none|].
  destruct d as [[vn k] len]. apply runs_bind, run_name_at. apply runs_bind.
  eapply runs_mono; [by apply (run_lookup_at p t ino (last_name l) (vn, k, len) es); [..|lia]|]. intros r s'.
  destruct (dir_find es (last_name l)) as [i|] eqn:Ef.
  - intros (res & t' & w & q & a & -> & -> & HH' & _). cbn [fst snd]. change (0 =? 0) with true. cbv iota.
    apply holds_swap in HH'. apply runs_bind. eapply runs_mono; [by apply (holds_put vn [res]); [|cbn; lia]|]. intros [] s' (t2 & -> & HH2).
    apply runs_bind, (runs_deref _ res); [done|]. by apply run_put_one.
  - intros [-> ->]. cbn [fst snd]. change (- ENOENT =? 0) with false. cbv iota. pose proof (hd_inv _ _ _ HH) as HI.
    destruct (Hin ino Hp) as [Htree (vn' & w & Hw & Ew)]. pose proof HP as [(x & Hx & Ex) He HT Hn Hd Hs Hcore]. cbn [fst snd] in *.
    assert (vn' = vn) as ->.
    { destruct (Hcore vn' w Hw) as [c Hc']. by apply (inv_unique none t HI _ _ _ _ Hc' Hx); rewrite Ex. }
    destruct (rc_pos none _ _ _ (vi_fs s HV) Hw) as [_ Hpos]. pose proof (hd_rc _ _ _ HH vn) as Hrc. cbn in Hrc. rewrite one_eq in Hrc.
    destruct (rc_pos none t vn x HI Hx) as [Hrx _].
    apply runs_bind, runs_fs. eapply runs_mono; [apply (run_vput_tree t vn x HI Hx); [by apply (holds_calm [vn]); [|cbn; lia]|left; lia]|].
    intros [] t2 (HI2 & HT2 & Hr2 & Hsame & Hb2 & Hn2). destruct (Hsame vn x Hx) as [c Hc2]; [rewrite Hr2, one_eq; lia|].
    assert (HH2 : holds s [] t2).
    { split; [done| |rewrite (tree_root _ _ HT2); apply HH|pose proof (hd_next _ _ _ HH); lia]. intros y. rewrite Hr2, (hd_rc _ _ _ HH). cbn. lia. }
    assert (HP2 : parent_at p t2 ino (last_name l) (vn, k, len) es).
    { split; try done; [by exists (with_refcount c x)|by rewrite (entries_tree _ _ _ HT2)|by etrans|].
      apply (keeps_core_trans _ t); [done|done| |apply HV]. intros y. rewrite (hd_rc _ _ _ HH2). cbn. lia. }
    destruct (parent_can_add _ _ _ _ _ _ HI2 HP2 Hlen Htree Ef) as (dv & q & nd & HA).
    eapply (run_via_dir p t2 ino _ (vn, k, len)); [done|done|]. cbn [dir_mknod ramfs_vops].
    eapply runs_mono; [by eapply run_mknod; [..|lia| |]|]. intros r t' (HI' & _ & Hst & _). apply holds_none. by eapply holds_steady.
Qed.

(** ** Removing entries *)

Lemma parent_strcmp p t ino nm d es dot : parent_at p t ino nm d es -> dot ∈ dots ->
  exists r, strcmp (at_ p d.1.2) (dot ++ [NUL]) = Some r /\ (r =? 0) = false.
Proof.
  intros [_ _ _ Hn _ (u & Hu & Hsl & _) _] Hdot.
  assert (Hch : Forall is_char u).
  { destruct Hu as [(rest & E) _]. pose proof (name_chars _ _ _ Hn) as Hc. rewrite E in Hc. by apply Forall_app in Hc as [Hc _]. }
  assert (Hd : is_str (dot ++ [NUL]) dot /\ Forall is_char dot).
  { unfold dots in Hdot. apply elem_of_cons in Hdot as [->|[->|[]%not_elem_of_nil]%elem_of_cons];
      (split; [apply is_str_app; set_solver|repeat constructor; done]). }
  destruct (strcmp_zero _ _ _ _ Hu (proj1 Hd) Hch (proj2 Hd)) as (r & -> & Hr). exists r. split; [done|].
  apply Z.eqb_neq. intros ->. apply (slash_not_dots u Hsl). by rewrite (proj1 Hr eq_refl).
Qed.

Lemma run_do_rmdir p abs l v : path_call s p abs l v -> runs (do_rmdir (Some p)) s (fun _ s' => vinv s').
Proof.
  intros Hc. unfold do_rmdir. apply runs_bind. apply (run_path_len p abs l v); [done|]. intros n ->.
  apply runs_bind. eapply runs_mono; [by apply (run_parent_of p abs l v)|].
  intros r s' (t & -> & [(e & -> & HH)|(ino & d & es & Hp & -> & HH & HP & Hlen & Hb)]); [go; by apply holds_none|].
  destruct d as [[vn k] len]. apply runs_bind, run_name_at.
  destruct (parent_strcmp _ _ _ _ _ _ [DOT] HP ltac:(set_solver)) as (r1 & E1 & Hr1). cbn [fst snd app] in E1. rewrite E1.
  apply runs_bind, (runs_deref _ r1); [done|]. rewrite Hr1.
  destruct (parent_strcmp _ _ _ _ _ _ [DOT; DOT] HP ltac:(set_solver)) as (r2 & E2 & Hr2). cbn [fst snd app] in E2. rewrite E2.
  apply runs_bind, (runs_deref _ r2); [done|]. rewrite Hr2. apply runs_bind.
  eapply runs_mono; [by apply (run_lookup_at p t ino (last_name l) (vn, k, len) es); [..|lia]|]. intros r s'.
  destruct (dir_find es (last_name l)) as [i|] eqn:Ef.
  2:{ intros [-> ->]. cbn [fst snd]. change (negb (- ENOENT =? 0)) with true. cbv iota. by apply run_put_one. }
  intros (res & t' & w & q & a & -> & -> & HH' & HP' & Hb' & Hw & Hm & Hwi & Hslot & Ha). cbn [fst snd]. change (negb (0 =? 0)) with false. cbv iota.
  apply runs_bind, (runs_deref _ res); [done|]. pose proof (hd_inv _ _ _ HH') as HI'.
  pose proof (holds_calm _ _ HH' ltac:(cbn; lia)) as Hcalm.
  destruct (parent_dir_vnode _ _ _ _ _ _ HI' HP') as (dv & q0 & nd & _ & _ & _ & _ & HD).
  apply runs_bind. eapply (run_via_dir p t' ino _ (vn, k, len)); [done|done|]. cbn [dir_rmdir ramfs_vops].
  destruct (mode_cases a) as [[l2 Hl2]|Hf].
  - eapply runs_mono; [eapply run_rmdir; try done; [lia|apply HP'|apply HP']|]. intros r t2 (HI2 & Hst & _). apply run_put_two. by eapply holds_steady.
  - eapply runs_mono; [eapply run_rmdir_file; try done; [lia|apply HP'|apply HP']|]. intros r t2 (_ & HI2 & Hst). apply run_put_two. by eapply holds_steady.
Qed.

Lemma run_do_unlink p abs l v : path_call s p abs l v -> runs (do_unlink (Some p)) s (fun _ s' => vinv s').
Proof.
  intros Hc. unfold do_unlink. apply runs_bind. apply (run_path_len p abs l v); [done|]. intros n ->.
  apply runs_bind. eapply runs_mono; [by apply (run_namev p abs l v)|]. intros r s' (t & -> & Hb & Hres).
  destruct (parent_ino s l v) as [e|ino].
  { destruct Hres as (-> & He & HH). cbn [fst]. rewrite (proj2 (Z.ltb_lt e 0) He). go. by apply holds_none. }
  destruct Hres as ([[vn k] len] & es & -> & HH & HP). cbn [fst snd] in *. change (0 <? 0) with false. cbv iota.
  apply runs_bind, (runs_deref _ (vn, k, len)); [done|].
  destruct (parent_dir_vnode _ _ _ _ _ _ (hd_inv _ _ _ HH) HP) as (x & q & nd & Hx & _ & Hm & _). cbn [fst] in Hx.
  apply runs_bind, (run_mode _ vn x); [done|]. rewrite Hm. change (negb (S_ISDIR S_IFDIR)) with false. cbv iota.
  apply runs_bind, run_name_at. pose proof HP as [_ _ _ _ _ (u & Hu & _) _]. cbn [fst snd] in Hu. rewrite (strlen_spec _ _ Hu).
  apply runs_bind, (runs_deref _ (Z.of_nat (length u))); [done|]. destruct (NAME_LEN <? Z.of_nat (length u)); [by apply run_put_one|].
  apply runs_bind. eapply runs_mono; [by apply (run_lookup_at p t ino (last_name l) (vn, k, len) es); [..|lia]|]. intros r s'.
  destruct (dir_find es (last_name l)) as [i|] eqn:Ef.
  2:{ intros [-> ->]. cbn [fst snd]. change (negb (- ENOENT =? 0)) with true. cbv iota. by apply run_put_one. }
  intros (res & t' & w & q' & a & -> & -> & HH' & HP' & Hb' & Hw & Hmw & Hwi & Hslot & Ha). cbn [fst snd]. change (negb (0 =? 0)) with false. cbv iota.
  apply runs_bind, (runs_deref _ res); [done|]. apply runs_bind, (run_mode _ res w); [done|]. apply holds_swap in HH'.
  pose proof (hd_inv _ _ _ HH') as HI'. pose proof (holds_calm _ _ HH' ltac:(cbn; lia)) as Hcalm.
  destruct (S_ISDIR (vn_mode w)) eqn:Edir; [by apply run_put_two|]. rewrite Hmw in Edir.
  destruct (parent_dir_vnode _ _ _ _ _ _ HI' HP') as (dv & q0 & nd' & _ & _ & _ & _ & HD).
  apply runs_bind. eapply (run_via_dir p t' ino _ (vn, k, len)); [done|done|]. cbn [dir_unlink ramfs_vops].
  eapply runs_mono; [eapply run_unlink; try done; [lia|apply HP'|apply HP']|]. intros r t2 (_ & HI2 & Hst & _). apply run_put_two. by eapply holds_steady.
Qed.

(** ** Asking about a file *)

Lemma run_stat t vn w : inv none t -> vnodes t !! vn = Some w -> runs (ramfs_stat vn) t (fun _ t' => t' = t).
Proof.
  intros HI Hw. destruct (inv_vnode none t HI vn w Hw) as [_ _ _ _ (q & a & Hq & Ha & _ & Hm & _)]. unfold ramfs_stat. run.
  apply (runs_mono _ _ (fun _ t' => t' = t)); [|intros d t' ->; by go].
  destruct ((vn_mode w =? S_IFCHR) || (vn_mode w =? S_IFBLK)) eqn:E; [|by go].
  rewrite Hm in E. unfold mode_of in E. destruct (rf_mem a) as [b|l|d]; [done|done|]. by apply (runs_deref _ (s32 d)).
Qed.

Lemma run_do_stat p abs l v : path_call s p abs l v -> runs (do_stat (Some p)) s (fun _ s' => vinv s').
Proof.
  intros Hc. unfold do_stat. apply runs_bind. apply (run_path_len p abs l v); [done|]. intros n ->.
  apply runs_bind. eapply runs_mono; [by apply (run_parent_of p abs l v)|].
  intros r s' (t & -> & [(e & -> & HH)|(ino & d & es & Hp & -> & HH & HP & Hlen & Hb)]); [go; by apply holds_none|].
  destruct d as [[vn k] len]. apply runs_bind, run_name_at. apply runs_bind.
  eapply runs_mono; [by apply (run_lookup_at p t ino (last_name l) (vn, k, len) es); [..|lia]|]. intros r s'.
  destruct (dir_find es (last_name l)) as [i|].
  2:{ intros [-> ->]. cbn [fst snd]. change (negb (- ENOENT =? 0)) with true. cbv iota. by apply run_put_one. }
  intros (res & t' & w & q & a & -> & -> & HH' & HP' & Hb' & Hw & _). cbn [fst snd]. change (negb (0 =? 0)) with false. cbv iota.
  apply runs_bind, (runs_deref _ res); [done|]. pose proof (hd_inv _ _ _ HH') as HI'. apply holds_swap in HH'.
  apply runs_bind. eapply (run_via_dir p t' ino _ (vn, k, len)); [done|done|]. cbn [vnode_stat ramfs_vops].
  eapply runs_mono; [by apply (run_stat t' res w)|]. intros r t2 ->. by apply run_put_two.
Qed.

End calls.

End VfsPaths.
