(* ===== verification/VfsSpec.v ===== *)
(** * What the virtual file system guarantees

    The reference counts over the sequences of calls of [callable], exiting and
    shutting down, the resolution of paths, the calls that do not do what their
    descriptions say, and the calls outside [callable] that bring the kernel down
    or lose a reference. *)

From S2P Require Import Prelude KString Vnode Ramfs RamfsInv RamfsDir RamfsOps RamfsFile Vfs VfsName VfsFiles VfsCalls VfsPaths.

Module VfsSpec.
Import KString Vnode Ramfs RamfsInv RamfsDir RamfsOps RamfsFile Vfs VfsName VfsFiles VfsCalls VfsPaths.

Local Open Scope Z_scope.

(** ** Sequences of calls *)

Inductive fdcall : Type :=
| Open (p : path) (oflags : Z)
| Close (fd : Z)
| Dup (fd : Z)
| Dup2 (ofd nfd : Z)
| Lseek (fd offset whence : Z)
| ReadFd (fd nbytes : Z)
| WriteFd (fd : Z) (buf : list Z) (nbytes : Z)
| Getdent (fd : Z)
| Chdir (p : path)
| MkDir (p : path)
| RmDir (p : path)
| MkNod (p : path) (mode devid : Z)
| UnlinkAt (p : path)
| StatAt (p : path).

Section calls.
Context `{Platform ramfs}.

Definition do_call (c : fdcall) : kernel (vfs ramfs) Z :=
  match c with
  | Open p oflags => do_open (Some p) oflags
  | Close fd => do_close fd
  | Dup fd => do_dup fd
  | Dup2 ofd nfd => do_dup2 ofd nfd
  | Lseek fd offset whence => do_lseek fd offset whence
  | ReadFd fd nbytes => r <- do_read fd nbytes ;; kret (fst r)
  | WriteFd fd buf nbytes => do_write fd buf nbytes
  | Getdent fd => r <- do_getdent fd ;; kret (fst r)
  | Chdir p => do_chdir (Some p)
  | MkDir p => do_mkdir (Some p)
  | RmDir p => do_rmdir (Some p)
  | MkNod p mode devid => do_mknod (Some p) mode devid
  | UnlinkAt p => do_unlink (Some p)
  | StatAt p => r <- do_stat (Some p) ;; kret (fst r)
  end.

(** The vnode of an open descriptor. *)
Definition fd_vnode (s : vfs ramfs) (fd : Z) (x : file) (v : vnode) : Prop :=
  exists f vn, held s fd f x /\ f_vnode x = Some vn /\ vnodes (vfs_fs s) !! vn = Some v.

(** What is asked of a call.  Paths end in a slash (others are refused, see
    [dir_namev_no_slash]), have no components "." and "..", and there is memory for
    the vnodes and inodes they need; [do_open] gets a path of at most 28 characters
    and flags it knows.  The rest leaves out calls on which the code fails, with an
    example below:
    - [do_open] and [do_chdir] get paths whose directory exists ([open_unresolved]);
    - [do_dup] has a free descriptor to duplicate into ([do_dup_spec_witness]);
    - [do_getdent] is at the position of an entry ([getdent_unaligned]);
    - [do_write] is on a descriptor that is not open for writing, or on a regular file
      and within its one page (no regular file can be opened: [do_open_opens_parent]);
    - [do_mkdir] and [do_mknod] do not make entries in a directory that was removed
      ([orphan_lost]), and [do_mknod] only in a directory that is in core already
      ([mknod_after_put]).
    Closing, [dup2], and seeking by an offset of 32 bits may be called with anything; removing,
    unlinking and asking about a file with any path of that form, whether or not it
    leads anywhere.  [do_link] and [do_rename] are not among the calls ([link_leaks]). *)
Definition callable (s : vfs ramfs) (c : fdcall) : Prop :=
  match c with
  | Open p oflags => (forall i, p_files s !! i <> Some None) \/ exists abs l ino m i, names_in s p abs l ino /\ first_free s i /\ open_mode oflags = Some m
      /\ (length ((if abs then [SLASH] else []) ++ render l) <= 28)%nat /\ (length l < fs_budget (vfs_fs s))%nat
  | Close _ | Dup2 _ _ => True
  | Dup fd => exists i, first_free s i
  | Lseek fd offset _ => - 2 ^ 31 <= offset < 2 ^ 31
  | ReadFd fd nbytes => 0 <= nbytes < 2 ^ 31 /\ forall x v, fd_vnode s fd x v -> vn_mode v = S_IFREG \/ vn_mode v = S_IFDIR
  | WriteFd fd buf nbytes => 0 <= nbytes < 2 ^ 31 /\ nbytes <= Z.of_nat (length buf)
      /\ forall x v, fd_vnode s fd x v -> Z.land (f_mode x) FMODE_WRITE = 0 \/ (vn_mode v = S_IFREG /\ write_at x v <= 4096)
  | Getdent fd => forall x v, fd_vnode s fd x v -> vn_mode v = S_IFDIR /\ exists i, (i <= 128)%nat /\ f_pos x = 32 * Z.of_nat i
  | Chdir p => exists abs l ino, names_in s p abs l ino /\ is_Some (p_cwd s) /\ (length l <= fs_budget (vfs_fs s))%nat
  | MkDir p => exists abs l v, path_call s p abs l v /\ forall ino, parent_ino s l v = inr ino -> in_tree (vfs_fs s) ino
  | MkNod p _ _ => exists abs l v, path_call s p abs l v /\ forall ino, parent_ino s l v = inr ino ->
      in_tree (vfs_fs s) ino /\ exists vn w, vnodes (vfs_fs s) !! vn = Some w /\ vn_vno w = ino
  | RmDir p | UnlinkAt p | StatAt p => exists abs l v, path_call s p abs l v
  end.

Lemma mode_dir t vn v : inv none t -> vnodes t !! vn = Some v -> vn_mode v = S_IFDIR -> exists p nd l, is_dir t vn v p nd l.
Proof.
  intros HI Hv Hm. pose proof (vnode_entries none _ _ _ HI Hv) as He. destruct (entries (fs_i t) (vn_vno v)) as [l|].
  - destruct He as ((p & nd & HD) & _). eauto.
  - by rewrite Hm in He.
Qed.

Lemma closed_keeps s fd f x s' : closed s fd f x s' -> p_files s' = <[Z.to_nat fd := None]> (p_files s) /\ p_cwd s' = p_cwd s /\ vfs_root_vn s' = vfs_root_vn s.
Proof. unfold closed. destruct (f_refcount x =? 1); [intros (vn & t & _ & _ & ->)|intros ->]; done. Qed.

Lemma run_call s c : vinv s -> callable s c -> runs (do_call c) s (fun _ s' => vinv s').
Proof.
  intros HV Hc. destruct c; cbn [do_call callable] in *.
  - destruct Hc as [Hfull|(abs & l & ino & m & i & Hn & Hf & Hm & Hs & Hb)].
    { unfold do_open. apply runs_bind. eapply run_get_empty_fd; [done|intros i (_ & Hf & _); by destruct (Hfull _ Hf)|]. intros _. rewrite Z.eqb_refl. by go. }
    eapply runs_mono; [by eapply run_open|]. by intros r s' (HV' & _).
  - destruct (fd_cases _ s fd HV) as [Hbad|(f & x & Hh)]; [unfold do_close; go; rewrite Hbad; by go|].
    eapply runs_mono; [by eapply run_close|]. intros r s' (_ & Hcl & HV'). by rewrite (proj1 (proj2 (closed_keeps _ _ _ _ _ Hcl))).
  - destruct Hc as [i Hf]. destruct (fd_cases _ s fd HV) as [Hbad|(f & x & Hh)]; [unfold do_dup; go; rewrite Hbad; by go|].
    pose proof (run_dup s fd f x i HV Hh Hf) as E. destruct (i =? 0); (eapply runs_done; [exact E|]); [done|].
    destruct Hf as (_ & Hfree & _). apply (vinv_add_fd s HV f x); [apply Hh|done].
  - destruct (fd_cases _ s ofd HV) as [Hbad|(f & x & Hh)]; [unfold do_dup2; go; rewrite Hbad; by go|].
    destruct (decide (0 <= nfd < NFILES)) as [Hn|Hn].
    + destruct (decide (ofd = nfd)) as [->|Hne].
      * unfold do_dup2. go. rewrite (proj1 (held_good _ _ _ _ Hh)), (proj2 (Z.ltb_ge nfd 0)), (proj2 (Z.leb_gt NFILES nfd)), Z.eqb_refl by lia. cbn [orb]. by go.
      * eapply runs_mono; [by eapply run_dup2|]. by intros r s' (_ & HV' & _).
    + unfold do_dup2. go. rewrite (proj1 (held_good _ _ _ _ Hh)).
      replace ((nfd <? 0) || (NFILES <=? nfd)) with true by (symmetry; apply orb_true_iff; rewrite Z.ltb_lt, Z.leb_le; lia). by go.
  - destruct (fd_cases _ s fd HV) as [Hbad|(f & x & Hh)]; [unfold do_lseek; go; rewrite Hbad; by go|].
    destruct (decide (whence = SEEK_SET \/ whence = SEEK_CUR \/ whence = SEEK_END)) as [Hw|Hw].
    + destruct (held_vnode s fd f x HV Hh) as (vn & v & Hvn & Hv).
      pose proof (run_lseek s fd f x vn v offset whence Hh Hvn Hv Hc Hw) as E. cbv zeta in E.
      destruct (Z.ltb_spec (seek_to x v offset whence) 0); (eapply runs_done; [exact E|]); [done|].
      apply (vinv_pos s HV f x); [apply Hh|]. split; [done|]. unfold seek_to. pose proof (s32_range (f_pos x + offset)).
      pose proof (s32_range (vn_len v + offset)). repeat case_match; lia.
    + unfold do_lseek. go. rewrite (proj1 (held_good _ _ _ _ Hh)).
      replace (negb ((whence =? SEEK_SET) || (whence =? SEEK_CUR) || (whence =? SEEK_END))) with true; [by go|].
      symmetry. rewrite negb_true_iff, !orb_false_iff, !Z.eqb_neq. tauto.
  - destruct Hc as [Hn Hk]. apply runs_bind. destruct (fd_cases _ s fd HV) as [Hbad|(f & x & Hh)]; [unfold do_read; go; rewrite Hbad; by go|].
    destruct (held_vnode s fd f x HV Hh) as (vn & v & Hvn & Hv). destruct (Hk x v) as [Hm|Hm]; [by exists f, vn| |].
    + destruct (vnode_file _ _ _ (vi_fs s HV) Hv) as (_ & p & nd & b & HF); [by rewrite Hm|].
      pose proof (run_do_read s fd f x vn v p nd b nbytes HV Hh Hvn HF Hn) as E. cbv zeta in E.
      destruct (Z.land (f_mode x) FMODE_READ =? 0); (eapply runs_done; [exact E|]); go; [done|].
      apply (vinv_pos s HV f x); [apply Hh|]. apply (length_read_result s vn v p nd b); [apply HV|done|].
      destruct Hh as [_ _ _ [_ Hp _ _] _]. done.
    + eapply runs_done; [eapply run_do_read_dir; try done; by rewrite Hm|]. by go.
  - destruct Hc as (Hn & Hbuf & Hk). destruct (fd_cases _ s fd HV) as [Hbad|(f & x & Hh)]; [unfold do_write; go; rewrite Hbad; by go|].
    destruct (held_vnode s fd f x HV Hh) as (vn & v & Hvn & Hv). destruct (Hk x v) as [Hro|[Hm Hat]]; [by exists f, vn|by eapply runs_done; [eapply run_do_write_ro|]|].
    destruct (vnode_file _ _ _ (vi_fs s HV) Hv) as (_ & p & nd & b & HF); [by rewrite Hm|].
    eapply runs_mono; [by eapply (run_do_write s fd f x vn v p nd b buf nbytes)|]. intros r s'.
    destruct (Z.land (f_mode x) FMODE_WRITE =? 0); [by intros [_ ->]|]. cbv zeta. intros (_ & -> & HI').
    cbn [vfs_fs set_files set_fs] in HI'. set (t' := write_fs x vn v p nd b buf nbytes (vfs_fs s)) in *.
    assert (HV1 : vinv (set_fs t' s)).
    { apply vinv_fs; [done|done| |done|done]. intros w. unfold rc, t', write_fs. cbn [vnodes set_vnodes set_inodes set_fs_i].
      destruct (decide (w = vn)) as [->|Hne]; [rewrite lookup_insert_eq, Hv; done|by rewrite lookup_insert_ne]. }
    apply (vinv_pos _ HV1 f x); [apply Hh|]. destruct Hh as [_ _ _ [_ Hp _ _] _].
    destruct (is_file_ok _ _ _ _ _ _ (vi_fs s HV) HF) as (_ & Hsz & Hlen & _).
    assert (0 <= write_at x v) by (unfold write_at; case_match; lia).
    unfold write_data. rewrite length_take. lia.
  - apply runs_bind. destruct (fd_cases _ s fd HV) as [Hbad|(f & x & Hh)]; [unfold do_getdent; go; rewrite Hbad; by go|].
    destruct (held_vnode s fd f x HV Hh) as (vn & v & Hvn & Hv). destruct (Hc x v) as (Hm & i & Hi & Hpos); [by exists f, vn|].
    destruct (mode_dir _ _ _ (vi_fs s HV) Hv Hm) as (p & nd & l & HD).
    pose proof (run_getdent s fd f x vn v p nd l i HV Hh Hvn HD Hpos Hi) as E.
    assert (Hl : length l = 128%nat) by (by destruct (is_dir_ok _ _ _ _ _ _ _ (vi_fs s HV) HD) as [[D1 _ _] _]).
    destruct (list_find named (drop i l)) as [[k e]|] eqn:Ek; (eapply runs_done; [exact E|]); go; [|done].
    apply list_find_Some in Ek as (Hk & _). apply lookup_lt_Some in Hk. rewrite length_drop in Hk.
    apply (vinv_pos s HV f x); [apply Hh|lia].
  - destruct Hc as (abs & l & ino & Hn & [c Hcwd] & Hb). eapply runs_mono; [by eapply run_chdir|]. by intros r s' (_ & HV' & _).
  - destruct Hc as (abs & l & v & Hp & Ht). by apply (run_do_mkdir s HV p abs l v).
  - destruct Hc as (abs & l & v & Hp). by apply (run_do_rmdir s HV p abs l v).
  - destruct Hc as (abs & l & v & Hp & Ht). by apply (run_do_mknod s HV p abs l v).
  - destruct Hc as (abs & l & v & Hp). by apply (run_do_unlink s HV p abs l v).
  - destruct Hc as (abs & l & v & Hp). apply runs_bind. eapply runs_mono; [by apply (run_do_stat s HV p abs l v)|]. intros r s' HV'. by go.
Qed.

(** The states of a process that starts in the root of a file system just mounted. *)
Inductive vreach : vfs ramfs -> Prop :=
| vreach_start t s s' : pristine t -> (5 <= fs_budget t)%nat ->
    vfs_init (mk_vfs t ∅ (repeat None 32) None None) = Done tt s -> enter_root s = Done tt s' -> vreach s'
| vreach_call s c r s' : vreach s -> callable s c -> do_call c s = Done r s' -> vreach s'.

Lemma run_enter_root s r : vinv s -> vfs_root_vn s = Some r -> p_cwd s = None ->
  runs enter_root s (fun _ s' => vinv s' /\ p_cwd s' = Some r).
Proof.
  intros HV Hr Hc. unfold enter_root. go. rewrite Hr. destruct (vinv_root s HV r Hr) as [v Hv]. pose proof (vinv_calm s HV r v Hv).
  apply runs_fs. eapply runs_mono; [apply (run_vref _ r v); [apply HV|done|lia]|].
  intros [] t (HI & HT & Hrc & _ & _ & Hn). split; [|done].
  change (vinv (set_cwd (Some r) (set_fs t s))). apply (vinv_chdir s None); try done; [by rewrite <- Hc| |exact (tree_root _ _ HT)|cbn in Hn; lia].
  intros w. rewrite Hrc, points_one. unfold points. rewrite decide_False by done. cbn. unfold rc. cbn. lia.
Qed.

Lemma vreach_inv s : vreach s -> vinv s.
Proof.
  induction 1 as [t s s' Hp Hb Hi He|s c r s' _ IH Hc Hr].
  - destruct (run_vfs_init (mk_vfs t ∅ (repeat None 32) None None) Hp Hb eq_refl eq_refl eq_refl) as ([] & s1 & E & HV & [r Hr] & Hc & _).
    pose proof (eq_trans (eq_sym E) Hi) as E1. injection E1 as ->. destruct (run_enter_root s r HV Hr Hc) as ([] & s2 & E2 & HV' & _). congruence.
  - destruct (run_call s c IH Hc) as (r' & s2 & E & HV). congruence.
Qed.

(** ** Exiting *)

Lemma run_close_from n : forall cw s i, 0 <= i -> i + Z.of_nat n = NFILES -> vinv_at cw s ->
  (forall j, (j < Z.to_nat i)%nat -> p_files s !! j = Some None) ->
  runs (close_from n i) s (fun _ s' => vinv_at cw s' /\ p_files s' = repeat None 32 /\ p_cwd s' = p_cwd s /\ vfs_root_vn s' = vfs_root_vn s).
Proof.
  induction n as [|n IH]; intros cw s i Hi Hn HV Hpre; cbn [close_from].
  - go. split; [done|]. split; [|done]. apply list_eq. intros j. destruct (decide (j < 32)%nat) as [Hj|Hj].
    + rewrite Hpre by (unfold NFILES in Hn; lia). clear -Hj. do 32 (destruct j as [|j]; [done|]). lia.
    + rewrite !lookup_ge_None_2; [done|rewrite repeat_length; lia|rewrite (vi_len s HV); lia].
  - go. apply (runs_mono _ _ (fun _ s1 => vinv_at cw s1 /\ p_files s1 = <[Z.to_nat i := None]> (p_files s) /\ p_cwd s1 = p_cwd s /\ vfs_root_vn s1 = vfs_root_vn s)).
    + destruct (bool_decide (is_Some (fd_file s i))) eqn:Eo.
      * destruct (fd_cases _ s i HV) as [Hb|(f & x & Hh)].
        { exfalso. unfold bad_fd in Hb. rewrite Eo, (proj2 (Z.ltb_ge i 0)), (proj2 (Z.leb_gt NFILES i)) in Hb by lia. done. }
        apply runs_bind. eapply runs_mono; [by eapply run_close|]. intros r s1 (-> & Hc & HV1).
        apply runs_assert; [done|]. split; [done|]. by eapply closed_keeps.
      * go. split; [done|]. split; [|done]. apply bool_decide_eq_false in Eo. rewrite list_insert_id; [done|]. unfold fd_file in Eo.
        destruct (p_files s !! Z.to_nat i) as [[g|]|] eqn:E; [by destruct Eo; eexists|done|].
        apply lookup_ge_None in E. rewrite (vi_len s HV) in E. unfold NFILES in Hn. lia.
    + intros [] s1 (HV1 & Hp1 & Hc1 & Hr1). eapply runs_mono; [apply (IH cw s1 (i + 1)); [lia|lia|done|]|].
      * intros j Hj. rewrite Hp1. destruct (decide (j = Z.to_nat i)) as [->|Hne].
        { apply list_lookup_insert_eq. rewrite (vi_len s HV). unfold NFILES in Hn. lia. }
        rewrite list_lookup_insert_ne by done. apply Hpre. lia.
      * intros [] s2 (HV2 & Hp2 & Hc2 & Hr2). split; [done|]. split; [done|]. split; congruence.
Qed.

(** [proc_cleanup] gives everything back. *)
Lemma run_release s : vinv s ->
  runs release_files s (fun _ s' => vinv_at None s' /\ p_files s' = repeat None 32 /\ vfs_root_vn s' = vfs_root_vn s).
Proof.
  intros HV. unfold release_files. go.
  apply (runs_mono _ _ (fun _ s1 => vinv_at None s1 /\ vfs_root_vn s1 = vfs_root_vn s)).
  - destruct (p_cwd s) as [c|] eqn:Hc; [|by go]. destruct (vinv_cwd s HV c eq_refl) as [v Hv]. pose proof (vinv_calm s HV c v Hv).
    apply runs_fs. eapply runs_mono; [apply (run_vput none _ c v (vi_fs s HV) Hv); lia|]. intros [] t Hput. split; [|done].
    destruct (put_counters _ _ _ Hput) as (En & Er & _).
    assert (HV' : vinv_at None (set_cwd None (set_fs t s))).
    { apply (vinv_chdir s (Some c) None t); try done; [eapply put_inv; [apply HV|done|by intros]| |lia].
      intros w. rewrite (put_rc none _ _ _ (vi_fs s HV) Hput), points_one. unfold points. rewrite decide_False by done. lia. }
    destruct HV' as [A1 A2 A3 A4 A5 A6 A7]. by split.
  - intros [] s1 [HV1 Hr1]. eapply runs_mono; [apply (run_close_from (Z.to_nat NFILES) None s1 0); [done|done|done|intros j Hj; cbn in Hj; lia]|].
    intros [] s2 (HV2 & Hp2 & _ & Hr2). split; [done|]. split; [done|congruence].
Qed.

Lemma vinv_gone s : vinv_at None s -> vinv (set_cwd None s).
Proof. intros [A1 A2 A3 A4 A5 A6 A7]. by split. Qed.

End calls.

(** ** A concrete process, for the witnesses *)

Definition before_boot : vfs ramfs := mk_vfs blank_state ∅ (repeat None 32) None None.
Definition after_init : vfs ramfs := match vfs_init before_boot with Done _ s => s | _ => before_boot end.
Definition booted : vfs ramfs := match enter_root after_init with Done _ s => s | _ => before_boot end.
Lemma after_init_eq : vfs_init before_boot = Done tt after_init.
Proof. vm_compute. reflexivity. Qed.
Lemma booted_eq : enter_root after_init = Done tt booted.
Proof. vm_compute. reflexivity. Qed.
Lemma booted_reach : vreach booted.
Proof.
  apply (vreach_start blank_state after_init); [apply blank_pristine|cbn; lia|exact after_init_eq|exact booted_eq].
Qed.

(** The paths "/a/" and "/dev" at an address of the kernel's. *)
Definition path_a : path := mk_path 0xc0100000 [SLASH; 97; SLASH; NUL].
Definition path_dev : path := mk_path 0xc0100000 [SLASH; 100; 101; 118; NUL].
Lemma comp_a : component [97].
Proof. split; [done|set_solver|set_solver|cbn; lia|set_solver]. Qed.
Lemma comp_dev : component [100; 101; 118].
Proof. split; [done|set_solver|set_solver|cbn; lia|set_solver]. Qed.
Lemma is_path_a : is_path path_a true [([97], O)] [].
Proof.
  split; [by exists []|repeat constructor; done|repeat constructor; apply comp_a|done|cbn; lia].
Qed.
Lemma is_path_dev : is_path path_dev true [] [100; 101; 118].
Proof. split; [by exists []|repeat constructor; done|constructor|apply comp_dev|cbn; lia]. Qed.

Definition booted_root : Z := 5.
Lemma booted_root_vn : vfs_root_vn booted = Some booted_root.
Proof. vm_compute. reflexivity. Qed.
Lemma booted_vnode : exists v, vnodes (vfs_fs booted) !! booted_root = Some v /\ vn_vno v = 0.
Proof. eexists. split; vm_compute; reflexivity. Qed.
Lemma booted_names : names_in booted path_a true [([97], O)] 0.
Proof.
  split; [apply is_path_a|]. exists booted_root. eexists. split; [apply booted_root_vn|]. split; vm_compute; reflexivity.
Qed.
Lemma booted_free : first_free booted 0.
Proof. split; [done|]. split; [vm_compute; reflexivity|lia]. Qed.

(** The state with the root directory open as descriptor 0. *)
Definition opened : vfs ramfs := match do_open (Some path_a) O_RDONLY booted with Done _ s => s | _ => booted end.
Lemma opened_reach : vreach opened.
Proof.
  apply (vreach_call booted (Open path_a O_RDONLY) 0 opened booted_reach); [|vm_compute; reflexivity].
  right. exists true, [([97], O)], 0, FMODE_READ, 0. split; [apply booted_names|]. split; [apply booted_free|]. split; [done|].
  split; [cbn; lia|]. apply Nat.ltb_lt. vm_compute. reflexivity.
Qed.
Definition opened_file : file := mk_file 0 FMODE_READ 1 (Some booted_root).
Lemma opened_held : held opened 0 6 opened_file.
Proof. split; [done|vm_compute; reflexivity|vm_compute; reflexivity|split; try done; by eexists|done]. Qed.

(** The path "/a/b/", and the states with the directory "/a" made, entered, and open
    as descriptor 0. *)
Definition path_a_b : path := mk_path 0xc0100000 [SLASH; 97; SLASH; 98; SLASH; NUL].
Definition comps_a_b : list (list Z * nat) := [([97], O); ([98], O)].
Lemma is_path_a_b : is_path path_a_b true comps_a_b [].
Proof.
  split; [by exists []|repeat constructor; done| |done|cbn; lia].
  constructor; [apply comp_a|]. constructor; [|constructor]. split; [done|set_solver|set_solver|cbn; lia|set_solver].
Qed.

Definition with_dir : vfs ramfs := match do_mkdir (Some path_a) booted with Done _ s => s | _ => booted end.
Definition in_dir : vfs ramfs := match do_chdir (Some path_a_b) with_dir with Done _ s => s | _ => booted end.
Definition dir_open : vfs ramfs := match do_open (Some path_a_b) O_RDONLY in_dir with Done _ s => s | _ => booted end.

Lemma with_dir_reach : vreach with_dir.
Proof.
  destruct booted_vnode as (v & Hv & Ev). apply (vreach_call booted (MkDir path_a) 0 with_dir booted_reach); [|vm_compute; reflexivity].
  exists true, [([97], O)], v. split.
  - split; [apply is_path_a|by exists booted_root|apply Nat.leb_le; vm_compute; reflexivity].
  - intros ino Hino. left. unfold parent_ino in Hino. rewrite Ev in Hino. vm_compute in Hino. by injection Hino.
Qed.

Lemma names_a_b s : vfs_root_vn s = Some booted_root -> vn_vno <$> vnodes (vfs_fs s) !! booted_root = Some 0 ->
  resolve (fs_i (vfs_fs s)) 0 [[97]] = inr 1 -> names_in s path_a_b true comps_a_b 1.
Proof.
  intros Hr Hv Hres. split; [apply is_path_a_b|]. destruct (vnodes (vfs_fs s) !! booted_root) as [v|] eqn:E; [|discriminate Hv].
  exists booted_root, v. split; [exact Hr|]. split; [exact E|]. injection Hv as ->. exact Hres.
Qed.

Lemma in_dir_reach : vreach in_dir.
Proof.
  apply (vreach_call with_dir (Chdir path_a_b) 0 in_dir with_dir_reach); [|vm_compute; reflexivity].
  exists true, comps_a_b, 1. split; [apply names_a_b; vm_compute; reflexivity|]. split; [eexists; vm_compute; reflexivity|].
  apply Nat.leb_le. vm_compute. reflexivity.
Qed.

Lemma dir_open_reach : vreach dir_open.
Proof.
  apply (vreach_call in_dir (Open path_a_b O_RDONLY) 0 dir_open in_dir_reach); [|vm_compute; reflexivity].
  right. exists true, comps_a_b, 1, FMODE_READ, 0. split; [apply names_a_b; vm_compute; reflexivity|].
  split; [split; [done|split; [vm_compute; reflexivity|lia]]|]. split; [done|].
  split; [cbn; lia|]. apply Nat.ltb_lt. vm_compute. reflexivity.
Qed.

(** ** The theorems *)

(** C1: in every state that a process reaches from a file system just mounted by
    calls of [callable] (it opens, closes, duplicates, seeks, reads, writes, lists,
    changes directory, makes and removes directories, makes and unlinks special
    files, asks about files), the reference count of an open file is the number of
    descriptors that point to it; the reference count of a vnode is the number of
    files open on it, plus one if it is the working directory, plus one if it is the
    root; no reference count exceeds 34; and every such call returns: no assertion
    fails and nothing that was freed is used.  [callable] leaves out calls on which
    the code does fail or lose a reference; the examples at the end show them. *)
Theorem vfs_reference_counts `{Platform ramfs} s :
  vreach s ->
  (forall f x, files s !! f = Some x -> f_refcount x = fds f (p_files s) /\ 0 < f_refcount x)
  /\ (forall vn v, vnodes (vfs_fs s) !! vn = Some v ->
        vn_refcount v = msum (opens vn) (files s) + points (p_cwd s) vn + points (vfs_root_vn s) vn
        /\ 0 < vn_refcount v <= 34)
  /\ (forall c, callable s c -> exists r s', do_call c s = Done r s' /\ vreach s').
Proof.
  intros HR. pose proof (vreach_inv s HR) as HV. split; [|split].
  - intros f x Hx. destruct (vi_file s HV f x Hx) as ([_ _ Hr _] & E & _). done.
  - intros vn v Hv. destruct (rc_pos none _ _ _ (vi_fs s HV) Hv) as [E Hpos]. pose proof (vinv_few s HV vn).
    split; [by rewrite <- E, (vi_rc s HV)|lia].
  - intros c Hc. destruct (run_call s c HV Hc) as (r & s' & E & _). exists r, s'. split; [done|]. by eapply vreach_call.
Qed.

(** The directory "/a" is the working directory and open; it can be removed. *)
Lemma vfs_reference_counts_witness :
  (forall v, vnodes (vfs_fs dir_open) !! booted_root = Some v -> vn_refcount v = 1)
  /\ (exists vn v, p_cwd dir_open = Some vn /\ vn <> booted_root /\ vnodes (vfs_fs dir_open) !! vn = Some v /\ vn_refcount v = 2)
  /\ exists r s', do_call (RmDir path_a) dir_open = Done r s' /\ vreach s'.
Proof.
  destruct (vfs_reference_counts dir_open dir_open_reach) as (_ & Hv & Hc). split; [|split].
  - intros v Hlook. destruct (Hv booted_root v Hlook) as [E _]. rewrite E. vm_compute. reflexivity.
  - assert (Hw : exists vn v, p_cwd dir_open = Some vn /\ vn <> booted_root /\ vnodes (vfs_fs dir_open) !! vn = Some v).
    { eexists _, _. split; [vm_compute; reflexivity|]. split; [discriminate|]. vm_compute. reflexivity. }
    destruct Hw as (vn & v & Hcwd & Hne & Hlook). exists vn, v. split; [exact Hcwd|]. split; [exact Hne|]. split; [exact Hlook|].
    destruct (Hv vn v Hlook) as [E _]. rewrite E. vm_compute in Hcwd. injection Hcwd as <-. vm_compute. reflexivity.
  - apply Hc. assert (Hr : exists v, vnodes (vfs_fs dir_open) !! booted_root = Some v) by (eexists; vm_compute; reflexivity).
    destruct Hr as [v Hr]. exists true, [([97], O)], v.
    split; [apply is_path_a|exists booted_root; split; [vm_compute; reflexivity|exact Hr]|apply Nat.leb_le; vm_compute; reflexivity].
Defined.

(** C25: in every state that a process reaches by the calls of [callable], it can
    exit, giving up its working directory and closing its files, and then the file
    system can be shut down: no vnode is found in use, none is left, and the call
    returns 0.  (After a failing [do_link], which is not among those calls, it cannot:
    [link_leak_shutdown].) *)
Theorem vfs_exit_shutdown `{Platform ramfs} s :
  vreach s -> is_Some (vfs_root_vn s) ->
  exists s', (release_files ;;; kmodify (set_cwd None) ;;; vfs_shutdown)%kernel s = Done 0 s'
    /\ vnodes (vfs_fs s') = ∅ /\ vnode_inuse_list (vfs_fs s') = [].
Proof.
  intros HR [r Hr]. destruct (run_release s (vreach_inv s HR)) as ([] & s1 & E1 & HV1 & Hp1 & Hr1).
  destruct (run_shutdown (set_cwd None s1) r (vinv_gone s1 HV1) Hp1 eq_refl ltac:(cbn; congruence)) as (a & s2 & E2 & -> & Hv & Hl).
  exists s2. split; [|done]. rewrite (kbind_done _ _ _ _ _ E1). rewrite (kbind_done (kmodify _) _ _ _ _ eq_refl). exact E2.
Qed.

Lemma vfs_exit_shutdown_witness :
  exists s', (release_files ;;; kmodify (set_cwd None) ;;; vfs_shutdown)%kernel dir_open = Done 0 s'
    /\ vnodes (vfs_fs s') = ∅ /\ vnode_inuse_list (vfs_fs s') = [].
Proof. apply (vfs_exit_shutdown dir_open dir_open_reach). exists booted_root. vm_compute. reflexivity. Defined.



(** [dir_namev] never accepts a path that does not end in a slash: where the
    components before the last one can be resolved it returns -ENAMETOOLONG
    whatever the length of the last one (the length is computed from a null
    pointer), so that [do_mkdir] of such a path, "/dev" at boot among them, fails
    and makes nothing. *)
Theorem dir_namev_no_slash `{Platform ramfs} s p abs l e start v :
  vreach s -> is_path p abs l e -> e <> [] -> (if abs then vfs_root_vn s else p_cwd s) = Some start ->
  vnodes (vfs_fs s) !! start = Some v -> (length l <= fs_budget (vfs_fs s))%nat ->
  2 ^ 31 < pa_addr p -> pa_addr p + Z.of_nat (length (pa_str p)) < 2 ^ 32 - 28 ->
  exists err t', err < 0 /\ dir_namev (Some p) None s = Done (err, None) (set_fs t' s)
    /\ do_mkdir (Some p) s = Done err (set_fs t' s) /\ same_tree (vfs_fs s) t'
    /\ (forall ino, resolve (fs_i (vfs_fs s)) (vn_vno v) (fst <$> l) = inr ino -> err = - ENAMETOOLONG).
Proof.
  intros HR Hp He Hst Hv Hb Ha1 Ha2. pose proof (vreach_inv s HR) as HV.
  assert (Hfew : forall w, rc (vfs_fs s) w < 2 ^ 29) by (intros w; pose proof (vinv_few s HV w); lia).
  destruct (run_dir_namev_no_slash s p abs l e start v Hp (vi_fs s HV) Hfew Hst Hv He Hb Ha1 Ha2) as (r & s' & E & t' & -> & _ & HT & _ & ->).
  set (err := match resolve _ _ _ with inl _ => _ | inr _ => _ end) in E.
  assert (Herr : err < 0).
  { unfold err. destruct (resolve _ _ _) as [e'|ino] eqn:Er; [by eapply resolve_error|done]. }
  exists err, t'. split; [done|]. split; [done|]. split; [|split; [done|intros ino Hino; unfold err; by rewrite Hino]].
  pose proof (pa_short _ _ _ _ Hp) as Hshort.
  assert (Hn : path_len (Some p) s = Done (Z.of_nat (length ((if abs then [SLASH] else []) ++ render l ++ e))) s).
  { unfold path_len, kbind, kderef. cbn [obind]. by rewrite (strlen_spec _ _ (path_is_str p abs l e Hp)). }
  unfold do_mkdir. rewrite (kbind_done _ _ _ _ _ Hn), (proj2 (Z.ltb_ge MAXPATHLEN _)) by (unfold MAXPATHLEN; lia).
  unfold parent_of. rewrite (kbind_done _ _ s (inl err) (set_fs t' s)); [done|].
  rewrite (kbind_done _ _ _ _ _ E). cbn [fst]. by rewrite (proj2 (Z.ltb_lt err 0)).
Qed.

Lemma dir_namev_no_slash_witness :
  exists err t', err < 0 /\ do_mkdir (Some path_dev) booted = Done err (set_fs t' booted) /\ err = - ENAMETOOLONG.
Proof.
  destruct booted_vnode as (v & Hv & Ev).
  destruct (dir_namev_no_slash booted path_dev true [] [100; 101; 118] booted_root v booted_reach is_path_dev ltac:(discriminate)
              booted_root_vn Hv) as (err & t' & Hneg & _ & Hmk & _ & Herr); [cbn; lia|done|done|].
  exists err, t'. split; [exact Hneg|]. split; [exact Hmk|]. apply (Herr 0). rewrite Ev. vm_compute. reflexivity.
Defined.

(** [do_open] of a path that ends in a slash opens, at the first free descriptor
    and at position 0, not what the path names but the directory that contains it
    (whether or not the last component exists, and whatever O_CREAT says); opening
    for writing is refused with -EISDIR, with no descriptor and no reference taken.
    So no regular file can be opened. *)
Theorem do_open_opens_parent `{Platform ramfs} s p abs l ino oflags m i :
  vreach s -> names_in s p abs l ino -> first_free s i -> open_mode oflags = Some m ->
  (length ((if abs then [SLASH] else []) ++ render l) <= 28)%nat -> (length l < fs_budget (vfs_fs s))%nat ->
  exists r s', do_open (Some p) oflags s = Done r s' /\
    if for_writing oflags then r = - EISDIR /\ files s' = files s /\ p_files s' = p_files s
    else r = i /\ exists f vn v, files s !! f = None /\ files s' = <[f := mk_file 0 m 1 (Some vn)]> (files s)
       /\ p_files s' = <[Z.to_nat i := Some f]> (p_files s)
       /\ vnodes (vfs_fs s') !! vn = Some v /\ vn_vno v = ino /\ vn_mode v = S_IFDIR.
Proof.
  intros HR Hn Hf Hm Hs Hb.
  destruct (run_open s p abs l ino oflags m i (vreach_inv s HR) Hn Hf Hm Hs Hb) as (r & s' & E & _ & _ & Hres). by exists r, s'.
Qed.

Lemma do_open_opens_parent_witness :
  exists r s', do_open (Some path_a) (Z.lor O_RDWR O_CREAT) booted = Done r s' /\ r = - EISDIR
    /\ files s' = files booted /\ p_files s' = p_files booted.
Proof.
  refine (do_open_opens_parent booted path_a true [([97], O)] 0 (Z.lor O_RDWR O_CREAT) 3 0 booted_reach booted_names booted_free eq_refl _ _).
  - cbn. lia.
  - apply Nat.ltb_lt. vm_compute. reflexivity.
Defined.

(** [do_dup] of an open descriptor, when descriptor 0 is in use, returns the first
    free descriptor, open on the same file; when descriptor 0 is free it returns
    -EMFILE and changes nothing, although 0 is the descriptor it should return. *)
Theorem do_dup_spec `{Platform ramfs} s fd f x i :
  vreach s -> held s fd f x -> first_free s i ->
  exists r s', do_dup fd s = Done r s' /\
    if i =? 0 then r = - EMFILE /\ s' = s
    else r = i /\ p_files s' = <[Z.to_nat i := Some f]> (p_files s)
         /\ files s' = <[f := with_frefs (f_refcount x + 1) x]> (files s) /\ vfs_fs s' = vfs_fs s.
Proof.
  intros HR Hh Hf. pose proof (run_dup s fd f x i (vreach_inv s HR) Hh Hf) as E.
  destruct (i =? 0); eexists _, _; (split; [exact E|done]).
Qed.

Definition full_table : vfs ramfs := set_p_files (fun _ => repeat (Some 6) 32) opened.

(** Descriptor 0 is open; the copy is descriptor 1.  With every descriptor in use the
    copy goes to the index -EMFILE of the table. *)
Lemma do_dup_spec_witness :
  (exists r s', do_dup 0 opened = Done r s' /\ r = 1 /\ p_files s' = Some 6 :: Some 6 :: repeat None 30)
  /\ do_dup 0 full_table = Panic.
Proof.
  split; [|vm_compute; reflexivity].
  destruct (do_dup_spec opened 0 6 opened_file 1 opened_reach opened_held) as (r & s' & E & Hr & Hp & _).
  - split; [done|]. split; [vm_compute; reflexivity|]. intros j Hj. assert (j = 0) as -> by lia. vm_compute. discriminate.
  - exists r, s'. split; [exact E|]. split; [exact Hr|]. rewrite Hp. vm_compute. reflexivity.
Defined.

(** [do_dup2] onto another descriptor closes what was open there and leaves the
    new descriptor open on the old one's file; every other descriptor is as it was
    and the reference counts are right afterwards. *)
Theorem do_dup2_spec `{Platform ramfs} s ofd nfd f x :
  vreach s -> held s ofd f x -> 0 <= nfd < NFILES -> ofd <> nfd ->
  exists s', do_dup2 ofd nfd s = Done nfd s' /\ p_files s' = <[Z.to_nat nfd := Some f]> (p_files s) /\ vreach s' /\ vinv s'.
Proof.
  intros HR Hh Hn Hne. destruct (run_dup2 s ofd nfd f x (vreach_inv s HR) Hh Hn Hne) as (r & s' & E & -> & HV' & Hp & _).
  exists s'. split; [done|]. split; [done|]. split; [|done]. by apply (vreach_call s (Dup2 ofd nfd) nfd).
Qed.

Lemma do_dup2_spec_witness :
  exists s', do_dup2 0 31 opened = Done 31 s' /\ p_files s' = <[31%nat := Some 6]> (p_files opened) /\ vreach s' /\ vinv s'.
Proof.
  apply (do_dup2_spec opened 0 31 6 opened_file opened_reach opened_held); [unfold NFILES; lia|discriminate].
Defined.

(** [do_lseek] of an open descriptor moves the position to the offset, to the
    position plus the offset, or to the file's length plus the offset, with the
    32-bit arithmetic of the code, and returns it; a target below 0 is refused with
    -EINVAL; nothing else changes. *)
Theorem do_lseek_spec `{Platform ramfs} s fd f x vn v offset whence :
  vreach s -> held s fd f x -> f_vnode x = Some vn -> vnodes (vfs_fs s) !! vn = Some v ->
  - 2 ^ 31 <= offset < 2 ^ 31 ->
  do_lseek fd offset whence s =
    (if (whence =? SEEK_SET) || (whence =? SEEK_CUR) || (whence =? SEEK_END) then
       let i := seek_to x v offset whence in
       if i <? 0 then Done (- EINVAL) s else Done i (set_files (insert f (with_pos i x)) s)
     else Done (- EINVAL) s).
Proof.
  intros HR Hh Hvn Hv Ho. destruct ((whence =? SEEK_SET) || (whence =? SEEK_CUR) || (whence =? SEEK_END)) eqn:Ew.
  - apply (run_lseek s fd f x vn v offset whence Hh Hvn Hv Ho). rewrite !orb_true_iff, !Z.eqb_eq in Ew. tauto.
  - unfold do_lseek. rewrite (kbind_done kget _ _ _ _ eq_refl), (proj1 (held_good _ _ _ _ Hh)), Ew. done.
Qed.

Lemma do_lseek_spec_witness :
  do_lseek 0 64 SEEK_CUR opened = Done 64 (set_files (insert 6 (with_pos 64 opened_file)) opened).
Proof.
  assert (Hv : exists v, vnodes (vfs_fs opened) !! booted_root = Some v) by (eexists; vm_compute; reflexivity).
  destruct Hv as [v Hv].
  exact (do_lseek_spec opened 0 6 opened_file booted_root v 64 SEEK_CUR opened_reach opened_held eq_refl Hv ltac:(lia)).
Defined.

(** ** Calls that bring the kernel down or lose a reference *)

(** The position of a directory can be set between two entries, and then reading an
    entry fails an assertion of the file system. *)
Example getdent_unaligned : (do_lseek 0 1 SEEK_SET ;;; do_getdent 0)%kernel opened = Panic.
Proof. vm_compute. reflexivity. Qed.

(** [do_rmdir] compares the rest of the path, slash and all, with ".": "/./" gets
    past the test, and the file system's own assertion fails. *)
Definition path_dot : path := mk_path 0xc0100000 [SLASH; DOT; SLASH; NUL].
Example rmdir_dot : do_rmdir (Some path_dot) booted = Panic.
Proof. vm_compute. reflexivity. Qed.

(** [do_mknod] puts the directory before it uses it: in a directory that nobody else
    holds, that is a use after free. *)
Example mknod_after_put : (do_mkdir (Some path_a) ;;; do_mknod (Some path_a_b) S_IFCHR 0)%kernel booted = Panic.
Proof. vm_compute. reflexivity. Qed.

(** [do_link] to a path that cannot be resolved keeps the reference it took to the
    directory of the first path. *)
Example link_leaks :
  answer ((e <- do_link (Some path_a) (Some path_a_b) ;; s <- kget ;; kret (e, rc (vfs_fs s) booted_root))%kernel booted)
  = Some (- ENOENT, 3).
Proof. vm_compute. reflexivity. Qed.

(** The process can exit after that, but the file system cannot be shut down. *)
Example link_leak_shutdown :
  (do_link (Some path_a) (Some path_a_b) ;;; release_files ;;; kmodify (set_cwd None) ;;; vfs_shutdown)%kernel booted = Panic.
Proof. vm_compute. reflexivity. Qed.

(** A working directory can be removed, and entries can still be made in it: after
    making "/a", entering it, removing it, making "b" in it and leaving it again, all
    of which return 0, the inode of "b" has link count 1, but no entry names it and
    no vnode refers to it. *)
Definition path_b : path := mk_path 0xc0100000 [98; SLASH; NUL].
Definition link_count (r : ramfs) (i : Z) : option Z := p ← rfs_inodes r !! i; rf_linkcount <$> inodes r !! p.
Example orphan_lost :
  answer ((r1 <- do_mkdir (Some path_a) ;; r2 <- do_chdir (Some path_a_b) ;; r3 <- do_rmdir (Some path_a) ;;
           r4 <- do_mkdir (Some path_b) ;; r5 <- do_chdir (Some path_a) ;; s <- kget ;;
           kret ([r1; r2; r3; r4; r5], link_count (fs_i (vfs_fs s)) 2, nlinks (fs_i (vfs_fs s)) (vnodes (vfs_fs s)) 2))%kernel booted)
  = Some ([0; 0; 0; 0; 0], Some 1, 0).
Proof. vm_compute. reflexivity. Qed.

(** [do_open] of a path that cannot be resolved reads an uninitialised variable. *)
Example open_unresolved : do_open (Some path_a_b) O_RDONLY booted = Panic.
Proof. vm_compute. reflexivity. Qed.

End VfsSpec.
