(* ===== verification/Proc.v ===== *)
(** * Processes and their threads ([proc/proc.c], [proc/kthread.c])

    The process table, process identifiers, creation, exit, waiting and killing, and
    the creation and destruction of threads, on top of the scheduler ([Sched]) and
    the open files of the current process ([Vfs]).  The state is the scheduler's
    state with the process table, the file systems and the address spaces as its
    [ext] component.  Creation of the first two processes is from [main/kmain.c]. *)

From S2P Require Import Prelude KString Sched Vnode Vfs.

Module Proc.
Import Sched.

Local Open Scope Z_scope.
Local Open Scope kernel_scope.

Definition PROC_MAX_COUNT : Z := 65536.
Definition PROC_NAME_LEN : Z := 256.
Definition PID_IDLE : Z := 0.
Definition PID_INIT : Z := 1.

(** The process states [PROC_RUNNING] and [PROC_DEAD] *)
Inductive pstate : Set := PROC_RUNNING | PROC_DEAD.
#[export] Instance pstate_eq_dec : EqDecision pstate.
Proof. solve_decision. Defined.

(** [struct proc].  The lists hold the addresses of their members; the links
    [p_list_link] and [p_child_link] are in the sequences of the list of all
    processes and of the parent. *)
Record proc : Type := mk_proc {
  p_pid : Z;
  p_comm : list Z;
  p_threads : list Z;
  p_children : list Z;
  p_pproc : option Z;
  p_status : Z;
  p_state : pstate;
  p_pagedir : option Z;
  pr_files : list (option Z);
  pr_cwd : option Z;
  p_vmmap : option Z
}.

Definition with_threads (f : list Z -> list Z) (p : proc) : proc :=
  mk_proc (p_pid p) (p_comm p) (f (p_threads p)) (p_children p) (p_pproc p) (p_status p) (p_state p)
    (p_pagedir p) (pr_files p) (pr_cwd p) (p_vmmap p).
Definition with_children (f : list Z -> list Z) (p : proc) : proc :=
  mk_proc (p_pid p) (p_comm p) (p_threads p) (f (p_children p)) (p_pproc p) (p_status p) (p_state p)
    (p_pagedir p) (pr_files p) (pr_cwd p) (p_vmmap p).
Definition with_pproc (q : option Z) (p : proc) : proc :=
  mk_proc (p_pid p) (p_comm p) (p_threads p) (p_children p) q (p_status p) (p_state p)
    (p_pagedir p) (pr_files p) (pr_cwd p) (p_vmmap p).
Definition with_exit (v : Z) (p : proc) : proc :=
  mk_proc (p_pid p) (p_comm p) (p_threads p) (p_children p) (p_pproc p) v PROC_DEAD
    (p_pagedir p) (pr_files p) (pr_cwd p) (p_vmmap p).
Definition with_pagedir (d : option Z) (p : proc) : proc :=
  mk_proc (p_pid p) (p_comm p) (p_threads p) (p_children p) (p_pproc p) (p_status p) (p_state p)
    d (pr_files p) (pr_cwd p) (p_vmmap p).
Definition with_open (l : list (option Z)) (d : option Z) (p : proc) : proc :=
  mk_proc (p_pid p) (p_comm p) (p_threads p) (p_children p) (p_pproc p) (p_status p) (p_state p)
    (p_pagedir p) l d (p_vmmap p).
Definition with_vmmap (m : option Z) (p : proc) : proc :=
  mk_proc (p_pid p) (p_comm p) (p_threads p) (p_children p) (p_pproc p) (p_status p) (p_state p)
    (p_pagedir p) (pr_files p) (pr_cwd p) m.

(** The part of the state that the scheduler does not know: the processes, the file
    systems and open files they share, and the address spaces. *)
Record pworld (I VM : Type) : Type := mk_pworld {
  procs : gmap Z proc;
  proc_list : list Z;           (** [_proc_list] *)
  next_pid : Z;
  proc_initproc : option Z;
  pw_fs : Vnode.fsys I;
  pw_files : gmap Z Vfs.file;
  pw_root : option Z;           (** [vfs_root_vn] *)
  pw_vm : VM
}.
Arguments mk_pworld {I VM}.
Arguments procs {I VM}.
Arguments proc_list {I VM}.
Arguments next_pid {I VM}.
Arguments proc_initproc {I VM}.
Arguments pw_fs {I VM}.
Arguments pw_files {I VM}.
Arguments pw_root {I VM}.
Arguments pw_vm {I VM}.

(** What the process code asks of the address spaces ([vm/vmmap.c]).  They are a
    parameter here: [vmmap_destroy] of [vm/vmmap.c] puts the memory objects of the
    areas, which go through the page frame cache, and is not modelled; the theorems
    about processes assume of it what [AddrSpaceLaws] says, and nothing more. *)
Class AddrSpace (I VM : Type) : Type := {
  vmmap_create : kernel (Vnode.fsys I * VM) (option Z);
  vmmap_destroy : Z -> kernel (Vnode.fsys I * VM) unit
}.

(** What they promise: creation returns, an address space that was created can be
    destroyed, and neither takes back addresses the allocators have handed out. *)
Class AddrSpaceLaws (I VM : Type) `{AddrSpace I VM} : Type := {
  is_space : VM -> Z -> Prop;
  create_returns : forall t, runs vmmap_create t
    (fun r t' => Vnode.fs_next (fst t) <= Vnode.fs_next (fst t') /\ forall map, r = Some map -> is_space (snd t') map);
  destroy_returns : forall t map, is_space (snd t) map ->
    runs (vmmap_destroy map) t (fun _ t' => Vnode.fs_next (fst t) <= Vnode.fs_next (fst t'))
}.

(** An operation on a part of the state, run in the whole state. *)
Fixpoint zoom_outcome {S T A} (view : S -> T) (put : T -> S -> S) (o : outcome T A) (s : S) : outcome S A :=
  match o with
  | Done a t => Done a (put t s)
  | Panic => Panic
  | NoFuel => NoFuel
  | Env e t k => Env e (put t s) (fun s' => zoom_outcome view put (k (view s')) s')
  end.
Definition zoom {S T A} (view : S -> T) (put : T -> S -> S) (m : kernel T A) : kernel S A :=
  fun s => zoom_outcome view put (m (view s)) s.

Lemma runs_zoom {S T A} (view : S -> T) put (m : kernel T A) s Q :
  runs m (view s) (fun a t => Q a (put t s)) -> runs (zoom view put m) s Q.
Proof. intros (a & t & E & HQ). exists a, (put t s). unfold zoom. by rewrite E. Qed.

Section processes.
Context {I VM : Type} `{Vnode.FsOps I} `{Vnode.Platform I} `{Vfs.VnodeOps I} `{AddrSpace I VM}.
Abbreviation state := (kstate (pworld I VM)).
Abbreviation M := (kernel state).

Definition set_world (f : pworld I VM -> pworld I VM) (s : state) : state :=
  mk_sched (threads s) (queues s) (curthr s) (curproc s) (ipl s) (f (ext s)).
Definition set_procs (f : gmap Z proc -> gmap Z proc) : state -> state :=
  set_world (fun w => mk_pworld (f (procs w)) (proc_list w) (next_pid w) (proc_initproc w) (pw_fs w) (pw_files w) (pw_root w) (pw_vm w)).
Definition set_proc_list (f : list Z -> list Z) : state -> state :=
  set_world (fun w => mk_pworld (procs w) (f (proc_list w)) (next_pid w) (proc_initproc w) (pw_fs w) (pw_files w) (pw_root w) (pw_vm w)).
Definition set_next_pid (n : Z) : state -> state :=
  set_world (fun w => mk_pworld (procs w) (proc_list w) n (proc_initproc w) (pw_fs w) (pw_files w) (pw_root w) (pw_vm w)).
Definition set_initproc (i : option Z) : state -> state :=
  set_world (fun w => mk_pworld (procs w) (proc_list w) (next_pid w) i (pw_fs w) (pw_files w) (pw_root w) (pw_vm w)).
Definition set_pw_fs (t : Vnode.fsys I) : state -> state :=
  set_world (fun w => mk_pworld (procs w) (proc_list w) (next_pid w) (proc_initproc w) t (pw_files w) (pw_root w) (pw_vm w)).
Definition set_pw_vm (t : Vnode.fsys I * VM) : state -> state :=
  set_world (fun w => mk_pworld (procs w) (proc_list w) (next_pid w) (proc_initproc w) (fst t) (pw_files w) (pw_root w) (snd t)).

(** What the file system calls see when process [cp] is the current one, and the
    state after them. *)
Definition vfs_of (cp : Z) (s : state) : Vfs.vfs I :=
  let w := ext s in
  match procs w !! cp with
  | Some p => Vfs.mk_vfs (pw_fs w) (pw_files w) (pr_files p) (pr_cwd p) (pw_root w)
  | None => Vfs.mk_vfs (pw_fs w) (pw_files w) [] None (pw_root w)
  end.
Definition put_vfs (cp : Z) (v : Vfs.vfs I) : state -> state :=
  set_world (fun w => mk_pworld (alter (with_open (Vfs.p_files v) (Vfs.p_cwd v)) cp (procs w)) (proc_list w) (next_pid w)
                        (proc_initproc w) (Vfs.vfs_fs v) (Vfs.files v) (Vfs.vfs_root_vn v) (pw_vm w)).

Definition fs_call {A} : kernel (Vnode.fsys I) A -> M A := zoom (fun s => pw_fs (ext s)) set_pw_fs.
Definition vm_call {A} : kernel (Vnode.fsys I * VM) A -> M A := zoom (fun s => (pw_fs (ext s), pw_vm (ext s))) set_pw_vm.
Definition get_proc (p : Z) : M proc := s <- kget ;; kderef (procs (ext s) !! p).
Definition upd_proc (p : Z) (f : proc -> proc) : M unit := get_proc p ;;; kmodify (set_procs (alter f p)).
(** [curproc], where it is followed *)
Definition the_curproc : M Z := s <- kget ;; kderef (curproc s).
Definition vfs_call {A} (m : kernel (Vfs.vfs I) A) : M A :=
  cp <- the_curproc ;; get_proc cp ;;; zoom (vfs_of cp) (put_vfs cp) m.

(** [slab_obj_alloc] and [page_alloc_n]: a fresh address, or none. *)
Definition mem_alloc : M (option Z) := fs_call Vnode.mem_alloc.

(** The queue [p->p_wait], named by the address of the process *)
Definition p_wait (p : Z) : Z := p.

(** ** Process identifiers *)

(** The [list_iterate] of [_proc_getid]: does a process of the list have this
    identifier? *)
Fixpoint pid_taken (l : list Z) (pid : Z) : M bool :=
  match l with
  | [] => kret false
  | p :: l => pr <- get_proc p ;; if p_pid pr =? pid then kret true else pid_taken l pid
  end.

(** The loop of [_proc_getid], for at most [n] candidates *)
Fixpoint getid_loop (n : nat) (pid : Z) : M Z :=
  match n with
  | O => fun _ => NoFuel
  | S n =>
      s <- kget ;;
      taken <- pid_taken (proc_list (ext s)) pid ;;
      if taken : bool then
        let pid := (pid + 1) mod PROC_MAX_COUNT in
        if pid =? next_pid (ext s) then kret (-1) else getid_loop n pid
      else kmodify (set_next_pid ((pid + 1) mod PROC_MAX_COUNT)) ;;; kret pid
  end.

Definition proc_getid : M Z :=
  s <- kget ;; getid_loop (Z.to_nat PROC_MAX_COUNT) (next_pid (ext s)).

(** ** Creating processes and threads *)

(** The name in [p_comm], an array of [PROC_NAME_LEN] zeros at first *)
Definition comm_of (name : list Z) : M (list Z) :=
  let zeros := replicate (Z.to_nat PROC_NAME_LEN) 0 in
  len <- kderef (KString.strlen name) ;;
  if len <? PROC_NAME_LEN then kderef (KString.strcpy zeros name)
  else kderef (KString.strncpy zeros name (Z.to_nat (PROC_NAME_LEN - 1))).

Definition new_proc (pid : Z) (comm : list Z) (parent : option Z) : proc :=
  mk_proc pid comm [] [] parent 0 PROC_RUNNING None (replicate (Z.to_nat Vfs.NFILES) None) None None.

(** The second half of [proc_create]: the queue, the page directory, the lists, the
    working directory and the address space of the new process *)
Definition proc_setup (pid new : Z) : M unit :=
  s <- kget ;;
  sched_queue_init (p_wait new) ;;;
  pagedir <- mem_alloc ;;
  upd_proc new (with_pagedir pagedir) ;;;
  kmodify (set_proc_list (fun l => l ++ [new])) ;;;
  (match curproc s with
   | Some cp => upd_proc cp (with_children (fun l => l ++ [new]))
   | None => kret tt
   end) ;;;
  (* the message printed for a process other than the first names its parent *)
  (if pid =? 0 then kret tt else cp <- the_curproc ;; get_proc cp ;;; kret tt) ;;;
  (match curproc s with
   | Some cp =>
       c <- get_proc cp ;;
       upd_proc new (fun p => with_open (pr_files p) (pr_cwd c) p) ;;;
       match pr_cwd c with Some d => fs_call (Vnode.vref d) | None => kret tt end
   | None => kret tt
   end) ;;;
  map <- vm_call vmmap_create ;;
  upd_proc new (with_vmmap map).

Definition proc_create (name : list Z) : M Z :=
  pid <- proc_getid ;;
  s <- kget ;;
  kassert (negb (pid =? PID_IDLE) || bool_decide (proc_list (ext s) = [])) ;;;
  new <- mem_alloc ;;
  new <- kderef new ;;
  comm <- comm_of name ;;
  (if pid =? PID_INIT then
     cp <- the_curproc ;; c <- get_proc cp ;;
     kassert (p_pid c =? PID_IDLE) ;;;
     kmodify (set_initproc (Some new))
   else kret tt) ;;;
  kmodify (set_procs (insert new (new_proc pid comm (curproc s)))) ;;;
  proc_setup pid new ;;;
  kret new.

(** [context_setup] asserts that there is a page directory and records where the
    thread starts; the continuation is not part of the state. *)
Definition context_setup (pagedir : option Z) : M unit := kassert (bool_decide (is_Some pagedir)).

Definition kthread_create (p : Z) : M Z :=
  new <- mem_alloc ;;
  new <- kderef new ;;
  kstack <- mem_alloc ;;
  kstack <- kderef kstack ;;
  kmodify (set_threads (insert new (mk_kthread kstack 0 0 p 0 None KT_NO_STATE))) ;;;
  upd_proc p (with_threads (cons new)) ;;;
  pr <- get_proc p ;;
  context_setup (p_pagedir pr) ;;;
  kret new.

(** The clone's [kt_proc] stays [NULL]. *)
Definition kthread_clone : M Z :=
  s <- kget ;;
  kassert (bool_decide (is_Some (curproc s))) ;;;
  thr <- mem_alloc ;;
  thr <- kderef thr ;;
  kstack <- mem_alloc ;;
  kstack <- kderef kstack ;;
  cp <- the_curproc ;;
  c <- get_proc cp ;;
  context_setup (p_pagedir c) ;;;
  kmodify (set_threads (insert thr (mk_kthread kstack 0 0 0 0 None KT_RUN))) ;;;
  upd_proc cp (with_threads (cons thr)) ;;;
  kret thr.

(** [list_remove(&t->kt_plink)]: the link leaves the process it is in. *)
Definition unlink_plink (t : Z) : M unit :=
  kmodify (set_procs (fmap (with_threads (filter (fun x => x <> t))))).

Definition kthread_destroy (t : Z) : M unit :=
  th <- get_thread t ;;
  kassert (negb (kt_kstack th =? 0)) ;;;
  get_proc (kt_proc th) ;;;
  unlink_plink t ;;;
  kmodify (set_threads (delete t)).

(** ** Exit *)

(** The loop of [proc_cleanup] that moves the children to the init process *)
Fixpoint reparent (cp init : Z) (l : list Z) : M unit :=
  match l with
  | [] => kret tt
  | child :: l =>
      get_proc child ;;;
      upd_proc cp (with_children (filter (fun x => x <> child))) ;;;
      upd_proc init (with_children (fun l => l ++ [child])) ;;;
      upd_proc child (with_pproc (Some init)) ;;;
      reparent cp init l
  end.

Definition leave_children (cp : Z) : M unit :=
  c <- get_proc cp ;;
  s <- kget ;;
  if bool_decide (p_children c <> []) then
    init <- kderef (proc_initproc (ext s)) ;;
    if bool_decide (cp <> init) then reparent cp init (p_children c) else kret tt
  else kret tt.

Definition proc_cleanup (status : Z) : M unit :=
  cp <- the_curproc ;;
  c <- get_proc cp ;;
  kassert (1 <=? p_pid c) ;;;
  upd_proc cp (with_exit status) ;;;
  vfs_call Vfs.release_files ;;;
  leave_children cp ;;;
  c <- get_proc cp ;;
  parent <- kderef (p_pproc c) ;;
  sched_wakeup_on (p_wait parent) ;;;
  get_proc parent ;;;
  match p_vmmap c with Some map => vm_call (vmmap_destroy map) | None => kret tt end.

Definition proc_thread_exited (fuel : nat) (retval : Z) : M unit :=
  proc_cleanup retval ;;;
  sched_switch fuel.

Definition kthread_exit (fuel : nat) (retval : Z) : M unit :=
  s <- kget ;;
  cur <- kderef (curthr s) ;;
  t <- get_thread cur ;;
  kassert (bool_decide (kt_wchan t = None)) ;;;
  kassert (negb (qlink_is_linked s cur)) ;;;
  kassert (bool_decide (Some (kt_proc t) = curproc s)) ;;;
  upd_thread cur (with_retval retval) ;;;
  upd_thread cur (with_state KT_EXITED) ;;;
  proc_thread_exited fuel retval.

Definition kthread_cancel (fuel : nat) (kthr retval : Z) : M unit :=
  s <- kget ;;
  if bool_decide (curthr s = Some kthr) then kthread_exit fuel retval
  else
    upd_thread kthr (with_retval retval) ;;;
    sched_cancel kthr.

(** The member after [x] in a list, which [list_iterate] reads before its body:
    [Some None] at the end; following a link that is in no list is a fault. *)
Fixpoint member_after (x : Z) (l : list Z) : option (option Z) :=
  match l with
  | [] => None
  | y :: l => if y =? x then Some (head l) else member_after x l
  end.

(** The loop of [proc_kill] that closes, in the current process, the descriptors
    that are open in [p] *)
Fixpoint close_like (p : Z) (n : nat) (i : Z) : M unit :=
  match n with
  | O => kret tt
  | S n =>
      pr <- get_proc p ;;
      (if bool_decide (is_Some (mjoin (pr_files pr !! Z.to_nat i))) then
         fd <- vfs_call (Vfs.do_close i) ;; kassert (negb (fd =? -1))
       else kret tt) ;;;
      close_like p n (i + 1)
  end.

(** The loop of [proc_kill] over the threads of [p]; [n] bounds their number. *)
Fixpoint cancel_threads (fuel n : nat) (p : Z) (thr : option Z) (status : Z) : M unit :=
  match thr, n with
  | None, _ => kret tt
  | Some _, O => fun _ => NoFuel
  | Some kthr, S n =>
      pr <- get_proc p ;;
      next <- kderef (member_after kthr (p_threads pr)) ;;
      kthread_cancel fuel kthr status ;;;
      s <- kget ;;
      cur <- kderef (curthr s) ;;
      sched_make_runnable cur ;;;
      sched_switch fuel ;;;
      cancel_threads fuel n p next status
  end.

Definition proc_kill (fuel : nat) (p status : Z) : M unit :=
  close_like p (Z.to_nat Vfs.NFILES) 0 ;;;
  pr <- get_proc p ;;
  parent <- kderef (p_pproc pr) ;;
  sched_wakeup_on (p_wait parent) ;;;
  cancel_threads fuel (length (p_threads pr)) p (head (p_threads pr)) status ;;;
  upd_proc p (with_exit status) ;;;
  sched_wakeup_on (p_wait p) ;;;
  kret tt.

(** The loop of [proc_kill_all]; [n] bounds the number of processes. *)
Fixpoint kill_loop (fuel n : nat) (p : option Z) : M unit :=
  match p, n with
  | None, _ => kret tt
  | Some _, O => fun _ => NoFuel
  | Some p, S n =>
      s <- kget ;;
      next <- kderef (member_after p (proc_list (ext s))) ;;
      pr <- get_proc p ;;
      (if p_pid pr =? PID_IDLE then kret tt
       else
         parent <- kderef (p_pproc pr) ;;
         q <- get_proc parent ;;
         if negb (p_pid q =? PID_IDLE) && bool_decide (curproc s <> Some p) then proc_kill fuel p (p_status pr)
         else kret tt) ;;;
      kill_loop fuel n next
  end.

Definition proc_kill_all (fuel n : nat) : M unit :=
  s <- kget ;;
  kill_loop fuel n (head (proc_list (ext s))) ;;;
  cp <- the_curproc ;;
  c <- get_proc cp ;;
  if p_pid c =? PID_IDLE then kret tt
  else
    parent <- kderef (p_pproc c) ;;
    q <- get_proc parent ;;
    if p_pid q =? PID_IDLE then kret tt else proc_kill fuel cp 0.

Definition do_exit (fuel : nat) (status : Z) : M unit := cp <- the_curproc ;; proc_kill fuel cp status.

(** [proc_lookup]: the first process of the list with this identifier *)
Fixpoint lookup_pid (l : list Z) (pid : Z) : M (option Z) :=
  match l with
  | [] => kret None
  | p :: l => pr <- get_proc p ;; if p_pid pr =? pid then kret (Some p) else lookup_pid l pid
  end.
Definition proc_lookup (pid : Z) : M (option Z) := s <- kget ;; lookup_pid (proc_list (ext s)) pid.

(** ** Waiting *)

(** The loop of [do_waitpid] that destroys the threads of a dead process *)
Fixpoint destroy_threads (l : list Z) : M unit :=
  match l with
  | [] => kret tt
  | t :: l =>
      th <- get_thread t ;;
      kassert (bool_decide (kt_state th = KT_EXITED)) ;;;
      kthread_destroy t ;;;
      destroy_threads l
  end.

(** What [do_waitpid] does with a dead child [p]: its identifier and status are
    the result, and it is taken apart. *)
Definition reap (p : Z) : M (Z * option Z) :=
  pr <- get_proc p ;;
  s <- kget ;;
  kderef (member_after p (proc_list (ext s))) ;;;
  kmodify (set_proc_list (filter (fun x => x <> p))) ;;;
  destroy_threads (p_threads pr) ;;;
  kassert (bool_decide (is_Some (p_pagedir pr))) ;;;
  kmodify (set_procs (fmap (with_children (filter (fun x => x <> p))))) ;;;
  kmodify (set_procs (delete p)) ;;;
  kmodify (set_queues (delete (p_wait p))) ;;;
  kret (p_pid pr, Some (p_status pr)).

(** The first dead process of a list of children *)
Fixpoint first_dead (l : list Z) : M (option Z) :=
  match l with
  | [] => kret None
  | p :: l => pr <- get_proc p ;; if bool_decide (p_state pr = PROC_DEAD) then kret (Some p) else first_dead l
  end.

(** [wait_to_die1]: wait for any child; [n] bounds the number of times the thread
    is woken without a dead child. *)
Fixpoint wait_any (fuel n : nat) : M (Z * option Z) :=
  cp <- the_curproc ;;
  c <- get_proc cp ;;
  if bool_decide (p_children c = []) then kret (- ECHILD, None)
  else
    dead <- first_dead (p_children c) ;;
    match dead, n with
    | Some p, _ =>
        pr <- get_proc p ;;
        if (p_pid c =? 0) && (p_pid pr =? 2) then kret (p_pid pr, None) else reap p
    | None, O => fun _ => NoFuel
    | None, S n => sched_sleep_on fuel (p_wait cp) ;;; wait_any fuel n
    end.

(** [wait_to_die2]: wait for the child [p]. *)
Fixpoint wait_for (fuel n : nat) (p : Z) : M (Z * option Z) :=
  pr <- get_proc p ;;
  if bool_decide (p_state pr = PROC_DEAD) then reap p
  else
    match n with
    | O => fun _ => NoFuel
    | S n => cp <- the_curproc ;; sched_sleep_on fuel (p_wait cp) ;;; wait_for fuel n p
    end.

(** The result is the return value and what is stored through [status]. *)
Definition do_waitpid (fuel n : nat) (pid options : Z) : M (Z * option Z) :=
  kassert (options =? 0) ;;;
  s <- kget ;;
  kassert (bool_decide (curproc s <> None)) ;;;
  cp <- the_curproc ;;
  c <- get_proc cp ;;
  if bool_decide (p_children c = []) then kret (- ECHILD, None)
  else if pid =? -1 then wait_any fuel n
  else if 0 <? pid then
    child <- lookup_pid (p_children c) pid ;;
    match child with
    | Some p => wait_for fuel n p
    | None => kret (- ECHILD, None)
    end
  else kassert (negb (pid =? 0)) ;;; kret (- ECHILD, None).

(** ** The first two processes ([main/kmain.c]) *)

Definition bootstrap : M unit :=
  p <- proc_create [73; 68; 76; 69; 0] ;;
  s <- kget ;;
  kmodify (set_cur (curthr s) (Some p)) ;;;
  pr <- get_proc p ;;
  kassert (p_pid pr =? PID_IDLE) ;;;
  t <- kthread_create p ;;
  kmodify (set_cur (Some t) (Some p)).

Definition initproc_create : M Z :=
  p <- proc_create [73; 78; 73; 84; 0] ;;
  pr <- get_proc p ;;
  kassert (p_pid pr =? PID_INIT) ;;;
  kthread_create p.

End processes.

End Proc.
