(* ===== verification/ProcTree.v ===== *)
(** * The process tree

    The abstract view of the process table: every process has an identifier, a list
    of children and a parent.  [tree] is the invariant that the operations of
    [proc/proc.c] keep, [add_node], [exit_node] and [reap_node] are what creation,
    exit and waiting do to the view. *)

From S2P Require Import Prelude KString Sched Vnode Vfs Proc.

Module ProcTree.

Local Open Scope Z_scope.

Record node : Type := mk_node { n_pid : Z; n_kids : list Z; n_parent : option Z }.
Definition node_of (p : Proc.proc) : node := mk_node (Proc.p_pid p) (Proc.p_children p) (Proc.p_pproc p).
Definition forest {I VM} (w : Proc.pworld I VM) : gmap Z node := node_of <$> Proc.procs w.

Definition set_kids (f : list Z -> list Z) (n : node) : node := mk_node (n_pid n) (f (n_kids n)) (n_parent n).
Definition set_parent (q : Z) (n : node) : node := mk_node (n_pid n) (n_kids n) (Some q).

(** Following parents from [p] ends at a process without one. *)
Inductive rooted (m : gmap Z node) : Z -> Prop :=
| rooted_root p n : m !! p = Some n -> n_parent n = None -> rooted m p
| rooted_step p n q : m !! p = Some n -> n_parent n = Some q -> rooted m q -> rooted m p.

(** The tree invariant for the processes [m], the list [l] of all of them and the
    init process. *)
Record tree (m : gmap Z node) (l : list Z) (init : option Z) : Prop := {
  tr_nodup : NoDup l;
  tr_list : forall p, p ∈ l <-> is_Some (m !! p);
  tr_pids : forall p q n k, m !! p = Some n -> m !! q = Some k -> n_pid n = n_pid k -> p = q;
  tr_range : forall p n, m !! p = Some n -> 0 <= n_pid n < Proc.PROC_MAX_COUNT;
  tr_kids_nodup : forall p n, m !! p = Some n -> NoDup (n_kids n);
  tr_kids : forall q n c, m !! q = Some n -> c ∈ n_kids n -> exists k, m !! c = Some k /\ n_parent k = Some q;
  tr_parent : forall c k q, m !! c = Some k -> n_parent k = Some q -> exists n, m !! q = Some n /\ c ∈ n_kids n;
  tr_root : forall p n, m !! p = Some n -> n_parent n = None <-> n_pid n = Proc.PID_IDLE;
  tr_rooted : forall p n, m !! p = Some n -> rooted m p;
  tr_init : forall i n, init = Some i -> m !! i = Some n ->
              n_pid n = Proc.PID_INIT /\ exists q k, n_parent n = Some q /\ m !! q = Some k /\ n_parent k = None
}.

(** A process with an unused identifier is created by [parent]. *)
Definition add_node (new pid : Z) (parent : option Z) (m : gmap Z node) : gmap Z node :=
  <[new := mk_node pid [] parent]>
    (match parent with Some q => alter (set_kids (fun l => l ++ [new])) q m | None => m end).

(** The children of [cp] move to [init]. *)
Definition adopt (init : Z) (m : gmap Z node) (kids : list Z) : gmap Z node :=
  foldl (fun m c => alter (set_parent init) c m) m kids.
Definition exit_node (cp init : Z) (kids : list Z) (m : gmap Z node) : gmap Z node :=
  adopt init (alter (set_kids (fun l => l ++ kids)) init (alter (set_kids (fun _ => [])) cp m)) kids.

(** [p] is removed. *)
Definition reap_node (p : Z) (m : gmap Z node) : gmap Z node :=
  delete p (set_kids (filter (fun x => x <> p)) <$> m).

(** A process that is rooted stays so when every process keeps its parent. *)
Lemma rooted_mono (m m' : gmap Z node) p :
  (forall q n, m !! q = Some n -> rooted m q -> exists n', m' !! q = Some n' /\ n_parent n' = n_parent n) ->
  rooted m p -> rooted m' p.
Proof.
  intros Hm. induction 1 as [p n Hp Hn|p n q Hp Hn Hq IH].
  - destruct (Hm p n Hp (rooted_root _ _ _ Hp Hn)) as (n' & ? & ?). eapply rooted_root; [done|congruence].
  - destruct (Hm p n Hp (rooted_step _ _ _ _ Hp Hn Hq)) as (n' & ? & ?). eapply (rooted_step _ p n' q); [done|congruence|done].
Qed.

Section create.
Context (m : gmap Z node) (l : list Z) (init : option Z) (new pid : Z).
Context (HT : tree m l init) (Hnew : m !! new = None)
        (Hpid : forall p n, m !! p = Some n -> n_pid n <> pid) (Hrange : 0 <= pid < Proc.PROC_MAX_COUNT)
        (Hinit : init <> Some new).

(** The nodes after creation by an existing process [q]: the new one, and the old
    ones, of which only [q] has one more child. *)
Lemma add_lookup q p n :
  add_node new pid (Some q) m !! p = Some n <->
    (p = new /\ n = mk_node pid [] (Some q))
    \/ (p <> new /\ exists n0, m !! p = Some n0 /\ n = if decide (p = q) then set_kids (fun l => l ++ [new]) n0 else n0).
Proof.
  unfold add_node. destruct (decide (p = new)) as [->|Hne].
  - rewrite lookup_insert_eq. naive_solver.
  - rewrite lookup_insert_ne by done. destruct (decide (p = q)) as [->|Hpq].
    + rewrite lookup_alter_eq. destruct (m !! q) eqn:E; simpl; naive_solver.
    + rewrite lookup_alter_ne by done. naive_solver.
Qed.

Lemma add_child_tree q nq :
  m !! q = Some nq -> pid <> Proc.PID_IDLE ->
  (pid = Proc.PID_INIT -> n_parent nq = None) ->
  tree (add_node new pid (Some q) m) (l ++ [new]) (if pid =? Proc.PID_INIT then Some new else init).
Proof.
  intros Hq Hp0 Hp1.
  assert (Hold : forall p n0, m !! p = Some n0 -> exists n, add_node new pid (Some q) m !! p = Some n
     /\ n_pid n = n_pid n0 /\ n_parent n = n_parent n0 /\ (forall c, c ∈ n_kids n0 -> c ∈ n_kids n)).
  { intros p n0 Hp. exists (if decide (p = q) then set_kids (fun l => l ++ [new]) n0 else n0). split.
    - apply add_lookup. right. split; [by intros ->; congruence|eauto].
    - case_decide; simpl; set_solver. }
  split.
  - apply NoDup_app. split_and!; [exact (tr_nodup _ _ _ HT)| |apply NoDup_singleton].
    intros x Hx%(tr_list _ _ _ HT). rewrite list_elem_of_singleton. intros ->. rewrite Hnew in Hx. by destruct Hx.
  - intros p. rewrite elem_of_app, list_elem_of_singleton, (tr_list _ _ _ HT). split.
    + intros [[n0 Hp]| ->]; [destruct (Hold _ _ Hp) as (n & ? & _); eauto|]. eexists. apply add_lookup. by left.
    + intros [n [[-> _]|(_ & n0 & ? & _)]%add_lookup]; eauto.
  - intros p p' n k [[-> ->]|(_ & n0 & Hp & ->)]%add_lookup [[-> ->]|(_ & k0 & Hp' & ->)]%add_lookup; simpl; intros E; [done|..].
    + exfalso. apply (Hpid _ _ Hp'). by case_decide.
    + exfalso. apply (Hpid _ _ Hp). by case_decide.
    + apply (tr_pids _ _ _ HT _ _ _ _ Hp Hp'). by repeat case_decide.
  - intros p n [[-> ->]|(_ & n0 & Hp & ->)]%add_lookup; [done|].
    pose proof (tr_range _ _ _ HT _ _ Hp). by case_decide.
  - intros p n [[-> ->]|(_ & n0 & Hp & ->)]%add_lookup; [apply NoDup_nil_2|].
    pose proof (tr_kids_nodup _ _ _ HT _ _ Hp). case_decide; simpl; [|done].
    apply NoDup_app. split_and!; [done| |apply NoDup_singleton]. intros x Hx.
    destruct (tr_kids _ _ _ HT _ _ _ Hp Hx) as (? & ? & _). set_solver by congruence.
  - intros p n c [[-> ->]|(_ & n0 & Hp & ->)]%add_lookup Hc; [by apply not_elem_of_nil in Hc|].
    assert (Hor : c ∈ n_kids n0 \/ (c = new /\ p = q)) by (case_decide; simpl in Hc; set_solver).
    destruct Hor as [Hc0|[-> ->]]; [|eexists; split; [apply add_lookup; by left|done]].
    destruct (tr_kids _ _ _ HT _ _ _ Hp Hc0) as (k & Hk & Hpar). destruct (Hold _ _ Hk) as (k' & ? & _ & E & _).
    exists k'. split; [done|congruence].
  - intros c k p [[-> ->]|(_ & k0 & Hc & ->)]%add_lookup Hpar.
    + injection Hpar as <-. eexists. split; [apply add_lookup; right; split; [by intros ->; congruence|eauto]|].
      rewrite decide_True by done. simpl. set_solver.
    + destruct (tr_parent _ _ _ HT c k0 p Hc) as (n & Hn & Hin); [by case_decide|].
      destruct (Hold _ _ Hn) as (n' & ? & _ & _ & Hk). eauto.
  - intros p n [[-> ->]|(_ & n0 & Hp & ->)]%add_lookup; [done|].
    pose proof (tr_root _ _ _ HT _ _ Hp). by case_decide.
  - assert (Hr : forall p, rooted m p -> rooted (add_node new pid (Some q) m) p).
    { intros p. apply rooted_mono. intros p' n' Hp' _. destruct (Hold _ _ Hp') as (? & ? & ? & ? & _). eauto. }
    intros p n [[-> ->]|(_ & n0 & Hp & ->)]%add_lookup; [|apply Hr; by eapply tr_rooted].
    eapply rooted_step; [apply add_lookup; by left|done|]. apply Hr. by eapply tr_rooted.
  - intros i n Hi Hn. destruct (Z.eqb_spec pid Proc.PID_INIT) as [E|E].
    + injection Hi as <-. apply add_lookup in Hn as [[_ ->]|[]]; [|done]. split; [done|].
      destruct (Hold _ _ Hq) as (k & ? & _ & E' & _). exists q, k. split_and!; [done..|]. rewrite E'. auto.
    + apply add_lookup in Hn as [[-> _]|(_ & n0 & Hp & ->)]; [done|].
      destruct (tr_init _ _ _ HT _ _ Hi Hp) as (E1 & r & k & Hr & Hk & Hk0).
      destruct (Hold _ _ Hk) as (k' & ? & _ & E' & _). split; [by case_decide|].
      exists r, k'. split_and!; [by case_decide|done|congruence].
Qed.
End create.

(** A tree that is not empty has the idle process as its root. *)
Lemma tree_idle m l init p n : tree m l init -> m !! p = Some n -> exists r k, m !! r = Some k /\ n_pid k = Proc.PID_IDLE.
Proof.
  intros HT Hp. pose proof (tr_rooted _ _ _ HT _ _ Hp) as Hr. clear Hp.
  induction Hr as [p' n' Hp' Hn|]; [|done]. exists p', n'. split; [done|]. by apply (tr_root _ _ _ HT _ _ Hp').
Qed.

(** Nothing is its own parent. *)
Lemma rooted_not_self m p n : rooted m p -> m !! p = Some n -> n_parent n <> Some p.
Proof.
  intros Hr. revert n. induction Hr as [p k Hp Hk|p k q Hp Hk Hq IH]; intros n Hn; rewrite Hp in Hn; injection Hn as <-.
  - congruence.
  - intros E. rewrite Hk in E. injection E as ->. by apply (IH k).
Qed.
Lemma tree_not_own_child m l init p n : tree m l init -> m !! p = Some n -> p ∉ n_kids n.
Proof.
  intros HT Hp Hin. destruct (tr_kids _ _ _ HT _ _ _ Hp Hin) as (k & Hk & E).
  by eapply (rooted_not_self m p k); [eapply (tr_rooted _ _ _ HT)|..].
Qed.

Lemma adopt_lookup i kids m p :
  adopt i m kids !! p = (fun n => if decide (p ∈ kids) then set_parent i n else n) <$> m !! p.
Proof.
  revert m. induction kids as [|c kids IH]; intros m; cbn [adopt foldl].
  - by destruct (m !! p).
  - fold (adopt i (alter (set_parent i) c m) kids). rewrite IH. destruct (decide (p = c)) as [->|Hne].
    + rewrite lookup_alter_eq. destruct (m !! c); [|done]. cbn. f_equal.
      destruct (decide (c ∈ kids)), (decide (c ∈ c :: kids)); set_solver.
    + rewrite lookup_alter_ne by done. destruct (m !! p); [|done]. cbn. f_equal.
      destruct (decide (p ∈ kids)), (decide (p ∈ c :: kids)); set_solver.
Qed.

Section exit.
Context (m : gmap Z node) (l : list Z) (init : option Z) (cp i : Z) (nc ni : node).
Context (HT : tree m l init) (Hcp : m !! cp = Some nc) (Hi : m !! i = Some ni) (Hinit : init = Some i)
        (Hne : cp <> i) (Hpid : n_pid nc <> Proc.PID_IDLE).
Let m' : gmap Z node := exit_node cp i (n_kids nc) m.

(** What becomes of a process: the children of [cp] have [i] as their parent. *)
Definition moved (p : Z) (n : node) : node :=
  mk_node (n_pid n)
    (if decide (p = i) then n_kids n ++ n_kids nc else if decide (p = cp) then [] else n_kids n)
    (if decide (p ∈ n_kids nc) then Some i else n_parent n).

Lemma exit_lookup p : m' !! p = moved p <$> m !! p.
Proof.
  unfold m', exit_node. rewrite adopt_lookup. unfold moved. destruct (decide (p = i)) as [->|Hpi].
  - rewrite lookup_alter_eq, lookup_alter_ne by done. destruct (m !! i); simpl; [|done]. by case_decide.
  - rewrite lookup_alter_ne by done. destruct (decide (p = cp)) as [->|Hpc].
    + rewrite lookup_alter_eq. destruct (m !! cp); simpl; [|done]. by case_decide.
    + rewrite lookup_alter_ne by done. destruct (m !! p) as [[? ? ?]|]; simpl; [|done]. by case_decide.
Qed.

Lemma exit_inv p n : m' !! p = Some n -> exists n0, m !! p = Some n0 /\ n = moved p n0.
Proof. rewrite exit_lookup, fmap_Some. done. Qed.
Lemma exit_old p n0 : m !! p = Some n0 -> m' !! p = Some (moved p n0).
Proof. intros Hp. by rewrite exit_lookup, Hp. Qed.

Lemma kid_parent c k : c ∈ n_kids nc -> m !! c = Some k -> n_parent k = Some cp.
Proof. intros Hc Hk. destruct (tr_kids _ _ _ HT _ _ _ Hcp Hc) as (k' & ? & ?). congruence. Qed.

(** The init process keeps its parent, which has none. *)
Lemma init_stays : i ∉ n_kids nc /\ exists q k, n_parent ni = Some q /\ m !! q = Some k /\ n_parent k = None /\ q ∉ n_kids nc.
Proof.
  destruct (tr_init _ _ _ HT _ _ Hinit Hi) as (_ & q & k & Hq & Hk & Hk0). split.
  - intros Hin. pose proof (kid_parent _ _ Hin Hi) as E. rewrite Hq in E. injection E as ->.
    rewrite Hcp in Hk. injection Hk as <-. apply Hpid. by apply (tr_root _ _ _ HT _ _ Hcp).
  - exists q, k. split_and!; [done..|]. intros Hin. pose proof (kid_parent _ _ Hin Hk). congruence.
Qed.

Lemma exit_rooted p : rooted m p -> rooted m' p.
Proof.
  destruct init_stays as (Hik & q & k & Hq & Hk & Hk0 & Hqk).
  assert (Hri : rooted m' i).
  { eapply (rooted_step _ i _ q); [by apply exit_old|simpl; by rewrite decide_False|].
    eapply rooted_root; [by apply exit_old|]. simpl. by rewrite decide_False. }
  induction 1 as [p n Hp Hn|p n r Hp Hn Hr IH].
  - eapply rooted_root; [by apply exit_old|]. simpl. rewrite decide_False; [done|].
    intros Hin. pose proof (kid_parent _ _ Hin Hp). congruence.
  - destruct (decide (p ∈ n_kids nc)) as [Hin|Hin].
    + eapply (rooted_step _ p _ i); [by apply exit_old|simpl; by rewrite decide_True|done].
    + eapply (rooted_step _ p _ r); [by apply exit_old|simpl; by rewrite decide_False|done].
Qed.

Lemma exit_tree : tree m' l init.
Proof.
  destruct init_stays as (Hik & q & k & Hq & Hk & Hk0 & Hqk). split.
  - apply HT.
  - intros p. rewrite (tr_list _ _ _ HT), exit_lookup. by rewrite fmap_is_Some.
  - intros p p' n n' (n0 & Hp & ->)%exit_inv (n0' & Hp' & ->)%exit_inv. exact (tr_pids _ _ _ HT _ _ _ _ Hp Hp').
  - intros p n (n0 & Hp & ->)%exit_inv. exact (tr_range _ _ _ HT _ _ Hp).
  - intros p n (n0 & Hp & ->)%exit_inv. simpl. pose proof (tr_kids_nodup _ _ _ HT _ _ Hp).
    repeat case_decide; [|apply NoDup_nil_2|done]. subst p.
    apply NoDup_app. split_and!; [done| |exact (tr_kids_nodup _ _ _ HT _ _ Hcp)].
    intros x Hx Hx'. destruct (tr_kids _ _ _ HT _ _ _ Hp Hx) as (kx & Hkx & E).
    pose proof (kid_parent _ _ Hx' Hkx). congruence.
  - intros p n c (n0 & Hp & ->)%exit_inv Hc. simpl in Hc.
    assert (Hor : (p = i /\ c ∈ n_kids nc) \/ (p <> cp /\ c ∈ n_kids n0)) by (repeat case_decide; set_solver).
    destruct Hor as [[-> Hin]|[Hpc Hin]].
    + destruct (tr_kids _ _ _ HT _ _ _ Hcp Hin) as (kc & Hkc & _). exists (moved c kc).
      split; [by apply exit_old|]. simpl. by rewrite decide_True.
    + destruct (tr_kids _ _ _ HT _ _ _ Hp Hin) as (kc & Hkc & E). exists (moved c kc).
      split; [by apply exit_old|]. simpl. rewrite decide_False; [done|].
      intros Hin'. pose proof (kid_parent _ _ Hin' Hkc). congruence.
  - intros c n p (n0 & Hc & ->)%exit_inv E. simpl in E. case_decide as Hin.
    + injection E as <-. exists (moved i ni). split; [by apply exit_old|]. simpl. rewrite decide_True by done. set_solver.
    + destruct (tr_parent _ _ _ HT _ _ _ Hc E) as (np & Hp & Hcin). exists (moved p np). split; [by apply exit_old|].
      simpl. destruct (decide (p = i)); [set_solver|]. rewrite decide_False; [done|]. intros ->. congruence.
  - intros p n (n0 & Hp & ->)%exit_inv. simpl. rewrite <- (tr_root _ _ _ HT _ _ Hp). case_decide as Hin; [|done].
    rewrite (kid_parent _ _ Hin Hp). naive_solver.
  - intros p n (n0 & Hp & ->)%exit_inv. apply exit_rooted. by eapply tr_rooted.
  - intros i' n Hi' (n0 & Hp & ->)%exit_inv. rewrite Hinit in Hi'. injection Hi' as <-.
    rewrite Hi in Hp. injection Hp as <-. split; [exact (proj1 (tr_init _ _ _ HT _ _ Hinit Hi))|].
    exists q, (moved q k). simpl. rewrite !decide_False by done. split_and!; [done|by apply exit_old|done].
Qed.
End exit.

Section reap.
Context (m : gmap Z node) (l : list Z) (init : option Z) (p : Z) (np : node).
Context (HT : tree m l init) (Hp : m !! p = Some np) (Hkids : n_kids np = []) (Hpid : n_pid np <> Proc.PID_IDLE).
Let m' : gmap Z node := reap_node p m.

Lemma reap_lookup x n : m' !! x = Some n <-> x <> p /\ exists n0, m !! x = Some n0 /\ n = set_kids (filter (fun y => y <> p)) n0.
Proof. unfold m', reap_node. rewrite lookup_delete_Some, lookup_fmap, fmap_Some. naive_solver. Qed.
Lemma reap_old x n0 : x <> p -> m !! x = Some n0 -> m' !! x = Some (set_kids (filter (fun y => y <> p)) n0).
Proof. intros. apply reap_lookup. eauto. Qed.

(** Nothing has [p] as its parent. *)
Lemma not_parent c k q : m !! c = Some k -> n_parent k = Some q -> q <> p.
Proof.
  intros Hc E ->. destruct (tr_parent _ _ _ HT _ _ _ Hc E) as (n & Hn & Hin).
  rewrite Hp in Hn. injection Hn as <-. rewrite Hkids in Hin. by apply not_elem_of_nil in Hin.
Qed.
Lemma not_root x n : m !! x = Some n -> n_parent n = None -> x <> p.
Proof. intros Hx E ->. rewrite Hp in Hx. injection Hx as <-. apply Hpid. by apply (tr_root _ _ _ HT _ _ Hp). Qed.

Lemma reap_tree : tree m' (filter (fun x => x <> p) l) init.
Proof.
  split.
  - apply NoDup_filter, HT.
  - intros x. rewrite list_elem_of_filter, (tr_list _ _ _ HT). split.
    + intros [Hx [n Hn]]. eexists. by apply reap_old.
    + intros [n (Hx & n0 & Hn & _)%reap_lookup]. eauto.
  - intros x y n k (_ & n0 & Hx & ->)%reap_lookup (_ & k0 & Hy & ->)%reap_lookup. exact (tr_pids _ _ _ HT _ _ _ _ Hx Hy).
  - intros x n (_ & n0 & Hx & ->)%reap_lookup. exact (tr_range _ _ _ HT _ _ Hx).
  - intros x n (_ & n0 & Hx & ->)%reap_lookup. apply NoDup_filter. by eapply tr_kids_nodup.
  - intros q n c (_ & n0 & Hq & ->)%reap_lookup [Hc Hin]%list_elem_of_filter.
    destruct (tr_kids _ _ _ HT _ _ _ Hq Hin) as (k & Hk & E). eexists. split; [by apply reap_old|done].
  - intros c n q (Hc & n0 & Hn & ->)%reap_lookup E.
    destruct (tr_parent _ _ _ HT _ _ _ Hn E) as (k & Hk & Hin). eexists. split.
    + apply reap_old; [exact (not_parent _ _ _ Hn E)|done].
    + simpl. by apply list_elem_of_filter.
  - intros x n (_ & n0 & Hx & ->)%reap_lookup. exact (tr_root _ _ _ HT _ _ Hx).
  - assert (Hr : forall x, rooted m x -> x <> p -> rooted m' x).
    { induction 1 as [x n Hx Hn|x n q Hx Hn Hq IH]; intros Hxp.
      - eapply rooted_root; [by apply reap_old|done].
      - eapply (rooted_step _ x _ q); [by apply reap_old|done|]. exact (IH (not_parent _ _ _ Hx Hn)). }
    intros x n (Hx & n0 & Hn & ->)%reap_lookup. apply Hr; [by eapply tr_rooted|done].
  - intros i n Hi (_ & n0 & Hx & ->)%reap_lookup. destruct (tr_init _ _ _ HT _ _ Hi Hx) as (E & q & k & Hq & Hk & Hk0).
    split; [done|]. eexists q, _. split_and!; [done|apply reap_old; [exact (not_root _ _ Hk Hk0)|done]|done].
Qed.
End reap.

End ProcTree.
