(* ===== verification/ProcInv.v ===== *)
(** * Processes: identifiers, the invariant, creation

    How [_proc_getid] searches, the invariant of the process table, which steps keep
    it, and what [proc_create] does ([proc/proc.c]), against the tree of [ProcTree]. *)

From S2P Require Import Prelude KString Sched Vnode Vfs Proc ProcTree.

Module ProcInv.
Import Sched Proc ProcTree.

Local Open Scope Z_scope.
Local Open Scope kernel_scope.

Section specs.
Context {I VM : Type} `{Vnode.FsOps I} `{Vnode.Platform I} `{Vfs.VnodeOps I} `{AddrSpaceLaws I VM}.
Abbreviation state := (kstate (pworld I VM)).
Implicit Types s : state.

(** ** Steps on the process table *)

Lemma runs_get_proc s p pr (Q : proc -> state -> Prop) :
  procs (ext s) !! p = Some pr -> Q pr s -> runs (get_proc p) s Q.
Proof. intros Hp HQ. unfold get_proc. by go. Qed.
Lemma runs_upd_proc s p pr f (Q : unit -> state -> Prop) :
  procs (ext s) !! p = Some pr -> Q tt (set_procs (alter f p) s) -> runs (upd_proc p f) s Q.
Proof. intros Hp HQ. unfold upd_proc. apply runs_bind. eapply runs_get_proc; [done|]. by go. Qed.
Lemma runs_curproc s cp (Q : Z -> state -> Prop) : curproc s = Some cp -> Q cp s -> runs the_curproc s Q.
Proof. intros Hc HQ. unfold the_curproc. by go. Qed.

Lemma run_get_proc s p pr : procs (ext s) !! p = Some pr -> get_proc p s = Done pr s.
Proof. intros Hp. unfold get_proc. kpure. by rewrite Hp. Qed.
Lemma run_the_curproc s cp : curproc s = Some cp -> the_curproc s = Done cp s.
Proof. intros Hc. unfold the_curproc. kpure. by rewrite Hc. Qed.

(** ** Process identifiers *)

(** An identifier is in use by a process of the list. *)
Definition used s (pid : Z) : Prop :=
  exists p pr, p ∈ proc_list (ext s) /\ procs (ext s) !! p = Some pr /\ p_pid pr = pid.

Lemma run_pid_taken s l pid :
  (forall p, p ∈ l -> is_Some (procs (ext s) !! p)) ->
  exists b, pid_taken l pid s = Done b s
    /\ (b = true <-> exists p pr, p ∈ l /\ procs (ext s) !! p = Some pr /\ p_pid pr = pid).
Proof.
  induction l as [|p l IH]; intros Hl.
  - exists false. split; [done|]. split; [done|]. intros (p & pr & Hp & _). by apply not_elem_of_nil in Hp.
  - destruct (Hl p) as [pr Hp]; [set_solver|].
    cbn [pid_taken]. rewrite (kbind_done _ _ _ _ _ (run_get_proc _ _ _ Hp)).
    destruct (Z.eqb_spec (p_pid pr) pid) as [E|E].
    + exists true. split; [done|]. split; [|done]. intros _. exists p, pr. split; [set_solver|done].
    + destruct IH as (b & Hrun & Hb); [set_solver|]. exists b. split; [done|]. rewrite Hb. split.
      * intros (q & qr & ? & ?). exists q, qr. split; [set_solver|done].
      * intros (q & qr & [->|Hq]%elem_of_cons & ? & ?); [congruence|eauto].
Qed.

Lemma mod_next a : ((a mod PROC_MAX_COUNT) + 1) mod PROC_MAX_COUNT = (a + 1) mod PROC_MAX_COUNT.
Proof. by rewrite Zplus_mod_idemp_l. Qed.

(** A full turn is the only way back to the start. *)
Lemma mod_back nx k :
  0 <= nx < PROC_MAX_COUNT -> 0 < k <= PROC_MAX_COUNT -> (nx + k) mod PROC_MAX_COUNT = nx -> k = PROC_MAX_COUNT.
Proof.
  unfold PROC_MAX_COUNT. intros Hn Hk E. pose proof (Z.div_mod (nx + k) 65536 ltac:(lia)) as D. rewrite E in D.
  assert (0 < (nx + k) / 65536 \/ (nx + k) / 65536 <= 0) as [|] by lia; nia.
Qed.

Lemma getid_loop_spec s n k :
  (forall p, p ∈ proc_list (ext s) -> is_Some (procs (ext s) !! p)) ->
  0 <= next_pid (ext s) < PROC_MAX_COUNT -> 0 <= k -> k + Z.of_nat n = PROC_MAX_COUNT -> (0 < n)%nat ->
  (forall j, 0 <= j < k -> used s ((next_pid (ext s) + j) mod PROC_MAX_COUNT)) ->
  (exists j, getid_loop n ((next_pid (ext s) + k) mod PROC_MAX_COUNT) s
     = Done ((next_pid (ext s) + j) mod PROC_MAX_COUNT) (set_next_pid ((next_pid (ext s) + j + 1) mod PROC_MAX_COUNT) s)
     /\ 0 <= j < PROC_MAX_COUNT /\ ~ used s ((next_pid (ext s) + j) mod PROC_MAX_COUNT)
     /\ forall i, 0 <= i < j -> used s ((next_pid (ext s) + i) mod PROC_MAX_COUNT))
  \/ (getid_loop n ((next_pid (ext s) + k) mod PROC_MAX_COUNT) s = Done (-1) s
      /\ forall j, 0 <= j < PROC_MAX_COUNT -> used s ((next_pid (ext s) + j) mod PROC_MAX_COUNT)).
Proof.
  intros Hl Hnx. revert k. induction n as [|n IH]; intros k Hk Hn Hpos Hused; [lia|].
  destruct (run_pid_taken s (proc_list (ext s)) ((next_pid (ext s) + k) mod PROC_MAX_COUNT) Hl) as (b & Hrun & Hb).
  cbn [getid_loop]. kpure. rewrite (kbind_done _ _ _ _ _ Hrun). rewrite mod_next. destruct b.
  - assert (Hu : forall j, 0 <= j < k + 1 -> used s ((next_pid (ext s) + j) mod PROC_MAX_COUNT)).
    { intros j Hj. destruct (decide (j = k)) as [->|]; [by apply Hb|apply Hused; lia]. }
    rewrite <- Z.add_assoc. destruct (Z.eqb_spec ((next_pid (ext s) + (k + 1)) mod PROC_MAX_COUNT) (next_pid (ext s))) as [E|E].
    + right. split; [done|]. apply mod_back in E; [|done|unfold PROC_MAX_COUNT in *; lia]. intros j Hj. apply Hu. lia.
    + apply IH; [lia..| |done]. destruct n; [|lia]. exfalso. apply E.
      replace (k + 1) with PROC_MAX_COUNT by lia.
      rewrite <- Z.add_mod_idemp_r, Z_mod_same_full, Z.add_0_r by done. by apply Z.mod_small.
  - left. exists k. split; [done|]. split; [lia|]. split; [|done]. intros Hu%Hb. done.
Qed.

Lemma run_proc_getid s :
  (forall p, p ∈ proc_list (ext s) -> is_Some (procs (ext s) !! p)) -> 0 <= next_pid (ext s) < PROC_MAX_COUNT ->
  (exists j, let pid := (next_pid (ext s) + j) mod PROC_MAX_COUNT in
     proc_getid s = Done pid (set_next_pid ((pid + 1) mod PROC_MAX_COUNT) s)
     /\ 0 <= j < PROC_MAX_COUNT /\ ~ used s pid
     /\ forall i, 0 <= i < j -> used s ((next_pid (ext s) + i) mod PROC_MAX_COUNT))
  \/ (proc_getid s = Done (-1) s /\ forall pid, 0 <= pid < PROC_MAX_COUNT -> used s pid).
Proof.
  intros Hl Hn. unfold proc_getid. kpure.
  pose proof (getid_loop_spec s (Z.to_nat PROC_MAX_COUNT) 0 Hl Hn) as Hloop.
  rewrite Z.add_0_r, (Z.mod_small (next_pid _)) in Hloop by done.
  destruct Hloop as [(j & Hrun & Hj & Hnew & Hold)|(Hrun & Hall)]; [lia|rewrite Z2Nat.id by done; lia|unfold PROC_MAX_COUNT; lia|lia|left|right].
  - exists j. cbv zeta. rewrite mod_next. split_and!; [exact Hrun|lia..|done|done].
  - split; [done|]. intros pid Hpid. specialize (Hall ((pid - next_pid (ext s)) mod PROC_MAX_COUNT)).
    assert (E : (next_pid (ext s) + (pid - next_pid (ext s)) mod PROC_MAX_COUNT) mod PROC_MAX_COUNT = pid).
    { rewrite Z.add_mod_idemp_r, Z.add_comm, Z.sub_add by done. by apply Z.mod_small. }
    rewrite E in Hall. apply Hall. by apply Z.mod_pos_bound.
Qed.

(** ** Steps that leave the processes alone *)

Abbreviation next_addr s := (Vnode.fs_next (pw_fs (ext s))).
Abbreviation budget s := (Vnode.fs_budget (pw_fs (ext s))).

(** Only the file systems, the address spaces and the allocator have changed. *)
Record quiet s s' : Prop := {
  q_threads : threads s' = threads s;
  q_queues : queues s' = queues s;
  q_curthr : curthr s' = curthr s;
  q_curproc : curproc s' = curproc s;
  q_ipl : ipl s' = ipl s;
  q_procs : procs (ext s') = procs (ext s);
  q_list : proc_list (ext s') = proc_list (ext s);
  q_pid : next_pid (ext s') = next_pid (ext s);
  q_init : proc_initproc (ext s') = proc_initproc (ext s);
  q_next : next_addr s <= next_addr s'
}.

Lemma quiet_fs s t : next_addr s <= Vnode.fs_next t -> quiet s (set_pw_fs t s).
Proof. by intros; split. Qed.
Lemma quiet_vm s t : next_addr s <= Vnode.fs_next (fst t) -> quiet s (set_pw_vm t s).
Proof. by intros; split. Qed.

Lemma run_alloc s :
  runs mem_alloc s (fun r s' => quiet s s' /\ Vnode.vnodes (pw_fs (ext s')) = Vnode.vnodes (pw_fs (ext s)) /\ ((0 < budget s)%nat -> r = Some (next_addr s) /\ next_addr s < next_addr s'
                                                  /\ (budget s <= S (budget s'))%nat)).
Proof.
  unfold mem_alloc, fs_call. apply runs_zoom. unfold Vnode.mem_alloc. go. destruct (budget s) as [|b] eqn:E; go.
  - split; [by apply quiet_fs|]. split; [done|lia].
  - split; [apply quiet_fs; cbn; lia|]. split; [done|]. intros _. cbn. split_and!; [done|lia..].
Qed.

Lemma run_proc_vref s d v :
  Vnode.vnodes (pw_fs (ext s)) !! d = Some v -> 0 < Vnode.vn_refcount v ->
  runs (fs_call (Vnode.vref d)) s (fun _ s' => quiet s s').
Proof.
  intros Hv Hr. unfold fs_call. apply runs_zoom. unfold Vnode.vref, Vnode.upd_vnode, Vnode.get_vnode. go.
  apply runs_assert; [by apply Z.ltb_lt|]. go. by apply quiet_fs.
Qed.

Lemma run_comm_of s name str :
  KString.is_str name str ->
  runs (comm_of name) s (fun comm s' => s' = s /\ KString.is_str comm (take (Z.to_nat (PROC_NAME_LEN - 1)) str)).
Proof.
  intros Hs. unfold comm_of. go. eapply runs_deref; [by apply KString.strlen_spec|].
  assert (Hnul : KString.NUL ∉ str) by apply Hs. destruct Hs as ((rest & ->) & _).
  unfold PROC_NAME_LEN. destruct (Z.ltb_spec (Z.of_nat (length str)) 256) as [Hl|Hl].
  - eapply runs_deref; [apply (KString.strcpy_spec _ _ str); [by apply KString.is_str_app|rewrite length_replicate; lia]|].
    split; [done|]. rewrite take_ge by lia. by apply KString.is_str_app.
  - eapply runs_deref; [apply KString.strncpy_take|].
    + rewrite take_app_le by lia. intros Hin. apply Hnul. by apply elem_of_take in Hin as (? & ?%list_elem_of_lookup_2 & _).
    + rewrite length_replicate. lia.
    + rewrite length_app. lia.
    + split; [done|]. rewrite take_app_le by lia. change (Z.to_nat (256 - 1)) with 255%nat.
      rewrite drop_replicate. apply KString.is_str_app.
      intros Hin. apply Hnul. by apply elem_of_take in Hin as (? & ?%list_elem_of_lookup_2 & _).
Qed.

Lemma run_create_space s : runs (vm_call vmmap_create) s (fun _ s' => quiet s s').
Proof.
  unfold vm_call. apply runs_zoom. eapply runs_mono; [apply create_returns|]. intros r t (Hn & _). by apply quiet_vm.
Qed.

(** ** Creation *)

(** The process that [proc_create] makes *)
Definition is_new (pid : Z) (str : list Z) (parent : option Z) (pr : proc) : Prop :=
  p_pid pr = pid /\ KString.is_str (p_comm pr) (take (Z.to_nat (PROC_NAME_LEN - 1)) str)
  /\ p_threads pr = [] /\ p_children pr = [] /\ p_pproc pr = parent /\ p_state pr = PROC_RUNNING.

(** The state after [proc_create] has made the process [new] *)
Record created s (new pid : Z) (str : list Z) s' : Prop := {
  cr_threads : threads s' = threads s;
  cr_queues : queues s' = <[p_wait new := mk_ktqueue [] 0]> (queues s);
  cr_curthr : curthr s' = curthr s;
  cr_curproc : curproc s' = curproc s;
  cr_ipl : ipl s' = ipl s;
  cr_procs : exists pr, is_new pid str (curproc s) pr
    /\ procs (ext s') = <[new := pr]> (match curproc s with
                                       | Some cp => alter (with_children (fun l => l ++ [new])) cp (procs (ext s))
                                       | None => procs (ext s)
                                       end);
  cr_list : proc_list (ext s') = proc_list (ext s) ++ [new];
  cr_pid : next_pid (ext s') = (pid + 1) mod PROC_MAX_COUNT;
  cr_init : proc_initproc (ext s') = if pid =? PID_INIT then Some new else proc_initproc (ext s);
  cr_addr : next_addr s <= new < next_addr s'
}.

(** What the part of [proc_create] after [_proc_getid] needs of the state. *)
Record can_create s (pid : Z) : Prop := {
  cc_budget : (0 < budget s)%nat;
  cc_fresh : procs (ext s) !! next_addr s = None;
  cc_idle : pid = PID_IDLE -> proc_list (ext s) = [];
  cc_cur : forall cp, curproc s = Some cp -> exists c, procs (ext s) !! cp = Some c
    /\ (pid = PID_INIT -> p_pid c = PID_IDLE)
    /\ (forall d, pr_cwd c = Some d -> exists v, Vnode.vnodes (pw_fs (ext s)) !! d = Some v /\ 0 < Vnode.vn_refcount v);
  cc_first : curproc s = None -> pid = PID_IDLE
}.

(** The process fields that [proc_setup] does not set *)
Definition same_new (pr pr' : proc) : Prop :=
  p_pid pr' = p_pid pr /\ p_comm pr' = p_comm pr /\ p_threads pr' = p_threads pr /\ p_children pr' = p_children pr
  /\ p_pproc pr' = p_pproc pr /\ p_state pr' = p_state pr.

Definition linked_to (cp : option Z) (new : Z) (m : gmap Z proc) : gmap Z proc :=
  match cp with Some cp => alter (with_children (fun l => l ++ [new])) cp m | None => m end.

Lemma run_proc_setup s pid new pr0 m :
  procs (ext s) = <[new := pr0]> m -> m !! new = None -> (curproc s = None -> pid = PID_IDLE) ->
  (forall cp, curproc s = Some cp -> exists c, m !! cp = Some c
     /\ forall d, pr_cwd c = Some d -> exists v, Vnode.vnodes (pw_fs (ext s)) !! d = Some v /\ 0 < Vnode.vn_refcount v) ->
  runs (proc_setup pid new) s (fun _ s' => exists pr, same_new pr0 pr
    /\ procs (ext s') = <[new := pr]> (linked_to (curproc s) new m)
    /\ queues s' = <[p_wait new := mk_ktqueue [] 0]> (queues s) /\ proc_list (ext s') = proc_list (ext s) ++ [new]
    /\ threads s' = threads s /\ curthr s' = curthr s /\ curproc s' = curproc s /\ ipl s' = ipl s
    /\ next_pid (ext s') = next_pid (ext s) /\ proc_initproc (ext s') = proc_initproc (ext s) /\ next_addr s <= next_addr s').
Proof.
  intros Hm Hnew Hfirst Hcur. unfold proc_setup. go. unfold sched_queue_init. go.
  eapply runs_mono; [apply run_alloc|]. intros pd s2 (Q2 & V2 & _). apply runs_bind.
  assert (E2 : procs (ext s2) = <[new := pr0]> m) by by rewrite (q_procs _ _ Q2).
  eapply runs_upd_proc; [rewrite E2; apply lookup_insert_eq|]. go.
  destruct (curproc s) as [cp|] eqn:Ecp.
  - destruct (Hcur cp eq_refl) as (c & Hc & Hcwd). assert (Hne : cp <> new) by (intros ->; congruence).
    eapply (runs_upd_proc _ _ c); [cbn; by rewrite lookup_alter_ne, E2, lookup_insert_ne by done|]. go.
    set (c' := with_children (fun l => l ++ [new]) c).
    set (s3 := set_procs _ (set_proc_list _ _)).
    assert (E3 : procs (ext s3) = <[new := with_pagedir pd pr0]> (linked_to (Some cp) new m)).
    { cbn. by rewrite E2, alter_insert_eq, alter_insert_ne. }
    assert (Hc3 : procs (ext s3) !! cp = Some c') by (rewrite E3; cbn; by rewrite lookup_insert_ne, lookup_alter_eq, Hc).
    eapply (runs_mono _ _ (fun _ s' => s' = s3)).
    { destruct (pid =? 0); go; [done|]. eapply (runs_curproc _ cp); [cbn; by rewrite (q_curproc _ _ Q2)|]. go.
      by eapply runs_get_proc; [|go]. }
    intros _ _ ->. go. eapply runs_get_proc; [exact Hc3|]. go.
    eapply runs_upd_proc; [rewrite E3; apply lookup_insert_eq|]. set (s4 := set_procs _ s3).
    eapply (runs_mono _ _ (fun _ s' => quiet s4 s')).
    { cbn [c' with_children pr_cwd]. destruct (pr_cwd c) as [d|]; [|by apply runs_ret; split].
      destruct (Hcwd d eq_refl) as (v & Hv & Hr). apply (run_proc_vref _ d v); [|done]. rewrite <- Hv. exact (f_equal (fun g => g !! d) V2). }
    intros _ s5 Q5. go. eapply runs_mono; [apply run_create_space|]. intros map s6 Q6.
    assert (E6 : procs (ext s6) = <[new := with_open (pr_files pr0) (pr_cwd c) (with_pagedir pd pr0)]> (linked_to (Some cp) new m)).
    { rewrite (q_procs _ _ Q6), (q_procs _ _ Q5). unfold s4. cbn [ext set_procs set_world procs]. by rewrite E3, alter_insert_eq. }
    eapply runs_upd_proc; [rewrite E6; apply lookup_insert_eq|]. eexists. split; [|split; [cbn; rewrite E6; apply alter_insert_eq|]]; [done|].
    clear E6 E3 Hc3. subst s4 s3. destruct Q2, Q5, Q6. cbn in *. split_and!; congruence || lia.
  - go. rewrite (Hfirst eq_refl). cbn [Z.eqb PID_IDLE]. go. eapply runs_mono; [apply run_create_space|]. intros map s6 Q6.
    assert (E6 : procs (ext s6) = <[new := with_pagedir pd pr0]> m).
    { rewrite (q_procs _ _ Q6). cbn. by rewrite E2, alter_insert_eq. }
    eapply runs_upd_proc; [rewrite E6; apply lookup_insert_eq|].
    eexists. split; [|split; [cbn; rewrite E6; apply alter_insert_eq|]]; [done|].
    clear E6. destruct Q2, Q6. cbn in *. split_and!; congruence || lia.
Qed.

Lemma run_proc_create s pid name str :
  proc_getid s = Done pid (set_next_pid ((pid + 1) mod PROC_MAX_COUNT) s) -> can_create s pid -> KString.is_str name str ->
  runs (proc_create name) s (fun new s' => new = next_addr s /\ created s new pid str s').
Proof.
  intros Hid [Hb Hfresh Hidle Hcur Hfirst] Hstr. unfold proc_create. apply runs_bind.
  eapply runs_done; [exact Hid|]. set (s1 := set_next_pid _ s). go.
  apply runs_assert.
  { destruct (Z.eqb_spec pid PID_IDLE) as [E|]; [|done]. by apply bool_decide_eq_true, Hidle. }
  apply runs_bind. eapply runs_mono; [apply run_alloc|]. intros r s2 (Q2 & V2 & Ha).
  destruct (Ha Hb) as (-> & Hlt & _). go. change (next_addr s1) with (next_addr s) in *. set (new := next_addr s) in *.
  eapply runs_mono; [by apply run_comm_of|]. intros comm s2' (-> & Hcomm). apply runs_bind.
  eapply (runs_mono _ _ (fun _ s3 => s3 = (if pid =? PID_INIT then set_initproc (Some new) s2 else s2))).
  { destruct (Z.eqb_spec pid PID_INIT) as [E|]; [|by go]. apply runs_bind.
    destruct (curproc s) as [cp|] eqn:Ecp; [|exfalso; specialize (Hfirst eq_refl); rewrite E in Hfirst; done].
    destruct (Hcur cp eq_refl) as (c & Hc & Hc0 & _).
    eapply runs_curproc; [by rewrite (q_curproc _ _ Q2)|]. apply runs_bind.
    eapply runs_get_proc; [by rewrite (q_procs _ _ Q2)|]. apply runs_bind.
    apply runs_assert; [by apply Z.eqb_eq, Hc0|]. by go. }
  intros _ s3 E3. go.
  assert (C3 : curproc s3 = curproc s) by (rewrite E3; destruct (_ =? _); exact (q_curproc _ _ Q2)).
  assert (P3 : procs (ext s3) = procs (ext s)) by (rewrite E3; destruct (_ =? _); exact (q_procs _ _ Q2)).
  assert (V3 : Vnode.vnodes (pw_fs (ext s3)) = Vnode.vnodes (pw_fs (ext s))) by (rewrite E3; destruct (_ =? _); exact V2).
  eapply runs_mono; [eapply (run_proc_setup _ _ _ (new_proc pid comm (curproc s)) (procs (ext s)))|].
  - cbn. by rewrite P3.
  - done.
  - cbn. by rewrite C3.
  - cbn. rewrite C3, V3. intros cp Hcp. destruct (Hcur cp Hcp) as (c & ? & _ & ?). eauto.
  - intros [] s4. cbn. rewrite C3. intros (pr & Hpr & EP & EQ & EL & ET & E1 & E2 & E4 & E5 & E6 & E7). go.
    split; [done|]. destruct Q2. destruct Hpr as (? & ? & ? & ? & ? & ?). cbn in *. rewrite E3 in *. 
    split; try (destruct (pid =? PID_INIT); cbn in *; congruence || lia).
    exists pr. split; [|done]. split_and!; try done. congruence.
Qed.

(** ** The invariant *)

Record pinv s : Prop := {
  pi_tree : tree (forest (ext s)) (proc_list (ext s)) (proc_initproc (ext s));
  pi_next : 0 <= next_pid (ext s) < PROC_MAX_COUNT;
  pi_sched : sched_wf s;
  pi_wait : forall p pr, procs (ext s) !! p = Some pr -> p <> kt_runq /\ exists k, queues s !! p_wait p = Some k;
  pi_threads : forall p pr, procs (ext s) !! p = Some pr -> NoDup (p_threads pr) /\
    forall t, t ∈ p_threads pr -> exists th, threads s !! t = Some th /\ kt_proc th = p /\ kt_kstack th <> 0;
  pi_pagedir : forall p pr, procs (ext s) !! p = Some pr -> p_threads pr <> [] \/ p_state pr = PROC_DEAD -> is_Some (p_pagedir pr);
  pi_dead : forall p pr, procs (ext s) !! p = Some pr -> p_state pr = PROC_DEAD -> p_children pr = [] /\
    forall t th, t ∈ p_threads pr -> threads s !! t = Some th -> kt_state th = KT_EXITED;
  pi_waiters : forall p pr k t, procs (ext s) !! p = Some pr -> queues s !! p_wait p = Some k -> t ∈ tq_list k ->
    t ∈ p_threads pr;
  pi_addr_threads : forall t th, threads s !! t = Some th -> t < next_addr s;
  pi_addr_queues : forall q k, queues s !! q = Some k -> q < next_addr s;
  pi_addr_init : forall i, proc_initproc (ext s) = Some i -> i < next_addr s
}.

Lemma forest_lookup (w : pworld I VM) p pr : procs w !! p = Some pr -> forest w !! p = Some (node_of pr).
Proof. intros Hp. unfold forest. by rewrite lookup_fmap, Hp. Qed.
Lemma forest_inv (w : pworld I VM) p n : forest w !! p = Some n -> exists pr, procs w !! p = Some pr /\ n = node_of pr.
Proof. unfold forest. rewrite lookup_fmap, fmap_Some. done. Qed.

Lemma pi_fresh s p pr : pinv s -> procs (ext s) !! p = Some pr -> p < next_addr s.
Proof. intros HI Hp. destruct (pi_wait _ HI _ _ Hp) as (_ & k & Hk). by eapply pi_addr_queues. Qed.

Lemma pi_listed s p : pinv s -> p ∈ proc_list (ext s) -> is_Some (procs (ext s) !! p).
Proof. intros HI [n (pr & ? & _)%forest_inv]%(tr_list _ _ _ (pi_tree _ HI)). eauto. Qed.
Lemma used_iff s pid : pinv s -> used s pid <-> exists p pr, procs (ext s) !! p = Some pr /\ p_pid pr = pid.
Proof.
  intros HI. split; [intros (p & pr & _ & ? & ?); eauto|]. intros (p & pr & Hp & E). exists p, pr. split; [|done].
  apply (tr_list _ _ _ (pi_tree _ HI)). eexists. by apply forest_lookup.
Qed.
Lemma idle_used s p pr : pinv s -> procs (ext s) !! p = Some pr -> used s PID_IDLE.
Proof.
  intros HI Hp. destruct (tree_idle _ _ _ _ _ (pi_tree _ HI) (forest_lookup _ _ _ Hp)) as (r & k & Hr & E).
  apply forest_inv in Hr as (rr & Hr & ->). apply used_iff; [done|]. eauto.
Qed.

(** The forest after creation *)
Lemma created_forest s new pid str s' cp :
  created s new pid str s' -> curproc s = Some cp -> forest (ext s') = add_node new pid (Some cp) (forest (ext s)).
Proof.
  intros C Hcp. destruct (cr_procs _ _ _ _ _ C) as (pr & (E1 & _ & _ & E2 & E3 & _) & EP). rewrite Hcp in *.
  unfold forest. rewrite EP, fmap_insert. unfold add_node. f_equal.
  - unfold node_of. by rewrite E1, E2, E3.
  - apply map_eq. intros q. rewrite lookup_fmap, !lookup_alter. case_decide; [subst|by rewrite lookup_fmap].
    rewrite lookup_fmap. by destruct (procs (ext s) !! q).
Qed.

(** The scheduler does not notice a new empty queue. *)
Lemma wf_new_queue s q s' :
  sched_wf s -> queues s !! q = None -> threads s' = threads s -> queues s' = <[q := mk_ktqueue [] 0]> (queues s) ->
  curthr s' = curthr s -> sched_wf s'.
Proof.
  intros Hwf Hq ET EQ EC. split; rewrite ?ET, ?EQ, ?EC.
  - intros q' k. destruct (decide (q' = q)) as [->|]; [rewrite lookup_insert_eq; by intros [= <-]|].
    rewrite lookup_insert_ne by done. by apply (wf_size _ _ Hwf).
  - intros q' k. destruct (decide (q' = q)) as [->|]; [rewrite lookup_insert_eq; intros [= <-]; apply NoDup_nil_2|].
    rewrite lookup_insert_ne by done. by apply (wf_nodup _ _ Hwf).
  - intros q' k t. destruct (decide (q' = q)) as [->|].
    + rewrite lookup_insert_eq. intros [= <-] Ht. by apply not_elem_of_nil in Ht.
    + rewrite lookup_insert_ne by done. by apply (wf_on _ _ Hwf).
  - intros t th q' Ht Hw. destruct (wf_wchan _ _ Hwf _ _ _ Ht Hw) as (k & Hk & ?). exists k. split; [|done].
    rewrite lookup_insert_ne; [done|]. intros ->. congruence.
  - destruct (wf_runq _ _ Hwf) as [k Hk]. exists k. rewrite lookup_insert_ne; [done|]. intros ->. congruence.
  - apply (wf_state _ _ Hwf).
  - done.
Qed.

(** The processes after creation: the new one, and the old ones, of which the
    creator has one more child. *)
Lemma created_lookup s new pid str s' cp p pr :
  created s new pid str s' -> curproc s = Some cp -> procs (ext s') !! p = Some pr ->
  (p = new /\ is_new pid str (Some cp) pr)
  \/ (p <> new /\ exists pr0, procs (ext s) !! p = Some pr0 /\ p_threads pr = p_threads pr0 /\ p_pagedir pr = p_pagedir pr0
      /\ p_state pr = p_state pr0 /\ (p <> cp -> pr = pr0)).
Proof.
  intros C Hcp. destruct (cr_procs _ _ _ _ _ C) as (pn & Hpn & EP). rewrite Hcp in *. rewrite EP.
  destruct (decide (p = new)) as [->|Hne]; [rewrite lookup_insert_eq; intros [= <-]; by left|].
  rewrite lookup_insert_ne by done. intros Hp. right. split; [done|]. rewrite lookup_alter in Hp. case_decide.
  - subst. destruct (procs (ext s) !! p) as [pr0|]; [|done]. injection Hp as <-. by exists pr0.
  - by exists pr.
Qed.

Lemma created_inv s new pid str s' cp c :
  pinv s -> created s new pid str s' -> curproc s = Some cp -> procs (ext s) !! cp = Some c -> p_state c = PROC_RUNNING ->
  0 <= pid < PROC_MAX_COUNT -> ~ used s pid -> (pid = PID_INIT -> p_pid c = PID_IDLE) -> pinv s'.
Proof.
  intros HI C Hcp Hc Hrun Hrange Hfree Hp1. pose proof (cr_addr _ _ _ _ _ C) as Haddr.
  assert (Hnew : procs (ext s) !! new = None).
  { destruct (procs (ext s) !! new) as [pr|] eqn:E; [|done]. pose proof (pi_fresh _ _ _ HI E). lia. }
  assert (Hq : queues s !! p_wait new = None).
  { destruct (queues s !! p_wait new) as [k|] eqn:E; [|done]. pose proof (pi_addr_queues _ HI _ _ E). unfold p_wait in *. lia. }
  split.
  - rewrite (created_forest _ _ _ _ _ _ C Hcp), (cr_list _ _ _ _ _ C), (cr_init _ _ _ _ _ C).
    eapply add_child_tree; [exact (pi_tree _ HI)|unfold forest; by rewrite lookup_fmap, Hnew| |done| |by apply forest_lookup| |].
    + intros p n (pr & Hp & ->)%forest_inv E. apply Hfree, used_iff; eauto.
    + intros E. pose proof (pi_addr_init _ HI _ E). lia.
    + intros ->. by eapply Hfree, idle_used.
    + intros E. by apply (tr_root _ _ _ (pi_tree _ HI) cp _ (forest_lookup _ _ _ Hc)), Hp1.
  - rewrite (cr_pid _ _ _ _ _ C). by apply Z.mod_pos_bound.
  - eapply (wf_new_queue s); [apply HI|exact Hq|apply C..].
  - intros p pr Hp. rewrite (cr_queues _ _ _ _ _ C). destruct (wf_runq _ _ (pi_sched _ HI)) as [kr Hkr].
    destruct (created_lookup _ _ _ _ _ _ _ _ C Hcp Hp) as [[-> _]|(Hne & pr0 & Hp0 & _)].
    + split; [|rewrite lookup_insert_eq; eauto]. unfold p_wait in Hq. intros ->. congruence.
    + rewrite lookup_insert_ne by (unfold p_wait; congruence). exact (pi_wait _ HI _ _ Hp0).
  - intros p pr Hp. rewrite (cr_threads _ _ _ _ _ C).
    destruct (created_lookup _ _ _ _ _ _ _ _ C Hcp Hp) as [[-> (_ & _ & -> & _)]|(Hne & pr0 & Hp0 & -> & _)];
      [|exact (pi_threads _ HI _ _ Hp0)]. split; [apply NoDup_nil_2|]. intros t Ht. by apply not_elem_of_nil in Ht.
  - intros p pr Hp. destruct (created_lookup _ _ _ _ _ _ _ _ C Hcp Hp) as [[-> Hn]|(Hne & pr0 & Hp0 & -> & -> & -> & _)];
      [|exact (pi_pagedir _ HI _ _ Hp0)]. destruct Hn as (_ & _ & -> & _ & _ & ->). by intros [].
  - intros p pr Hp Hd. rewrite (cr_threads _ _ _ _ _ C).
    destruct (created_lookup _ _ _ _ _ _ _ _ C Hcp Hp) as [[-> Hn]|(Hne & pr0 & Hp0 & Et & _ & Es & Eq)].
    + destruct Hn as (_ & _ & _ & _ & _ & Hn). congruence.
    + assert (E : pr = pr0) by (apply Eq; intros ->; congruence). rewrite E in *. exact (pi_dead _ HI _ _ Hp0 Hd).
  - intros p pr k t Hp. rewrite (cr_queues _ _ _ _ _ C).
    destruct (created_lookup _ _ _ _ _ _ _ _ C Hcp Hp) as [[-> _]|(Hne & pr0 & Hp0 & -> & _)].
    + rewrite lookup_insert_eq. intros [= <-] Ht. by apply not_elem_of_nil in Ht.
    + rewrite lookup_insert_ne by (unfold p_wait; congruence). by apply (pi_waiters _ HI).
  - intros t th. rewrite (cr_threads _ _ _ _ _ C). intros Ht. pose proof (pi_addr_threads _ HI _ _ Ht). lia.
  - intros q k. rewrite (cr_queues _ _ _ _ _ C). intros [[<- _]|[_ Hk]]%lookup_insert_Some; [unfold p_wait; lia|].
    pose proof (pi_addr_queues _ HI _ _ Hk). lia.
  - intros i. rewrite (cr_init _ _ _ _ _ C). destruct (pid =? PID_INIT); [intros [= <-]; lia|].
    intros Hi. pose proof (pi_addr_init _ HI _ Hi). lia.
Qed.

(** ** Steps that keep the invariant *)

(** The scheduler's invariant does not depend on the rest of the state. *)
Lemma wf_same b s s' :
  wf_but b s -> threads s' = threads s -> queues s' = queues s -> curthr s' = curthr s -> wf_but b s'.
Proof. intros [] ET EQ EC. by split; rewrite ?ET, ?EQ, ?EC. Qed.

Lemma pinv_quiet s s' : pinv s -> quiet s s' -> pinv s'.
Proof.
  intros [] []. unfold forest in *. split; unfold forest; rewrite ?q_procs0, ?q_list0, ?q_init0, ?q_pid0, ?q_threads0, ?q_queues0; try done.
  - by eapply wf_same.
  - intros t th Ht. specialize (pi_addr_threads0 _ _ Ht). lia.
  - intros q k Hk. specialize (pi_addr_queues0 _ _ Hk). lia.
  - intros i Hi. specialize (pi_addr_init0 _ Hi). lia.
Qed.

(** [s'] differs from [s] in where threads wait, what they are doing and which one
    runs; exited threads stay so. *)
Record resched s s' : Prop := {
  rs_ext : ext s' = ext s;
  rs_queues : forall q, is_Some (queues s' !! q) <-> is_Some (queues s !! q);
  rs_threads : forall t th', threads s' !! t = Some th' -> exists th, threads s !! t = Some th
    /\ kt_proc th' = kt_proc th /\ kt_kstack th' = kt_kstack th /\ (kt_state th = KT_EXITED -> kt_state th' = KT_EXITED);
  rs_waiters : forall q k', q <> kt_runq -> queues s' !! q = Some k' -> exists k, queues s !! q = Some k
    /\ forall t, t ∈ tq_list k' -> t ∈ tq_list k;
  rs_kept : forall t, is_Some (threads s !! t) -> is_Some (threads s' !! t)
}.

Lemma pinv_resched s s' : pinv s -> resched s s' -> sched_wf s' -> pinv s'.
Proof.
  intros HI [EX EQ ET EW EK] Hwf. split; rewrite ?EX; [apply HI|apply HI|done|..].
  - intros p pr Hp. destruct (pi_wait _ HI _ _ Hp) as (Hne & Hk). split; [done|]. by apply EQ.
  - intros p pr Hp. destruct (pi_threads _ HI _ _ Hp) as (Hnd & Ht). split; [done|]. intros t Hin.
    destruct (Ht t Hin) as (th & Hth & E1 & E2). destruct (EK t) as [th' Hth']; [eauto|].
    destruct (ET _ _ Hth') as (th0 & Hth0 & ? & ? & _). exists th'. split_and!; congruence.
  - apply HI.
  - intros p pr Hp Hd. destruct (pi_dead _ HI _ _ Hp Hd) as (Hk & Ht). split; [done|]. intros t th' Hin Hth'.
    destruct (ET _ _ Hth') as (th & Hth & _ & _ & Hex). apply Hex. by eapply Ht.
  - intros p pr k' t Hp Hk' Ht. destruct (pi_wait _ HI _ _ Hp) as (Hne & _).
    destruct (EW _ _ Hne Hk') as (k & Hk & Hin). exact (pi_waiters _ HI _ _ _ _ Hp Hk (Hin _ Ht)).
  - intros t th' Hth'. destruct (ET _ _ Hth') as (th & Hth & _). exact (pi_addr_threads _ HI _ _ Hth).
  - intros q k Hk. destruct (EQ q) as [[k' Hk'] _]; [eauto|]. exact (pi_addr_queues _ HI _ _ Hk').
  - apply HI.
Qed.

Lemma resched_refl s : resched s s.
Proof. split; [done..| | |done]; [intros t th Ht; by exists th|]. intros q k _ Hk. by exists k. Qed.
Lemma resched_trans s1 s2 s3 : resched s1 s2 -> resched s2 s3 -> resched s1 s3.
Proof.
  intros [E1 Q1 T1 W1 K1] [E2 Q2 T2 W2 K2]. split; [congruence| | | |].
  - intros q. by rewrite Q2.
  - intros t th3 H3'. destruct (T2 _ _ H3') as (th2 & H2' & ? & ? & ?). destruct (T1 _ _ H2') as (th1 & ? & ? & ? & ?).
    exists th1. split_and!; [done|congruence|congruence|auto].
  - intros q k3 Hne Hk3. destruct (W2 _ _ Hne Hk3) as (k2 & Hk2 & ?). destruct (W1 _ _ Hne Hk2) as (k1 & ? & ?).
    exists k1. split; [done|]. auto.
  - intros t Ht. by apply K2, K1.
Qed.

(** Updating one thread, and one queue *)
Lemma resched_thread s t f :
  (forall th, threads s !! t = Some th -> kt_proc (f th) = kt_proc th /\ kt_kstack (f th) = kt_kstack th
     /\ (kt_state th = KT_EXITED -> kt_state (f th) = KT_EXITED)) -> resched s (set_threads (alter f t) s).
Proof.
  intros Hf. split; cbn; [done..| | |].
  - intros x th'. destruct (decide (x = t)) as [->|]; [|rewrite lookup_alter_ne by done; intros Hx; by exists th'].
    rewrite lookup_alter_eq. intros (th & Hth & ->)%fmap_Some. destruct (Hf th Hth) as (? & ? & ?). by exists th.
  - intros q k _ Hk. by exists k.
  - intros x. destruct (decide (x = t)) as [->|]; [|by rewrite lookup_alter_ne].
    rewrite lookup_alter_eq. by rewrite fmap_is_Some.
Qed.
Lemma resched_queue s q f :
  (forall k t, q <> kt_runq -> t ∈ tq_list (f k) -> t ∈ tq_list k) -> resched s (set_queues (alter f q) s).
Proof.
  intros Hf. split; cbn; [done| |intros t th Ht; by exists th| |done].
  - intros x. destruct (decide (x = q)) as [->|]; [|by rewrite lookup_alter_ne].
    rewrite lookup_alter_eq. by rewrite fmap_is_Some.
  - intros x k' Hne. destruct (decide (x = q)) as [->|]; [|rewrite lookup_alter_ne by done; intros Hk; by exists k'].
    rewrite lookup_alter_eq. intros (k & Hk & ->)%fmap_Some. exists k. auto.
Qed.

Lemma resched_put_on t s : resched s (put_on kt_runq t s).
Proof.
  eapply resched_trans; [apply (resched_thread s t (with_wchan (Some kt_runq))); done|].
  refine (resched_queue (set_threads (alter (with_wchan (Some kt_runq)) t) s) kt_runq (push t) _). by intros ? ? [].
Qed.
Lemma resched_take_off q t s : resched s (take_off q t s).
Proof.
  eapply resched_trans; [apply (resched_thread s t (with_wchan None)); done|].
  refine (resched_queue (set_threads (alter (with_wchan None) t) s) q (pull t) _). intros k x _. cbn.
  by intros [_ ?]%list_elem_of_filter.
Qed.
Lemma resched_cur s a b v : resched s (set_cur a b (set_ipl v s)).
Proof. split; cbn; [done..| | |done]; [intros t th Ht; by exists th|]. intros q k _ Hk. by exists k. Qed.

(** Waking a thread that sleeps. *)
Lemma resched_wake s q t th :
  threads s !! t = Some th -> kt_state th <> KT_EXITED -> resched s (wake q t s).
Proof.
  intros Ht Hst. eapply resched_trans; [apply (resched_take_off q t)|].
  eapply resched_trans; [apply (resched_thread _ t (with_state KT_RUN))|apply resched_put_on].
  intros th'. cbn. rewrite lookup_alter_eq, Ht. intros [= <-]. done.
Qed.

End specs.

End ProcInv.
