(* ===== verification/ProcExit.v ===== *)
(** * Processes: exit

    What [proc_cleanup] ([proc/proc.c]) and [kthread_exit] ([proc/kthread.c]) do, and
    that they keep the invariant of [ProcInv]. *)

From S2P Require Import Prelude KString Sched Vnode Vfs Proc ProcTree ProcInv.

Module ProcExit.
Import Sched Proc ProcTree ProcInv.

Local Open Scope Z_scope.
Local Open Scope kernel_scope.

Section specs.
Context {I VM : Type} `{Vnode.FsOps I} `{Vnode.Platform I} `{Vfs.VnodeOps I} `{AddrSpaceLaws I VM}.
Abbreviation state := (kstate (pworld I VM)).
Abbreviation next_addr s := (Vnode.fs_next (pw_fs (ext s))).
Implicit Types s : state.

(** ** Moving the children *)

(** What one round of the loop does to the processes *)
Definition move_child (cp i : Z) (m : gmap Z proc) (c : Z) : gmap Z proc :=
  alter (with_pproc (Some i)) c (alter (with_children (fun l => l ++ [c])) i
    (alter (with_children (filter (fun x => x <> c))) cp m)).
Definition move_node (cp i : Z) (m : gmap Z node) (c : Z) : gmap Z node :=
  alter (set_parent i) c (alter (set_kids (fun l => l ++ [c])) i (alter (set_kids (filter (fun x => x <> c))) cp m)).

Lemma alter_is_Some {A} (f : A -> A) (m : gmap Z A) i j : is_Some (alter f i m !! j) <-> is_Some (m !! j).
Proof.
  destruct (decide (j = i)) as [->|]; [rewrite lookup_alter_eq|by rewrite lookup_alter_ne]. by rewrite fmap_is_Some.
Qed.

Lemma run_reparent s cp i l :
  is_Some (procs (ext s) !! cp) -> is_Some (procs (ext s) !! i) -> (forall c, c ∈ l -> is_Some (procs (ext s) !! c)) ->
  reparent cp i l s = Done tt (set_procs (fun m => foldl (move_child cp i) m l) s).
Proof.
  assert (Hget : forall s p, is_Some (procs (ext s) !! p) -> exists pr, get_proc p s = Done pr s).
  { intros s' p [pr Hp]. exists pr. unfold get_proc. kpure. by rewrite Hp. }
  assert (Hupd : forall s p f, is_Some (procs (ext s) !! p) -> upd_proc p f s = Done tt (set_procs (alter f p) s)).
  { intros s' p f Hp. destruct (Hget s' p Hp) as (pr & E). unfold upd_proc. by rewrite (kbind_done _ _ _ _ _ E). }
  revert s. induction l as [|c l IH]; intros s Hcp Hi Hl; cbn [reparent].
  - by destruct s as [? ? ? ? ? []].
  - destruct (Hget s c) as (pr & E); [apply Hl; set_solver|]. rewrite (kbind_done _ _ _ _ _ E).
    rewrite (kbind_done _ _ _ _ _ (Hupd s cp _ Hcp)).
    erewrite kbind_done; [|apply Hupd; cbn; by apply alter_is_Some]. cbn beta.
    erewrite kbind_done; [|apply Hupd; cbn; apply alter_is_Some, alter_is_Some, Hl; set_solver]. cbn beta.
    rewrite IH; [done|cbn; by rewrite !alter_is_Some..|].
    intros x Hx. cbn. rewrite !alter_is_Some. apply Hl. set_solver.
Qed.

Lemma fmap_alter_node (f : proc -> proc) (g : node -> node) (m : gmap Z proc) p :
  (forall pr, node_of (f pr) = g (node_of pr)) -> node_of <$> alter f p m = alter g p (node_of <$> m).
Proof.
  intros Hfg. apply map_eq. intros q. rewrite lookup_fmap, !lookup_alter. case_decide; rewrite lookup_fmap; [|done].
  subst. destruct (m !! q); [|done]. cbn. by rewrite Hfg.
Qed.
Lemma fmap_move cp i l (m : gmap Z proc) :
  node_of <$> foldl (move_child cp i) m l = foldl (move_node cp i) (node_of <$> m) l.
Proof.
  revert m. induction l as [|c l IH]; intros m; [done|]. cbn [foldl]. rewrite IH. f_equal.
  unfold move_child, move_node. rewrite (fmap_alter_node (with_pproc (Some i)) (set_parent i)) by done.
  rewrite (fmap_alter_node (with_children (fun l => l ++ [c])) (set_kids (fun l => l ++ [c]))) by done.
  by rewrite (fmap_alter_node (with_children (filter (fun x => x <> c))) (set_kids (filter (fun x => x <> c)))).
Qed.

Lemma alter_lookup {A} (f : A -> A) (m : gmap Z A) i j :
  alter f i m !! j = (fun x => if decide (j = i) then f x else x) <$> m !! j.
Proof.
  destruct (decide (j = i)) as [->|]; [by rewrite lookup_alter_eq|]. rewrite lookup_alter_ne by done.
  by destruct (m !! j).
Qed.

(** All rounds: the children left in [cp] are those that were not moved. *)
Lemma move_lookup cp i l (m : gmap Z node) p :
  cp <> i ->
  foldl (move_node cp i) m l !! p
  = (fun n => mk_node (n_pid n)
       (if decide (p = i) then n_kids n ++ l else if decide (p = cp) then filter (fun x => x ∉ l) (n_kids n) else n_kids n)
       (if decide (p ∈ l) then Some i else n_parent n)) <$> m !! p.
Proof.
  intros Hne. revert m. induction l as [|c l IH]; intros m; cbn [foldl].
  - destruct (m !! p) as [[pid kids par]|]; [|done]. cbn. do 2 f_equal. rewrite app_nil_r.
    destruct (decide (p = i)), (decide (p = cp)); try done. symmetry. apply list_filter_all. set_solver.
  - rewrite IH. unfold move_node. rewrite !alter_lookup. destruct (m !! p) as [[pid kids par]|]; [|done].
    cbn. f_equal.
    destruct (decide (p = i)), (decide (p = cp)); try congruence; destruct (decide (p = c)); cbn; f_equal;
      rewrite <- ?app_assoc; try done.
    all: try (rewrite list_filter_filter; apply list_filter_iff; set_solver).
    all: destruct (decide (p ∈ l)), (decide (p ∈ c :: l)); try done; exfalso; rewrite elem_of_cons in *; tauto.
Qed.

(** The loop of [proc_cleanup] is [exit_node] on the tree. *)
Lemma move_exit cp i (m : gmap Z node) nc ni :
  cp <> i -> m !! cp = Some nc -> m !! i = Some ni -> foldl (move_node cp i) m (n_kids nc) = exit_node cp i (n_kids nc) m.
Proof.
  intros Hne Hc Hi. apply map_eq. intros p. rewrite move_lookup, (exit_lookup m cp i nc ni) by done.
  destruct (m !! p) as [n|] eqn:Hp; [|done]. cbn. unfold moved. do 2 f_equal.
  destruct (decide (p = i)), (decide (p = cp)) as [E|]; try done.
  rewrite E, Hc in Hp. injection Hp as <-. apply list_filter_none. set_solver.
Qed.

(** The parts of a process that are not in the tree *)
Definition same_rest (pr pr' : proc) : Prop :=
  p_pid pr' = p_pid pr /\ p_threads pr' = p_threads pr /\ p_pagedir pr' = p_pagedir pr /\ p_state pr' = p_state pr
  /\ p_status pr' = p_status pr /\ p_vmmap pr' = p_vmmap pr.

Lemma move_rest cp i l (m : gmap Z proc) p pr' :
  foldl (move_child cp i) m l !! p = Some pr' -> exists pr, m !! p = Some pr /\ same_rest pr pr'.
Proof.
  revert m. induction l as [|c l IH]; intros m; cbn [foldl]; [intros Hp; by exists pr'|].
  intros (pr1 & Hp1 & HR)%IH. unfold move_child in Hp1. rewrite !alter_lookup in Hp1.
  destruct (m !! p) as [pr|]; [|done]. exists pr. split; [done|]. injection Hp1 as <-.
  destruct HR as (? & ? & ? & ? & ? & ?). repeat case_decide; by split_and!.
Qed.

(** ** Exit *)

(** [s'] after process [cp] has become a zombie and its children have moved *)
Record exited s (cp status : Z) s' : Prop := {
  ex_threads : threads s' = threads s;
  ex_queues : queues s' = queues s;
  ex_curthr : curthr s' = curthr s;
  ex_curproc : curproc s' = curproc s;
  ex_ipl : ipl s' = ipl s;
  ex_list : proc_list (ext s') = proc_list (ext s);
  ex_pid : next_pid (ext s') = next_pid (ext s);
  ex_init : proc_initproc (ext s') = proc_initproc (ext s);
  ex_vm : pw_vm (ext s') = pw_vm (ext s);
  ex_next : next_addr s <= next_addr s';
  ex_procs : forall p pr', procs (ext s') !! p = Some pr' -> exists pr, procs (ext s) !! p = Some pr
    /\ same_rest (if decide (p = cp) then with_exit status pr else pr) pr';
  ex_forest : forall c, procs (ext s) !! cp = Some c -> forest (ext s')
    = match p_children c, proc_initproc (ext s) with
      | _ :: _, Some i => exit_node cp i (p_children c) (forest (ext s))
      | _, _ => forest (ext s)
      end
}.

(** The process may exit: if it has children there is an init process to take them. *)
Definition may_exit s (cp : Z) (c : proc) : Prop :=
  1 <= p_pid c /\ (forall t th, t ∈ p_threads c -> threads s !! t = Some th -> kt_state th = KT_EXITED)
  /\ p_threads c <> []
  /\ (p_children c <> [] -> exists i ni, proc_initproc (ext s) = Some i /\ procs (ext s) !! i = Some ni
        /\ cp <> i /\ p_state ni = PROC_RUNNING).

(** A zombie has no children: the process that exited lost them, and only a running
    init process got any. *)
Lemma exited_kids s cp status s' c p pr' :
  pinv s -> procs (ext s) !! cp = Some c -> may_exit s cp c -> exited s cp status s' ->
  procs (ext s') !! p = Some pr' -> p_state pr' = PROC_DEAD -> p_children pr' = [].
Proof.
  intros HI Hc (_ & _ & _ & Hinit) E Hp Hd. destruct (ex_procs _ _ _ _ E _ _ Hp) as (pr & Hpr & HR).
  destruct HR as (_ & _ & _ & HS & _). pose proof (ex_forest _ _ _ _ E _ Hc) as EF.
  pose proof (forest_lookup _ _ _ Hp) as Hf. rewrite EF in Hf.
  assert (Hdead : p <> cp -> p_children pr = []).
  { intros Hne. rewrite decide_False in HS by done. apply (pi_dead _ HI _ _ Hpr). congruence. }
  destruct (p_children c) as [|c0 cs] eqn:Ek.
  - rewrite (forest_lookup _ _ _ Hpr) in Hf. injection Hf as _ Hk _. rewrite <- Hk.
    destruct (decide (p = cp)) as [->|]; [congruence|by apply Hdead].
  - destruct (Hinit ltac:(done)) as (i & ni & Ei & Hi & Hne & Hrun). rewrite Ei in Hf.
    change (c0 :: cs) with (n_kids (mk_node (p_pid c) (c0 :: cs) (p_pproc c))) in Hf.
    rewrite (exit_lookup _ cp i _ (node_of ni)) in Hf; [|by unfold node_of in *; rewrite (forest_lookup _ _ _ Hc); unfold node_of; rewrite Ek|by apply forest_lookup|done].
    rewrite (forest_lookup _ _ _ Hpr) in Hf. injection Hf as _ Hk _. rewrite <- Hk.
    destruct (decide (p = cp)) as [->|Hpc]; [by rewrite decide_False|].
    rewrite decide_False by (intros ->; congruence). by apply Hdead.
Qed.

Lemma exited_inv s cp status s' c :
  pinv s -> procs (ext s) !! cp = Some c -> may_exit s cp c -> exited s cp status s' -> pinv s'.
Proof.
  intros HI Hc Hmay E. pose proof Hmay as (Hpid & Hthr & Hsome & Hinit).
  assert (HP : forall p pr', procs (ext s') !! p = Some pr' -> exists pr, procs (ext s) !! p = Some pr
     /\ p_threads pr' = p_threads pr /\ p_pagedir pr' = p_pagedir pr /\ (p <> cp -> p_state pr' = p_state pr)).
  { intros p pr' Hp. destruct (ex_procs _ _ _ _ E _ _ Hp) as (pr & Hpr & HR). exists pr. split; [done|].
    destruct HR as (_ & -> & -> & -> & _). by case_decide. }
  split; rewrite ?(ex_list _ _ _ _ E), ?(ex_init _ _ _ _ E), ?(ex_pid _ _ _ _ E), ?(ex_threads _ _ _ _ E), ?(ex_queues _ _ _ _ E).
  - rewrite (ex_forest _ _ _ _ E _ Hc). destruct (p_children c) as [|c0 cs] eqn:Ek; [apply HI|].
    destruct (Hinit ltac:(done)) as (i & ni & Ei & Hi & Hne & _). rewrite Ei.
    pose proof (exit_tree _ _ _ cp i (node_of c) (node_of ni) (pi_tree _ HI) (forest_lookup _ _ _ Hc)
                  (forest_lookup _ _ _ Hi) Ei Hne) as HT. cbn in HT. rewrite Ek, Ei in HT. apply HT. unfold PID_IDLE. lia.
  - apply HI.
  - eapply wf_same; [apply HI|apply E..].
  - intros p pr' (pr & Hp & _)%HP. exact (pi_wait _ HI _ _ Hp).
  - intros p pr' (pr & Hp & -> & _)%HP. exact (pi_threads _ HI _ _ Hp).
  - intros p pr' (pr & Hp & -> & -> & HS)%HP Hor. destruct (decide (p = cp)) as [->|Hne].
    + apply (pi_pagedir _ HI _ _ Hp). left. congruence.
    + apply (pi_pagedir _ HI _ _ Hp). by rewrite HS in Hor.
  - intros p pr' Hp Hd. split; [by eapply exited_kids|]. destruct (HP _ _ Hp) as (pr & Hpr & -> & _ & HS).
    destruct (decide (p = cp)) as [->|Hne]; [rewrite Hc in Hpr; injection Hpr as <-; exact Hthr|].
    apply (pi_dead _ HI _ _ Hpr). by rewrite <- HS.
  - intros p pr' k t (pr & Hp & -> & _)%HP. by apply (pi_waiters _ HI).
  - intros t th Ht. pose proof (pi_addr_threads _ HI _ _ Ht). pose proof (ex_next _ _ _ _ E). lia.
  - intros q k Hk. pose proof (pi_addr_queues _ HI _ _ Hk). pose proof (ex_next _ _ _ _ E). lia.
  - intros i Hi. pose proof (pi_addr_init _ HI _ Hi). pose proof (ex_next _ _ _ _ E). lia.
Qed.

(** ** The steps of [proc_cleanup] *)

Lemma runs_vfs_call {A} s cp c (m : kernel (Vfs.vfs I) A) (Q : A -> state -> Prop) :
  curproc s = Some cp -> procs (ext s) !! cp = Some c ->
  runs m (vfs_of cp s) (fun a v => Q a (put_vfs cp v s)) -> runs (vfs_call m) s Q.
Proof.
  intros Hcp Hc Hm. unfold vfs_call. apply runs_bind. eapply runs_curproc; [done|]. apply runs_bind.
  eapply runs_get_proc; [done|]. by apply runs_zoom.
Qed.

(** The state after the files are released and the children moved *)
Definition left_behind (cp status : Z) (v : Vfs.vfs I) (moved : gmap Z proc -> gmap Z proc) s : state :=
  set_procs moved (put_vfs cp v (set_procs (alter (with_exit status) cp) s)).

Lemma left_exited s cp status v c (kids : list Z) (i : Z) (mv : bool) ni :
  procs (ext s) !! cp = Some c -> next_addr s <= Vnode.fs_next (Vfs.vfs_fs v) ->
  (if mv then proc_initproc (ext s) = Some i /\ cp <> i /\ procs (ext s) !! i = Some ni /\ p_children c <> []
   else p_children c = []) ->
  exited s cp status (left_behind cp status v (if mv then fun m => foldl (move_child cp i) m (p_children c) else fun m => m) s).
Proof.
  intros Hc Hn Hmv. set (m1 := alter (with_open (Vfs.p_files v) (Vfs.p_cwd v)) cp (alter (with_exit status) cp (procs (ext s)))).
  assert (Hm1 : forall p pr', m1 !! p = Some pr' -> exists pr, procs (ext s) !! p = Some pr
     /\ same_rest (if decide (p = cp) then with_exit status pr else pr) pr').
  { intros p pr'. unfold m1. rewrite !alter_lookup. destruct (procs (ext s) !! p) as [pr|]; [|done].
    intros [= <-]. exists pr. split; [done|]. by case_decide. }
  assert (Hf1 : node_of <$> m1 = forest (ext s)).
  { unfold m1, forest. rewrite !(fmap_alter_node _ id) by done. by rewrite !alter_id. }
  split; try done.
  - intros p pr' Hp. cbn in Hp. fold m1 in Hp. destruct mv; [|by apply Hm1].
    destruct (move_rest _ _ _ _ _ _ Hp) as (pr1 & Hp1 & HR). destruct (Hm1 _ _ Hp1) as (pr & Hpr & HR').
    exists pr. split; [done|]. destruct HR as (? & ? & ? & ? & ? & ?), HR' as (? & ? & ? & ? & ? & ?). split_and!; congruence.
  - intros c' Hc'. rewrite Hc in Hc'. injection Hc' as <-. unfold forest at 1. cbn. fold m1. destruct mv.
    + destruct Hmv as (-> & Hne & Hi & Hk). rewrite fmap_move, Hf1.
      pose proof (move_exit cp i _ (node_of c) (node_of ni) Hne (forest_lookup _ _ _ Hc) (forest_lookup _ _ _ Hi)) as E.
      cbn in E. by destruct (p_children c).
    + by rewrite Hmv, Hf1.
Qed.

(** What releasing the files and the address space of [cp] needs *)
Definition resources_ok s (cp : Z) (c : proc) : Prop :=
  runs Vfs.release_files (vfs_of cp s) (fun _ v => next_addr s <= Vnode.fs_next (Vfs.vfs_fs v))
  /\ (forall map, p_vmmap c = Some map -> is_space (pw_vm (ext s)) map).

(** The thread that waits longest on [q] is made runnable, if there is one. *)
Definition wake_first (q : Z) (k : ktqueue) s : state :=
  match last (tq_list k) with Some t => wake q t s | None => s end.

Lemma run_wake_first s q k :
  sched_wf s -> queues s !! q = Some k -> q <> kt_runq ->
  runs (sched_wakeup_on q) s (fun _ s' => s' = wake_first q k s /\ sched_wf s' /\ resched s s').
Proof.
  intros Hwf Hq Hne. unfold wake_first. destruct (last (tq_list k)) as [t|] eqn:El.
  - apply last_Some in El as [l El]. destruct (run_wakeup _ _ _ _ _ Hwf Hq El Hne) as [Hrun Hwf'].
    eapply runs_done; [exact Hrun|]. split_and!; [done..|].
    destruct (wf_on _ _ Hwf q k t Hq) as (th & Ht & Hw); [rewrite El; set_solver|].
    apply (resched_wake _ _ _ th Ht). intros E. pose proof (wf_state _ _ Hwf t th Ht ltac:(done)) as Hok.
    unfold state_ok in Hok. rewrite E in Hok. congruence.
  - apply last_None in El. eapply runs_done; [by eapply run_wakeup_empty|]. split_and!; [done..|]. apply resched_refl.
Qed.

(** The parent of the process that exited *)
Lemma exited_parent s cp status s' c c' :
  pinv s -> procs (ext s) !! cp = Some c -> may_exit s cp c -> exited s cp status s' ->
  procs (ext s') !! cp = Some c' -> p_pproc c' = p_pproc c.
Proof.
  intros HI Hc (_ & _ & _ & Hinit) E Hc'. pose proof (ex_forest _ _ _ _ E _ Hc) as EF.
  pose proof (forest_lookup _ _ _ Hc') as Hf. rewrite EF in Hf. pose proof (forest_lookup _ _ _ Hc) as Hf0.
  destruct (p_children c) as [|c0 cs] eqn:Ek; [rewrite Hf0 in Hf; by injection Hf|].
  destruct (Hinit ltac:(done)) as (i & ni & Ei & Hi & Hne & _). rewrite Ei in Hf.
  change (c0 :: cs) with (n_kids (mk_node (p_pid c) (c0 :: cs) (p_pproc c))) in Hf. rewrite <- Ek in Hf. fold (node_of c) in Hf.
  rewrite (exit_lookup _ cp i _ (node_of ni)) in Hf; [|done|by apply forest_lookup|done].
  rewrite Hf0 in Hf. injection Hf as _ _ Hp. rewrite <- Hp, decide_False; [done|].
  exact (tree_not_own_child _ _ _ _ _ (pi_tree _ HI) Hf0).
Qed.

(** Up to the wake-up of the parent *)
Lemma run_leave s cp c status :
  pinv s -> curproc s = Some cp -> procs (ext s) !! cp = Some c -> may_exit s cp c -> resources_ok s cp c ->
  runs (vfs_call Vfs.release_files) (set_procs (alter (with_exit status) cp) s) (fun _ s2 =>
    runs (leave_children cp) s2 (fun _ s3 => exited s cp status s3)).
Proof.
  intros HI Hcp Hc Hmay (Hrel & _). set (s1 := set_procs _ s).
  assert (Hc1 : procs (ext s1) !! cp = Some (with_exit status c)) by (cbn; by rewrite lookup_alter_eq, Hc).
  eapply (runs_vfs_call s1 cp); [done|exact Hc1|].
  assert (Ev : vfs_of cp s1 = vfs_of cp s) by (unfold vfs_of; rewrite Hc1, Hc; done).
  rewrite Ev. eapply runs_mono; [exact Hrel|]. intros [] v Hn. unfold leave_children. apply runs_bind.
  eapply (runs_get_proc _ _ (with_open (Vfs.p_files v) (Vfs.p_cwd v) (with_exit status c))); [cbn; by rewrite !lookup_alter_eq, Hc|].
  go. cbn [p_children with_open with_exit]. destruct Hmay as (_ & _ & _ & Hinit).
  destruct (decide (p_children c = [])) as [Ek|Ek].
  - rewrite bool_decide_eq_false_2 by naive_solver. go. by apply (left_exited s cp status v c [] 0 false c).
  - rewrite bool_decide_eq_true_2 by done. destruct (Hinit Ek) as (i & ni & Ei & Hi & Hne & _). apply runs_bind.
    eapply runs_deref; [exact Ei|]. rewrite bool_decide_eq_true_2 by done. eapply runs_done.
    + apply run_reparent; cbn; rewrite ?alter_is_Some; [by rewrite Hc|by rewrite Hi|]. intros x Hx. rewrite !alter_is_Some.
      destruct (tr_kids _ _ _ (pi_tree _ HI) _ _ x (forest_lookup _ _ _ Hc) Hx) as (k & (pr & -> & _)%forest_inv & _). done.
    + by apply (left_exited s cp status v c [] i true ni).
Qed.

(** [proc_cleanup]: the process becomes a zombie with the given status, its children
    go to the init process, and the thread of the parent that waits longest wakes up. *)
Lemma run_proc_cleanup s cp c q nq status :
  pinv s -> curproc s = Some cp -> procs (ext s) !! cp = Some c -> may_exit s cp c -> resources_ok s cp c ->
  p_pproc c = Some q -> procs (ext s) !! q = Some nq ->
  runs (proc_cleanup status) s (fun _ s' => exists s3 k, exited s cp status s3 /\ pinv s3
    /\ queues s !! p_wait q = Some k /\ quiet (wake_first (p_wait q) k s3) s' /\ pinv s').
Proof.
  intros HI Hcp Hc Hmay Hres Hq Hnq. unfold proc_cleanup. apply runs_bind. eapply runs_curproc; [done|]. apply runs_bind.
  eapply runs_get_proc; [done|]. apply runs_bind. apply runs_assert; [apply Z.leb_le, Hmay|]. apply runs_bind.
  eapply runs_upd_proc; [done|]. apply runs_bind. eapply runs_mono; [by eapply run_leave|]. intros [] s2 H2'.
  apply runs_bind. eapply runs_mono; [exact H2'|]. clear H2'. intros [] s3 E.
  pose proof (exited_inv _ _ _ _ _ HI Hc Hmay E) as HI3.
  assert (Hl : forall p, is_Some (procs (ext s) !! p) -> is_Some (procs (ext s3) !! p)).
  { intros p [pr Hp]. assert (Hin : p ∈ proc_list (ext s3)).
    { rewrite (ex_list _ _ _ _ E). apply (tr_list _ _ _ (pi_tree _ HI)). eexists. by apply forest_lookup. }
    by apply pi_listed. }
  destruct (Hl cp ltac:(eauto)) as [c3 Hc3]. destruct (Hl q ltac:(eauto)) as [q3 Hq3].
  apply runs_bind. eapply runs_get_proc; [done|].
  apply runs_bind. eapply runs_deref; [by rewrite (exited_parent _ _ _ _ _ _ HI Hc Hmay E Hc3)|].
  destruct (pi_wait _ HI _ _ Hnq) as (Hne & k & Hk). apply runs_bind. eapply runs_mono.
  { apply (run_wake_first s3 (p_wait q) k); [apply HI3|by rewrite (ex_queues _ _ _ _ E)|exact Hne]. }
  intros r s4 (E4 & Hwf4 & R4). pose proof (pinv_resched _ _ HI3 R4 Hwf4) as HI4.
  apply runs_bind. eapply runs_get_proc; [by rewrite (rs_ext _ _ R4)|].
  destruct (ex_procs _ _ _ _ E _ _ Hc3) as (c' & Hc' & HR). rewrite Hc in Hc'. injection Hc' as <-.
  rewrite decide_True in HR by done. destruct HR as (_ & _ & _ & _ & _ & ->). cbn [p_vmmap with_exit].
  eapply (runs_mono _ _ (fun _ s' => quiet s4 s')).
  - destruct (p_vmmap c) as [map|] eqn:Em; [|by apply runs_ret; split]. unfold vm_call. apply runs_zoom.
    eapply runs_mono; [apply destroy_returns|].
    + cbn. rewrite (rs_ext _ _ R4), (ex_vm _ _ _ _ E). by apply Hres.
    + intros [] t Ht. by apply quiet_vm.
  - intros [] s' Q. exists s3, k. subst s4. split_and!; [done..|]. by eapply pinv_quiet.
Qed.

(** ** Exit of a thread *)

(** The running thread is marked as exited. *)
Definition thread_done (t retval : Z) s : state := mark KT_EXITED t (set_threads (alter (with_retval retval) t) s).

Lemma thread_done_lookup t retval s x :
  threads (thread_done t retval s) !! x
  = (fun th => if decide (x = t) then with_state KT_EXITED (with_retval retval th) else th) <$> threads s !! x.
Proof. cbn. rewrite !alter_lookup. destruct (threads s !! x); [|done]. cbn. by case_decide. Qed.

Lemma thread_done_wf s t th retval :
  sched_wf s -> threads s !! t = Some th -> kt_wchan th = None -> sched_wf (thread_done t retval s).
Proof.
  intros Hwf Ht Hw.
  assert (HL : forall x thx, threads (thread_done t retval s) !! x = Some thx -> exists th0, threads s !! x = Some th0
     /\ kt_wchan thx = kt_wchan th0 /\ (if decide (x = t) then kt_state thx = KT_EXITED else thx = th0)).
  { intros x thx. rewrite thread_done_lookup. intros (th0 & Hx & ->)%fmap_Some. exists th0. by case_decide. }
  split; [apply Hwf..| | |apply Hwf| |done].
  - intros q k x Hk Hx. destruct (wf_on _ _ Hwf _ _ _ Hk Hx) as (th0 & H0' & Hw0). rewrite thread_done_lookup, H0'.
    eexists. split; [done|]. by case_decide.
  - intros x thx q (th0 & Hx & Ew & _)%HL Hq. eapply (wf_wchan _ _ Hwf); [done|congruence].
  - intros x thx (th0 & Hx & Ew & Es)%HL _. pose proof (wf_state _ _ Hwf _ _ Hx ltac:(done)) as Hok. case_decide as Hd.
    + unfold state_ok. rewrite Es, Ew. congruence.
    + by rewrite Es.
Qed.

Lemma thread_done_resched t retval s : resched s (thread_done t retval s).
Proof.
  unfold thread_done, mark. eapply resched_trans; [apply (resched_thread s t (with_retval retval)); done|].
  by apply (resched_thread _ t (with_state KT_EXITED)).
Qed.

Lemma not_linked s t th : sched_wf s -> threads s !! t = Some th -> kt_wchan th = None -> qlink_is_linked s t = false.
Proof.
  intros Hwf Ht Hw. unfold qlink_is_linked. apply bool_decide_eq_false. intros (q & k & Hk & Hin).
  destruct (wf_on _ _ Hwf _ _ _ Hk Hin) as (th' & ? & ?). congruence.
Qed.

(** The run queue after a wake-up *)
Lemma wake_first_runq s q k kr :
  queues s !! kt_runq = Some kr -> q <> kt_runq ->
  runq_is (wake_first q k s) (option_list (last (tq_list k)) ++ tq_list kr).
Proof.
  intros Hr Hne. unfold wake_first. destruct (last (tq_list k)) as [t|]; [|by exists kr].
  eexists. split; [by apply wake_runq|done].
Qed.

(** The running thread is the only one of its process and may exit. *)
Record can_exit s (t cp : Z) (th : kthread) (c : proc) : Prop := {
  ce_thr : curthr s = Some t;
  ce_th : threads s !! t = Some th;
  ce_wchan : kt_wchan th = None;
  ce_proc : kt_proc th = cp;
  ce_cur : curproc s = Some cp;
  ce_c : procs (ext s) !! cp = Some c;
  ce_only : p_threads c = [t];
  ce_pid : 1 <= p_pid c;
  ce_kids : p_children c <> [] -> exists i ni, proc_initproc (ext s) = Some i /\ procs (ext s) !! i = Some ni
              /\ cp <> i /\ p_state ni = PROC_RUNNING;
  ce_res : resources_ok s cp c
}.

Lemma can_exit_may s t cp th c retval : can_exit s t cp th c -> may_exit (thread_done t retval s) cp c.
Proof.
  intros C. split_and!; [apply C| |by rewrite (ce_only _ _ _ _ _ C)|apply C].
  intros t' th'. rewrite (ce_only _ _ _ _ _ C), list_elem_of_singleton. intros ->.
  rewrite thread_done_lookup, (ce_th _ _ _ _ _ C). cbn. intros [= <-]. by rewrite decide_True.
Qed.

Lemma resched_dispatch s t p : resched s (dispatch t p (set_ipl IPL_HIGH s)).
Proof.
  eapply resched_trans; [apply (resched_take_off kt_runq t)|].
  exact (resched_cur (take_off kt_runq t s) (Some t) (Some p) IPL_HIGH).
Qed.

(** The tree after [cp] has exited *)
Definition forest_after s (cp : Z) (c : proc) : gmap Z node :=
  match p_children c, proc_initproc (ext s) with
  | _ :: _, Some i => exit_node cp i (p_children c) (forest (ext s))
  | _, _ => forest (ext s)
  end.

(** The process is a zombie, its children have moved, and the longest waiting thread
    of the parent's queue [k] can run. *)
Definition is_zombie s (cp status : Z) (c : proc) (k : ktqueue) s' : Prop :=
  (exists c', procs (ext s') !! cp = Some c' /\ p_state c' = PROC_DEAD /\ p_status c' = status /\ p_children c' = [])
  /\ forest (ext s') = forest_after s cp c
  /\ (forall w, last (tq_list k) = Some w -> exists thw, threads s' !! w = Some thw /\ kt_state thw = KT_RUN).

Lemma exited_zombie s cp status c q k s3 :
  pinv s -> procs (ext s) !! cp = Some c -> may_exit s cp c -> exited s cp status s3 -> pinv s3 ->
  queues s !! q = Some k -> q <> kt_runq -> is_zombie s cp status c k (wake_first q k s3).
Proof.
  intros HI Hc Hmay E HI3 Hk Hne.
  assert (EX : ext (wake_first q k s3) = ext s3) by (unfold wake_first; by destruct (last (tq_list k))).
  unfold is_zombie. rewrite EX. split; [|split].
  - destruct (pi_listed s3 cp HI3) as [c' Hc'].
    { rewrite (ex_list _ _ _ _ E). apply (tr_list _ _ _ (pi_tree _ HI)). eexists. by apply forest_lookup. }
    destruct (ex_procs _ _ _ _ E _ _ Hc') as (c0 & Hc0 & HR). rewrite decide_True in HR by done.
    destruct HR as (_ & _ & _ & Es & Et & _). exists c'. split_and!; [done..|]. by eapply (exited_kids s cp status s3 c cp c').
  - exact (ex_forest _ _ _ _ E _ Hc).
  - intros w Hw. unfold wake_first. rewrite Hw.
    destruct (wf_on _ _ (pi_sched _ HI) _ _ w Hk) as (thw & Hthw & _); [by apply last_elem_of|].
    cbn. rewrite (ex_threads _ _ _ _ E). rewrite !lookup_alter_eq, Hthw. eexists. done.
Qed.

Lemma zombie_later s cp status c k s4 s' :
  is_zombie s cp status c k s4 -> procs (ext s') = procs (ext s4) ->
  (forall w th, threads s4 !! w = Some th -> exists th', threads s' !! w = Some th' /\ kt_state th' = kt_state th) ->
  is_zombie s cp status c k s'.
Proof.
  intros (Hz & Hf & Hw) EX HT. unfold is_zombie, forest in *. rewrite EX. split_and!; [done..|]. intros w Hl.
  destruct (Hw w Hl) as (th & Hth & Es). destruct (HT _ _ Hth) as (th' & ? & ?). exists th'. split; [done|congruence].
Qed.

Lemma run_kthread_exit fuel s t cp th c q nq k kr l x retval :
  pinv s -> can_exit s t cp th c -> p_pproc c = Some q -> procs (ext s) !! q = Some nq ->
  queues s !! p_wait q = Some k -> queues s !! kt_runq = Some kr ->
  option_list (last (tq_list k)) ++ tq_list kr = l ++ [x] ->
  exists s', kthread_exit fuel retval s = Env CtxSwitch s' (fun r => Done tt (set_ipl (ipl s) r))
    /\ pinv s' /\ is_zombie s cp retval c k s' /\ runq_is s' l
    /\ exists thx, threads s !! x = Some thx /\ curthr s' = Some x /\ curproc s' = Some (kt_proc thx).
Proof.
  intros HI C Hq Hnq Hk Hkr Hl. set (s1 := thread_done t retval s).
  assert (HI1 : pinv s1).
  { eapply pinv_resched; [done|apply thread_done_resched|]. eapply thread_done_wf; [apply HI|apply C|apply C]. }
  pose proof (can_exit_may _ _ _ _ _ retval C) as Hmay. fold s1 in Hmay.
  destruct (run_proc_cleanup s1 cp c q nq retval HI1 (ce_cur _ _ _ _ _ C) (ce_c _ _ _ _ _ C) Hmay (ce_res _ _ _ _ _ C) Hq Hnq)
    as ([] & s5 & Hrun & s3 & k' & E & HI3 & Hk' & Q & HI5).
  change (queues s1) with (queues s) in Hk'. rewrite Hk in Hk'. injection Hk' as <-. destruct (pi_wait _ HI _ _ Hnq) as (Hne & _).
  destruct (run_wake_first s3 (p_wait q) k) as (? & s4 & _ & -> & Hwf4 & R4); [apply HI3|by rewrite (ex_queues _ _ _ _ E)|done|].
  destruct Q as [QT QQ QC QP QI Qp _ _ _ _].
  assert (Hcur : curthr s5 = Some t).
  { rewrite QC. unfold wake_first. destruct (last (tq_list k)); cbn; rewrite (ex_curthr _ _ _ _ E); apply C. }
  assert (Hpk : parked s5).
  { destruct (rs_kept _ _ R4 t) as [th4 H4].
    { rewrite (ex_threads _ _ _ _ E). unfold s1. rewrite thread_done_lookup, (ce_th _ _ _ _ _ C). done. }
    exists t, th4. split_and!; [done|by rewrite QT|]. destruct (rs_threads _ _ R4 _ _ H4) as (th3 & H3' & _ & _ & Hex).
    rewrite (ex_threads _ _ _ _ E) in H3'. unfold s1 in H3'. rewrite thread_done_lookup, (ce_th _ _ _ _ _ C) in H3'.
    injection H3' as <-. rewrite Hex; [done|]. by rewrite decide_True. }
  assert (Hr5 : runq_is s5 (l ++ [x])).
  { destruct (wake_first_runq s3 (p_wait q) k kr) as (k5 & Hk5 & E5); [by rewrite (ex_queues _ _ _ _ E)|done|].
    exists k5. rewrite QQ. split; [done|congruence]. }
  destruct (run_switch fuel s5 l x (pi_sched _ HI5) Hpk Hr5) as (thx & Hx & Hsw & Hwf').
  exists (dispatch x (kt_proc thx) (set_ipl IPL_HIGH s5)). split_and!.
  - unfold kthread_exit. kpure. rewrite (kbind_done _ _ _ _ _ (kderef_Some t _ s (ce_thr _ _ _ _ _ C))).
    rewrite (kbind_done _ _ _ _ _ (run_get_thread _ _ _ (ce_th _ _ _ _ _ C))).
    rewrite (kbind_done _ _ _ _ _ (kassert_dec _ s (ce_wchan _ _ _ _ _ C))).
    rewrite (not_linked s t th (pi_sched _ HI) (ce_th _ _ _ _ _ C) (ce_wchan _ _ _ _ _ C)). kstep kassert_true.
    erewrite kbind_done; [|apply kassert_dec; by rewrite (ce_cur _ _ _ _ _ C), (ce_proc _ _ _ _ _ C)]. cbn beta.
    rewrite (kbind_done _ _ _ _ _ (run_upd_thread t _ th s (ce_th _ _ _ _ _ C))).
    erewrite kbind_done; [|eapply run_upd_thread; cbn; by rewrite lookup_alter_eq, (ce_th _ _ _ _ _ C)]. cbn beta.
    unfold proc_thread_exited. rewrite (kbind_done _ _ _ _ _ Hrun), Hsw. do 3 f_equal. rewrite QI.
    unfold wake_first. destruct (last (tq_list k)); cbn; by rewrite (ex_ipl _ _ _ _ E).
  - eapply pinv_resched; [done|apply resched_dispatch|done].
  - eapply (zombie_later s cp retval c k (wake_first (p_wait q) k s3)); [|by cbn|].
    + exact (exited_zombie s1 cp retval c (p_wait q) k s3 HI1 (ce_c _ _ _ _ _ C) Hmay E HI3 Hk Hne).
    + intros w thw Hw. cbn. rewrite QT, alter_lookup, Hw. eexists. split; [done|]. by case_decide.
  - destruct Hr5 as (k5 & Hk5 & E5). exists (pull x k5). cbn. rewrite lookup_alter_eq, Hk5. split; [done|]. cbn.
    rewrite E5. apply filter_ne_snoc. rewrite <- E5. exact (wf_nodup _ _ (pi_sched _ HI5) _ _ Hk5).
  - rewrite QT in Hx. destruct (rs_threads _ _ R4 _ _ Hx) as (th3 & H3' & Ep & _). rewrite (ex_threads _ _ _ _ E) in H3'.
    destruct (rs_threads _ _ (thread_done_resched t retval s) _ _ H3') as (th0 & H0' & Ep' & _).
    exists th0. split_and!; [done..|]. cbn. congruence.
Qed.

End specs.

End ProcExit.
