(* ===== verification/ProcWait.v ===== *)
(** * Processes: waiting

    What [do_waitpid] and the destruction of a dead process do ([proc/proc.c]), that
    they keep the invariant of [ProcInv], and the theorems about processes. *)

From S2P Require Import Prelude KString Sched Vnode Vfs Proc ProcTree ProcInv ProcExit.

Module ProcWait.
Import Sched Proc ProcTree ProcInv ProcExit.

Local Open Scope Z_scope.
Local Open Scope kernel_scope.

Section specs.
Context {I VM : Type} `{Vnode.FsOps I} `{Vnode.Platform I} `{Vfs.VnodeOps I} `{AddrSpaceLaws I VM}.
Abbreviation state := (kstate (pworld I VM)).
Abbreviation next_addr s := (Vnode.fs_next (pw_fs (ext s))).
Implicit Types s : state.

(** ** Destroying the threads *)

(** The state without the threads of [l] *)
Definition without_threads (l : list Z) s : state :=
  set_procs (fmap (with_threads (filter (fun x => x ∉ l)))) (set_threads (filter (fun x => x.1 ∉ l)) s).

Lemma without_nil s : without_threads [] s = s.
Proof.
  assert (E : with_threads (filter (fun x => x ∉ @nil Z)) <$> procs (ext s) = procs (ext s)).
  { apply map_eq. intros p. rewrite lookup_fmap. destruct (procs (ext s) !! p) as [[]|]; [|done].
    cbn. unfold with_threads. cbn. do 2 f_equal. apply list_filter_all. set_solver. }
  assert (ET : filter (fun x : Z * kthread => x.1 ∉ @nil Z) (threads s) = threads s).
  { apply map_filter_id. set_solver. }
  unfold without_threads, set_procs, set_world, set_threads. cbn. rewrite E, ET. by destruct s as [? ? ? ? ? []].
Qed.

Lemma without_cons t l s :
  without_threads l (set_threads (delete t) (set_procs (fmap (with_threads (filter (fun x => x <> t)))) s))
  = without_threads (t :: l) s.
Proof.
  unfold without_threads, set_procs, set_world, set_threads. cbn. f_equal.
  - apply map_eq. intros x. apply option_eq. intros th. rewrite !map_lookup_filter_Some, lookup_delete_Some. set_solver.
  - f_equal. rewrite <- map_fmap_compose. apply map_fmap_ext. intros p pr _. unfold with_threads. cbn. f_equal.
    rewrite list_filter_filter. apply list_filter_iff. set_solver.
Qed.

Lemma run_destroy_threads s p l :
  is_Some (procs (ext s) !! p) -> NoDup l ->
  (forall t, t ∈ l -> exists th, threads s !! t = Some th /\ kt_proc th = p /\ kt_kstack th <> 0 /\ kt_state th = KT_EXITED) ->
  destroy_threads l s = Done tt (without_threads l s).
Proof.
  intros Hp Hnd. revert s Hp. induction Hnd as [|t l Ht Hnd IH]; intros s [pr Hp] Hl; cbn [destroy_threads].
  - by rewrite without_nil.
  - destruct (Hl t) as (th & Hth & Ep & Ek & Es); [set_solver|].
    rewrite (kbind_done _ _ _ _ _ (run_get_thread _ _ _ Hth)).
    rewrite (kbind_done _ _ _ _ _ (kassert_dec _ s Es)).
    assert (Hd : kthread_destroy t s
      = Done tt (set_threads (delete t) (set_procs (fmap (with_threads (filter (fun x => x <> t)))) s))).
    { unfold kthread_destroy. rewrite (kbind_done _ _ _ _ _ (run_get_thread _ _ _ Hth)).
      erewrite kbind_done; [|apply kassert_true; apply negb_true_iff, Z.eqb_neq; done]. cbn beta.
      erewrite kbind_done; [|unfold get_proc; kpure; rewrite Ep; by apply kderef_Some]. done. }
    rewrite (kbind_done _ _ _ _ _ Hd), <- without_cons. apply IH.
    + cbn. by rewrite lookup_fmap, Hp.
    + intros x Hx. destruct (Hl x) as (thx & ? & ?); [set_solver|]. exists thx. cbn.
      by rewrite lookup_delete_ne by set_solver.
Qed.

(** ** Taking a dead process apart *)

Lemma member_after_elem x l : x ∈ l -> exists r, member_after x l = Some r.
Proof.
  induction l as [|y l IH]; intros Hx; [by apply not_elem_of_nil in Hx|]. cbn.
  destruct (Z.eqb_spec y x); [eauto|]. apply IH. set_solver.
Qed.

(** The state after [do_waitpid] has disposed of [p] *)
Definition reaped (p : Z) (pr : proc) s : state :=
  set_queues (delete (p_wait p)) (set_procs (delete p) (set_procs (fmap (with_children (filter (fun x => x <> p))))
    (without_threads (p_threads pr) (set_proc_list (filter (fun x => x <> p)) s)))).

(** The threads of a dead process *)
Lemma dead_threads s p pr t :
  pinv s -> procs (ext s) !! p = Some pr -> p_state pr = PROC_DEAD -> t ∈ p_threads pr ->
  exists th, threads s !! t = Some th /\ kt_proc th = p /\ kt_kstack th <> 0 /\ kt_state th = KT_EXITED.
Proof.
  intros HI Hp Hd Ht. destruct (pi_threads _ HI _ _ Hp) as (_ & HT). destruct (HT t Ht) as (th & Hth & ? & ?).
  exists th. split_and!; [done..|]. by apply (proj2 (pi_dead _ HI _ _ Hp Hd) t).
Qed.

Lemma run_reap s p pr :
  pinv s -> procs (ext s) !! p = Some pr -> p_state pr = PROC_DEAD ->
  reap p s = Done (p_pid pr, Some (p_status pr)) (reaped p pr s).
Proof.
  intros HI Hp Hd. unfold reap.
  rewrite (kbind_done _ _ _ _ _ (run_get_proc _ _ _ Hp)). kpure.
  destruct (member_after_elem p (proc_list (ext s))) as [r Hr].
  { apply (tr_list _ _ _ (pi_tree _ HI)). eexists. by apply forest_lookup. }
  rewrite (kbind_done _ _ _ _ _ (kderef_Some r _ s Hr)). kpure.
  erewrite kbind_done; [|apply (run_destroy_threads _ p); [cbn; by rewrite Hp|apply (pi_threads _ HI _ _ Hp)|]].
  - kstep kassert_dec; [done|]. apply (pi_pagedir _ HI _ _ Hp). by right.
  - intros t Ht. by apply (dead_threads s p pr).
Qed.

(** Nothing waits for the children of a dead process. *)
Lemma dead_queue_empty s p pr k :
  pinv s -> procs (ext s) !! p = Some pr -> p_state pr = PROC_DEAD -> queues s !! p_wait p = Some k -> tq_list k = [].
Proof.
  intros HI Hp Hd Hk. destruct (tq_list k) as [|t l] eqn:El; [done|]. exfalso.
  assert (Ht : t ∈ tq_list k) by (rewrite El; set_solver).
  destruct (dead_threads s p pr t HI Hp Hd (pi_waiters _ HI _ _ _ _ Hp Hk Ht)) as (th & Hth & _ & _ & Es).
  pose proof (wf_state _ _ (pi_sched _ HI) _ _ Hth ltac:(done)) as Hok. unfold state_ok in Hok. rewrite Es in Hok.
  destruct (wf_on _ _ (pi_sched _ HI) _ _ _ Hk Ht) as (th' & ? & ?). congruence.
Qed.

Lemma reaped_threads s p pr t th :
  threads (reaped p pr s) !! t = Some th <-> threads s !! t = Some th /\ t ∉ p_threads pr.
Proof. cbn. by rewrite map_lookup_filter_Some. Qed.

Lemma reaped_wf s p pr :
  pinv s -> procs (ext s) !! p = Some pr -> p_state pr = PROC_DEAD -> sched_wf (reaped p pr s).
Proof.
  intros HI Hp Hd. pose proof (pi_sched _ HI) as Hwf. destruct (pi_wait _ HI _ _ Hp) as (Hne & kp & Hkp).
  assert (HQ : forall q k, queues (reaped p pr s) !! q = Some k <-> q <> p_wait p /\ queues s !! q = Some k).
  { intros q k. cbn. rewrite lookup_delete_Some. naive_solver. }
  split.
  - intros q k [_ Hk]%HQ. by apply (wf_size _ _ Hwf q).
  - intros q k [_ Hk]%HQ. by apply (wf_nodup _ _ Hwf q).
  - intros q k t [_ Hk]%HQ Ht. destruct (wf_on _ _ Hwf _ _ _ Hk Ht) as (th & Hth & Hw). exists th. split; [|done].
    apply reaped_threads. split; [done|]. intros Hin.
    destruct (dead_threads s p pr t HI Hp Hd Hin) as (th' & Hth' & _ & _ & Es). rewrite Hth in Hth'. injection Hth' as <-.
    pose proof (wf_state _ _ Hwf _ _ Hth ltac:(done)) as Hok. unfold state_ok in Hok. rewrite Es in Hok. congruence.
  - intros t th q [Hth _]%reaped_threads Hw. destruct (wf_wchan _ _ Hwf _ _ _ Hth Hw) as (k & Hk & Ht). exists k.
    split; [|done]. apply HQ. split; [|done]. intros ->. rewrite (dead_queue_empty s p pr k HI Hp Hd Hk) in Ht.
    by apply not_elem_of_nil in Ht.
  - destruct (wf_runq _ _ Hwf) as [k Hk]. exists k. apply HQ. split; [|done]. unfold p_wait. congruence.
  - intros t th [Hth _]%reaped_threads _. by apply (wf_state _ _ Hwf).
  - done.
Qed.

Lemma reaped_forest s p pr : forest (ext (reaped p pr s)) = reap_node p (forest (ext s)).
Proof.
  unfold forest, reap_node. cbn. rewrite fmap_delete. f_equal. rewrite <- !map_fmap_compose.
  apply map_fmap_ext. intros q pq _. done.
Qed.

(** The processes that are left *)
Lemma reaped_lookup s p pr q pq :
  pinv s -> procs (ext s) !! p = Some pr ->
  procs (ext (reaped p pr s)) !! q = Some pq -> q <> p /\ exists p0, procs (ext s) !! q = Some p0
    /\ pq = with_children (filter (fun x => x <> p)) p0.
Proof.
  intros HI Hp. cbn. rewrite lookup_delete_Some, !lookup_fmap. intros (Hne & Hq). split; [done|].
  destruct (procs (ext s) !! q) as [p0|] eqn:Eq; [|done]. exists p0. split; [done|]. injection Hq as <-.
  destruct p0. unfold with_children, with_threads. cbn. f_equal. apply list_filter_all. intros t Ht Hin.
  destruct (proj2 (pi_threads _ HI _ _ Hp) t Hin) as (th & Hth & E1 & _).
  destruct (proj2 (pi_threads _ HI _ _ Eq) t Ht) as (th' & Hth' & E2 & _). congruence.
Qed.

Lemma reaped_inv s p pr :
  pinv s -> procs (ext s) !! p = Some pr -> p_state pr = PROC_DEAD -> p_pid pr <> PID_IDLE -> pinv (reaped p pr s).
Proof.
  intros HI Hp Hd Hpid. split.
  - rewrite reaped_forest. eapply reap_tree; [apply HI|by apply forest_lookup|exact (proj1 (pi_dead _ HI _ _ Hp Hd))|done].
  - apply HI.
  - by apply reaped_wf.
  - intros q pq (Hne & p0 & Hq & ->)%(reaped_lookup s p pr); [|done..]. destruct (pi_wait _ HI _ _ Hq) as (? & k & Hk).
    split; [done|]. exists k. cbn. rewrite lookup_delete_ne; [done|]. unfold p_wait. congruence.
  - intros q pq (Hne & p0 & Hq & ->)%(reaped_lookup s p pr); [|done..]. destruct (pi_threads _ HI _ _ Hq) as (Hnd & HT).
    split; [done|]. intros t Ht. destruct (HT t Ht) as (th & Hth & E1 & E2). exists th. split_and!; [|done..].
    apply reaped_threads. split; [done|]. intros Hin. destruct (proj2 (pi_threads _ HI _ _ Hp) t Hin) as (th' & ? & ? & _). congruence.
  - intros q pq (_ & p0 & Hq & ->)%(reaped_lookup s p pr); [|done..]. exact (pi_pagedir _ HI _ _ Hq).
  - intros q pq (_ & p0 & Hq & ->)%(reaped_lookup s p pr) Hdq; [|done..]. destruct (pi_dead _ HI _ _ Hq Hdq) as (Hk & HT).
    split; [cbn; by rewrite Hk|]. intros t th Ht [Hth _]%reaped_threads. by apply (HT t).
  - intros q pq k t (_ & p0 & Hq & ->)%(reaped_lookup s p pr); [|done..]. cbn. rewrite lookup_delete_Some. intros [_ Hk].
    by apply (pi_waiters _ HI q p0 k).
  - intros t th [Hth _]%reaped_threads. by apply (pi_addr_threads _ HI _ th).
  - intros q k. cbn. rewrite lookup_delete_Some. intros [_ Hk]. by apply (pi_addr_queues _ HI _ k).
  - apply HI.
Qed.

(** ** Waiting *)

Lemma runs_first_dead s l :
  (forall p, p ∈ l -> is_Some (procs (ext s) !! p)) ->
  exists r, first_dead l s = Done r s /\
    match r with
    | Some p => exists l1 l2 pr, l = l1 ++ p :: l2 /\ procs (ext s) !! p = Some pr /\ p_state pr = PROC_DEAD
                  /\ forall q pq, q ∈ l1 -> procs (ext s) !! q = Some pq -> p_state pq = PROC_RUNNING
    | None => forall q pq, q ∈ l -> procs (ext s) !! q = Some pq -> p_state pq = PROC_RUNNING
    end.
Proof.
  induction l as [|p l IH]; intros Hl; cbn [first_dead].
  - exists None. split; [done|]. intros q pq Hq. by apply not_elem_of_nil in Hq.
  - destruct (Hl p) as [pr Hp]; [set_solver|].
    rewrite (kbind_done _ _ _ _ _ (run_get_proc _ _ _ Hp)).
    destruct (p_state pr) eqn:Es.
    + rewrite bool_decide_eq_false_2 by done. destruct IH as (r & Hr & Hcase); [set_solver|]. exists r. split; [done|].
      destruct r as [d|].
      * destruct Hcase as (l1 & l2 & pd & -> & Hd & Ed & Hrun). exists (p :: l1), l2, pd. split_and!; [done..|].
        intros q pq [->|Hq]%elem_of_cons Hpq; [congruence|by eapply Hrun].
      * intros q pq [->|Hq]%elem_of_cons Hpq; [congruence|by eapply Hcase].
    + rewrite bool_decide_eq_true_2 by done. exists (Some p). split; [done|]. exists [], l, pr. split_and!; [done..|].
      intros q pq Hq. by apply not_elem_of_nil in Hq.
Qed.

Lemma children_present s p pr c :
  pinv s -> procs (ext s) !! p = Some pr -> c ∈ p_children pr ->
  exists pc, procs (ext s) !! c = Some pc /\ p_pproc pc = Some p.
Proof.
  intros HI Hp Hc. destruct (tr_kids _ _ _ (pi_tree _ HI) _ _ c (forest_lookup _ _ _ Hp) Hc) as (k & (pc & Hpc & ->)%forest_inv & E).
  eauto.
Qed.

(** A child is not the idle process. *)
Lemma child_not_idle s p pr c pc :
  pinv s -> procs (ext s) !! p = Some pr -> c ∈ p_children pr -> procs (ext s) !! c = Some pc -> p_pid pc <> PID_IDLE.
Proof.
  intros HI Hp Hc Hpc E. destruct (children_present s p pr c HI Hp Hc) as (pc' & Hpc' & Ep). rewrite Hpc in Hpc'.
  injection Hpc' as <-. apply (tr_root _ _ _ (pi_tree _ HI) _ _ (forest_lookup _ _ _ Hpc)) in E. cbn in E. congruence.
Qed.

(** Waiting for any child when one is dead: the first dead one is disposed of. *)
Lemma run_wait_any_dead fuel n s cp c l1 p l2 pr :
  pinv s -> curproc s = Some cp -> procs (ext s) !! cp = Some c -> p_children c = l1 ++ p :: l2 ->
  (forall q pq, q ∈ l1 -> procs (ext s) !! q = Some pq -> p_state pq = PROC_RUNNING) ->
  procs (ext s) !! p = Some pr -> p_state pr = PROC_DEAD ->
  wait_any fuel n s = if (p_pid c =? 0) && (p_pid pr =? 2) then Done (p_pid pr, None) s
                      else Done (p_pid pr, Some (p_status pr)) (reaped p pr s).
Proof.
  intros HI Hcp Hc Hk Hrun Hp Hd.
  assert (Hfd : first_dead (p_children c) s = Done (Some p) s).
  { rewrite Hk. assert (Hl1 : forall q, q ∈ l1 -> is_Some (procs (ext s) !! q)).
    { intros q Hq. destruct (children_present s cp c q HI Hc) as (pq & ? & _); [rewrite Hk; set_solver|]. eauto. }
    clear Hk. induction l1 as [|q l1 IH]; cbn [first_dead app].
    - rewrite (kbind_done _ _ _ _ _ (run_get_proc _ _ _ Hp)). by rewrite bool_decide_eq_true_2.
    - destruct (Hl1 q) as [pq Hq]; [set_solver|]. rewrite (kbind_done _ _ _ _ _ (run_get_proc _ _ _ Hq)).
      rewrite bool_decide_eq_false_2 by (rewrite (Hrun q pq); [done|set_solver|done]). apply IH; set_solver. }
  destruct n; cbn [wait_any]; rewrite (kbind_done _ _ _ _ _ (run_the_curproc _ _ Hcp)).
  all: rewrite (kbind_done _ _ _ _ _ (run_get_proc _ _ _ Hc)); rewrite bool_decide_eq_false_2 by (rewrite Hk; by destruct l1).
  all: rewrite (kbind_done _ _ _ _ _ Hfd), (kbind_done _ _ _ _ _ (run_get_proc _ _ _ Hp)).
  all: destruct (_ && _); [done|by apply run_reap].
Qed.

Lemma run_wait_for_dead fuel n s p pr :
  pinv s -> procs (ext s) !! p = Some pr -> p_state pr = PROC_DEAD ->
  wait_for fuel n p s = Done (p_pid pr, Some (p_status pr)) (reaped p pr s).
Proof.
  intros HI Hp Hd. destruct n; cbn [wait_for]; rewrite (kbind_done _ _ _ _ _ (run_get_proc _ _ _ Hp));
    rewrite bool_decide_eq_true_2 by done; by apply run_reap.
Qed.

(** Looking for a child by its identifier *)
Lemma lookup_pid_none s cp c pid :
  pinv s -> procs (ext s) !! cp = Some c ->
  (forall p pr, p ∈ p_children c -> procs (ext s) !! p = Some pr -> p_pid pr <> pid) ->
  lookup_pid (p_children c) pid s = Done None s.
Proof.
  intros HI Hc. pose proof (fun x => children_present s cp c x HI Hc) as Hpres. revert Hpres.
  induction (p_children c) as [|p l IH]; intros Hpres Hnone; cbn [lookup_pid]; [done|].
  destruct (Hpres p) as (pr & Hp & _); [set_solver|]. rewrite (kbind_done _ _ _ _ _ (run_get_proc _ _ _ Hp)).
  rewrite (proj2 (Z.eqb_neq (p_pid pr) pid)) by (apply (Hnone p); [set_solver|done]). apply IH; set_solver.
Qed.
Lemma lookup_pid_some s cp c pid p pr :
  pinv s -> procs (ext s) !! cp = Some c -> procs (ext s) !! p = Some pr -> p ∈ p_children c -> p_pid pr = pid ->
  lookup_pid (p_children c) pid s = Done (Some p) s.
Proof.
  intros HI Hc Hp Hin Ep. pose proof (fun x => children_present s cp c x HI Hc) as Hpres. revert Hpres Hin.
  induction (p_children c) as [|q l IH]; intros Hpres Hin; [by apply not_elem_of_nil in Hin|]. cbn [lookup_pid].
  destruct (Hpres q) as (pq & Hq & _); [set_solver|]. rewrite (kbind_done _ _ _ _ _ (run_get_proc _ _ _ Hq)).
  destruct (Z.eqb_spec (p_pid pq) pid) as [E|E].
  - assert (q = p) as ->; [|done]. eapply (tr_pids _ _ _ (pi_tree _ HI)); [by apply forest_lookup..|]. cbn. congruence.
  - apply elem_of_cons in Hin as [->|Hin]; [congruence|]. apply IH; [set_solver|done].
Qed.

(** The running thread goes to sleep until a child exits. *)
Lemma sleep_inv s t th cp c :
  pinv s -> curthr s = Some t -> threads s !! t = Some th -> kt_wchan th = None -> kt_state th <> KT_EXITED ->
  procs (ext s) !! cp = Some c -> t ∈ p_threads c ->
  pinv (asleep KT_SLEEP (p_wait cp) t s) /\ parked (asleep KT_SLEEP (p_wait cp) t s).
Proof.
  intros HI Hcur Ht Hw Hst Hc Hin. destruct (pi_wait _ HI _ _ Hc) as (Hne & k & Hk).
  destruct (sleep_ready KT_SLEEP s (p_wait cp) t th k) as (Hwf & Hpk & _); [apply HI|done..|right; auto|]. split; [|done].
  assert (HT : forall x, threads (asleep KT_SLEEP (p_wait cp) t s) !! x
     = (fun y => if decide (x = t) then with_wchan (Some (p_wait cp)) (with_state KT_SLEEP y) else y) <$> threads s !! x).
  { intros x. cbn. rewrite !alter_lookup. destruct (threads s !! x); [|done]. cbn. by case_decide. }
  split; [apply HI|apply HI|done|..].
  - intros p pr Hp. destruct (pi_wait _ HI _ _ Hp) as (? & Hq). split; [done|]. cbn. apply alter_is_Some. done.
  - intros p pr Hp. destruct (pi_threads _ HI _ _ Hp) as (Hnd & Hall). split; [done|]. intros x Hx.
    destruct (Hall x Hx) as (thx & Hthx & E1 & E2). rewrite HT, Hthx. eexists. split; [done|]. by case_decide.
  - apply HI.
  - intros p pr Hp Hd. destruct (pi_dead _ HI _ _ Hp Hd) as (Hk0 & Hall). split; [done|]. intros x thx Hx.
    rewrite HT. intros (y & Hy & ->)%fmap_Some. pose proof (Hall x y Hx Hy). case_decide; [|done]. subst. congruence.
  - intros p pr k' x Hp. cbn in Hp |- *. rewrite alter_lookup. intros (k0 & Hk0 & ->)%fmap_Some. case_decide as E.
    + unfold p_wait in E. subst p. rewrite Hc in Hp. injection Hp as <-. cbn. intros [->|Hx]%elem_of_cons; [done|].
      by apply (pi_waiters _ HI cp c k0).
    + exact (pi_waiters _ HI p pr k0 x Hp Hk0).
  - intros x thx. rewrite HT. intros (y & Hy & _)%fmap_Some. by apply (pi_addr_threads _ HI _ y).
  - intros q k'. cbn. rewrite alter_lookup. intros (k0 & Hk0 & _)%fmap_Some. by apply (pi_addr_queues _ HI _ k0).
  - apply HI.
Qed.

(** With no dead child the caller sleeps, and when it is resumed it looks again. *)
Lemma run_wait_any_sleep fuel n s cp c t th l x :
  pinv s -> curproc s = Some cp -> procs (ext s) !! cp = Some c -> p_children c <> [] ->
  (forall q pq, q ∈ p_children c -> procs (ext s) !! q = Some pq -> p_state pq = PROC_RUNNING) ->
  curthr s = Some t -> threads s !! t = Some th -> kt_wchan th = None -> kt_state th <> KT_EXITED -> t ∈ p_threads c ->
  runq_is s (l ++ [x]) ->
  exists thx, threads (asleep KT_SLEEP (p_wait cp) t s) !! x = Some thx
    /\ wait_any fuel (S n) s = Env CtxSwitch (dispatch x (kt_proc thx) (set_ipl IPL_HIGH (asleep KT_SLEEP (p_wait cp) t s)))
                                 (fun r => wait_any fuel n (set_ipl (ipl s) r))
    /\ pinv (dispatch x (kt_proc thx) (set_ipl IPL_HIGH (asleep KT_SLEEP (p_wait cp) t s))).
Proof.
  intros HI Hcp Hc Hk Hrun Hcur Ht Hw Hst Hin Hr. destruct (sleep_inv s t th cp c) as (HI1 & Hpk); [done..|].
  destruct (pi_wait _ HI _ _ Hc) as (Hne & kw & Hkw).
  destruct (run_switch fuel (asleep KT_SLEEP (p_wait cp) t s) l x (pi_sched _ HI1) Hpk) as (thx & Hx & Hsw & Hwf).
  { destruct Hr as (kr & Hkr & El). exists kr. split; [|done]. cbn. by rewrite lookup_alter_ne. }
  exists thx. split; [done|]. split; [|eapply pinv_resched; [exact HI1|apply resched_dispatch|done]].
  destruct (runs_first_dead s (p_children c)) as (r & Hfd & Hcase).
  { intros q Hq. destruct (children_present s cp c q HI Hc Hq) as (pq & ? & _). eauto. }
  destruct r as [d|].
  { destruct Hcase as (l1 & l2 & pd & El & Hd & Ed & _). rewrite (Hrun d pd) in Ed; [done|rewrite El; set_solver|done]. }
  cbn [wait_any]. rewrite (kbind_done _ _ _ _ _ (run_the_curproc _ _ Hcp)), (kbind_done _ _ _ _ _ (run_get_proc _ _ _ Hc)).
  rewrite bool_decide_eq_false_2 by done. rewrite (kbind_done _ _ _ _ _ Hfd).
  erewrite kbind_env; [|rewrite (run_sleep fuel s (p_wait cp) t th kw); [exact Hsw|apply HI|done..]]. done.
Qed.

End specs.

End ProcWait.
