(* ===== verification/ProcSpec.v ===== *)
(** * Theorems about processes

    Process identifiers, creation, exit and waiting, and the three together: what a
    parent gets when it waits for a child that then exits. *)

From S2P Require Import Prelude KString Sched Vnode Ramfs RamfsFile Vfs Proc ProcTree ProcInv ProcExit ProcWait.

Module ProcSpec.
Import Sched Proc ProcTree ProcInv ProcExit ProcWait.

Local Open Scope Z_scope.
Local Open Scope kernel_scope.

(** ** Processes to show that the hypotheses can hold *)

(** Address spaces without areas, as those of the processes the kernel itself starts, to
    which nothing is mapped: the set of those that exist.  To create one allocates it and
    to destroy one frees it. *)
#[export] Instance empty_spaces : AddrSpace Ramfs.ramfs (gset Z) := {
  vmmap_create := fun t => match Vnode.mem_alloc (fst t) with
                           | Done (Some a) t' => Done (Some a) (t', {[a]} ∪ snd t)
                           | Done None t' => Done None (t', snd t)
                           | _ => Panic
                           end;
  vmmap_destroy := fun map t => if decide (map ∈ snd t) then Done tt (fst t, snd t ∖ {[map]}) else Panic
}.
#[export, program] Instance empty_spaces_laws : AddrSpaceLaws Ramfs.ramfs (gset Z) := {
  is_space := fun vm map => map ∈ vm
}.
Next Obligation.
  intros [t vm]. unfold runs. cbn. unfold Vnode.mem_alloc. kpure. destruct (Vnode.fs_budget t); cbn.
  - eexists _, _. split; [done|]. cbn. split; [lia|]. done.
  - eexists _, _. split; [done|]. cbn. split; [lia|]. intros map [= <-]. set_solver.
Qed.
Next Obligation.
  intros [t vm] map Hin. unfold runs. cbn in *. rewrite decide_True by done. eexists _, _. split; [done|]. cbn. lia.
Qed.

#[local] Existing Instances Ramfs.ramfs_ops RamfsFile.demo_platform Vfs.ramfs_vops.

Definition no_files : list (option Z) := replicate (Z.to_nat Vfs.NFILES) None.

(** The idle process 100 waits for init (110), which has the child 120.  Init runs;
    the child is on the run queue, or is dead already with status 7. *)
Definition family (dead : bool) : kstate (pworld Ramfs.ramfs (gset Z)) :=
  mk_sched
    {[ 200 := mk_kthread 500 0 0 100 0 (Some 100) KT_SLEEP; 210 := mk_kthread 510 0 0 110 0 None KT_RUN;
       220 := if dead then mk_kthread 520 7 0 120 0 None KT_EXITED else mk_kthread 520 0 0 120 0 (Some 1) KT_RUN ]}
    {[ 1 := if dead then mk_ktqueue [] 0 else mk_ktqueue [220] 1; 100 := mk_ktqueue [200] 1; 110 := mk_ktqueue [] 0;
       120 := mk_ktqueue [] 0 ]}
    (Some 210) (Some 110) 0
    (mk_pworld
       {[ 100 := mk_proc 0 [] [200] [110] None 0 PROC_RUNNING (Some 600) no_files None None;
          110 := mk_proc 1 [] [210] [120] (Some 100) 0 PROC_RUNNING (Some 601) no_files None None;
          120 := mk_proc 2 [] [220] [] (Some 110) (if dead then 7 else 0) (if dead then PROC_DEAD else PROC_RUNNING)
                   (Some 602) no_files None (Some 700) ]}
       [100; 110; 120] 3 (Some 110) (Vnode.mk_fsys ∅ [] (Ramfs.mk_ramfs ∅ ∅) None 1000 10 0 []) ∅ None {[700]}).

(** The entries of a map that is written out *)
Ltac entries := repeat match goal with
  | E : _ !! _ = Some _ |- _ => apply lookup_insert_Some in E as [[<- <-]|[_ E]]
  | E : {[ _ := _ ]} !! _ = Some _ |- _ => apply lookup_singleton_Some in E as [<- <-]
  end.

Definition family_nodes : gmap Z node :=
  {[ 100 := mk_node 0 [110] None; 110 := mk_node 1 [120] (Some 100); 120 := mk_node 2 [] (Some 110) ]}.

Lemma family_forest dead : forest (ext (family dead)) = family_nodes.
Proof. by destruct dead. Qed.

Lemma family_tree : tree family_nodes [100; 110; 120] (Some 110).
Proof.
  assert (R0 : rooted family_nodes 100) by (by eapply rooted_root).
  assert (R1 : rooted family_nodes 110) by (eapply (rooted_step _ 110 _ 100); done).
  assert (R2 : rooted family_nodes 120) by (eapply (rooted_step _ 120 _ 110); done).
  split.
  - apply (bool_decide_unpack _). by vm_compute.
  - intros p. split; [intros Hp; repeat (apply elem_of_cons in Hp as [->|Hp]; [by eexists|]); by apply not_elem_of_nil in Hp|].
    intros [n Hn]. unfold family_nodes in Hn. entries; set_solver.
  - intros p q n k Hp Hq. unfold family_nodes in *. entries; cbn; done.
  - intros p n Hp. unfold family_nodes in *. entries; cbn; unfold PROC_MAX_COUNT; lia.
  - intros p n Hp. unfold family_nodes in *. entries; cbn; apply (bool_decide_unpack _); by vm_compute.
  - intros q n c Hq Hc. unfold family_nodes in Hq. entries; cbn in Hc;
      repeat (apply elem_of_cons in Hc as [->|Hc]; [by eexists|]); by apply not_elem_of_nil in Hc.
  - intros c k q Hc Hq. unfold family_nodes in Hc. entries; cbn in Hq; [done|..]; injection Hq as <-;
      (eexists; split; [done|]); cbn; set_solver.
  - intros p n Hp. unfold family_nodes in Hp. entries; cbn; done.
  - intros p n Hp. unfold family_nodes in Hp. entries; done.
  - intros i n [= <-] Hi. vm_compute in Hi. injection Hi as <-. split; [done|]. by exists 100, (mk_node 0 [110] None).
Qed.

Lemma family_inv dead : pinv (family dead).
Proof.
  split.
  - rewrite family_forest. apply family_tree.
  - cbn. unfold PROC_MAX_COUNT. lia.
  - apply sched_wfb_sound. by destruct dead.
  - intros p pr Hp. cbn in Hp. entries; (split; [done|]); by eexists.
  - intros p pr Hp. cbn in Hp. entries; (split; [apply (bool_decide_unpack _); by vm_compute|]); intros t Ht; cbn in Ht;
      apply list_elem_of_singleton in Ht as ->; destruct dead; by eexists.
  - intros p pr Hp. cbn in Hp. entries; by eexists.
  - intros p pr Hp Hd. cbn in Hp. destruct dead; entries; try done. split; [done|]. intros t th Ht Hth. cbn in Ht.
    apply list_elem_of_singleton in Ht as ->. cbn in Hth. by injection Hth as <-.
  - intros p pr k t Hp. cbn in Hp. entries; intros Hk Ht; vm_compute in Hk; injection Hk as <-; cbn in *; set_solver.
  - intros t th Ht. cbn in Ht. entries; cbn; lia.
  - intros q k Hk. cbn in Hk. entries; cbn; lia.
  - intros i [= <-]. cbn. lia.
Qed.

(** ** Properties *)

Section theorems.
Context {I VM : Type} `{Vnode.FsOps I} `{Vnode.Platform I} `{Vfs.VnodeOps I} `{AddrSpaceLaws I VM}.
Abbreviation state := (kstate (pworld I VM)).
Implicit Types s : state.

(** [_proc_getid] terminates.  It returns the first identifier, counting up from
    [next_pid] and around at [PROC_MAX_COUNT], that no process of the list has, and
    makes the one after it the next to be tried; when all [PROC_MAX_COUNT] are in use,
    and only then, it returns -1 and changes nothing. *)
Theorem proc_getid_spec s :
  (forall p, p ∈ proc_list (ext s) -> is_Some (procs (ext s) !! p)) -> 0 <= next_pid (ext s) < PROC_MAX_COUNT ->
  (exists j, let pid := (next_pid (ext s) + j) mod PROC_MAX_COUNT in
     proc_getid s = Done pid (set_next_pid ((pid + 1) mod PROC_MAX_COUNT) s)
     /\ 0 <= j < PROC_MAX_COUNT /\ ~ used s pid
     /\ forall i, 0 <= i < j -> used s ((next_pid (ext s) + i) mod PROC_MAX_COUNT))
  \/ (proc_getid s = Done (-1) s /\ forall pid, 0 <= pid < PROC_MAX_COUNT -> used s pid).
Proof. by apply run_proc_getid. Qed.

(** C5: [proc_create] by a running process makes one new process at a fresh address
    with an identifier that was not in use and the first 255 characters of the name;
    it is the last child of its creator, in the list of all processes, running,
    without threads, and the rest of the tree is as before.  The invariant of the
    process table, in particular that every process descends from the idle process
    and that identifiers are unique, is kept. *)
Theorem proc_create_spec s cp c name str :
  pinv s -> curproc s = Some cp -> procs (ext s) !! cp = Some c -> p_state c = PROC_RUNNING ->
  KString.is_str name str -> (0 < Vnode.fs_budget (pw_fs (ext s)))%nat ->
  (exists pid, 0 <= pid < PROC_MAX_COUNT /\ ~ used s pid) -> (used s PID_INIT \/ p_pid c = PID_IDLE) ->
  (forall d, pr_cwd c = Some d -> exists v, Vnode.vnodes (pw_fs (ext s)) !! d = Some v /\ 0 < Vnode.vn_refcount v) ->
  runs (proc_create name) s (fun new s' => pinv s' /\ procs (ext s) !! new = None
    /\ exists pid pr, ~ used s pid /\ procs (ext s') !! new = Some pr /\ is_new pid str (Some cp) pr
       /\ forest (ext s') = add_node new pid (Some cp) (forest (ext s)) /\ proc_list (ext s') = proc_list (ext s) ++ [new]
       /\ (pid = PID_INIT -> proc_initproc (ext s') = Some new)
       /\ threads s' = threads s /\ curthr s' = curthr s /\ curproc s' = curproc s).
Proof.
  intros HI Hcp Hc Hrun Hstr Hb (free & Hfree & Hunused) Hinit Hcwd.
  destruct (run_proc_getid s) as [(j & Hid & Hj & Hnew & _)|(_ & Hall)]; [intros p; by apply pi_listed|apply HI| |naive_solver].
  set (pid := (next_pid (ext s) + j) mod PROC_MAX_COUNT) in *.
  assert (Hp1 : pid = PID_INIT -> p_pid c = PID_IDLE) by (intros E; rewrite E in Hnew; naive_solver).
  assert (Hfresh : procs (ext s) !! Vnode.fs_next (pw_fs (ext s)) = None).
  { apply eq_None_not_Some. intros [pr E]. exact (Z.lt_irrefl _ (pi_fresh _ _ _ HI E)). }
  eapply runs_mono; [apply (run_proc_create s pid name str Hid); [|done]|].
  - split; [done|done| |intros cp' E; rewrite Hcp in E; injection E as <-; eauto|by rewrite Hcp].
    intros E. exfalso. apply Hnew. rewrite E. by eapply idle_used.
  - intros new s' (-> & C). destruct (cr_procs _ _ _ _ _ C) as (pr & Hpr & EP). rewrite Hcp in Hpr.
    split; [eapply (created_inv s); [done|exact C|done..|by apply Z.mod_pos_bound|done|done]|]. split; [done|].
    exists pid, pr. split_and!; [done| |done|by eapply created_forest|apply C| |apply C..].
    + rewrite EP. apply lookup_insert_eq.
    + intros ->. by rewrite (cr_init _ _ _ _ _ C).
Qed.

(** C6: a thread that is alone in its process and exits leaves the process dead with
    the status it gave, its files and address space released and its children handed
    to the init process; the thread of the parent that has waited longest is
    runnable, the oldest runnable thread runs next, and the invariant of the process
    table holds. *)
Theorem kthread_exit_spec fuel s t cp th c q nq k kr l x retval :
  pinv s -> can_exit s t cp th c -> p_pproc c = Some q -> procs (ext s) !! q = Some nq ->
  queues s !! p_wait q = Some k -> queues s !! kt_runq = Some kr ->
  option_list (last (tq_list k)) ++ tq_list kr = l ++ [x] ->
  exists s', kthread_exit fuel retval s = Env CtxSwitch s' (fun r => Done tt (set_ipl (ipl s) r))
    /\ pinv s' /\ is_zombie s cp retval c k s' /\ runq_is s' l
    /\ exists thx, threads s !! x = Some thx /\ curthr s' = Some x /\ curproc s' = Some (kt_proc thx).
Proof. by apply run_kthread_exit. Qed.

(** C7: [do_waitpid] on every kind of argument, for a caller with an intact process
    table.  Without children, or for a positive identifier that no child has, or for
    one below -1, the result is [-ECHILD] and nothing changes; 0 trips an assertion.
    When a child that is asked for is dead (for -1, the first dead one in the order
    of the list), its identifier and status are returned and exactly that process is
    gone from the tree and the list; except that the idle process, waiting for
    any child, is told of a dead process 2 without its being disposed of. *)
Theorem do_waitpid_spec fuel n s cp c pid :
  pinv s -> curproc s = Some cp -> procs (ext s) !! cp = Some c ->
  (p_children c = [] -> do_waitpid fuel n pid 0 s = Done (- ECHILD, None) s)
  /\ (p_children c <> [] -> pid = 0 -> do_waitpid fuel n pid 0 s = Panic)
  /\ (pid < -1 -> do_waitpid fuel n pid 0 s = Done (- ECHILD, None) s)
  /\ (0 < pid -> (forall p pr, p ∈ p_children c -> procs (ext s) !! p = Some pr -> p_pid pr <> pid) ->
        do_waitpid fuel n pid 0 s = Done (- ECHILD, None) s)
  /\ (forall p pr, procs (ext s) !! p = Some pr -> p_state pr = PROC_DEAD -> p_children c <> [] ->
        ((0 < pid /\ p ∈ p_children c /\ p_pid pr = pid)
         \/ (pid = -1 /\ exists l1 l2, p_children c = l1 ++ p :: l2
              /\ forall q pq, q ∈ l1 -> procs (ext s) !! q = Some pq -> p_state pq = PROC_RUNNING)) ->
        if (pid =? -1) && (p_pid c =? 0) && (p_pid pr =? 2) then do_waitpid fuel n pid 0 s = Done (2, None) s
        else exists s', do_waitpid fuel n pid 0 s = Done (p_pid pr, Some (p_status pr)) s' /\ pinv s'
             /\ procs (ext s') !! p = None /\ forest (ext s') = reap_node p (forest (ext s))
             /\ proc_list (ext s') = filter (fun x => x <> p) (proc_list (ext s))).
Proof.
  intros HI Hcp Hc.
  assert (Hstart : do_waitpid fuel n pid 0 s =
    (if bool_decide (p_children c = []) then Done (- ECHILD, None) s
     else if pid =? -1 then wait_any fuel n s
     else if 0 <? pid then
       obind (lookup_pid (p_children c) pid s) (fun child => match child with Some p => wait_for fuel n p | None => kret (- ECHILD, None) end)
     else (kassert (negb (pid =? 0)) ;;; kret (- ECHILD, None)) s)).
  { unfold do_waitpid. kstep kassert_true. kpure. kstep kassert_dec; [|by rewrite Hcp].
    rewrite (kbind_done _ _ _ _ _ (run_the_curproc _ _ Hcp)), (kbind_done _ _ _ _ _ (run_get_proc _ _ _ Hc)).
    by repeat case_match. }
  rewrite Hstart. split_and!.
  - intros Hk. by rewrite bool_decide_eq_true_2.
  - intros Hk ->. by rewrite bool_decide_eq_false_2.
  - intros Hlt. case_bool_decide; [done|]. rewrite (proj2 (Z.eqb_neq pid (-1))), (proj2 (Z.ltb_ge 0 pid)) by lia.
    by rewrite (proj2 (Z.eqb_neq pid 0)) by lia.
  - intros Hgt Hnone. case_bool_decide; [done|]. rewrite (proj2 (Z.eqb_neq pid (-1))), (proj2 (Z.ltb_lt 0 pid)) by lia.
    by rewrite (lookup_pid_none s cp c pid).
  - intros p pr Hp Hd Hk Hcase. rewrite bool_decide_eq_false_2 by done.
    assert (Hreap : forall s', s' = reaped p pr s -> p ∈ p_children c -> pinv s' /\ procs (ext s') !! p = None
      /\ forest (ext s') = reap_node p (forest (ext s)) /\ proc_list (ext s') = filter (fun x => x <> p) (proc_list (ext s))).
    { intros s' -> Hin. split_and!; [apply reaped_inv; [done..|exact (child_not_idle s cp c p pr HI Hc Hin Hp)]|apply lookup_delete_eq|apply reaped_forest|done]. }
    destruct Hcase as [(Hgt & Hin & Ep)|(-> & l1 & l2 & El & Hrun)].
    + rewrite (proj2 (Z.eqb_neq pid (-1))), (proj2 (Z.ltb_lt 0 pid)) by lia. cbn [andb].
      rewrite (lookup_pid_some s cp c pid p pr) by done. cbn [obind].
      exists (reaped p pr s). split; [|by apply Hreap]. by apply run_wait_for_dead.
    + rewrite (run_wait_any_dead fuel n s cp c l1 p l2 pr) by done. cbn [Z.eqb andb].
      destruct (p_pid c =? 0); cbn [andb]; [destruct (Z.eqb_spec (p_pid pr) 2) as [->|]|]; [done|..];
        (eexists; split; [done|]); apply Hreap; [done|rewrite El; set_solver|done|rewrite El; set_solver].
Qed.

(** A process with one thread that runs has nothing waiting on its queue. *)
Lemma own_queue_empty s q nq t th k :
  pinv s -> procs (ext s) !! q = Some nq -> p_threads nq = [t] -> threads s !! t = Some th -> kt_wchan th = None ->
  queues s !! p_wait q = Some k -> tq_list k = [].
Proof.
  intros HI Hq Ht Hth Hw Hk. destruct (tq_list k) as [|y l] eqn:El; [done|]. exfalso.
  assert (Hy : y ∈ tq_list k) by (rewrite El; set_solver). pose proof (pi_waiters _ HI _ _ _ _ Hq Hk Hy) as Hin.
  rewrite Ht, list_elem_of_singleton in Hin. subst y.
  destruct (wf_on _ _ (pi_sched _ HI) _ _ _ Hk Hy) as (th' & ? & ?). congruence.
Qed.

(** A parent whose only child has not exited calls [do_waitpid]. *)
Record waits_for s (q t cp x : Z) (nq c : proc) (th thx : kthread) : Prop := {
  wt_cur : curproc s = Some q;
  wt_thr : curthr s = Some t;
  wt_q : procs (ext s) !! q = Some nq;
  wt_th : threads s !! t = Some th;
  wt_wchan : kt_wchan th = None;
  wt_alive : kt_state th <> KT_EXITED;
  wt_only : p_threads nq = [t];
  wt_kids : p_children nq = [cp];
  wt_c : procs (ext s) !! cp = Some c;
  wt_running : p_state c = PROC_RUNNING;
  wt_childless : p_children c = [];
  wt_cthreads : p_threads c = [x];
  wt_x : threads s !! x = Some thx;
  wt_runq : runq_is s [x];
  wt_res : resources_ok s cp c;
  wt_idle : (p_pid nq =? 0) && (p_pid c =? 2) = false
}.

(** The child is switched to and can exit. *)
Lemma waits_can_exit s q t cp x nq c th thx :
  pinv s -> waits_for s q t cp x nq c th thx ->
  let s1 := dispatch x cp (set_ipl IPL_HIGH (asleep KT_SLEEP (p_wait q) t s)) in
  can_exit s1 x cp (with_wchan None thx) c /\ kt_proc thx = cp /\ kt_proc th = q /\ t <> x.
Proof.
  intros HI W. destruct W as [W1 W2 W3 W4 W5 W6 W7 W8 W9 W10 W11 W12 W13 W14 W15 W16]. cbv zeta.
  destruct (proj2 (pi_threads _ HI _ _ W9) x) as (thx' & Hx' & Ep & _); [rewrite W12; set_solver|].
  destruct (proj2 (pi_threads _ HI _ _ W3) t) as (th' & Ht' & Eq & _); [rewrite W7; set_solver|].
  rewrite W13 in Hx'. injection Hx' as <-. rewrite W4 in Ht'. injection Ht' as <-.
  assert (Htx : t <> x).
  { intros E. rewrite E, W13 in W4. injection W4 as <-. rewrite Ep in Eq. rewrite Eq, W3 in W9. injection W9 as <-. congruence. }
  split_and!; [|done..]. split; try done.
  - cbn. rewrite lookup_alter_eq, !lookup_alter_ne by done. by rewrite W13.
  - pose proof (tr_range _ _ _ (pi_tree _ HI) _ _ (forest_lookup _ _ _ W9)) as Hr. cbn in Hr.
    pose proof (child_not_idle s q nq cp c HI W3 ltac:(rewrite W8; set_solver) W9) as Hz. unfold PID_IDLE in Hz. lia.
Qed.

(** C8: waiting and exiting work together.  A parent that calls [do_waitpid] for any
    child while its only child is running goes to sleep; when the child's thread
    exits, the parent's thread is the one that runs next, and its call then returns
    the child's identifier and the status the child exited with; the child is gone
    from the process table, whose invariant holds throughout. *)
Theorem wait_meets_exit fuel n s q t cp x nq c th thx status :
  pinv s -> waits_for s q t cp x nq c th thx ->
  exists s1 k1 s2 k2 s3,
    do_waitpid fuel (S n) (-1) 0 s = Env CtxSwitch s1 k1 /\ pinv s1 /\ curthr s1 = Some x /\ curproc s1 = Some cp
    /\ kthread_exit fuel status s1 = Env CtxSwitch s2 k2 /\ pinv s2 /\ curthr s2 = Some t /\ curproc s2 = Some q
    /\ k1 s2 = Done (p_pid c, Some status) s3 /\ pinv s3 /\ procs (ext s3) !! cp = None.
Proof.
  intros HI W. destruct (waits_can_exit _ _ _ _ _ _ _ _ _ HI W) as (Hexit & Ecp & Eq & Htx). cbv zeta in Hexit.
  destruct W as [W1 W2 W3 W4 W5 W6 W7 W8 W9 W10 W11 W12 W13 W14 W15 W16].
  destruct (run_wait_any_sleep fuel n s q nq t th [] x HI W1 W3) as (thx' & Hx' & Hwait & HI1); [by rewrite W8| |done..|by rewrite W7; set_solver|done|].
  { intros p pp Hp. rewrite W8, list_elem_of_singleton in Hp. subst p. congruence. }
  cbn in Hx'. rewrite !lookup_alter_ne, W13 in Hx' by done. injection Hx' as <-. rewrite Ecp in *.
  set (s1 := dispatch x cp (set_ipl IPL_HIGH (asleep KT_SLEEP (p_wait q) t s))) in *.
  destruct (pi_wait _ HI _ _ W3) as (Hne & k & Hk). pose proof (own_queue_empty s q nq t th k HI W3 W7 W4 W5 Hk) as El.
  destruct W14 as (kr & Hkr & Er).
  destruct (run_kthread_exit fuel s1 x cp (with_wchan None thx) c q nq (push t k) (pull x kr) [] t status)
    as (s2 & Hx & HI2 & Hz & _ & th2 & Hth2 & Hc2 & Hp2); [done|done| |done|..].
  { destruct (children_present s q nq cp HI W3) as (c' & Hc' & Ep); [rewrite W8; set_solver|]. congruence. }
  { cbn. by rewrite lookup_alter_ne, lookup_alter_eq, Hk. }
  { cbn. by rewrite lookup_alter_eq, lookup_alter_ne, Hkr. }
  { cbn. rewrite El, Er. cbn. by rewrite decide_False by naive_solver. }
  cbn in Hth2. rewrite lookup_alter_ne, !lookup_alter_eq, W4 in Hth2 by done. injection Hth2 as <-. cbn in Hp2. rewrite Eq in Hp2.
  destruct Hz as ((c2 & Hc2' & Hd2 & Es2 & _) & Hf2 & _).
  assert (Hf : forest (ext s2) = forest (ext s)) by (rewrite Hf2; unfold forest_after; by rewrite W11).
  destruct (forest_inv (ext s2) q (node_of nq)) as (nq2 & Hq2 & En); [rewrite Hf; by apply forest_lookup|].
  injection En as En1 En2 _. assert (Epid : p_pid c2 = p_pid c).
  { pose proof (forest_lookup _ _ _ Hc2') as F. rewrite Hf, (forest_lookup _ _ _ W9) in F. by injection F. }
  pose proof (pinv_resched _ _ HI2 (resched_cur s2 (curthr s2) (curproc s2) (ipl s))
                (wf_set_ipl _ (ipl s) _ (pi_sched _ HI2))) as HI2'.
  exists s1, (fun r => wait_any fuel n (set_ipl (ipl s) r)), s2. eexists _, (reaped cp c2 (set_ipl (ipl s) s2)).
  split_and!; [|done|done|done|exact Hx|done|done|done| | |].
  - unfold do_waitpid. kstep kassert_true. kpure. kstep kassert_dec; [|by rewrite W1].
    rewrite (kbind_done _ _ _ _ _ (run_the_curproc _ _ W1)), (kbind_done _ _ _ _ _ (run_get_proc _ _ _ W3)).
    rewrite bool_decide_eq_false_2 by (by rewrite W8). exact Hwait.
  - cbv beta. rewrite (run_wait_any_dead fuel n (set_ipl (ipl s) s2) q nq2 [] cp [] c2 HI2' Hp2 Hq2); [|cbn; congruence| |done|done].
    + rewrite Epid, <- En1, W16. by rewrite Es2.
    + intros p pp Hp. by apply not_elem_of_nil in Hp.
  - apply reaped_inv; [done..|]. rewrite Epid. apply (child_not_idle s q nq cp c HI W3); [rewrite W8; set_solver|done].
  - apply lookup_delete_eq.
Qed.

End theorems.

(** ** The hypotheses hold of the family *)

Lemma proc_getid_spec_witness :
  exists j, let pid := (3 + j) mod PROC_MAX_COUNT in
    proc_getid (family false) = Done pid (set_next_pid ((pid + 1) mod PROC_MAX_COUNT) (family false))
    /\ ~ used (family false) pid.
Proof.
  destruct (proc_getid_spec (family false)) as [(j & Hrun & _ & Hnew & _)|(_ & Hall)].
  - intros p Hp. by apply (pi_listed _ _ (family_inv false)).
  - exact (pi_next _ (family_inv false)).
  - by exists j.
  - destruct (Hall 3) as (p & pr & _ & Hp & E); [unfold PROC_MAX_COUNT; lia|]. exfalso. cbn in Hp. entries; cbn in E; lia.
Defined.

Lemma proc_create_spec_witness :
  runs (proc_create [97; 0]) (family false) (fun new s' => pinv s' /\ procs (ext (family false)) !! new = None).
Proof.
  eapply runs_mono; [apply (proc_create_spec (family false) 110 _ [97; 0] [97] (family_inv false) eq_refl eq_refl eq_refl)|].
  - split; [by exists []|set_solver].
  - cbn. lia.
  - exists 3. split; [unfold PROC_MAX_COUNT; lia|]. intros (p & pr & _ & Hp & E). cbn in Hp. entries; cbn in E; lia.
  - left. eexists 110, _. split; [cbn; set_solver|done].
  - done.
  - intros new s' (? & ? & _). done.
Defined.

(** The child has nothing to release but its address space. *)
Lemma family_resources : forall c, procs (ext (family false)) !! 120 = Some c -> resources_ok (family false) 120 c.
Proof.
  intros c Hc. vm_compute in Hc. injection Hc as <-. split.
  - eexists _, _. split; [by vm_compute|]. cbn. lia.
  - intros map [= <-]. cbn. set_solver.
Qed.

Lemma family_waits : exists nq c th thx, waits_for (family false) 110 210 120 220 nq c th thx.
Proof.
  eexists _, _, _, _. split; try done; [by eexists|]. by apply family_resources.
Qed.

(** Init has gone to sleep and its child runs. *)
Definition child_runs : kstate (pworld Ramfs.ramfs (gset Z)) :=
  dispatch 220 120 (set_ipl IPL_HIGH (asleep KT_SLEEP (p_wait 110) 210 (family false))).

Lemma kthread_exit_spec_witness :
  exists s', kthread_exit 1 7 child_runs = Env CtxSwitch s' (fun r => Done tt (set_ipl IPL_HIGH r)) /\ pinv s'.
Proof.
  destruct family_waits as (nq & c & th & thx & W).
  destruct (waits_can_exit _ _ _ _ _ _ _ _ _ (family_inv false) W) as (Hexit & _).
  assert (HI1 : pinv child_runs).
  { destruct (sleep_inv (family false) 210 th 110 nq (family_inv false)) as (HI1 & _); [apply W..|rewrite (wt_only _ _ _ _ _ _ _ _ _ W); set_solver|].
    eapply pinv_resched; [exact HI1|apply resched_dispatch|]. by apply sched_wfb_sound. }
  destruct (kthread_exit_spec 1 child_runs 220 120 _ c 110 nq (mk_ktqueue [210] 1) (mk_ktqueue [] 0) [] 210 7 HI1 Hexit)
    as (s' & Hrun & HI' & _).
  - pose proof (wt_c _ _ _ _ _ _ _ _ _ W) as Hc. vm_compute in Hc. by injection Hc as <-.
  - apply W.
  - done.
  - done.
  - done.
  - by exists s'.
Defined.

Lemma do_waitpid_spec_witness :
  exists s', do_waitpid 1 1 (-1) 0 (family true) = Done (2, Some 7) s' /\ pinv s' /\ procs (ext s') !! 120 = None.
Proof.
  destruct (do_waitpid_spec 1 1 (family true) 110 _ (-1) (family_inv true) eq_refl eq_refl) as (_ & _ & _ & _ & Hdead).
  destruct (Hdead 120 _ eq_refl eq_refl) as (s' & Hrun & HI' & Hgone & _); [done| |by exists s'].
  right. split; [done|]. exists [], []. split; [done|]. intros q pq Hq. by apply not_elem_of_nil in Hq.
Defined.

Lemma wait_meets_exit_witness :
  exists s1 k1 s2 k2 s3, do_waitpid 1 1 (-1) 0 (family false) = Env CtxSwitch s1 k1
    /\ kthread_exit 1 7 s1 = Env CtxSwitch s2 k2 /\ k1 s2 = Done (2, Some 7) s3.
Proof.
  destruct family_waits as (nq & c & th & thx & W).
  destruct (wait_meets_exit 1 0 (family false) 110 210 120 220 nq c th thx 7 (family_inv false) W)
    as (s1 & k1 & s2 & k2 & s3 & H1 & _ & _ & _ & H2 & _ & _ & _ & H3 & _).
  pose proof (wt_c _ _ _ _ _ _ _ _ _ W) as Hc. vm_compute in Hc. injection Hc as <-. by exists s1, k1, s2, k2, s3.
Defined.

(** ** What does not work as intended *)

(** Init (110) sleeps in [do_waitpid]; 120 is its child, 130 is a child of 120 and
    runs, and 140 is a dead child of 130. *)
Definition generations : kstate (pworld Ramfs.ramfs (gset Z)) :=
  mk_sched
    {[ 210 := mk_kthread 510 0 0 110 0 (Some 110) KT_SLEEP; 220 := mk_kthread 520 0 0 120 0 (Some 1) KT_RUN;
       230 := mk_kthread 530 0 0 130 0 None KT_RUN; 240 := mk_kthread 540 0 0 140 0 None KT_EXITED ]}
    {[ 1 := mk_ktqueue [220] 1; 100 := mk_ktqueue [] 0; 110 := mk_ktqueue [210] 1; 120 := mk_ktqueue [] 0;
       130 := mk_ktqueue [] 0; 140 := mk_ktqueue [] 0 ]}
    (Some 230) (Some 130) 0
    (mk_pworld
       {[ 100 := mk_proc 0 [] [] [110] None 0 PROC_RUNNING (Some 600) no_files None None;
          110 := mk_proc 1 [] [210] [120] (Some 100) 0 PROC_RUNNING (Some 601) no_files None None;
          120 := mk_proc 2 [] [220] [130] (Some 110) 0 PROC_RUNNING (Some 602) no_files None None;
          130 := mk_proc 3 [] [230] [140] (Some 120) 0 PROC_RUNNING (Some 603) no_files None None;
          140 := mk_proc 4 [] [240] [] (Some 130) 9 PROC_DEAD (Some 604) no_files None None ]}
       [100; 110; 120; 130; 140] 5 (Some 110) (Vnode.mk_fsys ∅ [] (Ramfs.mk_ramfs ∅ ∅) None 1000 10 0 []) ∅ None ∅).

(** A dead process that is handed to the init process is not noticed: init now has a
    dead child and sleeps on. *)
Example orphan_not_noticed :
  match kthread_exit 1 0 generations with
  | Env CtxSwitch s _ => (p_children <$> procs (ext s) !! 110, p_state <$> procs (ext s) !! 140, kt_state <$> threads s !! 210)
  | _ => (None, None, None)
  end = (Some [120; 140], Some PROC_DEAD, Some KT_SLEEP).
Proof. by vm_compute. Qed.

(** Init (110) runs, and it and its child (120) have descriptor 0 open on file 6. *)
Definition two_open : kstate (pworld Ramfs.ramfs (gset Z)) :=
  let fds := <[0%nat := Some 6]> no_files in
  mk_sched ∅ ∅ (Some 210) (Some 110) 0
    (mk_pworld
       {[ 110 := mk_proc 1 [] [] [120] None 0 PROC_RUNNING (Some 601) fds None None;
          120 := mk_proc 2 [] [] [] (Some 110) 0 PROC_RUNNING (Some 602) fds None None ]}
       [110; 120] 3 (Some 110) (Vnode.mk_fsys ∅ [] (Ramfs.mk_ramfs ∅ ∅) None 1000 10 0 [])
       {[ 6 := Vfs.mk_file 0 Vfs.FMODE_READ 2 (Some 9) ]} None ∅).

(** [proc_kill] of the child closes the descriptor of the process that kills. *)
Example kill_closes_killer :
  match close_like 120 (Z.to_nat Vfs.NFILES) 0 two_open with
  | Done _ s => ((fun p => head (pr_files p)) <$> procs (ext s) !! 110, (fun p => head (pr_files p)) <$> procs (ext s) !! 120)
  | _ => (None, None)
  end = (Some (Some None), Some (Some (Some 6))).
Proof. by vm_compute. Qed.

End ProcSpec.
